(* ===== verification/_CoqProject ===== *)
-Q . S2P
Prelude.v
Vmem.v
VmemInv.v
VmemSpan.v
VmemProps.v
VmemWitness.v
VmPage.v
Pmap.v
PmapProps.v
PmapKernel.v
PageAlloc.v
VmKernel.v
VmKernelProps.v
KernelMem.v
KernelTrace.v
Heap.v
Klib.v
Uuid.v
Kmem.v
KmemProps.v
KmemLarge.v
KmemTrace.v
KmemHeap.v
Vm.v
VmProps.v
UserArena.v
UserMem.v
UserCopy.v
UserAlloc.v
UserProc.v
UserFork.v
Callout.v
Sync.v
Sched.v
SchedProps.v
Intr.v
Tlb.v
Kmain.v
Vfs.v
ObjMem.v
Tmpfs.v
TmpfsProps.v
Dev.v
Ustar.v
Disk.v
Gpt.v
Nvme.v
NvmeDisk.v
DevFs.v
IoApic.v
Pci.v
Acpi.v
Smp.v
Boot.v
Exec.v
Amiga.v
