(* ===== verification/Prelude.v ===== *)
(** * The SCAL/UX kernel, modelled and verified

    This library models the C part of the SCAL/UX kernel (src/kernel-3) and
    proves what its components promise.  Definitions follow the code: they
    keep its names, its order of effects and its early returns, they are
    executable, and each file says which source file it models.

    ** How code is modelled

    A routine is a function on an explicit state ([M S A]) with three outcomes:
    it returns ([Ok]), it stops the kernel ([Fatal]: [fatal()] or a failed
    [assert()]), or the C standard gives it no meaning ([Undef]: a NULL or stale
    pointer, a read past an object, overflow of an [int]).  Theorems that
    a routine does its work say that its outcome is [Ok].  Integers are [Z] with
    their wrap-around written out ([w64], [w32], [s32]); pointers are the
    addresses of records, in [gmap]s or as keys in queues; the intrusive lists
    of sys/queue.h are lists in order.  A function pointer is its value, and the
    code behind it an argument, or it is the code itself.

    ** The parts and how they fit together

    - Memory, bottom up.  Vmem (kern/vmem.c): arenas of boundary tags.  VmemInv,
      VmemSpan and VmemProps hold its invariant [sys_ok] and the theorems about
      [vmem_xalloc] and [vmem_xfree]; VmemWitness concrete arenas.  VmPage
      (vm/vm_page.c): physical memory as bytes, page queues, MDLs.  Pmap and
      PmapProps (x86_64/vm.c): page tables in that memory; [pt_ok] says that the
      tables form a tree apart from the free pages.  PmapKernel: the kernel's half,
      which all address spaces share.  VmKernel and VmKernelProps
      (vm/vm_kernel.c): the kernel's address space, two arenas over the three parts
      before.  KernelMem has the invariant [kernel_ok] of wired memory, KernelTrace what
      holds after any number of requests.
      PageAlloc is the interface of [vm_kalloc] and [vm_kfree]; [kernel_pages] in
      KernelMem is the kernel's instance, a refill of the tag pool included, [bump_pages] a small one.
    - The heap.  Kmem (kern/kmem_slab.c) is proved against PageAlloc: KmemProps the
      zones of small objects, whose slabs are one page; KmemLarge those of large
      objects, whose headers and control blocks are objects of two internal zones;
      KmemTrace what holds after any number of requests.  Heap is the interface of
      [kmem_alloc] for its clients; KmemHeap shows that the slab allocator over the
      kernel's pages implements it.
    - Processes' memory.  Vm (vm/vm.c and the pageable half of x86_64/vm.c) is
      built on Heap and on the kernel state inside it; VmProps proves what each page
      fault and each copy of an object does.  UserMem adds the processor's loads and stores
      and the page fault's handler (x86_64/intr.c), and relates loads and stores to
      those of a flat memory; UserArena is about the arena of a map, UserAlloc about
      [vm_allocate].  UserProc puts them together: what a process does is a run
      of a flat memory that grows by ranges of zeros.  UserCopy shows that copies of objects are
      snapshots, UserFork that forks are, through all these layers.
    - Threads.  Callout (kern/task.c: the timer queue), Sync (kern/sync.h,
      kern/task.c: mutexes and semaphores, as steps of any number of threads),
      Sched and SchedProps (kern/task.c, x86_64/machdep.c: run queues and wait
      queues on any number of CPUs), Intr (x86_64/intr.c: the dispatcher, built
      on Sched), IoApic (dev/IOApic.m: from a device's line to a vector of Intr),
      Acpi (dev/acpi/AcpiPC.m: the tables that list the I/O APICs) and Pci (dev/PCIBus.m: the functions on a
      bus and their interrupts) on it, Tlb (x86_64/vm.c, x86_64/intr.c: invalidation across CPUs).
    - Start-up.  Kmain (x86_64/kmain.c): message buffer, physical memory, CPUs.
      Smp: the start of the other processors, as steps.  Boot: the entry point
      up to there, over the memory and the interrupts' models together.
      Ustar (posix/posix_main.c): unpacking the initial ramdisk, over Vfs.
      Exec (posix/exec.c): a program's initial stack.
      Amiga (amiga/stand/loadscalux.c): the loader for another machine, a program
      of its own.
    - Files.  Vfs (posix/vfs.c): the class [Vnodes] has the operations of
      vnodes, [DirTree] what they promise, [resolve] the plain walk that
      [vfs_lookup] refines.  ObjMem is the interface to memory objects; Tmpfs and
      TmpfsProps (tmpfs/*.c, part of dev/dev.c) implement [Vnodes] and [DirTree] on
      it; Dev (dev/dev.c) dispatches to drivers.
    - Storage.  Disk (devicekit/DKDisk.m, DKLogicalDisk.m): transfers through stacks
      of logical disks, for any drive: [DriveMethods] has a drive's operations, [Drives]
      and [WritableDrives] what they promise.  Gpt (dev/GPTVolumeManager.m): the partition table, the
      disks and device files made for it, over the class [DeviceNodes], which DevFs implements with Tmpfs and
      Dev.  Nvme (dev/NVMeController.m): the queues, as steps of the driver and of the
      device, which is what the NVMe specification says it is.  NvmeDisk: reading
      through them, which implements [Drives].
    - Libraries.  Klib (libkern/klib.c) and Uuid (libkern/uuid.c).
    - Prelude, this file: outcomes and the monad, machine integers, rounding,
      and the queues with their lemmas.

    ** What the theorems show

    - Allocation is safe: arenas never hand out overlapping ranges, whatever the
      sequence of requests ([vmem_requests_safe]), each call does what it says and
      keeps the invariant, imported spans go back whole; the same for
      [vm_kalloc] and [vm_kfree] with their pages and mappings, whatever the
      sequence ([kernel_requests_safe]), and for the slab allocator's objects, up to a
      page each, in any sequence ([kmem_requests_safe]) and in batches
      ([kmem_alloc_free_correct]).
    - Translation: entering a mapping changes the translation of one page; a first
      touch gives a zero page; a write to a shared page gives a copy and leaves
      the other sharer's bytes alone.  So a process sees a flat memory, whatever it
      loads and stores ([user_run_flat]), and copying an object, though it copies no
      page, makes a snapshot ([object_copy_snapshot]), and so does a fork of a process all
      of whose objects have been touched ([vm_map_fork_snapshot]); an untouched one stops
      the kernel ([vm_object_copy_untouched]).
    - Start-up: whatever the memory map, with regions of at most 2 GiB, the kernel that
      [_start] makes is sound and its first allocation goes through all the layers
      ([start_correct]); a larger region overflows an [int] ([init_region_overflow]); all
      processors come up, in every interleaving.
    - Interrupts: a handler that is installed for a line is the one its vector calls, no two lines
      share a vector ([handleGSI_correct]), and the tick switches threads.
    - Concurrency: mutual exclusion and the semaphore's count hold in every
      interleaving of the waiters' steps, the locks of the threads among them, whoever
      holds those at the start; rescheduling takes the next thread and loses none; a
      shootdown that ends has reached every CPU.
    - Files: path lookup refines the walk down the tree, creation adds one name,
      written bytes are read back, unpacking ends and installs every entry; a
      program reads its arguments and environment back from its stack.
    - Storage: whatever the order in which threads, the device and the handler
      run, a request is served and called back at most once, and the handler stops the kernel
      exactly when it reads an error that the device reports ([nvme_requests_safe]); without
      such errors, and while the ring has room, every request is called back ([nvme_all_called]); a read of a partition puts what the namespace holds at its place
      into the buffer's pages ([nvme_disk_read]); probing makes the disks that the table
      describes, one block short ([gpt_probe_correct]), and their files lead to their driver
      ([devfs_make_node_correct]).
    - Devices: the I/O APICs of the ACPI table are started, each with its lines
      ([init_ioapics_correct]), the scan of a bus gives each NVMe function to the driver once
      ([pci_scan_correct]), identifiers are read back ([eisaid_roundtrip]).
    - Where the code does not do what it means to, a theorem says what it does
      instead: a wake-up lost between the count and the queue of a mutex, a thread that waits
      for its own lock after an early wake-up, a write to a file that is too large for the
      kernel's map, the heap
      entered by two processors at once during start-up, two CPUs that start shootdowns and wait for each other, a wake-up before the
      sleeper has switched away, page counters that do not come back, a directory
      read in pieces that loses entries, a lookup through a file that stops the
      kernel, a copy across page boundaries that reads the wrong bytes, writes to a
      partition that go to the beginning of the disk, a ring of commands that is full and looks empty,
      a transfer of the maximum length that stops the kernel.

    ** Bounds and fuel

    Recursion is on data wherever the code's loops are.  Fuel is used for the
    loops to a NUL byte (Klib: the distance to the NUL is enough, as its
    theorems show), for filesystems mounted on top of each other (Vfs: [mounts]),
    and for the loop over tar headers, which need not end ([unpack_stuck]; one turn
    per entry is enough for an archive, [unpack_archive]).  The refill of the tag
    pool and of the slab headers is tied one level up, which is as deep as the
    code's flags let it recurse.  Sizes are bounded in the theorems by what the
    code's types hold: ranges of wired pages are shorter than 2 GiB and regions of memory no longer, where
    the [int]s that run over them overflow; the references to a page of an anonymous object are
    counted in 24 bits ([s24]), and the theorems on copies have room there; a semaphore has fewer
    than 2^31 permits; a file in memory ends where the kernel's map does ([om_limit]); a program
    has fewer than 2^31 strings of arguments.  The reference counts of memory objects and vnodes, which are
    [int]s, are [Z] without a bound.  Heap speaks of objects of at most 256 bytes, those of the
    zones whose slabs are one page, which bounds an anonymous map to 1024 pages
    in VmProps and the files on processes; that the map itself, a larger object, can be
    allocated is a hypothesis of the theorem on forks.  MDLs too are objects of the heap, so that
    the theorems on storage are about MDLs of at most 29 pages; a read by NVMe is of at most
    the controller's maximum, itself at most 4096 blocks.  The fuel of [prp_fill] is the pages plus
    the lists, one of which each turn passes; that of a list of capabilities is 256, more than a
    list that ends can have ([cap_list_short]), and that of the walk over the table of interrupt controllers its
    bytes.

    ** Not modelled

    Assembly (locore.S, the register exchange of a switch); the other
    Objective-C: the device tree's registration, the walk over the ACPI namespace and the display, the start-up and the
    admin queue of NVMe; ext2 beyond its magic number; vendored code (the terminal emulator,
    nanoprintf, liballoc, lai); [loadelf] and [sys_exec] of
    posix/exec.c, which is not compiled and calls functions that do not exist; kasan.c, whose
    hooks are empty; vm_pageout.c, which is empty.  Of modelled files: print-outs,
    stack traces, the threads [_start] makes, CR3 loads; locks
    that an operation holds from start to end, where nothing is proved
    about its interleaving; the interleaving of two processes' accesses to memory, and
    [vm_deallocate] within a process's run; in Sync, waits of the same threads for other
    objects, which take and leave the threads' locks too. *)

From stdpp Require Export prelude gmap list strings.
From Stdlib Require Export ZArith Lia.

#[global] Open Scope Z_scope.
#[export] Set Warnings "-clear-no-such-hyp".

(** ** Outcomes

    A kernel routine either returns, or calls [fatal()] (a failed [assert()]
    does so too: it prints and spins with interrupts off, so it never
    returns), or does something the C language gives no meaning to. *)
Inductive result (A : Type) : Type :=
| Ok (a : A)
| Fatal (why : string)
| Undef (why : string).
Arguments Ok {A} a.
Arguments Fatal {A} why.
Arguments Undef {A} why.

Definition M (S A : Type) : Type := S → result (A * S).

#[export] Instance M_ret {S} : MRet (M S) := λ A (a : A) s, Ok (a, s).
#[export] Instance M_bind {S} : MBind (M S) := λ A B f m s,
  match m s with
  | Ok (a, s') => f a s'
  | Fatal w => Fatal w
  | Undef w => Undef w
  end.

Definition fatal {S A} (why : string) : M S A := λ _, Fatal why.
Definition undef {S A} (why : string) : M S A := λ _, Undef why.
Definition mget {S} : M S S := λ s, Ok (s, s).
Definition mput {S} (s : S) : M S unit := λ _, Ok ((), s).
Definition mmodify {S} (f : S → S) : M S unit := λ s, Ok ((), f s).
(** [assert(e)] of libkern/klib.h. *)
Definition massert {S} (b : bool) (why : string) : M S unit :=
  if b then mret () else fatal why.
(** Run [m] only when [b] holds: an [if] without [else]. *)
Definition mwhen {S} (b : bool) (m : M S unit) : M S unit :=
  if b then m else mret ().
(** A pointer that must be valid to be dereferenced. *)
Definition deref {S A} (o : option A) (why : string) : M S A :=
  match o with Some a => mret a | None => undef why end.

Fixpoint mfor {S A} (l : list A) (f : A → M S unit) : M S unit :=
  match l with
  | [] => mret ()
  | x :: l' => f x ;; mfor l' f
  end.

(** [m] returns [a] and leaves the state [s']. *)
Notation "m '@' s '⇓' a , s'" := (m s = Ok (a, s'))
  (at level 70, s at next level, a at next level, s' at next level,
   only parsing) : stdpp_scope.

Definition is_fatal {A} (r : result A) : Prop :=
  match r with Fatal _ => True | _ => False end.
Definition is_undef {A} (r : result A) : Prop :=
  match r with Undef _ => True | _ => False end.
Definition is_ok {A} (r : result A) : Prop :=
  match r with Ok _ => True | _ => False end.

Section monad_facts.
Context {S : Type}.

Lemma bind_Ok {A B} (m : M S A) (f : A → M S B) s b s' :
  (m ≫= f) s = Ok (b, s') ↔ ∃ a s1, m s = Ok (a, s1) ∧ f a s1 = Ok (b, s').
Proof.
  unfold mbind, M_bind. split.
  - destruct (m s) as [[a s1]| |] eqn:E; intros; simplify_eq; eauto.
  - by intros (a & s1 & -> & ?).
Qed.

Lemma bind_step {A B} (m : M S A) (f : A → M S B) s a s1 :
  m s = Ok (a, s1) → (m ≫= f) s = f a s1.
Proof. unfold mbind, M_bind. by intros ->. Qed.

Lemma mmodify_ok (f : S → S) s : mmodify f s = Ok ((), f s).
Proof. done. Qed.

Lemma massert_bind {B} w (f : unit → M S B) s : (massert true w ≫= f) s = f () s.
Proof. done. Qed.

Lemma deref_bind {A B} (a : A) w (f : A → M S B) s : (deref (Some a) w ≫= f) s = f a s.
Proof. done. Qed.

Lemma mret_Ok {A} (a b : A) (s s' : S) :
  mret (M := M S) a s = Ok (b, s') ↔ a = b ∧ s = s'.
Proof. unfold mret, M_ret. split; [intros; by simplify_eq|by intros [-> ->]]. Qed.

Lemma massert_Ok b w (u : unit) (s s' : S) :
  massert b w s = Ok (u, s') ↔ b = true ∧ s = s'.
Proof.
  unfold massert. destruct b; unfold mret, M_ret, fatal; split.
  - intros; by simplify_eq.
  - intros [_ ->]. by destruct u.
  - done.
  - by intros [? ?].
Qed.

Lemma deref_Ok {A} (o : option A) w a (s s' : S) :
  deref o w s = Ok (a, s') ↔ o = Some a ∧ s = s'.
Proof.
  unfold deref. destruct o; unfold mret, M_ret, undef; split;
    first [by intros; simplify_eq | by intros [? ->]; simplify_eq | naive_solver].
Qed.
End monad_facts.

(** Invert a hypothesis that says a monadic program returned. *)
Ltac minv_step :=
  match goal with
  | H : (_ ≫= _) _ = Ok _ |- _ =>
      apply bind_Ok in H; destruct H as (? & ? & ? & H); cbn beta in H
  | H : mbind _ _ _ = Ok _ |- _ =>
      apply bind_Ok in H; destruct H as (? & ? & ? & H); cbn beta in H
  | H : mret _ _ = Ok _ |- _ => apply mret_Ok in H; destruct H; subst
  | H : massert _ _ _ = Ok _ |- _ => apply massert_Ok in H; destruct H; subst
  | H : deref _ _ _ = Ok _ |- _ => apply deref_Ok in H; destruct H; subst
  | H : mget _ = Ok _ |- _ => unfold mget in H; simplify_eq
  | H : mput _ _ = Ok _ |- _ => unfold mput in H; simplify_eq
  | H : mmodify _ _ = Ok _ |- _ => unfold mmodify in H; simplify_eq
  | H : fatal _ _ = Ok _ |- _ => discriminate H
  | H : undef _ _ = Ok _ |- _ => discriminate H
  | H : Fatal _ = Ok _ |- _ => discriminate H
  | H : Undef _ = Ok _ |- _ => discriminate H
  | H : Ok _ = Ok _ |- _ => injection H as ?; subst
  end.
Ltac minv := repeat (minv_step; simplify_eq/=).

(** ** Machine integers *)

Definition w64 (z : Z) : Z := z mod 2^64.
Definition w32 (z : Z) : Z := z mod 2^32.
Definition w16 (z : Z) : Z := z mod 2^16.
Definition w8 (z : Z) : Z := z mod 2^8.
(** Conversion of a wider integer to [int]. *)
Definition s32 (z : Z) : Z := (z + 2^31) mod 2^32 - 2^31.

(** A signed bit-field of 24 bits. *)
Definition s24 (z : Z) : Z := (z + 2^23) mod 2^24 - 2^23.

Lemma w64_small z : 0 ≤ z < 2^64 → w64 z = z.
Proof. apply Z.mod_small. Qed.
Lemma w64_range z : 0 ≤ w64 z < 2^64.
Proof. apply Z.mod_pos_bound. lia. Qed.
Lemma w32_small z : 0 ≤ z < 2^32 → w32 z = z.
Proof. apply Z.mod_small. Qed.
Lemma w32_range z : 0 ≤ w32 z < 2^32.
Proof. apply Z.mod_pos_bound. lia. Qed.
Lemma s32_small z : - 2^31 ≤ z < 2^31 → s32 z = z.
Proof. intros. unfold s32. rewrite Z.mod_small; lia. Qed.
Lemma s24_small z : - 2^23 ≤ z < 2^23 → s24 z = z.
Proof. intros. unfold s24. rewrite Z.mod_small; lia. Qed.
Lemma s32_range z : - 2^31 ≤ s32 z < 2^31.
Proof. unfold s32. pose proof (Z.mod_pos_bound (z + 2^31) (2^32)). lia. Qed.

(** Test of a flag bit: [flags & mask]. *)
Definition has_flag (flags mask : Z) : bool := negb (Z.land flags mask =? 0).

(** Case analysis on every comparison of the goal. *)
Ltac zcases :=
  repeat match goal with
  | |- context [?a <=? ?b] => destruct (Z.leb_spec a b)
  | |- context [?a <? ?b] => destruct (Z.ltb_spec a b)
  | |- context [?a =? ?b] => destruct (Z.eqb_spec a b)
  end; simpl; try lia.

(** ** Page arithmetic: machine/vm.h and the macros of vm/vm.h *)

Definition PGSIZE : Z := 4096.
(** [ROUNDUP(addr, align)]: [(addr + align - 1) & ~(align - 1)] on [uintptr_t]. *)
Definition ROUNDUP (addr align : Z) : Z :=
  Z.land (w64 (addr + align - 1)) (w64 (Z.lnot (align - 1))).
Definition ROUNDDOWN (addr align : Z) : Z :=
  Z.land (w64 addr) (w64 (Z.lnot (align - 1))).
Definition PGROUNDUP (addr : Z) : Z := ROUNDUP addr PGSIZE.
Definition PGROUNDDOWN (addr : Z) : Z := ROUNDDOWN addr PGSIZE.

(** [(t << k) | b] for a [b] of [k] bits. *)
Lemma lor_shiftl_add t b k : 0 ≤ k → 0 ≤ b < 2^k → Z.lor (Z.shiftl t k) b = 2^k * t + b.
Proof.
  intros Hk Hb.
  assert (Z.land (Z.shiftl t k) b = 0) as H0.
  { apply Z.bits_inj'. intros i Hi. rewrite Z.land_spec, Z.bits_0, Z.shiftl_spec by lia.
    destruct (decide (i < k)); [by rewrite Z.testbit_neg_r by lia|].
    rewrite <-(Z.mod_small b (2^k)) by lia. rewrite Z.mod_pow2_bits_high by lia. apply andb_false_r. }
  rewrite <-Z.lxor_lor, <-Z.add_nocarry_lxor by done. rewrite Z.shiftl_mul_pow2 by lia. lia.
Qed.

(** Clearing the low bits, with masks of [w] bits. *)
Lemma land_lnot_mod w x k :
  0 ≤ k < w → 0 ≤ x < 2^w →
  Z.land x (Z.lnot (2^k - 1) mod 2^w) = x / 2^k * 2^k.
Proof.
  intros Hk Hx. rewrite <-Z.shiftr_div_pow2, <-Z.shiftl_mul_pow2 by lia.
  apply Z.bits_inj'. intros i Hi.
  rewrite Z.land_spec, Z.shiftl_spec by lia.
  destruct (decide (i < w)).
  - rewrite Z.mod_pow2_bits_low, Z.lnot_spec by lia.
    replace (2^k - 1) with (Z.ones k) by (rewrite Z.ones_equiv; lia).
    destruct (decide (i < k)).
    + rewrite Z.ones_spec_low by lia. rewrite (Z.testbit_neg_r _ (i - k)) by lia.
      apply andb_false_r.
    + rewrite Z.ones_spec_high by lia. rewrite Z.shiftr_spec by lia.
      rewrite Z.sub_add. apply andb_true_r.
  - rewrite Z.mod_pow2_bits_high by lia. rewrite andb_false_r.
    rewrite Z.shiftr_spec by lia. rewrite Z.sub_add.
    symmetry. destruct (decide (x = 0)) as [->|]; [apply Z.bits_0|].
    apply Z.bits_above_log2; [lia|]. apply Z.log2_lt_pow2; [lia|].
    apply Z.lt_le_trans with (2^w); [lia|]. apply Z.pow_le_mono_r; lia.
Qed.

Lemma land_lnot_ones x k :
  0 ≤ k < 64 → 0 ≤ x < 2^64 →
  Z.land x (w64 (Z.lnot (2^k - 1))) = x / 2^k * 2^k.
Proof. apply land_lnot_mod. Qed.

Lemma ROUNDUP_eq addr k :
  0 ≤ k < 64 → 0 ≤ addr → addr + 2^k - 1 < 2^64 →
  ROUNDUP addr (2^k) = (addr + 2^k - 1) / 2^k * 2^k.
Proof.
  intros. unfold ROUNDUP. assert (0 < 2^k) by (apply Z.pow_pos_nonneg; lia).
  rewrite w64_small by lia. apply land_lnot_ones; lia.
Qed.

Lemma ROUNDDOWN_eq addr k :
  0 ≤ k < 64 → 0 ≤ addr < 2^64 → ROUNDDOWN addr (2^k) = addr / 2^k * 2^k.
Proof. intros. unfold ROUNDDOWN. rewrite w64_small by lia. by apply land_lnot_ones. Qed.

Lemma PGROUNDUP_eq addr :
  0 ≤ addr → addr + 4095 < 2^64 → PGROUNDUP addr = (addr + 4095) / 4096 * 4096.
Proof.
  intros. unfold PGROUNDUP, PGSIZE. change 4096 with (2^12) at 1.
  rewrite ROUNDUP_eq by lia. change (2^12) with 4096. do 2 f_equal. lia.
Qed.

Lemma PGROUNDDOWN_eq addr :
  0 ≤ addr < 2^64 → PGROUNDDOWN addr = addr / 4096 * 4096.
Proof. intros. unfold PGROUNDDOWN, PGSIZE. by apply (ROUNDDOWN_eq addr 12). Qed.

(** ** Intrusive queues

    The kernel's containers are the [TAILQ], [LIST], [SIMPLEQ] and [SLIST]
    macros of sys/queue.h.  A queue is modelled by the list of its elements in
    order; elements are identified by a key (their address). *)
Section queue.
Context {A : Type} (key : A → Z).

Fixpoint tq_find (k : Z) (l : list A) : option A :=
  match l with
  | [] => None
  | x :: l' => if key x =? k then Some x else tq_find k l'
  end.
(** [TAILQ_NEXT]: the element after the one with key [k]. *)
Fixpoint tq_next (k : Z) (l : list A) : option A :=
  match l with
  | [] => None
  | x :: l' => if key x =? k then head l' else tq_next k l'
  end.
(** [TAILQ_PREV], [prev] being the element before the list at hand. *)
Fixpoint tq_prev_from (prev : option A) (k : Z) (l : list A) : option A :=
  match l with
  | [] => None
  | x :: l' => if key x =? k then prev else tq_prev_from (Some x) k l'
  end.
Definition tq_prev := tq_prev_from None.
(** [TAILQ_REMOVE] *)
Fixpoint tq_remove (k : Z) (l : list A) : list A :=
  match l with
  | [] => []
  | x :: l' => if key x =? k then l' else x :: tq_remove k l'
  end.
(** [TAILQ_INSERT_BEFORE] *)
Fixpoint tq_insert_before (k : Z) (n : A) (l : list A) : list A :=
  match l with
  | [] => []
  | x :: l' => if key x =? k then n :: x :: l' else x :: tq_insert_before k n l'
  end.
(** [TAILQ_INSERT_AFTER], [LIST_INSERT_AFTER] *)
Fixpoint tq_insert_after (k : Z) (n : A) (l : list A) : list A :=
  match l with
  | [] => []
  | x :: l' => if key x =? k then x :: n :: l' else x :: tq_insert_after k n l'
  end.
(** Assignment to fields of the element with key [k]. *)
Fixpoint tq_update (k : Z) (f : A → A) (l : list A) : list A :=
  match l with
  | [] => []
  | x :: l' => if key x =? k then f x :: l' else x :: tq_update k f l'
  end.

Lemma tq_find_Some k l x : tq_find k l = Some x → x ∈ l ∧ key x = k.
Proof.
  induction l as [|y l IH]; simpl; [done|].
  destruct (Z.eqb_spec (key y) k); intros; simplify_eq; [by split; [left|]|].
  destruct IH; [done|]. split; [by right|done].
Qed.
Lemma tq_find_None k l : (k ∉ (key <$> l)) → tq_find k l = None.
Proof.
  induction l as [|y l IH]; simpl; [done|].
  rewrite not_elem_of_cons. intros [? ?].
  destruct (Z.eqb_spec (key y) k); [congruence|auto].
Qed.
Lemma tq_find_None_inv k l : tq_find k l = None → (k ∉ (key <$> l)).
Proof.
  induction l as [|y l IH]; simpl; [intros; apply not_elem_of_nil|].
  destruct (Z.eqb_spec (key y) k); [done|]. rewrite not_elem_of_cons. naive_solver.
Qed.

(** The position of an element in a queue without repetitions. *)
Lemma tq_split l x :
  x ∈ l → NoDup (key <$> l) →
  ∃ l1 l2, l = l1 ++ x :: l2 ∧ (key x ∉ (key <$> l1)) ∧ (key x ∉ (key <$> l2)).
Proof.
  intros (l1 & l2 & ->)%list_elem_of_split ND. exists l1, l2. split; [done|].
  rewrite fmap_app, fmap_cons in ND.
  apply NoDup_app in ND as (_ & H1 & [H2 _]%NoDup_cons).
  split; [|done]. intros Hin. apply (H1 _ Hin). left.
Qed.

Section at_position.
Context (l1 l2 : list A) (x : A) (k : Z).
Hypothesis (Hk : key x = k) (Hl1 : k ∉ (key <$> l1)).

Ltac at_pos := induction l1 as [|y l IH]; simpl in *;
  [by rewrite (proj2 (Z.eqb_eq _ _) Hk)
  |apply not_elem_of_cons in Hl1 as [? ?];
   destruct (Z.eqb_spec (key y) k); [congruence|];
   first [by rewrite IH|by apply IH]].

Lemma tq_find_at : tq_find k (l1 ++ x :: l2) = Some x.
Proof. at_pos. Qed.
Lemma tq_next_at : tq_next k (l1 ++ x :: l2) = head l2.
Proof. at_pos. Qed.
Lemma tq_remove_at : tq_remove k (l1 ++ x :: l2) = l1 ++ l2.
Proof. at_pos. Qed.
Lemma tq_insert_before_at n :
  tq_insert_before k n (l1 ++ x :: l2) = l1 ++ n :: x :: l2.
Proof. at_pos. Qed.
Lemma tq_insert_after_at n :
  tq_insert_after k n (l1 ++ x :: l2) = l1 ++ x :: n :: l2.
Proof. at_pos. Qed.
Lemma tq_update_at f : tq_update k f (l1 ++ x :: l2) = l1 ++ f x :: l2.
Proof. at_pos. Qed.
Lemma tq_prev_from_at p :
  tq_prev_from p k (l1 ++ x :: l2) =
    match last l1 with Some y => Some y | None => p end.
Proof.
  revert p. induction l1 as [|y l IH]; intros p; simpl in *.
  { by rewrite (proj2 (Z.eqb_eq _ _) Hk). }
  apply not_elem_of_cons in Hl1 as [? ?].
  destruct (Z.eqb_spec (key y) k); [congruence|]. rewrite IH by done.
  change (match l with [] => Some y | _ :: _ => last l end) with (last (y :: l)).
  rewrite last_cons. by destruct (last l).
Qed.
Lemma tq_prev_at : tq_prev k (l1 ++ x :: l2) = last l1.
Proof. unfold tq_prev. rewrite tq_prev_from_at. by destruct (last l1). Qed.
End at_position.
End queue.

Create Rewrite HintDb queue.
#[export] Hint Rewrite @fmap_app @fmap_cons @length_app : queue.
