(* ===== verification/Vmem.v ===== *)
(** * VMem, the general-purpose resource allocator: kern/vmem.c, kern/vmem_impl.h

    An arena is a queue of boundary tags ([vmem_seg_t]): span markers, each
    followed by the free and allocated segments of the span.  A tag in use is
    a member of exactly one [segqueue], so the model keeps the tag structures
    themselves in that queue, under their address [seg_id]; the [seglist]
    linkage is kept as lists of addresses, one per freelist, hash bucket and
    the span list, as in the code.

    The spinlock and the priority level that protect the tag free list have no
    effect on a single thread of control and are left out.  The arena's
    [allocfn] and [freefn] are function pointers: the model keeps the pointer
    value and takes the code behind it as the parameters [call_alloc] and
    [call_free]; [X] is the state that code has besides the arenas. *)

From S2P Require Import Prelude.
Open Scope Z_scope.

(** ** Data: kern/vmem.h, kern/vmem_impl.h *)

Definition kVMemSleep : Z := 0.
Definition kVMemNoSleep : Z := 1.
Definition kVMemExact : Z := 2.
Definition kVMemBootstrap : Z := 4.

Definition ERESOURCEEXHAUSTED : Z := 1200.

Definition kNFreeLists : nat := 64.
Definition kNHashBuckets : Z := 16.

Inductive seg_type :=
| kVMemSegFree
| kVMemSegAllocated
| kVMemSegSpan
| kVMemSegSpanImported.

#[export] Instance seg_type_eq_dec : EqDecision seg_type.
Proof. solve_decision. Defined.

(** [struct vmem_seg]; [is_static] is neither set nor read by the code. *)
Record vmem_seg := Seg {
  seg_id : Z;        (** the address of the structure *)
  seg_ty : seg_type;
  seg_base : Z;
  seg_size : Z;
}.

#[export] Instance vmem_seg_eq_dec : EqDecision vmem_seg.
Proof. solve_decision. Defined.

(** [struct vmem] *)
Record vmem := Arena {
  vm_name : string;
  vm_base : Z;
  vm_size : Z;
  vm_quantum : Z;
  vm_flags : Z;
  vm_allocfn : Z;    (** 0 for NULL *)
  vm_freefn : Z;
  vm_source : Z;     (** 0 for NULL *)
  segqueue : list vmem_seg;
  freelist : list (list Z);
  hashtab : list (list Z);
  spanlist : list Z;
}.

(** The arenas by address, and the pool of unused tags
    ([free_segs], [nfreesegs]). *)
Record vstate := VState {
  arenas : gmap Z vmem;
  free_segs : list Z;
  nfreesegs : Z;
}.

(** ** Operations on one arena *)

(** [freelist(size)]: [CHAR_BIT * sizeof(vmem_addr_t) - clzl(size) - 1], that
    is the position of the highest bit set ([clzl(0)] is undefined). *)
Definition clzl (x : Z) : Z := 63 - Z.log2 x.
Definition freelist_index (size : Z) : Z := 64 - clzl size - 1.

Definition set_queue (f : list vmem_seg → list vmem_seg) (a : vmem) : vmem :=
  Arena (vm_name a) (vm_base a) (vm_size a) (vm_quantum a) (vm_flags a)
    (vm_allocfn a) (vm_freefn a) (vm_source a)
    (f (segqueue a)) (freelist a) (hashtab a) (spanlist a).
Definition set_lists (fl : list (list Z) → list (list Z))
    (ht : list (list Z) → list (list Z)) (sp : list Z → list Z) (a : vmem) : vmem :=
  Arena (vm_name a) (vm_base a) (vm_size a) (vm_quantum a) (vm_flags a)
    (vm_allocfn a) (vm_freefn a) (vm_source a)
    (segqueue a) (fl (freelist a)) (ht (hashtab a)) (sp (spanlist a)).

Definition find_seg (id : Z) (a : vmem) : option vmem_seg :=
  tq_find seg_id id (segqueue a).

(** [LIST_INSERT_HEAD] on the list with index [i]. *)
Definition bucket_push (i : nat) (id : Z) (bs : list (list Z)) : list (list Z) :=
  alter (cons id) i bs.

Definition id_remove (id : Z) (l : list Z) : list Z := tq_remove (λ x, x) id l.

(** [LIST_REMOVE(seg, seglist)] unlinks [seg] from the list it is on, which
    may be a freelist, a hash bucket or the span list. *)
Definition seglist_remove (id : Z) (a : vmem) : vmem :=
  set_lists (fmap (id_remove id)) (fmap (id_remove id)) (id_remove id) a.

Definition freelist_insert (s : vmem_seg) (a : vmem) : vmem :=
  set_lists (bucket_push (Z.to_nat (freelist_index (seg_size s))) (seg_id s))
    (λ x, x) (λ x, x) a.

(** [murmur64]: arithmetic on [uint64_t]. *)
Definition murmur64 (h0 : Z) : Z :=
  let h := Z.lxor h0 (Z.shiftr h0 33) in
  let h := w64 (h * 0xff51afd7ed558ccd) in
  let h := Z.lxor h (Z.shiftr h 33) in
  let h := w64 (h * 0xc4ceb9fe1a85ec53) in
  Z.lxor h (Z.shiftr h 33).

Definition hashbucket_index (addr : Z) : Z := murmur64 addr mod kNHashBuckets.

Definition hashtab_insert (s : vmem_seg) (a : vmem) : vmem :=
  set_lists (λ x, x)
    (bucket_push (Z.to_nat (hashbucket_index (seg_base s))) (seg_id s)) (λ x, x) a.

(** The [LIST_FOREACH] of [vmem_add_internal] over the span list, [spans]
    being the markers not looked at yet: the last span before [base]. *)
Fixpoint last_span_before (base : Z) (afterspan : option vmem_seg)
    (spans : list vmem_seg) : option vmem_seg :=
  match spans with
  | [] => afterspan
  | it :: spans' =>
      if seg_base it >=? base then afterspan
      else last_span_before base (Some it) spans'
  end.

(** The markers on the span list. *)
Definition span_segs (a : vmem) : list vmem_seg := omap (λ id, find_seg id a) (spanlist a).

(** [vmem_add_internal] after its two calls of [seg_alloc]: insertion of the
    marker [newspan] and of the free segment [newfree]. *)
Definition insert_span (afterspan : option vmem_seg) (newspan newfree : vmem_seg)
    (a : vmem) : vmem :=
  let a1 :=
    match afterspan with
    | Some af =>
        let nextspan := tq_next (λ x, x) (seg_id af) (spanlist a) in
        let a' := set_lists (λ x, x) (λ x, x)
                    (tq_insert_after (λ x, x) (seg_id af) (seg_id newspan)) a in
        match nextspan with
        | Some n => set_queue (tq_insert_before seg_id n newspan) a'
        | None => set_queue (λ q, q ++ [newspan]) a'
        end
    | None =>
        set_queue (cons newspan) (set_lists (λ x, x) (λ x, x) (cons (seg_id newspan)) a)
    end in
  freelist_insert newfree
    (set_queue (tq_insert_after seg_id (seg_id newspan) newfree) a1).

(** [split_seg] on the arena: [seg] becomes the allocation [addr, size); the
    tags [left] and [right] take what remains of it on either side.  Which of
    the two tags were not needed is decided by the same two tests. *)
Definition split_left (seg : vmem_seg) (left addr : Z) : option vmem_seg :=
  if addr >? seg_base seg
  then Some (Seg left kVMemSegFree (seg_base seg) (w64 (addr - seg_base seg)))
  else None.
Definition split_right (seg : vmem_seg) (right addr size : Z) : option vmem_seg :=
  if w64 (addr + size) <? w64 (seg_base seg + seg_size seg)
  then Some (Seg right kVMemSegFree (w64 (addr + size))
               (w64 (w64 (seg_base seg + seg_size seg) - w64 (addr + size))))
  else None.
Definition split_arena (seg : vmem_seg) (left right addr size : Z) (a : vmem) : vmem :=
  let a := seglist_remove (seg_id seg) a in
  let a := match split_left seg left addr with
           | Some l => freelist_insert l (set_queue (tq_insert_before seg_id (seg_id seg) l) a)
           | None => a end in
  let a := match split_right seg right addr size with
           | Some r => freelist_insert r (set_queue (tq_insert_after seg_id (seg_id seg) r) a)
           | None => a end in
  let seg' := Seg (seg_id seg) kVMemSegAllocated addr size in
  hashtab_insert seg' (set_queue (tq_update seg_id (seg_id seg) (λ _, seg')) a).

(** The search loop of [vmem_xalloc]: where in [freeseg] the allocation would
    go, if it fits there. *)
Definition fit_addr (size min flags : Z) (freeseg : vmem_seg) : option Z :=
  if seg_base freeseg <=? min then
    (if w64 (min + size) >? w64 (seg_base freeseg + seg_size freeseg)
     then None else Some min)
  else if has_flag flags kVMemExact && (seg_base freeseg >? min) then None
  else
    (if w64 (seg_base freeseg + size) >? w64 (seg_base freeseg + seg_size freeseg)
     then None else Some (seg_base freeseg)).

Fixpoint first_fit (size min flags : Z) (l : list vmem_seg) : option (vmem_seg * Z) :=
  match l with
  | [] => None
  | s :: l' =>
      match fit_addr size min flags s with
      | Some addr => Some (s, addr)
      | None => first_fit size min flags l'
      end
  end.

(** The segments on freelist [i]. *)
Definition freelist_segs (a : vmem) (i : nat) : list vmem_seg :=
  omap (λ id, find_seg id a) (default [] (freelist a !! i)).

(** [search:] freelists [i], [i+1], ... , [i+n-1] in turn. *)
Fixpoint search_freelists (size min flags : Z) (a : vmem) (i n : nat) : option (vmem_seg * Z) :=
  match n with
  | O => None
  | S n' =>
      match first_fit size min flags (freelist_segs a i) with
      | Some r => Some r
      | None => search_freelists size min flags a (S i) n'
      end
  end.

(** The index starts at [freelist(size) - 1] and is incremented before use. *)
Definition search (size min flags : Z) (a : vmem) : option (vmem_seg * Z) :=
  let i := Z.to_nat (freelist_index size) in
  search_freelists size min flags a i (kNFreeLists - i).

Definition freeseg_expand (seg : vmem_seg) (newbase newsize : Z) (a : vmem) : vmem :=
  let old := freelist_index (seg_size seg) in
  let seg' := Seg (seg_id seg) (seg_ty seg) newbase newsize in
  let a := set_queue (tq_update seg_id (seg_id seg) (λ _, seg')) a in
  if freelist_index newsize =? old then a
  else freelist_insert seg' (seglist_remove (seg_id seg) a).

Definition prev_seg (s : vmem_seg) (a : vmem) : option vmem_seg :=
  tq_prev seg_id (seg_id s) (segqueue a).
Definition next_seg (s : vmem_seg) (a : vmem) : option vmem_seg :=
  tq_next seg_id (seg_id s) (segqueue a).
Definition segqueue_remove (s : vmem_seg) (a : vmem) : vmem :=
  set_queue (tq_remove seg_id (seg_id s)) a.

(** [LIST_FOREACH (seg, bucket, seglist) if (seg->base == addr)] *)
Definition hashtab_find (addr : Z) (a : vmem) : option vmem_seg :=
  tq_find seg_base addr
    (omap (λ id, find_seg id a)
       (default [] (hashtab a !! Z.to_nat (hashbucket_index addr)))).

Definition empty_arena (name : string) (base size quantum allocfn freefn source flags : Z)
    : vmem :=
  Arena name base size quantum flags allocfn freefn source
    [] (replicate kNFreeLists []) (replicate (Z.to_nat kNHashBuckets) []) [].

(** ** The allocator on the kernel's state *)

Section vmem_ops.
Context {X : Type}.
Abbreviation St := (vstate * X)%type.
Implicit Types (v addr size flags : Z).

Definition get_arena v : M St vmem :=
  s ← mget; deref (arenas s.1 !! v) "vmem_t pointer".
Definition put_arena v (a : vmem) : M St unit :=
  mmodify (λ s, (VState (<[v := a]> (arenas s.1)) (free_segs s.1) (nfreesegs s.1), s.2)).
Definition modify_arena v (f : vmem → vmem) : M St unit :=
  a ← get_arena v; put_arena v (f a).

(** [seg_alloc], [seg_free]: the tag pool. *)
Definition seg_alloc : M St Z :=
  s ← mget;
  match free_segs s.1 with
  | [] => fatal "assert(!LIST_EMPTY(&free_segs))"
  | id :: l =>
      mput (VState (arenas s.1) l (nfreesegs s.1 - 1), s.2);;
      mret id
  end.
Definition seg_free (id : Z) : M St unit :=
  mmodify (λ s, (VState (arenas s.1) (id :: free_segs s.1) (nfreesegs s.1 + 1), s.2)).

(** The parameters: [vm_kalloc] of vm/vm_kernel.c (which calls back into this
    module, one level down), and the functions behind [allocfn]/[freefn]. *)
Variable vm_kalloc : Z → Z → M St Z.
Variable call_alloc : Z → Z → Z → Z → M St (Z * Z).
Variable call_free : Z → Z → Z → Z → M St unit.

(** [struct seg_block]: 63 chunks of 64 bytes after a 16-byte link, the tag at
    offset 8 of its chunk. *)
Definition seg_block_tags (block : Z) : list Z :=
  (λ i, block + 16 + 64 * i + 8) <$> seqZ 0 63.

Definition seg_refill flags : M St unit :=
  s ← mget;
  if nfreesegs s.1 >=? 128 then mret () else
  block ← vm_kalloc 1 (if has_flag flags kVMemSleep then 3 else 2);
  massert (negb (block =? 0)) "assert(block != NULL)";;
  mfor (seg_block_tags block) seg_free.

(** Returns 0 and the tag of the free segment. *)
Definition vmem_add_internal v (spantype : seg_type) (base size flags : Z) : M St (Z * Z) :=
  a ← get_arena v;
  let afterspan := last_span_before base None (span_segs a) in
  newspan ← seg_alloc;
  newfree ← seg_alloc;
  modify_arena v (insert_span afterspan (Seg newspan spantype base size)
                    (Seg newfree kVMemSegFree base size));;
  mret (0, newfree).

(** [strcpy] into the 64-byte [name]; a span is added when the arena has a
    size and no source. *)
Definition vmem_init v (name : string) (base size quantum allocfn freefn source flags : Z)
    : M St unit :=
  (if decide (64 ≤ String.length name)%nat then undef "strcpy past vmem->name" else mret ());;
  put_arena v (empty_arena name base size quantum allocfn freefn source flags);;
  if negb (size =? 0) && (source =? 0)
  then vmem_add_internal v kVMemSegSpan base size flags;; mret ()
  else mret ().

Definition vmem_add v (base size flags : Z) : M St Z :=
  '(r, _) ← vmem_add_internal v kVMemSegSpan base size flags; mret r.

(** [split_seg]: [assert(seg->type == kVMemSegFree)], the arena, and the tags
    not needed go back to the pool. *)
Definition split_seg v (seg : vmem_seg) (left right addr size : Z) : M St unit :=
  massert (bool_decide (seg_ty seg = kVMemSegFree)) "assert(seg->type == kVMemSegFree)";;
  modify_arena v (split_arena seg left right addr size);;
  (if split_left seg left addr is Some _ then mret () else seg_free left);;
  (if split_right seg right addr size is Some _ then mret () else seg_free right).

(** Returns the code's [int] and, when that is not negative, the tag of the
    imported free segment. *)
Definition try_import v (size flags : Z) : M St (Z * Z) :=
  a ← get_arena v;
  if vm_allocfn a =? 0 then mret (- ERESOURCEEXHAUSTED, 0) else
  '(r, addr) ← call_alloc (vm_allocfn a) (vm_source a) size flags;
  if r <? 0 then mret (r, 0) else
  '(r, out) ← vmem_add_internal v kVMemSegSpanImported addr size flags;
  if r <? 0
  then call_free (vm_freefn a) (vm_source a) addr size;; mret (r, out)
  else mret (r, out).

(** Returns the code's [int] and what it stores in [*out], if it does. *)
Definition vmem_xalloc v (size align phase nocross min max flags : Z) : M St (Z * option Z) :=
  if size =? 0 then undef "__builtin_clzl(0)" else
  massert (align =? 0) "assert(align == 0)";;
  massert (phase =? 0) "assert(phase == 0)";;
  massert ((min =? 0) || has_flag flags kVMemExact) "assert(min == 0 || flags & kVMemExact)";;
  massert (max =? 0) "assert(max == 0)";;
  mwhen (negb (has_flag flags kVMemBootstrap)) (seg_refill flags);;
  newlseg ← seg_alloc;
  newrseg ← seg_alloc;
  a ← get_arena v;
  match search size min flags a with
  | Some (freeseg, addr) =>
      split_seg v freeseg newlseg newrseg addr size;;
      mret (0, Some addr)
  | None =>
      '(r, id) ← try_import v size flags;
      if r <? 0 then mret (r, None) else
      a ← get_arena v;
      freeseg ← deref (find_seg id a) "freeseg";
      split_seg v freeseg newlseg newrseg (seg_base freeseg) size;;
      mret (0, Some (seg_base freeseg))
  end.

(** Merge the freed segment [seg] into a free left neighbour.  Returns the
    segment that now stands for the region and whether a merge took place. *)
Definition coalesce_left v (seg lseg : vmem_seg) : M St (vmem_seg * bool) :=
  if decide (seg_ty lseg = kVMemSegFree) then
    let size' := w64 (seg_size lseg + seg_size seg) in
    modify_arena v (freeseg_expand lseg (seg_base lseg) size');;
    modify_arena v (segqueue_remove seg);;
    seg_free (seg_id seg);;
    mret (Seg (seg_id lseg) kVMemSegFree (seg_base lseg) size', true)
  else mret (seg, false).

Definition coalesce_right v (seg : vmem_seg) (coalesced_left : bool) : M St (vmem_seg * bool) :=
  a ← get_arena v;
  match next_seg seg a with
  | Some rseg =>
      if decide (seg_ty rseg = kVMemSegFree) then
        let size' := w64 (seg_size rseg + seg_size seg) in
        modify_arena v (freeseg_expand rseg (seg_base seg) size');;
        modify_arena v (segqueue_remove seg);;
        mwhen coalesced_left (modify_arena v (seglist_remove (seg_id seg)));;
        seg_free (seg_id seg);;
        mret (Seg (seg_id rseg) kVMemSegFree (seg_base seg) size', true)
      else mret (seg, coalesced_left)
  | None => mret (seg, coalesced_left)
  end.

(** Give a wholly free imported span back to the source. *)
Definition release_span v (seg lseg : vmem_seg) (coalesced : bool) : M St unit :=
  a ← get_arena v;
  massert (match next_seg seg a with
           | Some rseg => bool_decide (seg_ty rseg = kVMemSegSpanImported)
           | None => true end) "assert(!right || right->type == kVMemSegSpanImported)";;
  call_free (vm_freefn a) (vm_source a) (seg_base lseg) (seg_size lseg);;
  mwhen coalesced (modify_arena v (seglist_remove (seg_id seg)));;
  modify_arena v (segqueue_remove seg);;
  seg_free (seg_id seg);;
  modify_arena v (seglist_remove (seg_id lseg));;
  modify_arena v (segqueue_remove lseg);;
  seg_free (seg_id lseg).

(** The result is the size, narrowed to the declared [int]. *)
Definition vmem_xfree v (addr size : Z) : M St Z :=
  a ← get_arena v;
  match hashtab_find addr a with
  | None => fatal "vmem_xfree: segment at address"
  | Some seg =>
      let size := seg_size seg in
      modify_arena v (seglist_remove (seg_id seg));;
      lseg ← deref (prev_seg seg a) "left";
      '(seg1, coalesced_left) ← coalesce_left v seg lseg;
      a1 ← get_arena v;
      lseg ← (if coalesced_left then deref (prev_seg seg1 a1) "left" else mret lseg);
      '(seg2, coalesced) ← coalesce_right v seg1 coalesced_left;
      (if decide (seg_ty lseg = kVMemSegSpanImported ∧ seg_size seg2 = seg_size lseg)
       then release_span v seg2 lseg coalesced
       else if coalesced then mret ()
       else modify_arena v (segqueue_remove seg2);; seg_free (seg_id seg2));;
      mret (s32 size)
  end.

(** [vmem_earlyinit]: the 128 static tags of 56 bytes each. *)
Definition vmem_earlyinit (static_segs : Z) : M St unit :=
  mfor ((λ i, static_segs + 56 * i) <$> seqZ 0 128) seg_free.

Definition vmem_destroy v : M St unit :=
  a ← get_arena v;
  massert (forallb (λ b, match b with [] => true | _ => false end) (hashtab a))
    "assert(LIST_EMPTY(&vmem->hashtab[i]))";;
  mfor (segqueue a) (λ s, seg_free (seg_id s)).
End vmem_ops.
