(* ===== verification/VmemInv.v ===== *)
(** * The invariant of a VMem arena and how the arena operations keep it

    [layout] is the geometry (spans in order and disjoint, every segment inside
    its span and after the one before it), [arena_ok] adds the agreement of the
    freelists, the hash table and the span list with the segment queue.  The
    lemmas here are about the pure operations of [Vmem]; [VmemProps] lifts
    them to the allocator's entry points. *)

From S2P Require Import Prelude Vmem.
Open Scope Z_scope.

Definition seg_end (s : vmem_seg) : Z := seg_base s + seg_size s.
Definition is_span (s : vmem_seg) : bool :=
  match seg_ty s with kVMemSegSpan | kVMemSegSpanImported => true | _ => false end.

(** ** Geometry of the segment queue

    [lo] is the first address not yet passed in the current span, [hi] the
    span's end. *)
Fixpoint layout (lo hi : Z) (q : list vmem_seg) : Prop :=
  match q with
  | [] => True
  | s :: q' =>
      0 < seg_size s ∧ seg_end s < 2^64 ∧
      if is_span s
      then hi ≤ seg_base s ∧ layout (seg_base s) (seg_end s) q'
      else lo ≤ seg_base s ∧ seg_end s ≤ hi ∧ layout (seg_end s) hi q'
  end.

(** Where the pair [lo, hi] has moved to after a part of the queue. *)
Fixpoint adv (lo hi : Z) (q : list vmem_seg) : Z * Z :=
  match q with
  | [] => (lo, hi)
  | s :: q' => if is_span s then adv (seg_base s) (seg_end s) q' else adv (seg_end s) hi q'
  end.

Lemma layout_app lo hi q1 q2 :
  layout lo hi (q1 ++ q2) ↔ layout lo hi q1 ∧ layout (adv lo hi q1).1 (adv lo hi q1).2 q2.
Proof.
  revert lo hi. induction q1 as [|s q1 IH]; intros lo hi; simpl; [tauto|].
  destruct (is_span s); rewrite IH; tauto.
Qed.

Lemma adv_app lo hi q1 q2 :
  adv lo hi (q1 ++ q2) = adv (adv lo hi q1).1 (adv lo hi q1).2 q2.
Proof.
  revert lo hi. induction q1 as [|s q1 IH]; intros; simpl; [done|].
  destruct (is_span s); apply IH.
Qed.

Lemma layout_weaken lo lo' hi q : lo' ≤ lo → layout lo hi q → layout lo' hi q.
Proof. destruct q as [|s q]; simpl; [done|]. destruct (is_span s); naive_solver lia. Qed.

(** A queue that starts with a span, or is empty, does not depend on [lo], and
    only needs [hi] not to pass the base of that span. *)
Definition starts_span (q : list vmem_seg) : Prop :=
  match q with [] => True | s :: _ => is_span s = true end.

Lemma layout_starts_span lo hi lo' hi' q :
  starts_span q → (∀ s, head q = Some s → hi' ≤ seg_base s) →
  layout lo hi q → layout lo' hi' q.
Proof.
  destruct q as [|s q]; simpl; [done|]. intros -> Hhd. specialize (Hhd s eq_refl).
  naive_solver lia.
Qed.

Lemma layout_pos lo hi q s : layout lo hi q → s ∈ q → 0 < seg_size s ∧ seg_end s < 2^64.
Proof.
  revert lo hi. induction q as [|x q IH]; intros lo hi HL Hs;
    [by apply not_elem_of_nil in Hs|apply elem_of_cons in Hs as [->|Hs]; simpl in HL; [naive_solver|]].
  destruct HL as (? & ? & HL). destruct (is_span x); naive_solver.
Qed.

(** [lo] only grows, and never passes [hi], inside the queue. *)
Lemma layout_bounds lo hi q s :
  0 ≤ lo → 0 ≤ hi → layout lo hi q → s ∈ q → 0 ≤ seg_base s.
Proof.
  revert lo hi. induction q as [|x q IH]; intros lo hi Hlo Hhi HL Hs;
    [by apply not_elem_of_nil in Hs|apply elem_of_cons in Hs as [->|Hs]];
    simpl in HL; destruct HL as (? & ? & HL); unfold seg_end in *; destruct (is_span x).
  - lia.
  - lia.
  - destruct HL as [? HL]. eapply IH; [| |exact HL|done]; unfold seg_end in *; lia.
  - destruct HL as (? & ? & HL). eapply IH; [| |exact HL|done]; unfold seg_end in *; lia.
Qed.

Lemma adv_nonneg lo hi q :
  0 ≤ lo → 0 ≤ hi → layout lo hi q → 0 ≤ (adv lo hi q).1 ∧ 0 ≤ (adv lo hi q).2.
Proof.
  revert lo hi. induction q as [|x q IH]; intros lo hi ?? HL; simpl in *; [done|].
  destruct HL as (? & ? & HL). unfold seg_end in *.
  destruct (is_span x); apply IH; unfold seg_end; naive_solver lia.
Qed.

(** Replacing a block of segments by another that stays where it was. *)
Lemma layout_replace lo hi q1 b m q2 :
  layout lo hi (q1 ++ b ++ q2) →
  (∀ lo hi, layout lo hi b →
     layout lo hi m ∧ (adv lo hi m).1 ≤ (adv lo hi b).1 ∧ (adv lo hi m).2 = (adv lo hi b).2) →
  layout lo hi (q1 ++ m ++ q2).
Proof.
  rewrite !layout_app. intros (H1 & Hb & H2) Hm.
  destruct (Hm _ _ Hb) as (? & ? & E). split_and!; [done..|].
  rewrite E. by eapply layout_weaken.
Qed.

(** ** Disjointness *)

Definition disjoint_segs (s t : vmem_seg) : Prop :=
  seg_end s ≤ seg_base t ∨ seg_end t ≤ seg_base s.

(** Once past [lo] inside the span, nothing that follows reaches below it. *)
Lemma layout_above lo hi q t :
  lo ≤ hi → layout lo hi q → t ∈ q → lo ≤ seg_base t.
Proof.
  revert lo hi. induction q as [|x q IH]; intros lo hi Hle HL Ht;
    [by apply not_elem_of_nil in Ht|apply elem_of_cons in Ht as [->|Ht]];
    simpl in HL; destruct HL as (? & ? & HL); unfold seg_end in *; destruct (is_span x).
  - lia.
  - lia.
  - destruct HL as [? HL]. apply IH in HL; [lia| |done]. unfold seg_end; lia.
  - destruct HL as (? & ? & HL). apply IH in HL; [|unfold seg_end; lia|done].
    unfold seg_end in *; lia.
Qed.

Lemma adv_le lo hi q : lo ≤ hi → layout lo hi q → (adv lo hi q).1 ≤ (adv lo hi q).2.
Proof.
  revert lo hi. induction q as [|x q IH]; intros lo hi ? HL; simpl in *; [done|].
  destruct HL as (? & ? & HL).
  destruct (is_span x); apply IH; unfold seg_end in *; naive_solver lia.
Qed.

Lemma layout_ordered q1 s q2 t :
  layout 0 0 (q1 ++ s :: q2) → is_span s = false → t ∈ q2 → seg_end s ≤ seg_base t.
Proof.
  rewrite layout_app. intros [H1 H2] Hs Ht. simpl in H2. rewrite Hs in H2.
  destruct H2 as (? & ? & ? & ? & H2). by eapply layout_above in H2.
Qed.

(** ** Buckets of tags

    A family of lists holds exactly the tags that [cls] assigns to each. *)
Definition bucket_ok (bs : list (list Z)) (cls : Z → option nat) : Prop :=
  ∀ i l, bs !! i = Some l → NoDup l ∧ ∀ id, id ∈ l ↔ cls id = Some i.

Definition upd {A} (f : Z → A) (k : Z) (v : A) : Z → A := λ x, if x =? k then v else f x.

Lemma bucket_ok_ext bs f g : (∀ x, f x = g x) → bucket_ok bs f → bucket_ok bs g.
Proof. intros E H i l Hl. destruct (H i l Hl). split; [done|]. intros. by rewrite <-E. Qed.

Lemma elem_of_id_remove x k (l : list Z) :
  NoDup l → x ∈ id_remove k l ↔ x ∈ l ∧ x ≠ k.
Proof.
  unfold id_remove. induction l as [|y l IH]; simpl; intros ND.
  - split; [intros []%elem_of_nil|intros [[]%elem_of_nil _]].
  - apply NoDup_cons in ND as [Hy ND]. destruct (Z.eqb_spec y k) as [->|].
    + rewrite elem_of_cons. split; [|naive_solver]. intros Hx. split; [by right|]. by intros ->.
    + rewrite !elem_of_cons, IH by done. naive_solver.
Qed.

Lemma NoDup_id_remove k (l : list Z) : NoDup l → NoDup (id_remove k l).
Proof.
  unfold id_remove. induction l as [|y l IH]; simpl; intros ND; [done|].
  apply NoDup_cons in ND as [Hy ND]. destruct (Z.eqb_spec y k); [done|].
  apply NoDup_cons. split; [|auto]. intros Hin. apply Hy.
  by apply (elem_of_id_remove y k l ND) in Hin as [? _].
Qed.

Lemma bucket_remove bs cls k :
  bucket_ok bs cls → bucket_ok (id_remove k <$> bs) (upd cls k None).
Proof.
  intros H i l Hl. apply list_lookup_fmap_Some in Hl as (l0 & -> & Hl).
  destruct (H _ _ Hl) as [ND Hin]. split; [by apply NoDup_id_remove|].
  intros id. rewrite elem_of_id_remove, Hin by done. unfold upd.
  destruct (Z.eqb_spec id k); naive_solver.
Qed.

Lemma bucket_push_ok bs cls i k :
  bucket_ok bs cls → cls k = None → bucket_ok (bucket_push i k bs) (upd cls k (Some i)).
Proof.
  intros H Hk j l Hl. unfold bucket_push in Hl.
  assert (∀ j' l', bs !! j' = Some l' → k ∉ l') as Hnew.
  { intros j' l' E Hin. destruct (H _ _ E) as [_ Hiff]. apply Hiff in Hin. congruence. }
  destruct (decide (i = j)) as [->|Hij].
  - rewrite list_lookup_alter_eq in Hl. destruct (bs !! j) as [l0|] eqn:E; simplify_eq/=.
    destruct (H _ _ E) as [ND Hin]. split; [apply NoDup_cons; eauto|].
    intros id. rewrite elem_of_cons, Hin. unfold upd.
    destruct (Z.eqb_spec id k); naive_solver.
  - rewrite list_lookup_alter_ne in Hl by done.
    destruct (H _ _ Hl) as [ND Hin]. split; [done|]. intros id. rewrite Hin. unfold upd.
    destruct (Z.eqb_spec id k); naive_solver.
Qed.

Lemma length_bucket_push i k bs : length (bucket_push i k bs) = length bs.
Proof. apply length_alter. Qed.
Lemma length_bucket_remove k bs : length (id_remove k <$> bs) = length bs.
Proof. apply length_fmap. Qed.

(** Which freelist, and which hash bucket, a tag belongs on. *)
Definition free_class (s : vmem_seg) : option nat :=
  if decide (seg_ty s = kVMemSegFree)
  then Some (Z.to_nat (freelist_index (seg_size s))) else None.
Definition hash_class (s : vmem_seg) : option nat :=
  if decide (seg_ty s = kVMemSegAllocated)
  then Some (Z.to_nat (hashbucket_index (seg_base s))) else None.
Definition classify (f : vmem_seg → option nat) (q : list vmem_seg) (id : Z) : option nat :=
  tq_find seg_id id q ≫= f.

(** ** The invariant *)
Record arena_ok (a : vmem) : Prop := ArenaOk {
  ao_ids : NoDup (seg_id <$> segqueue a);
  ao_layout : layout 0 0 (segqueue a);
  ao_nfree : length (freelist a) = kNFreeLists;
  ao_nhash : length (hashtab a) = Z.to_nat kNHashBuckets;
  ao_free : bucket_ok (freelist a) (classify free_class (segqueue a));
  ao_hash : bucket_ok (hashtab a) (classify hash_class (segqueue a));
  ao_spans : spanlist a = seg_id <$> filter (λ s, is_span s = true) (segqueue a);
}.

Lemma tq_find_app id (l1 l2 : list vmem_seg) :
  tq_find seg_id id (l1 ++ l2) =
    match tq_find seg_id id l1 with Some x => Some x | None => tq_find seg_id id l2 end.
Proof. induction l1 as [|x l1 IH]; simpl; [done|]. by destruct (seg_id x =? id). Qed.

Lemma find_seg_in a s : arena_ok a → s ∈ segqueue a → find_seg (seg_id s) a = Some s.
Proof.
  intros H Hs. destruct (tq_split seg_id _ _ Hs (ao_ids _ H)) as (q1 & q2 & E & ? & _).
  unfold find_seg. rewrite E. by apply tq_find_at.
Qed.

Lemma find_seg_Some a id s :
  find_seg id a = Some s → s ∈ segqueue a ∧ seg_id s = id.
Proof. apply tq_find_Some. Qed.

(** The members of a freelist are the free segments of its size class. *)
Lemma elem_of_freelist_segs a i s :
  arena_ok a →
  s ∈ freelist_segs a i ↔ s ∈ segqueue a ∧ free_class s = Some i ∧ (i < kNFreeLists)%nat.
Proof.
  intros H. unfold freelist_segs. rewrite list_elem_of_omap.
  destruct (freelist a !! i) as [l|] eqn:E; simpl.
  - apply lookup_lt_Some in E as Hi. rewrite (ao_nfree _ H) in Hi.
    destruct (ao_free _ H _ _ E) as [_ Hl]. split.
    + intros (id & Hid & Hs). apply Hl in Hid. unfold classify in Hid.
      unfold find_seg in Hs. rewrite Hs in Hid. apply tq_find_Some in Hs as [? _]. done.
    + intros (Hs & Hc & _). exists (seg_id s). split; [|by apply find_seg_in].
      apply Hl. unfold classify. pose proof (find_seg_in _ _ H Hs) as F.
      unfold find_seg in F. by rewrite F.
  - split; [intros (? & []%elem_of_nil & _)|]. intros (_ & _ & Hi).
    apply lookup_ge_None in E. rewrite (ao_nfree _ H) in E. lia.
Qed.

(** The search of [vmem_xfree] finds the allocated segment with that base. *)
Lemma hashbucket_index_range x : 0 ≤ hashbucket_index x < kNHashBuckets.
Proof. unfold hashbucket_index. apply Z.mod_pos_bound. done. Qed.

Lemma elem_of_bucket_segs a addr s :
  arena_ok a →
  s ∈ omap (λ id, find_seg id a)
        (default [] (hashtab a !! Z.to_nat (hashbucket_index addr))) ↔
  s ∈ segqueue a ∧ hash_class s = Some (Z.to_nat (hashbucket_index addr)).
Proof.
  intros H. rewrite list_elem_of_omap.
  assert (is_Some (hashtab a !! Z.to_nat (hashbucket_index addr))) as [l E].
  { apply lookup_lt_is_Some. rewrite (ao_nhash _ H).
    pose proof (hashbucket_index_range addr). lia. }
  rewrite E. simpl. destruct (ao_hash _ H _ _ E) as [_ Hl]. split.
  - intros (id & Hid & Hs). apply Hl in Hid. unfold classify in Hid.
    unfold find_seg in Hs. rewrite Hs in Hid. apply tq_find_Some in Hs as [? _]. done.
  - intros [Hs Hc]. exists (seg_id s). split; [|by apply find_seg_in].
    apply Hl. unfold classify. pose proof (find_seg_in _ _ H Hs) as F.
    unfold find_seg in F. by rewrite F.
Qed.

(** ** The pure operations keep the invariant *)

(** Compare two classifications of the tags of a queue built from pieces. *)
Ltac classify_ext :=
  try (let x := fresh "x" in intros x); unfold upd, classify;
  repeat (rewrite tq_find_app; simpl);
  repeat match goal with
  | |- context [?a =? ?b] => destruct (Z.eqb_spec a b); subst; try congruence; simpl
  end;
  repeat match goal with
  | H : ?k ∉ (seg_id <$> ?q) |- context [tq_find seg_id ?k ?q] =>
      rewrite (tq_find_None seg_id k q H); simpl
  end;
  try done.

(** Bucket invariants of a family built by pushes from one known by [B]. *)
Ltac solve_buckets B :=
  eapply bucket_ok_ext; cycle 1;
  [repeat eapply bucket_push_ok; [exact B|..]|..]; classify_ext.

Lemma ids_split q1 (s : vmem_seg) q2 :
  NoDup (seg_id <$> (q1 ++ s :: q2)) →
  (seg_id s ∉ (seg_id <$> q1)) ∧ (seg_id s ∉ (seg_id <$> q2)) ∧
  NoDup (seg_id <$> (q1 ++ q2)).
Proof.
  rewrite !fmap_app, fmap_cons. intros H. 
  apply NoDup_app in H as (H1 & H2 & [H3 H4]%NoDup_cons).
  split_and!; [|done|].
  - intros Hin. apply (H2 _ Hin). left.
  - apply NoDup_app. split_and!; [done| |done]. intros x Hx ?. apply (H2 x Hx). by right.
Qed.

Lemma ids_insert q1 (s : vmem_seg) q2 :
  NoDup (seg_id <$> (q1 ++ q2)) → (seg_id s ∉ (seg_id <$> (q1 ++ q2))) →
  NoDup (seg_id <$> (q1 ++ s :: q2)).
Proof.
  rewrite !fmap_app, fmap_cons. intros (H1 & H2 & H3)%NoDup_app [? ?]%not_elem_of_app.
  apply NoDup_app. split_and!; [done| |by apply NoDup_cons].
  intros x Hx [->|?]%elem_of_cons; [done|]. by eapply H2.
Qed.

Lemma freelist_index_log2 size : freelist_index size = Z.log2 size.
Proof. unfold freelist_index, clzl. lia. Qed.

Lemma freelist_index_range size : 0 < size < 2^64 → 0 ≤ freelist_index size < 64.
Proof.
  intros. rewrite freelist_index_log2. split; [apply Z.log2_nonneg|].
  apply Z.log2_lt_pow2; lia.
Qed.

Lemma id_remove_notin k (l : list Z) : (k ∉ l) → id_remove k l = l.
Proof.
  unfold id_remove. induction l as [|y l IH]; simpl; [done|].
  intros [? ?]%not_elem_of_cons. destruct (Z.eqb_spec y k); [congruence|]. by rewrite IH.
Qed.

Lemma filter_span_app l1 l2 :
  filter (λ s, is_span s = true) (l1 ++ l2) =
  filter (λ s, is_span s = true) l1 ++ filter (λ s, is_span s = true) l2.
Proof. apply filter_app. Qed.
Lemma filter_span_cons_ne s l :
  is_span s = false →
  filter (λ s, is_span s = true) (s :: l) = filter (λ s, is_span s = true) l.
Proof. intros E. apply filter_cons_False. by rewrite E. Qed.
Lemma filter_span_cons s l :
  is_span s = true →
  filter (λ s, is_span s = true) (s :: l) = s :: filter (λ s, is_span s = true) l.
Proof. intros E. by apply filter_cons_True. Qed.

(** A tag that is not a marker is not on the span list. *)
Lemma not_on_spanlist a q1 s q2 :
  arena_ok a → segqueue a = q1 ++ s :: q2 → is_span s = false →
  spanlist a = seg_id <$> filter (λ s, is_span s = true) (q1 ++ q2) ∧
  (seg_id s ∉ spanlist a).
Proof.
  intros Hok Hq Hs. pose proof (ao_ids _ Hok) as ND. rewrite Hq in ND.
  apply ids_split in ND as (N1 & N2 & _).
  assert (spanlist a = seg_id <$> filter (λ s, is_span s = true) (q1 ++ q2)) as E.
  { rewrite (ao_spans _ Hok), Hq, !filter_span_app, filter_span_cons_ne by done. done. }
  split; [done|]. rewrite E. intros (t & Et & Ht)%list_elem_of_fmap.
  apply list_elem_of_filter in Ht as [_ Ht]. apply elem_of_app in Ht.
  destruct Ht; [apply N1|apply N2]; rewrite Et; by apply list_elem_of_fmap_2.
Qed.

Lemma free_not_span s : seg_ty s = kVMemSegFree → is_span s = false.
Proof. unfold is_span. by intros ->. Qed.
Lemma alloc_not_span s : seg_ty s = kVMemSegAllocated → is_span s = false.
Proof. unfold is_span. by intros ->. Qed.

Section split.
Context (a : vmem) (q1 q2 : list vmem_seg) (s : vmem_seg) (left right addr size : Z).
Hypothesis Hok : arena_ok a.
Hypothesis Hq : segqueue a = q1 ++ s :: q2.
Hypothesis Hfree : seg_ty s = kVMemSegFree.
Hypothesis Hl : (left ∉ (seg_id <$> segqueue a)).
Hypothesis Hr : (right ∉ (seg_id <$> segqueue a)).
Hypothesis Hlr : left ≠ right.
Hypothesis Hbase : seg_base s ≤ addr.
Hypothesis Hsize : 0 < size.
Hypothesis Hend : addr + size ≤ seg_end s.

Let seg' := Seg (seg_id s) kVMemSegAllocated addr size.
Let L := option_list (split_left s left addr).
Let R := option_list (split_right s right addr size).

Lemma split_bounds : 0 ≤ seg_base s ∧ 0 < seg_size s ∧ seg_end s < 2^64.
Proof.
  assert (s ∈ segqueue a) as Hs by (rewrite Hq; set_solver).
  pose proof (layout_bounds 0 0 _ _ ltac:(done) ltac:(done) (ao_layout _ Hok) Hs).
  pose proof (layout_pos _ _ _ _ (ao_layout _ Hok) Hs). done.
Qed.

Lemma split_left_eq :
  split_left s left addr =
    if decide (seg_base s < addr)
    then Some (Seg left kVMemSegFree (seg_base s) (addr - seg_base s)) else None.
Proof.
  pose proof split_bounds. unfold seg_end in *. unfold split_left.
  rewrite Z.gtb_ltb. case_decide.
  - rewrite (proj2 (Z.ltb_lt _ _)) by lia. by rewrite w64_small by lia.
  - by rewrite (proj2 (Z.ltb_ge _ _)) by lia.
Qed.

Lemma split_right_eq :
  split_right s right addr size =
    if decide (addr + size < seg_end s)
    then Some (Seg right kVMemSegFree (addr + size) (seg_end s - (addr + size))) else None.
Proof.
  pose proof split_bounds. unfold seg_end in *. unfold split_right.
  rewrite !(w64_small (addr + size)), !(w64_small (seg_base s + seg_size s)) by lia.
  case_decide.
  - rewrite (proj2 (Z.ltb_lt _ _)) by lia. by rewrite w64_small by lia.
  - by rewrite (proj2 (Z.ltb_ge _ _)) by lia.
Qed.

Lemma seg_id_split_left :
  (seg_id s ∉ (seg_id <$> q1)) ∧ (seg_id s ∉ (seg_id <$> (q1 ++ L))).
Proof.
  pose proof (ao_ids _ Hok) as ND. rewrite Hq in ND.
  apply ids_split in ND as (N1 & _ & _). split; [done|].
  rewrite fmap_app. apply not_elem_of_app. split; [done|].
  unfold L, split_left. destruct (addr >? seg_base s); simpl; [|apply not_elem_of_nil].
  intros E%list_elem_of_singleton. apply Hl. rewrite Hq, fmap_app, fmap_cons.
  apply elem_of_app. right. simpl in E. rewrite E. left.
Qed.

Lemma split_queue :
  segqueue (split_arena s left right addr size a) = q1 ++ L ++ seg' :: R ++ q2.
Proof.
  pose proof seg_id_split_left as [N1 N2].
  unfold split_arena.
  assert (∀ a', segqueue a' = q1 ++ s :: q2 →
    segqueue (match split_left s left addr with
              | Some l => freelist_insert l (set_queue (tq_insert_before seg_id (seg_id s) l) a')
              | None => a' end) = (q1 ++ L) ++ s :: q2) as EL.
  { intros a' E. unfold L. destruct (split_left s left addr) as [l|]; simpl.
    - rewrite E, tq_insert_before_at by done. by rewrite <-app_assoc.
    - by rewrite app_nil_r. }
  assert (∀ a', segqueue a' = (q1 ++ L) ++ s :: q2 →
    segqueue (match split_right s right addr size with
              | Some r => freelist_insert r (set_queue (tq_insert_after seg_id (seg_id s) r) a')
              | None => a' end) = (q1 ++ L) ++ s :: R ++ q2) as ER.
  { intros a' E. unfold R. destruct (split_right s right addr size) as [r|]; simpl; [|done].
    by rewrite E, tq_insert_after_at by done. }
  simpl. rewrite ER by (apply EL; done). rewrite tq_update_at by done.
  by rewrite <-app_assoc.
Qed.

Lemma split_ids : NoDup (seg_id <$> (q1 ++ L ++ seg' :: R ++ q2)).
Proof.
  pose proof (ao_ids _ Hok) as ND. pose proof Hl as Hl'. pose proof Hr as Hr'.
  rewrite Hq in ND, Hl', Hr'. apply ids_split in ND as (N1 & N2 & ND).
  rewrite fmap_app, fmap_cons in Hl', Hr'.
  apply not_elem_of_app in Hl' as [Hl1 [Hl2 Hl3]%not_elem_of_cons].
  apply not_elem_of_app in Hr' as [Hr1 [Hr2 Hr3]%not_elem_of_cons].
  assert (NoDup (seg_id <$> (q1 ++ seg' :: R ++ q2))) as NR.
  { apply (ids_insert q1 seg'); unfold R, split_right; destruct (_ <? _); simpl; try done.
    - by apply ids_insert; [|rewrite fmap_app; apply not_elem_of_app].
    - rewrite fmap_app, fmap_cons, not_elem_of_app, not_elem_of_cons. auto.
    - rewrite fmap_app, not_elem_of_app. auto. }
  unfold L, split_left; destruct (_ >? _); simpl; [|done]. apply ids_insert; [done|].
  rewrite fmap_app, fmap_cons, fmap_app, not_elem_of_app, not_elem_of_cons, not_elem_of_app.
  split_and!; try done. unfold R, split_right; destruct (_ <? _); simpl; [|apply not_elem_of_nil].
  by intros ?%list_elem_of_singleton.
Qed.

Lemma split_layout : layout 0 0 (q1 ++ L ++ seg' :: R ++ q2).
Proof.
  pose proof (ao_layout _ Hok) as HL. rewrite Hq in HL.
  replace (L ++ seg' :: R ++ q2) with ((L ++ seg' :: R) ++ q2) by (by rewrite <-app_assoc).
  pose proof split_bounds.
  apply (layout_replace 0 0 q1 [s]); [done|]. intros lo hi.
  unfold L, R. rewrite split_left_eq, split_right_eq.
  unfold seg_end in *.
  repeat case_decide; simpl; rewrite ?(free_not_span s Hfree); unfold seg_end; simpl; lia.
Qed.

Lemma split_arena_ok : arena_ok (split_arena s left right addr size a).
Proof.
  pose proof split_queue as Q.
  destruct (not_on_spanlist _ _ _ _ Hok Hq (free_not_span _ Hfree)) as [Hsp Hns].
  pose proof (ao_ids _ Hok) as ND. pose proof Hl as Hl'. pose proof Hr as Hr'.
  rewrite Hq in ND, Hl', Hr'. apply ids_split in ND as (N1 & N2 & ND).
  rewrite fmap_app, fmap_cons in Hl', Hr'.
  apply not_elem_of_app in Hl' as [Hl1 [Hl2 Hl3]%not_elem_of_cons].
  apply not_elem_of_app in Hr' as [Hr1 [Hr2 Hr3]%not_elem_of_cons].
  assert (classify hash_class (segqueue a) (seg_id s) = None) as Hc.
  { unfold classify. rewrite Hq, tq_find_at by done. unfold hash_class. simpl.
    by rewrite decide_False by (rewrite Hfree; done). }
  split; try (rewrite Q; fold seg' L R).
  - apply split_ids.
  - apply split_layout.
  - unfold split_arena. destruct (split_left _ _ _), (split_right _ _ _ _); simpl;
      rewrite ?length_bucket_push, length_bucket_remove; apply Hok.
  - unfold split_arena. destruct (split_left _ _ _), (split_right _ _ _ _); simpl;
      rewrite ?length_bucket_push, length_bucket_remove; apply Hok.
  - pose proof (bucket_remove _ _ (seg_id s) (ao_free _ Hok)) as B. rewrite Hq in B.
    unfold split_arena, L, R, split_left, split_right.
    destruct (_ >? _), (_ <? _); simpl;
      solve_buckets B.
  - pose proof (bucket_remove _ _ (seg_id s) (ao_hash _ Hok)) as B. rewrite Hq in B.
    unfold split_arena, L, R, split_left, split_right.
    destruct (_ >? _), (_ <? _); simpl;
      solve_buckets B.
  - assert (spanlist (split_arena s left right addr size a) = id_remove (seg_id s) (spanlist a)) as ->.
    { unfold split_arena. by destruct (split_left _ _ _), (split_right _ _ _ _). }
    rewrite (id_remove_notin _ _ Hns), Hsp. f_equal.
    unfold L, R, split_left, split_right.
    destruct (_ >? _), (_ <? _); simpl; rewrite !filter_span_app; simpl;
      by rewrite ?filter_span_cons_ne by done.
Qed.
End split.

(** *** A segment on its way out

    While [vmem_xfree] works on a segment, the segment is in the queue but on
    no list. *)
Record arena_pend (id : Z) (a : vmem) : Prop := ArenaPend {
  ap_ids : NoDup (seg_id <$> segqueue a);
  ap_layout : layout 0 0 (segqueue a);
  ap_nfree : length (freelist a) = kNFreeLists;
  ap_nhash : length (hashtab a) = Z.to_nat kNHashBuckets;
  ap_free : bucket_ok (freelist a) (upd (classify free_class (segqueue a)) id None);
  ap_hash : bucket_ok (hashtab a) (upd (classify hash_class (segqueue a)) id None);
  ap_spans : spanlist a = seg_id <$> filter (λ s, is_span s = true) (segqueue a);
}.

Lemma ok_pend a q1 s q2 :
  arena_ok a → segqueue a = q1 ++ s :: q2 → is_span s = false →
  arena_pend (seg_id s) (seglist_remove (seg_id s) a).
Proof.
  intros Hok Hq Hs. destruct (not_on_spanlist _ _ _ _ Hok Hq Hs) as [_ Hn].
  split; simpl; rewrite ?length_bucket_remove; try apply Hok.
  - by apply bucket_remove, Hok.
  - by apply bucket_remove, Hok.
  - rewrite id_remove_notin by done. apply Hok.
Qed.

Lemma id_remove_comm i j (l : list Z) : id_remove i (id_remove j l) = id_remove j (id_remove i l).
Proof.
  unfold id_remove. induction l as [|x l IH]; simpl; [done|].
  destruct (x =? j) eqn:E1, (x =? i) eqn:E2; simpl; rewrite ?E1, ?E2; try congruence.
  apply Z.eqb_eq in E1, E2. congruence.
Qed.

Lemma bucket_push_remove i j k bs :
  j ≠ k → id_remove j <$> bucket_push i k bs = bucket_push i k (id_remove j <$> bs).
Proof.
  intros Hjk. apply list_eq. intros n. unfold bucket_push.
  rewrite list_lookup_fmap. destruct (decide (i = n)) as [->|].
  - rewrite !list_lookup_alter_eq, list_lookup_fmap.
    destruct (bs !! n); simpl; [|done]. unfold id_remove at 1. simpl.
    by rewrite (proj2 (Z.eqb_neq k j)) by done.
  - by rewrite !list_lookup_alter_ne, list_lookup_fmap by done.
Qed.

Lemma bucket_remove_comm i j (bs : list (list Z)) :
  id_remove i <$> (id_remove j <$> bs) = id_remove j <$> (id_remove i <$> bs).
Proof. rewrite <-!list_fmap_compose. apply list_fmap_ext. intros. apply id_remove_comm. Qed.

(** Taking a merged segment off its freelist late, as [vmem_xfree] does, is the
    same as taking it off first. *)
Lemma expand_remove_comm s r base size a :
  seg_id s ≠ seg_id r →
  seglist_remove (seg_id s) (segqueue_remove s (freeseg_expand r base size a)) =
  segqueue_remove s (freeseg_expand r base size (seglist_remove (seg_id s) a)).
Proof.
  intros Hne. unfold freeseg_expand, segqueue_remove, seglist_remove, freelist_insert,
    set_queue, set_lists.
  destruct (freelist_index size =? freelist_index (seg_size r)); simpl; [done|].
  rewrite bucket_push_remove by done.
  f_equal; [|apply bucket_remove_comm|apply id_remove_comm].
  by rewrite bucket_remove_comm.
Qed.

Lemma not_in_span_ids q1 (s : vmem_seg) q2 :
  is_span s = false → (seg_id s ∉ (seg_id <$> q1)) → (seg_id s ∉ (seg_id <$> q2)) →
  seg_id <$> filter (λ s, is_span s = true) (q1 ++ s :: q2) =
    seg_id <$> filter (λ s, is_span s = true) (q1 ++ q2) ∧
  (seg_id s ∉ (seg_id <$> filter (λ s, is_span s = true) (q1 ++ s :: q2))).
Proof.
  intros Hs N1 N2. rewrite !filter_span_app, filter_span_cons_ne by done.
  split; [done|]. intros (t & Et & Ht)%list_elem_of_fmap.
  rewrite <-filter_span_app in Ht.
  apply list_elem_of_filter in Ht as [_ Ht]. apply elem_of_app in Ht.
  destruct Ht; [apply N1|apply N2]; rewrite Et; by apply list_elem_of_fmap_2.
Qed.

Section coalesce.
Context (a : vmem) (q1 q2 : list vmem_seg).

(** The freed segment is dropped from the queue. *)
Lemma pend_drop s :
  arena_pend (seg_id s) a → segqueue a = q1 ++ s :: q2 → is_span s = false →
  arena_ok (segqueue_remove s a) ∧ segqueue (segqueue_remove s a) = q1 ++ q2.
Proof.
  intros Hp Hq Hs. pose proof (ap_ids _ _ Hp) as ND. rewrite Hq in ND.
  apply ids_split in ND as (N1 & N2 & ND).
  assert (segqueue (segqueue_remove s a) = q1 ++ q2) as Q.
  { simpl. rewrite Hq. by apply tq_remove_at. }
  split; [|done]. split; rewrite ?Q; try apply Hp; [done| | | |].
  - pose proof (ap_layout _ _ Hp) as HL. rewrite Hq in HL.
    apply (layout_replace 0 0 q1 [s] [] q2); [done|]. intros lo hi. simpl. rewrite Hs. simpl.
    unfold seg_end. lia.
  - pose proof (ap_free _ _ Hp) as B. rewrite Hq in B. solve_buckets B.
  - pose proof (ap_hash _ _ Hp) as B. rewrite Hq in B. solve_buckets B.
  - change (spanlist (segqueue_remove s a)) with (spanlist a).
    rewrite (ap_spans _ _ Hp), Hq. by rewrite !filter_span_app, filter_span_cons_ne.
Qed.

(** The freed segment [s] is merged into a free neighbour [k], which is on
    its left or on its right. *)
Section merge.
Context (s k : vmem_seg) (on_left : bool) (base' size' : Z).
Let pair := if on_left then [k; s] else [s; k].
Let k' := Seg (seg_id k) kVMemSegFree base' size'.
Let a' := segqueue_remove s (freeseg_expand k base' size' a).
Hypothesis Hp : arena_pend (seg_id s) a.
Hypothesis Hq : segqueue a = q1 ++ pair ++ q2.
Hypothesis Hk : seg_ty k = kVMemSegFree.
Hypothesis Hs : is_span s = false.
Hypothesis Hgeo : ∀ lo hi, layout lo hi pair →
  0 < size' ∧ base' + size' < 2^64 ∧ lo ≤ base' ∧ base' + size' ≤ hi ∧
  base' + size' ≤ (adv lo hi pair).1.

Lemma merge_ids :
  (seg_id s ∉ (seg_id <$> q1)) ∧ (seg_id s ∉ (seg_id <$> q2)) ∧
  (seg_id k ∉ (seg_id <$> q1)) ∧ (seg_id k ∉ (seg_id <$> q2)) ∧
  seg_id s ≠ seg_id k ∧ NoDup (seg_id <$> (q1 ++ q2)).
Proof.
  pose proof (ap_ids _ _ Hp) as ND. rewrite Hq in ND. unfold pair in ND.
  destruct on_left; simpl in ND;
    apply ids_split in ND as (N1 & N2 & ND); rewrite fmap_cons in N2;
    apply not_elem_of_cons in N2 as [N2 N3]; apply ids_split in ND as (N4 & N5 & ND);
    auto 10.
Qed.

Lemma merge_queue : segqueue a' = q1 ++ k' :: q2.
Proof.
  destruct merge_ids as (S1 & S2 & K1 & K2 & SK & _).
  unfold a', freeseg_expand, segqueue_remove, pair in *.
  rewrite Hk. fold k'.
  assert (∀ l1 l2, (seg_id k ∉ (seg_id <$> l1)) →
    tq_update seg_id (seg_id k) (λ _, k') (l1 ++ k :: l2) = l1 ++ k' :: l2) as U.
  { intros l1 l2 Hl. by rewrite (tq_update_at seg_id l1 l2 k). }
  destruct (_ =? _); destruct on_left; simpl in *; rewrite Hq;
    rewrite ?(cons_middle s q1), ?(app_assoc q1 [s]);
    rewrite U by (rewrite ?fmap_app, ?not_elem_of_app, ?elem_of_cons; simpl;
      rewrite ?list_elem_of_singleton; auto);
    rewrite <-?app_assoc; simpl;
    rewrite ?(cons_middle k' q1 (s :: q2)), ?(app_assoc q1 [k']);
    rewrite tq_remove_at by (rewrite ?fmap_app, ?not_elem_of_app; simpl;
      rewrite ?list_elem_of_singleton; auto);
    by rewrite <-?app_assoc.
Qed.

Lemma merge_ok : arena_ok a' ∧ segqueue a' = q1 ++ k' :: q2.
Proof.
  pose proof merge_queue as Q. split; [|done].
  destruct merge_ids as (S1 & S2 & K1 & K2 & SK & ND).
  assert (seg_id <$> filter (λ s, is_span s = true) (segqueue a) =
          seg_id <$> filter (λ s, is_span s = true) (q1 ++ q2) ∧
          (seg_id k ∉ (seg_id <$> filter (λ s, is_span s = true) (q1 ++ q2)))) as [Esp Hnk].
  { destruct (not_in_span_ids q1 k q2 (free_not_span _ Hk) K1 K2) as [E Hn].
    rewrite E in Hn. split; [|done]. rewrite Hq, !filter_span_app. do 2 f_equal.
    unfold pair. destruct on_left; simpl;
      by rewrite !filter_span_cons_ne by (done || by apply free_not_span). }
  assert (spanlist a' = spanlist a) as Espans.
  { unfold a', freeseg_expand. destruct (_ =? _); simpl; [done|].
    apply id_remove_notin. by rewrite (ap_spans _ _ Hp), Esp. }
  split; rewrite ?Q.
  - apply (ids_insert q1 k' q2 ND). rewrite fmap_app, not_elem_of_app. auto.
  - pose proof (ap_layout _ _ Hp) as HL. rewrite Hq in HL.
    apply (layout_replace 0 0 q1 pair [k'] q2 HL). intros lo hi Hpair.
    pose proof (Hgeo _ _ Hpair) as G. revert G. unfold pair.
    destruct on_left; simpl; rewrite ?Hs, ?(free_not_span _ Hk); simpl;
      unfold seg_end; simpl; lia.
  - unfold a', freeseg_expand. destruct (_ =? _); simpl;
      rewrite ?length_bucket_push, ?length_bucket_remove; apply Hp.
  - unfold a', freeseg_expand. destruct (_ =? _); simpl;
      rewrite ?length_bucket_push, ?length_bucket_remove; apply Hp.
  - unfold a', freeseg_expand.
    destruct (Z.eqb_spec (freelist_index size') (freelist_index (seg_size k))) as [Ei|Ei]; simpl.
    + pose proof (ap_free _ _ Hp) as B. rewrite Hq in B. unfold pair in B.
      destruct on_left; solve_buckets B; unfold free_class, k'; simpl; by rewrite Hk, Ei.
    + pose proof (bucket_remove _ _ (seg_id k) (ap_free _ _ Hp)) as B. rewrite Hq in B.
      unfold pair in B. destruct on_left; solve_buckets B.
  - unfold a', freeseg_expand.
    destruct (Z.eqb_spec (freelist_index size') (freelist_index (seg_size k))) as [Ei|Ei]; simpl.
    + pose proof (ap_hash _ _ Hp) as B. rewrite Hq in B. unfold pair in B.
      destruct on_left; solve_buckets B; unfold hash_class, k'; simpl; by rewrite Hk.
    + pose proof (bucket_remove _ _ (seg_id k) (ap_hash _ _ Hp)) as B. rewrite Hq in B.
      unfold pair in B. destruct on_left; solve_buckets B.
  - rewrite Espans, (ap_spans _ _ Hp), Esp. f_equal. rewrite !filter_span_app.
    by rewrite !filter_span_cons_ne by done.
Qed.
End merge.
End coalesce.
