(* ===== verification/VmemSpan.v ===== *)
(** * Adding, removing and searching spans of a VMem arena

    [vmem_add_internal] keeps the invariant when the new span meets no other;
    [vmem_xfree] may take a wholly free imported span out again; the search of
    [vmem_xalloc] is sound and complete for the free segments. *)

From S2P Require Import Prelude Vmem VmemInv.
Open Scope Z_scope.

(** ** Adding and removing spans *)

Lemma span_segs_eq a : arena_ok a → span_segs a = filter (λ s, is_span s = true) (segqueue a).
Proof.
  intros H. unfold span_segs. rewrite (ao_spans _ H).
  assert (∀ l : list vmem_seg, (∀ s, s ∈ l → find_seg (seg_id s) a = Some s) →
    omap (λ id, find_seg id a) (seg_id <$> l) = l) as Hl.
  { induction l as [|s l IH]; csimpl; intros Hf; [done|].
    rewrite Hf by left. by rewrite IH by (intros; apply Hf; by right). }
  apply Hl. intros s [_ Hs]%list_elem_of_filter. by apply find_seg_in.
Qed.

(** Where the span list is cut by [vmem_add_internal], and the corresponding
    place in the segment queue. *)
Lemma span_cut base acc q :
  ∃ q1 q2, q = q1 ++ q2 ∧ starts_span q2 ∧
    last_span_before base acc (filter (λ s, is_span s = true) q) =
      match last (filter (λ s, is_span s = true) q1) with Some x => Some x | None => acc end ∧
    (∀ s, s ∈ q1 → is_span s = true → seg_base s < base) ∧
    (∀ s, head q2 = Some s → base ≤ seg_base s).
Proof.
  revert acc. induction q as [|s q IH]; intros acc.
  { exists [], []. simpl. split_and!; try done. intros ? []%elem_of_nil. }
  destruct (is_span s) eqn:Es.
  - rewrite filter_span_cons by done. simpl. rewrite Z.geb_leb.
    destruct (Z.leb_spec base (seg_base s)).
    + exists [], (s :: q). simpl. split_and!; try done.
      * intros ? []%elem_of_nil.
      * intros ? [= <-]. done.
    + destruct (IH (Some s)) as (q1 & q2 & -> & ? & E & ? & ?).
      exists (s :: q1), q2. split_and!; try done.
      * rewrite E, filter_span_cons, last_cons by done. by destruct (last _).
      * intros t [->|?]%elem_of_cons ?; auto.
  - rewrite filter_span_cons_ne by done. destruct (IH acc) as (q1 & q2 & -> & ? & E & ? & ?).
    exists (s :: q1), q2. split_and!; try done.
    + by rewrite filter_span_cons_ne by done.
    + intros t [->|?]%elem_of_cons ?; [congruence|auto].
Qed.

Lemma adv_last_span lo hi q :
  (adv lo hi q).2 =
    match last (filter (λ s, is_span s = true) q) with Some s => seg_end s | None => hi end.
Proof.
  revert lo hi. induction q as [|s q IH]; intros lo hi; simpl; [done|].
  destruct (is_span s) eqn:Es.
  - rewrite IH, filter_span_cons, last_cons by done. by destruct (last _).
  - by rewrite IH, filter_span_cons_ne by done.
Qed.

Lemma starts_span_nil q :
  starts_span q → filter (λ s, is_span s = true) q = [] → q = [].
Proof. destruct q as [|s q]; simpl; [done|]. intros E. by rewrite filter_span_cons. Qed.

Lemma layout_no_span q :
  layout 0 0 q → filter (λ s, is_span s = true) q = [] → q = [].
Proof.
  destruct q as [|s q]; simpl; [done|]. destruct (is_span s) eqn:Es.
  - by rewrite filter_span_cons.
  - intros (? & ? & ? & ? & _). unfold seg_end in *. lia.
Qed.

Lemma NoDup_ids_filter q :
  NoDup (seg_id <$> q) → NoDup (seg_id <$> filter (λ s, is_span s = true) q).
Proof.
  induction q as [|s q IH]; intros ND; [done|]. rewrite fmap_cons in ND.
  apply NoDup_cons in ND as [Hn ND]. destruct (is_span s) eqn:Es.
  - rewrite filter_span_cons, fmap_cons by done. apply NoDup_cons. split; [|auto].
    intros (t & Et & [_ Ht]%list_elem_of_filter)%list_elem_of_fmap.
    apply Hn. rewrite Et. by apply list_elem_of_fmap_2.
  - rewrite filter_span_cons_ne by done. auto.
Qed.

(** The interval does not meet any span of the arena. *)
Definition span_disjoint (base size : Z) (a : vmem) : Prop :=
  ∀ s, s ∈ segqueue a → is_span s = true → base + size ≤ seg_base s ∨ seg_end s ≤ base.

Section add_span.
Context (a : vmem) (ns nf : Z) (ty : seg_type) (base size : Z).
Let newspan := Seg ns ty base size.
Let newfree := Seg nf kVMemSegFree base size.
Hypothesis Hok : arena_ok a.
Hypothesis Hty : is_span newspan = true.
Hypothesis Hns : (ns ∉ (seg_id <$> segqueue a)).
Hypothesis Hnf : (nf ∉ (seg_id <$> segqueue a)).
Hypothesis Hne : ns ≠ nf.
Hypothesis Hrange : 0 ≤ base ∧ 0 < size ∧ base + size < 2^64.
Hypothesis Hdisj : span_disjoint base size a.

Let a' := insert_span (last_span_before base None (span_segs a)) newspan newfree a.

Lemma insert_span_queue :
  ∃ q1 q2, segqueue a = q1 ++ q2 ∧ starts_span q2 ∧
    segqueue a' = q1 ++ newspan :: newfree :: q2 ∧
    spanlist a' = seg_id <$> (filter (λ s, is_span s = true) q1 ++ newspan ::
                              filter (λ s, is_span s = true) q2) ∧
    freelist a' = bucket_push (Z.to_nat (freelist_index size)) nf (freelist a) ∧
    hashtab a' = hashtab a ∧
    (adv 0 0 q1).2 ≤ base ∧ (∀ s, head q2 = Some s → base + size ≤ seg_base s).
Proof.
  destruct (span_cut base None (segqueue a)) as (q1 & q2 & Hq & Hst & E & H1 & H2).
  exists q1, q2. split; [done|]. split; [done|].
  pose proof (ao_ids _ Hok) as ND. pose proof (ao_spans _ Hok) as SP.
  pose proof (ao_layout _ Hok) as HL. pose proof Hns as Hns'. pose proof Hnf as Hnf'.
  rewrite Hq in ND, SP, HL, Hns', Hnf'. rewrite filter_span_app in SP.
  rewrite fmap_app, not_elem_of_app in Hns', Hnf'.
  assert (∀ s, head q2 = Some s → base + size ≤ seg_base s) as Hhd.
  { intros s Hs. pose proof (H2 s Hs). destruct q2 as [|s' q2]; simplify_eq/=.
    destruct (Hdisj s); [rewrite Hq; set_solver|done|done|].
    apply layout_app in HL as [_ HL]. simpl in HL. unfold seg_end in *. lia. }
  unfold a', insert_span. rewrite (span_segs_eq a Hok), E.
  destruct (last (filter (λ s, is_span s = true) q1)) as [af|] eqn:Elast.
  - assert (af ∈ q1 ∧ is_span af = true) as [Hin Haf].
    { apply last_Some_elem_of in Elast. by apply list_elem_of_filter in Elast as [? ?]. }
    apply last_Some in Elast as [l1 El1].
    assert (seg_id af ∉ (seg_id <$> l1)) as Hl1.
    { assert (NoDup (seg_id <$> (l1 ++ [af]))) as N.
      { rewrite <-El1. rewrite fmap_app in ND. apply NoDup_app in ND as [ND _].
        by apply NoDup_ids_filter. }
      apply ids_split in N. naive_solver. }
    assert (tq_next (λ x, x) (seg_id af) (spanlist a) =
            head (seg_id <$> filter (λ s, is_span s = true) q2)) as ->.
    { rewrite SP, El1, <-app_assoc, fmap_app. csimpl.
      rewrite tq_next_at; [done|done|by rewrite list_fmap_id]. }
    assert (tq_insert_after (λ x, x) (seg_id af) ns (spanlist a) =
            seg_id <$> (filter (λ s, is_span s = true) q1 ++ newspan ::
                        filter (λ s, is_span s = true) q2)) as Hsp.
    { rewrite SP, El1, !fmap_app, <-!app_assoc. csimpl.
      rewrite tq_insert_after_at; [done|done|by rewrite list_fmap_id]. }
    split_and!; try done.
    + destruct q2 as [|s2 q2].
      * rewrite app_nil_r in *. simpl. rewrite Hq. rewrite tq_insert_after_at; tauto.
      * simpl in Hst. rewrite filter_span_cons by done. simpl. rewrite Hq.
        destruct (ids_split _ _ _ ND) as (N1 & _ & _).
        rewrite (tq_insert_before_at seg_id q1 q2 s2) by done.
        apply tq_insert_after_at; tauto.
    + by destruct (head (seg_id <$> _)); simpl; rewrite ?Hsp.
    + by destruct (head (seg_id <$> _)); simpl; rewrite ?Hsp.
    + by destruct (head (seg_id <$> _)); simpl; rewrite ?Hsp.
    + rewrite adv_last_span, El1, last_snoc.
      destruct (Hdisj af); [rewrite Hq; set_solver|done| |lia].
      pose proof (H1 _ Hin Haf). lia.
  - assert (q1 = []) as ->.
    { apply layout_app in HL as [HL _]. apply layout_no_span; [done|]. by apply last_None. }
    simpl in *. rewrite Hq, SP, Z.eqb_refl. split_and!; try done. lia.
Qed.

Lemma insert_span_ok : arena_ok a'.
Proof.
  destruct insert_span_queue as (q1 & q2 & Hq & Hst & Hq' & Hsp & Hfl & Hht & Hhi & Hhd).
  pose proof (ao_ids _ Hok) as ND. pose proof Hns as Hns'. pose proof Hnf as Hnf'.
  rewrite Hq in ND, Hns', Hnf'.
  assert (∀ x, upd (classify free_class (segqueue a)) nf (Some (Z.to_nat (freelist_index size))) x
               = classify free_class (segqueue a') x) as Ef.
  { rewrite fmap_app, not_elem_of_app in Hns', Hnf'. destruct Hns', Hnf'.
    rewrite Hq, Hq'. unfold newspan, newfree, is_span in *. simpl in *.
    classify_ext; unfold free_class; simpl; by destruct ty. }
  assert (∀ x, classify hash_class (segqueue a) x = classify hash_class (segqueue a') x) as Eh.
  { rewrite fmap_app, not_elem_of_app in Hns', Hnf'. destruct Hns', Hnf'.
    rewrite Hq, Hq'. unfold newspan, newfree, is_span in *. simpl in *.
    classify_ext; unfold hash_class; simpl; by destruct ty. }
  split.
  - rewrite Hq'. apply (ids_insert q1 newspan); [apply ids_insert|]; try done.
    rewrite fmap_app, fmap_cons, not_elem_of_app, not_elem_of_cons.
    rewrite fmap_app, not_elem_of_app in Hns'. naive_solver.
  - rewrite Hq'. pose proof (ao_layout _ Hok) as HL. rewrite Hq in HL.
    apply layout_app in HL as [HL1 HL2]. apply layout_app. split; [done|].
    simpl. rewrite Hty. unfold seg_end. simpl. split_and!; try lia.
    eapply layout_starts_span; [done|done|exact HL2].
  - rewrite Hfl, length_bucket_push. apply Hok.
  - rewrite Hht. apply Hok.
  - rewrite Hfl. eapply bucket_ok_ext; [exact Ef|]. apply bucket_push_ok; [apply Hok|].
    unfold classify. by rewrite tq_find_None.
  - rewrite Hht. eapply bucket_ok_ext; [exact Eh|]. apply Hok.
  - rewrite Hsp, Hq', !filter_span_app, filter_span_cons by done.
    by rewrite filter_span_cons_ne.
Qed.
End add_span.

(** A marker with nothing after it up to the next span is taken out. *)
Lemma remove_span_ok a q1 sp q2 :
  arena_ok a → segqueue a = q1 ++ sp :: q2 → is_span sp = true → starts_span q2 →
  let a' := segqueue_remove sp (seglist_remove (seg_id sp) a) in
  arena_ok a' ∧ segqueue a' = q1 ++ q2.
Proof.
  intros Hok Hq Hsp Hst a'. pose proof (ao_ids _ Hok) as ND. rewrite Hq in ND.
  destruct (ids_split _ _ _ ND) as (N1 & N2 & ND').
  assert (segqueue a' = q1 ++ q2) as Q.
  { unfold a'. simpl. rewrite Hq. by apply tq_remove_at. }
  split; [|done].
  assert (free_class sp = None ∧ hash_class sp = None) as [Cf Ch].
  { unfold free_class, hash_class. unfold is_span in Hsp. by destruct (seg_ty sp). }
  split; rewrite ?Q.
  - done.
  - pose proof (ao_layout _ Hok) as HL. rewrite Hq in HL.
    apply layout_app in HL as [HL1 HL2]. apply layout_app. split; [done|].
    simpl in HL2. rewrite Hsp in HL2. destruct HL2 as (? & ? & ? & HL2).
    eapply layout_starts_span; [done| |exact HL2]. intros s Hs.
    destruct q2 as [|s' q2]; simplify_eq/=. rewrite Hst in HL2. unfold seg_end in *. lia.
  - simpl. rewrite length_bucket_remove. apply Hok.
  - simpl. rewrite length_bucket_remove. apply Hok.
  - pose proof (bucket_remove _ _ (seg_id sp) (ao_free _ Hok)) as B. rewrite Hq in B.
    simpl. solve_buckets B.
  - pose proof (bucket_remove _ _ (seg_id sp) (ao_hash _ Hok)) as B. rewrite Hq in B.
    simpl. solve_buckets B.
  - simpl. rewrite (ao_spans _ Hok), Hq, !filter_span_app, filter_span_cons by done.
    rewrite !fmap_app, fmap_cons. unfold id_remove.
    rewrite (tq_remove_at (λ x, x)); [done|done|]. rewrite list_fmap_id.
    intros (t & Et & [_ Ht]%list_elem_of_filter)%list_elem_of_fmap.
    apply N1. rewrite Et. by apply list_elem_of_fmap_2.
Qed.

(** ** The search *)

(** No end address wraps: the hypothesis under which the tests of the search,
    done on 64-bit integers, mean what they say. *)
Definition no_wrap (size min : Z) (a : vmem) : Prop :=
  0 < size ∧ 0 ≤ min ∧ min + size < 2^64 ∧
  ∀ s, s ∈ segqueue a → seg_base s + size < 2^64.

Lemma fit_addr_sound size min flags a s addr :
  arena_ok a → no_wrap size min a → s ∈ segqueue a →
  fit_addr size min flags s = Some addr →
  seg_base s ≤ addr ∧ addr + size ≤ seg_end s ∧
  (addr = min ∨ addr = seg_base s ∧ min < addr ∧ has_flag flags kVMemExact = false).
Proof.
  intros Hok (? & ? & ? & Hw) Hs. specialize (Hw s Hs).
  pose proof (layout_bounds 0 0 _ _ ltac:(done) ltac:(done) (ao_layout _ Hok) Hs).
  pose proof (layout_pos _ _ _ _ (ao_layout _ Hok) Hs). unfold seg_end in *.
  unfold fit_addr. rewrite !Z.gtb_ltb.
  rewrite !(w64_small (min + size)), !(w64_small (seg_base s + seg_size s)),
    !(w64_small (seg_base s + size)) by lia.
  destruct (Z.leb_spec (seg_base s) min).
  - destruct (Z.ltb_spec (seg_base s + seg_size s) (min + size)); intros [= <-]; lia.
  - destruct (has_flag flags kVMemExact) eqn:E; simpl.
    + rewrite (proj2 (Z.ltb_lt _ _)) by lia. done.
    + destruct (Z.ltb_spec (seg_base s + seg_size s) (seg_base s + size)); intros [= <-]; lia.
Qed.

(** A request can be met from [s]: it has the size, and the exact address when
    one is asked for. *)
Definition can_serve (size min flags : Z) (s : vmem_seg) : Prop :=
  seg_ty s = kVMemSegFree ∧
  if has_flag flags kVMemExact
  then seg_base s ≤ min ∧ min + size ≤ seg_end s
  else seg_base s + size ≤ seg_end s ∧ (seg_base s ≤ min → min + size ≤ seg_end s).

Lemma fit_addr_complete size min flags a s :
  arena_ok a → no_wrap size min a → s ∈ segqueue a → can_serve size min flags s →
  is_Some (fit_addr size min flags s).
Proof.
  intros Hok (? & ? & ? & Hw) Hs [Hfree Hc]. specialize (Hw s Hs).
  pose proof (layout_bounds 0 0 _ _ ltac:(done) ltac:(done) (ao_layout _ Hok) Hs).
  pose proof (layout_pos _ _ _ _ (ao_layout _ Hok) Hs). unfold seg_end in *.
  unfold fit_addr. rewrite !Z.gtb_ltb.
  rewrite !(w64_small (min + size)), !(w64_small (seg_base s + seg_size s)),
    !(w64_small (seg_base s + size)) by lia.
  destruct (Z.leb_spec (seg_base s) min).
  - rewrite (proj2 (Z.ltb_ge _ _)); [done|]. destruct (has_flag _ _); lia.
  - destruct (has_flag flags kVMemExact); simpl; [lia|].
    rewrite (proj2 (Z.ltb_ge _ _)); [done|lia].
Qed.

Lemma first_fit_Some size min flags l s addr :
  first_fit size min flags l = Some (s, addr) → s ∈ l ∧ fit_addr size min flags s = Some addr.
Proof.
  induction l as [|x l IH]; simpl; [done|].
  destruct (fit_addr size min flags x) eqn:E; intros; simplify_eq; [split; [left|done]|].
  destruct IH; [done|]. split; [by right|done].
Qed.

Lemma first_fit_is_Some size min flags l s :
  s ∈ l → is_Some (fit_addr size min flags s) → is_Some (first_fit size min flags l).
Proof.
  intros Hs Hf. induction l as [|x l IH]; [by apply not_elem_of_nil in Hs|]. simpl.
  destruct (fit_addr size min flags x) eqn:E; [done|].
  apply elem_of_cons in Hs as [->|Hs]; [|by apply IH]. rewrite E in Hf. by destruct Hf.
Qed.

Lemma search_freelists_Some size min flags a i n s addr :
  search_freelists size min flags a i n = Some (s, addr) →
  ∃ j, (i ≤ j < i + n)%nat ∧ s ∈ freelist_segs a j ∧ fit_addr size min flags s = Some addr.
Proof.
  revert i. induction n as [|n IH]; intros i; simpl; [done|].
  destruct (first_fit size min flags (freelist_segs a i)) as [[s' addr']|] eqn:E; intros H.
  - simplify_eq. apply first_fit_Some in E as [? ?]. exists i. split_and!; [lia|lia|done|done].
  - apply IH in H as (j & ? & ? & ?). exists j. split_and!; [lia|lia|done|done].
Qed.

Lemma search_freelists_is_Some size min flags a i n j s :
  (i ≤ j < i + n)%nat → s ∈ freelist_segs a j → is_Some (fit_addr size min flags s) →
  is_Some (search_freelists size min flags a i n).
Proof.
  intros Hj Hs Hf. revert i Hj. induction n as [|n IH]; intros i Hj; simpl; [lia|].
  destruct (first_fit size min flags (freelist_segs a i)) eqn:E; [done|].
  apply IH. destruct (decide (i = j)) as [->|]; [|lia].
  destruct (first_fit_is_Some size min flags _ _ Hs Hf) as [? ?]. congruence.
Qed.

Lemma free_class_Some s i :
  free_class s = Some i → seg_ty s = kVMemSegFree ∧ i = Z.to_nat (freelist_index (seg_size s)).
Proof. unfold free_class. case_decide; naive_solver. Qed.

(** What the search returns is a free segment with room at the address. *)
Lemma search_start size min flags a s addr :
  search size min flags a = Some (s, addr) → addr = Z.max (seg_base s) min.
Proof.
  intros (j & _ & _ & Hf)%search_freelists_Some. unfold fit_addr in Hf.
  destruct (Z.leb_spec (seg_base s) min); [destruct (_ >? _); simplify_eq; lia|].
  destruct (_ && _); [done|]. destruct (_ >? _); simplify_eq; lia.
Qed.

Lemma search_sound size min flags a s addr :
  arena_ok a → no_wrap size min a → search size min flags a = Some (s, addr) →
  s ∈ segqueue a ∧ seg_ty s = kVMemSegFree ∧ seg_base s ≤ addr ∧ addr + size ≤ seg_end s ∧
  (has_flag flags kVMemExact = true → addr = min).
Proof.
  intros Hok Hw (j & _ & Hs & Hf)%search_freelists_Some.
  apply elem_of_freelist_segs in Hs as (Hs & [? _]%free_class_Some & _); [|done].
  destruct (fit_addr_sound _ _ _ _ _ _ Hok Hw Hs Hf) as (? & ? & Hcase).
  split_and!; try done. intros E. destruct Hcase as [|(_ & _ & ?)]; [done|congruence].
Qed.

(** The search succeeds as soon as some free segment can serve the request: a
    segment that large is on a freelist at or above the one searched first. *)
Lemma search_complete size min flags a s :
  arena_ok a → no_wrap size min a → s ∈ segqueue a → can_serve size min flags s →
  is_Some (search size min flags a).
Proof.
  intros Hok Hw Hs Hc.
  pose proof (fit_addr_complete _ _ _ _ _ Hok Hw Hs Hc) as Hf.
  pose proof (layout_pos _ _ _ _ (ao_layout _ Hok) Hs) as [Hpos Hend].
  pose proof (layout_bounds 0 0 _ _ ltac:(done) ltac:(done) (ao_layout _ Hok) Hs).
  destruct Hw as (? & ? & ? & Hw), Hc as [Hfree Hc]. unfold seg_end in *.
  assert (size ≤ seg_size s) by (destruct (has_flag _ _); lia).
  pose proof (freelist_index_range (seg_size s) ltac:(lia)) as R.
  pose proof (freelist_index_range size ltac:(lia)) as R'.
  assert (freelist_index size ≤ freelist_index (seg_size s)).
  { rewrite !freelist_index_log2. by apply Z.log2_le_mono. }
  eapply (search_freelists_is_Some _ _ _ _ _ _ (Z.to_nat (freelist_index (seg_size s))) s).
  - unfold kNFreeLists. lia.
  - apply elem_of_freelist_segs; [done|]. split_and!; [done| |unfold kNFreeLists; lia].
    unfold free_class. by rewrite decide_True.
  - done.
Qed.
