(* ===== verification/VmemProps.v ===== *)
(** * What the allocator's entry points do

    [vmem_xalloc], [vmem_xfree], [vmem_add] and [vmem_init] over the state of
    all arenas and the tag pool.  [sys_ok] is the invariant of that state. *)

From S2P Require Import Prelude Vmem VmemInv VmemSpan.
Open Scope Z_scope.

(** ** Views of an arena *)

Definition extent (s : vmem_seg) : Z * Z := (seg_base s, seg_size s).
Definition of_type (ty : seg_type) (a : vmem) : list vmem_seg :=
  filter (λ s, seg_ty s = ty) (segqueue a).
(** The allocations, the free segments and the spans of an arena. *)
Definition live (a : vmem) : list (Z * Z) := extent <$> of_type kVMemSegAllocated a.
Definition free_space (a : vmem) : list (Z * Z) := extent <$> of_type kVMemSegFree a.
Definition markers (a : vmem) : list vmem_seg := filter (λ s, is_span s = true) (segqueue a).
Definition spans (a : vmem) : list (Z * Z) := extent <$> markers a.
(** The fields set by [vmem_init] only. *)
Definition header (a : vmem) : string * list Z :=
  (vm_name a, [vm_base a; vm_size a; vm_quantum a; vm_flags a; vm_allocfn a; vm_freefn a;
    vm_source a]).
Definition sum_sizes (l : list (Z * Z)) : Z := foldr (λ e n, e.2 + n) 0 l.

Lemma sum_sizes_app l1 l2 : sum_sizes (l1 ++ l2) = sum_sizes l1 + sum_sizes l2.
Proof. induction l1 as [|e l1 IH]; simpl; [done|]. rewrite IH. lia. Qed.
#[export] Instance sum_sizes_proper : Proper ((≡ₚ) ==> (=)) sum_sizes.
Proof. induction 1; simpl; lia. Qed.

Lemma filter_ty_app ty q1 q2 :
  filter (λ s, seg_ty s = ty) (q1 ++ q2) =
  filter (λ s, seg_ty s = ty) q1 ++ filter (λ s, seg_ty s = ty) q2.
Proof. apply filter_app. Qed.

Ltac queue_views :=
  unfold live, free_space, markers, of_type, extent;
  repeat match goal with H : segqueue _ = _ |- _ => rewrite H; clear H end;
  rewrite ?filter_app, ?fmap_app;
  repeat (rewrite ?filter_cons; simpl; repeat case_decide; try congruence; csimpl).

(** ** The invariant of the allocator's state

    The tags of the pool and of the arenas are all different, and every arena
    [a] at [v] has the property [P v a]: [arena_ok], except for an arena that is
    in the middle of an operation.  [L] are tags taken from the pool by a call
    that is still in progress. *)
Record sys_inv (P : Z → vmem → Prop) (L : list Z) (s : vstate) : Prop := SysInv {
  so_pool : NoDup (L ++ free_segs s);
  so_count : nfreesegs s = Z.of_nat (length (free_segs s));
  so_arena : ∀ v a, arenas s !! v = Some a → P v a;
  so_fresh : ∀ v a t, arenas s !! v = Some a → t ∈ segqueue a → (seg_id t ∉ L ++ free_segs s);
  so_sep : ∀ v w a b t u, arenas s !! v = Some a → arenas s !! w = Some b → v ≠ w →
    t ∈ segqueue a → u ∈ segqueue b → seg_id t ≠ seg_id u;
}.

Abbreviation sys_ok := (sys_inv (λ _, arena_ok) []).

Lemma pool_nodup P L s : sys_inv P L s → NoDup (free_segs s).
Proof. intros H. by apply so_pool, NoDup_app in H as (_ & _ & ?). Qed.

(** The tags of the pool are not in use. *)
Lemma pool_fresh P L vs v a l :
  sys_inv P L vs → arenas vs !! v = Some a → l ∈ free_segs vs → (l ∉ (seg_id <$> segqueue a)).
Proof.
  intros Hs Ha Hl (t & -> & Ht)%list_elem_of_fmap. eapply so_fresh; [done..|].
  apply elem_of_app. by right.
Qed.

(** The next two tags. *)
Lemma two_fresh P L vs v a l r pool :
  sys_inv P L vs → arenas vs !! v = Some a → free_segs vs = l :: r :: pool →
  (l ∉ (seg_id <$> segqueue a)) ∧ (r ∉ (seg_id <$> segqueue a)) ∧ l ≠ r.
Proof.
  intros Hs Ha Hp. pose proof (pool_nodup _ _ _ Hs) as ND. rewrite Hp in ND. split_and!.
  - eapply (pool_fresh P L); [done|done|]. rewrite Hp. left.
  - eapply (pool_fresh P L); [done|done|]. rewrite Hp. right. left.
  - by apply NoDup_cons in ND as [[? _]%not_elem_of_cons _].
Qed.

(** Replace arena [v] by one whose tags come from the old arena and the pool,
    giving the pool what it no longer uses. *)
Lemma sys_inv_update P L s v a a' pool n :
  sys_inv P L s → arenas s !! v = Some a → P v a' → NoDup pool →
  n = Z.of_nat (length pool) →
  (∀ id, id ∈ pool → id ∈ free_segs s ∨ id ∈ seg_id <$> segqueue a) →
  (∀ t, t ∈ segqueue a' → seg_id t ∈ free_segs s ∨ seg_id t ∈ seg_id <$> segqueue a) →
  (∀ t, t ∈ segqueue a' → (seg_id t ∉ pool)) →
  sys_inv P L (VState (<[v := a']> (arenas s)) pool n).
Proof.
  intros Hs Ha Hok Hnd -> Hpool Hq Hdis.
  assert (∀ w b t x, arenas s !! w = Some b → v ≠ w → t ∈ segqueue b →
    x ∈ free_segs s ∨ x ∈ seg_id <$> segqueue a → x ≠ seg_id t) as Hother.
  { intros w b t x Hb Hvw Ht [Hx|Hx] ->.
    - eapply pool_fresh; [done..|]. by apply list_elem_of_fmap_2.
    - apply list_elem_of_fmap in Hx as (u & E & Hu).
      by eapply (so_sep _ _ _ Hs v w a b u t). }
  assert (∀ x, x ∈ free_segs s ∨ x ∈ seg_id <$> segqueue a → (x ∉ L)) as HL.
  { intros x [Hx|(u & -> & Hu)%list_elem_of_fmap] HxL.
    - pose proof (so_pool _ _ _ Hs) as (_ & H & _)%NoDup_app. by eapply H.
    - eapply so_fresh; [done..|]. apply elem_of_app. by left. }
  split; simpl.
  - apply NoDup_app. split_and!; [|intros x Hx Hp; eapply HL; eauto|done].
    by pose proof (so_pool _ _ _ Hs) as (? & _ & _)%NoDup_app.
  - done.
  - intros w b. rewrite lookup_insert_Some. intros [[<- <-]|[? Hb]]; [done|].
    by eapply so_arena.
  - intros w b t. rewrite lookup_insert_Some. intros Hw Ht. apply not_elem_of_app.
    destruct Hw as [[<- <-]|[? Hb]]; [split; eauto|].
    pose proof (so_fresh _ _ _ Hs _ _ _ Hb Ht) as [? _]%not_elem_of_app. split; [done|].
    intros Hin. by eapply (Hother w b t (seg_id t)); eauto.
  - intros u w b c t t'. rewrite !lookup_insert_Some.
    intros [[<- <-]|[? Hb]] [[<- <-]|[? Hc]] Huw Ht Ht'; try congruence.
    + eapply Hother; eauto.
    + intros E. by eapply (Hother u b t (seg_id t')); eauto.
    + by eapply (so_sep _ _ _ Hs u w).
Qed.

(** ** The tags of a state *)

Definition tag (vs : vstate) (t : Z) : Prop :=
  t ∈ free_segs vs ∨ ∃ v a, arenas vs !! v = Some a ∧ t ∈ seg_id <$> segqueue a.

(** One arena and the pool change, and no tag is lost or made up. *)
Lemma tag_update vs v a a' pool n :
  arenas vs !! v = Some a →
  (∀ t, t ∈ pool ∨ t ∈ seg_id <$> segqueue a' ↔ t ∈ free_segs vs ∨ t ∈ seg_id <$> segqueue a) →
  ∀ t, tag (VState (<[v := a']> (arenas vs)) pool n) t ↔ tag vs t.
Proof.
  intros Ha Heq t. unfold tag. simpl. specialize (Heq t). split.
  - intros [Ht|(w & b & Hb & Ht)].
    + destruct Heq as [[|?] _]; [by left|by left|right; by exists v, a].
    + apply lookup_insert_Some in Hb as [[<- <-]|[_ Hb]]; [|right; by exists w, b].
      destruct Heq as [[|?] _]; [by right|by left|right; by exists v, a].
  - assert (∀ t, t ∈ seg_id <$> segqueue a' → ∃ w b, <[v := a']> (arenas vs) !! w = Some b ∧ t ∈ seg_id <$> segqueue b)
      as Hv by (intros t' ?; exists v, a'; by rewrite lookup_insert_eq).
    intros [Ht|(w & b & Hb & Ht)].
    + destruct Heq as [_ [|?]]; [by left|by left|right; by apply Hv].
    + destruct (decide (w = v)) as [->|].
      * simplify_eq. destruct Heq as [_ [|?]]; [by right|by left|right; by apply Hv].
      * right. exists w, b. by rewrite lookup_insert_ne.
Qed.

Lemma tag_give2 m l r p n n' t :
  tag (VState m (l :: r :: p) n) t ↔ tag (VState m p n') t ∨ t = l ∨ t = r.
Proof. unfold tag. simpl. rewrite !elem_of_cons. tauto. Qed.

(** ** Geometry of a split, as multisets of extents *)

(** Where the segments of [a'] start: where one of [a] did, or at one of [new]. *)
Definition bases_from (new : list Z) (a a' : vmem) : Prop :=
  ∀ t, t ∈ segqueue a' → seg_base t ∈ new ∨ ∃ t0, t0 ∈ segqueue a ∧ seg_base t = seg_base t0.

(** Segments stay, except the one that [addr, size) is taken from: at its start, or at
    [min] if that is higher, and what lies before and behind stays free. *)
Definition room_left (min addr size : Z) (a a' : vmem) : Prop :=
  ∀ t, t ∈ segqueue a → t ∈ segqueue a' ∨
    (addr = Z.max (seg_base t) min ∧ addr + size ≤ seg_end t ∧
     (seg_base t < addr → ∃ t', t' ∈ segqueue a' ∧ seg_ty t' = kVMemSegFree ∧
        seg_base t' = seg_base t ∧ seg_end t' = addr) ∧
     (addr + size < seg_end t → ∃ t', t' ∈ segqueue a' ∧ seg_ty t' = kVMemSegFree ∧
        seg_base t' = addr + size ∧ seg_end t' = seg_end t)).

Section split_views.
Context (a : vmem) (q1 q2 : list vmem_seg) (s : vmem_seg) (l r min addr size : Z).
Hypothesis Hok : arena_ok a.
Hypothesis Hq : segqueue a = q1 ++ s :: q2.
Hypothesis Hfree : seg_ty s = kVMemSegFree.
Hypothesis Hl : (l ∉ (seg_id <$> segqueue a)).
Hypothesis Hr : (r ∉ (seg_id <$> segqueue a)).
Hypothesis Hlr : l ≠ r.
Hypothesis Hbase : seg_base s ≤ addr.
Hypothesis Hsize : 0 < size.
Hypothesis Hend : addr + size ≤ seg_end s.
Hypothesis Hstart : addr = Z.max (seg_base s) min.

Let a' := split_arena s l r addr size a.

Lemma split_views :
  live a' ≡ₚ (addr, size) :: live a ∧ markers a' = markers a ∧ header a' = header a ∧
  sum_sizes (free_space a') = sum_sizes (free_space a) - size ∧ bases_from [addr; addr + size] a a' ∧
  room_left min addr size a a'.
Proof.
  pose proof (split_queue a q1 q2 s l r addr size Hok Hq Hl) as Q.
  pose proof (split_left_eq a q1 q2 s l r addr size Hok Hq Hfree Hl Hr Hlr Hbase Hsize Hend) as EL.
  pose proof (split_right_eq a q1 q2 s l r addr size Hok Hq Hfree Hl Hr Hlr Hbase Hsize Hend) as ER.
  rewrite EL, ER in Q. unfold a'. clear EL ER. unfold seg_end in *.
  pose proof (free_not_span _ Hfree) as Hns.
  assert (bases_from [addr; addr + size] a a') as Hb.
  { unfold a'. intros t. rewrite Q, Hq. clear Q. intros Ht.
    repeat case_decide; simpl in Ht; set_unfold; destruct_or?; subst; simpl; naive_solver lia. }
  assert (room_left min addr size a a') as Hrm.
  { unfold a'. intros t. rewrite Q, Hq. rewrite elem_of_app, elem_of_cons. clear Q Hb.
    intros [Ht|[->|Ht]]; [left; set_solver| |left; set_solver].
    right. split; [done|]. split; [done|]. unfold seg_end. split; intros Hlt.
    { rewrite (decide_True (P := seg_base s < addr)) by done. exists (Seg l kVMemSegFree (seg_base s) (addr - seg_base s)).
      split_and!; [set_solver|done|done|simpl; lia]. }
    rewrite (decide_True (P := addr + size < seg_base s + seg_size s)) by lia.
    exists (Seg r kVMemSegFree (addr + size) (seg_base s + seg_size s - (addr + size))).
    split_and!; [set_solver|done|done|simpl; lia]. }
  unfold live, free_space, markers, of_type. rewrite Q, Hq. clear Q.
  split; [|split; [|split; [|split; [|split; [exact Hb|exact Hrm]]]]]; clear Hb Hrm; cycle 2.
  { unfold split_arena. by destruct (split_left s l addr), (split_right s r addr size). }
  all: cycle 1.
  - repeat case_decide; simpl; rewrite !filter_app, !filter_cons; simpl;
      repeat case_decide; try congruence; rewrite ?fmap_app; csimpl;
      rewrite Permutation_middle; done.
  - repeat case_decide; simpl; rewrite !filter_span_app, ?filter_cons; simpl;
      rewrite ?Hns; done.
  - repeat case_decide; simpl; rewrite !filter_app, !filter_cons; simpl;
      repeat case_decide; try congruence; rewrite ?fmap_app; csimpl;
      rewrite !sum_sizes_app; simpl; lia.
Qed.
End split_views.

Lemma elem_of_option_list {A} (o : option A) x : x ∈ option_list o ↔ o = Some x.
Proof. destruct o; simpl; rewrite ?list_elem_of_singleton; split; intros; simplify_eq; try done. by apply not_elem_of_nil in H. Qed.

(** ** Allocation *)

Section entry.
Context {X : Type}.
Variable vm_kalloc : Z → Z → M (vstate * X) Z.
Variable call_alloc : Z → Z → Z → Z → M (vstate * X) (Z * Z).
Variable call_free : Z → Z → Z → Z → M (vstate * X) unit.
Abbreviation xalloc := (vmem_xalloc vm_kalloc call_alloc call_free).
Abbreviation xfree := (vmem_xfree (X := X) call_free).

Lemma get_arena_ok (vs : vstate) (x : X) v a :
  arenas vs !! v = Some a → get_arena v (vs, x) = Ok (a, (vs, x)).
Proof. intros E. unfold get_arena, mbind, M_bind, mget, deref. simpl. by rewrite E. Qed.

Lemma modify_arena_ok (vs : vstate) (x : X) v a f :
  arenas vs !! v = Some a →
  modify_arena v f (vs, x) =
    Ok ((), (VState (<[v := f a]> (arenas vs)) (free_segs vs) (nfreesegs vs), x)).
Proof.
  intros E. unfold modify_arena. by rewrite (bind_step _ _ _ _ _ (get_arena_ok _ _ _ _ E)).
Qed.

(** No call of [vm_kalloc] for fresh tags. *)
Definition no_refill (flags : Z) (vs : vstate) : Prop :=
  has_flag flags kVMemBootstrap = true ∨ 128 ≤ nfreesegs vs.

Lemma seg_refill_skip flags vs (x : X) :
  no_refill flags vs →
  mwhen (negb (has_flag flags kVMemBootstrap)) (seg_refill vm_kalloc flags) (vs, x)
    = Ok ((), (vs, x)).
Proof.
  unfold mwhen, seg_refill. intros [->|H]; simpl; [done|].
  destruct (has_flag _ _); simpl; [done|]. unfold mbind, M_bind, mget. simpl.
  by rewrite (proj2 (Z.geb_le _ _)) by done.
Qed.

(** The arguments the assertions at the top of [vmem_xalloc] let through. *)
Definition args_ok (size min flags : Z) : Prop :=
  0 < size ∧ (min = 0 ∨ has_flag flags kVMemExact = true).

(** Both tags out of the pool, then the search. *)
Lemma xalloc_prologue v size min flags vs x l r pool a :
  args_ok size min flags → no_refill flags vs → free_segs vs = l :: r :: pool →
  arenas vs !! v = Some a →
  xalloc v size 0 0 0 min 0 flags (vs, x) =
    (match search size min flags a with
     | Some (freeseg, addr) =>
         split_seg v freeseg l r addr size;;
         mret (0, Some addr)
     | None =>
         '(r', id) ← try_import call_alloc call_free v size flags;
         if r' <? 0 then mret (r', None) else
         a ← get_arena v;
         freeseg ← deref (find_seg id a) "freeseg";
         split_seg v freeseg l r (seg_base freeseg) size;;
         mret (0, Some (seg_base freeseg))
     end) (VState (arenas vs) pool (nfreesegs vs - 1 - 1), x).
Proof.
  intros [Hsz Hmin] Hr Hp Ha. unfold vmem_xalloc.
  rewrite (proj2 (Z.eqb_neq size 0)) by lia. lazy iota. change (0 =? 0) with true.
  assert (((min =? 0) || has_flag flags kVMemExact)%bool = true) as ->.
  { destruct Hmin as [->| ->]; [done|]. apply orb_true_r. }
  rewrite !massert_bind.
  rewrite (bind_step _ _ _ _ _ (seg_refill_skip flags vs x Hr)).
  assert (seg_alloc (vs, x) = Ok (l, (VState (arenas vs) (r :: pool) (nfreesegs vs - 1), x)))
    as E1 by (unfold seg_alloc, mbind, M_bind, mget; simpl; by rewrite Hp).
  rewrite (bind_step _ _ _ _ _ E1).
  rewrite (bind_step seg_alloc _ (VState _ (r :: pool) _, _) r
             (VState (arenas vs) pool (nfreesegs vs - 1 - 1), x)) by done.
  by rewrite (bind_step _ _ _ _ _ (get_arena_ok (VState _ pool (nfreesegs vs - 1 - 1)) x v a Ha)).
Qed.

Lemma try_import_none v size flags vs (x : X) a :
  arenas vs !! v = Some a → vm_allocfn a = 0 →
  try_import call_alloc call_free v size flags (vs, x) =
    Ok ((- ERESOURCEEXHAUSTED, 0), (vs, x)).
Proof.
  intros Ha Hfn. unfold try_import.
  rewrite (bind_step _ _ _ _ _ (get_arena_ok vs x v a Ha)). by rewrite Hfn.
Qed.

(** The pool after [split_seg]: the tags that were not needed are back. *)
Definition unused_tags (s : vmem_seg) (l r addr size : Z) : list Z :=
  (if split_right s r addr size is Some _ then [] else [r]) ++
  (if split_left s l addr is Some _ then [] else [l]).

Lemma split_seg_run v s l r addr size vs (x : X) a :
  arenas vs !! v = Some a → seg_ty s = kVMemSegFree →
  split_seg v s l r addr size (vs, x) =
    Ok ((), (VState (<[v := split_arena s l r addr size a]> (arenas vs))
               (unused_tags s l r addr size ++ free_segs vs)
               (nfreesegs vs + Z.of_nat (length (unused_tags s l r addr size))), x)).
Proof.
  intros Ha Hf. unfold split_seg. rewrite bool_decide_true, massert_bind by done.
  rewrite (bind_step _ _ _ _ _ (modify_arena_ok _ _ _ _ _ Ha)).
  unfold unused_tags. destruct (split_left s l addr), (split_right s r addr size);
    unfold seg_free, mmodify, mbind, M_bind, mret, M_ret; simpl;
    match goal with |- Ok (_, (VState _ _ ?n, _)) = Ok (_, (VState _ _ ?m, _)) =>
      replace m with n by lia end; done.
Qed.

End entry.

(** A split moves tags between the pool and the arena, and loses none. *)
Lemma split_sys_inv P L vs v a q1 q2 s l r pool addr size :
  sys_inv P L vs → (∀ b, P v b ↔ arena_ok b) → arenas vs !! v = Some a → segqueue a = q1 ++ s :: q2 →
  seg_ty s = kVMemSegFree → free_segs vs = l :: r :: pool →
  seg_base s ≤ addr → 0 < size → addr + size ≤ seg_end s →
  let a' := split_arena s l r addr size a in
  let u := unused_tags s l r addr size in
  sys_inv P L (VState (<[v := a']> (arenas vs)) (u ++ pool)
            (nfreesegs vs - 1 - 1 + Z.of_nat (length u))) ∧
  (length (u ++ pool) + length (segqueue a') =
     length (free_segs vs) + length (segqueue a))%nat ∧
  ∀ t, t ∈ u ++ pool ∨ t ∈ seg_id <$> segqueue a' ↔ t ∈ free_segs vs ∨ t ∈ seg_id <$> segqueue a.
Proof.
  intros Hs HP Ha Hq Hf Hp Hb Hsz He a' u.
  pose proof (proj1 (HP _) (so_arena _ _ _ Hs _ _ Ha)) as Hok. pose proof (pool_nodup _ _ _ Hs) as ND.
  rewrite Hp in ND. apply NoDup_cons in ND as [Nl [Nr ND]%NoDup_cons].
  destruct (two_fresh _ _ _ _ _ _ _ _ Hs Ha Hp) as (Fl & Fr & Hlr).
  assert (l ∉ pool) as Nl' by (intros ?; apply Nl; by right).
  pose proof (split_queue a q1 q2 s l r addr size Hok Hq Fl) as Q. fold a' in Q.
  assert (∀ t, t ∈ segqueue a' → seg_id t ∈ seg_id <$> segqueue a ∨
     (seg_id t = l ∧ (l ∉ u)) ∨ (seg_id t = r ∧ (r ∉ u))) as Hin.
  { intros t. rewrite Q, !elem_of_app, elem_of_cons, elem_of_app, !elem_of_option_list, Hq.
    rewrite fmap_app, fmap_cons, elem_of_app, elem_of_cons. unfold u, unused_tags, split_left, split_right.
    intros [Ht|[Ht|[->|[Ht|Ht]]]].
    - left. left. by apply list_elem_of_fmap_2.
    - right. left. destruct (addr >? seg_base s); simplify_eq/=. split; [done|].
      destruct (_ <? _); simpl; set_solver.
    - left. right. by left.
    - right. right. destruct (_ <? _); simplify_eq/=. split; [done|].
      destruct (_ >? _); simpl; set_solver.
    - left. right. right. by apply list_elem_of_fmap_2. }
  assert (∀ x, x ∈ u → x = l ∨ x = r) as Hu.
  { intros x. unfold u, unused_tags.
    destruct (split_right _ _ _ _), (split_left _ _ _); simpl; set_solver. }
  assert (NoDup u) as NDu.
  { unfold u, unused_tags. destruct (split_right _ _ _ _), (split_left _ _ _); simpl;
      repeat constructor; set_solver. }
  split.
  - eapply sys_inv_update; [done|done|by apply HP; eapply split_arena_ok| | |..].
    + apply NoDup_app. split_and!; [done| |done]. intros x [->| ->]%Hu; done.
    + rewrite length_app. rewrite (so_count _ _ _ Hs), Hp. simpl. lia.
    + intros id. rewrite elem_of_app, Hp. intros [[->| ->]%Hu|]; left; set_solver.
    + intros t [Ht|[[-> _]|[-> _]]]%Hin; [by right|left..]; rewrite Hp; set_solver.
    + intros t Ht. rewrite not_elem_of_app. apply Hin in Ht as [Ht|[[-> ?]|[-> ?]]]; [|done..].
      split; intros Hx; [by apply Hu in Hx as [E|E]; rewrite E in Ht|].
      eapply pool_fresh; [done|done| |exact Ht]. rewrite Hp. by do 2 right.
  - rewrite Q, Hq, Hp. unfold u, unused_tags. split.
    + rewrite !length_app. simpl. rewrite !length_app. simpl.
      destruct (split_right _ _ _ _), (split_left _ _ _); simpl; lia.
    + intros t. unfold split_left, split_right. clear.
      destruct (_ >? _), (_ <? _); rewrite ?fmap_app; csimpl;
        rewrite ?elem_of_app, ?elem_of_cons, ?elem_of_app, ?elem_of_cons, ?elem_of_nil; tauto.
Qed.

Section xalloc.
Context {X : Type}.
Variable vm_kalloc : Z → Z → M (vstate * X) Z.
Variable call_alloc : Z → Z → Z → Z → M (vstate * X) (Z * Z).
Variable call_free : Z → Z → Z → Z → M (vstate * X) unit.
Abbreviation xalloc := (vmem_xalloc vm_kalloc call_alloc call_free).

(** What a successful allocation does to arena [v]. *)
Definition allocated (v size min addr : Z) (vs vs' : vstate) : Prop :=
  ∃ a a', arenas vs !! v = Some a ∧ arenas vs' = <[v := a']> (arenas vs) ∧
    live a' ≡ₚ (addr, size) :: live a ∧ markers a' = markers a ∧ header a' = header a ∧
    sum_sizes (free_space a') = sum_sizes (free_space a) - size ∧
    (length (free_segs vs') + length (segqueue a') =
     length (free_segs vs) + length (segqueue a))%nat ∧
    (length (free_segs vs) ≤ 2 + length (free_segs vs'))%nat ∧ bases_from [addr; addr + size] a a' ∧
    (∀ t, tag vs' t ↔ tag vs t) ∧ room_left min addr size a a'.

Lemma xalloc_found P L v size min flags vs x a s addr :
  sys_inv P L vs → (∀ b, P v b ↔ arena_ok b) → arenas vs !! v = Some a → args_ok size min flags → no_wrap size min a →
  no_refill flags vs → (2 ≤ length (free_segs vs))%nat →
  search size min flags a = Some (s, addr) →
  ∃ vs', xalloc v size 0 0 0 min 0 flags (vs, x) = Ok ((0, Some addr), (vs', x)) ∧
    sys_inv P L vs' ∧ allocated v size min addr vs vs'.
Proof.
  intros Hs HP Ha Hargs Hw Hr Hlen Hsearch.
  pose proof (proj1 (HP _) (so_arena _ _ _ Hs _ _ Ha)) as Hok.
  destruct (search_sound _ _ _ _ _ _ Hok Hw Hsearch) as (Hin & Hf & Hb & He & _).
  destruct (free_segs vs) as [|l [|r pool]] eqn:Hp; simpl in Hlen; [lia..|].
  rewrite (xalloc_prologue _ _ _ v size min flags vs x l r pool a) by done.
  rewrite Hsearch. rewrite (bind_step _ _ _ _ _ (split_seg_run v s l r addr size
    (VState (arenas vs) pool (nfreesegs vs - 1 - 1)) x a Ha Hf)). simpl.
  eexists. split; [reflexivity|].
  apply list_elem_of_split in Hin as (q1 & q2 & Hq). destruct Hargs as [Hsz _].
  destruct (split_sys_inv P L vs v a q1 q2 s l r pool addr size Hs HP Ha Hq Hf Hp Hb Hsz He) as (? & ? & Htag).
  split; [done|]. exists a, (split_arena s l r addr size a).
  assert (length (free_segs vs) ≤ 2 + length (unused_tags s l r addr size ++ pool))%nat
    by (rewrite length_app, Hp; simpl; lia).
  destruct (two_fresh _ _ _ _ _ _ _ _ Hs Ha Hp) as (Fl & Fr & Hlr).
  pose proof (tag_update vs v a _ _ (nfreesegs vs - 1 - 1 + Z.of_nat (length (unused_tags s l r addr size))) Ha Htag) as Htag'.
  destruct (split_views a q1 q2 s l r min addr size) as (? & ? & ? & ? & ? & ?); try done.
  by apply (search_start _ _ _ _ _ _ Hsearch).
Qed.

(** C1: with two tags in the pool and a free segment that can serve the
    request, [vmem_xalloc] succeeds: it returns 0 and an address, the exact one
    if asked for; the arena has that allocation besides the ones it had, the
    same spans, that much less free space, and the state's invariant (so all
    allocations are disjoint) is kept.  No tag is lost. *)
Theorem vmem_xalloc_correct v size min flags vs x a s :
  sys_ok vs → arenas vs !! v = Some a → args_ok size min flags → no_wrap size min a →
  no_refill flags vs → (2 ≤ length (free_segs vs))%nat →
  s ∈ segqueue a → can_serve size min flags s →
  ∃ addr vs', xalloc v size 0 0 0 min 0 flags (vs, x) = Ok ((0, Some addr), (vs', x)) ∧
    sys_ok vs' ∧ allocated v size min addr vs vs' ∧
    (has_flag flags kVMemExact = true → addr = min).
Proof.
  intros Hs Ha Hargs Hw Hr Hlen Hin Hc. pose proof (so_arena _ _ _ Hs _ _ Ha) as Hok.
  destruct (search_complete _ _ _ _ _ Hok Hw Hin Hc) as [[s' addr] E].
  destruct (xalloc_found (λ _, arena_ok) [] v size min flags vs x a s' addr) as (vs' & ? & ? & ?); try done.
  exists addr, vs'. split_and!; try done.
  destruct (search_sound _ _ _ _ _ _ Hok Hw E) as (_ & _ & _ & _ & Hx). done.
Qed.

(** A free segment that does not match leaves the search to go on. *)
Lemma search_None size min flags a :
  arena_ok a → no_wrap size min a → has_flag flags kVMemExact = true ∨ min = 0 →
  (∀ s, s ∈ segqueue a → ¬ can_serve size min flags s) → search size min flags a = None.
Proof.
  intros Hok Hw Hm Hno. destruct (search size min flags a) as [[s addr]|] eqn:E; [|done].
  destruct (search_sound _ _ _ _ _ _ Hok Hw E) as (Hin & Hf & Hb & He & Hex).
  exfalso. apply (Hno s Hin). split; [done|].
  pose proof (layout_bounds 0 0 _ _ ltac:(done) ltac:(done) (ao_layout _ Hok) Hin).
  destruct (has_flag flags kVMemExact); [rewrite (Hex eq_refl) in *; lia|].
  destruct Hm as [|Hm]; [done|]. split; lia.
Qed.

(** C31: when no free segment can serve the request and the arena has no
    source ([vm_allocfn] is 0, so that there is nothing to import from), [vmem_xalloc] returns [-ERESOURCEEXHAUSTED], stores nothing and
    leaves every arena as it was; but the two tags it had taken are given back
    to no one: they are in no arena and no longer in the pool. *)
Theorem vmem_xalloc_exhausted v size min flags vs x a l r pool :
  sys_ok vs → arenas vs !! v = Some a → args_ok size min flags → no_wrap size min a →
  no_refill flags vs → free_segs vs = l :: r :: pool → vm_allocfn a = 0 →
  (∀ s, s ∈ segqueue a → ¬ can_serve size min flags s) →
  xalloc v size 0 0 0 min 0 flags (vs, x) =
    Ok ((- ERESOURCEEXHAUSTED, None), (VState (arenas vs) pool (nfreesegs vs - 2), x)) ∧
  (∀ w b, arenas vs !! w = Some b → (l ∉ (seg_id <$> segqueue b)) ∧ (r ∉ (seg_id <$> segqueue b))) ∧
  (l ∉ pool) ∧ (r ∉ pool).
Proof.
  intros Hs Ha Hargs Hw Hr Hp Hfn Hno.
  rewrite (xalloc_prologue _ _ _ v size min flags vs x l r pool a) by done.
  rewrite search_None; [|by apply (so_arena _ _ _ Hs _ _ Ha)|done| |done].
  2:{ destruct Hargs as [_ [?|?]]; tauto. }
  rewrite (bind_step _ _ _ _ _ (try_import_none call_alloc call_free v size flags (VState (arenas vs) pool (nfreesegs vs - 1 - 1)) x a Ha Hfn)). split.
  - replace (nfreesegs vs - 1 - 1) with (nfreesegs vs - 2) by lia. done.
  - pose proof (pool_nodup _ _ _ Hs) as ND. rewrite Hp in ND.
    apply NoDup_cons in ND as [Nl [Nr _]%NoDup_cons]. apply not_elem_of_cons in Nl as [_ Nl].
    split; [|done]. intros w b Hb. split; (eapply pool_fresh; [done|done|rewrite Hp; rewrite !elem_of_cons; auto]).
Qed.
End xalloc.

(** ** Deallocation *)

(** Two allocations never start at the same address. *)
Lemma hashtab_find_alloc a q1 s q2 :
  arena_ok a → segqueue a = q1 ++ s :: q2 → seg_ty s = kVMemSegAllocated →
  hashtab_find (seg_base s) a = Some s.
Proof.
  intros Hok Hq Hty. unfold hashtab_find.
  destruct (tq_find seg_base (seg_base s) _) as [t|] eqn:E.
  - apply tq_find_Some in E as [Ht Hb]. apply elem_of_bucket_segs in Ht as [Ht Hc]; [|done].
    f_equal. unfold hash_class in Hc. case_decide as Htt; [|done].
    pose proof (ao_layout _ Hok) as HL. rewrite Hq in Ht.
    apply elem_of_app in Ht as [Ht|[->|Ht]%elem_of_cons]; [| done|].
    + apply list_elem_of_split in Ht as (p1 & p2 & ->). rewrite Hq, <-app_assoc in HL.
      pose proof (layout_pos _ _ _ t HL ltac:(set_solver)) as [? _].
      apply (layout_ordered p1 t _ s) in HL; [|by apply alloc_not_span|set_solver].
      unfold seg_end in *. lia.
    + rewrite Hq in HL. pose proof (layout_pos _ _ _ s HL ltac:(set_solver)) as [? _].
      apply (layout_ordered q1 s q2 t) in HL; [|by apply alloc_not_span|done].
      unfold seg_end in *. lia.
  - apply tq_find_None_inv in E. destruct E. apply list_elem_of_fmap.
    exists s. split; [done|]. apply elem_of_bucket_segs; [done|].
    rewrite Hq. split; [set_solver|]. unfold hash_class. by rewrite decide_True.
Qed.

Lemma layout_first q1 s q2 :
  layout 0 0 (q1 ++ s :: q2) → is_span s = false → is_Some (last q1).
Proof.
  destruct q1 as [|t q1] using rev_ind; [|rewrite last_snoc; done]. simpl.
  intros (? & ? & H) Hs. rewrite Hs in H. unfold seg_end in *. lia.
Qed.

(** Tags taken out of an arena go back to the pool. *)
Lemma sys_inv_return P L vs v a a' ids n :
  sys_inv P L vs → arenas vs !! v = Some a → NoDup (seg_id <$> segqueue a) → P v a' →
  seg_id <$> segqueue a ≡ₚ ids ++ (seg_id <$> segqueue a') →
  n = nfreesegs vs + Z.of_nat (length ids) →
  sys_inv P L (VState (<[v := a']> (arenas vs)) (ids ++ free_segs vs) n).
Proof.
  intros Hs Ha ND Hok' HP ->. rewrite HP in ND.
  apply NoDup_app in ND as (ND1 & ND2 & _).
  assert (∀ x, x ∈ seg_id <$> segqueue a → (x ∉ free_segs vs)) as Fr.
  { intros x (t & -> & Ht)%list_elem_of_fmap. intros Hx. eapply pool_fresh; [done..|]. by apply list_elem_of_fmap_2. }
  eapply sys_inv_update; [done|done|done| | |..].
  - apply NoDup_app. split_and!; [done| |by eapply pool_nodup]. intros x Hx. apply Fr. rewrite HP.
    apply elem_of_app. by left.
  - rewrite length_app, (so_count _ _ _ Hs). lia.
  - intros id. rewrite elem_of_app, HP, elem_of_app. tauto.
  - intros t Ht. right. rewrite HP. apply elem_of_app. right. by apply list_elem_of_fmap_2.
  - intros t Ht. rewrite not_elem_of_app. apply (list_elem_of_fmap_2 seg_id) in Ht.
    split; [intros Hx; by apply (ND2 _ Hx)|]. apply Fr. rewrite HP. apply elem_of_app. by right.
Qed.

Section coalesce_run.
Context {X : Type} (v : Z) (a : vmem) (vs : vstate) (x : X).
Hypothesis Ha : arenas vs !! v = Some a.

Lemma coalesce_left_free s l :
  seg_ty l = kVMemSegFree →
  let size' := w64 (seg_size l + seg_size s) in
  coalesce_left v s l (vs, x) =
    Ok ((Seg (seg_id l) kVMemSegFree (seg_base l) size', true),
        (VState (<[v := segqueue_remove s (freeseg_expand l (seg_base l) size' a)]> (arenas vs))
           (seg_id s :: free_segs vs) (nfreesegs vs + 1), x)).
Proof.
  intros Hl size'. unfold coalesce_left. rewrite decide_True by done.
  rewrite (bind_step _ _ _ _ _ (modify_arena_ok vs x _ _ _ Ha)).
  erewrite bind_step by (apply modify_arena_ok; apply lookup_insert_eq).
  simpl. rewrite insert_insert_eq. done.
Qed.

Lemma coalesce_right_free s r (cl : bool) :
  next_seg s a = Some r → seg_ty r = kVMemSegFree →
  let size' := w64 (seg_size r + seg_size s) in
  let a1 := segqueue_remove s (freeseg_expand r (seg_base s) size' a) in
  coalesce_right v s cl (vs, x) =
    Ok ((Seg (seg_id r) kVMemSegFree (seg_base s) size', true),
        (VState (<[v := if cl then seglist_remove (seg_id s) a1 else a1]> (arenas vs))
           (seg_id s :: free_segs vs) (nfreesegs vs + 1), x)).
Proof.
  intros Hn Hr size' a1. unfold coalesce_right.
  rewrite (bind_step _ _ _ _ _ (get_arena_ok vs x _ _ Ha)), Hn. rewrite decide_True by done.
  rewrite (bind_step _ _ _ _ _ (modify_arena_ok vs x _ _ _ Ha)).
  erewrite bind_step by (apply modify_arena_ok; apply lookup_insert_eq).
  simpl. rewrite insert_insert_eq. destruct cl; simpl; [|done].
  erewrite bind_step by (apply modify_arena_ok; apply lookup_insert_eq).
  simpl. by rewrite insert_insert_eq.
Qed.

Lemma coalesce_right_skip s (cl : bool) :
  (∀ r, next_seg s a = Some r → seg_ty r ≠ kVMemSegFree) →
  coalesce_right v s cl (vs, x) = Ok ((s, cl), (vs, x)).
Proof.
  intros Hn. unfold coalesce_right.
  rewrite (bind_step _ _ _ _ _ (get_arena_ok vs x _ _ Ha)).
  destruct (next_seg s a) as [r|]; [|done]. by rewrite decide_False by auto.
Qed.
End coalesce_run.

Lemma merge_left_ok a q1 l s q2 :
  arena_pend (seg_id s) a → segqueue a = q1 ++ l :: s :: q2 →
  seg_ty l = kVMemSegFree → is_span s = false →
  let a' := segqueue_remove s (freeseg_expand l (seg_base l) (w64 (seg_size l + seg_size s)) a) in
  w64 (seg_size l + seg_size s) = seg_size l + seg_size s ∧ arena_ok a' ∧
  segqueue a' = q1 ++ Seg (seg_id l) kVMemSegFree (seg_base l) (seg_size l + seg_size s) :: q2.
Proof.
  intros Hp Hq Hl Hs a'. pose proof (ap_layout _ _ Hp) as HL. rewrite Hq in HL.
  apply layout_app in HL as [H1 HL]. cbn [layout] in HL. rewrite (free_not_span _ Hl), Hs in HL.
  destruct (adv_nonneg _ _ _ (Z.le_refl 0) (Z.le_refl 0) H1) as [N1 N2].
  unfold seg_end in HL. destruct HL as (? & ? & ? & ? & ? & ? & ? & ? & HL).
  assert (w64 (seg_size l + seg_size s) = seg_size l + seg_size s) as E
    by (apply w64_small; lia).
  unfold a'. rewrite E. split; [done|].
  apply (merge_ok a q1 q2 s l true); try done.
  intros lo hi. cbn [layout adv]. rewrite (free_not_span _ Hl), Hs. unfold seg_end. cbn.
  intros (? & ? & ? & ? & ? & ? & ? & ? & _). lia.
Qed.

Lemma merge_right_ok a q1 s r q2 :
  arena_pend (seg_id s) a → segqueue a = q1 ++ s :: r :: q2 →
  seg_ty r = kVMemSegFree → is_span s = false →
  let a' := segqueue_remove s (freeseg_expand r (seg_base s) (w64 (seg_size r + seg_size s)) a) in
  w64 (seg_size r + seg_size s) = seg_size r + seg_size s ∧ arena_ok a' ∧
  segqueue a' = q1 ++ Seg (seg_id r) kVMemSegFree (seg_base s) (seg_size r + seg_size s) :: q2.
Proof.
  intros Hp Hq Hl Hs a'. pose proof (ap_layout _ _ Hp) as HL. rewrite Hq in HL.
  apply layout_app in HL as [H1 HL]. cbn [layout] in HL. rewrite (free_not_span _ Hl), Hs in HL.
  destruct (adv_nonneg _ _ _ (Z.le_refl 0) (Z.le_refl 0) H1) as [N1 N2].
  unfold seg_end in HL. destruct HL as (? & ? & ? & ? & ? & ? & ? & ? & HL).
  assert (w64 (seg_size r + seg_size s) = seg_size r + seg_size s) as E
    by (apply w64_small; lia).
  unfold a'. rewrite E. split; [done|].
  apply (merge_ok a q1 q2 s r false); try done.
  intros lo hi. cbn [layout adv]. rewrite (free_not_span _ Hl), Hs. unfold seg_end. cbn.
  intros (? & ? & ? & ? & ? & ? & ? & ? & _). lia.
Qed.

(** Where [vmem_xfree] stands once it has tried both neighbours: [seg] stands
    for the freed region, between [p1] and [p2]; [ids] are the tags given back. *)
Record merged (a : vmem) (s : vmem_seg) (a2 : vmem) (seg : vmem_seg)
    (p1 p2 : list vmem_seg) (co : bool) (ids : list Z) : Prop := Merged {
  mg_queue : segqueue a2 = p1 ++ seg :: p2;
  mg_state : if co then arena_ok a2 ∧ seg_ty seg = kVMemSegFree
             else arena_pend (seg_id seg) a2 ∧ seg = s;
  mg_ids : seg_id <$> segqueue a ≡ₚ ids ++ (seg_id <$> segqueue a2);
  mg_live : live a ≡ₚ if co then extent s :: live a2 else live a2;
  mg_spans : markers a2 = markers a;
  mg_header : header a2 = header a;
  mg_free : sum_sizes (free_space a2) =
              sum_sizes (free_space a) + if co then seg_size s else 0;
  mg_bases : bases_from [] a a2;
}.

Definition is_free (o : option vmem_seg) : bool :=
  match o with Some t => bool_decide (seg_ty t = kVMemSegFree) | None => false end.

Lemma is_free_Some o : is_free o = true → ∃ t, o = Some t ∧ seg_ty t = kVMemSegFree.
Proof. destruct o; simpl; [intros ?%bool_decide_eq_true; eauto|done]. Qed.

Definition nb_size (o : option vmem_seg) : Z :=
  match o with Some t => if is_free (Some t) then seg_size t else 0 | None => 0 end.

Lemma merged_left a s a2 seg p1 p2 co ids :
  merged a s a2 seg p1 p2 co ids → arena_ok a → seg_ty s = kVMemSegAllocated →
  is_span seg = false ∧ is_Some (last p1).
Proof.
  intros [Hq Hst _ _ _ _ _ _] Hok Hs.
  assert (is_span seg = false) as Hn.
  { destruct co; [apply free_not_span|apply alloc_not_span]; naive_solver. }
  split; [done|]. assert (layout 0 0 (p1 ++ seg :: p2)) as HL.
  { rewrite <-Hq. destruct co; destruct Hst as [Hst _]; apply Hst. }
  by eapply layout_first in HL.
Qed.

Ltac merge_views :=
  unfold live, free_space, markers, of_type, extent;
  repeat match goal with H : segqueue _ = _ |- _ => rewrite H; clear H end;
  rewrite ?filter_app, ?filter_cons; simpl;
  repeat match goal with
  | H : seg_ty ?s = _ |- context [seg_ty ?s] => rewrite H
  | H : is_span ?s = _ |- context [is_span ?s] => rewrite H
  end;
  repeat (case_decide; try congruence); simpl; rewrite ?fmap_app, ?sum_sizes_app; csimpl;
  rewrite ?Permutation_middle; try done; simpl; try lia.

Lemma header_merge s r base size a :
  header (segqueue_remove s (freeseg_expand r base size a)) = header a.
Proof. unfold freeseg_expand. by destruct (_ =? _). Qed.

Lemma merged_skip a q1 s q2 :
  arena_ok a → segqueue a = q1 ++ s :: q2 → seg_ty s = kVMemSegAllocated →
  merged a s (seglist_remove (seg_id s) a) s q1 q2 false [].
Proof.
  intros Hok Hq Hs. split; [done| | | | | | |]; try done.
  - split; [|done]. eapply ok_pend; [done..|]. by apply alloc_not_span.
  - by rewrite Z.add_0_r.
  - intros t Ht. right. by exists t.
Qed.

Lemma merged_left_nb a q1 l s q2 :
  arena_ok a → segqueue a = q1 ++ l :: s :: q2 → seg_ty s = kVMemSegAllocated →
  seg_ty l = kVMemSegFree →
  let size' := w64 (seg_size l + seg_size s) in
  let a0 := seglist_remove (seg_id s) a in
  let a' := segqueue_remove s (freeseg_expand l (seg_base l) size' a0) in
  merged a s a' (Seg (seg_id l) kVMemSegFree (seg_base l) size') q1 q2 true [seg_id s] ∧
  size' = seg_size l + seg_size s.
Proof.
  intros Hok Hq Hs Hl size' a0 a'. pose proof (alloc_not_span _ Hs) as Hns.
  pose proof (free_not_span _ Hl) as Hnl.
  assert (arena_pend (seg_id s) a0) as Hp.
  { apply (ok_pend a (q1 ++ [l]) s q2); [done| |done]. by rewrite <-app_assoc. }
  destruct (merge_left_ok a0 q1 l s q2) as (E & Hok' & Q); try done.
  fold size' in E, Hok', Q. fold a' in Hok', Q.
  pose proof (header_merge s l (seg_base l) size' a0) as Hh. fold a' in Hh.
  change (header a0) with (header a) in Hh. split; [|done]. rewrite E. clear E.
  split; [done|done|..]; clearbody a' a0; clear Hp Hok' Hok.
  - rewrite Q, Hq, !fmap_app. csimpl. rewrite !Permutation_middle. 
    apply Permutation_app_head. apply Permutation_swap.
  - merge_views.
  - merge_views.
  - done.
  - merge_views.
  - intros t. rewrite Q, Hq. set_unfold. intros [Ht|[->|Ht]]; right; [by exists t; auto|by exists l; auto|by exists t; auto].
Qed.

Lemma merged_right_nb a s a1 seg p1 r p2 co ids :
  arena_ok a → seg_ty s = kVMemSegAllocated →
  merged a s a1 seg p1 (r :: p2) co ids → seg_ty r = kVMemSegFree →
  let size' := w64 (seg_size r + seg_size seg) in
  let a' := segqueue_remove seg (freeseg_expand r (seg_base seg) size' a1) in
  merged a s (if co then seglist_remove (seg_id seg) a' else a')
    (Seg (seg_id r) kVMemSegFree (seg_base seg) size') p1 p2 true (seg_id seg :: ids) ∧
  size' = seg_size r + seg_size seg.
Proof.
  intros Hok Hs Hm Hr size' a'.
  destruct (merged_left _ _ _ _ _ _ _ _ Hm Hok Hs) as [Hn _].
  destruct Hm as [Hq Hst Hids Hlive Hspans Hh Hfree Hbs].
  pose proof (free_not_span _ Hr) as Hnr.
  set (a0 := if co then seglist_remove (seg_id seg) a1 else a1).
  assert (arena_pend (seg_id seg) a0) as Hp.
  { unfold a0. destruct co; destruct Hst; [by eapply ok_pend|done]. }
  assert (segqueue a0 = p1 ++ seg :: r :: p2) as Hq0 by (unfold a0; by destruct co).
  destruct (merge_right_ok a0 p1 seg r p2) as (E & Hok' & Q); try done.
  fold size' in E, Hok', Q.
  assert (seg_id seg ≠ seg_id r) as Hne.
  { pose proof (ap_ids _ _ Hp) as ND. rewrite Hq0 in ND.
    apply ids_split in ND as (_ & ND & _). rewrite fmap_cons in ND.
    by apply not_elem_of_cons in ND as [? _]. }
  assert ((if co then seglist_remove (seg_id seg) a' else a') =
          segqueue_remove seg (freeseg_expand r (seg_base seg) size' a0)) as ->.
  { unfold a', a0. destruct co; [by apply expand_remove_comm|done]. }
  assert (header a0 = header a1) as Hh1 by (unfold a0; by destruct co).
  pose proof (header_merge seg r (seg_base seg) size' a0) as Hh2. rewrite Hh1 in Hh2.
  clearbody a'. set (a2 := segqueue_remove seg (freeseg_expand r (seg_base seg) size' a0)) in *.
  clearbody a2. split; [|done]. rewrite E. clear E.
  split; [done|done|..]; clear Hp Hok' Hok Hq0.
  - rewrite Hids, Q, Hq, !fmap_app. csimpl.
    by rewrite <-(Permutation_middle (seg_id <$> p1) _ (seg_id seg)), <-Permutation_middle.
  - rewrite Hlive. destruct co; destruct Hst as [_ Hst];
      [|subst seg]; merge_views.
  - rewrite <-Hspans. merge_views.
  - by rewrite Hh2, <-Hh.
  - destruct co; destruct Hst as [_ Hst]; [|subst seg]; revert Hfree; merge_views.
  - intros t. rewrite Q. set_unfold. intros [Ht|[->|Ht]]; simpl; apply Hbs; rewrite Hq; set_solver.
Qed.

Section xfree.
Context {X : Type}.
Variable call_free : Z → Z → Z → Z → M (vstate * X) unit.
Abbreviation xfree := (vmem_xfree (X := X) call_free).

(** The first neighbour: what the code has after the two assignments to [left]. *)
Lemma left_phase v vs0 (x : X) a q1 s q2 l :
  arena_ok a → segqueue a = q1 ++ s :: q2 → seg_ty s = kVMemSegAllocated →
  arenas vs0 !! v = Some (seglist_remove (seg_id s) a) → last q1 = Some l →
  ∃ l' seg a1 p1 ids,
    let cl := is_free (Some l) in
    let vs1 := VState (<[v := a1]> (arenas vs0)) (ids ++ free_segs vs0)
                 (nfreesegs vs0 + Z.of_nat (length ids)) in
    coalesce_left v s l (vs0, x) = Ok ((seg, cl), (vs1, x)) ∧
    (if cl then deref (prev_seg seg a1) "left" else mret l) (vs1, x) = Ok (l', (vs1, x)) ∧
    last p1 = Some l' ∧ merged a s a1 seg p1 q2 cl ids ∧
    p1 = (if cl then removelast q1 else q1) ∧ seg_size seg = nb_size (Some l) + seg_size s.
Proof.
  intros Hok Hq Hs Ha0 Hl. destruct (is_free (Some l)) eqn:Hf; simpl in Hf.
  - apply bool_decide_eq_true in Hf.
    apply last_Some in Hl as [p1 ->]. rewrite <-app_assoc in Hq.
    destruct (merged_left_nb a p1 l s q2 Hok Hq Hs Hf) as [Hm Hsz].
    pose proof (merged_left _ _ _ _ _ _ _ _ Hm Hok Hs) as [_ [l' Hl']].
    eexists l', _, _, p1, [seg_id s]. cbv zeta. split_and!; [by apply coalesce_left_free| |done|exact Hm|by rewrite removelast_last|
      by simpl; rewrite bool_decide_true by done].
    unfold prev_seg. rewrite (mg_queue _ _ _ _ _ _ _ _ Hm).
    destruct Hm as [Q [Hok1 _] _ _ _ _ _ _]. pose proof (ao_ids _ Hok1) as ND. rewrite Q in ND.
    apply ids_split in ND as (N1 & _ & _). rewrite tq_prev_at by done. by rewrite Hl'.
  - apply bool_decide_eq_false in Hf.
    exists l, s, (seglist_remove (seg_id s) a), q1, []. split_and!; [| done|done| |done|].
    + unfold coalesce_left. rewrite decide_False by done.
      unfold mret, M_ret. simpl. rewrite insert_id by done. rewrite Z.add_0_r. by destruct vs0.
    + by apply merged_skip.
    + simpl. by rewrite bool_decide_false.
Qed.

Lemma right_phase v vs1 (x : X) a s a1 seg p1 p2 cl ids :
  arena_ok a → seg_ty s = kVMemSegAllocated → merged a s a1 seg p1 p2 cl ids →
  arenas vs1 !! v = Some a1 →
  ∃ seg2 a2 p2' ids2,
    coalesce_right v seg cl (vs1, x) =
      Ok ((seg2, (cl || is_free (head p2))%bool),
          (VState (<[v := a2]> (arenas vs1)) (ids2 ++ free_segs vs1)
            (nfreesegs vs1 + Z.of_nat (length ids2)), x)) ∧
    merged a s a2 seg2 p1 p2' (cl || is_free (head p2))%bool (ids2 ++ ids) ∧
    p2' = (if is_free (head p2) then tail p2 else p2) ∧
    seg_size seg2 = seg_size seg + nb_size (head p2).
Proof.
  intros Hok Hs Hm Ha1.
  assert (next_seg seg a1 = head p2) as Hn.
  { pose proof Hm as [Q Hst _ _ _ _ _ _]. assert (NoDup (seg_id <$> segqueue a1)) as ND
      by (destruct cl; destruct Hst as [Hst _]; apply Hst).
    rewrite Q in ND. apply ids_split in ND as (N1 & _ & _).
    unfold next_seg. rewrite Q. by apply tq_next_at. }
  destruct (is_free (head p2)) eqn:Hf; rewrite ?orb_true_r, ?orb_false_r.
  - apply is_free_Some in Hf as (r & Hr & Hf). destruct p2 as [|r' p2]; simplify_eq/=.
    exists (Seg (seg_id r) kVMemSegFree (seg_base seg) (w64 (seg_size r + seg_size seg))).
    destruct (merged_right_nb a s a1 seg p1 r p2 cl ids Hok Hs Hm Hf) as [Hm2 Hsz].
    eexists _, p2, [seg_id seg]. split_and!; [by apply coalesce_right_free|exact Hm2|done|].
    simpl. rewrite bool_decide_true by done. lia.
  - exists seg, a1, p2, []. split_and!; [|done|done|]; cycle 1.
    { destruct (head p2); unfold nb_size; rewrite ?Hf; lia. } rewrite (coalesce_right_skip _ a1 _ _ Ha1).
    + simpl. rewrite insert_id by done. rewrite Z.add_0_r. by destruct vs1.
    + intros r Hr Hfr. rewrite Hn in Hr. rewrite Hr in Hf. simpl in Hf.
      by apply bool_decide_eq_false in Hf.
Qed.

(** The second half of [vmem_xfree], from the test on [left]. *)
Definition xfree_end v (lseg seg : vmem_seg) (co : bool) (size : Z) : M (vstate * X) Z :=
  (if decide (seg_ty lseg = kVMemSegSpanImported ∧ seg_size seg = seg_size lseg)
   then release_span call_free v seg lseg co
   else if co then mret ()
   else modify_arena v (segqueue_remove seg);; seg_free (seg_id seg));;
  mret (s32 size).

Lemma xfree_merge v sz vs x a q1 s q2 :
  arena_ok a → arenas vs !! v = Some a → segqueue a = q1 ++ s :: q2 →
  seg_ty s = kVMemSegAllocated →
  ∃ lseg seg a2 p1 p2 ids,
    let co := (is_free (last q1) || is_free (head q2))%bool in
    xfree v (seg_base s) sz (vs, x) =
      xfree_end v lseg seg co (seg_size s)
        (VState (<[v := a2]> (arenas vs)) (ids ++ free_segs vs)
           (nfreesegs vs + Z.of_nat (length ids)), x) ∧
    last p1 = Some lseg ∧ merged a s a2 seg p1 p2 co ids ∧
    p1 = (if is_free (last q1) then removelast q1 else q1) ∧
    p2 = (if is_free (head q2) then tail q2 else q2) ∧
    seg_size seg = nb_size (last q1) + seg_size s + nb_size (head q2).
Proof.
  intros Hok Ha Hq Hty.
  pose proof (alloc_not_span _ Hty) as Hns.
  pose proof (ao_ids _ Hok) as ND. rewrite Hq in ND.
  destruct (ids_split _ _ _ ND) as (N1 & N2 & _).
  pose proof (ok_pend a q1 s q2 Hok Hq Hns) as Hp0.
  set (a0 := seglist_remove (seg_id s) a) in *.
  assert (segqueue a0 = q1 ++ s :: q2) as Hq0 by done.
  pose proof (ao_layout _ Hok) as HL. rewrite Hq in HL.
  destruct (layout_first q1 s q2 HL Hns) as [l Hl].
  assert (prev_seg s a = Some l) as Hprev
    by (unfold prev_seg; rewrite Hq; by rewrite tq_prev_at).
  assert (next_seg s a0 = head q2) as Hnext
    by (unfold next_seg; rewrite Hq0; by rewrite tq_next_at).
  unfold vmem_xfree. rewrite (bind_step _ _ _ _ _ (get_arena_ok vs x _ _ Ha)).
  rewrite (hashtab_find_alloc a q1 s q2) by done.
  rewrite (bind_step _ _ _ _ _ (modify_arena_ok vs x _ _ _ Ha)). fold a0.
  rewrite Hprev, deref_bind.
  set (vs0 := VState (<[v := a0]> (arenas vs)) (free_segs vs) (nfreesegs vs)).
  assert (arenas vs0 !! v = Some a0) as Ha0 by apply lookup_insert_eq.
  destruct (left_phase v vs0 x a q1 s q2 l) as (l' & seg & a1 & p1 & ids & E1 & E2 & Hl' & Hm & Hp1 & Hsz);
    try done.
  erewrite bind_step by exact E1. cbv beta iota.
  erewrite bind_step by (apply get_arena_ok; apply lookup_insert_eq).
  erewrite bind_step by exact E2.
  destruct (right_phase v (VState (<[v := a1]> (arenas vs0)) (ids ++ free_segs vs0)
    (nfreesegs vs0 + Z.of_nat (length ids))) x a s a1 seg p1 q2 _ ids Hok Hty Hm)
    as (seg2 & a2 & p2 & ids2 & E3 & Hm2 & Hp2 & Hsz2); [apply lookup_insert_eq|].
  erewrite bind_step by exact E3.
  rewrite Hl. exists l', seg2, a2, p1, p2, (ids2 ++ ids). split_and!; [|done..|lia].
  simpl. rewrite !insert_insert_eq, length_app, <-app_assoc.
  replace (nfreesegs vs + Z.of_nat (length ids2 + length ids))
    with (nfreesegs vs + Z.of_nat (length ids) + Z.of_nat (length ids2)) by lia.
  done.
Qed.
End xfree.

(** What [vmem_xfree] does to arena [v]; [gain] is how much free space it adds. *)
Definition freed (v size addr gain : Z) (vs vs' : vstate) : Prop :=
  ∃ a a', arenas vs !! v = Some a ∧ arenas vs' = <[v := a']> (arenas vs) ∧
    live a ≡ₚ (addr, size) :: live a' ∧ markers a' = markers a ∧ header a' = header a ∧
    sum_sizes (free_space a') = sum_sizes (free_space a) + gain ∧
    (length (free_segs vs') + length (segqueue a') =
     length (free_segs vs) + length (segqueue a))%nat ∧ bases_from [] a a' ∧
    ∀ t, tag vs' t ↔ tag vs t.

(** Is one of the neighbours of segment [s] free? *)
Definition free_neighbour (a : vmem) (s : vmem_seg) : bool :=
  is_free (prev_seg s a) || is_free (next_seg s a).

Definition no_imports (a : vmem) : Prop :=
  ∀ s, s ∈ segqueue a → seg_ty s ≠ kVMemSegSpanImported.

Lemma neighbours_at a q1 s q2 :
  NoDup (seg_id <$> segqueue a) → segqueue a = q1 ++ s :: q2 →
  prev_seg s a = last q1 ∧ next_seg s a = head q2.
Proof.
  intros ND Q. rewrite Q in ND. apply ids_split in ND as (N & _ & _).
  unfold prev_seg, next_seg. rewrite Q. by rewrite tq_prev_at, tq_next_at.
Qed.

Lemma elem_of_live a e :
  e ∈ live a ↔ ∃ s, s ∈ segqueue a ∧ seg_ty s = kVMemSegAllocated ∧ e = extent s.
Proof.
  unfold live, of_type. rewrite list_elem_of_fmap. setoid_rewrite list_elem_of_filter.
  naive_solver.
Qed.

(** The markers stay, so an arena without imports has none afterwards. *)
Lemma merged_lseg a s a2 seg p1 p2 co ids l :
  merged a s a2 seg p1 p2 co ids → last p1 = Some l → no_imports a →
  seg_ty l ≠ kVMemSegSpanImported.
Proof.
  intros Hm Hl Hno E. apply last_Some in Hl as [p ->].
  assert (l ∈ markers a2) as Hin.
  { unfold markers. rewrite (mg_queue _ _ _ _ _ _ _ _ Hm). apply list_elem_of_filter.
    split; [unfold is_span; by rewrite E|set_solver]. }
  rewrite (mg_spans _ _ _ _ _ _ _ _ Hm) in Hin. apply list_elem_of_filter in Hin as [_ Hin].
  by apply (Hno l).
Qed.

Section xfree_props.
Context {X : Type}.
Variable call_free : Z → Z → Z → Z → M (vstate * X) unit.
Abbreviation xfree := (vmem_xfree (X := X) call_free).

Lemma xfree_keep P L v sz vs x a s :
  sys_inv P L vs → (∀ b, P v b ↔ arena_ok b) → arenas vs !! v = Some a →
  s ∈ segqueue a → seg_ty s = kVMemSegAllocated →
  (∀ l seg a2 p1 p2 co ids, merged a s a2 seg p1 p2 co ids → last p1 = Some l →
     ¬ (seg_ty l = kVMemSegSpanImported ∧ seg_size seg = seg_size l)) →
  ∃ vs', xfree v (seg_base s) sz (vs, x) = Ok (s32 (seg_size s), (vs', x)) ∧
    sys_inv P L vs' ∧
    freed v (seg_size s) (seg_base s) (if free_neighbour a s then seg_size s else 0) vs vs'.
Proof.
  intros Hs HP Ha Hin Hty Hni. pose proof (proj1 (HP _) (so_arena _ _ _ Hs _ _ Ha)) as Hok.
  apply list_elem_of_split in Hin as (q1 & q2 & Hq).
  destruct (neighbours_at a q1 s q2 (ao_ids _ Hok) Hq) as [Ep En].
  unfold free_neighbour. rewrite Ep, En.
  destruct (xfree_merge call_free v sz vs x a q1 s q2 Hok Ha Hq Hty)
    as (l & seg & a2 & p1 & p2 & ids & E & Hl & Hm & _). rewrite E. clear E.
  pose proof (merged_left _ _ _ _ _ _ _ _ Hm Hok Hty) as [Hn _].
  unfold xfree_end. rewrite decide_False by by eapply Hni.
  destruct (is_free (last q1) || is_free (head q2))%bool.
  - eexists. split; [reflexivity|].
    destruct Hm as [Q [Hok2 Hf] Hids Hlive Hsp Hh Hfree Hbs].
    split; [eapply sys_inv_return; try done; [apply Hok|by apply HP]|].
    exists a, a2. split; [done|]. split; [done|]. split_and!; try done; simpl.
    + apply Permutation_length in Hids. rewrite length_app, !length_fmap in Hids. rewrite length_app. lia.
    + apply (tag_update vs v a); [done|]. intros t. rewrite Hids, !elem_of_app. tauto.
  - destruct Hm as [Q [Hp ->] Hids Hlive Hsp Hh Hfree Hbs].
    destruct (pend_drop a2 p1 p2 s Hp Q Hn) as [Hok' Q'].
    erewrite bind_step; [|rewrite (bind_step _ _ _ () _ (modify_arena_ok _ x v a2
      (segqueue_remove s) (lookup_insert_eq _ _ _))); reflexivity].
    eexists. split; [reflexivity|]. simpl. rewrite insert_insert_eq.
    assert (seg_id <$> segqueue a ≡ₚ (seg_id s :: ids) ++
              (seg_id <$> segqueue (segqueue_remove s a2))) as Hids'.
    { rewrite Hids, Q', Q, !fmap_app. csimpl.
      by rewrite <-(Permutation_middle (seg_id <$> p1)), <-Permutation_middle. }
    split; [eapply (sys_inv_return P L vs v a _ (seg_id s :: ids)); try done;
      [apply Hok|by apply HP|simpl; lia]|].
    exists a, (segqueue_remove s a2). split_and!; try done; simpl.
    + revert Hlive. unfold live, of_type, extent. rewrite Q', Q. intros ->.
      rewrite !filter_app, filter_cons_True by done. rewrite !fmap_app. csimpl.
      by rewrite Permutation_middle.
    + unfold markers. unfold markers in Hsp. rewrite <-Hsp. by rewrite Q', Q, !filter_span_app, filter_span_cons_ne.
    + rewrite <-Hfree. unfold free_space, of_type.
      rewrite Q', Q, !filter_app, filter_cons_False by congruence. done.
    + apply Permutation_length in Hids'. simpl in Hids'.
      rewrite length_app, !length_fmap in Hids'. simpl in Hids'. rewrite length_app. lia.
    + intros t Ht. apply Hbs. rewrite Q. rewrite Q' in Ht. set_solver.
    + apply (tag_update vs v a); [done|]. intros t. rewrite Hids'. simpl. rewrite !elem_of_cons, !elem_of_app. tauto.
Qed.

(** C3: in an arena of its own spans, [vmem_xfree] of an allocation returns
    its size (narrowed to [int]), takes exactly that allocation away, keeps the
    spans and the invariant, and loses no tag.  The free space grows by the
    size of the allocation when it has a free neighbour to merge with, and not
    at all when it has none. *)
Theorem vmem_xfree_correct v sz vs x a addr size :
  sys_ok vs → arenas vs !! v = Some a → no_imports a → (addr, size) ∈ live a →
  ∃ s vs', s ∈ segqueue a ∧ extent s = (addr, size) ∧
    xfree v addr sz (vs, x) = Ok (s32 size, (vs', x)) ∧ sys_ok vs' ∧
    freed v size addr (if free_neighbour a s then size else 0) vs vs'.
Proof.
  intros Hs Ha Hni (s & Hin & Hty & E)%elem_of_live. injection E as -> ->.
  destruct (xfree_keep (λ _, arena_ok) [] v sz vs x a s) as (vs' & ? & ? & ?); try done.
  - intros l seg a2 p1 p2 co ids Hm Hl [Ht _].
    by eapply merged_lseg.
  - eauto 10.
Qed.
End xfree_props.

(** ** Sequences of calls *)

Definition disjoint_ext (e f : Z * Z) : Prop := e.1 + e.2 ≤ f.1 ∨ f.1 + f.2 ≤ e.1.
Definition inside (e f : Z * Z) : Prop := f.1 ≤ e.1 ∧ e.1 + e.2 ≤ f.1 + f.2.

Lemma layout_inside lo hi q s :
  layout lo hi q → s ∈ q → is_span s = false →
  (lo ≤ seg_base s ∧ seg_end s ≤ hi) ∨
  ∃ p, p ∈ q ∧ is_span p = true ∧ seg_base p ≤ seg_base s ∧ seg_end s ≤ seg_end p.
Proof.
  revert lo hi. induction q as [|t q IH]; intros lo hi; [intros _ []%elem_of_nil|].
  cbn [layout]. intros (Hp & He & HL) [->|Hs]%elem_of_cons Hn.
  - rewrite Hn in HL. left. lia.
  - destruct (is_span t) eqn:Et.
    + destruct HL as [? HL]. destruct (IH _ _ HL Hs Hn) as [?|(p & ? & ?)];
        right; [exists t|exists p]; split_and!; try tauto; set_solver.
    + destruct HL as (? & ? & HL). unfold seg_end in *.
      destruct (IH _ _ HL Hs Hn) as [?|(p & ? & ?)]; [left; unfold seg_end in *; lia|right].
      exists p. split; [set_solver|done].
Qed.

Lemma live_inside a e : arena_ok a → e ∈ live a → ∃ f, f ∈ spans a ∧ inside e f.
Proof.
  intros Hok (s & Hs & Hty & ->)%elem_of_live. pose proof (alloc_not_span _ Hty) as Hn.
  destruct (layout_inside 0 0 _ s (ao_layout _ Hok) Hs Hn) as [Hz|(p & Hp & Hsp & ?)].
  - pose proof (layout_pos _ _ _ _ (ao_layout _ Hok) Hs). unfold seg_end in *. lia.
  - exists (extent p). split; [|done]. unfold spans, markers. apply list_elem_of_fmap.
    exists p. split; [done|]. by apply list_elem_of_filter.
Qed.

Lemma live_disjoint a : arena_ok a → ForallOrdPairs disjoint_ext (live a).
Proof.
  intros Hok. pose proof (ao_layout _ Hok) as HL. unfold live, of_type. revert HL.
  generalize 0 at 1 2. revert Hok. intros _ z HL.
  assert (∀ lo hi q, layout lo hi q → ForallOrdPairs disjoint_ext
    (extent <$> filter (λ s, seg_ty s = kVMemSegAllocated) q)) as H; [|by eapply H].
  clear HL z. intros lo hi q. revert lo hi. induction q as [|s q IH]; intros lo hi HL.
  { constructor. }
  cbn [layout] in HL. destruct HL as (Hp & He & HL). rewrite filter_cons.
  case_decide as Hty; csimpl.
  - rewrite (alloc_not_span _ Hty) in HL. destruct HL as (? & ? & HL).
    constructor; [|by eapply IH]. apply List.Forall_forall. intros e He'.
    apply list_elem_of_In, list_elem_of_fmap in He' as (t & -> & [_ Ht]%list_elem_of_filter).
    left. by apply (layout_above _ _ _ t) in HL.
  - destruct (is_span s); [destruct HL as [? HL]|destruct HL as (? & ? & HL)]; by eapply IH.
Qed.

Section trace.
Context {X : Type}.
Variable vm_kalloc : Z → Z → M (vstate * X) Z.
Variable call_alloc : Z → Z → Z → Z → M (vstate * X) (Z * Z).
Variable call_free : Z → Z → Z → Z → M (vstate * X) unit.

(** A client of arena [v]: the calls the kernel makes on an arena without a
    source ([exact] is an address asked for with [kVMemExact]). *)
Inductive request :=
| Alloc (size : Z)
| AllocAt (addr size : Z)
| Free (addr : Z).

Definition serve (v : Z) (r : request) : M (vstate * X) unit :=
  match r with
  | Alloc size =>
      vmem_xalloc vm_kalloc call_alloc call_free v size 0 0 0 0 0 kVMemBootstrap;; mret ()
  | AllocAt addr size =>
      vmem_xalloc vm_kalloc call_alloc call_free v size 0 0 0 addr 0
        (Z.lor kVMemExact kVMemBootstrap);; mret ()
  | Free addr => vmem_xfree call_free v addr 0;; mret ()
  end.

Definition request_ok (r : request) : Prop :=
  match r with
  | Alloc size => 0 < size < 2^62
  | AllocAt addr size => 0 < size < 2^62 ∧ 0 ≤ addr < 2^63
  | Free _ => True
  end.

(** A private arena over [base, size): what holds of it at any time. *)
Definition private (v : Z) (ms : list vmem_seg) (st : vstate * X) : Prop :=
  sys_ok st.1 ∧ ∃ a, arenas st.1 !! v = Some a ∧ markers a = ms ∧ vm_allocfn a = 0.

Definition small_spans (ms : list vmem_seg) : Prop :=
  ∀ m, m ∈ ms → seg_ty m = kVMemSegSpan ∧ seg_end m ≤ 2^63.

Lemma small_spans_ok a size min :
  arena_ok a → small_spans (markers a) → 0 < size < 2^62 → 0 ≤ min < 2^63 →
  no_imports a ∧ no_wrap size min a.
Proof.
  intros Hok Hms ??.
  assert (∀ m, m ∈ segqueue a → is_span m = true → seg_ty m = kVMemSegSpan ∧ seg_end m ≤ 2^63)
    as Hm by (intros m Hm Hsp; apply Hms; unfold markers; by apply list_elem_of_filter).
  split; [|split_and!; try lia]; intros s Hs.
  - intros E. destruct (Hm s Hs) as [E' _]; [unfold is_span; by rewrite E|congruence].
  - pose proof (layout_pos _ _ _ _ (ao_layout _ Hok) Hs).
    assert (seg_end s ≤ 2^63); [|unfold seg_end in *; lia].
    destruct (is_span s) eqn:Es; [by apply Hm|].
    destruct (layout_inside 0 0 _ s (ao_layout _ Hok) Hs Es) as [?|(p & Hp & Hsp & ?)].
    + unfold seg_end in *. lia.
    + destruct (Hm p Hp Hsp). lia.
Qed.

Lemma xfree_live v addr sz vs (x : X) a r :
  arena_ok a → arenas vs !! v = Some a → vmem_xfree call_free v addr sz (vs, x) = Ok r →
  ∃ size, (addr, size) ∈ live a.
Proof.
  intros Hok Ha. unfold vmem_xfree.
  rewrite (bind_step _ _ _ _ _ (get_arena_ok vs x _ _ Ha)).
  destruct (hashtab_find addr a) as [s|] eqn:E; [|done]. intros _.
  unfold hashtab_find in E. apply tq_find_Some in E as [Hs <-].
  apply elem_of_bucket_segs in Hs as [Hs Hc]; [|done]. exists (seg_size s).
  apply elem_of_live. exists s. unfold hash_class in Hc. by case_decide.
Qed.

Lemma xalloc_private v ms vs x size min flags r out st' :
  private v ms (vs, x) → small_spans ms → args_ok size min flags →
  has_flag flags kVMemBootstrap = true → 0 < size < 2^62 → 0 ≤ min < 2^63 →
  vmem_xalloc vm_kalloc call_alloc call_free v size 0 0 0 min 0 flags (vs, x)
    = Ok ((r, out), st') →
  private v ms st'.
Proof.
  intros (Hs & a & Ha & Hm & Hfn) Hms Hargs Hb Hsz Hmin Hrun. simpl in *.
  pose proof (so_arena _ _ _ Hs _ _ Ha) as Hok. simpl in Hok.
  rewrite <-Hm in Hms. destruct (small_spans_ok a size min Hok Hms Hsz Hmin) as [_ Hw].
  assert (no_refill flags vs) as Hr by by left.
  destruct (free_segs vs) as [|l [|r' pool]] eqn:Hp.
  1,2: exfalso; revert Hrun; unfold vmem_xalloc; rewrite (proj2 (Z.eqb_neq size 0)) by lia;
    lazy iota; change (0 =? 0) with true; rewrite !massert_bind;
    destruct ((min =? 0) || has_flag flags kVMemExact)%bool; [rewrite !massert_bind|done];
    rewrite (bind_step _ _ _ _ _ (seg_refill_skip vm_kalloc flags vs x Hr));
    unfold seg_alloc, mbind, M_bind, mget; simpl; rewrite Hp; done.
  destruct (search size min flags a) as [[s addr]|] eqn:E.
  - destruct (xalloc_found vm_kalloc call_alloc call_free (λ _, arena_ok) [] v size min flags vs x a s addr)
      as (vs' & Hrun' & Hs' & a0 & a' & Ha0 & Hv & _ & Hm' & Hh & _); try done.
    { rewrite Hp. simpl. lia. }
    rewrite Hrun' in Hrun. simplify_eq. split; [done|]. exists a'. simpl.
    rewrite Hv, lookup_insert_eq. split_and!; [done|congruence|].
    unfold header in Hh. congruence.
  - rewrite (xalloc_prologue vm_kalloc call_alloc call_free v size min flags vs x l r' pool a)
      in Hrun by done. rewrite E in Hrun.
    rewrite (bind_step _ _ _ _ _ (try_import_none call_alloc call_free v size flags
      (VState (arenas vs) pool (nfreesegs vs - 1 - 1)) x a Ha Hfn)) in Hrun.
    simpl in Hrun. apply mret_Ok in Hrun as [? <-].
    simplify_eq. split; [|by exists a]. simpl. replace (nfreesegs vs - 1 - 1)
      with (Z.of_nat (length pool)) by (rewrite (so_count _ _ _ Hs), Hp; simpl; lia).
    rewrite <-(insert_id (arenas vs) v a) by done.
    pose proof (pool_nodup _ _ _ Hs) as ND. rewrite Hp in ND.
    apply NoDup_cons in ND as [_ [_ ND]%NoDup_cons].
    eapply sys_inv_update; try done.
    + intros id Hid. left. rewrite Hp. by do 2 right.
    + intros t Ht. right. by apply list_elem_of_fmap_2.
    + intros t Ht Hin. eapply so_fresh; [exact Hs|done|exact Ht|]. rewrite Hp. by do 2 right.
Qed.

Lemma serve_private v ms st r u st' :
  private v ms st → small_spans ms → request_ok r → serve v r st = Ok (u, st') →
  private v ms st'.
Proof.
  destruct st as [vs x]. intros Hp Hms Hr Hrun.
  destruct r as [size|addr size|addr]; simpl in Hr, Hrun;
    apply bind_Ok in Hrun as (res & st1 & Hrun & [_ <-]%mret_Ok).
  - destruct res. eapply xalloc_private; [exact Hp|done| | | | |exact Hrun]; try done.
    split; [lia|by left].
  - destruct res. eapply xalloc_private; [exact Hp|done| | | | |exact Hrun]; try done.
    + split; [lia|by right].
    + lia.
    + lia.
  - destruct Hp as (Hs & a & Ha & Hm & Hfn). simpl in *.
    pose proof (so_arena _ _ _ Hs _ _ Ha) as Hok. simpl in Hok.
    destruct (xfree_live _ _ _ _ _ _ _ Hok Ha Hrun) as [size Hl].
    apply elem_of_live in Hl as (s & Hin & Hty & [= -> ->]).
    rewrite <-Hm in Hms. destruct (small_spans_ok a 1 0 Hok Hms) as [Hni _]; [lia..|].
    destruct (xfree_keep call_free (λ _, arena_ok) [] v 0 vs x a s)
      as (vs' & Hrun' & Hs' & a0 & a' & Ha0 & Hv & _ & Hm' & Hh & _); try done.
    { intros * Hmg Hl [Ht _]. by eapply merged_lseg. }
    rewrite Hrun' in Hrun. simplify_eq. split; [done|]. exists a'. simpl.
    rewrite Hv, lookup_insert_eq. split_and!; [done|congruence|].
    unfold header in Hh. congruence.
Qed.

Lemma mfor_inv {S A} (I : S → Prop) (f : A → M S unit) (l : list A) s u s' :
  (∀ x s u s', x ∈ l → I s → f x s = Ok (u, s') → I s') →
  I s → mfor l f s = Ok (u, s') → I s'.
Proof.
  revert s. induction l as [|y l IH]; simpl; intros s Hf Hs Hrun.
  - apply mret_Ok in Hrun as [_ <-]. done.
  - apply bind_Ok in Hrun as (u' & s1 & H1 & H2).
    eapply IH; [| |exact H2]; [intros; eapply Hf; [by right|..]; eauto|].
    eapply Hf; [left| |exact H1]. done.
Qed.

End trace.

(** ** Ranges that are lost, spans that are given back *)

Section xfree_more.
Context {X : Type}.
Variable call_free : Z → Z → Z → Z → M (vstate * X) unit.
Abbreviation xfree := (vmem_xfree (X := X) call_free).

(** a segment freed while neither neighbour is free is dropped: no
    segment of the arena, free or allocated, covers any of its range
    afterwards, although the range is inside one of the arena's spans.  So no
    later allocation can ever return it. *)
Theorem vmem_xfree_isolated_lost v sz vs x a s :
  sys_ok vs → arenas vs !! v = Some a → no_imports a → s ∈ segqueue a →
  seg_ty s = kVMemSegAllocated → free_neighbour a s = false →
  ∃ vs' a', xfree v (seg_base s) sz (vs, x) = Ok (s32 (seg_size s), (vs', x)) ∧
    arenas vs' !! v = Some a' ∧ arena_ok a' ∧ spans a' = spans a ∧
    (∀ t, t ∈ segqueue a' → is_span t = false → disjoint_segs s t) ∧
    ∃ f, f ∈ spans a' ∧ inside (extent s) f.
Proof.
  intros Hs Ha Hni Hin Hty Hfn. pose proof (so_arena _ _ _ Hs _ _ Ha) as Hok. simpl in Hok.
  assert (extent s ∈ live a) as Hl by (apply elem_of_live; eauto).
  destruct (live_inside a (extent s) Hok Hl) as (f & Hf & Hif).
  apply list_elem_of_split in Hin as (q1 & q2 & Hq).
  destruct (neighbours_at a q1 s q2 (ao_ids _ Hok) Hq) as [Ep En].
  unfold free_neighbour in Hfn. rewrite Ep, En in Hfn.
  destruct (xfree_merge call_free v sz vs x a q1 s q2 Hok Ha Hq Hty)
    as (l & seg & a2 & p1 & p2 & ids & E & Hlast & Hm & _).
  rewrite Hfn in E, Hm. rewrite E. clear E.
  pose proof (merged_lseg _ _ _ _ _ _ _ _ _ Hm Hlast Hni) as Hnl.
  pose proof (merged_left _ _ _ _ _ _ _ _ Hm Hok Hty) as [Hn _].
  unfold xfree_end. rewrite decide_False by (by intros [? _]).
  destruct Hm as [Q [Hp ->] _ _ Hsp _ _ _].
  destruct (pend_drop a2 p1 p2 s Hp Q Hn) as [Hok' Q'].
  erewrite bind_step; [|rewrite (bind_step _ _ _ () _ (modify_arena_ok _ x v a2
    (segqueue_remove s) (lookup_insert_eq _ _ _))); reflexivity].
  assert (spans (segqueue_remove s a2) = spans a) as Hspans.
  { unfold spans. rewrite <-Hsp. unfold markers.
    by rewrite Q', Q, !filter_span_app, filter_span_cons_ne. }
  eexists _, (segqueue_remove s a2). split; [reflexivity|].
  split; [simpl; by rewrite insert_insert_eq, lookup_insert_eq|].
  split_and!; [done|done| |].
  - intros t. rewrite Q'. pose proof (ap_layout _ _ Hp) as HL. rewrite Q in HL.
    intros [Ht|Ht]%elem_of_app Htn; [|left; by eapply layout_ordered].
    right. apply list_elem_of_split in Ht as (r1 & r2 & ->). rewrite <-app_assoc in HL.
    eapply layout_ordered; [exact HL|done|]. apply elem_of_app. right. left.
  - rewrite Hspans. eauto.
Qed.

Lemma sys_inv_lift P L vs v a :
  sys_inv (λ w b, w ≠ v → P w b) L vs → arenas vs !! v = Some a → P v a → sys_inv P L vs.
Proof.
  intros [H1 H2 H3 H4 H5] Ha HP. split; try done. intros w b Hb.
  destruct (decide (w = v)) as [->|]; [by simplify_eq|]. by apply H3.
Qed.

Lemma sys_inv_weaken P L v vs : sys_inv P L vs → sys_inv (λ w b, w ≠ v → P w b) L vs.
Proof. intros [H1 H2 H3 H4 H5]. split; try done. eauto. Qed.

(** The arena after [release_span], and its run. *)
Definition released (seg sp : vmem_seg) (co : bool) (a : vmem) : vmem :=
  segqueue_remove sp (seglist_remove (seg_id sp)
    (segqueue_remove seg (if co then seglist_remove (seg_id seg) a else a))).

Lemma release_run v vs1 x a seg sp (co : bool) vs2 x2 :
  arenas vs1 !! v = Some a →
  (∀ t, next_seg seg a = Some t → seg_ty t = kVMemSegSpanImported) →
  call_free (vm_freefn a) (vm_source a) (seg_base sp) (seg_size sp) (vs1, x) =
    Ok ((), (vs2, x2)) →
  arenas vs2 !! v = Some a →
  release_span call_free v seg sp co (vs1, x) =
    Ok ((), (VState (<[v := released seg sp co a]> (arenas vs2))
               (seg_id sp :: seg_id seg :: free_segs vs2) (nfreesegs vs2 + 1 + 1), x2)).
Proof.
  intros Ha Hnext Hcall Ha2. unfold release_span.
  rewrite (bind_step _ _ _ _ _ (get_arena_ok vs1 x v a Ha)).
  assert ((match next_seg seg a with
           | Some rseg => bool_decide (seg_ty rseg = kVMemSegSpanImported)
           | None => true end) = true) as ->.
  { destruct (next_seg seg a); [|done]. apply bool_decide_eq_true. auto. }
  rewrite massert_bind. rewrite (bind_step _ _ _ _ _ Hcall).
  assert (mwhen co (modify_arena v (seglist_remove (seg_id seg))) (vs2, x2) =
    Ok ((), (VState (<[v := if co then seglist_remove (seg_id seg) a else a]> (arenas vs2))
               (free_segs vs2) (nfreesegs vs2), x2))) as E.
  { unfold mwhen. destruct co; [by rewrite (modify_arena_ok vs2 x2 v a)|].
    rewrite insert_id by done. by destruct vs2. }
  rewrite (bind_step _ _ _ _ _ E). clear E.
  do 4 (erewrite bind_step; [|(by apply modify_arena_ok; simpl; apply lookup_insert_eq) ||
    reflexivity]; simpl; rewrite ?insert_insert_eq).
  done.
Qed.

Lemma release_arena a q1 sp seg q2 (co : bool) :
  segqueue a = q1 ++ sp :: seg :: q2 → is_span sp = true → is_span seg = false →
  arena_pend (seg_id seg) (if co then seglist_remove (seg_id seg) a else a) →
  starts_span q2 →
  arena_ok (released seg sp co a) ∧ segqueue (released seg sp co a) = q1 ++ q2.
Proof.
  intros Q Hsp Hseg Hp Hst. unfold released.
  set (a0 := if co then _ else a) in *.
  assert (segqueue a0 = (q1 ++ [sp]) ++ seg :: q2) as Q0.
  { unfold a0. rewrite <-app_assoc. by destruct co. }
  destruct (pend_drop a0 (q1 ++ [sp]) q2 seg Hp Q0 Hseg) as [Hok1 Q1].
  rewrite <-app_assoc in Q1. simpl app in Q1.
  by apply (remove_span_ok _ q1 sp q2).
Qed.

(** A segment that may be free, between a span and what is freed, and behind it. *)
Lemma free_before q1 sp mid :
  seg_ty sp = kVMemSegSpanImported → (∀ m, mid = Some m → seg_ty m = kVMemSegFree) →
  let r := q1 ++ sp :: option_list mid in
  (if is_free (last r) then removelast r else r) = q1 ++ [sp] ∧ nb_size (last r) = nb_size mid.
Proof.
  intros Hsp Hmid r. unfold r. destruct mid as [m|]; simpl.
  - replace (q1 ++ [sp; m]) with ((q1 ++ [sp]) ++ [m]) by (by rewrite <-app_assoc).
    rewrite last_snoc, removelast_last. simpl. by rewrite bool_decide_true by by apply Hmid.
  - rewrite last_snoc. simpl. by rewrite bool_decide_false by congruence.
Qed.
Lemma free_after mid q2 :
  (∀ m, mid = Some m → seg_ty m = kVMemSegFree) → (∀ t, head q2 = Some t → seg_ty t = kVMemSegSpanImported) →
  let r := option_list mid ++ q2 in
  (if is_free (head r) then tail r else r) = q2 ∧ nb_size (head r) = nb_size mid.
Proof.
  intros Hmid Hhd r. unfold r. destruct mid as [m|]; simpl.
  - by rewrite bool_decide_true by by apply Hmid.
  - destruct (head q2) as [t|] eqn:Et; simpl; [|done].
    by rewrite bool_decide_false by (rewrite (Hhd t eq_refl); done).
Qed.

Lemma header_released seg sp co a : header (released seg sp co a) = header a.
Proof. by destruct co. Qed.

(** The run of a free that makes up the whole of an imported span. *)
Lemma xfree_release_run P L (R : vstate → X → Prop) v sz vs x a s q1 sp mid1 mid2 q2 :
  sys_inv P L vs → (∀ b, P v b ↔ arena_ok b) → arenas vs !! v = Some a →
  segqueue a = q1 ++ sp :: option_list mid1 ++ s :: option_list mid2 ++ q2 →
  seg_ty sp = kVMemSegSpanImported → seg_ty s = kVMemSegAllocated →
  (∀ m, m ∈ option_list mid1 ++ option_list mid2 → seg_ty m = kVMemSegFree) →
  seg_size sp = nb_size mid1 + seg_size s + nb_size mid2 →
  (∀ t, head q2 = Some t → seg_ty t = kVMemSegSpanImported) →
  (∀ vs1, sys_inv (λ w b, w ≠ v → P w b) L vs1 →
     (∀ w, w ≠ v → arenas vs1 !! w = arenas vs !! w) → (∀ t, tag vs1 t ↔ tag vs t) →
     ∃ vs2 x2,
       call_free (vm_freefn a) (vm_source a) (seg_base sp) (seg_size sp) (vs1, x) =
         Ok ((), (vs2, x2)) ∧
       sys_inv (λ w b, w ≠ v → P w b) L vs2 ∧ arenas vs2 !! v = arenas vs1 !! v ∧ R vs2 x2) →
  ∃ vs2 x2 vs' a', xfree v (seg_base s) sz (vs, x) = Ok (s32 (seg_size s), (vs', x2)) ∧
    sys_inv P L vs' ∧ arenas vs' = <[v := a']> (arenas vs2) ∧ R vs2 x2 ∧
    segqueue a' = q1 ++ q2 ∧ header a' = header a ∧ ∀ t, tag vs' t ↔ tag vs2 t.
Proof.
  intros Hs HP Ha Hq Hsp Hty Hmid Hsz Hhd Hcall.
  pose proof (proj1 (HP _) (so_arena _ _ _ Hs _ _ Ha)) as Hok.
  set (r1 := q1 ++ sp :: option_list mid1). set (r2 := option_list mid2 ++ q2).
  assert (segqueue a = r1 ++ s :: r2) as Hq'
    by (rewrite Hq; unfold r1; rewrite <-app_assoc; done).
  destruct (xfree_merge call_free v sz vs x a r1 s r2 Hok Ha Hq' Hty)
    as (l & seg & a2 & p1 & p2 & ids & E & Hlast & Hm & Hp1 & Hp2 & Hsize).
  rewrite E. clear E.
  destruct (free_before q1 sp mid1 Hsp) as [Ep1 En1]; [intros m ->; apply Hmid; set_solver|].
  destruct (free_after mid2 q2) as [Ep2 En2]; [intros m ->; apply Hmid; set_solver|exact Hhd|].
  fold r1 in Ep1, En1. fold r2 in Ep2, En2. rewrite Ep1 in Hp1. rewrite Ep2 in Hp2. subst p2.
  assert (seg_size seg = seg_size sp) as Hsz' by (rewrite Hsize, Hsz, En1, En2; done).
  assert (l = sp) as -> by (rewrite Hp1, last_snoc in Hlast; by simplify_eq).
  clear Ep1 Ep2 En1 En2 Hlast Hsize. subst p1.
  unfold xfree_end. rewrite decide_True by done.
  set (co := (is_free (last r1) || is_free (head r2))%bool) in *. clearbody co.
  set (vs1 := VState (<[v := a2]> (arenas vs)) (ids ++ free_segs vs) _).
  pose proof (merged_left _ _ _ _ _ _ _ _ Hm Hok Hty) as [Hn _].
  destruct (Hcall vs1) as (vs2 & x2 & Hrun & Hs2 & Hv2 & HR).
  { eapply (sys_inv_return (λ w b, w ≠ v → P w b) L); [by apply sys_inv_weaken|done|apply Hok|
      done|apply Hm|done]. }
  { intros w Hw. simpl. by rewrite lookup_insert_ne. }
  { apply (tag_update vs v a); [done|]. intros t. rewrite (mg_ids _ _ _ _ _ _ _ _ Hm), !elem_of_app. tauto. }
  assert (arenas vs2 !! v = Some a2) as Ha2 by (rewrite Hv2; apply lookup_insert_eq).
  assert (vm_freefn a2 = vm_freefn a ∧ vm_source a2 = vm_source a) as [Ef Es].
  { pose proof (mg_header _ _ _ _ _ _ _ _ Hm) as Hh. unfold header in Hh. split; congruence. }
  rewrite <-Ef, <-Es in Hrun.
  pose proof Hm as [Q Hst Hids _ _ _ _ _].
  assert (NoDup (seg_id <$> segqueue a2)) as ND
    by (destruct co; destruct Hst as [Hst _]; apply Hst).
  destruct (neighbours_at a2 (q1 ++ [sp]) seg q2 ND Q) as [_ Hnext].
  rewrite (bind_step _ _ _ _ _ (release_run v vs1 x a2 seg sp co vs2 x2
    ltac:(apply lookup_insert_eq) ltac:(rewrite Hnext; exact Hhd) Hrun Ha2)).
  destruct (release_arena a2 q1 sp seg q2 co) as [Hok3 Q3]; try done.
  { rewrite Q. by rewrite <-app_assoc. }
  { unfold is_span. by rewrite Hsp. }
  { destruct co; destruct Hst as [Hst _]; [by eapply ok_pend|done]. }
  { destruct q2 as [|t q2]; [done|]. simpl. unfold is_span. by rewrite (Hhd t eq_refl). }
  eexists vs2, x2, _, _. split; [reflexivity|]. split_and!; [|reflexivity|done|exact Q3| |];
    [|rewrite header_released; apply Hm|].
  2:{ apply (tag_update vs2 v a2); [done|]. intros t. rewrite Q3, Q, <-app_assoc, !fmap_app. csimpl.
      rewrite !elem_of_app, !elem_of_cons. tauto. }
  eapply (sys_inv_lift P L _ v); [|simpl; apply lookup_insert_eq|by apply HP].
  eapply (sys_inv_return (λ w b, w ≠ v → P w b) L vs2 v a2 _ [seg_id sp; seg_id seg]); try done.
  - rewrite Q3, Q, <-app_assoc, !fmap_app. csimpl. by rewrite <-!Permutation_middle.
  - simpl. lia.
Qed.
(** C4: when the free neighbours of a freed segment and the segment itself
    make up the whole of an imported span, the span is given back: [freefn] is
    called once, with the span's base and size, on the arena's source, and then
    the marker and the segments of the span are gone from the arena.  The
    hypotheses on [freefn] are that it returns, keeps the invariant of the
    other arenas and does not touch this one. *)
Theorem vmem_xfree_release P L (R : vstate → X → Prop) v sz vs x a s q1 sp mid1 mid2 q2 :
  sys_inv P L vs → (∀ b, P v b ↔ arena_ok b) → arenas vs !! v = Some a →
  segqueue a = q1 ++ sp :: option_list mid1 ++ s :: option_list mid2 ++ q2 →
  seg_ty sp = kVMemSegSpanImported → seg_ty s = kVMemSegAllocated →
  (∀ m, m ∈ option_list mid1 ++ option_list mid2 → seg_ty m = kVMemSegFree) →
  seg_size sp = nb_size mid1 + seg_size s + nb_size mid2 →
  (∀ t, head q2 = Some t → seg_ty t = kVMemSegSpanImported) →
  (∀ vs1, sys_inv (λ w b, w ≠ v → P w b) L vs1 →
     (∀ w, w ≠ v → arenas vs1 !! w = arenas vs !! w) → (∀ t, tag vs1 t ↔ tag vs t) →
     ∃ vs2 x2,
       call_free (vm_freefn a) (vm_source a) (seg_base sp) (seg_size sp) (vs1, x) =
         Ok ((), (vs2, x2)) ∧
       sys_inv (λ w b, w ≠ v → P w b) L vs2 ∧ arenas vs2 !! v = arenas vs1 !! v ∧ R vs2 x2) →
  ∃ vs2 x2 vs' a', xfree v (seg_base s) sz (vs, x) = Ok (s32 (seg_size s), (vs', x2)) ∧
    sys_inv P L vs' ∧ arenas vs' = <[v := a']> (arenas vs2) ∧ R vs2 x2 ∧
    segqueue a' = q1 ++ q2.
Proof.
  intros Hs HP Ha Hq Hsp Hty Hmid Hsz Hhd Hcall.
  destruct (xfree_release_run P L R v sz vs x a s q1 sp mid1 mid2 q2) as (vs2 & x2 & vs' & a' & H); try done.
  exists vs2, x2, vs', a'. tauto.
Qed.
End xfree_more.

(** ** Adding spans, initialisation *)

(** A tag is taken from the pool of a good state. *)
Lemma sys_inv_add P L vs v a a' ns nf pool :
  sys_inv P L vs → arenas vs !! v = Some a → P v a' → free_segs vs = ns :: nf :: pool →
  (∀ t, t ∈ segqueue a' → seg_id t = ns ∨ seg_id t = nf ∨ seg_id t ∈ seg_id <$> segqueue a) →
  sys_inv P L (VState (<[v := a']> (arenas vs)) pool (nfreesegs vs - 1 - 1)).
Proof.
  intros Hs Ha Hok' Hp Hq. pose proof (pool_nodup _ _ _ Hs) as ND. rewrite Hp in ND.
  apply NoDup_cons in ND as [N1 [N2 ND]%NoDup_cons].
  eapply sys_inv_update; [done|done|done|done| | | |].
  - rewrite (so_count _ _ _ Hs), Hp. simpl. lia.
  - intros id ?. left. rewrite Hp. by do 2 right.
  - intros t Ht. rewrite Hp, !elem_of_cons. destruct (Hq t Ht) as [->|[->|?]]; auto.
  - intros t Ht Hin. destruct (Hq t Ht) as [E|[E|E]].
    + rewrite E in Hin. apply N1. by right.
    + rewrite E in Hin. done.
    + eapply pool_fresh; [exact Hs|exact Ha| |exact E]. rewrite Hp. by do 2 right.
Qed.

(** What the insertion of a span changes. *)
Lemma span_views a a1 q1 q2 ns nf ty base size :
  segqueue a = q1 ++ q2 → segqueue a1 = q1 ++ Seg ns ty base size :: Seg nf kVMemSegFree base size :: q2 →
  is_span (Seg ns ty base size) = true →
  (∀ t, t ∈ segqueue a1 → seg_id t = ns ∨ seg_id t = nf ∨ seg_id t ∈ seg_id <$> segqueue a) ∧
  live a1 = live a ∧ spans a1 ≡ₚ (base, size) :: spans a ∧ free_space a1 ≡ₚ (base, size) :: free_space a ∧
  ∀ m, m ∈ markers a1 → m ∈ markers a ∨ seg_ty m = ty.
Proof.
  intros Q Q1 Hsp. assert (ty ≠ kVMemSegFree ∧ ty ≠ kVMemSegAllocated) as [T1 T2] by (split; intros ->; done).
  unfold live, spans, free_space, markers, of_type. rewrite Q1, Q. split_and!.
  - intros t. rewrite fmap_app, !elem_of_app, !elem_of_cons.
    intros [?|[->|[->|?]]]; auto; right; right; [left|right]; by apply list_elem_of_fmap_2.
  - rewrite !filter_app, filter_cons_False by done. by rewrite filter_cons_False by done.
  - rewrite !filter_span_app, filter_span_cons, filter_span_cons_ne by done. rewrite !fmap_app. csimpl.
    by rewrite Permutation_middle.
  - rewrite !filter_app, filter_cons_False, filter_cons_True by done. rewrite !fmap_app. csimpl.
    by rewrite Permutation_middle.
  - intros m. rewrite !filter_span_app, filter_span_cons, filter_span_cons_ne by done.
    rewrite !elem_of_app, elem_of_cons. intros [?|[->|?]]; auto.
Qed.

Section add.
Context {X : Type}.

Lemma add_internal_run v ty base size flags vs (x : X) a ns nf pool :
  arenas vs !! v = Some a → free_segs vs = ns :: nf :: pool →
  vmem_add_internal v ty base size flags (vs, x) =
    Ok ((0, nf),
      (VState (<[v := insert_span (last_span_before base None (span_segs a))
                        (Seg ns ty base size) (Seg nf kVMemSegFree base size) a]> (arenas vs))
         pool (nfreesegs vs - 1 - 1), x)).
Proof.
  intros Ha Hp. unfold vmem_add_internal.
  rewrite (bind_step _ _ _ _ _ (get_arena_ok vs x v a Ha)).
  assert (seg_alloc (vs, x) = Ok (ns, (VState (arenas vs) (nf :: pool) (nfreesegs vs - 1), x)))
    as E1 by (unfold seg_alloc, mbind, M_bind, mget; simpl; by rewrite Hp).
  rewrite (bind_step _ _ _ _ _ E1).
  rewrite (bind_step seg_alloc _ (VState _ (nf :: pool) _, _) nf
           (VState (arenas vs) pool (nfreesegs vs - 1 - 1), x)) by done.
  by rewrite (bind_step _ _ _ _ _ (modify_arena_ok (VState _ pool _) x v a _ Ha)).
Qed.

(** [vmem_add] of a range that meets no span of the arena returns 0, makes
    the range one more span, wholly free, leaves the allocations as they were
    and keeps the invariant. *)
Theorem vmem_add_correct v base size flags vs (x : X) a ns nf pool :
  sys_ok vs → arenas vs !! v = Some a → free_segs vs = ns :: nf :: pool →
  0 ≤ base → 0 < size → base + size < 2^64 → span_disjoint base size a →
  ∃ vs' a', vmem_add v base size flags (vs, x) = Ok (0, (vs', x)) ∧ sys_ok vs' ∧
    arenas vs' = <[v := a']> (arenas vs) ∧
    spans a' ≡ₚ (base, size) :: spans a ∧ free_space a' ≡ₚ (base, size) :: free_space a ∧
    live a' = live a.
Proof.
  intros Hs Ha Hp Hb Hsz He Hd. pose proof (so_arena _ _ _ Hs _ _ Ha) as Hok. simpl in Hok.
  destruct (two_fresh _ _ vs v a ns nf pool Hs Ha Hp) as (F1 & F2 & N1).
  set (af := last_span_before base None (span_segs a)).
  set (a' := insert_span af (Seg ns kVMemSegSpan base size)
               (Seg nf kVMemSegFree base size) a).
  assert (arena_ok a') as Hok' by by apply insert_span_ok.
  destruct (insert_span_queue a ns nf kVMemSegSpan base size Hok eq_refl F1 F2 N1
    ltac:(done) Hd) as (q1 & q2 & Q & _ & Q' & _). fold af a' in Q'.
  destruct (span_views a a' q1 q2 ns nf kVMemSegSpan base size Q Q' eq_refl) as (V0 & V1 & V2 & V3 & _).
  exists (VState (<[v := a']> (arenas vs)) pool (nfreesegs vs - 1 - 1)), a'.
  split_and!.
  - unfold vmem_add.
    by rewrite (bind_step _ _ _ _ _ (add_internal_run v kVMemSegSpan base size flags
      vs x a ns nf pool Ha Hp)).
  - by eapply sys_inv_add.
  - done.
  - done.
  - done.
  - done.
Qed.
End add.

Lemma empty_arena_ok name base size q fa fr src fl :
  arena_ok (empty_arena name base size q fa fr src fl).
Proof.
  split; simpl; try done; try apply NoDup_nil_2.
  - intros i l Hl. change (replicate kNFreeLists ([] : list Z) !! i = Some l) in Hl.
    apply lookup_replicate in Hl as [-> _]. split; [apply NoDup_nil_2|].
    intros id. split; [intros []%elem_of_nil|done].
  - intros i l Hl.
    change (replicate (Z.to_nat kNHashBuckets) ([] : list Z) !! i = Some l) in Hl.
    apply lookup_replicate in Hl as [-> _]. split; [apply NoDup_nil_2|].
    intros id. split; [intros []%elem_of_nil|done].
Qed.

(** A new arena without tags. *)
Lemma sys_inv_new P L vs v a :
  sys_inv P L vs → arenas vs !! v = None → segqueue a = [] → P v a →
  sys_inv P L (VState (<[v := a]> (arenas vs)) (free_segs vs) (nfreesegs vs)).
Proof.
  intros [H1 H2 H3 H4 H5] Hv Hq HP. split; simpl; try done.
  - intros w b. rewrite lookup_insert_Some. intros [[<- <-]|[? ?]]; eauto.
  - intros w b t. rewrite lookup_insert_Some. intros [[<- <-]|[? ?]]; [|eauto].
    rewrite Hq. intros []%elem_of_nil.
  - intros u w b c t t'. rewrite !lookup_insert_Some.
    intros [[<- <-]|[? ?]] [[<- <-]|[? ?]] ?; rewrite ?Hq; try (intros _ []%elem_of_nil);
      try (intros []%elem_of_nil); eauto.
Qed.

Section init.
Context {X : Type}.

Lemma init_run v name base size quantum fa fr flags vs (x : X) ns nf pool :
  sys_ok vs → arenas vs !! v = None → free_segs vs = ns :: nf :: pool →
  (String.length name < 64)%nat → 0 ≤ base → 0 < size → base + size < 2^64 →
  ∃ vs' a, vmem_init v name base size quantum fa fr 0 flags (vs, x) = Ok ((), (vs', x)) ∧
    sys_ok vs' ∧ arenas vs' = <[v := a]> (arenas vs) ∧ header a = (name, [base; size; quantum; flags; fa; fr; 0]) ∧ vm_allocfn a = fa ∧
    free_segs vs' = pool ∧ nfreesegs vs' = nfreesegs vs - 1 - 1 ∧
    segqueue a = [Seg ns kVMemSegSpan base size; Seg nf kVMemSegFree base size] ∧
    spans a = [(base, size)] ∧ free_space a = [(base, size)] ∧ live a = [].
Proof.
  intros Hs Hv Hp Hn Hb Hsz He.
  set (e := empty_arena name base size quantum fa fr 0 flags).
  pose proof (empty_arena_ok name base size quantum fa fr 0 flags) as Hoke.
  set (vs0 := VState (<[v := e]> (arenas vs)) (free_segs vs) (nfreesegs vs)).
  assert (sys_ok vs0) as Hs0 by by apply sys_inv_new.
  assert (arenas vs0 !! v = Some e) as He0 by apply lookup_insert_eq.
  set (a := insert_span None (Seg ns kVMemSegSpan base size) (Seg nf kVMemSegFree base size) e).
  assert (segqueue a = [Seg ns kVMemSegSpan base size; Seg nf kVMemSegFree base size]) as Q
    by (unfold a; simpl; by rewrite Z.eqb_refl).
  pose proof (pool_nodup _ _ _ Hs) as ND. rewrite Hp in ND.
  apply NoDup_cons in ND as [N1 _]. apply not_elem_of_cons in N1 as [N1 _].
  assert (arena_ok a) as Hoka.
  { apply (insert_span_ok e ns nf kVMemSegSpan base size); try done; try apply not_elem_of_nil.
    intros s []%elem_of_nil. }
  exists (VState (<[v := a]> (arenas vs)) pool (nfreesegs vs - 1 - 1)), a. split_and!.
  - unfold vmem_init. rewrite decide_False by lia.
    rewrite (bind_step _ _ (vs, x) () (vs, x)) by done.
    rewrite (bind_step _ _ (vs, x) () (vs0, x)) by done.
    rewrite (proj2 (Z.eqb_neq size 0)) by lia. change (negb false && (0 =? 0))%bool with true.
    lazy iota.
    rewrite (bind_step _ _ _ _ _ (add_internal_run v kVMemSegSpan base size flags
      vs0 x e ns nf pool He0 Hp)).
    unfold mret, M_ret. simpl. by rewrite insert_insert_eq.
  - rewrite <-(insert_insert_eq (arenas vs) v a e).
    apply (sys_inv_add _ [] vs0 v e a ns nf pool); try done. intros t. rewrite Q.
    rewrite !elem_of_cons. intros [->|[->|[]%elem_of_nil]]; auto.
  - done.
  - done.
  - done.
  - done.
  - done.
  - exact Q.
  - unfold spans, markers. by rewrite Q.
  - unfold free_space, of_type. by rewrite Q.
  - unfold live, of_type. by rewrite Q.
Qed.

(** [vmem_init] of an arena with a range and no source returns an arena
    that is one free span over that range and has no allocations, in a state
    that satisfies the invariant. *)
Theorem vmem_init_correct v name base size quantum fa fr flags vs (x : X) ns nf pool :
  sys_ok vs → arenas vs !! v = None → free_segs vs = ns :: nf :: pool →
  (String.length name < 64)%nat → 0 ≤ base → 0 < size → base + size < 2^64 →
  ∃ vs' a, vmem_init v name base size quantum fa fr 0 flags (vs, x) = Ok ((), (vs', x)) ∧
    sys_ok vs' ∧ arenas vs' = <[v := a]> (arenas vs) ∧ vm_allocfn a = fa ∧
    spans a = [(base, size)] ∧ free_space a = [(base, size)] ∧ live a = [].
Proof.
  intros. destruct (init_run v name base size quantum fa fr flags vs x ns nf pool)
    as (vs' & a & Hrun); try done. exists vs', a. naive_solver.
Qed.
End init.

(** ** Where the size test wraps *)

Lemma first_fit_exact size min flags l s :
  has_flag flags kVMemExact = true → s ∈ l → fit_addr size min flags s = Some min →
  ∃ s', s' ∈ l ∧ first_fit size min flags l = Some (s', min).
Proof.
  intros Hx Hin Hf. induction l as [|t l IH]; [by apply not_elem_of_nil in Hin|]. simpl.
  destruct (fit_addr size min flags t) as [addr|] eqn:E.
  - exists t. split; [left|]. unfold fit_addr in E. rewrite Hx in E. simpl in E.
    rewrite !Z.gtb_ltb in E. destruct (Z.leb_spec (seg_base t) min).
    + by destruct (_ <? _); simplify_eq.
    + by rewrite (proj2 (Z.ltb_lt min (seg_base t))) in E by done.
  - apply elem_of_cons in Hin as [->|Hin]; [congruence|].
    destruct (IH Hin) as (s' & ? & ?). exists s'. split; [by right|done].
Qed.

Lemma search_freelists_exact size min flags a i n j s :
  has_flag flags kVMemExact = true → (i ≤ j < i + n)%nat → s ∈ freelist_segs a j →
  fit_addr size min flags s = Some min →
  ∃ s' k, s' ∈ freelist_segs a k ∧ search_freelists size min flags a i n = Some (s', min).
Proof.
  intros Hx Hj Hs Hf. revert i Hj. induction n as [|n IH]; intros i Hj; [lia|]. simpl.
  destruct (first_fit size min flags (freelist_segs a i)) as [[s' m]|] eqn:E.
  - apply first_fit_Some in E as [Hin Hf']. exists s', i. split; [done|].
    unfold fit_addr in Hf'. rewrite Hx in Hf'. simpl in Hf'. rewrite !Z.gtb_ltb in Hf'.
    destruct (Z.leb_spec (seg_base s') min).
    + destruct (_ <? _) in Hf'; by simplify_eq.
    + by rewrite (proj2 (Z.ltb_lt min (seg_base s'))) in Hf' by done.
  - destruct (decide (i = j)) as [->|]; [|apply IH; lia].
    destruct (first_fit_exact _ _ _ _ _ Hx Hs Hf) as (s' & _ & E'). congruence.
Qed.

Section wrap.
Context {X : Type}.
Variable vm_kalloc : Z → Z → M (vstate * X) Z.
Variable call_alloc : Z → Z → Z → Z → M (vstate * X) (Z * Z).
Variable call_free : Z → Z → Z → Z → M (vstate * X) unit.

(** C33: the test that an exact allocation fits is done on 64-bit sums.  When
    [min + size] wraps and the wrapped sum is below the end of some free segment
    that starts at or below [min] and is on a freelist that is searched,
    [vmem_xalloc] returns 0 and [min], even though no part of the range past
    the end of that segment is in it. *)
Theorem vmem_xalloc_exact_wraps v size min flags vs x a l r pool s :
  sys_ok vs → arenas vs !! v = Some a → free_segs vs = l :: r :: pool →
  no_refill flags vs → has_flag flags kVMemExact = true →
  0 < size < 2^64 → 0 ≤ min < 2^64 →
  s ∈ segqueue a → seg_ty s = kVMemSegFree → Z.log2 size ≤ Z.log2 (seg_size s) →
  seg_base s ≤ min → 2^64 ≤ min + size → min + size - 2^64 ≤ seg_end s →
  seg_end s < min + size ∧
  ∃ vs', vmem_xalloc vm_kalloc call_alloc call_free v size 0 0 0 min 0 flags (vs, x) =
    Ok ((0, Some min), (vs', x)).
Proof.
  intros Hs Ha Hp Hr Hx Hsz Hmin Hin Hf Hlog Hb Hw Hend.
  pose proof (so_arena _ _ _ Hs _ _ Ha) as Hok. simpl in Hok.
  pose proof (layout_pos _ _ _ _ (ao_layout _ Hok) Hin) as [Hpos He].
  pose proof (layout_bounds 0 0 _ _ ltac:(done) ltac:(done) (ao_layout _ Hok) Hin).
  split; [lia|]. unfold seg_end in *.
  assert (fit_addr size min flags s = Some min) as Hfit.
  { unfold fit_addr. rewrite (proj2 (Z.leb_le _ _)) by done. rewrite Z.gtb_ltb.
    assert (w64 (min + size) = min + size - 2^64) as ->.
    { unfold w64. symmetry. apply (Z.mod_unique _ _ 1); lia. }
    rewrite (w64_small (seg_base s + seg_size s)) by lia.
    by rewrite (proj2 (Z.ltb_ge _ _)) by lia. }
  pose proof (freelist_index_range (seg_size s) ltac:(lia)) as Hi.
  pose proof (freelist_index_range size ltac:(lia)) as Hi'.
  destruct (search_freelists_exact size min flags a (Z.to_nat (freelist_index size))
    (kNFreeLists - Z.to_nat (freelist_index size)) (Z.to_nat (freelist_index (seg_size s))) s)
    as (s' & k & Hs' & E); [done| | |done|].
  { rewrite !freelist_index_log2 in *. unfold kNFreeLists. lia. }
  { apply elem_of_freelist_segs; [done|]. split_and!; [done| |unfold kNFreeLists; lia].
    unfold free_class. by rewrite decide_True. }
  assert (search size min flags a = Some (s', min)) as Es by exact E.
  apply elem_of_freelist_segs in Hs' as (_ & [Hf' _]%free_class_Some & _); [|done].
  rewrite (xalloc_prologue _ _ _ v size min flags vs x l r pool a); try done;
    [|split; [lia|by right]].
  rewrite Es. rewrite (bind_step _ _ _ _ _ (split_seg_run v s' l r min size
    (VState (arenas vs) pool (nfreesegs vs - 1 - 1)) x a Ha Hf')).
  eexists. reflexivity.
Qed.
End wrap.

(** ** Importing a span *)

Lemma sys_inv_take2 P L vs l r pool :
  sys_inv P L vs → free_segs vs = l :: r :: pool →
  sys_inv P (l :: r :: L) (VState (arenas vs) pool (nfreesegs vs - 1 - 1)).
Proof.
  intros [H1 H2 H3 H4 H5] Hp. rewrite Hp in *. simpl in H2. split; simpl; try done.
  - revert H1. apply (NoDup_Permutation_proper _ _).
    change (l :: r :: L ++ pool) with (([l; r] ++ L) ++ pool).
    by rewrite (Permutation_app_comm [l; r] L), <-app_assoc.
  - lia.
  - intros v a t Ha Ht. specialize (H4 v a t Ha Ht).
    rewrite !not_elem_of_cons, !not_elem_of_app in *. rewrite !not_elem_of_cons in H4. tauto.
Qed.

Lemma sys_inv_give2 P L vs l r :
  sys_inv P (l :: r :: L) vs →
  sys_inv P L (VState (arenas vs) (l :: r :: free_segs vs) (nfreesegs vs + 1 + 1)).
Proof.
  intros [H1 H2 H3 H4 H5]. split; simpl; try done.
  - revert H1. apply (NoDup_Permutation_proper _ _).
    change ((l :: r :: L) ++ free_segs vs) with (([l; r] ++ L) ++ free_segs vs).
    by rewrite (Permutation_app_comm [l; r] L), <-app_assoc.
  - lia.
  - intros v a t Ha Ht. specialize (H4 v a t Ha Ht). simpl in H4.
    rewrite !not_elem_of_app, !not_elem_of_cons in *. rewrite not_elem_of_app in H4. tauto.
Qed.

Section import.
Context {X : Type}.
Variable vm_kalloc : Z → Z → M (vstate * X) Z.
Variable call_alloc : Z → Z → Z → Z → M (vstate * X) (Z * Z).
Variable call_free : Z → Z → Z → Z → M (vstate * X) unit.

Lemma try_import_run v size flags vs x a addr vs2 x2 ns nf pool2 :
  arenas vs !! v = Some a → vm_allocfn a ≠ 0 →
  call_alloc (vm_allocfn a) (vm_source a) size flags (vs, x) = Ok ((0, addr), (vs2, x2)) →
  arenas vs2 !! v = Some a → free_segs vs2 = ns :: nf :: pool2 →
  try_import call_alloc call_free v size flags (vs, x) = Ok ((0, nf),
    (VState (<[v := insert_span (last_span_before addr None (span_segs a)) (Seg ns kVMemSegSpanImported addr size)
                      (Seg nf kVMemSegFree addr size) a]> (arenas vs2)) pool2 (nfreesegs vs2 - 1 - 1), x2)).
Proof.
  intros Ha Hfn Hcall Ha2 Hp2. unfold try_import. rewrite (bind_step _ _ _ _ _ (get_arena_ok vs x v a Ha)).
  rewrite (proj2 (Z.eqb_neq _ _) Hfn). rewrite (bind_step _ _ _ _ _ Hcall).
  lazy beta iota. change (0 <? 0) with false. lazy iota.
  by rewrite (bind_step _ _ _ _ _ (add_internal_run v kVMemSegSpanImported addr size flags vs2 x2 a ns nf pool2 Ha2 Hp2)).
Qed.

(** The allocation is the whole of the span that has been imported. *)
Lemma take_import P L v vs2 (x2 : X) a addr size l r ns nf pool2 :
  sys_inv P (l :: r :: L) vs2 → (∀ b, P v b ↔ arena_ok b) → arenas vs2 !! v = Some a → free_segs vs2 = ns :: nf :: pool2 →
  0 < size → 0 ≤ addr → addr + size < 2^64 → span_disjoint addr size a →
  let a1 := insert_span (last_span_before addr None (span_segs a)) (Seg ns kVMemSegSpanImported addr size)
              (Seg nf kVMemSegFree addr size) a in
  let vs3 := VState (<[v := a1]> (arenas vs2)) pool2 (nfreesegs vs2 - 1 - 1) in
  find_seg nf a1 = Some (Seg nf kVMemSegFree addr size) ∧
  ∃ vs' a', split_seg v (Seg nf kVMemSegFree addr size) l r addr size (vs3, x2) = Ok ((), (vs', x2)) ∧
    sys_inv P L vs' ∧ arenas vs' = <[v := a']> (arenas vs2) ∧ header a' = header a ∧
    live a' ≡ₚ (addr, size) :: live a ∧ spans a' ≡ₚ (addr, size) :: spans a ∧
    sum_sizes (free_space a') = sum_sizes (free_space a) ∧
    (∀ m, m ∈ markers a' → m ∈ markers a ∨ seg_ty m = kVMemSegSpanImported) ∧
    (∀ t, tag vs' t ↔ tag vs2 t ∨ t = l ∨ t = r) ∧
    (length (free_segs vs2) ≤ 2 + length (free_segs vs'))%nat.
Proof.
  intros Hs2 HP Ha2 Hp2 Hsz Hb He Hd. pose proof (proj1 (HP _) (so_arena _ _ _ Hs2 _ _ Ha2)) as Hok.
  destruct (two_fresh _ _ vs2 v a ns nf pool2 Hs2 Ha2 Hp2) as (F1 & F2 & N1).
  set (af := last_span_before addr None (span_segs a)).
  set (fr := Seg nf kVMemSegFree addr size).
  set (a1 := insert_span af (Seg ns kVMemSegSpanImported addr size) fr a).
  assert (arena_ok a1) as Hok1 by by apply insert_span_ok.
  destruct (insert_span_queue a ns nf kVMemSegSpanImported addr size Hok eq_refl F1 F2 N1
    ltac:(done) Hd) as (q1 & q2 & Q & _ & Q' & _). fold af fr a1 in Q'.
  intros a1' vs3. fold a1 in a1'. subst a1'.
  destruct (span_views a a1 q1 q2 ns nf kVMemSegSpanImported addr size Q Q' eq_refl) as (W0 & W1 & W2 & W3 & W4).
  assert (arenas vs3 !! v = Some a1) as Ha3 by apply lookup_insert_eq.
  split.
  { apply (find_seg_in a1 fr Hok1). rewrite Q'. set_solver. }
  rewrite (split_seg_run v fr l r addr size vs3 x2 a1 Ha3 eq_refl). eexists _, _. split; [reflexivity|].
  assert (segqueue a1 = (q1 ++ [Seg ns kVMemSegSpanImported addr size]) ++ fr :: q2) as Q1
    by (rewrite Q', <-app_assoc; done).
  assert (sys_inv P (l :: r :: L) vs3) as Hs3 by (eapply sys_inv_add; [done|done|by apply HP|done|done]).
  pose proof (sys_inv_give2 _ _ _ _ _ Hs3) as Hs4.
  destruct (split_sys_inv P L (VState (arenas vs3) (l :: r :: free_segs vs3) (nfreesegs vs3 + 1 + 1))
    v a1 _ q2 fr l r (free_segs vs3) addr size Hs4 HP Ha3 Q1 eq_refl eq_refl) as (Hs5 & _ & Htag5);
    [unfold seg_end; simpl; lia..|].
  simpl in Hs5. replace (nfreesegs vs2 - 1 - 1 + 1 + 1 - 1 - 1) with (nfreesegs vs2 - 1 - 1) in Hs5 by lia.
  split; [exact Hs5|]. simpl. split; [by rewrite insert_insert_eq|].
  destruct (two_fresh _ _ _ v a1 l r (free_segs vs3) Hs4 Ha3 eq_refl) as (F3 & F4 & N2).
  destruct (split_views a1 _ q2 fr l r addr addr size Hok1 Q1 eq_refl) as (V1 & V2 & V3 & V4 & _);
    try (unfold seg_end; simpl; lia); try done.
  split; [rewrite V3; unfold a1, insert_span; by destruct af; [destruct (tq_next _ _ _)|]|].
  split_and!; [| | | | |rewrite Hp2, length_app; simpl; lia].
  - by rewrite V1, W1.
  - unfold spans. by rewrite V2.
  - rewrite V4, W3. simpl. lia.
  - intros m. rewrite V2. apply W4.
  - intros t. etransitivity; [exact (tag_update (VState (arenas vs3) (l :: r :: free_segs vs3) 0) v a1 _ _ _ Ha3 Htag5 t)|].
    rewrite (tag_give2 _ _ _ _ _ (nfreesegs vs3)). change (VState (arenas vs3) (free_segs vs3) _) with vs3.
    unfold vs3. rewrite (tag_update vs2 v a a1 _ _ Ha2); [done|]. intros u.
    rewrite Q', Q, Hp2, !fmap_app. csimpl. rewrite !elem_of_app, !elem_of_cons. tauto.
Qed.

Lemma xalloc_import P L v size flags vs x a l r pool addr vs2 x2 ns nf pool2 :
  sys_inv P L vs → (∀ b, P v b ↔ arena_ok b) → arenas vs !! v = Some a →
  args_ok size 0 flags → no_refill flags vs → free_segs vs = l :: r :: pool →
  search size 0 flags a = None → vm_allocfn a ≠ 0 →
  call_alloc (vm_allocfn a) (vm_source a) size flags
    (VState (arenas vs) pool (nfreesegs vs - 1 - 1), x) = Ok ((0, addr), (vs2, x2)) →
  sys_inv P (l :: r :: L) vs2 → arenas vs2 !! v = Some a → free_segs vs2 = ns :: nf :: pool2 →
  0 ≤ addr → addr + size < 2^64 → span_disjoint addr size a →
  ∃ vs' a', vmem_xalloc vm_kalloc call_alloc call_free v size 0 0 0 0 0 flags (vs, x) =
      Ok ((0, Some addr), (vs', x2)) ∧
    sys_inv P L vs' ∧ arenas vs' = <[v := a']> (arenas vs2) ∧ header a' = header a ∧
    live a' ≡ₚ (addr, size) :: live a ∧ spans a' ≡ₚ (addr, size) :: spans a ∧
    sum_sizes (free_space a') = sum_sizes (free_space a) ∧
    (∀ m, m ∈ markers a' → m ∈ markers a ∨ seg_ty m = kVMemSegSpanImported) ∧
    (∀ t, tag vs' t ↔ tag vs2 t ∨ t = l ∨ t = r) ∧
    (length (free_segs vs2) ≤ 2 + length (free_segs vs'))%nat.
Proof.
  intros Hs HP Ha Hargs Hr Hp Hsearch Hfn Hcall Hs2 Ha2 Hp2 Hb He Hd.
  pose proof (proj1 (HP _) (so_arena _ _ _ Hs _ _ Ha)) as Hok.
  pose proof (proj1 Hargs) as Hsz.
  rewrite (xalloc_prologue _ _ _ v size 0 flags vs x l r pool a) by done. rewrite Hsearch.
  destruct (take_import P L v vs2 x2 a addr size l r ns nf pool2 Hs2 HP Ha2 Hp2 Hsz Hb He Hd)
    as (Ef & vs' & a' & Hsplit & Hrest).
  rewrite (bind_step _ _ _ _ _ (try_import_run v size flags (VState (arenas vs) pool (nfreesegs vs - 1 - 1)) x a addr
    vs2 x2 ns nf pool2 Ha Hfn Hcall Ha2 Hp2)).
  lazy beta iota. change (0 <? 0) with false. lazy iota.
  erewrite bind_step by (apply get_arena_ok; apply lookup_insert_eq). rewrite Ef, deref_bind.
  rewrite (bind_step _ _ _ _ _ Hsplit). by exists vs', a'.
Qed.
End import.
