(* ===== verification/VmemWitness.v ===== *)
(** * Concrete states of the allocator

    A small arena, built by the operations themselves, at which the properties
    of [VmemProps] are applied. *)

From S2P Require Import Prelude Vmem VmemInv VmemSpan VmemProps.
Open Scope Z_scope.

(** No imports, no refill. *)
Definition no_kalloc (pages wait : Z) : M (vstate * unit) Z := fatal "vm_kalloc".
Definition no_alloc (f src size flags : Z) : M (vstate * unit) (Z * Z) := fatal "allocfn".
Definition no_free (f src addr size : Z) : M (vstate * unit) unit := fatal "freefn".

(** [\[4096, 12288)] free. *)
Definition demo_empty : vmem := empty_arena "demo" 4096 8192 4096 0 0 0 0.
Definition demo_arena : vmem :=
  insert_span None (Seg 100 kVMemSegSpan 4096 8192) (Seg 101 kVMemSegFree 4096 8192) demo_empty.
Definition demo : vstate := VState {[ 1 := demo_arena ]} [1; 2; 3; 4; 5; 6; 7; 8] 8.

(** The whole of it allocated. *)
Definition full_arena : vmem :=
  split_arena (Seg 101 kVMemSegFree 4096 8192) 1 2 4096 8192 demo_arena.
Definition full : vstate := VState {[ 1 := full_arena ]} [2; 1; 3; 4; 5; 6; 7; 8] 8.

(** One page allocated at the start. *)
Definition part_arena : vmem :=
  split_arena (Seg 101 kVMemSegFree 4096 8192) 1 2 4096 4096 demo_arena.
Definition part : vstate := VState {[ 1 := part_arena ]} [1; 3; 4; 5; 6; 7; 8] 7.

Lemma one_arena_ok a pool :
  arena_ok a → NoDup pool → (∀ t, t ∈ segqueue a → (seg_id t ∉ pool)) →
  sys_ok (VState {[ 1 := a ]} pool (Z.of_nat (length pool))).
Proof.
  intros Ha ND Hf. split; simpl; try done.
  - intros v b [<- <-]%lookup_singleton_Some. done.
  - intros v b t [<- <-]%lookup_singleton_Some. auto.
  - intros v w b c t u [<- _]%lookup_singleton_Some [<- _]%lookup_singleton_Some. done.
Qed.

Lemma demo_arena_ok : arena_ok demo_arena.
Proof.
  apply (insert_span_ok demo_empty 100 101 kVMemSegSpan 4096 8192); try done;
    try apply not_elem_of_nil.
  - apply empty_arena_ok.
  - intros s []%elem_of_nil.
Qed.

Ltac not_in_list := vm_compute; intros Hin; repeat (apply elem_of_cons in Hin as [Hin|Hin]; [done|]);
  by apply elem_of_nil in Hin.

Lemma demo_ok : sys_ok demo.
Proof.
  apply (one_arena_ok demo_arena [1; 2; 3; 4; 5; 6; 7; 8]); [apply demo_arena_ok|by apply (bool_decide_unpack _)|].
  intros t [->|[->|[]%elem_of_nil]%elem_of_cons]%elem_of_cons; not_in_list.
Qed.

Lemma full_arena_ok : arena_ok full_arena.
Proof.
  apply (split_arena_ok demo_arena [Seg 100 kVMemSegSpan 4096 8192] []); try done;
    [apply demo_arena_ok|not_in_list|not_in_list].
Qed.

Lemma part_arena_ok : arena_ok part_arena.
Proof.
  apply (split_arena_ok demo_arena [Seg 100 kVMemSegSpan 4096 8192] []); try done;
    [apply demo_arena_ok|not_in_list|not_in_list].
Qed.

Lemma full_ok : sys_ok full.
Proof.
  apply (one_arena_ok full_arena [2; 1; 3; 4; 5; 6; 7; 8]); [apply full_arena_ok|by apply (bool_decide_unpack _)|].
  intros t [->|[->|[]%elem_of_nil]%elem_of_cons]%elem_of_cons; not_in_list.
Qed.

Lemma part_ok : sys_ok part.
Proof.
  apply (one_arena_ok part_arena [1; 3; 4; 5; 6; 7; 8]); [apply part_arena_ok|by apply (bool_decide_unpack _)|].
  intros t [->|[->|[->|[]%elem_of_nil]%elem_of_cons]%elem_of_cons]%elem_of_cons; not_in_list.
Qed.

(** ** The properties at these states *)

Lemma demo_no_wrap size min : 0 < size < 2^62 → 0 ≤ min < 2^62 → no_wrap size min demo_arena.
Proof.
  intros ??. split_and!; try lia.
  intros s [->|[->|[]%elem_of_nil]%elem_of_cons]%elem_of_cons; simpl; lia.
Qed.

Lemma vmem_xalloc_correct_witness :
  ∃ addr vs', vmem_xalloc no_kalloc no_alloc no_free 1 4096 0 0 0 8192 0 6 (demo, ()) =
      Ok ((0, Some addr), (vs', ())) ∧ sys_ok vs' ∧ allocated 1 4096 8192 addr demo vs' ∧
    (has_flag 6 kVMemExact = true → addr = 8192).
Proof.
  apply (vmem_xalloc_correct no_kalloc no_alloc no_free 1 4096 8192 6 demo () demo_arena
    (Seg 101 kVMemSegFree 4096 8192)); try done.
  - apply demo_ok.
  - split; [lia|by right].
  - by apply demo_no_wrap.
  - by left.
  - simpl. lia.
  - right. left.
Defined.

Lemma vmem_xalloc_exhausted_witness :
  vmem_xalloc no_kalloc no_alloc no_free 1 16384 0 0 0 0 0 4 (demo, ()) =
    Ok ((-1200, None), (VState (arenas demo) [3; 4; 5; 6; 7; 8] 6, ())).
Proof.
  apply (vmem_xalloc_exhausted no_kalloc no_alloc no_free 1 16384 0 4 demo () demo_arena
    1 2 [3; 4; 5; 6; 7; 8]); try done.
  - apply demo_ok.
  - split; [lia|by left].
  - by apply demo_no_wrap.
  - by left.
  - intros s [->|[->|[]%elem_of_nil]%elem_of_cons]%elem_of_cons [Hty Hc]; [done|].
    vm_compute in Hc. by destruct Hc.
Defined.

Lemma full_no_imports : no_imports full_arena.
Proof. intros s [->|[->|[]%elem_of_nil]%elem_of_cons]%elem_of_cons; done. Qed.

Lemma vmem_xfree_correct_witness :
  ∃ s vs', s ∈ segqueue part_arena ∧ extent s = (4096, 4096) ∧
    vmem_xfree no_free 1 4096 0 (part, ()) = Ok (4096, (vs', ())) ∧ sys_ok vs' ∧
    freed 1 4096 4096 (if free_neighbour part_arena s then 4096 else 0) part vs'.
Proof.
  apply (vmem_xfree_correct no_free 1 0 part () part_arena 4096 4096).
  - apply part_ok.
  - done.
  - intros s [->|[->|[->|[]%elem_of_nil]%elem_of_cons]%elem_of_cons]%elem_of_cons; done.
  - vm_compute. left.
Defined.


Lemma vmem_xfree_isolated_lost_witness :
  ∃ vs' a', vmem_xfree no_free 1 4096 0 (full, ()) = Ok (8192, (vs', ())) ∧
    arenas vs' !! 1 = Some a' ∧ arena_ok a' ∧ spans a' = [(4096, 8192)] ∧
    (∀ t, t ∈ segqueue a' → is_span t = false →
       disjoint_segs (Seg 101 kVMemSegAllocated 4096 8192) t) ∧
    ∃ f, f ∈ spans a' ∧ inside (4096, 8192) f.
Proof.
  apply (vmem_xfree_isolated_lost no_free 1 0 full () full_arena
    (Seg 101 kVMemSegAllocated 4096 8192)); try done.
  - apply full_ok.
  - apply full_no_imports.
  - right. left.
Defined.

(** An arena whose only span was imported by the allocation that holds it. *)
Definition import_empty : vmem := empty_arena "demo" 0 0 4096 7 8 9 0.
Definition import_span : vmem :=
  insert_span None (Seg 100 kVMemSegSpanImported 4096 8192) (Seg 101 kVMemSegFree 4096 8192)
    import_empty.
Definition import_arena : vmem :=
  split_arena (Seg 101 kVMemSegFree 4096 8192) 1 2 4096 8192 import_span.
Definition import_state : vstate := VState {[ 1 := import_arena ]} [2; 1; 3; 4] 4.

Lemma import_arena_ok : arena_ok import_arena.
Proof.
  apply (split_arena_ok import_span [Seg 100 kVMemSegSpanImported 4096 8192] []); try done;
    [|not_in_list|not_in_list].
  apply (insert_span_ok import_empty 100 101 kVMemSegSpanImported 4096 8192); try done;
    try apply not_elem_of_nil.
  - apply empty_arena_ok.
  - intros s []%elem_of_nil.
Qed.

Lemma import_state_ok : sys_ok import_state.
Proof.
  apply (one_arena_ok import_arena [2; 1; 3; 4]); [apply import_arena_ok|by apply (bool_decide_unpack _)|].
  intros t [->|[->|[]%elem_of_nil]%elem_of_cons]%elem_of_cons; not_in_list.
Qed.

(** A source that keeps a record of the ranges given back. *)
Definition record_free (f src addr size : Z) : M (vstate * list (Z * Z)) unit :=
  mmodify (λ s, (s.1, (addr, size) :: s.2)).

Lemma vmem_xfree_release_witness :
  ∃ vs2 x2 vs' a', vmem_xfree record_free 1 4096 0 (import_state, []) = Ok (8192, (vs', x2)) ∧
    sys_ok vs' ∧ arenas vs' = <[1 := a']> (arenas vs2) ∧ x2 = [(4096, 8192)] ∧ segqueue a' = [].
Proof.
  apply (vmem_xfree_release record_free (λ _, arena_ok) [] (λ _ x, x = [(4096, 8192)]) 1 0
    import_state [] import_arena (Seg 101 kVMemSegAllocated 4096 8192) []
    (Seg 100 kVMemSegSpanImported 4096 8192) None None []); try done.
  - apply import_state_ok.
  - intros m []%elem_of_nil.
  - intros vs1 Hs1 _ _. by exists vs1, [(4096, 8192)].
Defined.

Lemma vmem_add_correct_witness :
  ∃ vs' a', vmem_add 1 65536 4096 0 (demo, ()) = Ok (0, (vs', ())) ∧ sys_ok vs' ∧
    arenas vs' = <[1 := a']> (arenas demo) ∧
    spans a' ≡ₚ (65536, 4096) :: spans demo_arena ∧
    free_space a' ≡ₚ (65536, 4096) :: free_space demo_arena ∧ live a' = live demo_arena.
Proof.
  apply (vmem_add_correct 1 65536 4096 0 demo () demo_arena 1 2 [3; 4; 5; 6; 7; 8]); try done.
  - apply demo_ok.
  - intros s [->|[->|[]%elem_of_nil]%elem_of_cons]%elem_of_cons _; unfold seg_end; simpl; lia.
Defined.

Lemma vmem_init_correct_witness :
  ∃ vs' a, vmem_init 2 "kernel" 4096 8192 4096 0 0 0 0 (demo, ()) = Ok ((), (vs', ())) ∧
    sys_ok vs' ∧ arenas vs' = <[2 := a]> (arenas demo) ∧ vm_allocfn a = 0 ∧
    spans a = [(4096, 8192)] ∧ free_space a = [(4096, 8192)] ∧ live a = [].
Proof.
  apply (vmem_init_correct 2 "kernel" 4096 8192 4096 0 0 0 demo () 1 2 [3; 4; 5; 6; 7; 8]);
    try done.
  - apply demo_ok.
  - vm_compute. lia.
Defined.

Lemma vmem_xalloc_exact_wraps_witness :
  12288 < (2^64 - 1024) + 4096 ∧
  ∃ vs', vmem_xalloc no_kalloc no_alloc no_free 1 4096 0 0 0 (2^64 - 1024) 0 6 (demo, ()) =
    Ok ((0, Some (2^64 - 1024)), (vs', ())).
Proof.
  apply (vmem_xalloc_exact_wraps no_kalloc no_alloc no_free 1 4096 (2^64 - 1024) 6 demo ()
    demo_arena 1 2 [3; 4; 5; 6; 7; 8] (Seg 101 kVMemSegFree 4096 8192)); try done.
  - apply demo_ok.
  - by left.
  - right. left.
Defined.
