(* ===== verification/VmPage.v ===== *)
(** * Physical memory, page queues and memory descriptor lists: vm/vm_page.c

    Physical memory is a byte function; the kernel reaches it through the
    direct map ([P2V]), which is left implicit.  A [vm_page_t] is identified by
    its [paddr].  Of a page queue the model keeps the list of pages and the
    counter [npages]; [TAILQ_REMOVE] unlinks the element from the queue it is
    on, whatever head it is given (the head only matters for [tqh_last], which
    no code that runs after [mem_init] reads).  The queue locks are left out. *)

From S2P Require Import Prelude.
Open Scope Z_scope.

(** ** Physical memory *)

Definition mem := Z → Z.

Definition in_range (a len x : Z) : bool := (a <=? x) && (x <? a + len).
(** [memset(a, 0, len)] *)
Definition mem_zero (a len : Z) (m : mem) : mem := λ x, if in_range a len x then 0 else m x.
(** A [uint64_t], least significant byte first. *)
Definition read64 (m : mem) (a : Z) : Z :=
  m a + 2^8 * m (a + 1) + 2^16 * m (a + 2) + 2^24 * m (a + 3) +
  2^32 * m (a + 4) + 2^40 * m (a + 5) + 2^48 * m (a + 6) + 2^56 * m (a + 7).
Definition write64 (m : mem) (a v : Z) : mem :=
  λ x, if in_range a 8 x then (v / 2^(8 * (x - a))) mod 2^8 else m x.
(** [memcpy(dst, src, len)] between different pages. *)
Definition mem_copy (dst src len : Z) (m : mem) : mem :=
  λ x, if in_range dst len x then m (src + (x - dst)) else m x.

Lemma in_range_spec a len x : in_range a len x = true ↔ a ≤ x < a + len.
Proof. unfold in_range. rewrite andb_true_iff, Z.leb_le, Z.ltb_lt. lia. Qed.
Lemma in_range_true a len x : a ≤ x < a + len → in_range a len x = true.
Proof. by rewrite in_range_spec. Qed.
Lemma in_range_false a len x : x < a ∨ a + len ≤ x → in_range a len x = false.
Proof. intros. apply not_true_iff_false. rewrite in_range_spec. lia. Qed.

Lemma bytes_sum v :
  0 ≤ v < 2^64 →
  v = v mod 2^8 + 2^8 * ((v / 2^8) mod 2^8) + 2^16 * ((v / 2^16) mod 2^8) +
      2^24 * ((v / 2^24) mod 2^8) + 2^32 * ((v / 2^32) mod 2^8) +
      2^40 * ((v / 2^40) mod 2^8) + 2^48 * ((v / 2^48) mod 2^8) + 2^56 * ((v / 2^56) mod 2^8).
Proof. intros. Z.div_mod_to_equations. lia. Qed.

Lemma read64_write64 m a v : 0 ≤ v < 2^64 → read64 (write64 m a v) a = v.
Proof.
  intros Hv. unfold read64, write64.
  rewrite !in_range_true by lia.
  replace (8 * (a - a)) with 0 by lia. replace (8 * (a + 1 - a)) with 8 by lia.
  replace (8 * (a + 2 - a)) with 16 by lia. replace (8 * (a + 3 - a)) with 24 by lia.
  replace (8 * (a + 4 - a)) with 32 by lia. replace (8 * (a + 5 - a)) with 40 by lia.
  replace (8 * (a + 6 - a)) with 48 by lia. replace (8 * (a + 7 - a)) with 56 by lia.
  change (2^0) with 1. rewrite Z.div_1_r. by rewrite <-bytes_sum.
Qed.

Lemma read64_write64_ne m a b v : a + 8 ≤ b ∨ b + 8 ≤ a → read64 (write64 m a v) b = read64 m b.
Proof. intros Hne. unfold read64, write64. by rewrite !in_range_false by lia. Qed.

Lemma read64_zero m a len b : a ≤ b → b + 8 ≤ a + len → read64 (mem_zero a len m) b = 0.
Proof. intros. unfold read64, mem_zero. by rewrite !in_range_true by lia. Qed.

Lemma read64_zero_ne m a len b :
  b + 8 ≤ a ∨ a + len ≤ b → read64 (mem_zero a len m) b = read64 m b.
Proof. intros. unfold read64, mem_zero. by rewrite !in_range_false by lia. Qed.

(** ** Pages and queues *)

(** [enum vm_page_queue] *)
Definition kVMPageFree : Z := 0.
Definition kVMPageKMem : Z := 1.
Definition kVMPageWired : Z := 2.
Definition kVMPageActive : Z := 3.
Definition kVMPageInactive : Z := 4.
Definition kVMPagePMap : Z := 5.

(** The queue objects. *)
Inductive pagequeue := pgfreeq | pgkmemq | pgwiredq | pgactiveq | pginactiveq | pgpmapq.
#[export] Instance pagequeue_eq_dec : EqDecision pagequeue.
Proof. solve_decision. Defined.

(** [vm_pregion_t]: base and number of pages. *)
Record pregion := PRegion { pr_base : Z; pr_npages : Z }.

(** [vm_pagequeue_t] *)
Record vm_pagequeue := PQ { pq_list : list Z; npages : Z }.

(** [pv_entry_t] with its address: a mapping of a page. *)
Record pv_entry := PV { pv_addr : Z; pv_map : Z; pv_vaddr : Z }.

Record pstate := PState {
  pregions : list pregion;
  queues : pagequeue → vm_pagequeue;
  page_queue : Z → Z;                (** the field [queue] of each page *)
  pv_table : Z → list pv_entry;      (** the pageable mappings of each page *)
  phys : mem;
}.

Definition vm_page_from_paddr (s : pstate) (paddr : Z) : option Z :=
  (fix go (l : list pregion) :=
     match l with
     | [] => None
     | r :: l' =>
         if (pr_base r <=? paddr) && (paddr <? pr_base r + PGSIZE * pr_npages r)
         then Some (pr_base r + PGSIZE * ((paddr - pr_base r) / PGSIZE))
         else go l'
     end) (pregions s).

(** The queue the field [queue] of a page stands for. *)
Definition vm_page_queue (s : pstate) (page : Z) : option pagequeue :=
  let q := page_queue s page in
  if q =? kVMPageFree then Some pgfreeq
  else if q =? kVMPageKMem then Some pgkmemq
  else if q =? kVMPageWired then Some pgactiveq
  else if q =? kVMPageActive then Some pgactiveq
  else if q =? kVMPageInactive then Some pginactiveq
  else None.

Definition set_queues (f : (pagequeue → vm_pagequeue) → pagequeue → vm_pagequeue) (s : pstate)
    : pstate := PState (pregions s) (f (queues s)) (page_queue s) (pv_table s) (phys s).
Definition set_phys (f : mem → mem) (s : pstate) : pstate :=
  PState (pregions s) (queues s) (page_queue s) (pv_table s) (f (phys s)).

Definition page_unlink (page : Z) (l : list Z) : list Z := tq_remove (λ x, x) page l.

Definition queue_remove (page : Z) (from : pagequeue) (qs : pagequeue → vm_pagequeue)
    : pagequeue → vm_pagequeue :=
  λ q, PQ (page_unlink page (pq_list (qs q)))
          (if decide (q = from) then w64 (npages (qs q) - 1) else npages (qs q)).
Definition queue_insert (page : Z) (to : pagequeue) (qs : pagequeue → vm_pagequeue)
    : pagequeue → vm_pagequeue :=
  λ q, if decide (q = to) then PQ (page :: pq_list (qs q)) (w64 (npages (qs q) + 1)) else qs q.

(** [from] is [None] for NULL. *)
Definition vm_page_changequeue (page : Z) (from : option pagequeue) (to : pagequeue)
    : M pstate unit :=
  s ← mget;
  from ← match from with
         | Some q => mret q
         | None =>
             match vm_page_queue s page with
             | Some q => mret q
             | None => fatal "unreached"
             end
         end;
  mput (set_queues (λ qs, queue_insert page to (queue_remove page from qs)) s).

Definition vm_pagealloc (sleep : bool) (queue : pagequeue) : M pstate Z :=
  s ← mget;
  match pq_list (queues s pgfreeq) with
  | [] => fatal "vm_allocpage: oom not yet handled"
  | page :: _ =>
      vm_page_changequeue page (Some pgfreeq) queue;;
      mmodify (set_phys (mem_zero page PGSIZE));;
      mret page
  end.

(** [None] is a null page pointer. *)
Definition vm_page_free (page : option Z) : M pstate unit :=
  match page with
  | None => fatal "assert(page != NULL)"
  | Some p => vm_page_changequeue p None pgfreeq
  end.

(** [vm_pagedump] prints the six counters. *)
Definition vm_pagedump (s : pstate) : list Z :=
  npages <$> [queues s pgfreeq; queues s pgkmemq; queues s pgwiredq; queues s pgactiveq;
              queues s pginactiveq; queues s pgpmapq].

(** ** Memory descriptor lists *)

Definition ENOMEM : Z := 12.

(** [vm_mdl_t] with its address. *)
Record vm_mdl := MDL {
  mdl_addr : Z;
  mdl_offset : Z;
  mdl_nBytes : Z;
  mdl_nPages : Z;
  mdl_pages : list Z;
}.

Section mdl.
(** kern/kmem_slab.c, through its interface: the state that the heap adds to
    that of the pages, [kmem_alloc], [None] for NULL, and [kmem_free]. *)
Context {K : Type}.
Variable on_pages : ∀ A, M pstate A → M K A.
Variable kmem_alloc : Z → M K (option Z).
Variable kmem_free : Z → Z → M K unit.

Fixpoint alloc_pages (n : nat) : M K (list Z) :=
  match n with
  | O => mret []
  | S n' =>
      page ← on_pages Z (vm_pagealloc true pgwiredq);
      rest ← alloc_pages n';
      mret (page :: rest)
  end.

(** The MDL has 24 bytes and 8 per page. *)
Definition sizeof_mdl (nPages : Z) : Z := 24 + 8 * nPages.

Definition vm_mdl_new_with_capacity (bytes : Z) : M K (Z * option vm_mdl) :=
  let nPages := PGROUNDUP bytes / PGSIZE in
  addr ← kmem_alloc (sizeof_mdl nPages);
  match addr with
  | None => mret (- ENOMEM, None)
  | Some addr =>
      pages ← alloc_pages (Z.to_nat nPages);
      mret (0, Some (MDL addr 0 bytes nPages pages))
  end.

(** All the pages of the old MDL are copied into the new one, whatever its
    size: when the new one has fewer, the copy runs past its end. *)
Definition vm_mdl_expand (mdl : vm_mdl) (bytes : Z) : M K (Z * vm_mdl) :=
  let nPages := PGROUNDUP bytes / PGSIZE in
  addr ← kmem_alloc (sizeof_mdl nPages);
  match addr with
  | None => mret (- ENOMEM, mdl)
  | Some addr =>
      if nPages <? mdl_nPages mdl then undef "newmdl->pages[i] past the end" else
      pages ← alloc_pages (Z.to_nat (nPages - mdl_nPages mdl));
      kmem_free (mdl_addr mdl) (sizeof_mdl (mdl_nPages mdl));;
      mret (0, MDL addr 0 bytes nPages (mdl_pages mdl ++ pages))
  end.
End mdl.

Definition vm_mdl_capacity (mdl : vm_mdl) : Z := w64 (mdl_nPages mdl * PGSIZE).

(** The loop of [vm_mdl_copy], [n] pages from the [iPage]th; [buf] is the
    destination by offset, [first] the first page of the loop. *)
Fixpoint mdl_copy_loop (m : mem) (pages : list Z) (first iPage : Z) (n : nat)
    (nBytes pageoff : Z) (buf : mem) : option mem :=
  match n with
  | O => Some buf
  | S n' =>
      let tocopy := if nBytes >? PGSIZE then PGSIZE - pageoff else nBytes in
      page ← pages !! Z.to_nat iPage;
      let d := (iPage - first) * PGSIZE in
      let buf' := λ x, if in_range d tocopy x then m (page + pageoff + (x - d)) else buf x in
      mdl_copy_loop m pages first (iPage + 1) n' (nBytes - tocopy) 0 buf'
  end.

(** [None] when the code reads past the page array. *)
Definition vm_mdl_copy (m : mem) (mdl : vm_mdl) (buf : mem) (nBytes off : Z) : option mem :=
  let off := off + mdl_offset mdl in
  let base := PGROUNDDOWN off in
  let pageoff := off - base in
  let firstpage := base / PGSIZE in
  let lastpage := firstpage + w64 (pageoff + nBytes - 1) / PGSIZE + 1 in
  mdl_copy_loop m (mdl_pages mdl) firstpage firstpage (Z.to_nat (lastpage - firstpage))
    nBytes pageoff buf.

Definition vm_mdl_zero (mdl : vm_mdl) : M pstate unit :=
  mfor (seq 0 (Z.to_nat ((mdl_nBytes mdl + PGSIZE - 1) / PGSIZE))) (λ i,
    page ← deref (mdl_pages mdl !! i) "mdl->pages";
    mmodify (set_phys (mem_zero page PGSIZE))).

(** ** The page queues *)

Definition all_queues : list pagequeue :=
  [pgfreeq; pgkmemq; pgwiredq; pgactiveq; pginactiveq; pgpmapq].
Definition on_queue (s : pstate) (q : pagequeue) (p : Z) : Prop := p ∈ pq_list (queues s q).

(** A page is on one queue at most, and there once. *)
Record queues_ok (s : pstate) : Prop := QueuesOk {
  qo_nodup : ∀ q, NoDup (pq_list (queues s q));
  qo_disj : ∀ q r p, on_queue s q p → on_queue s r p → q = r;
}.

Lemma elem_of_page_unlink p x (l : list Z) :
  NoDup l → x ∈ page_unlink p l ↔ x ∈ l ∧ x ≠ p.
Proof.
  unfold page_unlink. induction l as [|y l IH]; simpl; intros ND.
  - split; [intros []%elem_of_nil|intros [[]%elem_of_nil _]].
  - apply NoDup_cons in ND as [Hy ND]. destruct (Z.eqb_spec y p) as [->|].
    + rewrite elem_of_cons. split; [|naive_solver]. intros Hx. split; [by right|]. by intros ->.
    + rewrite !elem_of_cons, IH by done. naive_solver.
Qed.

Lemma NoDup_page_unlink p (l : list Z) : NoDup l → NoDup (page_unlink p l).
Proof.
  unfold page_unlink. induction l as [|y l IH]; simpl; intros ND; [done|].
  apply NoDup_cons in ND as [Hy ND]. destruct (Z.eqb_spec y p); [done|].
  apply NoDup_cons. split; [|auto]. intros Hin. apply Hy.
  by apply (elem_of_page_unlink p y l ND) in Hin as [? _].
Qed.

Lemma page_unlink_notin p (l : list Z) : (p ∉ l) → page_unlink p l = l.
Proof.
  unfold page_unlink. induction l as [|y l IH]; simpl; [done|].
  intros [? ?]%not_elem_of_cons. destruct (Z.eqb_spec y p); [congruence|]. by rewrite IH.
Qed.

(** What moving [page] does to the queues, whatever [from] is. *)
Definition moved (page : Z) (from to : pagequeue) (s s' : pstate) : Prop :=
  (∀ q, pq_list (queues s' q) =
     (if decide (q = to) then [page] else []) ++ page_unlink page (pq_list (queues s q))) ∧
  (∀ q, npages (queues s' q) =
     let n := if decide (q = from) then w64 (npages (queues s q) - 1) else npages (queues s q) in
     if decide (q = to) then w64 (n + 1) else n) ∧
  page_queue s' = page_queue s ∧ pregions s' = pregions s.

Lemma moved_ok page from to s s' :
  queues_ok s → moved page from to s s' →
  queues_ok s' ∧ ∀ q p, on_queue s' q p ↔ (p = page ∧ q = to) ∨ (p ≠ page ∧ on_queue s q p).
Proof.
  intros [ND Hd] (Hl & _ & _).
  assert (∀ q p, on_queue s' q p ↔ (p = page ∧ q = to) ∨ (p ≠ page ∧ on_queue s q p)) as Hon.
  { intros q p. unfold on_queue. rewrite Hl, elem_of_app, elem_of_page_unlink by done.
    destruct (decide (q = to)); rewrite ?list_elem_of_singleton, ?elem_of_nil; naive_solver. }
  split; [|done]. split.
  - intros q. rewrite Hl. apply NoDup_app. split_and!.
    + case_decide; [apply NoDup_singleton|apply NoDup_nil_2].
    + intros x Hx [_ Hne]%elem_of_page_unlink; [|done]. apply Hne.
      case_decide; [by apply list_elem_of_singleton in Hx|by apply elem_of_nil in Hx].
    + by apply NoDup_page_unlink.
  - intros q r p. rewrite !Hon. naive_solver.
Qed.

Lemma changequeue_moved page from q to s :
  from = Some q ∨ (from = None ∧ vm_page_queue s page = Some q) →
  ∃ s', vm_page_changequeue page from to s = Ok ((), s') ∧ moved page q to s s' ∧
        phys s' = phys s ∧ pv_table s' = pv_table s.
Proof.
  intros Hq. eexists. split; [|split].
  - unfold vm_page_changequeue, mbind, M_bind, mget. destruct Hq as [->|[-> ->]]; simpl; reflexivity.
  - unfold moved, set_queues, queue_insert, queue_remove. simpl. split_and!; try done.
    + intros r. by destruct (decide (r = to)).
    + intros r. by destruct (decide (r = to)).
  - done.
Qed.

Definition page_taken (s s' : pstate) (page : Z) (rest : list Z) (q : pagequeue) : Prop :=
  queues_ok s' ∧
  (∀ r p, on_queue s' r p ↔ (p = page ∧ r = q) ∨ (p ≠ page ∧ on_queue s r p)) ∧
  (q ≠ pgfreeq → pq_list (queues s' pgfreeq) = rest ∧
     npages (queues s' pgfreeq) = w64 (npages (queues s pgfreeq) - 1) ∧
     npages (queues s' q) = w64 (npages (queues s q) + 1)) ∧
  (∀ x, phys s' x = if in_range page PGSIZE x then 0 else phys s x).

Lemma pagealloc_run sleep q s page rest :
  queues_ok s → pq_list (queues s pgfreeq) = page :: rest →
  ∃ s', vm_pagealloc sleep q s = Ok (page, s') ∧ page_taken s s' page rest q ∧
    phys s' = mem_zero page PGSIZE (phys s) ∧ pv_table s' = pv_table s ∧
    pregions s' = pregions s ∧ page_queue s' = page_queue s.
Proof.
  intros Hok E.
  destruct (changequeue_moved page (Some pgfreeq) pgfreeq q s ltac:(by left))
    as (s1 & Hrun & Hm & Hph & Hpv).
  exists (set_phys (mem_zero page PGSIZE) s1). split.
  { unfold vm_pagealloc. rewrite (bind_step mget _ s s s) by done. rewrite E.
    by rewrite (bind_step _ _ _ _ _ Hrun). }
  destruct (moved_ok _ _ _ _ _ Hok Hm) as [[ND Hd] Hon]. destruct Hm as (Hl & Hn & Hpq & Hpr).
  split; [|by simpl; rewrite Hph]. split; [by split|]. split; [exact Hon|]. split.
  + intros Hne. change (queues (set_phys _ s1)) with (queues s1). rewrite Hl, !Hn, E.
    cbv zeta. repeat case_decide; try congruence. unfold page_unlink. simpl.
    by rewrite Z.eqb_refl.
  + intros x. simpl. unfold mem_zero. by rewrite Hph.
Qed.

(** [vm_pagealloc] takes the first page off the free queue, puts it at the head of
    the queue asked for, zeroes it and touches no other byte, moves the two
    counters by one, and leaves every other page where it was; it stops the
    kernel exactly when the free queue is empty. *)
Theorem vm_pagealloc_correct sleep q s :
  queues_ok s →
  match pq_list (queues s pgfreeq) with
  | [] => is_fatal (vm_pagealloc sleep q s)
  | page :: rest =>
      ∃ s', vm_pagealloc sleep q s = Ok (page, s') ∧ page_taken s s' page rest q
  end.
Proof.
  intros Hok. destruct (pq_list (queues s pgfreeq)) as [|page rest] eqn:E.
  - unfold vm_pagealloc, mbind, M_bind, mget. by rewrite E.
  - destruct (pagealloc_run sleep q s page rest Hok E) as (s' & ? & ? & _). eauto.
Qed.

(** [vm_page_free] of a page puts it at the head of the free queue, on no other
    queue, and leaves all other pages alone; but the queue whose counter is
    decremented is the one the page's [queue] field names, and no code after
    [mem_init] writes that field.  So for a page that [vm_pagealloc] took for
    queue [q], [npages] of [q] stays one too high, and the counter of the free
    queue does not get back the page. *)
Theorem vm_page_free_counts page q s :
  queues_ok s → on_queue s q page → q ≠ pgfreeq → page_queue s page = kVMPageFree →
  0 < npages (queues s pgfreeq) < 2^64 →
  ∃ s', vm_page_free (Some page) s = Ok ((), s') ∧ queues_ok s' ∧
    head (pq_list (queues s' pgfreeq)) = Some page ∧
    (∀ r p, on_queue s' r p ↔ (p = page ∧ r = pgfreeq) ∨ (p ≠ page ∧ on_queue s r p)) ∧
    (length (pq_list (queues s q)) = S (length (pq_list (queues s' q)))) ∧
    npages (queues s' q) = npages (queues s q) ∧
    npages (queues s' pgfreeq) = npages (queues s pgfreeq).
Proof.
  intros Hok Hon Hq Hf Hn0.
  destruct (changequeue_moved page None pgfreeq pgfreeq s) as (s' & Hrun & Hm & _).
  { right. split; [done|]. unfold vm_page_queue. by rewrite Hf. }
  exists s'. split; [exact Hrun|]. destruct (moved_ok _ _ _ _ _ Hok Hm) as [Hok' Hon'].
  destruct Hm as (Hl & Hn & _ & _). split_and!; try done.
  - rewrite Hl. by rewrite decide_True by done.
  - rewrite Hl. rewrite decide_False by done. simpl.
    destruct (tq_split (λ x, x) _ _ Hon) as (l1 & l2 & E & N & _).
    { rewrite list_fmap_id. apply Hok. }
    unfold on_queue, page_unlink in *. rewrite E, (tq_remove_at (λ x, x) l1 l2 page page eq_refl N).
    rewrite !length_app. simpl. lia.
  - rewrite Hn. by rewrite !decide_False by done.
  - rewrite Hn. rewrite !decide_True by done. cbn zeta.
    rewrite (w64_small (_ - 1)) by lia. rewrite w64_small by lia. lia.
Qed.

(** [vm_page_from_paddr] maps an address to the page it lies in, for the
    first region that holds it, and to NULL exactly when no region does. *)
Theorem vm_page_from_paddr_correct s paddr :
  match vm_page_from_paddr s paddr with
  | Some page => page ≤ paddr < page + PGSIZE ∧
      ∃ r i, r ∈ pregions s ∧ 0 ≤ i < pr_npages r ∧ page = pr_base r + PGSIZE * i
  | None => ∀ r, r ∈ pregions s →
      paddr < pr_base r ∨ pr_base r + PGSIZE * pr_npages r ≤ paddr
  end.
Proof.
  unfold vm_page_from_paddr. induction (pregions s) as [|r l IH].
  { intros r []%elem_of_nil. }
  destruct ((pr_base r <=? paddr) && (paddr <? pr_base r + PGSIZE * pr_npages r)) eqn:E.
  - apply andb_true_iff in E as [E1%Z.leb_le E2%Z.ltb_lt]. unfold PGSIZE in *.
    pose proof (Z.div_mod (paddr - pr_base r) 4096 ltac:(lia)).
    pose proof (Z.mod_pos_bound (paddr - pr_base r) 4096 ltac:(lia)).
    split; [lia|]. exists r, ((paddr - pr_base r) / 4096). split_and!; [left|..|done].
    + apply Z.div_pos; lia.
    + apply Z.div_lt_upper_bound; lia.
  - match goal with |- match ?x with _ => _ end => destruct x as [page|] end.
    + destruct IH as (? & r' & i & ? & ?). split; [done|]. exists r', i. split; [by right|done].
    + intros r' [->|Hr']%elem_of_cons; [|by apply IH].
      apply andb_false_iff in E as [E%Z.leb_gt|E%Z.ltb_ge]; lia.
Qed.

(** ** MDLs *)

(** The byte at offset [x] of the memory an MDL describes. *)
Definition mdl_byte (m : mem) (pages : list Z) (x : Z) : Z :=
  m (default 0 (pages !! Z.to_nat (x / PGSIZE)) + x mod PGSIZE).

Lemma mdl_copy_loop_aligned m pages first iPage n nBytes buf :
  0 ≤ first ≤ iPage → 0 < nBytes ≤ PGSIZE * Z.of_nat n →
  PGSIZE * (Z.of_nat n - 1) < nBytes → iPage + Z.of_nat n ≤ Z.of_nat (length pages) →
  ∃ buf', mdl_copy_loop m pages first iPage n nBytes 0 buf = Some buf' ∧
    ∀ k, buf' k = if in_range ((iPage - first) * PGSIZE) nBytes k
                  then mdl_byte m pages (first * PGSIZE + k) else buf k.
Proof.
  revert iPage nBytes buf. induction n as [|n IH]; intros iPage nBytes buf Hi Hn1 Hn2 Hp; [lia|].
  assert (is_Some (pages !! Z.to_nat iPage)) as [page Hpage]
    by (apply lookup_lt_is_Some; lia).
  cbn [mdl_copy_loop]. rewrite Hpage. simpl. rewrite Z.sub_0_r.
  set (tocopy := if nBytes >? PGSIZE then PGSIZE else nBytes).
  set (buf1 := λ x, if in_range ((iPage - first) * PGSIZE) tocopy x
                    then m (page + 0 + (x - (iPage - first) * PGSIZE)) else buf x).
  assert (∀ k, (iPage - first) * PGSIZE ≤ k < (iPage - first) * PGSIZE + PGSIZE →
    mdl_byte m pages (first * PGSIZE + k) = m (page + 0 + (k - (iPage - first) * PGSIZE))) as Hb.
  { intros k Hk. unfold mdl_byte, PGSIZE in *.
    replace ((first * 4096 + k) / 4096) with iPage
      by (apply (Z.div_unique_pos _ _ _ (first * 4096 + k - iPage * 4096)); lia).
    replace ((first * 4096 + k) mod 4096) with (k - (iPage - first) * 4096)
      by (apply (Z.mod_unique_pos _ _ iPage); lia).
    rewrite Hpage. simpl. f_equal. lia. }
  assert ((PGSIZE < nBytes ∧ tocopy = PGSIZE) ∨ (nBytes ≤ PGSIZE ∧ tocopy = nBytes)) as Ht
    by (subst tocopy; destruct (Z.gtb_spec nBytes PGSIZE); lia).
  clearbody tocopy. unfold PGSIZE in *. destruct Ht as [[Hgt ->]|[Hle ->]].
  - destruct (IH (iPage + 1) (nBytes - 4096) buf1) as (buf' & E & Hbuf); try lia.
    exists buf'. split; [done|]. intros k. rewrite Hbuf. subst buf1. cbv beta.
    destruct (decide (in_range ((iPage + 1 - first) * 4096) (nBytes - 4096) k)) as [H|H].
    + rewrite (proj2 (in_range_spec _ _ _)) by (apply Is_true_true, in_range_spec in H; lia).
      rewrite in_range_true; [done|]. apply Is_true_true, in_range_spec in H.  lia.
    + apply Is_true_false, not_true_iff_false in H. rewrite in_range_spec in H.
      rewrite (in_range_false ((iPage + 1 - first) * 4096)) by lia.
      destruct (decide (in_range ((iPage - first) * 4096) 4096 k)) as [H'|H'].
      * apply Is_true_true in H'. rewrite H'. apply in_range_spec in H'.
        rewrite in_range_true by (lia). rewrite Hb; [done|lia].
      * apply Is_true_false in H'. rewrite H'. apply not_true_iff_false in H'.
        rewrite in_range_spec in H'. rewrite in_range_false; [done|].  lia.
  - assert (n = 0)%nat as -> by (unfold PGSIZE in *; lia).
    exists buf1. split; [done|]. intros k. subst buf1. cbv beta.
    destruct (in_range ((iPage - first) * 4096) nBytes k) eqn:E; [|done].
    apply in_range_spec in E. by rewrite Hb by lia.
Qed.

(** [vm_mdl_copy] copies the [nBytes] bytes at offset [off] of the memory the MDL
    describes to the buffer, and nothing else, when the range starts on a page
    boundary or stays inside one page. *)
Theorem vm_mdl_copy_correct m mdl buf nBytes off :
  0 ≤ off + mdl_offset mdl → 0 < nBytes →
  off + mdl_offset mdl + nBytes ≤ PGSIZE * Z.of_nat (length (mdl_pages mdl)) →
  off + mdl_offset mdl + nBytes < 2^63 →
  (off + mdl_offset mdl) mod PGSIZE = 0 ∨ (off + mdl_offset mdl) mod PGSIZE + nBytes ≤ PGSIZE →
  ∃ buf', vm_mdl_copy m mdl buf nBytes off = Some buf' ∧
    ∀ k, buf' k = if in_range 0 nBytes k
                  then mdl_byte m (mdl_pages mdl) (off + mdl_offset mdl + k) else buf k.
Proof.
  intros H0 Hn Hlen Hmax Hal. unfold vm_mdl_copy. set (o := off + mdl_offset mdl) in *.
  unfold PGSIZE in *. rewrite PGROUNDDOWN_eq by lia.
  pose proof (Z.div_mod o 4096 ltac:(done)) as Ho.
  pose proof (Z.mod_pos_bound o 4096 ltac:(done)) as Hm.
  set (p := o / 4096) in *. set (r := o mod 4096) in *.
  fold p.
  assert (p * 4096 / 4096 = p) as Ep by (by apply Z.div_mul).
  rewrite Ep. replace (o - p * 4096) with r by lia.
  assert (0 ≤ p) by (apply Z.div_pos; lia).
  rewrite w64_small by lia.
  set (c := (r + nBytes - 1) / 4096).
  pose proof (Z.div_mod (r + nBytes - 1) 4096 ltac:(done)) as Hc.
  pose proof (Z.mod_pos_bound (r + nBytes - 1) 4096 ltac:(done)) as Hc'. fold c in Hc.
  assert (0 ≤ c) by (apply Z.div_pos; lia).
  replace (p + c + 1 - p) with (c + 1) by lia.
  destruct Hal as [Hr|Hr].
  - replace r with 0 by lia. destruct (mdl_copy_loop_aligned m (mdl_pages mdl) p p (Z.to_nat (c + 1)) nBytes buf)
      as (buf' & E & Hbuf); try (unfold PGSIZE; lia).
    exists buf'. split; [exact E|]. intros k. rewrite Hbuf. unfold PGSIZE. replace ((p - p) * 4096) with 0 by lia.
    by replace (o + k) with (p * 4096 + k) by lia.
  - assert (c = 0) as Ec by (apply Z.div_small; lia). rewrite Ec.
    assert (is_Some (mdl_pages mdl !! Z.to_nat p)) as [page Hpage]
      by (apply lookup_lt_is_Some; unfold PGSIZE in *; lia).
    change (Z.to_nat (0 + 1)) with 1%nat. cbn [mdl_copy_loop]. rewrite Hpage. simpl. unfold PGSIZE.
    assert ((if nBytes >? 4096 then 4096 - r else nBytes) = nBytes) as ->
      by (destruct (Z.gtb_spec nBytes 4096); lia).
    eexists. split; [reflexivity|]. intros k. cbv beta. replace ((p - p) * 4096) with 0 by lia.
    destruct (in_range 0 nBytes k) eqn:E; [|done]. apply in_range_spec in E. unfold mdl_byte, PGSIZE.
    replace ((o + k) / 4096) with p
      by (apply (Z.div_unique_pos _ _ _ (r + k)); lia).
    replace ((o + k) mod 4096) with (r + k)
      by (apply (Z.mod_unique_pos _ _ p); lia).
    rewrite Hpage. simpl. f_equal. lia.
Qed.

(** a copy that starts inside a page and crosses its end is wrong when it is no
    longer than a page: it is done in one piece, from the bytes that follow the
    first page in physical memory instead of from the next page of the MDL. *)
Theorem vm_mdl_copy_crossing m mdl buf nBytes off p1 p2 :
  mdl_pages mdl = [p1; p2] → mdl_offset mdl = 0 → 0 < off < PGSIZE → 0 < nBytes ≤ PGSIZE →
  PGSIZE < off + nBytes →
  ∃ buf', vm_mdl_copy m mdl buf nBytes off = Some buf' ∧
    ∀ k, 0 ≤ k < nBytes → buf' k = m (p1 + off + k).
Proof.
  intros Hp Ho Hoff Hn Hx. unfold vm_mdl_copy. rewrite Ho, Z.add_0_r, Hp.
  unfold PGSIZE in *. rewrite PGROUNDDOWN_eq by lia.
  rewrite (Z.div_small off) by lia. change (0 * 4096 / 4096) with 0. change (0 * 4096) with 0.
  rewrite !Z.sub_0_r, w64_small by lia.
  assert ((off + nBytes - 1) / 4096 = 1) as ->
    by (symmetry; apply (Z.div_unique_pos _ _ _ (off + nBytes - 1 - 4096)); lia).
  change (Z.to_nat (0 + 1 + 1)) with 2%nat. cbn [mdl_copy_loop]. unfold PGSIZE.
  rewrite !Z.gtb_ltb, !(proj2 (Z.ltb_ge 4096 nBytes)) by lia. rewrite Z.sub_diag.
  change ([p1; p2] !! Z.to_nat 0) with (Some p1).
  change ([p1; p2] !! Z.to_nat (0 + 1)) with (Some p2). simpl.
  eexists. split; [reflexivity|]. intros k Hk. cbv beta.
  rewrite in_range_false by lia. rewrite in_range_true by lia. f_equal. lia.
Qed.

(** ** The properties at a small machine *)

Definition demo_pages : pstate :=
  PState [PRegion 1048576 4]
    (λ q, match q with
          | pgfreeq => PQ [1052672; 1056768] 2
          | pgkmemq => PQ [1060864] 1
          | _ => PQ [] 0
          end) (λ _, kVMPageFree) (λ _, []) (λ x, x mod 256).

Lemma demo_pages_ok : queues_ok demo_pages.
Proof.
  split.
  - intros q. apply (bool_decide_unpack _). by destruct q.
  - intros q r p. unfold on_queue. destruct q, r; simpl; try done;
      rewrite ?elem_of_cons, ?elem_of_nil; intuition congruence.
Qed.

Lemma vm_pagealloc_correct_witness :
  ∃ s', vm_pagealloc true pgwiredq demo_pages = Ok (1052672, s') ∧
    page_taken demo_pages s' 1052672 [1056768] pgwiredq.
Proof. exact (vm_pagealloc_correct true pgwiredq demo_pages demo_pages_ok). Defined.

Lemma vm_page_free_counts_witness :
  ∃ s', vm_page_free (Some 1060864) demo_pages = Ok ((), s') ∧ queues_ok s' ∧
    head (pq_list (queues s' pgfreeq)) = Some 1060864 ∧
    (∀ r p, on_queue s' r p ↔
       (p = 1060864 ∧ r = pgfreeq) ∨ (p ≠ 1060864 ∧ on_queue demo_pages r p)) ∧
    1%nat = S (length (pq_list (queues s' pgkmemq))) ∧
    npages (queues s' pgkmemq) = 1 ∧ npages (queues s' pgfreeq) = 2.
Proof.
  apply (vm_page_free_counts 1060864 pgkmemq demo_pages demo_pages_ok); try done.
  left.
Defined.

Lemma vm_mdl_copy_correct_witness :
  ∃ buf',
    vm_mdl_copy (phys demo_pages) (MDL 0 0 8192 2 [1052672; 1060864]) (λ _, 0) 8000 0 = Some buf' ∧
    ∀ k, buf' k = if in_range 0 8000 k
                  then mdl_byte (phys demo_pages) [1052672; 1060864] (0 + 0 + k) else 0.
Proof.
  destruct (vm_mdl_copy_correct (phys demo_pages) (MDL 0 0 8192 2 [1052672; 1060864]) (λ _, 0) 8000 0)
    as (buf' & H); try (simpl; unfold PGSIZE; lia).
  - by left.
  - by exists buf'.
Defined.

Lemma vm_mdl_copy_crossing_witness :
  ∃ buf', vm_mdl_copy (phys demo_pages) (MDL 0 0 8192 2 [1052672; 1060864]) (λ _, 0) 16 4090 = Some buf' ∧
    ∀ k, 0 ≤ k < 16 → buf' k = phys demo_pages (1052672 + 4090 + k).
Proof.
  apply (vm_mdl_copy_crossing (phys demo_pages) (MDL 0 0 8192 2 [1052672; 1060864]) (λ _, 0) 16 4090
    1052672 1060864); try done; unfold PGSIZE; lia.
Defined.
