(* ===== verification/Pmap.v ===== *)
(** * The x86-64 page tables: kernel-3/x86_64/vm.c

    Page tables live in the physical memory of [VmPage]; a table pointer is a
    physical address, 0 for NULL.  Translation caches, the CR3 register and the
    inter-processor interrupts of [pmap_global_invlpg] are left out, except
    that an invalidation is kept as the list of addresses it was asked for. *)

From S2P Require Import Prelude VmPage.
Open Scope Z_scope.

Definition kMMUPresent : Z := 0x1.
Definition kMMUWrite : Z := 0x2.
Definition kMMUUser : Z := 0x4.
Definition kMMUDefaultProt : Z := Z.lor (Z.lor kMMUPresent kMMUWrite) kMMUUser.
Definition kMMUFrame : Z := 0x000FFFFFFFFFF000.

(** [vm_prot_t] *)
Definition kVMRead : Z := 0x1.
Definition kVMWrite : Z := 0x2.
Definition kVMExecute : Z := 0x4.
Definition kVMAll : Z := Z.lor (Z.lor kVMRead kVMWrite) kVMExecute.

Definition pte_get_addr (pte : Z) : Z := Z.land pte kMMUFrame.
Definition pte_get_flags (pte : Z) : Z := Z.land pte (w64 (Z.lnot kMMUFrame)).
Definition pte_value (addr flags : Z) : Z := Z.lor (Z.land addr kMMUFrame) flags.
(** [pte] is the physical address of the entry; the store of 0 before the final
    one is not visible to a single thread. *)
Definition pte_set (pte addr flags : Z) : M pstate unit :=
  mmodify (set_phys (λ m, write64 m pte (pte_value addr flags))).

Definition vm_prot_to_i386 (prot : Z) : Z :=
  Z.lor (Z.lor (if has_flag prot kVMRead then kMMUPresent else 0)
               (if has_flag prot kVMWrite then kMMUWrite else 0)) kMMUUser.

(** Entry [index] of a table. *)
Definition entry_addr (table index : Z) : Z := table + 8 * index.
Definition entry (m : mem) (table index : Z) : Z := read64 m (entry_addr table index).

Definition pmap_descend (table index : Z) (alloc : bool) (mmuprot : Z) : M pstate Z :=
  s ← mget;
  let e := entry (phys s) table index in
  if has_flag e kMMUPresent then mret (pte_get_addr e)
  else if alloc then
    page ← vm_pagealloc true pgpmapq;
    pte_set (entry_addr table index) page mmuprot;;
    mret page
  else mret 0.

Definition pml4i (virt : Z) : Z := Z.land (Z.shiftr virt 39) 0x1FF.
Definition pdpti (virt : Z) : Z := Z.land (Z.shiftr virt 30) 0x1FF.
Definition pdi (virt : Z) : Z := Z.land (Z.shiftr virt 21) 0x1FF.
Definition pti (virt : Z) : Z := Z.land (Z.shiftr virt 12) 0x1FF.
Definition pgi (virt : Z) : Z := Z.land virt 0xFFF.

(** The address of the entry for [virt], or 0. *)
Definition pmap_fully_descend (pml4 virt : Z) : M pstate Z :=
  pdptes ← pmap_descend pml4 (pml4i virt) false 0;
  if pdptes =? 0 then mret 0 else
  pdes ← pmap_descend pdptes (pdpti virt) false 0;
  if pdes =? 0 then mret 0 else
  ptes ← pmap_descend pdes (pdi virt) false 0;
  if ptes =? 0 then mret 0 else
  mret (entry_addr ptes (pti virt)).

Definition pmap_trans (pml4 virt : Z) : M pstate Z :=
  pdpte ← pmap_descend pml4 (pml4i virt) false 0;
  if pdpte =? 0 then mret 0 else
  pde ← pmap_descend pdpte (pdpti virt) false 0;
  if pde =? 0 then mret 0 else
  pte ← pmap_descend pde (pdi virt) false 0;
  if pte =? 0 then mret 0 else
  s ← mget;
  let e := entry (phys s) pte (pti virt) in
  if has_flag e kMMUPresent then mret (pte_get_addr e + pgi virt) else mret 0.

Definition pmap_enter_kern (pml4 paddr virt prot : Z) : M pstate unit :=
  pdpte ← pmap_descend pml4 (pml4i virt) true kMMUDefaultProt;
  pde ← pmap_descend pdpte (pdpti virt) true kMMUDefaultProt;
  pte ← pmap_descend pde (pdi virt) true kMMUDefaultProt;
  pte_set (entry_addr pte (pti virt)) paddr (vm_prot_to_i386 prot).

(** Take the mapping of [virt] out; the result is the page it named. *)
Definition pmap_unenter_kern (pml4 virt : Z) : M pstate Z :=
  pte ← pmap_fully_descend pml4 virt;
  massert (negb (pte =? 0)) "assert(pte)";;
  s ← mget;
  let e := read64 (phys s) pte in
  massert (negb (e =? 0)) "assert(*pte != 0x0)";;
  mmodify (set_phys (λ m, write64 m pte 0));;
  match vm_page_from_paddr s (pte_get_addr e) with
  | None => fatal "assert(page)"
  | Some page => mret page
  end.

(** ** Creation and destruction *)

(** [for (int i = 255; i < 511; i++)] of [x64_vm_init]. *)
Definition x64_vm_init (cr3 : Z) : M pstate unit :=
  mfor (seqZ 255 256) (λ i,
    s ← mget;
    if pte_get_addr (entry (phys s) cr3 i) =? 0 then
      page ← vm_pagealloc true pgpmapq;
      pte_set (entry_addr cr3 i) page kMMUDefaultProt
    else mret ()).

(** The table of a new pmap: the higher half is shared with the kernel's. *)
Definition pmap_new_table (kpml4 : Z) : M pstate Z :=
  pml4 ← vm_pagealloc true pgpmapq;
  mfor (seqZ 255 257) (λ i,
    s ← mget;
    pte_set (entry_addr pml4 i) (entry (phys s) kpml4 i) kMMUDefaultProt);;
  mret pml4.

Fixpoint pmap_free_sub (table : Z) (level : nat) : M pstate unit :=
  if table =? 0 then mret () else
  (match level with
   | S ((S _) as level') =>
       mfor (seqZ 0 512) (λ i,
         s ← mget;
         pmap_free_sub (pte_get_addr (entry (phys s) table i)) level')
   | _ => mret ()
   end);;
  s ← mget;
  vm_page_free (vm_page_from_paddr s table).

(** Only the first 255 entries; the top-level table itself stays. *)
Definition pmap_free (pml4 : Z) : M pstate unit :=
  mfor (seqZ 0 255) (λ i,
    s ← mget;
    pmap_free_sub (pte_get_addr (entry (phys s) pml4 i)) 3).

(** [cpus_other] CPUs answer the invalidation IPI, each adding one to the
    counter that starts at 1: the wait ends when it is [ncpu]. *)
Definition invlpg_done (ncpu answered : Z) : bool := 1 + answered =? ncpu.
