(* ===== verification/PmapProps.v ===== *)
(** * Page tables: walking, entering, and what other addresses see

    A table is reached from the top-level table by a path of indices; [pt_ok]
    says that the tables form a tree that does not meet the free pages.  Under
    it, entering a mapping changes the translation of one page only. *)

From S2P Require Import Prelude VmPage Pmap.
Open Scope Z_scope.

(** ** Entries *)

Lemma land_frame x : 0 ≤ x < 2^52 → x mod 4096 = 0 → Z.land x kMMUFrame = x.
Proof.
  intros Hx Hm. apply Z.bits_inj'. intros i Hi. rewrite Z.land_spec.
  destruct (decide (i < 12)).
  - rewrite <-(Z.mod_pow2_bits_low x 12 i) by lia. change (2^12) with 4096. rewrite Hm.
    by rewrite Z.bits_0.
  - change kMMUFrame with (Z.shiftl (Z.ones 40) 12). rewrite Z.shiftl_spec by lia.
    destruct (decide (i < 52)).
    + rewrite Z.ones_spec_low by lia. apply andb_true_r.
    + assert (Z.testbit x i = false) as ->; [|done].
      rewrite <-(Z.mod_small x (2^52)) by lia. by apply Z.mod_pow2_bits_high; lia.
Qed.

Lemma land_frame_low x : 0 ≤ x < 4096 → Z.land x kMMUFrame = 0.
Proof.
  intros Hx. apply Z.bits_inj'. intros i Hi. rewrite Z.land_spec, Z.bits_0.
  destruct (decide (i < 12)).
  - change kMMUFrame with (Z.shiftl (Z.ones 40) 12).
    rewrite Z.shiftl_spec_low by lia. apply andb_false_r.
  - rewrite <-(Z.mod_small x (2^12)) by lia. rewrite Z.mod_pow2_bits_high by lia. done.
Qed.

(** A physical address a table or a page may have. *)
Definition page_addr (x : Z) : Prop := 0 < x < 2^52 ∧ x mod 4096 = 0.

Lemma pte_get_addr_value addr flags :
  page_addr addr → 0 ≤ flags < 4096 → pte_get_addr (pte_value addr flags) = addr.
Proof.
  intros [H1 H2] Hf. unfold pte_get_addr, pte_value.
  rewrite Z.land_lor_distr_l, (land_frame_low flags), Z.lor_0_r by done.
  rewrite (land_frame addr) by lia. by rewrite (land_frame addr) by lia.
Qed.

Lemma pte_value_bound addr flags :
  0 ≤ flags < 4096 → 0 ≤ pte_value addr flags < 2^64.
Proof.
  intros Hf. unfold pte_value.
  assert (0 ≤ Z.land addr kMMUFrame) by (apply Z.land_nonneg; by right).
  split; [apply Z.lor_nonneg; lia|].
  assert (Z.land addr kMMUFrame < 2^52).
  { apply Z.le_lt_trans with kMMUFrame; [|done].
    apply (Z.ldiff_le (Z.land addr kMMUFrame) kMMUFrame); [done|].
    rewrite Z.ldiff_land. rewrite <-Z.land_assoc, Z.land_lnot_diag. apply Z.land_0_r. }
  destruct (decide (Z.lor (Z.land addr kMMUFrame) flags = 0)) as [->|]; [lia|].
  apply Z.log2_lt_pow2; [|].
  - assert (0 ≤ Z.lor (Z.land addr kMMUFrame) flags) by (apply Z.lor_nonneg; lia). lia.
  - rewrite Z.log2_lor by lia. apply Z.max_lub_lt.
    + destruct (decide (Z.land addr kMMUFrame = 0)) as [->|]; [done|].
      apply Z.log2_lt_pow2; [lia|]. apply Z.lt_trans with (2^52); lia.
    + destruct (decide (flags = 0)) as [->|]; [done|]. apply Z.log2_lt_pow2; lia.
Qed.
Lemma pte_value_range addr flags :
  0 ≤ flags < 4096 → 0 ≤ addr → 0 ≤ pte_value addr flags < 2^64.
Proof. intros. by apply pte_value_bound. Qed.

Lemma has_flag_value addr flags bit :
  0 ≤ bit < 12 → has_flag (pte_value addr flags) (2^bit) = has_flag flags (2^bit).
Proof.
  intros Hb. unfold has_flag, pte_value. rewrite Z.land_lor_distr_l.
  assert (Z.land (Z.land addr kMMUFrame) (2^bit) = 0) as ->; [|done].
  rewrite <-Z.land_assoc. rewrite (Z.land_comm kMMUFrame).
  rewrite (land_frame_low (2^bit)); [apply Z.land_0_r|].
  split; [apply Z.pow_nonneg; lia|]. change 4096 with (2^12). apply Z.pow_lt_mono_r; lia.
Qed.

(** ** Tables and paths *)

Definition idx_ok (i : Z) : Prop := 0 ≤ i < 512.

Definition next_table (m : mem) (t i : Z) : option Z :=
  let e := entry m t i in
  if has_flag e kMMUPresent then Some (pte_get_addr e) else None.

Definition table_at (m : mem) (root : Z) (p : list Z) : option Z :=
  foldl (λ o i, o ≫= λ t, next_table m t i) (Some root) p.

Lemma table_at_snoc m root p i :
  table_at m root (p ++ [i]) = table_at m root p ≫= λ t, next_table m t i.
Proof. unfold table_at. by rewrite foldl_snoc. Qed.

Definition path_ok (p : list Z) : Prop := Forall idx_ok p ∧ (length p ≤ 3)%nat.

Lemma path_ok_snoc p i : path_ok (p ++ [i]) ↔ path_ok p ∧ idx_ok i ∧ (length p ≤ 2)%nat.
Proof.
  unfold path_ok. rewrite Forall_app, Forall_singleton, length_app. simpl. naive_solver lia.
Qed.

Record pt_ok (root : Z) (s : pstate) : Prop := PtOk {
  pt_queues : queues_ok s;
  pt_free : ∀ x, on_queue s pgfreeq x → page_addr x;
  pt_table : ∀ p t, path_ok p → table_at (phys s) root p = Some t →
               page_addr t ∧ ¬ on_queue s pgfreeq t;
  pt_inj : ∀ p q t, path_ok p → path_ok q → table_at (phys s) root p = Some t →
             table_at (phys s) root q = Some t → p = q;
}.

Lemma entry_ne t i t' i' :
  page_addr t → page_addr t' → idx_ok i → idx_ok i' → (t, i) ≠ (t', i') →
  entry_addr t i + 8 ≤ entry_addr t' i' ∨ entry_addr t' i' + 8 ≤ entry_addr t i.
Proof.
  intros [_ Ht] [_ Ht'] Hi Hi' Hne. unfold entry_addr, idx_ok in *.
  destruct (decide (t = t')) as [->|]; [|].
  - assert (i ≠ i') by congruence. lia.
  - Z.div_mod_to_equations. lia.
Qed.

Lemma entry_write m t i v : 0 ≤ v < 2^64 → entry (write64 m (entry_addr t i) v) t i = v.
Proof. apply read64_write64. Qed.

Lemma entry_write_ne m t i v t' i' :
  page_addr t → page_addr t' → idx_ok i → idx_ok i' → (t, i) ≠ (t', i') →
  entry (write64 m (entry_addr t i) v) t' i' = entry m t' i'.
Proof. intros. apply read64_write64_ne. by apply entry_ne. Qed.

Lemma entry_zero m page i : idx_ok i → entry (mem_zero page PGSIZE m) page i = 0.
Proof. intros Hi. apply read64_zero; unfold entry_addr, idx_ok, PGSIZE in *; lia. Qed.

Lemma entry_zero_ne m page t i :
  page_addr page → page_addr t → idx_ok i → t ≠ page →
  entry (mem_zero page PGSIZE m) t i = entry m t i.
Proof.
  intros [_ Hp] [_ Ht] Hi Hne. apply read64_zero_ne. unfold entry_addr, idx_ok, PGSIZE in *.
  Z.div_mod_to_equations. lia.
Qed.

(** ** What one change of an entry does to the tree *)

(** [m'] differs from [m] in entry [i0] of the table at [p0] only, as far as
    the tables above the last level are concerned. *)
Definition one_entry (m m' : mem) (root : Z) (p0 : list Z) (i0 : Z) : Prop :=
  ∀ p t j, path_ok (p ++ [j]) → table_at m root p = Some t → (p, j) ≠ (p0, i0) →
    next_table m' t j = next_table m t j.

Lemma prefix_snoc_inv {A} (l : list A) q x :
  l `prefix_of` q ++ [x] → l = q ++ [x] ∨ l `prefix_of` q.
Proof.
  intros [k E]. destruct k as [|y k _] using rev_ind.
  - left. by rewrite app_nil_r in E.
  - right. rewrite app_assoc in E. apply app_inj_tail in E as [-> _]. by exists k.
Qed.

Lemma table_at_unchanged m m' root p0 i0 q :
  one_entry m m' root p0 i0 → path_ok q → ¬ (p0 ++ [i0]) `prefix_of` q →
  table_at m' root q = table_at m root q.
Proof.
  intros H1. induction q as [|j q IH] using rev_ind; intros Hq Hpre; [done|].
  rewrite !table_at_snoc. assert (path_ok q) as Hq' by (by apply path_ok_snoc in Hq as [? _]).
  rewrite IH; [|done|intros Hp; apply Hpre; by apply prefix_app_r].
  destruct (table_at m root q) as [t|] eqn:E; [|done]. simpl. apply (H1 q); try done.
  intros [= -> ->]. by apply Hpre.
Qed.

Lemma next_table_entry m m' t i : entry m' t i = entry m t i → next_table m' t i = next_table m t i.
Proof. unfold next_table. by intros ->. Qed.

Lemma next_table_zero m t i : entry m t i = 0 → next_table m t i = None.
Proof. unfold next_table. by intros ->. Qed.

Lemma next_table_value m t i page prot :
  page_addr page → entry m t i = pte_value page prot → 0 ≤ prot < 4096 →
  has_flag prot kMMUPresent = true → next_table m t i = Some page.
Proof.
  intros Hp E Hr Hpr. unfold next_table. rewrite E.
  change kMMUPresent with (2^0) in *. rewrite has_flag_value by lia. rewrite Hpr.
  by rewrite pte_get_addr_value.
Qed.

(** The byte at [a] belongs to no free page and to no table. *)
Definition inside (x a : Z) : Prop := x ≤ a < x + PGSIZE.
Definition untouched (root : Z) (s : pstate) (a : Z) : Prop :=
  (∀ x, on_queue s pgfreeq x → ¬ inside x a) ∧
  (∀ q x, path_ok q → table_at (phys s) root q = Some x → ¬ inside x a).
(** Such bytes stay what they are, no mapping is recorded or forgotten, pages only
    leave the free queue, and tables stay in place. *)
Record keeps (root : Z) (s s' : pstate) : Prop := Keeps {
  ke_bytes a : untouched root s a → phys s' a = phys s a ∧ untouched root s' a;
  ke_pv : pv_table s' = pv_table s;
  ke_pqueue : page_queue s' = page_queue s;
  ke_regions : pregions s' = pregions s;
  ke_free x : on_queue s' pgfreeq x → on_queue s pgfreeq x;
  ke_tables q x : path_ok q → table_at (phys s) root q = Some x → table_at (phys s') root q = Some x;
}.

Lemma keeps_refl root s : keeps root s s.
Proof. by split. Qed.
Lemma keeps_trans root s1 s2 s3 : keeps root s1 s2 → keeps root s2 s3 → keeps root s1 s3.
Proof.
  intros [F1 P1 Q1 R1 X1 T1] [F2 P2 Q2 R2 X2 T2]. split; [|congruence..|auto|auto].
  intros a Ha. destruct (F1 a Ha) as [<- Ha2]. auto.
Qed.

Lemma entry_outside t i a v (m : mem) :
  idx_ok i → ¬ inside t a → write64 m (entry_addr t i) v a = m a.
Proof.
  unfold idx_ok, inside, entry_addr, PGSIZE, write64. intros Hi Ha. by rewrite in_range_false by lia.
Qed.

Lemma mem_zero_outside x a m : ¬ inside x a → mem_zero x PGSIZE m a = m a.
Proof. unfold inside, mem_zero. intros Ha. by rewrite in_range_false by lia. Qed.

(** What a descent that may allocate leaves behind. *)
Record descended (root : Z) (s s' : pstate) (p : list Z) (i t' : Z) : Prop := Descended {
  de_ok : pt_ok root s';
  de_at : table_at (phys s') root (p ++ [i]) = Some t';
  de_new : ∀ q x, path_ok q → table_at (phys s') root q = Some x →
     (table_at (phys s) root q = Some x ∧
        (length q = 3%nat → ∀ j, idx_ok j → entry (phys s') x j = entry (phys s) x j)) ∨
     (table_at (phys s) root q = None ∧ ∀ j, idx_ok j → entry (phys s') x j = 0);
  de_free : (length (pq_list (queues s pgfreeq)) ≤ S (length (pq_list (queues s' pgfreeq))))%nat;
  de_regions : pregions s' = pregions s;
  de_queues : ∀ q x, q ≠ pgfreeq → on_queue s q x → on_queue s' q x;
  de_keeps : keeps root s s';
  de_entry : ∀ q x j, path_ok q → table_at (phys s) root q = Some x → idx_ok j → (q, j) ≠ (p, i) →
               entry (phys s') x j = entry (phys s) x j;
}.

Section alloc.
Context (root : Z) (s : pstate) (p : list Z) (t i : Z) (page : Z) (rest : list Z) (s1 : pstate).
Hypothesis Hok : pt_ok root s.
Hypothesis Hp : path_ok (p ++ [i]).
Hypothesis Ht : table_at (phys s) root p = Some t.
Hypothesis Hn : next_table (phys s) t i = None.
Hypothesis Hfree : pq_list (queues s pgfreeq) = page :: rest.
Hypothesis Htaken : page_taken s s1 page rest pgpmapq.

Let m0 := mem_zero page PGSIZE (phys s).
Let m' := write64 m0 (entry_addr t i) (pte_value page kMMUDefaultProt).

Local Lemma page_ok : page_addr page ∧ on_queue s pgfreeq page.
Proof.
  assert (on_queue s pgfreeq page) by (unfold on_queue; rewrite Hfree; left).
  split; [by apply (pt_free _ _ Hok)|done].
Qed.

Local Lemma p_ok : path_ok p ∧ idx_ok i ∧ (length p ≤ 2)%nat.
Proof. by apply path_ok_snoc. Qed.

Local Lemma table_ok q x : path_ok q → table_at (phys s) root q = Some x → page_addr x ∧ x ≠ page.
Proof.
  intros Hq Hx. destruct (pt_table _ _ Hok _ _ Hq Hx) as [? Hnf]. split; [done|].
  intros ->. apply Hnf, page_ok.
Qed.

Local Lemma entry_same q x j :
  path_ok q → table_at (phys s) root q = Some x → idx_ok j → (q, j) ≠ (p, i) →
  entry m' x j = entry (phys s) x j.
Proof.
  intros Hq Hx Hj Hne. destruct (table_ok q x Hq Hx) as [Hax Hxp].
  destruct p_ok as (Hpo & Hi & _). destruct (table_ok p t Hpo Ht) as [Hat _].
  unfold m'. rewrite entry_write_ne; try done.
  - apply entry_zero_ne; try done. apply page_ok.
  - intros [= -> ->]. apply Hne. f_equal.
    eapply (pt_inj _ _ Hok); [exact Hq|exact Hpo|exact Hx|exact Ht].
Qed.

Local Lemma prot_ok : 0 ≤ kMMUDefaultProt < 4096 ∧ has_flag kMMUDefaultProt kMMUPresent = true.
Proof. split; [|done]. split; [by apply (bool_decide_unpack _)|done]. Qed.

Local Lemma entry_new j : idx_ok j → entry m' page j = 0.
Proof.
  intros Hj. destruct p_ok as (Hpo & Hi & _). destruct (table_ok p t Hpo Ht) as [Hat Hne].
  destruct page_ok as [Hpa _]. unfold m'. rewrite entry_write_ne; try done.
  - by apply entry_zero.
  - congruence.
Qed.

Local Lemma entry_here : entry m' t i = pte_value page kMMUDefaultProt.
Proof.
  unfold m'. apply entry_write. destruct page_ok as [[? _] _].
  apply pte_value_range; [apply prot_ok|lia].
Qed.

Local Lemma at_other q :
  path_ok q → ¬ (p ++ [i]) `prefix_of` q → table_at m' root q = table_at (phys s) root q.
Proof.
  apply table_at_unchanged. intros q' x j Hq Hx Hne. apply next_table_entry.
  apply path_ok_snoc in Hq as (Hq & Hj & _). by eapply entry_same.
Qed.

Local Lemma at_here : table_at m' root (p ++ [i]) = Some page.
Proof.
  rewrite table_at_snoc, at_other, Ht; [|apply p_ok|].
  - simpl. destruct prot_ok. eapply next_table_value; [apply page_ok|apply entry_here|done|done].
  - intros [k E]. apply (f_equal length) in E. rewrite !length_app in E. simpl in E. lia.
Qed.

Local Lemma at_below q j r :
  q = p ++ [i] ++ j :: r → path_ok q → table_at m' root q = None.
Proof.
  intros -> Hq. revert Hq. induction r as [|k r IH] using rev_ind; intros Hq.
  - replace (p ++ [i] ++ [j]) with ((p ++ [i]) ++ [j]) in * by (by rewrite <-app_assoc).
    rewrite table_at_snoc, at_here. simpl. apply next_table_zero, entry_new.
    by apply path_ok_snoc in Hq as (_ & ? & _).
  - replace (p ++ [i] ++ j :: r ++ [k]) with ((p ++ [i] ++ j :: r) ++ [k]) in *
      by (by rewrite <-!app_assoc).
    apply path_ok_snoc in Hq as (Hq & _). rewrite table_at_snoc, IH by done. done.
Qed.

(** A table of the new tree is one of the old tree, or the new page. *)
Local Lemma at_cases q x :
  path_ok q → table_at m' root q = Some x →
  (¬ (p ++ [i]) `prefix_of` q ∧ table_at (phys s) root q = Some x) ∨
  (q = p ++ [i] ∧ x = page).
Proof.
  intros Hq Hx. destruct (decide ((p ++ [i]) `prefix_of` q)) as [[r ->]|Hpre].
  - right. destruct r as [|j r].
    + rewrite app_nil_r in *. rewrite at_here in Hx. by simplify_eq.
    + rewrite <-app_assoc in Hx, Hq. by rewrite (at_below _ j r eq_refl) in Hx.
  - left. by rewrite <-at_other.
Qed.

Local Lemma old_below q : path_ok q → (p ++ [i]) `prefix_of` q → table_at (phys s) root q = None.
Proof.
  intros Hq [r ->]. induction r as [|j r IH] using rev_ind.
  - rewrite app_nil_r, table_at_snoc, Ht. exact Hn.
  - rewrite app_assoc in *. apply path_ok_snoc in Hq as (Hq & _).
    by rewrite table_at_snoc, IH.
Qed.

Lemma alloc_descended s' :
  s' = set_phys (λ m, write64 m (entry_addr t i) (pte_value page kMMUDefaultProt)) s1 →
  phys s1 = m0 → pregions s1 = pregions s → pv_table s1 = pv_table s →
  page_queue s1 = page_queue s → descended root s s' p i page.
Proof.
  intros -> Hm Hreg Hpv Hpq. destruct Htaken as (Hq & Hon & Hrest & _).
  assert (phys (set_phys (λ m, write64 m (entry_addr t i) (pte_value page kMMUDefaultProt)) s1)
          = m') as Em by (simpl; by rewrite Hm).
  assert (∀ x, on_queue s1 pgfreeq x ↔ x ≠ page ∧ on_queue s pgfreeq x) as Hf.
  { intros x. rewrite Hon. split; [intros [[_ ?]|?]; [done|done]|]. by right. }
  split.
  - split; rewrite ?Em.
    + destruct Hq as [? ?]. by split.
    + intros x [_ Hx]%Hf. by apply (pt_free _ _ Hok).
    + intros q x Hqo Hx. change (on_queue _ pgfreeq x) with (on_queue s1 pgfreeq x).
      rewrite Hf. apply at_cases in Hx as [[_ Hx]|[-> ->]]; [| |done].
      * destruct (pt_table _ _ Hok _ _ Hqo Hx). naive_solver.
      * split; [apply page_ok|naive_solver].
    + intros q r x Hqo Hro Hx Hy.
      apply at_cases in Hx as [[Hx' Hx]|[-> ->]]; [| |done];
        apply at_cases in Hy as [[Hy' Hy]|[-> Hy]]; try done.
      * by eapply (pt_inj _ _ Hok).
      * subst x. by destruct (table_ok q page Hqo Hx).
      * by destruct (table_ok r page Hro Hy).
  - rewrite Em. apply at_here.
  - intros q x Hqo. rewrite Em. intros Hx.
    apply at_cases in Hx as [[Hpre Hx]|[-> ->]]; [| |done].
    + left. split; [done|]. intros Hlen j Hj. eapply entry_same; [exact Hqo|done..|].
      intros [= -> ->]. destruct p_ok as (_ & _ & ?). lia.
    + right. split; [by apply old_below; [done|exists []; by rewrite app_nil_r]|apply entry_new].
  - destruct Hrest as [Hr _]; [done|]. simpl. rewrite Hr, Hfree. simpl. lia.
  - exact Hreg.
  - intros q x Hne Hx. change (on_queue s1 q x). rewrite Hon. right. split; [|done].
    intros ->. apply Hne. eapply (qo_disj _ (pt_queues _ _ Hok)); [exact Hx|apply page_ok].
  - split; [|exact Hpv|exact Hpq|exact Hreg|by intros x [_ Hx]%Hf|]; cycle 1.
    { intros q x Hqo Hx. rewrite Em, at_other; [done|done|]. intros Hpre. by rewrite (old_below q Hqo Hpre) in Hx. }
    intros a [Hfa Hta]. rewrite Em. split; [|split].
    + destruct p_ok as (Hpo & Hi & _). unfold m'. rewrite entry_outside; [|done|by apply (Hta p)].
      apply mem_zero_outside, Hfa, page_ok.
    + intros x [_ Hx]%Hf. by apply Hfa.
    + rewrite Em. intros q x Hqo Hx. apply at_cases in Hx as [[_ Hx]|[-> ->]]; [by apply (Hta q)| |done].
      apply Hfa, page_ok.
  - intros q x j Hqo Hx Hj Hne. rewrite Em. by apply (entry_same q).
Qed.
End alloc.

Lemma descended_refl root s p t i t' :
  pt_ok root s → table_at (phys s) root p = Some t → next_table (phys s) t i = Some t' →
  descended root s s p i t'.
Proof.
  intros Hok Ht Hn. split; try done.
  - by rewrite table_at_snoc, Ht.
  - intros q x Hq Hx. by left.
  - lia.
Qed.

Lemma descend_present (s : pstate) t i alloc prot t' :
  next_table (phys s) t i = Some t' → pmap_descend t i alloc prot s = Ok (t', s).
Proof.
  unfold next_table, pmap_descend, mbind, M_bind, mget. destruct (has_flag _ _); [|done].
  by intros [= <-].
Qed.

Lemma descend_ok root s p t i :
  pt_ok root s → path_ok (p ++ [i]) → table_at (phys s) root p = Some t →
  pq_list (queues s pgfreeq) ≠ [] →
  ∃ t' s', pmap_descend t i true kMMUDefaultProt s = Ok (t', s') ∧ descended root s s' p i t'.
Proof.
  intros Hok Hp Ht Hf. destruct (next_table (phys s) t i) as [t'|] eqn:Hn.
  - exists t', s. split; [by apply descend_present|by eapply descended_refl].
  - destruct (pq_list (queues s pgfreeq)) as [|page rest] eqn:Hl; [done|].
    destruct (pagealloc_run true pgpmapq s page rest (pt_queues _ _ Hok) Hl)
      as (s1 & Hrun & Htk & Hph & Hpv & Hreg & Hpq).
    exists page. eexists. split.
    + unfold pmap_descend. rewrite (bind_step mget _ s s s) by done.
      unfold next_table in Hn. destruct (has_flag _ _); [done|].
      rewrite (bind_step _ _ _ _ _ Hrun). reflexivity.
    + by eapply alloc_descended.
Qed.

(** ** Translation *)

(** The translation the page tables describe, 0 for none. *)
Definition path3 (virt : Z) : list Z := [pml4i virt; pdpti virt; pdi virt].
Definition translate (m : mem) (root virt : Z) : Z :=
  match table_at m root (path3 virt) with
  | Some t =>
      let e := entry m t (pti virt) in
      if has_flag e kMMUPresent then pte_get_addr e + pgi virt else 0
  | None => 0
  end.

(** The lowest-level entry for an address, 0 where there is no table. *)
Definition pte_of (m : mem) (root virt : Z) : Z :=
  match table_at m root (path3 virt) with Some t => entry m t (pti virt) | None => 0 end.
Lemma translate_of m root virt :
  translate m root virt =
    if has_flag (pte_of m root virt) kMMUPresent then pte_get_addr (pte_of m root virt) + pgi virt else 0.
Proof. unfold translate, pte_of. by destruct (table_at m root (path3 virt)). Qed.
Lemma translate_same m m' root virt :
  pte_of m' root virt = pte_of m root virt → translate m' root virt = translate m root virt.
Proof. intros E. by rewrite !translate_of, E. Qed.

Lemma land511 x : idx_ok (Z.land x 0x1FF).
Proof.
  change 0x1FF with (Z.ones 9). rewrite Z.land_ones by lia.
  unfold idx_ok. pose proof (Z.mod_pos_bound x (2^9)). lia.
Qed.

Lemma path3_ok virt : path_ok (path3 virt).
Proof.
  split; [|done]. unfold path3. repeat apply Forall_cons_2; try apply Forall_nil_2; apply land511.
Qed.
Lemma path2_ok virt : path_ok [pml4i virt; pdpti virt].
Proof. split; [repeat apply Forall_cons_2; try apply Forall_nil_2; apply land511|simpl; lia]. Qed.
Lemma path1_ok virt : path_ok [pml4i virt].
Proof. split; [repeat apply Forall_cons_2; try apply Forall_nil_2; apply land511|simpl; lia]. Qed.

(** One read-only step of a walk: the table found, or 0. *)
Lemma descend_read root s p t i prot :
  pt_ok root s → path_ok (p ++ [i]) → table_at (phys s) root p = Some t →
  pmap_descend t i false prot s =
    Ok (default 0 (table_at (phys s) root (p ++ [i])), s) ∧
  (default 0 (table_at (phys s) root (p ++ [i])) = 0 → table_at (phys s) root (p ++ [i]) = None).
Proof.
  intros Hok Hp Ht. rewrite table_at_snoc, Ht. simpl.
  unfold pmap_descend, mbind, M_bind, mget, next_table.
  destruct (has_flag _ _) eqn:E; simpl; [|done]. split; [done|]. intros E0.
  destruct (pt_table _ _ Hok (p ++ [i]) (pte_get_addr (entry (phys s) t i)) Hp) as [[? _] _]; [|lia].
  rewrite table_at_snoc, Ht. simpl. unfold next_table. by rewrite E.
Qed.

Lemma table_at_None_app m root p q : table_at m root p = None → table_at m root (p ++ q) = None.
Proof.
  intros Hp. induction q as [|i q IH] using rev_ind; [by rewrite app_nil_r|].
  by rewrite app_assoc, table_at_snoc, IH.
Qed.

(** On page tables that form a tree, [pmap_trans] reads off the translation they
    describe and changes nothing. *)
Lemma trans_run root s virt :
  pt_ok root s → pmap_trans root virt s = Ok (translate (phys s) root virt, s).
Proof.
  intros Hok. unfold pmap_trans, translate.
  assert (table_at (phys s) root [] = Some root) as H0 by done.
  destruct (descend_read root s [] root (pml4i virt) 0 Hok (path1_ok virt) H0) as [E1 N1].
  change ([] ++ [pml4i virt]) with [pml4i virt] in *. rewrite (bind_step _ _ _ _ _ E1).
  destruct (table_at (phys s) root [pml4i virt]) as [t1|] eqn:T1.
  2:{ change (path3 virt) with ([pml4i virt] ++ [pdpti virt; pdi virt]).
      by rewrite (table_at_None_app _ _ _ _ T1). }
  change (default 0 (Some t1)) with t1 in *. destruct (Z.eqb_spec t1 0) as [E|_]; [by apply N1 in E|]. lazy iota.
  destruct (descend_read root s [pml4i virt] t1 (pdpti virt) 0 Hok (path2_ok virt) T1) as [E2 N2].
  change ([pml4i virt] ++ [pdpti virt]) with [pml4i virt; pdpti virt] in *.
  rewrite (bind_step _ _ _ _ _ E2).
  destruct (table_at (phys s) root [pml4i virt; pdpti virt]) as [t2|] eqn:T2.
  2:{ change (path3 virt) with ([pml4i virt; pdpti virt] ++ [pdi virt]).
      by rewrite (table_at_None_app _ _ _ _ T2). }
  change (default 0 (Some t2)) with t2 in *. destruct (Z.eqb_spec t2 0) as [E|_]; [by apply N2 in E|]. lazy iota.
  destruct (descend_read root s [pml4i virt; pdpti virt] t2 (pdi virt) 0 Hok (path3_ok virt) T2)
    as [E3 N3].
  change ([pml4i virt; pdpti virt] ++ [pdi virt]) with (path3 virt) in *.
  rewrite (bind_step _ _ _ _ _ E3).
  destruct (table_at (phys s) root (path3 virt)) as [t3|] eqn:T3.
  2:{ done. }
  change (default 0 (Some t3)) with t3 in *. destruct (Z.eqb_spec t3 0) as [E|_]; [by apply N3 in E|]. lazy iota.
  unfold mbind, M_bind, mget. by destruct (has_flag _ _).
Qed.

Lemma fully_descend_run root s virt t :
  pt_ok root s → table_at (phys s) root (path3 virt) = Some t →
  pmap_fully_descend root virt s = Ok (entry_addr t (pti virt), s).
Proof.
  intros Hok T3. unfold pmap_fully_descend.
  destruct (table_at (phys s) root [pml4i virt]) as [t1|] eqn:T1.
  2:{ exfalso. change (path3 virt) with ([pml4i virt] ++ [pdpti virt; pdi virt]) in T3.
      by rewrite (table_at_None_app _ _ _ _ T1) in T3. }
  destruct (table_at (phys s) root [pml4i virt; pdpti virt]) as [t2|] eqn:T2.
  2:{ exfalso. change (path3 virt) with ([pml4i virt; pdpti virt] ++ [pdi virt]) in T3.
      by rewrite (table_at_None_app _ _ _ _ T2) in T3. }
  destruct (descend_read root s [] root (pml4i virt) 0 Hok (path1_ok virt) eq_refl) as [E1 N1].
  change ([] ++ [pml4i virt]) with [pml4i virt] in *.
  destruct (descend_read root s [pml4i virt] t1 (pdpti virt) 0 Hok (path2_ok virt) T1) as [E2 N2].
  change ([pml4i virt] ++ [pdpti virt]) with [pml4i virt; pdpti virt] in *.
  destruct (descend_read root s [pml4i virt; pdpti virt] t2 (pdi virt) 0 Hok (path3_ok virt) T2)
    as [E3 N3].
  change ([pml4i virt; pdpti virt] ++ [pdi virt]) with (path3 virt) in *.
  rewrite T1 in E1, N1. rewrite T2 in E2, N2. rewrite T3 in E3, N3.
  change (default 0 (Some t1)) with t1 in *. change (default 0 (Some t2)) with t2 in *.
  change (default 0 (Some t)) with t in *.
  rewrite (bind_step _ _ _ _ _ E1). destruct (Z.eqb_spec t1 0) as [E|_]; [by apply N1 in E|].
  rewrite (bind_step _ _ _ _ _ E2). destruct (Z.eqb_spec t2 0) as [E|_]; [by apply N2 in E|].
  rewrite (bind_step _ _ _ _ _ E3). destruct (Z.eqb_spec t 0) as [E|_]; [by apply N3 in E|].
  done.
Qed.

(** A descent that allocates changes no entry of the lowest level, and no translation. *)
Lemma descended_pte root s s' p i t' virt :
  descended root s s' p i t' → pte_of (phys s') root virt = pte_of (phys s) root virt.
Proof.
  intros Hd. unfold pte_of.
  destruct (table_at (phys s') root (path3 virt)) as [x|] eqn:E.
  - destruct (de_new _ _ _ _ _ _ Hd _ _ (path3_ok virt) E) as [[-> He]|[-> He]].
    + rewrite He; [done|done|apply land511].
    + rewrite He by apply land511. done.
  - destruct (table_at (phys s) root (path3 virt)) as [x|] eqn:E'; [|done].
    apply (ke_tables _ _ _ (de_keeps _ _ _ _ _ _ Hd)) in E'; [congruence|apply path3_ok].
Qed.
Lemma descended_translate root s s' p i t' virt :
  descended root s s' p i t' → translate (phys s') root virt = translate (phys s) root virt.
Proof. intros Hd. eapply translate_same, descended_pte, Hd. Qed.

Lemma pages_ge s n : (S n ≤ length (pq_list (queues s pgfreeq)))%nat →
  pq_list (queues s pgfreeq) ≠ [].
Proof. intros H E. rewrite E in H. simpl in H. lia. Qed.

(** The three descents of [pmap_enter_kern]. *)
Lemma descend3 root s virt :
  pt_ok root s → (3 ≤ length (pq_list (queues s pgfreeq)))%nat →
  ∃ t s', (∀ A (k : Z → M pstate A),
            (pdpte ← pmap_descend root (pml4i virt) true kMMUDefaultProt;
             pde ← pmap_descend pdpte (pdpti virt) true kMMUDefaultProt;
             pte ← pmap_descend pde (pdi virt) true kMMUDefaultProt;
             k pte) s = k t s') ∧
    pt_ok root s' ∧ table_at (phys s') root (path3 virt) = Some t ∧ pregions s' = pregions s ∧
    (∀ q x, q ≠ pgfreeq → on_queue s q x → on_queue s' q x) ∧
    (length (pq_list (queues s pgfreeq)) ≤ 3 + length (pq_list (queues s' pgfreeq)))%nat ∧
    keeps root s s' ∧
    ∀ v, pte_of (phys s') root v = pte_of (phys s) root v.
Proof.
  intros Hok Hf.
  destruct (descend_ok root s [] root (pml4i virt) Hok (path1_ok virt) eq_refl)
    as (t1 & s1 & E1 & D1); [by eapply pages_ge|].
  pose proof (de_free _ _ _ _ _ _ D1) as F1.
  destruct (descend_ok root s1 [pml4i virt] t1 (pdpti virt) (de_ok _ _ _ _ _ _ D1)
    (path2_ok virt) (de_at _ _ _ _ _ _ D1)) as (t2 & s2 & E2 & D2); [apply (pages_ge _ 1); lia|].
  pose proof (de_free _ _ _ _ _ _ D2) as F2.
  destruct (descend_ok root s2 [pml4i virt; pdpti virt] t2 (pdi virt) (de_ok _ _ _ _ _ _ D2)
    (path3_ok virt) (de_at _ _ _ _ _ _ D2)) as (t3 & s3 & E3 & D3); [apply (pages_ge _ 0); lia|].
  exists t3, s3. split.
  { intros A k. by rewrite (bind_step _ _ _ _ _ E1), (bind_step _ _ _ _ _ E2),
      (bind_step _ _ _ _ _ E3). } split; [by apply D3|]. split; [apply (de_at _ _ _ _ _ _ D3)|].
  split; [by rewrite (de_regions _ _ _ _ _ _ D3), (de_regions _ _ _ _ _ _ D2),
    (de_regions _ _ _ _ _ _ D1)|].
  split; [intros q x Hq Hx; by repeat (eapply de_queues; [done|done|])|].
  split; [pose proof (de_free _ _ _ _ _ _ D3); lia|].
  split; [eapply keeps_trans; [apply D1|eapply keeps_trans; [apply D2|apply D3]]|].
  intros v. rewrite (descended_pte _ _ _ _ _ _ _ D3), (descended_pte _ _ _ _ _ _ _ D2).
  apply (descended_pte _ _ _ _ _ _ _ D1).
Qed.

(** ** Entering and removing a mapping *)

(** The part of an address that the tables translate. *)
Definition vpage (virt : Z) : list Z * Z := (path3 virt, pti virt).

Section leaf.
Context (root : Z) (s : pstate) (virt t : Z) (v : Z).
Hypothesis Hok : pt_ok root s.
Hypothesis Ht : table_at (phys s) root (path3 virt) = Some t.
Hypothesis Hv : 0 ≤ v < 2^64.
Let m' := write64 (phys s) (entry_addr t (pti virt)) v.

Local Lemma leaf_entry q x j :
  path_ok q → table_at (phys s) root q = Some x → idx_ok j → (q, j) ≠ vpage virt →
  entry m' x j = entry (phys s) x j.
Proof.
  intros Hq Hx Hj Hne. unfold m'.
  destruct (pt_table _ _ Hok _ _ Hq Hx), (pt_table _ _ Hok _ _ (path3_ok virt) Ht).
  apply entry_write_ne; try done; [apply land511|]. intros [= <- <-]. apply Hne.
  unfold vpage. f_equal. eapply (pt_inj _ _ Hok); [done|apply path3_ok|done|done].
Qed.

Lemma leaf_table q : path_ok q → table_at m' root q = table_at (phys s) root q.
Proof.
  intros Hq. eapply (table_at_unchanged _ _ _ (path3 virt) (pti virt)); [|done|].
  - intros p x j Hp Hx Hne. apply next_table_entry.
    apply path_ok_snoc in Hp as (Hp & Hj & _). by eapply leaf_entry.
  - intros [k ->]. destruct Hq as [_ Hl]. rewrite !length_app in Hl. simpl in Hl. lia.
Qed.

Lemma leaf_ok : pt_ok root (set_phys (λ _, m') s).
Proof.
  destruct Hok as [[Q1 Q2] Hf Hn Hi]. split; try done; simpl.
  - intros p x Hp. rewrite leaf_table by done. by apply Hn.
  - intros p q x Hp Hq. rewrite !leaf_table by done. by apply Hi.
Qed.

Lemma leaf_keeps : keeps root s (set_phys (λ _, m') s).
Proof.
  split; [|done..|intros q x Hq; simpl; by rewrite leaf_table]. intros a [Hf Hta]. simpl. split; [|split].
  - apply entry_outside; [apply land511|]. apply (Hta (path3 virt)); [apply path3_ok|done].
  - exact Hf.
  - intros q x Hq. simpl. rewrite leaf_table by done. by apply Hta.
Qed.

Lemma leaf_pte w :
  vpage w ≠ vpage virt → pte_of m' root w = pte_of (phys s) root w.
Proof.
  intros Hne. unfold pte_of. rewrite leaf_table by apply path3_ok.
  destruct (table_at (phys s) root (path3 w)) as [x|] eqn:E; [|done].
  by rewrite (leaf_entry (path3 w)); [|apply path3_ok|done|apply land511|].
Qed.

Lemma leaf_translate w :
  vpage w ≠ vpage virt → translate m' root w = translate (phys s) root w.
Proof. intros Hne. by apply translate_same, leaf_pte. Qed.

Lemma leaf_translate_here :
  translate m' root virt = if has_flag v kMMUPresent then pte_get_addr v + pgi virt else 0.
Proof.
  unfold translate. rewrite leaf_table by apply path3_ok. rewrite Ht.
  unfold m'. by rewrite entry_write.
Qed.
End leaf.

Lemma prot_range prot : 0 ≤ vm_prot_to_i386 prot < 4096.
Proof. unfold vm_prot_to_i386. destruct (has_flag _ _), (has_flag _ _); vm_compute; done. Qed.

Lemma prot_present prot : has_flag (vm_prot_to_i386 prot) kMMUPresent = has_flag prot kVMRead.
Proof.
  unfold vm_prot_to_i386. destruct (has_flag prot kVMRead), (has_flag prot kVMWrite); done.
Qed.

Lemma enter_run root s paddr virt prot :
  pt_ok root s → (3 ≤ length (pq_list (queues s pgfreeq)))%nat → page_addr paddr →
  ∃ t s', pmap_enter_kern root paddr virt prot s = Ok ((), s') ∧ pt_ok root s' ∧
    table_at (phys s') root (path3 virt) = Some t ∧
    entry (phys s') t (pti virt) = pte_value paddr (vm_prot_to_i386 prot) ∧
    pregions s' = pregions s ∧
    (∀ q x, q ≠ pgfreeq → on_queue s q x → on_queue s' q x) ∧
    (length (pq_list (queues s pgfreeq)) ≤ 3 + length (pq_list (queues s' pgfreeq)))%nat ∧
    keeps root s s' ∧
    (∀ w, vpage w ≠ vpage virt → pte_of (phys s') root w = pte_of (phys s) root w).
Proof.
  intros Hok Hf Hpa.
  destruct (descend3 root s virt Hok Hf) as (t & s1 & Hrun & Hok1 & Ht & Hreg & Hqs & Hlen & Hk & Htr).
  set (v := pte_value paddr (vm_prot_to_i386 prot)).
  assert (0 ≤ v < 2^64) as Hv by (apply pte_value_range; [apply prot_range|destruct Hpa; lia]).
  set (s' := set_phys (λ _, write64 (phys s1) (entry_addr t (pti virt)) v) s1).
  assert (pt_ok root s') as Hok' by by apply leaf_ok.
  exists t, s'. split_and!; [|done| | |done|exact Hqs|exact Hlen|by eapply keeps_trans, leaf_keeps|].
  - unfold pmap_enter_kern. by rewrite Hrun.
  - simpl. rewrite leaf_table; [done|done|done|apply path3_ok].
  - simpl. by rewrite entry_write.
  - intros w Hw. simpl. by rewrite leaf_pte, Htr.
Qed.

(** C7: [pmap_enter_kern] on page tables that form a tree, with three free pages for
    tables it may have to add: afterwards [pmap_trans] takes the address to the
    page entered (to nothing when read access is not given), takes every address
    of another page where it took it before, and the tables still form a tree. *)
Theorem pmap_enter_kern_correct root s paddr virt prot :
  pt_ok root s → (3 ≤ length (pq_list (queues s pgfreeq)))%nat → page_addr paddr →
  ∃ s', pmap_enter_kern root paddr virt prot s = Ok ((), s') ∧ pt_ok root s' ∧
    pmap_trans root virt s' =
      Ok (if has_flag prot kVMRead then paddr + pgi virt else 0, s') ∧
    ∀ w, vpage w ≠ vpage virt →
      ∃ pa, pmap_trans root w s = Ok (pa, s) ∧ pmap_trans root w s' = Ok (pa, s').
Proof.
  intros Hok Hf Hpa.
  destruct (enter_run root s paddr virt prot Hok Hf Hpa) as (t & s' & Hrun & Hok' & Ht & He & _ & _ & _ & _ & Htr).
  exists s'. split_and!; [done|done| |].
  - rewrite trans_run by done. unfold translate. rewrite Ht, He.
    change kMMUPresent with (2^0). rewrite has_flag_value by lia.
    change (2^0) with kMMUPresent. rewrite prot_present, pte_get_addr_value; try done.
    apply prot_range.
  - intros w Hw. exists (translate (phys s) root w). split; [by apply trans_run|].
    rewrite trans_run by done. do 2 f_equal. by apply translate_same, Htr.
Qed.

Lemma unenter_run root s virt t page :
  pt_ok root s → table_at (phys s) root (path3 virt) = Some t →
  entry (phys s) t (pti virt) ≠ 0 →
  vm_page_from_paddr s (pte_get_addr (entry (phys s) t (pti virt))) = Some page →
  pmap_unenter_kern root virt s =
    Ok (page, set_phys (λ _, write64 (phys s) (entry_addr t (pti virt)) 0) s).
Proof.
  intros Hok Ht He Hp. set (s' := set_phys _ s). unfold pmap_unenter_kern.
  rewrite (bind_step _ _ _ _ _ (fully_descend_run root s virt t Hok Ht)).
  destruct (pt_table _ _ Hok _ _ (path3_ok virt) Ht) as [[Hpos _] _].
  pose proof (land511 (Z.shiftr virt 12)) as Hi. fold (pti virt) in Hi. unfold idx_ok in Hi.
  rewrite (proj2 (Z.eqb_neq _ _)) by (unfold entry_addr; lia). simpl negb.
  rewrite massert_bind. rewrite (bind_step mget _ s s s) by done.
  unfold entry in He, Hp. rewrite (proj2 (Z.eqb_neq _ _)) by done. simpl negb.
  rewrite massert_bind. rewrite (bind_step _ _ s () s') by done. by rewrite Hp.
Qed.

(** [pmap_unenter_kern] of a page that is mapped returns the page the mapping
    names and takes away that translation and no other. *)
Theorem pmap_unenter_kern_correct root s virt t page :
  pt_ok root s → table_at (phys s) root (path3 virt) = Some t →
  entry (phys s) t (pti virt) ≠ 0 →
  vm_page_from_paddr s (pte_get_addr (entry (phys s) t (pti virt))) = Some page →
  ∃ s', pmap_unenter_kern root virt s = Ok (page, s') ∧ pt_ok root s' ∧
    pmap_trans root virt s' = Ok (0, s') ∧
    ∀ w, vpage w ≠ vpage virt →
      ∃ pa, pmap_trans root w s = Ok (pa, s) ∧ pmap_trans root w s' = Ok (pa, s').
Proof.
  intros Hok Ht He Hp.
  set (s' := set_phys (λ _, write64 (phys s) (entry_addr t (pti virt)) 0) s).
  assert (pt_ok root s') as Hok' by by apply leaf_ok.
  exists s'. split_and!; [|done| |].
  - by apply unenter_run.
  - rewrite trans_run by done. simpl. by rewrite leaf_translate_here.
  - intros w Hw. exists (translate (phys s) root w). split; [by apply trans_run|].
    rewrite trans_run by done. simpl. by rewrite leaf_translate.
Qed.

(** ** A machine with an empty top-level table *)

Definition demo_pmap : pstate :=
  PState [PRegion 1048576 16]
    (λ q, match q with
          | pgfreeq => PQ [1060864; 1064960; 1069056; 1073152; 1077248; 1081344; 1085440; 1089536] 8
          | pgpmapq => PQ [1048576] 1
          | _ => PQ [] 0
          end) (λ _, kVMPageFree) (λ _, []) (λ _, 0).

Lemma zero_tables root p t : table_at (λ _, 0) root p = Some t → p = [] ∧ t = root.
Proof.
  destruct p as [|i p _] using rev_ind; [by intros [= <-]|].
  rewrite table_at_snoc. by destruct (table_at _ _ _).
Qed.

Lemma demo_pmap_ok : pt_ok 1048576 demo_pmap.
Proof.
  split.
  - split.
    + intros q. apply (bool_decide_unpack _). by destruct q.
    + intros q r p. unfold on_queue. destruct q, r; simpl; try done;
        rewrite ?elem_of_cons, ?elem_of_nil; intuition congruence.
  - intros x. unfold on_queue. simpl. rewrite !elem_of_cons, elem_of_nil.
    unfold page_addr. intros Hx. by destruct_or? Hx; try subst x; apply (bool_decide_unpack _).
  - intros p t _ [_ ->]%zero_tables. unfold page_addr, on_queue. simpl. split; [done|].
    rewrite !elem_of_cons, elem_of_nil. intuition discriminate.
  - intros p q t _ _ [-> _]%zero_tables [-> _]%zero_tables. done.
Qed.

Lemma pmap_enter_kern_correct_witness :
  ∃ s', pmap_enter_kern 1048576 1073152 0xffff800100003000 kVMAll demo_pmap = Ok ((), s') ∧
    pt_ok 1048576 s' ∧
    pmap_trans 1048576 0xffff800100003000 s' = Ok (1073152, s') ∧
    ∀ w, vpage w ≠ vpage 0xffff800100003000 →
      ∃ pa, pmap_trans 1048576 w demo_pmap = Ok (pa, demo_pmap) ∧
            pmap_trans 1048576 w s' = Ok (pa, s').
Proof.
  apply (pmap_enter_kern_correct 1048576 demo_pmap 1073152 0xffff800100003000 kVMAll).
  - apply demo_pmap_ok.
  - simpl. lia.
  - by apply (bool_decide_unpack _).
Defined.

Lemma pmap_unenter_kern_correct_witness :
  ∃ s s', pmap_enter_kern 1048576 1073152 0xffff800100003000 kVMAll demo_pmap = Ok ((), s) ∧
    pmap_unenter_kern 1048576 0xffff800100003000 s = Ok (1073152, s') ∧ pt_ok 1048576 s' ∧
    pmap_trans 1048576 0xffff800100003000 s' = Ok (0, s') ∧
    ∀ w, vpage w ≠ vpage 0xffff800100003000 →
      ∃ pa, pmap_trans 1048576 w s = Ok (pa, s) ∧ pmap_trans 1048576 w s' = Ok (pa, s').
Proof.
  destruct (enter_run 1048576 demo_pmap 1073152 0xffff800100003000 kVMAll)
    as (t & s & Hrun & Hok & Ht & He & Hreg & _);
    [apply demo_pmap_ok|simpl; lia|by apply (bool_decide_unpack _)|].
  destruct (pmap_unenter_kern_correct 1048576 s 0xffff800100003000 t 1073152 Hok Ht) as (s' & H).
  - by rewrite He.
  - rewrite He. unfold vm_page_from_paddr. by rewrite Hreg.
  - exists s, s'. split; [exact Hrun|exact H].
Defined.
