(* ===== verification/PmapKernel.v ===== *)
(** * The kernel's half of every address space

    [x64_vm_init] gives the kernel a table for each entry of the upper half of its
    top-level table, and [pmap_new] copies those entries into every other top-level
    table: what is mapped in the kernel's half from then on, all address spaces
    have.  Also lemmas on writes outside the tables. *)

From S2P Require Import Prelude VmPage Pmap PmapProps.
Open Scope Z_scope.

(** ** Pages outside the tables *)

Lemma inside_eq x y a : page_addr x → page_addr y → inside x a → inside y a → x = y.
Proof. unfold page_addr, inside, PGSIZE. intros. Z.div_mod_to_equations. lia. Qed.

(** A page taken from the free queue is not part of the tables. *)
Lemma pagealloc_tables root s sleep q page rest :
  pt_ok root s → q ≠ pgfreeq → pq_list (queues s pgfreeq) = page :: rest →
  ∃ s', vm_pagealloc sleep q s = Ok (page, s') ∧ pt_ok root s' ∧ on_queue s' q page ∧
    pq_list (queues s' pgfreeq) = rest ∧
    (∀ r x, r ≠ pgfreeq → on_queue s r x → on_queue s' r x) ∧
    keeps root s s' ∧ (∀ a, inside page a → phys s' a = 0 ∧ untouched root s' a) ∧
    (∀ p t j, path_ok p → table_at (phys s) root p = Some t → idx_ok j →
       entry (phys s') t j = entry (phys s) t j) ∧
    (∀ p, path_ok p → table_at (phys s') root p = table_at (phys s) root p) ∧
    ∀ w, translate (phys s') root w = translate (phys s) root w.
Proof.
  intros Hok Hq Hl.
  destruct (pagealloc_run sleep q s page rest (pt_queues _ _ Hok) Hl)
    as (s' & Hrun & (Hqs & Hon & Hr & _) & Hph & Hpv & Hreg & Hpq).
  destruct (Hr Hq) as [Hrest _].
  assert (on_queue s pgfreeq page) as Hpf by (unfold on_queue; rewrite Hl; left).
  pose proof (pt_free _ _ Hok _ Hpf) as Hpa.
  assert (∀ p t j, path_ok p → table_at (phys s) root p = Some t → idx_ok j →
    entry (phys s') t j = entry (phys s) t j) as He.
  { intros p t j Hp Ht Hj. destruct (pt_table _ _ Hok _ _ Hp Ht) as [Hta Hnf].
    rewrite Hph. apply entry_zero_ne; try done. by intros ->. }
  assert (∀ p, path_ok p → table_at (phys s') root p = table_at (phys s) root p) as Ht.
  { intros p. induction p as [|j p IH] using rev_ind; intros Hp; [done|].
    apply path_ok_snoc in Hp as (Hp & Hj & _). rewrite !table_at_snoc, IH by done.
    destruct (table_at (phys s) root p) as [t|] eqn:E; [|done]. simpl.
    apply next_table_entry. by eapply He. }
  exists s'. split; [done|]. split; [split|].
  - done.
  - intros x [[_ ?]|[_ Hx]]%Hon; [by subst|]. by apply (pt_free _ _ Hok).
  - intros p t Hp. rewrite Ht by done. intros E. destruct (pt_table _ _ Hok _ _ Hp E) as [? Hnf].
    split; [done|]. intros [[_ ?]|[_ ?]]%Hon; [by subst|done].
  - intros p q' t Hp Hq'. rewrite !Ht by done. by apply (pt_inj _ _ Hok).
  - split; [apply Hon; by left|]. split; [done|]. split; [|split; [|split; [|split; [done|split; [done|]]]]].
    + intros r x Hne Hx. apply Hon. right. split; [|done]. intros ->. apply Hne.
      by eapply (qo_disj _ (pt_queues _ _ Hok)).
    + split; [|done..|by intros x [[_ ?]|[_ Hx]]%Hon|intros q' x Hq'; by rewrite Ht]. intros a [Hfa Hta]. rewrite Hph. split; [by apply mem_zero_outside, Hfa|]. split.
      * intros x [[_ ?]|[_ Hx]]%Hon; [by subst|]. by apply Hfa.
      * intros q' x Hq'. rewrite Ht by done. by apply Hta.
    + intros a Ha. rewrite Hph. split; [unfold mem_zero; by rewrite in_range_true|]. split.
      * intros x [[_ ?]|[Hne Hx]]%Hon Hxa; [by subst|]. apply Hne.
        by apply (inside_eq x page a); [apply (pt_free _ _ Hok)| |..].
      * intros q' x Hq'. rewrite Ht by done. intros E Hxa.
        destruct (pt_table _ _ Hok _ _ Hq' E) as [? Hnf]. apply Hnf.
        by rewrite (inside_eq x page a).
    + intros w. unfold translate. rewrite Ht by apply path3_ok.
      destruct (table_at (phys s) root (path3 w)) as [t|] eqn:E; [|done].
      by rewrite (He (path3 w)); [|apply path3_ok|done|apply land511].
Qed.

(** [page] is in use and no table. *)
Definition own_page (root : Z) (p : pstate) (page : Z) : Prop :=
  page_addr page ∧ ∀ a, inside page a → untouched root p a.

Lemma entry_frame root p m' q x j :
  (∀ a, ¬ untouched root p a → m' a = phys p a) → path_ok q → table_at (phys p) root q = Some x →
  idx_ok j → entry m' x j = entry (phys p) x j.
Proof.
  intros Hm Hq Hx Hj. unfold entry, read64.
  assert (∀ b, inside x b → m' b = phys p b) as Hb by (intros b Hb; apply Hm; intros [_ Ht]; by apply (Ht q x)).
  unfold idx_ok, inside, PGSIZE, entry_addr in *. by rewrite !Hb by lia.
Qed.

(** Writing pages that are in use and no tables changes no table. *)
Lemma tables_kept root p m' :
  (∀ a, ¬ untouched root p a → m' a = phys p a) → pt_ok root p →
  let p' := set_phys (λ _, m') p in
  pt_ok root p' ∧ (∀ q, path_ok q → table_at m' root q = table_at (phys p) root q) ∧
  (∀ v, translate m' root v = translate (phys p) root v) ∧ ∀ a, untouched root p a → untouched root p' a.
Proof.
  intros Hm Hok p'.
  assert (∀ q, path_ok q → table_at m' root q = table_at (phys p) root q) as Ht.
  { intros q. induction q as [|j q IH] using rev_ind; intros Hq; [done|].
    apply path_ok_snoc in Hq as (Hq & Hj & _). rewrite !table_at_snoc, IH by done.
    destruct (table_at (phys p) root q) as [x|] eqn:E; [|done]. simpl.
    apply next_table_entry. by eapply entry_frame. }
  split; [|split; [done|split]].
  - destruct Hok as [[Q1 Q2] H1 H2 H3]. split; try done; simpl.
    + intros q x Hq. rewrite Ht by done. by apply H2.
    + intros q r x Hq Hr. rewrite !Ht by done. by apply H3.
  - intros v. unfold translate. rewrite Ht by apply path3_ok.
    destruct (table_at (phys p) root (path3 v)) as [x|] eqn:E; [|done].
    by erewrite entry_frame; [|done|apply path3_ok|done|apply land511].
  - intros a [Hf Ha]. split; [done|]. intros q x Hq. simpl. rewrite Ht by done. by apply Ha.
Qed.

(** ** The tables of the kernel's half *)

Lemma table_at_one m root i : table_at m root [i] = next_table m root i.
Proof. done. Qed.

(** Entry [i] of the top-level table is present, or has no address at all. *)
Definition clean m root (i : Z) : Prop := pte_get_addr (entry m root i) = 0 ∨ is_Some (next_table m root i).
(** The entries of the kernel's half are present; the last, of the kernel's own
    image, is the boot loader's. *)
Definition half_ready m root : Prop := ∀ i, 255 ≤ i < 512 → is_Some (next_table m root i).

(** From [s] to [s'] at most [n] pages became tables, and every translation stayed. *)
Record tables_added (root : Z) (n : nat) (s s' : pstate) : Prop := {
  ta_ok : pt_ok root s';
  ta_keeps : keeps root s s';
  ta_free : (length (pq_list (queues s pgfreeq)) ≤ n + length (pq_list (queues s' pgfreeq)))%nat;
  ta_queues r x : r ≠ pgfreeq → on_queue s r x → on_queue s' r x;
  ta_translate w : translate (phys s') root w = translate (phys s) root w;
}.
Lemma tables_added_refl root n s : pt_ok root s → tables_added root n s s.
Proof. intros Hok. split; try done. lia. Qed.
Lemma tables_added_trans root n k s1 s2 s3 :
  tables_added root n s1 s2 → tables_added root k s2 s3 → tables_added root (n + k) s1 s3.
Proof.
  intros [O1 K1 F1 Q1 T1] [O2 K2 F2 Q2 T2].
  split; [done|by eapply keeps_trans|lia|auto|intros w; by rewrite T2, T1].
Qed.
Lemma next_table_added root n s s' i t :
  tables_added root n s s' → idx_ok i → next_table (phys s) root i = Some t →
  next_table (phys s') root i = Some t.
Proof.
  intros A Hi. rewrite <-!table_at_one. apply (ke_tables _ _ _ (ta_keeps _ _ _ _ A)).
  split; [by apply Forall_singleton|simpl; lia].
Qed.

(** One turn of the loop of [x64_vm_init]. *)
Definition preallocate (cr3 i : Z) : M pstate unit :=
  s ← mget;
  if pte_get_addr (entry (phys s) cr3 i) =? 0 then
    page ← vm_pagealloc true pgpmapq;
    pte_set (entry_addr cr3 i) page kMMUDefaultProt
  else mret ().

Lemma preallocate_run root s i :
  pt_ok root s → idx_ok i → clean (phys s) root i → (1 ≤ length (pq_list (queues s pgfreeq)))%nat →
  ∃ s', preallocate root i s = Ok ((), s') ∧ tables_added root 1 s s' ∧ is_Some (next_table (phys s') root i) ∧
    ∀ j, idx_ok j → j ≠ i → entry (phys s') root j = entry (phys s) root j.
Proof.
  intros Hok Hi Hc Hl. assert (path_ok ([] ++ [i])) as Hp by (split; [by apply Forall_singleton|simpl; lia]).
  unfold preallocate. rewrite (bind_step mget _ s s s) by done.
  destruct (Z.eqb_spec (pte_get_addr (entry (phys s) root i)) 0) as [E|Hne].
  2:{ exists s. split; [done|]. split; [by apply tables_added_refl|]. split; [by destruct Hc|done]. }
  assert (next_table (phys s) root i = None) as Hn.
  { unfold next_table. destruct (has_flag _ _) eqn:Ef; [|done]. exfalso.
    assert (table_at (phys s) root ([] ++ [i]) = Some 0) as Ht.
    { rewrite table_at_snoc. simpl. unfold next_table. by rewrite Ef, E. }
    destruct (pt_table _ _ Hok _ _ Hp Ht) as [[? _] _]. lia. }
  destruct (pq_list (queues s pgfreeq)) as [|page rest] eqn:El; [simpl in Hl; lia|].
  destruct (pagealloc_run true pgpmapq s page rest (pt_queues _ _ Hok) El)
    as (s1 & Hrun & Htk & Hph & Hpv & Hreg & Hpq).
  eexists. split; [rewrite (bind_step _ _ _ _ _ Hrun); reflexivity|].
  assert (descended root s (set_phys (λ m, write64 m (entry_addr root i) (pte_value page kMMUDefaultProt)) s1) [] i page)
    as D by by eapply alloc_descended.
  split; [|split].
  - split; [apply D|apply D|rewrite El; rewrite <-El; apply D|apply D|].
    intros w. by apply (descended_translate root s _ [] i page).
  - pose proof (de_at _ _ _ _ _ _ D) as H. simpl app in H. rewrite table_at_one in H. by eexists.
  - intros j Hj Hne. apply (de_entry _ _ _ _ _ _ D []); [split; [constructor|simpl; lia]|done|done|congruence].
Qed.

Lemma preallocate_all root n i s :
  pt_ok root s → 0 ≤ i → i + Z.of_nat n ≤ 512 → (∀ j, i ≤ j < i + Z.of_nat n → clean (phys s) root j) →
  (n ≤ length (pq_list (queues s pgfreeq)))%nat →
  ∃ s', mfor (seqZ i (Z.of_nat n)) (preallocate root) s = Ok ((), s') ∧ tables_added root n s s' ∧
    ∀ j, i ≤ j < i + Z.of_nat n → is_Some (next_table (phys s') root j).
Proof.
  revert i s. induction n as [|n IH]; intros i s Hok Hi Hn Hc Hl.
  { exists s. split; [done|]. split; [by apply tables_added_refl|lia]. }
  destruct (preallocate_run root s i Hok) as (s1 & Hrun & A1 & Hp & He);
    [unfold idx_ok; lia|apply Hc; lia|lia|]. pose proof (ta_free _ _ _ _ A1).
  destruct (IH (i + 1) s1) as (s2 & Hrun2 & A2 & Hp2); [apply A1|lia|lia| |lia|].
  - intros j Hj. unfold clean, next_table. rewrite He by (unfold idx_ok; lia). apply Hc. lia.
  - exists s2. rewrite seqZ_cons by lia. replace (Z.succ i) with (i + 1) by lia.
    replace (Z.pred (Z.of_nat (S n))) with (Z.of_nat n) by lia. csimpl.
    split; [by rewrite (bind_step _ _ _ _ _ Hrun)|].
    split; [by apply (tables_added_trans root 1 n _ s1)|].
    intros j Hj. destruct (decide (j = i)) as [->|]; [|apply Hp2; lia].
    destruct Hp as [t Ht]. exists t. by eapply next_table_added; [exact A2|unfold idx_ok; lia|].
Qed.

Lemma x64_vm_init_run root s :
  pt_ok root s → (∀ i, 255 ≤ i < 511 → clean (phys s) root i) → is_Some (next_table (phys s) root 511) →
  (256 ≤ length (pq_list (queues s pgfreeq)))%nat →
  ∃ s', x64_vm_init root s = Ok ((), s') ∧ tables_added root 256 s s' ∧ half_ready (phys s') root.
Proof.
  intros Hok Hc [t Ht] Hl.
  destruct (preallocate_all root 256 255 s Hok ltac:(lia) ltac:(lia)) as (s' & Hrun & A & Hp); [|done|].
  { intros j Hj. apply Hc. lia. }
  exists s'. split; [exact Hrun|]. split; [exact A|]. intros i Hi.
  destruct (decide (i = 511)) as [->|]; [|apply Hp; lia].
  exists t. by eapply next_table_added; [exact A|unfold idx_ok; lia|].
Qed.

(** ** A new address space *)

(** [new] is a top-level table of its own, empty below entry 255 and the same as
    the kernel's, [root], from there on. *)
Record copy_of (root new : Z) (s : pstate) : Prop := {
  co_root : pt_ok root s;
  co_own : own_page root s new;
  co_ready : half_ready (phys s) root;
  co_low i : 0 ≤ i < 255 → next_table (phys s) new i = None;
  co_high i : 255 ≤ i < 512 → next_table (phys s) new i = next_table (phys s) root i;
}.

Lemma own_entry root s s' new i :
  keeps root s s' → own_page root s new → idx_ok i → entry (phys s') new i = entry (phys s) new i.
Proof.
  intros K [_ Hu] Hi. unfold entry, read64.
  assert (∀ b, inside new b → phys s' b = phys s b) as Hb by (intros b Hb; by apply K, Hu).
  unfold idx_ok, inside, PGSIZE, entry_addr in *. by rewrite !Hb by lia.
Qed.

(** What the kernel does to its own tables keeps the copy a copy. *)
Lemma copy_keeps root new s s' :
  copy_of root new s → keeps root s s' → pt_ok root s' → copy_of root new s'.
Proof.
  intros [Hok Ho Hr Hl Hh] K Hok'.
  assert (∀ i, idx_ok i → next_table (phys s') new i = next_table (phys s) new i) as E
    by (intros i Hi; by apply next_table_entry, (own_entry root)).
  assert (∀ i, 255 ≤ i < 512 → next_table (phys s') root i = next_table (phys s) root i) as Er.
  { intros i Hi. destruct (Hr i Hi) as [t Ht]. rewrite Ht. rewrite <-table_at_one in Ht |- *.
    apply (ke_tables _ _ _ K); [|done]. split; [apply Forall_singleton; unfold idx_ok; lia|simpl; lia]. }
  split; [done| |intros i Hi|intros i Hi|intros i Hi].
  - destruct Ho as [Ha Hu]. split; [done|]. intros a Hin. by apply K, Hu.
  - rewrite Er by done. by apply Hr.
  - rewrite E by (unfold idx_ok; lia). by apply Hl.
  - rewrite E by (unfold idx_ok; lia). by rewrite Er, Hh.
Qed.

Lemma table_at_cons m root i p : table_at m root (i :: p) = next_table m root i ≫= λ t, table_at m t p.
Proof.
  unfold table_at. simpl. destruct (next_table m root i) as [t|]; [done|]. simpl.
  induction p as [|j p IH]; [done|]. apply IH.
Qed.

Lemma copy_table_at root new s i p :
  copy_of root new s → idx_ok i →
  table_at (phys s) new (i :: p) = if 255 <=? i then table_at (phys s) root (i :: p) else None.
Proof.
  intros C Hi. unfold idx_ok in Hi. rewrite !table_at_cons. destruct (Z.leb_spec 255 i).
  - by rewrite (co_high _ _ _ C) by lia.
  - by rewrite (co_low _ _ _ C) by lia.
Qed.

(** The copy is a sound tree of tables itself. *)
Lemma copy_ok root new s : copy_of root new s → pt_ok new s.
Proof.
  intros C. pose proof C as [Hok [Ha Hu] _ _ _].
  assert (inside new new) as Hin by (unfold inside, PGSIZE; lia).
  assert (∀ q x, path_ok q → table_at (phys s) new q = Some x →
    (q = [] ∧ x = new) ∨ (q ≠ [] ∧ table_at (phys s) root q = Some x ∧ x ≠ new)) as Hcase.
  { intros [|i q] x Hq; [intros [= <-]; by left|]. assert (idx_ok i) as Hi by (by destruct Hq as [[]%Forall_cons _]).
    rewrite (copy_table_at root) by done. destruct (255 <=? i); [|done]. intros Hx. right. split_and!; [done..|].
    intros ->. destruct (Hu new Hin) as [_ Ht]. by apply (Ht _ _ Hq Hx). }
  split.
  - apply Hok.
  - apply (pt_free _ _ Hok).
  - intros q x Hq Hx. destruct (Hcase q x Hq Hx) as [[-> ->]|(_ & Hx' & _)].
    + split; [done|]. intros Hf. destruct (Hu new Hin) as [Hnf _]. by apply (Hnf new).
    + by apply (pt_table _ _ Hok q).
  - intros q r x Hq Hr Hx Hy. destruct (Hcase q x Hq Hx) as [[-> ->]|(_ & Hx' & Hne)],
      (Hcase r _ Hr Hy) as [[-> ?]|(_ & Hy' & ?)]; try done. by apply (pt_inj _ _ Hok q r x).
Qed.

Lemma copy_translate root new s w :
  copy_of root new s →
  translate (phys s) new w = if 255 <=? pml4i w then translate (phys s) root w else 0.
Proof.
  intros C. unfold translate, path3. rewrite (copy_table_at root) by (done || apply land511).
  by destruct (255 <=? pml4i w).
Qed.

(** One turn of the loop of [pmap_new]. *)
Definition copy_entry (kpml4 pml4 i : Z) : M pstate unit :=
  s ← mget; pte_set (entry_addr pml4 i) (entry (phys s) kpml4 i) kMMUDefaultProt.

Lemma copy_entries_run root new n i s :
  page_addr root → page_addr new → root ≠ new → 0 ≤ i → i + Z.of_nat n ≤ 512 →
  ∃ m', mfor (seqZ i (Z.of_nat n)) (copy_entry root new) s = Ok ((), set_phys (λ _, m') s) ∧
    (∀ a, ¬ inside new a → m' a = phys s a) ∧
    ∀ j, idx_ok j → entry m' new j =
      if (i <=? j) && (j <? i + Z.of_nat n) then pte_value (entry (phys s) root j) kMMUDefaultProt
      else entry (phys s) new j.
Proof.
  intros Hr Hn Hne. revert i s. induction n as [|n IH]; intros i s Hi Hle.
  { exists (phys s). split; [by destruct s|]. split; [done|]. intros j _.
    destruct (Z.leb_spec i j), (Z.ltb_spec j (i + Z.of_nat 0)); (done || lia). }
  set (v := pte_value (entry (phys s) root i) kMMUDefaultProt).
  set (s1 := set_phys (λ m, write64 m (entry_addr new i) v) s).
  assert (idx_ok i) as Hio by (unfold idx_ok; lia).
  assert (0 ≤ v < 2^64) as Hv.
  { apply pte_value_bound. vm_compute. split; congruence. }
  destruct (IH (i + 1) s1) as (m' & Hrun & Hout & He); [lia|lia|].
  exists m'. rewrite seqZ_cons by lia. replace (Z.succ i) with (i + 1) by lia.
  replace (Z.pred (Z.of_nat (S n))) with (Z.of_nat n) by lia. csimpl. split; [|split].
  - rewrite (bind_step _ _ s () s1) by done. exact Hrun.
  - intros a Ha. rewrite Hout by done. simpl. by apply entry_outside.
  - intros j Hj. rewrite He by done. change (phys s1) with (write64 (phys s) (entry_addr new i) v).
    destruct (decide (j = i)) as [->|Hji].
    + destruct (Z.leb_spec (i + 1) i); [lia|]. rewrite (proj2 (Z.leb_le i i)), (proj2 (Z.ltb_lt i (i + _))) by lia.
      by apply entry_write.
    + rewrite !entry_write_ne by (done || congruence).
      destruct (Z.leb_spec (i + 1) j), (Z.leb_spec i j), (Z.ltb_spec j (i + 1 + Z.of_nat n)),
        (Z.ltb_spec j (i + Z.of_nat (S n))); simpl; (done || lia).
Qed.

Lemma pmap_new_copy root s :
  pt_ok root s → half_ready (phys s) root → (1 ≤ length (pq_list (queues s pgfreeq)))%nat →
  ∃ new s', pmap_new_table root s = Ok (new, s') ∧ copy_of root new s' ∧
    (∀ w, translate (phys s') root w = translate (phys s) root w) ∧
    (length (pq_list (queues s pgfreeq)) = S (length (pq_list (queues s' pgfreeq))))%nat.
Proof.
  intros Hok Hr Hl. destruct (pq_list (queues s pgfreeq)) as [|new rest] eqn:El; [simpl in Hl; lia|].
  destruct (pagealloc_tables root s true pgpmapq new rest Hok ltac:(done) El)
    as (s1 & Hrun & Hok1 & _ & Hrest & _ & K1 & Hnew & _ & Ht1 & Htr1).
  assert (on_queue s pgfreeq new) as Hnf by (unfold on_queue; rewrite El; left).
  assert (path_ok []) as Hp0 by (split; [constructor|simpl; lia]).
  destruct (pt_table _ _ Hok [] root Hp0 eq_refl) as [Hra Hrf].
  assert (page_addr new ∧ root ≠ new) as [Hna Hne] by (split; [by apply (pt_free _ _ Hok)|by intros ->]).
  destruct (copy_entries_run root new 257 255 s1 Hra Hna Hne) as (m' & Hrun2 & Hout & He); [lia|lia|].
  destruct (tables_kept root s1 m') as (Hok2 & Ht2 & Htr2 & Hu2); [|done|].
  { intros a Ha. apply Hout. intros Hin. apply Ha, (Hnew a Hin). }
  assert (∀ i, 255 ≤ i < 512 → idx_ok i ∧ path_ok [i]) as Hi.
  { intros i Hi. split; [unfold idx_ok; lia|]. split; [apply Forall_singleton; unfold idx_ok; lia|simpl; lia]. }
  assert (∀ i, 255 ≤ i < 512 → next_table m' root i = next_table (phys s) root i) as Hsame.
  { intros i H. destruct (Hi i H). by rewrite <-!table_at_one, Ht2, Ht1. }
  exists new, (set_phys (λ _, m') s1). split_and!.
  - unfold pmap_new_table. rewrite (bind_step _ _ _ _ _ Hrun). by rewrite (bind_step _ _ _ _ _ Hrun2).
  - split; [done| |..].
    + split; [done|]. intros a Ha. by apply Hu2, Hnew.
    + intros i H. simpl. rewrite Hsame by done. by apply Hr.
    + intros i H. apply next_table_zero. simpl. rewrite He by (unfold idx_ok; lia).
      rewrite (proj2 (Z.leb_gt 255 i)) by lia. simpl. unfold entry, read64, entry_addr.
      assert (∀ b, inside new b → phys s1 b = 0) as Hz by (intros b Hb; by apply Hnew).
      unfold inside, PGSIZE in Hz. by rewrite !Hz by lia.
    + intros i H. destruct (Hi i H) as [Hio Hpi]. simpl. rewrite Hsame by done. destruct (Hr i H) as [t Ht].
      rewrite Ht. destruct (pt_table _ _ Hok [i] t Hpi Ht) as [Hta _].
      rewrite <-(table_at_one _ root), <-(Ht1 _ Hpi), table_at_one in Ht.
      eapply next_table_value; [done| | |]; [rewrite He by done|..].
      * rewrite (proj2 (Z.leb_le 255 i)), (proj2 (Z.ltb_lt i (255 + _))) by lia. simpl.
        unfold next_table in Ht. destruct (has_flag _ _); [|done]. injection Ht as <-.
        unfold pte_value, pte_get_addr in *. f_equal. destruct Hta. symmetry. apply land_frame; lia.
      * vm_compute. split; congruence.
      * done.
  - intros w. simpl. by rewrite Htr2, Htr1.
  - simpl. by rewrite Hrest.
Qed.

(** Mappings the kernel makes, one after the other: page and address. *)
Definition kernel_enters (kpml4 : Z) (l : list (Z * Z)) : M pstate unit :=
  mfor l (λ e, pmap_enter_kern kpml4 e.1 e.2 kVMAll).

Lemma kernel_enters_run root l s :
  pt_ok root s → Forall (λ e, page_addr e.1) l → (3 * length l ≤ length (pq_list (queues s pgfreeq)))%nat →
  ∃ s', kernel_enters root l s = Ok ((), s') ∧ pt_ok root s' ∧ keeps root s s'.
Proof.
  intros Hok Hl. revert s Hok. induction Hl as [|[pa virt] l Hpa _ IH]; intros s Hok Hn; [by exists s|].
  simpl in Hpa, Hn. destruct (enter_run root s pa virt kVMAll Hok ltac:(lia) Hpa)
    as (t & s1 & Hrun & Hok1 & _ & _ & _ & _ & Hlen & K1 & _).
  destruct (IH s1 Hok1 ltac:(lia)) as (s2 & Hrun2 & Hok2 & K2).
  exists s2. split; [|split; [done|by eapply keeps_trans]].
  unfold kernel_enters. simpl. by rewrite (bind_step _ _ _ _ _ Hrun).
Qed.

(** C8: All address spaces share the kernel's half.  Once [x64_vm_init] has run on the
    boot loader's tables, which changes no translation, a pmap made with
    [pmap_new] maps nothing below and the same as the kernel from entry 255 of its top-level
    table on; and it goes on doing so, without being touched, whatever pages the
    kernel maps afterwards at whatever addresses. *)
Theorem pmap_new_shares_kernel root s l :
  pt_ok root s → (∀ i, 255 ≤ i < 511 → clean (phys s) root i) → is_Some (next_table (phys s) root 511) →
  Forall (λ e, page_addr e.1) l → (257 + 3 * length l ≤ length (pq_list (queues s pgfreeq)))%nat →
  ∃ s1 new s2 s3, x64_vm_init root s = Ok ((), s1) ∧
    (∀ w, ∃ pa, pmap_trans root w s = Ok (pa, s) ∧ pmap_trans root w s1 = Ok (pa, s1)) ∧
    pmap_new_table root s1 = Ok (new, s2) ∧ pt_ok new s2 ∧
    kernel_enters root l s2 = Ok ((), s3) ∧ pt_ok new s3 ∧
    ∀ w, ∃ pa, pmap_trans root w s3 = Ok (pa, s3) ∧
      pmap_trans new w s2 = Ok (if 255 <=? pml4i w then translate (phys s2) root w else 0, s2) ∧
      pmap_trans new w s3 = Ok (if 255 <=? pml4i w then pa else 0, s3).
Proof.
  intros Hok Hc H511 Hl Hn.
  destruct (x64_vm_init_run root s Hok Hc H511 ltac:(lia)) as (s1 & Hrun1 & [Hok1 _ Hf1 _ Ht1] & Hr1).
  destruct (pmap_new_copy root s1 Hok1 Hr1 ltac:(lia)) as (new & s2 & Hrun2 & C2 & _ & Hf2).
  destruct (kernel_enters_run root l s2 (co_root _ _ _ C2) Hl ltac:(lia)) as (s3 & Hrun3 & Hok3 & K3).
  pose proof (copy_keeps _ _ _ _ C2 K3 Hok3) as C3.
  exists s1, new, s2, s3. split_and!; try done; try by eapply copy_ok.
  - intros w. eexists. rewrite !trans_run by done. split; [done|]. by rewrite Ht1.
  - intros w. eexists. split; [by apply trans_run|].
    rewrite !trans_run by by eapply copy_ok. split; [by rewrite (copy_translate root)|by rewrite (copy_translate root)].
Qed.

(** ** At boot tables with one entry, for the kernel's image *)

Definition boot_mem : mem := write64 (λ _, 0) (entry_addr 0x100000 511) (pte_value 0x101000 kMMUDefaultProt).

Lemma boot_pages : page_addr 0x100000 ∧ page_addr 0x101000.
Proof. by split; apply (bool_decide_unpack _). Qed.

Lemma boot_entry x j : page_addr x → idx_ok j → (x, j) ≠ (0x100000, 511) → entry boot_mem x j = 0.
Proof.
  intros Hx Hj Hne. unfold boot_mem. by rewrite entry_write_ne; [done|apply boot_pages|done|done| |congruence].
Qed.
Lemma boot_entry_here : entry boot_mem 0x100000 511 = pte_value 0x101000 kMMUDefaultProt.
Proof. apply entry_write. by apply (bool_decide_unpack _). Qed.

Lemma boot_next i : idx_ok i → next_table boot_mem 0x100000 i = if i =? 511 then Some 0x101000 else None.
Proof.
  intros Hi. destruct (Z.eqb_spec i 511) as [->|Hne].
  - eapply next_table_value; [apply boot_pages|apply boot_entry_here|by apply (bool_decide_unpack _)|done].
  - apply next_table_zero, boot_entry; [apply boot_pages|done|congruence].
Qed.

Lemma boot_tables q x : path_ok q → table_at boot_mem 0x100000 q = Some x →
  (q = [] ∧ x = 0x100000) ∨ (q = [511] ∧ x = 0x101000).
Proof.
  revert x. induction q as [|i q IH] using rev_ind; intros x Hq; [intros [= <-]; by left|].
  apply path_ok_snoc in Hq as (Hq & Hi & _). rewrite table_at_snoc.
  destruct (table_at boot_mem 0x100000 q) as [t|]; [|done]. simpl.
  destruct (IH t Hq eq_refl) as [[-> ->]|[-> ->]].
  - rewrite boot_next by done. destruct (Z.eqb_spec i 511) as [->|]; [|done]. intros [= <-]. by right.
  - rewrite next_table_zero; [done|]. apply boot_entry; [apply boot_pages|done|congruence].
Qed.

Definition boot_state : pstate :=
  PState [PRegion 0x100000 512]
    (λ q, match q with
          | pgfreeq => PQ ((λ i, 0x102000 + PGSIZE * i) <$> seqZ 0 510) 510
          | _ => PQ [] 0
          end) (λ _, kVMPageFree) (λ _, []) boot_mem.

Lemma boot_state_free x : on_queue boot_state pgfreeq x → page_addr x ∧ 0x102000 ≤ x.
Proof.
  intros (i & -> & Hi%elem_of_seqZ)%list_elem_of_fmap. unfold page_addr, PGSIZE.
  split; [split; [lia|]|lia]. replace (0x102000 + 4096 * i) with ((258 + i) * 4096) by lia. by apply Z.mod_mul.
Qed.

Lemma boot_state_ok : pt_ok 0x100000 boot_state.
Proof.
  split.
  - split.
    + intros [] ; try apply NoDup_nil_2. apply NoDup_fmap_2; [intros ???; unfold PGSIZE in *; lia|apply NoDup_seqZ].
    + intros q r p Hq Hr. destruct q, r; try done; by apply elem_of_nil in Hq || apply elem_of_nil in Hr.
  - intros x Hx. by apply boot_state_free.
  - intros p t Hp Ht. assert (¬ on_queue boot_state pgfreeq 0x100000 ∧ ¬ on_queue boot_state pgfreeq 0x101000) as [].
    { split; intros [_ H]%boot_state_free; lia. }
    destruct boot_pages, (boot_tables p t Hp Ht) as [[_ ->]|[_ ->]]; done.
  - intros p q t Hp Hq H1 H2. destruct (boot_tables p t Hp H1) as [[-> ->]|[-> ->]], (boot_tables q _ Hq H2) as [[-> ?]|[-> ?]]; done.
Qed.

Lemma pmap_new_shares_kernel_witness :
  ∃ s1 new s2 s3, x64_vm_init 0x100000 boot_state = Ok ((), s1) ∧ pmap_new_table 0x100000 s1 = Ok (new, s2) ∧
    kernel_enters 0x100000 [(0x101000, 0xffff800100000000)] s2 = Ok ((), s3) ∧ pt_ok new s3.
Proof.
  destruct (pmap_new_shares_kernel 0x100000 boot_state [(0x101000, 0xffff800100000000)])
    as (s1 & new & s2 & s3 & H1 & _ & H2 & _ & H3 & H4 & _).
  - apply boot_state_ok.
  - intros i Hi. left. change (phys boot_state) with boot_mem.
    by rewrite boot_entry; [|apply boot_pages|unfold idx_ok; lia|intros [= ->]; lia].
  - change (phys boot_state) with boot_mem. by rewrite boot_next.
  - apply Forall_singleton, boot_pages.
  - by apply Nat.leb_le.
  - exists s1, new, s2, s3. split; [exact H1|]. split; [exact H2|]. split; [exact H3|exact H4].
Defined.
