(* ===== verification/PageAlloc.v ===== *)
(** * The interface of the kernel page allocator

    What [vm_kalloc] and [vm_kfree] (vm/vm_kernel.c) promise to their clients,
    the slab allocator above all: a request that can be served gives a
    page-aligned range that overlaps nothing handed out before, and a range that
    was handed out can be freed.  KernelMem shows that the kernel's own allocator
    keeps the promise; [bump] is the smallest allocator that does, for evaluating
    the clients. *)

From S2P Require Import Prelude.
Open Scope Z_scope.

Definition kVMKNoSleep : Z := 0.
Definition kVMKSleep : Z := 1.

Definition disjoint_ranges (r q : Z * Z) : Prop := r.1 + r.2 ≤ q.1 ∨ q.1 + q.2 ≤ r.1.

Class PageAlloc (P : Type) := {
  (** [vm_kalloc(npages, flags)]; 0 is NULL *)
  pa_alloc : Z → Z → M P Z;
  pa_free : Z → Z → M P unit;
  pa_inv : P → Prop;
  (** the ranges handed out, by address and size *)
  pa_live : P → list (Z * Z);
  (** a request for so many pages can be served now *)
  pa_ready : Z → Z → P → Prop;
  pa_alloc_spec npages flags s :
    pa_inv s → pa_ready npages flags s →
    ∃ addr s', pa_alloc npages flags s = Ok (addr, s') ∧ pa_inv s' ∧
      0 < addr ∧ addr + npages * PGSIZE ≤ 2^64 ∧ addr mod PGSIZE = 0 ∧
      (∀ r, r ∈ pa_live s → disjoint_ranges (addr, npages * PGSIZE) r) ∧
      pa_live s' ≡ₚ (addr, npages * PGSIZE) :: pa_live s;
  pa_free_spec npages addr s :
    pa_inv s → (addr, npages * PGSIZE) ∈ pa_live s →
    ∃ s', pa_free addr npages s = Ok ((), s') ∧ pa_inv s' ∧
      pa_live s ≡ₚ (addr, npages * PGSIZE) :: pa_live s';
}.

(** An allocator that never reuses: the next free page and what is handed out. *)
Definition bump : Type := Z * list (Z * Z).
Definition bump_alloc (npages flags : Z) : M bump Z :=
  λ s, Ok (PGSIZE * s.1, (s.1 + npages, (PGSIZE * s.1, npages * PGSIZE) :: s.2)).
(** The list without one entry for the range. *)
Fixpoint take_out (r : Z * Z) (l : list (Z * Z)) : list (Z * Z) :=
  match l with
  | [] => []
  | q :: l => if decide (q = r) then l else q :: take_out r l
  end.
Lemma take_out_perm r l : r ∈ l → l ≡ₚ r :: take_out r l.
Proof.
  induction l as [|q l IH]; simpl; [by intros ?%elem_of_nil|].
  case_decide as E; [by subst|]. intros [?|Hr]%elem_of_cons; [congruence|].
  rewrite (IH Hr) at 1. apply Permutation_swap.
Qed.
Definition bump_free (addr npages : Z) : M bump unit :=
  λ s, Ok ((), (s.1, take_out (addr, npages * PGSIZE) s.2)).
Definition bump_inv (s : bump) : Prop :=
  0 < s.1 ∧ ∀ r, r ∈ s.2 → r.1 + r.2 ≤ PGSIZE * s.1.

#[export] Program Instance bump_pages : PageAlloc bump := {
  pa_alloc := bump_alloc;
  pa_free := bump_free;
  pa_inv := bump_inv;
  pa_live := snd;
  pa_ready npages _ s := 0 < npages ∧ s.1 + npages < 2^40;
}.
Next Obligation.
  intros npages flags [n l] [Hn Hl] [Hp Hs]. simpl in *. unfold PGSIZE in *.
  eexists _, _. split; [done|]. split; [|split_and!]; simpl; unfold PGSIZE in *; try lia.
  - split; simpl; unfold PGSIZE; [lia|]. intros r [->|Hr]%elem_of_cons; simpl; [lia|].
    specialize (Hl r Hr). lia.
  - rewrite Z.mul_comm. by apply Z.mod_mul.
  - intros r Hr. right. simpl. by apply Hl.
  - done.
Qed.
Next Obligation.
  intros npages addr [n l] [Hn Hl] Hin. simpl in *. eexists. split; [done|].
  pose proof (take_out_perm _ _ Hin) as HP. split; [|exact HP]. split; simpl; [done|].
  intros r Hr. apply Hl. simpl. rewrite HP. by right.
Qed.
