(* ===== verification/VmKernel.v ===== *)
(** * The kernel's virtual address space: vm/vm_kernel.c

    Two arenas: [kmap.vmem], whose range is the kernel heap, and
    [vm_kernel_wired], which imports spans from it; an import also backs the
    range with pages, and a release takes them away.  The tag pool that both
    use is refilled through [vm_kalloc] itself, which the code keeps from
    recursing for ever with the [kVMemBootstrap] flag: [vm_kalloc] is given here
    with the [vm_kalloc] of the refill as an argument, and closed one level up. *)

From S2P Require Import Prelude Vmem VmPage Pmap.
Open Scope Z_scope.

Definition KHEAP_BASE : Z := 0xffff800100000000.
Definition KHEAP_SIZE : Z := 0x100000000.

(** The addresses of [kmap.vmem] and [vm_kernel_wired]. *)
Definition kmap_vmem : Z := 1.
Definition vm_kernel_wired : Z := 2.
(** The addresses of [internal_allocwired] and [internal_freewired]. *)
Definition fn_allocwired : Z := 3.
Definition fn_freewired : Z := 4.

Definition kstate : Type := vstate * pstate.
Definition on_pages {A} (m : M pstate A) : M kstate A :=
  λ s, match m s.2 with
       | Ok (a, p) => Ok (a, (s.1, p))
       | Fatal w => Fatal w
       | Undef w => Undef w
       end.

Section kernel.
(** The kernel's top-level page table, [kmap.pmap->pml4]. *)
Variable kpml4 : Z.

(** [kmap.vmem] has no [allocfn]. *)
Definition no_allocfn (fn source size flags : Z) : M kstate (Z * Z) := undef "NULL allocfn".
Definition no_freefn (fn source addr size : Z) : M kstate unit := undef "NULL freefn".

(** The bodies of the two loops over pages. *)
Definition wire_page (addr : Z) (sleep : bool) (i : Z) : M kstate unit :=
  page ← on_pages (vm_pagealloc sleep pgkmemq);
  on_pages (pmap_enter_kern kpml4 page (addr + i) kVMAll).
Definition unwire_page (addr i : Z) : M kstate unit :=
  page ← on_pages (pmap_unenter_kern kpml4 (addr + i));
  on_pages (vm_page_free (Some page)).

(** [for (int i = 0; i < n; i += PGSIZE)] with an unsigned bound. *)
Definition page_offsets (n : Z) : list Z := (λ k, PGSIZE * k) <$> seqZ 0 ((n + PGSIZE - 1) / PGSIZE).

(** In that loop [i] is an [int]: the last [i += PGSIZE] overflows when there are 2^31
    bytes of pages. *)
Definition int_offsets (n : Z) : M kstate unit :=
  if 2^31 <=? PGSIZE * ((n + PGSIZE - 1) / PGSIZE) then undef "int i" else mret ().

Definition internal_allocwired (vm_kalloc : Z → Z → M kstate Z)
    (vmem size flags : Z) : M kstate (Z * Z) :=
  massert (vmem =? kmap_vmem) "assert(vmem == &kmap.vmem)";;
  '(r, out) ← vmem_xalloc vm_kalloc no_allocfn no_freefn vmem size 0 0 0 0 0 flags;
  if r <? 0 then fatal "vmem_xalloc returned" else
  out ← deref out "*out";
  int_offsets (size - 1);;
  mfor (page_offsets (size - 1)) (wire_page out (has_flag flags kVMemSleep));;
  mret (0, out).

Definition internal_freewired (vmem addr size : Z) : M kstate unit :=
  massert (vmem =? kmap_vmem) "assert(vmem == &kmap.vmem)";;
  r ← vmem_xfree no_freefn vmem addr size;
  if r <? 0 then mret () else
  int_offsets (s32 size);;
  mfor (page_offsets (s32 size)) (unwire_page addr).

(** The calls through [allocfn] and [freefn] of [vm_kernel_wired]. *)
Definition kernel_alloc (vm_kalloc : Z → Z → M kstate Z)
    (fn source size flags : Z) : M kstate (Z * Z) :=
  if fn =? fn_allocwired then internal_allocwired vm_kalloc source size flags
  else undef "allocfn".
Definition kernel_free (fn source addr size : Z) : M kstate unit :=
  if fn =? fn_freewired then internal_freewired source addr size else undef "freefn".

Definition kalloc_flags (wait : Z) : Z :=
  Z.lor (if has_flag wait 1 then kVMemSleep else kVMemNoSleep)
        (if has_flag wait 2 then kVMemBootstrap else 0).

(** Returns the address, or 0 for NULL. *)
Definition vm_kalloc_with (refill : Z → Z → M kstate Z) (npages wait : Z) : M kstate Z :=
  '(r, addr) ← vmem_xalloc refill (kernel_alloc refill) kernel_free
                 vm_kernel_wired (w64 (npages * PGSIZE)) 0 0 0 0 0 (kalloc_flags wait);
  if r =? 0 then deref addr "addr" else mret 0.

(** The refill passes [kVMemBootstrap] on to everything below it, so it never
    refills in turn. *)
Definition vm_kalloc_refill : Z → Z → M kstate Z :=
  vm_kalloc_with (λ _ _, undef "nested refill").
Definition vm_kalloc : Z → Z → M kstate Z := vm_kalloc_with vm_kalloc_refill.

Definition vm_kfree (addr npages : Z) : M kstate unit :=
  vmem_xfree kernel_free vm_kernel_wired addr (w64 (npages * PGSIZE));;
  mret ().

Definition clear_flags (a : vmem) : vmem :=
  Arena (vm_name a) (vm_base a) (vm_size a) (vm_quantum a) 0 (vm_allocfn a) (vm_freefn a)
    (vm_source a) (segqueue a) (freelist a) (hashtab a) (spanlist a).

Definition vm_kernel_init (static_segs : Z) : M kstate unit :=
  vmem_earlyinit static_segs;;
  vmem_init kmap_vmem "kernel-va" KHEAP_BASE KHEAP_SIZE PGSIZE 0 0 0 kVMemBootstrap;;
  vmem_init vm_kernel_wired "kernel-wired" 0 0 PGSIZE fn_allocwired fn_freewired kmap_vmem
    kVMemBootstrap;;
  modify_arena kmap_vmem clear_flags;;
  modify_arena vm_kernel_wired clear_flags.
End kernel.
