(* ===== verification/VmKernelProps.v ===== *)
(** * The kernel's virtual address space, verified

    How the two arenas of vm/vm_kernel.c work together with the page allocator
    and the page tables: start-up, and [vm_kalloc] with an import. *)

From S2P Require Import Prelude Vmem VmemInv VmemSpan VmemProps VmPage Pmap PmapProps PmapKernel.
From S2P Require Import VmKernel.
Open Scope Z_scope.

(** ** Wiring pages *)

Lemma on_pages_run {A} (m : M pstate A) vs ps a ps' :
  m ps = Ok (a, ps') → on_pages m (vs, ps) = Ok (a, (vs, ps')).
Proof. unfold on_pages. simpl. by intros ->. Qed.

Lemma vpage_eq v w : 0 ≤ v → 0 ≤ w → vpage v = vpage w → (v / 4096) mod 2^36 = (w / 4096) mod 2^36.
Proof.
  intros Hv Hw. unfold vpage, path3, pml4i, pdpti, pdi, pti. intros [= H1 H2 H3 H4].
  change 0x1FF with (Z.ones 9) in *. rewrite !Z.land_ones, !Z.shiftr_div_pow2 in * by lia.
  Z.div_mod_to_equations. lia.
Qed.

Lemma vpage_ne addr i j :
  0 ≤ addr → addr mod 4096 = 0 → 0 ≤ i < 2^36 → 0 ≤ j < 2^36 → i ≠ j →
  vpage (addr + PGSIZE * i) ≠ vpage (addr + PGSIZE * j).
Proof.
  intros Ha Hm Hi Hj Hne E. unfold PGSIZE in E. apply vpage_eq in E; [|lia..].
  replace ((addr + 4096 * i) / 4096) with (addr / 4096 + i) in E
    by (Z.div_mod_to_equations; lia).
  replace ((addr + 4096 * j) / 4096) with (addr / 4096 + j) in E
    by (Z.div_mod_to_equations; lia).
  Z.div_mod_to_equations. lia.
Qed.

Lemma pgi_aligned addr i : addr mod 4096 = 0 → pgi (addr + PGSIZE * i) = 0.
Proof.
  intros H. unfold pgi, PGSIZE. change 0xFFF with (Z.ones 12). rewrite Z.land_ones by lia.
  change (2^12) with 4096. by rewrite Z.mul_comm, Z.mod_add.
Qed.

Lemma free_cons (s : pstate) n :
  (S n ≤ length (pq_list (queues s pgfreeq)))%nat →
  ∃ page rest, pq_list (queues s pgfreeq) = page :: rest ∧ (n ≤ length rest)%nat.
Proof. destruct (pq_list _) as [|page rest]; simpl; intros; [lia|]. exists page, rest. split; [done|lia]. Qed.

Section wire.
Context (kpml4 : Z).

(** [pages] back the range from [addr] on: what wiring them has done. *)
Record wired_range (ps ps' : pstate) (addr : Z) (pages : list Z) : Prop := {
  wr_ok : pt_ok kpml4 ps';
  wr_keeps : keeps kpml4 ps ps';
  wr_left : (length (pq_list (queues ps pgfreeq)) ≤
    4 * length pages + length (pq_list (queues ps' pgfreeq)))%nat;
  wr_nodup : NoDup pages;
  wr_new page : page ∈ pages → page_addr page ∧ on_queue ps pgfreeq page ∧ on_queue ps' pgkmemq page ∧
    ∀ a, inside page a → untouched kpml4 ps' a;
  wr_map i page : pages !! i = Some page → translate (phys ps') kpml4 (addr + PGSIZE * Z.of_nat i) = page;
  wr_queues r x : r ≠ pgfreeq → on_queue ps r x → on_queue ps' r x;
  wr_other w : (∀ i, 0 ≤ i < Z.of_nat (length pages) → vpage w ≠ vpage (addr + PGSIZE * i)) →
    translate (phys ps') kpml4 w = translate (phys ps) kpml4 w;
}.

Lemma wire_page_run vs ps addr sleep i :
  pt_ok kpml4 ps → (4 ≤ length (pq_list (queues ps pgfreeq)))%nat → addr mod 4096 = 0 →
  ∃ page ps', wire_page kpml4 addr sleep (PGSIZE * i) (vs, ps) = Ok ((), (vs, ps')) ∧
    wired_range ps ps' (addr + PGSIZE * i) [page].
Proof.
  intros Hok Hlen Hal.
  destruct (free_cons ps 3 Hlen) as (page & rest & Hl & Hrest).
  assert (on_queue ps pgfreeq page) as Hpf by (unfold on_queue; rewrite Hl; left).
  pose proof (pt_free _ _ Hok _ Hpf) as Hpa.
  destruct (pagealloc_tables kpml4 ps sleep pgkmemq page rest Hok ltac:(done) Hl)
    as (p1 & Hrun1 & Hok1 & Hk1 & Hr1 & Hm1 & Hke1 & Hnew & _ & _ & Ht1).
  destruct (enter_run kpml4 p1 page (addr + PGSIZE * i) kVMAll Hok1 ltac:(rewrite Hr1; lia) Hpa)
    as (t & p2 & Hrun2 & Hok2 & Ht & He & _ & Hm2 & Hlen2 & Hke2 & Htr).
  exists page, p2. split.
  { unfold wire_page. rewrite (bind_step _ _ _ _ _ (on_pages_run _ vs _ _ _ Hrun1)).
    by apply on_pages_run. }
  split.
  - done.
  - by eapply keeps_trans.
  - rewrite Hl. rewrite Hr1 in Hlen2. simpl. lia.
  - apply NoDup_singleton.
  - intros x ->%list_elem_of_singleton. split_and!; [done|done|by apply Hm2|].
    intros a Ha. by apply Hke2, Hnew.
  - intros [|] x; [intros [= <-]|done]. rewrite Z.mul_0_r, Z.add_0_r. unfold translate. rewrite Ht, He.
    change kMMUPresent with (2^0). rewrite has_flag_value by lia.
    rewrite pte_get_addr_value; [|done|apply prot_range]. rewrite pgi_aligned by done. simpl. lia.
  - intros r x Hr Hx. apply Hm2; [done|]. by apply Hm1.
  - intros w Hw. rewrite <-Ht1. apply translate_same, Htr. specialize (Hw 0 ltac:(simpl; lia)).
    by rewrite Z.mul_0_r, Z.add_0_r in Hw.
Qed.

(** Wiring a page, then the pages behind it. *)
Lemma wired_range_cons ps p1 p2 addr page pages :
  pt_ok kpml4 ps → 0 ≤ addr → addr mod 4096 = 0 → Z.of_nat (length pages) < 2^36 →
  wired_range ps p1 addr [page] → wired_range p1 p2 (addr + PGSIZE) pages →
  wired_range ps p2 addr (page :: pages).
Proof.
  intros Hok Ha Hal Hn [Hok1 K1 L1 _ N1 M1 Q1 O1] [Hok2 K2 L2 ND N2 M2 Q2 O2].
  destruct (N1 page ltac:(left)) as (Hpa & Hpf & Hpk & Hun).
  assert (∀ j, vpage addr = vpage (addr + PGSIZE + PGSIZE * j) → ¬ (0 ≤ j < Z.of_nat (length pages))) as Hne.
  { intros j E Hj. apply (vpage_ne addr 0 (1 + j)); [done|done|lia..|].
    rewrite Z.mul_0_r, Z.add_0_r, E. f_equal. lia. }
  split.
  - done.
  - by eapply keeps_trans.
  - simpl in *. lia.
  - apply NoDup_cons. split; [|done]. intros Hin. destruct (N2 _ Hin) as (_ & Hf & _).
    by pose proof (qo_disj _ (pt_queues _ _ Hok1) _ _ _ Hf Hpk).
  - intros x [->|Hx]%elem_of_cons.
    + split_and!; [done|done|by apply Q2|]. intros a Hx. by apply K2, Hun.
    + destruct (N2 x Hx) as (? & Hf & ? & ?). split_and!; try done. by apply K1.
  - intros [|i] x; simpl.
    + intros [= <-]. rewrite O2; [by apply (M1 0%nat)|]. rewrite Z.mul_0_r, Z.add_0_r.
      intros j Hj E. by apply (Hne j).
    + intros Hx. rewrite <-(M2 i x Hx). f_equal. unfold PGSIZE. lia.
  - auto.
  - intros w Hw. simpl in Hw. rewrite O2, O1; [done| |].
    + intros i Hi. apply Hw. simpl in Hi. lia.
    + intros i Hi E. apply (Hw (1 + i)); [lia|]. rewrite E. f_equal. unfold PGSIZE. lia.
Qed.

(** The loop of [internal_allocwired], from page [k]. *)
Lemma wire_pages_run vs ps addr sleep n k :
  pt_ok kpml4 ps → (4 * n ≤ length (pq_list (queues ps pgfreeq)))%nat →
  0 ≤ addr → addr mod 4096 = 0 → 0 ≤ k → k + Z.of_nat n ≤ 2^36 →
  ∃ pages ps', mfor ((λ j, PGSIZE * j) <$> seqZ k (Z.of_nat n)) (wire_page kpml4 addr sleep) (vs, ps)
      = Ok ((), (vs, ps')) ∧ length pages = n ∧ wired_range ps ps' (addr + PGSIZE * k) pages.
Proof.
  revert k ps. induction n as [|n IH]; intros k ps Hok Hlen Ha Hal Hk Hn.
  { exists [], ps. split; [done|]. split; [done|]. split; try done; [apply NoDup_nil_2|].
    intros x []%elem_of_nil. }
  destruct (wire_page_run vs ps addr sleep k Hok ltac:(lia) Hal) as (page & p1 & Hrun & W1). pose proof (wr_left _ _ _ _ W1) as Hl1. simpl in Hl1.
  destruct (IH (k + 1) p1 (wr_ok _ _ _ _ W1) ltac:(lia) Ha Hal ltac:(lia) ltac:(lia))
    as (pages & p2 & Hrun2 & Hlp & W2).
  exists (page :: pages), p2. rewrite seqZ_cons by lia.
  replace (Z.pred (Z.of_nat (S n))) with (Z.of_nat n) by lia.
  replace (Z.succ k) with (k + 1) by lia. csimpl. split; [by rewrite (bind_step _ _ _ _ _ Hrun)|].
  split; [lia|].
  apply (wired_range_cons ps p1 p2); [done|unfold PGSIZE; lia| |lia|done|].
  - unfold PGSIZE. by rewrite Z.mul_comm, Z.mod_add.
  - replace (addr + PGSIZE * k + PGSIZE) with (addr + PGSIZE * (k + 1)) by lia. done.
Qed.
End wire.

(** ** [vm_kalloc] *)

Lemma kalloc_flags_boot wait : has_flag (kalloc_flags wait) kVMemBootstrap = has_flag wait 2.
Proof. unfold kalloc_flags. by destruct (has_flag wait 1), (has_flag wait 2). Qed.
Lemma kalloc_flags_exact wait : has_flag (kalloc_flags wait) kVMemExact = false.
Proof. unfold kalloc_flags. by destruct (has_flag wait 1), (has_flag wait 2). Qed.

Lemma search_at_base size flags a s addr :
  arena_ok a → no_wrap size 0 a → (∀ t, t ∈ segqueue a → 0 < seg_base t) →
  search size 0 flags a = Some (s, addr) →
  s ∈ segqueue a ∧ addr = seg_base s ∧ addr + size ≤ seg_end s ∧ is_span s = false.
Proof.
  intros Hok Hw Hpos Hs. destruct (search_sound _ _ _ _ _ _ Hok Hw Hs) as (Hin & Hf & Hb & He & _).
  apply search_freelists_Some in Hs as (j & _ & Hs & Hfit).
  destruct (fit_addr_sound _ _ _ _ _ _ Hok Hw Hin Hfit) as (_ & _ & [->|(-> & _)]).
  - specialize (Hpos s Hin). lia.
  - split_and!; try done. by apply free_not_span.
Qed.

(** The arena lies in the kernel heap, on page boundaries. *)
Definition heap_arena (a : vmem) : Prop :=
  (∀ m, m ∈ markers a → KHEAP_BASE ≤ seg_base m ∧ seg_end m ≤ KHEAP_BASE + KHEAP_SIZE) ∧
  (∀ t, t ∈ segqueue a → seg_base t mod PGSIZE = 0).

Lemma heap_bounds a t :
  arena_ok a → heap_arena a → t ∈ segqueue a →
  KHEAP_BASE ≤ seg_base t ∧ seg_end t ≤ KHEAP_BASE + KHEAP_SIZE.
Proof.
  intros Hok [Hm _] Ht. destruct (is_span t) eqn:Es.
  - apply Hm. unfold markers. by apply list_elem_of_filter.
  - destruct (layout_inside 0 0 _ t (ao_layout _ Hok) Ht Es) as [Hz|(p & Hp & Hsp & ?)].
    + pose proof (layout_pos _ _ _ _ (ao_layout _ Hok) Ht). unfold seg_end in *. lia.
    + destruct (Hm p); [unfold markers; by apply list_elem_of_filter|]. lia.
Qed.

Lemma ordpairs_disjoint_cons (e : Z * Z) l f :
  ForallOrdPairs disjoint_ext (e :: l) → f ∈ l → disjoint_ext e f.
Proof.
  inversion 1 as [|? ? Hall _]; subst. rewrite List.Forall_forall in Hall.
  intros Hf. by apply Hall, list_elem_of_In.
Qed.

Lemma disjoint_ext_sym e f : disjoint_ext e f → disjoint_ext f e.
Proof. unfold disjoint_ext. tauto. Qed.

Lemma ordpairs_disjoint_proper l1 l2 : l1 ≡ₚ l2 → ForallOrdPairs disjoint_ext l1 → ForallOrdPairs disjoint_ext l2.
Proof.
  induction 1 as [|x l1 l2 HP IH|x y l1|l1 l2 l3 _ IH1 _ IH2]; [done| | |auto].
  - inversion 1 as [|? ? Hall Ho]; subst. constructor; [|auto].
    rewrite List.Forall_forall in *. intros z Hz. apply Hall.
    apply list_elem_of_In. rewrite HP. by apply list_elem_of_In.
  - inversion 1 as [|? ? Hy Ho]; subst. inversion Ho as [|? ? Hx Ho']; subst.
    inversion Hy; subst. constructor; [constructor; [by apply disjoint_ext_sym|done]|].
    by constructor.
Qed.
Lemma ordpairs_disjoint_perm l e l' f :
  ForallOrdPairs disjoint_ext l → l ≡ₚ e :: l' → f ∈ l' → disjoint_ext e f.
Proof. intros H HP. by apply ordpairs_disjoint_cons, (ordpairs_disjoint_proper _ _ HP). Qed.

Lemma int_offsets_run n st : n ≤ 2^31 - PGSIZE → int_offsets n st = Ok ((), st).
Proof.
  intros Hn. unfold int_offsets. rewrite (proj2 (Z.leb_gt _ _)); [done|].
  unfold PGSIZE in *. Z.div_mod_to_equations. lia.
Qed.

Section kalloc.
Context (kpml4 : Z).

(** What [internal_allocwired] does, given what the kernel-map allocation does. *)
Lemma allocwired_run refill L vs ps a s size flags :
  sys_inv (λ _, arena_ok) L vs → pt_ok kpml4 ps → arenas vs !! kmap_vmem = Some a → heap_arena a →
  no_refill flags vs → (2 ≤ length (free_segs vs))%nat → has_flag flags kVMemExact = false →
  0 < size < 2^31 → size mod PGSIZE = 0 →
  s ∈ segqueue a → can_serve size 0 flags s →
  (4 * Z.to_nat (size / PGSIZE) ≤ length (pq_list (queues ps pgfreeq)))%nat →
  ∃ addr vs' ps' pages,
    internal_allocwired kpml4 refill kmap_vmem size flags (vs, ps) = Ok ((0, addr), (vs', ps')) ∧
    sys_inv (λ _, arena_ok) L vs' ∧ allocated kmap_vmem size 0 addr vs vs' ∧
    KHEAP_BASE ≤ addr ∧ addr + size ≤ KHEAP_BASE + KHEAP_SIZE ∧ addr mod PGSIZE = 0 ∧
    length pages = Z.to_nat (size / PGSIZE) ∧ wired_range kpml4 ps ps' addr pages.
Proof.
  intros Hs Hpt Ha Hheap Hr Hlen Hex Hsz Hmod Hin Hc Hpages.
  pose proof (so_arena _ _ _ Hs _ _ Ha) as Hok. simpl in Hok.
  assert (∀ t, t ∈ segqueue a → KHEAP_BASE ≤ seg_base t ∧ seg_end t ≤ KHEAP_BASE + KHEAP_SIZE)
    as Hb by (intros t; by apply heap_bounds).
  unfold KHEAP_BASE, KHEAP_SIZE in *.
  assert (no_wrap size 0 a) as Hw.
  { split_and!; try lia. intros t Ht. destruct (Hb t Ht).
    pose proof (layout_pos _ _ _ _ (ao_layout _ Hok) Ht). unfold seg_end in *. lia. }
  destruct (search_complete _ _ _ _ _ Hok Hw Hin Hc) as [[t addr] Es].
  destruct (search_at_base _ _ _ _ _ Hok Hw ltac:(intros u Hu; destruct (Hb u Hu); lia) Es)
    as (Ht & -> & He & _).
  destruct (xalloc_found refill no_allocfn no_freefn (λ _, arena_ok) L kmap_vmem size 0 flags vs ps
    a t (seg_base t)) as (vs' & Hrun & Hs' & Hall); try done.
  { split; [lia|by left]. }
  destruct (Hb t Ht) as [Hlo Hhi]. pose proof (proj2 Hheap t Ht) as Hal.
  destruct (wire_pages_run kpml4 vs' ps (seg_base t) (has_flag flags kVMemSleep)
    (Z.to_nat (size / PGSIZE)) 0 Hpt Hpages) as (pages & ps' & Hloop & Hlp & W).
  { lia. } { exact Hal. } { lia. }
  { unfold PGSIZE. assert (size / 4096 ≤ 2^31) by (apply Z.div_le_upper_bound; lia). lia. }
  exists (seg_base t), vs', ps', pages. split.
  - unfold internal_allocwired. rewrite Z.eqb_refl, massert_bind.
    rewrite (bind_step _ _ _ _ _ Hrun). lazy beta iota. change (0 <? 0) with false. lazy iota.
    rewrite deref_bind. rewrite (bind_step _ _ _ _ _ (int_offsets_run (size - 1) (vs', ps) ltac:(unfold PGSIZE in *; Z.div_mod_to_equations; lia))).
    assert (page_offsets (size - 1) =
            (λ k, PGSIZE * k) <$> seqZ 0 (Z.of_nat (Z.to_nat (size / PGSIZE)))) as ->.
    { unfold page_offsets. do 2 f_equal. unfold PGSIZE in *.
      rewrite Z2Nat.id by (apply Z.div_pos; lia). Z.div_mod_to_equations. lia. }
    by rewrite (bind_step _ _ _ _ _ Hloop).
  - rewrite Z.mul_0_r, Z.add_0_r in W. split_and!; try done; unfold seg_end in *; lia.
Qed.
End kalloc.

(** A range just allocated in the kernel map meets no span of [vm_kernel_wired]. *)
Lemma new_span_disjoint a a' b addr size :
  arena_ok a' → (∀ f, f ∈ spans b → f ∈ live a) → live a' ≡ₚ (addr, size) :: live a →
  span_disjoint addr size b.
Proof.
  intros Hok Hsub Hlive m Hm Hsp.
  assert (extent m ∈ live a) as Hml.
  { apply Hsub. unfold spans, markers. apply list_elem_of_fmap. exists m. split; [done|].
    by apply list_elem_of_filter. }
  pose proof (ordpairs_disjoint_perm _ _ _ _ (live_disjoint a' Hok) Hlive Hml) as Hd.
  unfold disjoint_ext, extent, seg_end in *. simpl in Hd. lia.
Qed.

(** When a request has to be served by an import, and can be. *)
Record import_ready (npages wait : Z) (vs : vstate) (ps : pstate) (a b : vmem) (s : vmem_seg) : Prop := {
  ir_kmap : arenas vs !! kmap_vmem = Some a;
  ir_wired : arenas vs !! vm_kernel_wired = Some b;
  ir_fn : vm_allocfn b = fn_allocwired;
  ir_source : vm_source b = kmap_vmem;
  ir_heap : heap_arena a;
  ir_spans : ∀ f, f ∈ spans b → f ∈ live a;
  ir_npages : 0 < npages < 2^19;
  ir_tags : has_flag wait 2 = true ∨ 130 ≤ nfreesegs vs;
  ir_pool : (6 ≤ length (free_segs vs))%nat;
  ir_search : search (npages * PGSIZE) 0 (kalloc_flags wait) b = None;
  ir_in : s ∈ segqueue a;
  ir_serve : can_serve (npages * PGSIZE) 0 (kalloc_flags wait) s;
  ir_pages : (4 * Z.to_nat npages ≤ length (pq_list (queues ps pgfreeq)))%nat;
}.

Section kalloc_top.
Context (kpml4 : Z).

(** What [vm_kalloc] by an import does. *)
Record kalloc_done (npages : Z) (vs vs' : vstate) (ps ps' : pstate) (a b a' b' : vmem)
    (addr : Z) (pages : list Z) : Prop := {
  kd_sys : sys_ok vs';
  kd_kmap : arenas vs' !! kmap_vmem = Some a';
  kd_wired : arenas vs' !! vm_kernel_wired = Some b';
  kd_live_a : live a' ≡ₚ (addr, npages * PGSIZE) :: live a;
  kd_live_b : live b' ≡ₚ (addr, npages * PGSIZE) :: live b;
  kd_spans_a : markers a' = markers a;
  kd_spans_b : spans b' ≡ₚ (addr, npages * PGSIZE) :: spans b;
  kd_imports m : m ∈ markers b' → m ∈ markers b ∨ seg_ty m = kVMemSegSpanImported;
  kd_free : sum_sizes (free_space b') = sum_sizes (free_space b);
  kd_header : header b' = header b;
  kd_tags t : tag vs' t ↔ tag vs t;
  kd_pool : (length (free_segs vs) ≤ 6 + length (free_segs vs'))%nat;
  kd_room : room_left 0 addr (npages * PGSIZE) a a';
  kd_bases : bases_from [addr; addr + npages * PGSIZE] a a';
  kd_range : KHEAP_BASE ≤ addr ∧ addr + npages * PGSIZE ≤ KHEAP_BASE + KHEAP_SIZE ∧ addr mod PGSIZE = 0;
  kd_npages : length pages = Z.to_nat npages;
  kd_pages : wired_range kpml4 ps ps' addr pages;
}.

Lemma kalloc_run refill npages wait vs ps a b s :
  sys_ok vs → pt_ok kpml4 ps → import_ready npages wait vs ps a b s →
  ∃ addr vs' ps' pages a' b',
    vm_kalloc_with kpml4 refill npages wait (vs, ps) = Ok (addr, (vs', ps')) ∧
    kalloc_done npages vs vs' ps ps' a b a' b' addr pages.
Proof.
  intros Hs Hpt [Ha Hb Hfn Hsrc Hheap Hsub Hn Hw Hlen Hsearch Hin Hc Hpages].
  set (size := npages * PGSIZE) in *. set (flags := kalloc_flags wait) in *.
  assert (0 < size < 2^31 ∧ size / PGSIZE = npages ∧ size mod PGSIZE = 0) as (Hsz & Ediv & Hmod).
  { unfold size, PGSIZE. split_and!; [lia|lia|by apply Z.div_mul|by apply Z.mod_mul]. }
  destruct (free_segs vs) as [|l [|r pool]] eqn:Hp; simpl in Hlen; [lia..|].
  pose proof (sys_inv_take2 _ _ _ _ _ _ Hs Hp) as Hs1.
  set (vs1 := VState (arenas vs) pool (nfreesegs vs - 1 - 1)) in *.
  assert (no_refill flags vs ∧ no_refill flags vs1) as [Hnr Hnr1].
  { unfold no_refill, flags. rewrite kalloc_flags_boot. simpl. destruct Hw; [tauto|]. split; right; lia. }
  destruct (allocwired_run kpml4 refill [l; r] vs1 ps a s size flags)
    as (addr & vs2 & ps2 & pages & Hrun & Hs2 & (a0 & a' & Ha0 & Hv & Hlive & Hmk & Hhd & _ & _ & Hcnt & Hbs & Htag2 & Hroom) &
        Hlo & Hhi & Hal & Hlp & W); try done.
  { simpl. lia. } { apply kalloc_flags_exact. } { by rewrite Ediv. }
  simpl in Ha0. rewrite Ha in Ha0. simplify_eq.
  assert (arenas vs2 !! kmap_vmem = Some a') as Ha2 by (rewrite Hv; apply lookup_insert_eq).
  assert (arenas vs2 !! vm_kernel_wired = Some b) as Hb2 by (rewrite Hv, lookup_insert_ne; done).
  pose proof (new_span_disjoint _ _ b _ _ (so_arena _ _ _ Hs2 _ _ Ha2) Hsub Hlive) as Hdis.
  simpl in Hcnt. destruct (free_segs vs2) as [|ns [|nf pool2]] eqn:Hp2; simpl in Hcnt; [lia..|].
  assert (0 ≤ addr ∧ addr + size < 2^64) as [??] by (unfold KHEAP_BASE, KHEAP_SIZE in *; lia).
  destruct (xalloc_import refill (kernel_alloc kpml4 refill)
    (kernel_free kpml4) (λ _, arena_ok) [] vm_kernel_wired size flags vs ps b l r pool addr vs2 ps2
    ns nf pool2) as (vs3 & b' & Hrun3 & Hs3 & Hv3 & Hhd3 & Hl3 & Hsp3 & Hfr3 & Hm3 & Htag3 & Hpool3); try done.
  { split; [lia|by left]. } { by rewrite Hfn. } { rewrite Hfn, Hsrc. exact Hrun. }
  exists addr, vs3, ps2, pages, a', b'. split; [|split; try done].
  - unfold vm_kalloc_with. fold flags. rewrite w64_small by (fold size; lia). fold size.
    by rewrite (bind_step _ _ _ _ _ Hrun3).
  - by rewrite Hv3, lookup_insert_ne.
  - by rewrite Hv3, lookup_insert_eq.
  - intros t. rewrite Htag3, Htag2. unfold tag, vs1. simpl. rewrite Hp, !elem_of_cons. tauto.
  - rewrite Hp2 in Hpool3. rewrite Hp. simpl in *. lia.
  - by rewrite Hlp, Ediv.
Qed.

(** C14: [vm_kalloc] of [npages] pages, fewer than 2^19 (at 2 GiB the loop's [int]
    overflows), that [vm_kernel_wired] has no free segment
    for: it allocates the range in the kernel map, backs every page of it with
    a page frame of its own, adds the range to [vm_kernel_wired] as an imported
    span and hands it out.  Afterwards both arenas are sound, the spans of the
    one are still allocations of the other, and [pmap_trans] takes each page of
    the range to its frame. *)
Theorem vm_kalloc_correct npages wait vs ps a b s :
  sys_ok vs → pt_ok kpml4 ps →
  arenas vs !! kmap_vmem = Some a → arenas vs !! vm_kernel_wired = Some b →
  vm_allocfn b = fn_allocwired → vm_source b = kmap_vmem → heap_arena a →
  (∀ f, f ∈ spans b → f ∈ live a) →
  0 < npages < 2^19 → has_flag wait 2 = true ∨ 130 ≤ nfreesegs vs →
  (6 ≤ length (free_segs vs))%nat →
  search (npages * PGSIZE) 0 (kalloc_flags wait) b = None →
  s ∈ segqueue a → can_serve (npages * PGSIZE) 0 (kalloc_flags wait) s →
  (4 * Z.to_nat npages ≤ length (pq_list (queues ps pgfreeq)))%nat →
  ∃ addr vs' ps' pages a' b',
    vm_kalloc kpml4 npages wait (vs, ps) = Ok (addr, (vs', ps')) ∧
    sys_ok vs' ∧ pt_ok kpml4 ps' ∧
    arenas vs' !! kmap_vmem = Some a' ∧ arenas vs' !! vm_kernel_wired = Some b' ∧
    live a' ≡ₚ (addr, npages * PGSIZE) :: live a ∧
    live b' ≡ₚ (addr, npages * PGSIZE) :: live b ∧ (∀ f, f ∈ spans b' → f ∈ live a') ∧
    KHEAP_BASE ≤ addr ∧ addr + npages * PGSIZE ≤ KHEAP_BASE + KHEAP_SIZE ∧
    length pages = Z.to_nat npages ∧ NoDup pages ∧
    ∀ i page, pages !! i = Some page →
      pmap_trans kpml4 (addr + PGSIZE * Z.of_nat i) ps' = Ok (page, ps').
Proof.
  intros Hs Hpt Ha Hb Hfn Hsrc Hheap Hsub Hn Hw Hlen Hsearch Hin Hc Hpages.
  destruct (kalloc_run (vm_kalloc_refill kpml4) npages wait vs ps a b s Hs Hpt) as (addr & vs' & ps' & pages & a' & b' & Hrun & [? ? ? Hla ? ? Hsp ? ? ? ? ? ? ? [? [? ?]] ? W]);
    [by split|].
  pose proof (wr_ok _ _ _ _ _ W) as Hpt'.
  exists addr, vs', ps', pages, a', b'. split_and!; try done.
  - intros f. rewrite Hsp, Hla, !elem_of_cons. naive_solver.
  - apply W.
  - intros i page Hi. rewrite trans_run by done. by rewrite (wr_map _ _ _ _ _ W i page Hi).
Qed.

End kalloc_top.

(** ** Start-up *)

Lemma clear_flags_ok a : arena_ok a → arena_ok (clear_flags a).
Proof. intros [? ? ? ? ? ? ?]. by split. Qed.

Lemma seg_free_all {X} (l fs : list Z) m n (x : X) :
  mfor l seg_free (VState m fs n, x) =
    Ok ((), (VState m (reverse l ++ fs) (n + Z.of_nat (length l)), x)).
Proof.
  revert fs n. induction l as [|i l IH]; intros fs n; simpl.
  - by rewrite Z.add_0_r.
  - rewrite (bind_step _ _ _ () (VState m (i :: fs) (n + 1), x)) by done.
    rewrite IH, reverse_cons, <-app_assoc.
    by replace (n + 1 + Z.of_nat (length l)) with (n + Z.of_nat (S (length l))) by lia.
Qed.

Lemma static_tags_NoDup p : NoDup ((λ i, p + 56 * i) <$> seqZ 0 128).
Proof.
  assert (Inj (=) (=) (λ i, p + 56 * i)) by (intros i j ?; lia).
  apply (NoDup_fmap_2 _), NoDup_seqZ.
Qed.

Lemma sys_inv_flags vs v a :
  sys_ok vs → arenas vs !! v = Some a →
  sys_ok (VState (<[v := clear_flags a]> (arenas vs)) (free_segs vs) (nfreesegs vs)).
Proof.
  intros Hs Ha. pose proof (so_arena _ _ _ Hs _ _ Ha) as Hok. simpl in Hok.
  eapply sys_inv_update; [done|done|by apply clear_flags_ok|by eapply pool_nodup|apply Hs|..].
  - auto.
  - intros t Ht. right. by apply list_elem_of_fmap_2.
  - intros t Ht Hin. eapply pool_fresh; [done..|]. by apply list_elem_of_fmap_2.
Qed.

(** The static tags, before the first arena is made. *)
Lemma static_pool static_segs :
  let tags := (λ i, static_segs + 56 * i) <$> seqZ 0 128 in
  ∃ ns nf pool, reverse tags ++ [] = ns :: nf :: pool ∧ sys_ok (VState ∅ (reverse tags ++ []) (0 + Z.of_nat (length tags))).
Proof.
  intros tags. destruct (reverse tags ++ []) as [|ns [|nf pool]] eqn:E;
    [apply (f_equal length) in E; rewrite length_app, length_reverse in E; done..|].
  exists ns, nf, pool. split; [done|]. rewrite <-E. split; try done.
  change (NoDup (reverse tags ++ [])). rewrite app_nil_r. pose proof (static_tags_NoDup static_segs) as ND. fold tags in ND.
  by rewrite <-(reverse_Permutation tags) in ND.
Qed.

(** [vm_kernel_init] on empty state leaves both arenas sound: the kernel map is
    one free span, the kernel heap, on page boundaries and without allocations;
    [vm_kernel_wired] is empty and set up to import from it; 126 of the 128 static
    tags are left. *)
Theorem vm_kernel_init_correct static_segs (ps : pstate) :
  ∃ vs a b, vm_kernel_init static_segs (VState ∅ [] 0, ps) = Ok ((), (vs, ps)) ∧
    sys_ok vs ∧ arenas vs !! kmap_vmem = Some a ∧ arenas vs !! vm_kernel_wired = Some b ∧
    heap_arena a ∧ spans a = [(KHEAP_BASE, KHEAP_SIZE)] ∧ free_space a = spans a ∧ live a = [] ∧
    segqueue b = [] ∧ vm_allocfn b = fn_allocwired ∧ vm_freefn b = fn_freewired ∧
    vm_source b = kmap_vmem ∧ nfreesegs vs = 126 ∧ (∀ m, m ∈ markers a → seg_ty m = kVMemSegSpan) ∧
    ∀ t, tag vs t → static_segs ≤ t < static_segs + 56 * 128.
Proof.
  set (tags := (λ i, static_segs + 56 * i) <$> seqZ 0 128).
  destruct (static_pool static_segs) as (ns & nf & pool & Hp & Hs0). fold tags in Hp, Hs0.
  set (vs0 := VState ∅ (reverse tags ++ []) (0 + Z.of_nat (length tags))) in *.
  destruct (init_run kmap_vmem "kernel-va" KHEAP_BASE KHEAP_SIZE PGSIZE 0 0 kVMemBootstrap
    vs0 ps ns nf pool) as (vs1 & a & Hrun1 & Hs1 & Hv1 & _ & Hfa & Hpool & Hn & Q & Hsp & Hfr & Hlv);
    try done.
  { vm_compute. lia. }
  set (b := empty_arena "kernel-wired" 0 0 PGSIZE fn_allocwired fn_freewired kmap_vmem kVMemBootstrap).
  set (vs2 := VState (<[vm_kernel_wired := b]> (arenas vs1)) (free_segs vs1) (nfreesegs vs1)).
  assert (arenas vs1 !! kmap_vmem = Some a ∧ arenas vs1 !! vm_kernel_wired = None) as [E1 E2]
    by (rewrite Hv1; done).
  assert (sys_ok vs2) as Hs2 by (apply sys_inv_new; [done..|apply empty_arena_ok]).
  assert (arenas vs2 !! kmap_vmem = Some a) as E3 by (simpl; by rewrite lookup_insert_ne).
  set (vs3 := VState (<[kmap_vmem := clear_flags a]> (arenas vs2)) (free_segs vs2) (nfreesegs vs2)).
  assert (arenas vs3 !! vm_kernel_wired = Some b) as E4
    by (simpl; rewrite lookup_insert_ne, lookup_insert_eq; done).
  set (vs4 := VState (<[vm_kernel_wired := clear_flags b]> (arenas vs3)) (free_segs vs3) (nfreesegs vs3)).
  exists vs4, (clear_flags a), (clear_flags b). split.
  { unfold vm_kernel_init. rewrite (bind_step _ _ _ _ _ (seg_free_all tags [] ∅ 0 ps)).
    rewrite (bind_step _ _ _ _ _ Hrun1).
    rewrite (bind_step _ _ (vs1, ps) () (vs2, ps)) by done.
    rewrite (bind_step _ _ _ _ _ (modify_arena_ok vs2 ps _ _ clear_flags E3)).
    apply (modify_arena_ok vs3 ps _ _ clear_flags E4). }
  pose proof (so_arena _ _ _ Hs1 _ _ E1) as Hoka. simpl in Hoka.
  assert (sys_ok vs3) as Hs3.
  { eapply sys_inv_flags; [exact Hs2|exact E3]. }
  split; [eapply sys_inv_flags; [exact Hs3|exact E4]|]. split_and!; try done.
  - simpl. by rewrite lookup_insert_ne, lookup_insert_eq.
  - simpl. by rewrite lookup_insert_eq.
  - split.
    + intros m. unfold markers. simpl. rewrite Q. simpl. intros [->|[]%elem_of_nil]%elem_of_cons.
      unfold seg_end. simpl. lia.
    + intros t. simpl. rewrite Q. by intros [->|[->|[]%elem_of_nil]%elem_of_cons]%elem_of_cons.
  - unfold free_space, spans, markers, of_type. simpl. by rewrite Q.
  - intros m. unfold markers. simpl. rewrite Q. simpl. by intros [->|[]%elem_of_nil]%elem_of_cons.
  - intros t Ht. assert (t ∈ tags) as Hin.
    { rewrite <-(reverse_Permutation tags). rewrite <-(app_nil_r (reverse tags)), Hp.
      destruct Ht as [Ht|(v & c & Hc & Ht)]; simpl in *; [rewrite Hpool in Ht; set_solver|].
      rewrite !lookup_insert_Some in Hc. destruct Hc as [[_ <-]|[_ [[_ <-]|[_ [[_ <-]|[_ Hc]]]]]].
      - by apply elem_of_nil in Ht.
      - simpl in Ht. rewrite Q in Ht. csimpl in Ht. set_solver.
      - by apply elem_of_nil in Ht.
      - rewrite Hv1 in Hc. apply lookup_insert_Some in Hc as [[_ <-]|[_ Hc]]; [|done].
        rewrite Q in Ht. csimpl in Ht. set_solver. }
    apply list_elem_of_fmap in Hin as (i & -> & Hi%elem_of_seqZ). lia.
Qed.

(** ** The properties at a small kernel *)

Definition small_kmap : vmem :=
  insert_span None (Seg 100 kVMemSegSpan KHEAP_BASE KHEAP_SIZE)
    (Seg 101 kVMemSegFree KHEAP_BASE KHEAP_SIZE)
    (empty_arena "kernel-va" KHEAP_BASE KHEAP_SIZE PGSIZE 0 0 0 0).
Definition small_wired : vmem :=
  empty_arena "kernel-wired" 0 0 PGSIZE fn_allocwired fn_freewired kmap_vmem 0.
Definition small_kernel : vstate :=
  VState {[ kmap_vmem := small_kmap; vm_kernel_wired := small_wired ]} [1; 2; 3; 4; 5; 6; 7; 8] 8.

Lemma small_kernel_ok : sys_ok small_kernel.
Proof.
  split; try done.
  - by apply (bool_decide_unpack _).
  - intros v a. simpl. rewrite lookup_insert_Some. intros [[<- <-]|[_ [<- <-]%lookup_singleton_Some]].
    + apply (insert_span_ok (empty_arena "kernel-va" KHEAP_BASE KHEAP_SIZE PGSIZE 0 0 0 0)
        100 101 kVMemSegSpan KHEAP_BASE KHEAP_SIZE); try done; try apply not_elem_of_nil.
      * apply empty_arena_ok.
      * intros s []%elem_of_nil.
    + apply empty_arena_ok.
  - intros v a t. simpl. rewrite lookup_insert_Some.
    intros [[<- <-]|[_ [<- <-]%lookup_singleton_Some]]; [|intros []%elem_of_nil].
    intros [->|[->|[]%elem_of_nil]%elem_of_cons]%elem_of_cons; apply (bool_decide_unpack _); done.
  - intros v w a b t u. simpl. rewrite !lookup_insert_Some.
    intros [[<- <-]|[_ [<- <-]%lookup_singleton_Some]] [[<- <-]|[_ [<- <-]%lookup_singleton_Some]] ?;
      try done; try (intros []%elem_of_nil); intros _ []%elem_of_nil.
Qed.

Lemma vm_kalloc_correct_witness :
  ∃ addr vs' ps' pages a' b',
    vm_kalloc 1048576 1 2 (small_kernel, demo_pmap) = Ok (addr, (vs', ps')) ∧
    sys_ok vs' ∧ pt_ok 1048576 ps' ∧
    arenas vs' !! kmap_vmem = Some a' ∧ arenas vs' !! vm_kernel_wired = Some b' ∧
    live a' ≡ₚ (addr, 4096) :: live small_kmap ∧ live b' ≡ₚ (addr, 4096) :: live small_wired ∧
    (∀ f, f ∈ spans b' → f ∈ live a') ∧
    KHEAP_BASE ≤ addr ∧ addr + 4096 ≤ KHEAP_BASE + KHEAP_SIZE ∧
    length pages = 1%nat ∧ NoDup pages ∧
    ∀ i page, pages !! i = Some page →
      pmap_trans 1048576 (addr + PGSIZE * Z.of_nat i) ps' = Ok (page, ps').
Proof.
  apply (vm_kalloc_correct 1048576 1 2 small_kernel demo_pmap small_kmap small_wired
    (Seg 101 kVMemSegFree KHEAP_BASE KHEAP_SIZE)); try done.
  - apply small_kernel_ok.
  - apply demo_pmap_ok.
  - split.
    + intros m. unfold markers. simpl. intros [->|[]%elem_of_nil]%elem_of_cons.
      unfold seg_end. simpl. lia.
    + intros t. by intros [->|[->|[]%elem_of_nil]%elem_of_cons]%elem_of_cons.
  - by left.
  - simpl. lia.
  - right. left.
  - simpl. lia.
Defined.
