(* ===== verification/KernelMem.v ===== *)
(** * The kernel's wired memory over time

    The invariant that [vm_kalloc] and [vm_kfree] keep between them: every range
    handed out is one span of [vm_kernel_wired], imported whole from the kernel
    map, and each of its pages is mapped to a page frame of its own.  With it the
    kernel's allocator is an instance of PageAlloc, and what [vm_kalloc] takes
    [vm_kfree] gives back. *)

From S2P Require Import Prelude Vmem VmemInv VmemSpan VmemProps VmPage Pmap PmapProps PmapKernel PageAlloc.
From S2P Require Import VmKernel VmKernelProps.
Open Scope Z_scope.

Lemma filter_ext_elem {A} (P Q : A → Prop) `{!∀ x, Decision (P x), !∀ x, Decision (Q x)} (l : list A) :
  (∀ x, x ∈ l → (P x ↔ Q x)) → filter P l = filter Q l.
Proof.
  induction l as [|x l IH]; intros HPQ; [done|]. rewrite !filter_cons, IH by (intros; apply HPQ; by right).
  pose proof (HPQ x ltac:(left)). by repeat case_decide; tauto || done.
Qed.

(** ** Page frames *)

Section pages.
Context (kpml4 : Z).
Implicit Types (ps : pstate).

(** A frame that backs wired memory: known to the page structures, on the kernel's
    queue, and part of no table. *)
Record wired ps (page : Z) : Prop := {
  wi_addr : page_addr page;
  wi_known : vm_page_from_paddr ps page = Some page;
  wi_field : page_queue ps page = kVMPageFree;
  wi_queue : on_queue ps pgkmemq page;
  wi_apart a : inside page a → untouched kpml4 ps a;
}.
Definition free_known ps : Prop :=
  ∀ x, on_queue ps pgfreeq x → vm_page_from_paddr ps x = Some x ∧ page_queue ps x = kVMPageFree.

Lemma from_paddr_regions ps ps' x :
  pregions ps' = pregions ps → vm_page_from_paddr ps' x = vm_page_from_paddr ps x.
Proof. intros E. unfold vm_page_from_paddr. by rewrite E. Qed.

Lemma wired_keeps ps ps' page :
  keeps kpml4 ps ps' → (∀ x, on_queue ps pgkmemq x → on_queue ps' pgkmemq x) → wired ps page → wired ps' page.
Proof.
  intros [Kb _ Kq Kr _] Hq [Ha Hk Hf Hw Hu]. split; [done| |by rewrite Kq|by apply Hq|].
  - by rewrite (from_paddr_regions ps).
  - intros a Hin. by apply Kb, Hu.
Qed.

Lemma free_known_keeps ps ps' : keeps kpml4 ps ps' → free_known ps → free_known ps'.
Proof.
  intros [_ _ Kq Kr Kf] Hf x Hx. rewrite (from_paddr_regions ps), Kq by done. by apply Hf, Kf.
Qed.

(** The frames of a range that [vm_kalloc] has wired. *)
Lemma wired_range_wired ps ps' addr pages page :
  wired_range kpml4 ps ps' addr pages → free_known ps → page ∈ pages → wired ps' page.
Proof.
  intros W Hf Hp. destruct (wr_new _ _ _ _ _ W page Hp) as (Ha & Hpf & Hq & Hu).
  destruct (wr_keeps _ _ _ _ _ W) as [_ _ Kq Kr _]. destruct (Hf _ Hpf).
  split; [done|by rewrite (from_paddr_regions ps)|by rewrite Kq|done|done].
Qed.

(** ** Taking the pages of a range away *)

(** From [ps] to [ps'], the [n] pages from [addr] on have lost their frames. *)
Record unwired ps ps' (addr n : Z) : Prop := {
  uw_ok : pt_ok kpml4 ps';
  uw_regions : pregions ps' = pregions ps;
  uw_field : page_queue ps' = page_queue ps;
  uw_free x : on_queue ps' pgfreeq x ↔
    on_queue ps pgfreeq x ∨ ∃ i, 0 ≤ i < n ∧ x = translate (phys ps) kpml4 (addr + PGSIZE * i);
  uw_wired x : wired ps x →
    (∀ i, 0 ≤ i < n → translate (phys ps) kpml4 (addr + PGSIZE * i) ≠ x) → wired ps' x;
  uw_here i : 0 ≤ i < n → translate (phys ps') kpml4 (addr + PGSIZE * i) = 0;
  uw_other w : (∀ i, 0 ≤ i < n → vpage w ≠ vpage (addr + PGSIZE * i)) →
    translate (phys ps') kpml4 w = translate (phys ps) kpml4 w;
}.

(** An address that translates to a page has an entry in a table of the last level. *)
Lemma translate_entry ps virt page :
  translate (phys ps) kpml4 virt = page → page ≠ 0 → pgi virt = 0 →
  ∃ t, table_at (phys ps) kpml4 (path3 virt) = Some t ∧
    entry (phys ps) t (pti virt) ≠ 0 ∧ pte_get_addr (entry (phys ps) t (pti virt)) = page.
Proof.
  unfold translate. intros E Hne Hi. destruct (table_at _ _ _) as [t|]; [|congruence].
  exists t. destruct (has_flag _ _) eqn:Ef; [|congruence]. split_and!; [done| |lia].
  intros E0. by rewrite E0 in Ef.
Qed.

Lemma unwire_page_run vs ps addr i page :
  pt_ok kpml4 ps → addr mod 4096 = 0 → translate (phys ps) kpml4 (addr + PGSIZE * i) = page → wired ps page →
  ∃ ps', unwire_page kpml4 addr (PGSIZE * i) (vs, ps) = Ok ((), (vs, ps')) ∧
    unwired ps ps' (addr + PGSIZE * i) 1.
Proof.
  intros Hok Hal Htr Hw. pose proof (wi_addr _ _ Hw) as Hpa. set (virt := addr + PGSIZE * i) in *.
  assert (pgi virt = 0) as Hpg by by apply pgi_aligned.
  destruct (translate_entry ps virt page Htr) as (t & Ht & He & Ea); [destruct Hpa; lia|done|].
  set (p1 := set_phys (λ _, write64 (phys ps) (entry_addr t (pti virt)) 0) ps).
  assert (pmap_unenter_kern kpml4 virt ps = Ok (page, p1)) as Hrun1
    by (apply unenter_run; [done..|rewrite Ea; apply Hw]).
  assert (pt_ok kpml4 p1) as Hok1 by by apply leaf_ok.
  destruct (changequeue_moved page None pgfreeq pgfreeq p1) as (p2 & Hrun2 & Hm & Hph & Hpv).
  { right. split; [done|]. unfold vm_page_queue. change (page_queue p1) with (page_queue ps).
    by rewrite (wi_field _ _ Hw). }
  destruct (moved_ok _ _ _ _ _ (pt_queues _ _ Hok1) Hm) as [Hq2 Hon]. destruct Hm as (_ & _ & Hpq & Hreg).
  assert (∀ q, path_ok q → table_at (phys p2) kpml4 q = table_at (phys ps) kpml4 q) as Htab
    by (intros q Hq; rewrite Hph; by apply (leaf_table kpml4 ps virt t 0)).
  assert (inside page page) as Hin by (unfold inside, PGSIZE; lia).
  destruct (wi_apart _ _ Hw page Hin) as [Hnf Hnt].
  assert (on_queue ps pgkmemq page ∧ pt_ok kpml4 p2) as [Hk Hok2].
  { split; [apply Hw|]. split; [done| | |].
    - intros x [[-> _]|[_ Hx]]%Hon; [done|]. by apply (pt_free _ _ Hok).
    - intros q x Hq. rewrite Htab by done. intros E. destruct (pt_table _ _ Hok _ _ Hq E) as [? Hf].
      split; [done|]. intros [[-> _]|[_ Hx]]%Hon; [|done]. by apply (Hnt q page).
    - intros q r x Hq Hr. rewrite !Htab by done. by apply (pt_inj _ _ Hok). }
  exists p2. split.
  { unfold unwire_page. fold virt. rewrite (bind_step _ _ _ _ _ (on_pages_run _ vs _ _ _ Hrun1)).
    apply on_pages_run, Hrun2. }
  split; [done|done|done|..].
  - intros x. rewrite Hon. change (on_queue p1 pgfreeq x) with (on_queue ps pgfreeq x). split.
    + intros [[-> _]|[_ ?]]; [right; exists 0|by left]. split; [lia|]. by rewrite Z.mul_0_r, Z.add_0_r.
    + intros [Hx|(j & Hj & ->)]; [|left; split; [|done]; replace j with 0 by lia; by rewrite Z.mul_0_r, Z.add_0_r].
      right. split; [|done]. intros ->. by apply (Hnf page).
  - intros x [Hxa Hxk Hxf Hxq Hxu] Hne. assert (x ≠ page) as Hxp.
    { intros ->. apply (Hne 0); [lia|]. by rewrite Z.mul_0_r, Z.add_0_r. }
    split; [done|by rewrite (from_paddr_regions p1)|by rewrite Hpq|apply Hon; by right|].
    intros a Ha. destruct (Hxu a Ha) as [Hf Hta]. split.
    + intros y [[-> _]|[_ Hy]]%Hon Hya; [|by apply (Hf y)]. apply Hxp. by apply (inside_eq x page a).
    + intros q y Hq. rewrite Htab by done. by apply Hta.
  - intros j Hj. replace j with 0 by lia. rewrite Z.mul_0_r, Z.add_0_r, Hph. by apply leaf_translate_here.
  - intros w Hne. rewrite Hph. apply leaf_translate; try done.
    rewrite <-(Z.add_0_r virt), <-(Z.mul_0_r PGSIZE). apply Hne. lia.
Qed.

(** One page, then the pages behind it. *)
Lemma unwired_cons ps p1 p2 addr n :
  0 ≤ addr → addr mod 4096 = 0 → 0 ≤ n < 2^36 → 
  unwired ps p1 addr 1 → unwired p1 p2 (addr + PGSIZE) n → unwired ps p2 addr (1 + n).
Proof.
  intros Ha Hal Hn [Hok1 R1 F1 X1 W1 H1 O1] [Hok2 R2 F2 X2 W2 H2 O2].
  assert (∀ i, addr + PGSIZE + PGSIZE * i = addr + PGSIZE * (1 + i)) as Eadd by (unfold PGSIZE; lia).
  assert (∀ i, 0 ≤ i < n → translate (phys p1) kpml4 (addr + PGSIZE + PGSIZE * i) =
                           translate (phys ps) kpml4 (addr + PGSIZE * (1 + i))) as E1.
  { intros i Hi. rewrite Eadd. apply O1. intros j Hj. replace j with 0 by lia. by apply vpage_ne; lia. }
  split; [done|congruence|congruence|..].
  - intros x. rewrite X2, X1. split.
    + intros [[Hx|(i & Hi & ->)]|(i & Hi & ->)]; [by left|right; exists i; split; [lia|done]|].
      right. exists (1 + i). split; [lia|]. by apply E1.
    + intros [Hx|(i & Hi & ->)]; [by do 2 left|]. destruct (decide (i = 0)) as [->|].
      * left. right. exists 0. split; [lia|done].
      * right. exists (i - 1). split; [lia|]. rewrite E1 by lia. do 3 f_equal. lia.
  - intros x Hx Hne. apply W2; [apply W1; [done|]|].
    + intros i Hi. apply Hne. lia.
    + intros i Hi. rewrite E1 by done. apply Hne. lia.
  - intros i Hi. destruct (decide (i = 0)) as [->|].
    + rewrite O2; [apply H1; lia|]. intros j Hj. rewrite Eadd. by apply vpage_ne; lia.
    + replace (addr + PGSIZE * i) with (addr + PGSIZE + PGSIZE * (i - 1)) by (unfold PGSIZE; lia).
      apply H2. lia.
  - intros w Hw. rewrite O2, O1; [done| |].
    + intros i Hi. apply Hw. lia.
    + intros i Hi. rewrite Eadd. apply Hw. lia.
Qed.

Lemma unwired_none ps addr : pt_ok kpml4 ps → unwired ps ps addr 0.
Proof. intros. split; try done; [|lia]. intros x. split; [by left|]. intros [|(i & ? & _)]; [done|lia]. Qed.

(** The loop of [internal_freewired], from page [k]. *)
Lemma unwire_pages_run vs ps addr n k :
  pt_ok kpml4 ps → 0 ≤ addr → addr mod 4096 = 0 → 0 ≤ k → k + Z.of_nat n ≤ 2^36 →
  (∀ i, k ≤ i < k + Z.of_nat n → wired ps (translate (phys ps) kpml4 (addr + PGSIZE * i))) →
  (∀ i j, k ≤ i < k + Z.of_nat n → k ≤ j < k + Z.of_nat n →
     translate (phys ps) kpml4 (addr + PGSIZE * i) = translate (phys ps) kpml4 (addr + PGSIZE * j) → i = j) →
  ∃ ps', mfor ((λ j, PGSIZE * j) <$> seqZ k (Z.of_nat n)) (unwire_page kpml4 addr) (vs, ps)
      = Ok ((), (vs, ps')) ∧ unwired ps ps' (addr + PGSIZE * k) (Z.of_nat n).
Proof.
  revert k ps. induction n as [|n IH]; intros k ps Hok Ha Hal Hk Hn Hw Hinj.
  { exists ps. split; [done|by apply unwired_none]. }
  destruct (unwire_page_run vs ps addr k _ Hok Hal eq_refl (Hw k ltac:(lia))) as (p1 & Hrun1 & U1).
  assert (∀ i, k + 1 ≤ i < k + Z.of_nat (S n) →
    translate (phys p1) kpml4 (addr + PGSIZE * i) = translate (phys ps) kpml4 (addr + PGSIZE * i)) as E1.
  { intros i Hi. apply (uw_other _ _ _ _ U1). intros j Hj. replace j with 0 by lia.
    rewrite Z.mul_0_r, Z.add_0_r. apply vpage_ne; lia || done. }
  destruct (IH (k + 1) p1) as (p2 & Hrun2 & U2); [apply U1|lia|done|lia|lia|..].
  - intros i Hi. rewrite E1 by lia. apply (uw_wired _ _ _ _ U1); [apply Hw; lia|].
    intros j Hj E. replace j with 0 in E by lia. rewrite Z.mul_0_r, Z.add_0_r in E.
    apply Hinj in E; lia.
  - intros i j Hi Hj. rewrite !E1 by lia. intros E. apply Hinj in E; lia.
  - exists p2. rewrite seqZ_cons by lia.
    replace (Z.pred (Z.of_nat (S n))) with (Z.of_nat n) by lia.
    replace (Z.succ k) with (k + 1) by lia. csimpl. split; [by rewrite (bind_step _ _ _ _ _ Hrun1)|].
    replace (Z.of_nat (S n)) with (1 + Z.of_nat n) by lia.
    apply (unwired_cons ps p1 p2); [unfold PGSIZE; lia| |lia|done|].
    + unfold PGSIZE. by rewrite Z.mul_comm, Z.mod_add.
    + replace (addr + PGSIZE * k + PGSIZE) with (addr + PGSIZE * (k + 1)) by lia. done.
Qed.
End pages.

(** ** Ranges that are whole spans *)

(** An allocation as large as its span: the marker is right before it, and the
    next span right behind it. *)
Lemma whole_span a m s :
  arena_ok a → m ∈ segqueue a → s ∈ segqueue a → is_span m = true → is_span s = false →
  extent m = extent s → ∃ q1 q2, segqueue a = q1 ++ m :: s :: q2 ∧ starts_span q2.
Proof.
  intros Hok Hm Hs Hms Hss E. pose proof (ao_layout _ Hok) as HL.
  unfold extent in E. injection E as Eb Es.
  pose proof (proj1 (layout_pos _ _ _ _ HL Hs)) as Hpos. unfold seg_end in *.
  apply list_elem_of_split in Hm as (q1 & u & Q). rewrite Q in HL, Hs.
  apply elem_of_app in Hs as [Hs|[->|Hs]%elem_of_cons]; [exfalso|congruence|].
  { apply list_elem_of_split in Hs as (r1 & r2 & ->). rewrite <-app_assoc in HL.
    apply (layout_ordered _ s _ m) in HL; [unfold seg_end in *; lia|done|set_solver]. }
  exists q1. destruct u as [|x u]; [by apply elem_of_nil in Hs|].
  rewrite layout_app in HL. destruct HL as [_ HL]. simpl in HL. rewrite Hms in HL. unfold seg_end in HL.
  destruct HL as (_ & _ & _ & Hxp & _ & HL). destruct (is_span x) eqn:Hx.
  - destruct HL as [Hlo HL]. exfalso. apply elem_of_cons in Hs as [->|Hs]; [congruence|].
    apply (layout_above _ _ _ s) in HL; [lia..|done].
  - destruct HL as (Hlo & Hhi & HL). apply elem_of_cons in Hs as [->|Hs].
    + exists u. split; [done|]. destruct u as [|t u]; [done|]. simpl in *. unfold seg_end in HL.
      destruct (is_span t); [done|]. lia.
    + apply (layout_above _ _ _ s) in HL; [exfalso; lia|lia|done].
Qed.

Lemma no_free_segments a s :
  arena_ok a → sum_sizes (free_space a) = 0 → s ∈ segqueue a → seg_ty s ≠ kVMemSegFree.
Proof.
  intros Hok Hsum Hs Hf. pose proof (proj1 (layout_pos _ _ _ _ (ao_layout _ Hok) Hs)) as Hpos.
  assert (∀ q, (∀ t, t ∈ q → t ∈ segqueue a) →
    0 ≤ sum_sizes (extent <$> filter (λ t, seg_ty t = kVMemSegFree) q)) as Hnn.
  { induction q as [|t q IH]; intros Hq; [done|]. rewrite filter_cons. case_decide; csimpl; [|apply IH; set_solver].
    pose proof (proj1 (layout_pos _ _ _ t (ao_layout _ Hok) ltac:(set_solver))).
    assert (0 ≤ sum_sizes (extent <$> filter (λ t, seg_ty t = kVMemSegFree) q)) by (apply IH; set_solver).
    simpl. lia. }
  apply list_elem_of_split in Hs as (q1 & q2 & Q). unfold free_space, of_type in Hsum. rewrite Q in Hsum, Hnn.
  rewrite filter_app, filter_cons_True, fmap_app, sum_sizes_app in Hsum by done. csimpl in Hsum. simpl in Hsum.
  pose proof (Hnn q1 ltac:(set_solver)). pose proof (Hnn q2 ltac:(set_solver)). lia.
Qed.

(** What the lists of an arena lose with a span and the allocation in it. *)
Lemma whole_span_removed a a' q1 q2 m s :
  segqueue a = q1 ++ m :: s :: q2 → segqueue a' = q1 ++ q2 →
  is_span m = true → seg_ty s = kVMemSegAllocated →
  live a ≡ₚ extent s :: live a' ∧ spans a ≡ₚ extent m :: spans a' ∧
  sum_sizes (free_space a') = sum_sizes (free_space a) ∧ ∀ x, x ∈ markers a' → x ∈ markers a.
Proof.
  intros Q Q' Hm Hs. pose proof (alloc_not_span _ Hs) as Hns.
  assert (seg_ty m ≠ kVMemSegAllocated ∧ seg_ty m ≠ kVMemSegFree) as [Hma Hmf]
    by (unfold is_span in Hm; by destruct (seg_ty m)).
  unfold live, spans, free_space, markers, of_type. rewrite Q, Q'. split_and!.
  - rewrite !filter_app, filter_cons_False, filter_cons_True by done. rewrite !fmap_app. csimpl.
    by rewrite Permutation_middle.
  - rewrite !filter_span_app, filter_span_cons, filter_span_cons_ne by done. rewrite !fmap_app. csimpl.
    by rewrite Permutation_middle.
  - by rewrite !filter_app, !filter_cons_False by congruence.
  - intros x. rewrite !filter_span_app, filter_span_cons, filter_span_cons_ne by done.
    rewrite !elem_of_app, elem_of_cons. tauto.
Qed.

(** ** Addresses of the kernel heap *)

Lemma heap_vpage v w :
  KHEAP_BASE ≤ v < KHEAP_BASE + KHEAP_SIZE → KHEAP_BASE ≤ w < KHEAP_BASE + KHEAP_SIZE →
  v mod PGSIZE = 0 → w mod PGSIZE = 0 → vpage v = vpage w → v = w.
Proof.
  intros Hv Hw Mv Mw E. destruct (decide (v = w)) as [|Hne]; [done|]. exfalso.
  set (i := (v - KHEAP_BASE) / PGSIZE). set (j := (w - KHEAP_BASE) / PGSIZE).
  assert (v = KHEAP_BASE + PGSIZE * i) as Ev
    by (unfold i, KHEAP_BASE, KHEAP_SIZE, PGSIZE in *; Z.div_mod_to_equations; lia).
  assert (w = KHEAP_BASE + PGSIZE * j) as Ew
    by (unfold j, KHEAP_BASE, KHEAP_SIZE, PGSIZE in *; Z.div_mod_to_equations; lia).
  rewrite Ev, Ew in E. revert E. unfold KHEAP_BASE, KHEAP_SIZE, PGSIZE in *.
  apply vpage_ne; lia || done.
Qed.

(** ** The invariant *)

Section inv.
Context (kpml4 : Z).
Implicit Types (ps : pstate) (st : kstate).

(** The address of page [i] of a range, and the frame it translates to. *)
Definition page_at (f : Z * Z) (i : Z) : Z := f.1 + PGSIZE * i.
Definition frame_at ps (f : Z * Z) (i : Z) : Z := translate (phys ps) kpml4 (page_at f i).

(** The tags are static, or in a page that was wired for them. *)
Definition within (f : Z * Z) (t : Z) : Prop := f.1 ≤ t < f.1 + f.2.
Definition in_heap (t : Z) : Prop := KHEAP_BASE ≤ t < KHEAP_BASE + KHEAP_SIZE.
Definition untagged vs (f : Z * Z) : Prop := ∀ t, tag vs t → ¬ within f t.

Record kernel_ok st (a b : vmem) : Prop := {
  ko_sys : sys_ok st.1;
  ko_pt : pt_ok kpml4 st.2;
  ko_kmap : arenas st.1 !! kmap_vmem = Some a;
  ko_wired : arenas st.1 !! vm_kernel_wired = Some b;
  ko_fns : vm_allocfn b = fn_allocwired ∧ vm_freefn b = fn_freewired ∧ vm_source b = kmap_vmem;
  ko_heap : heap_arena a;
  ko_plain m : m ∈ markers a → seg_ty m = kVMemSegSpan;
  ko_imported m : m ∈ markers b → seg_ty m = kVMemSegSpanImported;
  ko_whole : live b ≡ₚ spans b;
  ko_full : sum_sizes (free_space b) = 0;
  ko_source f : f ∈ live b → f ∈ live a;
  ko_sizes f : f ∈ live b → ∃ n, 0 < n < 2^19 ∧ f.2 = n * PGSIZE;
  ko_free : free_known st.2;
  ko_pages f i : f ∈ live b → 0 ≤ PGSIZE * i < f.2 → wired kpml4 st.2 (frame_at st.2 f i);
  ko_inj f g i j : f ∈ live b → g ∈ live b → 0 ≤ PGSIZE * i < f.2 → 0 ≤ PGSIZE * j < g.2 →
    frame_at st.2 f i = frame_at st.2 g j → page_at f i = page_at g j;
  ko_tags t : tag st.1 t → in_heap t → ∃ f, f ∈ live b ∧ within f t;
}.

(** Ranges of the kernel map lie in the heap, on page boundaries. *)
Lemma live_heap a f :
  arena_ok a → heap_arena a → f ∈ live a →
  KHEAP_BASE ≤ f.1 ∧ f.1 + f.2 ≤ KHEAP_BASE + KHEAP_SIZE ∧ f.1 mod PGSIZE = 0 ∧ 0 < f.2.
Proof.
  intros Hok Hh (s & Hin & _ & ->)%elem_of_live. destruct (heap_bounds a s Hok Hh Hin).
  destruct (layout_pos _ _ _ _ (ao_layout _ Hok) Hin). unfold seg_end in *.
  split_and!; simpl; try lia. by apply Hh.
Qed.

Lemma page_at_heap a f i :
  arena_ok a → heap_arena a → f ∈ live a → 0 ≤ PGSIZE * i < f.2 →
  KHEAP_BASE ≤ page_at f i < KHEAP_BASE + KHEAP_SIZE ∧ page_at f i mod PGSIZE = 0 ∧
  f.1 ≤ page_at f i < f.1 + f.2.
Proof.
  intros Hok Hh Hf Hi. destruct (live_heap a f Hok Hh Hf) as (? & ? & Hm & ?). unfold page_at.
  split_and!; try lia. unfold PGSIZE in *. by rewrite Z.mul_comm, Z.mod_add.
Qed.

(** Pages of different ranges are different. *)
Lemma page_at_apart a f g i j :
  arena_ok a → heap_arena a → f ∈ live a → g ∈ live a → disjoint_ext f g →
  0 ≤ PGSIZE * i < f.2 → 0 ≤ PGSIZE * j < g.2 → vpage (page_at f i) ≠ vpage (page_at g j).
Proof.
  intros Hok Hh Hf Hg Hd Hi Hj E.
  destruct (page_at_heap a f i Hok Hh Hf Hi) as (? & ? & ?).
  destruct (page_at_heap a g j Hok Hh Hg Hj) as (? & ? & ?).
  apply heap_vpage in E; [|done..]. unfold disjoint_ext in Hd. lia.
Qed.

(** [vm_kernel_wired] has nothing to allocate from: every request is an import. *)
Lemma wired_search st a b size flags :
  kernel_ok st a b → 0 < size ≤ 2^31 → has_flag flags kVMemExact = false → search size 0 flags b = None.
Proof.
  intros Ho Hsz Hex. pose proof (so_arena _ _ _ (ko_sys _ _ _ Ho) _ _ (ko_wired _ _ _ Ho)) as Hok.
  pose proof (so_arena _ _ _ (ko_sys _ _ _ Ho) _ _ (ko_kmap _ _ _ Ho)) as Hoka. simpl in Hok, Hoka.
  apply search_None; [done| |by right|].
  - assert (∀ t, t ∈ segqueue b → extent t ∈ live b) as Hlive.
    { intros t Ht. destruct (is_span t) eqn:Es.
      - rewrite (ko_whole _ _ _ Ho). unfold spans, markers. apply list_elem_of_fmap. exists t.
        split; [done|]. by apply list_elem_of_filter.
      - apply elem_of_live. exists t. split_and!; [done| |done].
        pose proof (no_free_segments b t Hok (ko_full _ _ _ Ho) Ht). unfold is_span in Es.
        by destruct (seg_ty t). }
    unfold no_wrap. split_and!; try lia. intros t Ht.
    destruct (live_heap a (extent t) Hoka (ko_heap _ _ _ Ho)) as (? & ? & _ & ?); [by apply (ko_source _ _ _ Ho), Hlive|].
    unfold seg_end, KHEAP_BASE, KHEAP_SIZE, extent in *. simpl in *. lia.
  - intros s Hs [Hf _]. by apply (no_free_segments b s Hok (ko_full _ _ _ Ho) Hs).
Qed.

(** ** [vm_kalloc] *)

(** What a request needs: tags, pages, and room in the kernel map.  Of [2^19] pages,
    whose size in bytes is negative as an [int], [vm_kfree] would free none. *)
Record request_ready (npages wait : Z) st (a : vmem) : Prop := {
  rr_npages : 0 < npages < 2^19;
  rr_tags : has_flag wait 2 = true ∨ 130 ≤ nfreesegs st.1;
  rr_pool : (6 ≤ length (free_segs st.1))%nat;
  rr_room : ∃ s, s ∈ segqueue a ∧ can_serve (npages * PGSIZE) 0 (kalloc_flags wait) s;
  rr_pages : (4 * Z.to_nat npages ≤ length (pq_list (queues st.2 pgfreeq)))%nat;
}.

Lemma bases_heap a a' addr size :
  heap_arena a → markers a' = markers a → bases_from [addr; addr + size] a a' →
  addr mod PGSIZE = 0 → size mod PGSIZE = 0 → heap_arena a'.
Proof.
  intros [Hm Hb] Em Hbs Ha Hs. split; [by rewrite Em|]. intros t Ht.
  destruct (Hbs t Ht) as [Hn|(t0 & Ht0 & ->)]; [|by apply Hb].
  apply elem_of_cons in Hn as [->|Hn]; [done|]. apply list_elem_of_singleton in Hn as ->.
  unfold PGSIZE in *. Z.div_mod_to_equations. lia.
Qed.

Section kalloc_inv.
Context (npages : Z) (vs vs' : vstate) (ps ps' : pstate) (a b a' b' : vmem) (addr : Z) (pages : list Z).
Hypothesis Ho : kernel_ok (vs, ps) a b.
Hypothesis Hn : 0 < npages < 2^19.
Hypothesis Hd : kalloc_done kpml4 npages vs vs' ps ps' a b a' b' addr pages.
Let new : Z * Z := (addr, npages * PGSIZE).
Let W := kd_pages _ _ _ _ _ _ _ _ _ _ _ _ Hd.

Local Lemma ka_arena : arena_ok a'.
Proof. exact (so_arena _ _ _ (kd_sys _ _ _ _ _ _ _ _ _ _ _ _ Hd) _ _ (kd_kmap _ _ _ _ _ _ _ _ _ _ _ _ Hd)). Qed.

Local Lemma ka_heap : heap_arena a'.
Proof.
  pose proof Hd as [_ _ _ _ _ Hma _ _ _ _ _ _ _ Hbs Hrg _ _].
  eapply bases_heap; [apply (ko_heap _ _ _ Ho)|done|exact Hbs|apply Hrg|].
  unfold PGSIZE. by apply Z.mod_mul.
Qed.

Local Lemma ka_live f : f ∈ live b' → f ∈ live a' ∧ (f = new ∨ f ∈ live b).
Proof.
  rewrite (kd_live_b _ _ _ _ _ _ _ _ _ _ _ _ Hd), (kd_live_a _ _ _ _ _ _ _ _ _ _ _ _ Hd), !elem_of_cons.
  intros [->|Hf]; [by split; left|]. split; [right; by apply (ko_source _ _ _ Ho)|by right].
Qed.

Local Lemma ka_new_page i : 0 ≤ PGSIZE * i < npages * PGSIZE → ∃ page, pages !! Z.to_nat i = Some page ∧
  frame_at ps' new i = page.
Proof.
  intros Hi. pose proof (kd_npages _ _ _ _ _ _ _ _ _ _ _ _ Hd) as Hlp. unfold PGSIZE in Hi.
  destruct (lookup_lt_is_Some_2 pages (Z.to_nat i)) as [page Hp]; [rewrite Hlp; lia|].
  exists page. split; [done|]. rewrite <-(wr_map _ _ _ _ _ W _ _ Hp). unfold frame_at, page_at. simpl.
  by rewrite Z2Nat.id by lia.
Qed.

(** The frames of the old ranges are as they were. *)
Local Lemma ka_old_page f i : f ∈ live b → 0 ≤ PGSIZE * i < f.2 → frame_at ps' f i = frame_at ps f i.
Proof.
  intros Hf Hi. apply (wr_other _ _ _ _ _ W). intros j Hj.
  pose proof (kd_npages _ _ _ _ _ _ _ _ _ _ _ _ Hd) as Hlp.
  pose proof (kd_live_a _ _ _ _ _ _ _ _ _ _ _ _ Hd) as Hla.
  pose proof (ko_source _ _ _ Ho f Hf) as Hfa.
  change (addr + PGSIZE * j) with (page_at new j). eapply (page_at_apart a'); [apply ka_arena|apply ka_heap|..].
  - rewrite Hla. by right.
  - rewrite Hla. left.
  - apply disjoint_ext_sym. by eapply (ordpairs_disjoint_perm _ _ _ _ (live_disjoint a' ka_arena) Hla).
  - done.
  - unfold new, PGSIZE. simpl. lia.
Qed.

Local Lemma ka_wired page : wired kpml4 ps page → wired kpml4 ps' page ∧ (page ∉ pages).
Proof.
  intros Hw. split.
  - eapply wired_keeps; [apply W| |done]. intros x. by apply (wr_queues _ _ _ _ _ W).
  - intros Hp. destruct (wr_new _ _ _ _ _ W page Hp) as (_ & Hf & _).
    by pose proof (qo_disj _ (pt_queues _ _ (ko_pt _ _ _ Ho)) _ _ _ Hf (wi_queue _ _ _ Hw)).
Qed.

Lemma kalloc_inv : kernel_ok (vs', ps') a' b'.
Proof.
  pose proof Hd as [Hsys Hka Hkb Hla Hlb Hma Hsb Him Hfr Hh Htag _ _ Hbs Hrg Hnp Hw].
  unfold header in Hh. injection Hh as _ _ _ _ _ Hh1 Hh2 Hh3.
  destruct (ko_fns _ _ _ Ho) as (F1 & F2 & F3).
  split; simpl; try done.
  - apply W.
  - split_and!; congruence.
  - apply ka_heap.
  - rewrite Hma. apply (ko_plain _ _ _ Ho).
  - intros m [Hm|?]%Him; [by apply (ko_imported _ _ _ Ho)|done].
  - by rewrite Hlb, Hsb, (ko_whole _ _ _ Ho).
  - rewrite Hfr. apply Ho.
  - intros f Hf. by apply ka_live.
  - intros f [_ [->|Hf]]%ka_live; [by exists npages|by apply (ko_sizes _ _ _ Ho)].
  - eapply free_known_keeps; [apply W|apply Ho].
  - intros f i [_ [->|Hf]]%ka_live Hi.
    + destruct (ka_new_page i Hi) as (page & Hp & ->).
      eapply wired_range_wired; [exact W|apply Ho|by eapply list_elem_of_lookup_2].
    + rewrite ka_old_page by done. by apply ka_wired, (ko_pages _ _ _ Ho).
  - intros f g i j [_ Hf]%ka_live [_ Hg]%ka_live Hi Hj E.
    destruct Hf as [->|Hf], Hg as [->|Hg].
    + destruct (ka_new_page i Hi) as (p & Hp & Ep), (ka_new_page j Hj) as (q & Hq & Eq).
      rewrite Ep, Eq in E. subst q. pose proof (NoDup_lookup _ _ _ _ (wr_nodup _ _ _ _ _ W) Hp Hq).
      unfold page_at. do 2 f_equal. unfold new, PGSIZE in *. simpl in *. lia.
    + destruct (ka_new_page i Hi) as (p & Hp & Ep). exfalso. rewrite Ep, ka_old_page in E by done.
      destruct (ka_wired _ (ko_pages _ _ _ Ho g j Hg Hj)) as [_ Hnin].
      simpl in Hnin. rewrite <-E in Hnin. by eapply Hnin, list_elem_of_lookup_2.
    + destruct (ka_new_page j Hj) as (p & Hp & Ep). exfalso. rewrite Ep, ka_old_page in E by done.
      destruct (ka_wired _ (ko_pages _ _ _ Ho f i Hf Hi)) as [_ Hnin].
      simpl in Hnin. rewrite E in Hnin. by eapply Hnin, list_elem_of_lookup_2.
    + rewrite !ka_old_page in E by done. by apply (ko_inj _ _ _ Ho).
  - intros t Ht Hin. destruct (ko_tags _ _ _ Ho t) as (f & Hf & Hft); [by apply Htag|done|].
    exists f. split; [|done]. rewrite Hlb. by right.
Qed.

(** No tag is in the range: it is new. *)
Lemma kalloc_untagged : untagged vs' new.
Proof.
  intros t Ht Hin. pose proof Hd as [Hsys _ Hkb _ Hlb _ _ _ _ _ Htag _ _ _ Hrg _ _].
  assert (in_heap t) as Hh by (unfold within, new, in_heap in *; simpl in Hin; lia).
  destruct (ko_tags _ _ _ Ho t) as (f & Hf & Hft); [by apply Htag|done|].
  assert (arena_ok b') as Hok by exact (so_arena _ _ _ Hsys _ _ Hkb).
  pose proof (ordpairs_disjoint_perm _ _ _ _ (live_disjoint b' Hok) Hlb Hf) as Hdj.
  unfold disjoint_ext, within, new in *. simpl in *. lia.
Qed.
End kalloc_inv.

Lemma kalloc_ok npages wait vs ps a b :
  kernel_ok (vs, ps) a b → request_ready npages wait (vs, ps) a →
  ∃ addr vs' ps' pages a' b',
    vm_kalloc kpml4 npages wait (vs, ps) = Ok (addr, (vs', ps')) ∧
    kalloc_done kpml4 npages vs vs' ps ps' a b a' b' addr pages ∧ kernel_ok (vs', ps') a' b'.
Proof.
  intros Ho [Hn Ht Hp (s & Hs & Hc) Hpg]. destruct (ko_fns _ _ _ Ho) as (F1 & F2 & F3).
  destruct (kalloc_run kpml4 (vm_kalloc_refill kpml4) npages wait vs ps a b s) as (addr & vs' & ps' & pages & a' & b' & Hrun & Hd);
    [apply Ho|apply Ho| |].
  - split; try done; try apply Ho; [|].
    + intros f Hf. apply (ko_source _ _ _ Ho). by rewrite (ko_whole _ _ _ Ho).
    + eapply wired_search; [done|unfold PGSIZE; lia|apply kalloc_flags_exact].
  - exists addr, vs', ps', pages, a', b'. split; [done|]. split; [done|]. by eapply kalloc_inv.
Qed.

(** ** [vm_kfree] *)

(** [internal_freewired], called to release the span [(addr, npages * PGSIZE)]: the
    kernel map loses the allocation, the pages their frames. *)
Lemma freewired_run P L vs ps a s npages :
  sys_inv P L vs → (∀ c, P kmap_vmem c ↔ arena_ok c) → arenas vs !! kmap_vmem = Some a →
  no_imports a → heap_arena a → s ∈ segqueue a → seg_ty s = kVMemSegAllocated →
  seg_size s = npages * PGSIZE → 0 < npages < 2^19 → pt_ok kpml4 ps →
  (∀ i, 0 ≤ i < npages → wired kpml4 ps (frame_at ps (extent s) i)) →
  (∀ i j, 0 ≤ i < npages → 0 ≤ j < npages →
     frame_at ps (extent s) i = frame_at ps (extent s) j → i = j) →
  ∃ vs' ps' gain, internal_freewired kpml4 kmap_vmem (seg_base s) (seg_size s) (vs, ps) = Ok ((), (vs', ps')) ∧
    sys_inv P L vs' ∧ freed kmap_vmem (seg_size s) (seg_base s) gain vs vs' ∧
    unwired kpml4 ps ps' (seg_base s) npages.
Proof.
  intros Hs HP Ha Hni Hh Hin Hty Esz Hn Hpt Hw Hinj.
  pose proof (proj1 (HP _) (so_arena _ _ _ Hs _ _ Ha)) as Hok.
  destruct (heap_bounds a s Hok Hh Hin) as [Hlo Hhi]. pose proof (proj2 Hh s Hin) as Hal.
  destruct (xfree_keep no_freefn P L kmap_vmem (seg_size s) vs ps a s Hs HP Ha Hin Hty) as (vs' & Hrun & Hs' & Hfr).
  { intros l seg a2 p1 p2 co ids Hm Hl [E _]. by apply (merged_lseg _ _ _ _ _ _ _ _ _ Hm Hl Hni). }
  assert (0 < seg_size s < 2^31) as Hsz by (rewrite Esz; unfold PGSIZE; lia).
  assert (s32 (seg_size s) = seg_size s) as E32 by (apply s32_small; lia).
  unfold seg_end, KHEAP_BASE, KHEAP_SIZE in *.
  destruct (unwire_pages_run kpml4 vs' ps (seg_base s) (Z.to_nat npages) 0) as (ps' & Hrun2 & U);
    [done|lia|done|lia|lia|rewrite Z2Nat.id by lia..|].
  - intros i Hi. by apply Hw.
  - intros i j Hi Hj. by apply Hinj.
  - rewrite Z.mul_0_r, Z.add_0_r, Z2Nat.id in U by lia.
    exists vs', ps'. eexists. split; [|split; [exact Hs'|split; [exact Hfr|exact U]]].
    unfold internal_freewired. rewrite Z.eqb_refl, massert_bind.
    rewrite (bind_step _ _ _ _ _ Hrun). rewrite E32. rewrite (proj2 (Z.ltb_ge _ _)) by lia.
    rewrite (bind_step _ _ _ _ _ (int_offsets_run (seg_size s) (vs', ps) ltac:(rewrite Esz; unfold PGSIZE; lia))).
    assert (page_offsets (seg_size s) = (λ j, PGSIZE * j) <$> seqZ 0 (Z.of_nat (Z.to_nat npages))) as ->; [|done].
    unfold page_offsets. do 2 f_equal. rewrite Z2Nat.id, Esz by lia. unfold PGSIZE.
    Z.div_mod_to_equations. lia.
Qed.

Section kfree_inv.
Context (vs vs' : vstate) (ps ps' : pstate) (a b a' b' : vmem) (old : Z * Z) (npages : Z).
Hypothesis Ho : kernel_ok (vs, ps) a b.
Hypothesis Hsys : sys_ok vs'.
Hypothesis Hka : arenas vs' !! kmap_vmem = Some a'.
Hypothesis Hkb : arenas vs' !! vm_kernel_wired = Some b'.
Hypothesis Hla : live a ≡ₚ old :: live a'.
Hypothesis Hlb : live b ≡ₚ old :: live b'.
Hypothesis Hma : markers a' = markers a.
Hypothesis Hbs : bases_from [] a a'.
Hypothesis Hsb : spans b ≡ₚ old :: spans b'.
Hypothesis Hmb : ∀ m, m ∈ markers b' → m ∈ markers b.
Hypothesis Hfr : sum_sizes (free_space b') = sum_sizes (free_space b).
Hypothesis Hh : header b' = header b.
Hypothesis Esz : old.2 = npages * PGSIZE.
Hypothesis U : unwired kpml4 ps ps' old.1 npages.
Hypothesis Htag : ∀ t, tag vs' t ↔ tag vs t.
Hypothesis Hun : untagged vs old.

Local Lemma kf_arena : arena_ok a.
Proof. exact (so_arena _ _ _ (ko_sys _ _ _ Ho) _ _ (ko_kmap _ _ _ Ho)). Qed.

Local Lemma kf_live f : f ∈ live b' → f ∈ live b ∧ f ∈ live a' ∧ disjoint_ext old f.
Proof.
  intros Hf. assert (arena_ok b) as Hokb by exact (so_arena _ _ _ (ko_sys _ _ _ Ho) _ _ (ko_wired _ _ _ Ho)).
  pose proof (ordpairs_disjoint_perm _ _ _ _ (live_disjoint b Hokb) Hlb Hf) as Hd.
  assert (f ∈ live b) as Hfb by (rewrite Hlb; by right). split; [done|]. split; [|done].
  pose proof (ko_source _ _ _ Ho f Hfb) as Hfa. pose proof (live_heap a f kf_arena (ko_heap _ _ _ Ho) Hfa).
  rewrite Hla in Hfa. apply elem_of_cons in Hfa as [->|]; [|done].
  unfold disjoint_ext in Hd. lia.
Qed.

Local Lemma kf_pages f i : f ∈ live b' → 0 ≤ PGSIZE * i < f.2 →
  frame_at ps' f i = frame_at ps f i ∧ wired kpml4 ps' (frame_at ps f i).
Proof.
  intros Hf Hi. destruct (kf_live f Hf) as (Hfb & _ & Hd).
  assert (old ∈ live b) as Hob by (rewrite Hlb; left).
  assert (∀ j, 0 ≤ j < npages → 0 ≤ PGSIZE * j < old.2) as Hj by (intros; rewrite Esz; unfold PGSIZE; lia).
  split.
  - apply (uw_other _ _ _ _ _ U). intros j Hjn.
    apply not_eq_sym. change (old.1 + PGSIZE * j) with (page_at old j).
    eapply (page_at_apart a); [apply kf_arena|apply Ho|by apply (ko_source _ _ _ Ho)..|done|by apply Hj|done].
  - apply (uw_wired _ _ _ _ _ U); [by apply (ko_pages _ _ _ Ho)|]. intros j Hjn E.
    change (frame_at ps old j = frame_at ps f i) in E.
    apply (ko_inj _ _ _ Ho) in E; [|done..|by apply Hj|done].
    destruct (page_at_heap a f i kf_arena (ko_heap _ _ _ Ho) (ko_source _ _ _ Ho _ Hfb) Hi) as (_ & _ & ?).
    destruct (page_at_heap a old j kf_arena (ko_heap _ _ _ Ho) (ko_source _ _ _ Ho _ Hob) (Hj j Hjn)) as (_ & _ & ?).
    unfold disjoint_ext in Hd. lia.
Qed.

Lemma kfree_inv : kernel_ok (vs', ps') a' b'.
Proof.
  unfold header in Hh. injection Hh as _ _ _ _ _ Hh1 Hh2 Hh3.
  destruct (ko_fns _ _ _ Ho) as (F1 & F2 & F3).
  split; simpl; try done.
  - apply U.
  - split_and!; congruence.
  - destruct (ko_heap _ _ _ Ho) as [Hm Hb]. split; [by rewrite Hma|]. intros t Ht.
    destruct (Hbs t Ht) as [Hn|(t0 & Ht0 & ->)]; [by apply elem_of_nil in Hn|by apply Hb].
  - rewrite Hma. apply (ko_plain _ _ _ Ho).
  - intros m Hm. by apply (ko_imported _ _ _ Ho), Hmb.
  - eapply Permutation_cons_inv. rewrite <-Hlb, <-Hsb. apply Ho.
  - rewrite Hfr. apply Ho.
  - intros f Hf. by apply kf_live.
  - intros f Hf. apply (ko_sizes _ _ _ Ho). by apply kf_live.
  - intros x Hx. unfold free_known in *. rewrite (uw_free _ _ _ _ _ U) in Hx.
    rewrite (from_paddr_regions ps), (uw_field _ _ _ _ _ U) by apply U.
    destruct Hx as [Hx|(i & Hi & ->)]; [by apply (ko_free _ _ _ Ho)|].
    assert (wired kpml4 ps (frame_at ps old i)) as [_ ? ? _ _]; [|done].
    apply (ko_pages _ _ _ Ho); [rewrite Hlb; left|rewrite Esz; unfold PGSIZE; lia].
  - intros f i Hf Hi. destruct (kf_pages f i Hf Hi) as [-> ?]. done.
  - intros f g i j Hf Hg Hi Hj. destruct (kf_pages f i Hf Hi) as [-> _], (kf_pages g j Hg Hj) as [-> _].
    apply (ko_inj _ _ _ Ho); [by apply kf_live..|done|done].
  - intros t Ht Hin. rewrite Htag in Ht. destruct (ko_tags _ _ _ Ho t Ht Hin) as (f & Hf & Hft).
    simpl in Hf. rewrite Hlb in Hf. apply elem_of_cons in Hf as [->|Hf]; [by destruct (Hun t Ht)|by exists f].
Qed.
End kfree_inv.

(** The segment and the marker of a range that was handed out. *)
Lemma wired_segment st a b f :
  kernel_ok st a b → f ∈ live b →
  ∃ q1 m s q2, segqueue b = q1 ++ m :: s :: q2 ∧ starts_span q2 ∧ extent m = f ∧ extent s = f ∧
    seg_ty m = kVMemSegSpanImported ∧ seg_ty s = kVMemSegAllocated.
Proof.
  intros Ho Hf. assert (arena_ok b) as Hok by exact (so_arena _ _ _ (ko_sys _ _ _ Ho) _ _ (ko_wired _ _ _ Ho)).
  assert (f ∈ spans b) as Hsp by by rewrite <-(ko_whole _ _ _ Ho).
  apply list_elem_of_fmap in Hsp as (m & -> & Hm). pose proof (ko_imported _ _ _ Ho m Hm) as Hmt.
  apply list_elem_of_filter in Hm as [Hms Hm]. apply elem_of_live in Hf as (s & Hs & Hst & E).
  destruct (whole_span b m s Hok Hm Hs Hms (alloc_not_span _ Hst) E) as (q1 & q2 & Q & Hq).
  by exists q1, m, s, q2.
Qed.

(** The segment in the kernel map that a range was imported as. *)
Lemma source_segment st a b f :
  kernel_ok st a b → f ∈ live b → ∃ s, s ∈ segqueue a ∧ seg_ty s = kVMemSegAllocated ∧ extent s = f.
Proof. intros Ho Hf. apply (ko_source _ _ _ Ho), elem_of_live in Hf as (s & ? & ? & ->). by exists s. Qed.

Lemma plain_no_imports st a b : kernel_ok st a b → no_imports a.
Proof.
  intros Ho s Hs E. assert (s ∈ markers a) as Hm.
  { apply list_elem_of_filter. split; [unfold is_span; by rewrite E|done]. }
  apply (ko_plain _ _ _ Ho) in Hm. congruence.
Qed.

(** What giving a range back to the kernel map leaves. *)
Definition range_returned vs ps (a : vmem) (f : Z * Z) (npages : Z) (vs' : vstate) ps' : Prop :=
  ∃ a', arenas vs' !! kmap_vmem = Some a' ∧ live a ≡ₚ f :: live a' ∧ markers a' = markers a ∧
    bases_from [] a a' ∧ unwired kpml4 ps ps' f.1 npages ∧ ∀ t, tag vs' t ↔ tag vs t.

Lemma release_returned vs1 vs ps a b f npages :
  kernel_ok (vs, ps) a b → f ∈ live b → f.2 = npages * PGSIZE → 0 < npages < 2^19 →
  sys_inv (λ w c, w ≠ vm_kernel_wired → arena_ok c) [] vs1 → arenas vs1 !! kmap_vmem = arenas vs !! kmap_vmem →
  (∀ t, tag vs1 t ↔ tag vs t) →
  ∃ vs2 ps2, kernel_free kpml4 (vm_freefn b) (vm_source b) f.1 f.2 (vs1, ps) = Ok ((), (vs2, ps2)) ∧
    sys_inv (λ w c, w ≠ vm_kernel_wired → arena_ok c) [] vs2 ∧
    arenas vs2 !! vm_kernel_wired = arenas vs1 !! vm_kernel_wired ∧ range_returned vs ps a f npages vs2 ps2.
Proof.
  intros Ho Hf Esz Hn Hs1 Ha1 Ht1. destruct (ko_fns _ _ _ Ho) as (_ & F2 & F3).
  destruct (source_segment _ _ _ _ Ho Hf) as (s & Hin & Hty & Es).
  assert (seg_base s = f.1 ∧ seg_size s = f.2) as [Eb Ez] by by rewrite <-Es.
  assert (∀ i, 0 ≤ i < npages → 0 ≤ PGSIZE * i < f.2) as Hi by (intros; rewrite Esz; unfold PGSIZE; lia).
  pose proof (ko_kmap _ _ _ Ho) as Hk. simpl in Hk. rewrite Hk in Ha1. clear Hk.
  destruct (freewired_run (λ w c, w ≠ vm_kernel_wired → arena_ok c) [] vs1 ps a s npages)
    as (vs2 & ps2 & gain & Hrun & Hs2 & (a0 & a' & Ha0 & Hv & Hlive & Hm & _ & _ & _ & Hbs & Htag) & U); try done.
  - intros c. split; [by intros H; apply H|done].
  - by eapply plain_no_imports.
  - apply Ho.
  - by rewrite Ez.
  - apply Ho.
  - intros i Hin2. rewrite Es. apply (ko_pages _ _ _ Ho); [done|by apply Hi].
  - intros i k Hi1 Hk1. rewrite Es. intros E. apply (ko_inj _ _ _ Ho) in E; [|done|done|by apply Hi..].
    unfold page_at, PGSIZE in E. lia.
  - rewrite Ha1 in Ha0. injection Ha0 as <-. rewrite Eb, Ez in *. exists vs2, ps2.
    split; [unfold kernel_free; rewrite F2, F3; exact Hrun|]. split; [done|].
    split; [by rewrite Hv, lookup_insert_ne|]. exists a'. rewrite Hv, lookup_insert_eq.
    split_and!; try done; [by destruct f|]. intros t. by rewrite Htag.
Qed.

Lemma kfree_ok npages vs ps a b addr :
  kernel_ok (vs, ps) a b → (addr, npages * PGSIZE) ∈ live b → untagged vs (addr, npages * PGSIZE) →
  ∃ vs' ps' a' b', vm_kfree kpml4 addr npages (vs, ps) = Ok ((), (vs', ps')) ∧
    kernel_ok (vs', ps') a' b' ∧ live b ≡ₚ (addr, npages * PGSIZE) :: live b' ∧
    live a ≡ₚ (addr, npages * PGSIZE) :: live a' ∧ unwired kpml4 ps ps' addr npages ∧
    ∀ t, tag vs' t ↔ tag vs t.
Proof.
  intros Ho Hf Hun. destruct (ko_sizes _ _ _ Ho _ Hf) as (n & Hn & En). simpl in En.
  assert (n = npages) as -> by (unfold PGSIZE in En; lia).
  destruct (wired_segment _ _ _ _ Ho Hf) as (q1 & m & s & q2 & Q & Hq2 & Em & Es & Hmt & Hst).
  assert (seg_base s = addr ∧ seg_size s = npages * PGSIZE) as [Eb Ez] by (injection Es; auto).
  assert (seg_base m = addr ∧ seg_size m = npages * PGSIZE) as [Ebm Ezm] by (injection Em; auto).
  destruct (xfree_release_run (kernel_free kpml4) (λ _, arena_ok) []
    (range_returned vs ps a (addr, npages * PGSIZE) npages) vm_kernel_wired (w64 (npages * PGSIZE)) vs ps b s
    q1 m None None q2) as (vs2 & ps2 & vs' & b' & Hrun & Hs' & Hv' & (a' & Ha2 & Hla & Hma & Hbs & U & Ht2) & Q' & Hh & Ht');
    try done; try apply Ho.
  - intros x []%elem_of_nil.
  - simpl. lia.
  - intros t Ht. destruct q2 as [|t' q2]; simplify_eq/=. apply (ko_imported _ _ _ Ho).
    apply list_elem_of_filter. split; [done|]. rewrite Q. set_solver.
  - intros vs1 Hs1 Hw Ht1. rewrite Ebm, Ezm.
    apply (release_returned vs1 vs ps a b (addr, npages * PGSIZE)); try done. by apply Hw.
  - destruct (whole_span_removed b b' q1 q2 m s Q Q') as (Hlb & Hsb & Hfr & Hmb);
      [unfold is_span; by rewrite Hmt|done|]. rewrite Es in Hlb. rewrite Em in Hsb.
    rewrite Eb in Hrun. exists vs', ps2, a', b'. split.
    { unfold vm_kfree. by rewrite (bind_step _ _ _ _ _ Hrun). }
    assert (∀ t, tag vs' t ↔ tag vs t) as Htag by (intros t; by rewrite Ht', Ht2).
    split; [|done]. eapply (kfree_inv vs vs' ps ps2 a b a' b' (addr, npages * PGSIZE)); try done.
    + by rewrite Hv', lookup_insert_ne.
    + by rewrite Hv', lookup_insert_eq.
Qed.

(** C15: [vm_kfree] of any range that is handed out.  It returns; the range is no longer
    handed out by [vm_kernel_wired], nor allocated in the kernel map, and all
    other ranges still are; none of its pages translates any more, every other
    address translates as before, and the frames are on the free queue; the
    invariant that [vm_kalloc] relies on holds again. *)
Theorem vm_kfree_correct npages vs ps a b addr :
  kernel_ok (vs, ps) a b → (addr, npages * PGSIZE) ∈ live b → untagged vs (addr, npages * PGSIZE) →
  ∃ vs' ps' a' b', vm_kfree kpml4 addr npages (vs, ps) = Ok ((), (vs', ps')) ∧
    kernel_ok (vs', ps') a' b' ∧
    live b ≡ₚ (addr, npages * PGSIZE) :: live b' ∧ live a ≡ₚ (addr, npages * PGSIZE) :: live a' ∧
    (∀ i, 0 ≤ i < npages → pmap_trans kpml4 (addr + PGSIZE * i) ps' = Ok (0, ps') ∧
       ∃ page, pmap_trans kpml4 (addr + PGSIZE * i) ps = Ok (page, ps) ∧ on_queue ps' pgfreeq page) ∧
    ∀ w, (∀ i, 0 ≤ i < npages → vpage w ≠ vpage (addr + PGSIZE * i)) →
      ∃ pa, pmap_trans kpml4 w ps = Ok (pa, ps) ∧ pmap_trans kpml4 w ps' = Ok (pa, ps').
Proof.
  intros Ho Hf Hun. destruct (kfree_ok npages vs ps a b addr Ho Hf Hun)
    as (vs' & ps' & a' & b' & Hrun & Ho' & Hlb & Hla & U & _).
  pose proof (ko_pt _ _ _ Ho) as Hpt. simpl in Hpt.
  exists vs', ps', a', b'. split_and!; try done.
  - intros i Hi. rewrite !trans_run by (done || apply U). rewrite (uw_here _ _ _ _ _ U i Hi). split; [done|].
    eexists. split; [done|]. apply (uw_free _ _ _ _ _ U). right. by exists i.
  - intros w Hw. rewrite !trans_run by (done || apply U). rewrite (uw_other _ _ _ _ _ U w Hw). by eexists.
Qed.

(** What [vm_kalloc] takes, [vm_kfree] gives back: after a request and the release
    of what it returned, [vm_kernel_wired] has handed out, and the kernel map has
    allocated, what they had before; the range translates to nothing, and every
    other address as before. *)
Theorem vm_kalloc_kfree npages wait vs ps a b :
  kernel_ok (vs, ps) a b → request_ready npages wait (vs, ps) a →
  ∃ addr vs1 ps1 vs2 ps2 a2 b2,
    vm_kalloc kpml4 npages wait (vs, ps) = Ok (addr, (vs1, ps1)) ∧
    vm_kfree kpml4 addr npages (vs1, ps1) = Ok ((), (vs2, ps2)) ∧
    kernel_ok (vs2, ps2) a2 b2 ∧ live b2 ≡ₚ live b ∧ live a2 ≡ₚ live a ∧
    (∀ i, 0 ≤ i < npages → pmap_trans kpml4 (addr + PGSIZE * i) ps2 = Ok (0, ps2)) ∧
    ∀ w, (∀ i, 0 ≤ i < npages → vpage w ≠ vpage (addr + PGSIZE * i)) →
      ∃ pa, pmap_trans kpml4 w ps = Ok (pa, ps) ∧ pmap_trans kpml4 w ps2 = Ok (pa, ps2).
Proof.
  intros Ho Hr. destruct (kalloc_ok npages wait vs ps a b Ho Hr)
    as (addr & vs1 & ps1 & pages & a1 & b1 & Hrun1 & Hd & Ho1).
  pose proof Hd as [_ _ _ Hla1 Hlb1 _ _ _ _ _ _ _ _ _ _ Hlp W].
  destruct (kfree_ok npages vs1 ps1 a1 b1 addr Ho1) as (vs2 & ps2 & a2 & b2 & Hrun2 & Ho2 & Hlb2 & Hla2 & U & _);
    [rewrite Hlb1; left|by eapply (kalloc_untagged npages vs vs1 ps ps1 a b)|].
  exists addr, vs1, ps1, vs2, ps2, a2, b2. split_and!; try done.
  - eapply Permutation_cons_inv. by rewrite <-Hlb2, <-Hlb1.
  - eapply Permutation_cons_inv. by rewrite <-Hla2, <-Hla1.
  - intros i Hi. rewrite trans_run by apply U. by rewrite (uw_here _ _ _ _ _ U i Hi).
  - intros w Hw. rewrite !trans_run by (apply Ho || apply U). eexists. split; [done|].
    rewrite (uw_other _ _ _ _ _ U w Hw). do 2 f_equal. apply (wr_other _ _ _ _ _ W).
    intros i Hi. apply Hw. rewrite Hlp in Hi. destruct Hr. lia.
Qed.

(** ** The first requests: the tag pool is refilled *)

(** A request that comes while the pool of tags is low: [vm_kalloc] first wires a page
    for more tags.  With 128 or 129 tags the nested request for the kernel map
    would do so, which is not covered. *)
Record refill_ready (npages wait : Z) st (a : vmem) : Prop := {
  fr_npages : 0 < npages < 2^19;
  fr_flags : has_flag wait 2 = false;
  fr_tags : 73 ≤ nfreesegs st.1 < 128;
  fr_room : ∃ s, s ∈ segqueue a ∧ seg_ty s = kVMemSegFree ∧ (npages + 1) * PGSIZE ≤ seg_size s;
  fr_pages : (4 * S (Z.to_nat npages) ≤ length (pq_list (queues st.2 pgfreeq)))%nat;
}.

(** Room in the kernel map, for any request that is not for an exact address. *)
Lemma can_serve_heap a s size wait :
  arena_ok a → heap_arena a → s ∈ segqueue a → seg_ty s = kVMemSegFree → size ≤ seg_size s →
  can_serve size 0 (kalloc_flags wait) s.
Proof.
  intros Hok Hh Hs Hf Hsz. split; [done|]. rewrite kalloc_flags_exact.
  destruct (heap_bounds a s Hok Hh Hs). unfold seg_end, KHEAP_BASE, KHEAP_SIZE in *. lia.
Qed.

(** The tags of a new block join the pool. *)
Lemma pool_give vs l :
  sys_ok vs → NoDup l → (∀ t, t ∈ l → ¬ tag vs t) →
  sys_ok (VState (arenas vs) (l ++ free_segs vs) (nfreesegs vs + Z.of_nat (length l))).
Proof.
  intros [H1 H2 H3 H4 H5] ND Hf. split; simpl; try done.
  - apply NoDup_app. split_and!; [done| |done]. intros t Ht Hp. apply (Hf t Ht). by left.
  - rewrite length_app, H2. lia.
  - intros v a t Ha Ht [Hl|Hp]%elem_of_app.
    + apply (Hf _ Hl). right. exists v, a. split; [done|]. by apply list_elem_of_fmap_2.
    + by apply (H4 v a t Ha Ht).
Qed.

Lemma tag_pool vs l n t : tag (VState (arenas vs) (l ++ free_segs vs) n) t ↔ tag vs t ∨ t ∈ l.
Proof. unfold tag. cbn [free_segs arenas]. rewrite elem_of_app. tauto. Qed.

Lemma block_tags block t : t ∈ seg_block_tags block → block ≤ t < block + PGSIZE.
Proof. intros (i & -> & Hi%elem_of_seqZ)%list_elem_of_fmap. unfold PGSIZE. lia. Qed.
Lemma block_tags_nodup block : NoDup (seg_block_tags block).
Proof.
  unfold seg_block_tags. assert (Inj (=) (=) (λ i, block + 16 + 64 * i + 8)) by (intros i j ?; lia).
  apply (NoDup_fmap_2 _), NoDup_seqZ.
Qed.

(** A refill, when a page can be had. *)
Lemma refill_pool (alloc : Z → Z → M kstate Z) flags st vs1 ps1 wait block :
  nfreesegs st.1 < 128 → wait = (if has_flag flags kVMemSleep then 3 else 2) →
  alloc 1 wait st = Ok (block, (vs1, ps1)) → block ≠ 0 →
  seg_refill alloc flags st = Ok ((), (VState (arenas vs1) (reverse (seg_block_tags block) ++ free_segs vs1)
    (nfreesegs vs1 + Z.of_nat (length (reverse (seg_block_tags block)))), ps1)).
Proof.
  intros Hn -> Hrun Hb. unfold seg_refill. rewrite (bind_step mget _ st st st) by done.
  rewrite Z.geb_leb, (proj2 (Z.leb_gt 128 _)) by lia. rewrite (bind_step _ _ _ _ _ Hrun).
  rewrite (proj2 (Z.eqb_neq block 0)) by done. cbn [negb]. rewrite massert_bind, length_reverse.
  destruct vs1 as [m1 f1 n1]. apply seg_free_all.
Qed.

(** What a refill leaves: one more page wired, 63 more tags. *)
Record refilled vs vs1 ps ps1 (a b a1 b1 : vmem) (block : Z) : Prop := {
  rf_ok : kernel_ok (vs1, ps1) a1 b1;
  rf_live_a : live a1 ≡ₚ (block, PGSIZE) :: live a;
  rf_live_b : live b1 ≡ₚ (block, PGSIZE) :: live b;
  rf_tags t : tag vs1 t ↔ tag vs t ∨ t ∈ seg_block_tags block;
  rf_count : 130 ≤ nfreesegs vs1;
  rf_room : room_left 0 block PGSIZE a a1;
  rf_pages : (length (pq_list (queues ps pgfreeq)) ≤ 4 + length (pq_list (queues ps1 pgfreeq)))%nat;
}.

Lemma refill_run flags vs ps a b s :
  kernel_ok (vs, ps) a b → 73 ≤ nfreesegs vs < 128 → s ∈ segqueue a → seg_ty s = kVMemSegFree →
  PGSIZE ≤ seg_size s → (4 ≤ length (pq_list (queues ps pgfreeq)))%nat →
  ∃ block vs1 ps1 a1 b1, seg_refill (vm_kalloc_refill kpml4) flags (vs, ps) = Ok ((), (vs1, ps1)) ∧
    refilled vs vs1 ps ps1 a b a1 b1 block.
Proof.
  intros Ho Hn Hs Hf Hsz Hpg.
  assert (arena_ok a) as Hoka by exact (so_arena _ _ _ (ko_sys _ _ _ Ho) _ _ (ko_kmap _ _ _ Ho)).
  set (wait := if has_flag flags kVMemSleep then 3 else 2).
  assert (has_flag wait 2 = true) as Hw by (unfold wait; by destruct (has_flag flags kVMemSleep)).
  pose proof (so_count _ _ _ (ko_sys _ _ _ Ho)) as Hcount. simpl in Hcount.
  destruct (ko_fns _ _ _ Ho) as (F1 & F2 & F3).
  destruct (kalloc_run kpml4 (λ _ _, undef "nested refill") 1 wait vs ps a b s)
    as (block & vs1 & ps1 & pages & a1 & b1 & Hrun & Hd); [apply Ho|apply Ho| |].
  { split; try done; try apply Ho; [|by left|lia| |].
    - intros f Hfs. apply (ko_source _ _ _ Ho). by rewrite (ko_whole _ _ _ Ho).
    - eapply wired_search; [done|unfold PGSIZE; lia|apply kalloc_flags_exact].
    - apply (can_serve_heap a s); [done|apply Ho|done..]. }
  assert (kernel_ok (vs1, ps1) a1 b1) as Ho1 by (by eapply (kalloc_inv 1 vs vs1 ps ps1)).
  pose proof (kalloc_untagged 1 vs vs1 ps ps1 a b a1 b1 block pages Ho Hd) as Hun.
  pose proof Hd as [Hsys _ _ Hla Hlb _ _ _ _ _ Htag Hpool Hroom _ Hrg Hlp W].
  change (1 * PGSIZE) with PGSIZE in *.
  set (tags := seg_block_tags block).
  assert (∀ t, t ∈ reverse tags → within (block, PGSIZE) t) as Hin.
  { intros t Ht%elem_of_reverse. by apply block_tags. }
  set (vs2 := VState (arenas vs1) (reverse tags ++ free_segs vs1) (nfreesegs vs1 + Z.of_nat (length (reverse tags)))).
  assert (length (reverse tags) = 63%nat) as Hlen
    by (unfold tags, seg_block_tags; rewrite length_reverse, length_fmap, length_seqZ; done).
  assert (sys_ok vs2) as Hsys2.
  { apply pool_give; [done| |].
    - rewrite reverse_Permutation. apply block_tags_nodup.
    - intros t Ht Htg. apply (Hun t Htg), Hin, Ht. }
  assert (∀ t, tag vs2 t ↔ tag vs t ∨ t ∈ tags) as Htag2.
  { intros t. unfold vs2. by rewrite tag_pool, Htag, elem_of_reverse. }
  exists block, vs2, ps1, a1, b1. split.
  - apply (refill_pool _ _ _ _ _ wait); [simpl; lia|done|exact Hrun|unfold KHEAP_BASE in Hrg; lia].
  - split.
    + destruct Ho1. split; try done. intros t Ht Hh. apply Htag2 in Ht as [Ht|Ht].
      * apply ko_tags0; [by apply Htag|done].
      * exists (block, PGSIZE). split; [rewrite Hlb; left|]. by apply Hin, elem_of_reverse.
    + done.
    + done.
    + exact Htag2.
    + unfold vs2. cbn [nfreesegs]. rewrite Hlen. pose proof (so_count _ _ _ Hsys) as Hc1. lia.
    + done.
    + pose proof (wr_left _ _ _ _ _ W). rewrite Hlp in *. lia.
Qed.

(** Once the pool is full, the call runs as it does from the refilled state. *)
Lemma xalloc_refilled (refill : Z → Z → M kstate Z) ca cf v size min flags st st1 :
  size ≠ 0 → min = 0 ∨ has_flag flags kVMemExact = true → has_flag flags kVMemBootstrap = false →
  seg_refill refill flags st = Ok ((), st1) → 128 ≤ nfreesegs st1.1 →
  vmem_xalloc refill ca cf v size 0 0 0 min 0 flags st = vmem_xalloc refill ca cf v size 0 0 0 min 0 flags st1.
Proof.
  intros Hsz Hm Hb Hrun Hn. unfold vmem_xalloc. rewrite (proj2 (Z.eqb_neq size 0)) by done. rewrite !Z.eqb_refl.
  assert (((min =? 0) || has_flag flags kVMemExact)%bool = true) as -> by
    (destruct Hm as [->| ->]; [done|by rewrite orb_true_r]).
  rewrite !massert_bind. rewrite Hb. simpl negb. unfold mwhen. rewrite (bind_step _ _ _ _ _ Hrun).
  assert (seg_refill refill flags st1 = Ok ((), st1)) as E.
  { unfold seg_refill. rewrite (bind_step mget _ st1 st1 st1) by done.
    by rewrite Z.geb_leb, (proj2 (Z.leb_le 128 _)) by lia. }
  by rewrite (bind_step _ _ _ _ _ E).
Qed.

(** A request that comes while the pool is low runs as it does after the refill, and
    then finds what it needs. *)
Lemma kalloc_refill npages wait vs ps a b :
  kernel_ok (vs, ps) a b → refill_ready npages wait (vs, ps) a →
  ∃ block vs1 ps1 a1 b1, refilled vs vs1 ps ps1 a b a1 b1 block ∧
    vm_kalloc kpml4 npages wait (vs, ps) = vm_kalloc kpml4 npages wait (vs1, ps1) ∧
    request_ready npages wait (vs1, ps1) a1.
Proof.
  intros Ho [Hn Hw Ht (s & Hs & Hf & Hsz) Hpg]. simpl in Ht, Hpg.
  assert (PGSIZE ≤ seg_size s) as Hsz1 by (unfold PGSIZE in *; lia).
  destruct (refill_run (kalloc_flags wait) vs ps a b s) as (block & vs1 & ps1 & a1 & b1 & Hrun & R); try done.
  { lia. }
  exists block, vs1, ps1, a1, b1. split; [done|]. split.
  { unfold vm_kalloc, vm_kalloc_with. rewrite (w64_small (npages * PGSIZE)) by (unfold PGSIZE; lia).
    unfold mbind, M_bind. erewrite xalloc_refilled; [reflexivity|unfold PGSIZE; lia|by left|by rewrite kalloc_flags_boot|exact Hrun|].
    pose proof (rf_count _ _ _ _ _ _ _ _ _ R). simpl. lia. }
  pose proof R as [Ho1 _ _ _ Hc Hroom Hleft].
  assert (arena_ok a ∧ arena_ok a1) as [Hok Hok1].
  { split; [exact (so_arena _ _ _ (ko_sys _ _ _ Ho) _ _ (ko_kmap _ _ _ Ho))|].
    exact (so_arena _ _ _ (ko_sys _ _ _ Ho1) _ _ (ko_kmap _ _ _ Ho1)). }
  pose proof (so_count _ _ _ (ko_sys _ _ _ Ho1)) as Hcount. simpl in Hcount.
  split; simpl; [done|by right|lia| |lia].
  destruct (heap_bounds a s Hok (ko_heap _ _ _ Ho) Hs) as [Hlo _].
  destruct (Hroom s Hs) as [Hs1|(Hb & He & _ & Hrest)].
  - exists s. split; [done|]. apply (can_serve_heap a1); try done; [apply Ho1|]. unfold PGSIZE in *. lia.
  - unfold seg_end, KHEAP_BASE in *. destruct Hrest as (t & Ht1 & Htf & Htb & Hte); [unfold PGSIZE in *; lia|].
    exists t. split; [done|]. apply (can_serve_heap a1); try done; [apply Ho1|]. unfold PGSIZE in *. lia.
Qed.

(** ** What the clients hold *)

(** All tags, and the ranges that hold none: those were not taken for tags. *)
Definition tag_list vs : list Z :=
  free_segs vs ++ (map_to_list (arenas vs) ≫= λ va, seg_id <$> segqueue va.2).
Lemma elem_of_tag_list vs t : t ∈ tag_list vs ↔ tag vs t.
Proof.
  unfold tag_list, tag. rewrite elem_of_app, list_elem_of_bind. f_equiv. split.
  - intros ([v a] & Ht & Hv%elem_of_map_to_list). by exists v, a.
  - intros (v & a & Hv%elem_of_map_to_list & Ht). by exists (v, a).
Qed.

#[local] Instance within_dec f t : Decision (within f t) := _.
#[export] Instance untagged_dec vs f : Decision (untagged vs f).
Proof.
  destruct (decide (Forall (λ t, ¬ within f t) (tag_list vs))) as [Ha|Hn]; [left|right].
  - intros t Ht. rewrite Forall_forall in Ha. by apply Ha, elem_of_tag_list.
  - intros Hu. apply Hn, Forall_forall. intros t Ht%elem_of_tag_list. by apply Hu.
Defined.

Definition handed_out st : list (Z * Z) :=
  match arenas st.1 !! vm_kernel_wired with Some b => filter (untagged st.1) (live b) | None => [] end.

Lemma handed_out_eq st a b : kernel_ok st a b → handed_out st = filter (untagged st.1) (live b).
Proof. intros Ho. unfold handed_out. by rewrite (ko_wired _ _ _ Ho). Qed.

Lemma elem_of_handed_out st a b f : kernel_ok st a b → f ∈ handed_out st ↔ untagged st.1 f ∧ f ∈ live b.
Proof. intros Ho. rewrite (handed_out_eq _ _ _ Ho). apply list_elem_of_filter. Qed.

(** With the same tags, ranges come and go one by one. *)
Lemma handed_out_cons st st' a b a' b' f :
  kernel_ok st a b → kernel_ok st' a' b' → (∀ t, tag st'.1 t ↔ tag st.1 t) → untagged st.1 f →
  live b' ≡ₚ f :: live b → handed_out st' ≡ₚ f :: handed_out st.
Proof.
  intros Ho Ho' Ht Hf Hl. rewrite (handed_out_eq _ _ _ Ho), (handed_out_eq _ _ _ Ho').
  rewrite (list_filter_iff (untagged st'.1) (untagged st.1)).
  - by rewrite Hl, filter_cons_True by done.
  - intros g. unfold untagged. by setoid_rewrite Ht.
Qed.

(** A refill takes a page for tags: it is not handed out. *)
Lemma handed_out_refilled vs vs1 ps ps1 a b a1 b1 block :
  kernel_ok (vs, ps) a b → refilled vs vs1 ps ps1 a b a1 b1 block → handed_out (vs1, ps1) ≡ₚ handed_out (vs, ps).
Proof.
  intros Ho [Ho1 _ Hl Ht _ _ _].
  assert (arena_ok b1) as Hok by exact (so_arena _ _ _ (ko_sys _ _ _ Ho1) _ _ (ko_wired _ _ _ Ho1)).
  rewrite (handed_out_eq _ _ _ Ho), (handed_out_eq _ _ _ Ho1). simpl.
  rewrite Hl, filter_cons_False.
  - rewrite (filter_ext_elem (untagged vs1) (untagged vs)); [done|]. intros f Hf.
    pose proof (ordpairs_disjoint_perm _ _ _ _ (live_disjoint b1 Hok) Hl Hf) as Hd.
    unfold untagged. setoid_rewrite Ht. split; [by eauto|]. intros Hu t [Htg|Htg]; [by apply Hu|].
    apply block_tags in Htg. unfold disjoint_ext, within in *. simpl in Hd. lia.
  - intros Hu. apply (Hu (block + 24)).
    + apply Ht. right. apply list_elem_of_fmap. exists 0. split; [lia|]. by apply elem_of_seqZ.
    + unfold within, PGSIZE. simpl. lia.
Qed.

(** Both ways to serve a request. *)
Lemma kalloc_served npages wait vs ps a b :
  kernel_ok (vs, ps) a b → request_ready npages wait (vs, ps) a ∨ refill_ready npages wait (vs, ps) a →
  ∃ addr vs' ps' a' b', vm_kalloc kpml4 npages wait (vs, ps) = Ok (addr, (vs', ps')) ∧
    kernel_ok (vs', ps') a' b' ∧ untagged vs' (addr, npages * PGSIZE) ∧ (addr, npages * PGSIZE) ∈ live b' ∧
    (∀ f, f ∈ live b → f ∈ live b' ∧ disjoint_ext (addr, npages * PGSIZE) f) ∧
    KHEAP_BASE ≤ addr ∧ addr + npages * PGSIZE ≤ KHEAP_BASE + KHEAP_SIZE ∧ addr mod PGSIZE = 0 ∧
    handed_out (vs', ps') ≡ₚ (addr, npages * PGSIZE) :: handed_out (vs, ps).
Proof.
  intros Ho Hr.
  assert (∃ vs1 ps1 a1 b1, kernel_ok (vs1, ps1) a1 b1 ∧ request_ready npages wait (vs1, ps1) a1 ∧
    vm_kalloc kpml4 npages wait (vs, ps) = vm_kalloc kpml4 npages wait (vs1, ps1) ∧
    (∀ f, f ∈ live b → f ∈ live b1) ∧ handed_out (vs1, ps1) ≡ₚ handed_out (vs, ps))
    as (vs1 & ps1 & a1 & b1 & Ho1 & Hr1 & -> & Hl1 & Hpm).
  { destruct Hr as [Hr|Hr]; [by exists vs, ps, a, b|].
    destruct (kalloc_refill npages wait vs ps a b Ho Hr) as (block & vs1 & ps1 & a1 & b1 & R & ? & ?).
    exists vs1, ps1, a1, b1. split_and!; [apply R|done|done| |by eapply handed_out_refilled].
    intros f Hf. rewrite (rf_live_b _ _ _ _ _ _ _ _ _ R). by right. }
  destruct (kalloc_ok npages wait vs1 ps1 a1 b1 Ho1 Hr1) as (addr & vs' & ps' & pages & a' & b' & Hrun & Hd & Ho').
  pose proof (kalloc_untagged npages vs1 vs' ps1 ps' a1 b1 a' b' addr pages Ho1 Hd) as Hu.
  pose proof Hd as [_ _ _ _ Hlb _ _ _ _ _ Htag _ _ _ (Hlo & Hhi & Hal) _ _].
  assert (arena_ok b') as Hok by exact (so_arena _ _ _ (ko_sys _ _ _ Ho') _ _ (ko_wired _ _ _ Ho')).
  exists addr, vs', ps', a', b'. split_and!; try done.
  - rewrite Hlb. left.
  - intros f Hf%Hl1. split; [rewrite Hlb; by right|].
    by apply (ordpairs_disjoint_perm _ _ _ _ (live_disjoint b' Hok) Hlb).
  - rewrite <-Hpm. apply (handed_out_cons (vs1, ps1) (vs', ps') a1 b1 a' b'); try done. intros t Ht. apply Hu. by apply Htag.
Qed.

(** [vm_kalloc] when the tag pool is low, as it is from the start.  It first wires
    one more page, whose 63 tags join the pool, and then serves the request: the
    kernel map and [vm_kernel_wired] have both ranges besides what they had, the
    tags are the old ones and those of that page, every page of the range
    translates to a page frame, the invariant holds again, and to the clients only the
    range they asked for is handed out. *)
Theorem vm_kalloc_refill_correct npages wait vs ps a b :
  kernel_ok (vs, ps) a b → refill_ready npages wait (vs, ps) a →
  ∃ addr block vs' ps' a' b', vm_kalloc kpml4 npages wait (vs, ps) = Ok (addr, (vs', ps')) ∧
    kernel_ok (vs', ps') a' b' ∧
    live a' ≡ₚ (addr, npages * PGSIZE) :: (block, PGSIZE) :: live a ∧
    live b' ≡ₚ (addr, npages * PGSIZE) :: (block, PGSIZE) :: live b ∧
    (∀ t, tag vs' t ↔ tag vs t ∨ t ∈ seg_block_tags block) ∧ 124 ≤ nfreesegs vs' ∧
    (∀ i, 0 ≤ i < npages → ∃ page, pmap_trans kpml4 (addr + PGSIZE * i) ps' = Ok (page, ps') ∧ page_addr page) ∧
    handed_out (vs', ps') ≡ₚ (addr, npages * PGSIZE) :: handed_out (vs, ps).
Proof.
  intros Ho Hr. destruct (kalloc_refill npages wait vs ps a b Ho Hr) as (block & vs1 & ps1 & a1 & b1 & R & E & Hr1).
  pose proof R as [Ho1 Hla1 Hlb1 Ht1 Hc1 _ _].
  destruct (kalloc_ok npages wait vs1 ps1 a1 b1 Ho1 Hr1) as (addr & vs' & ps' & pages & a' & b' & Hrun & Hd & Ho').
  pose proof (kalloc_untagged npages vs1 vs' ps1 ps' a1 b1 a' b' addr pages Ho1 Hd) as Hu.
  pose proof Hd as [Hsys _ _ Hla Hlb _ _ _ _ _ Htag Hpool _ _ _ _ _].
  exists addr, block, vs', ps', a', b'. split_and!; [by rewrite E|done|by rewrite Hla, Hla1|by rewrite Hlb, Hlb1|..].
  - intros t. by rewrite Htag.
  - pose proof (so_count _ _ _ Hsys). pose proof (so_count _ _ _ (ko_sys _ _ _ Ho1)) as Hc. simpl in Hc. lia.
  - intros i Hi. eexists. split; [apply trans_run, Ho'|]. apply (wi_addr _ _ _ (ko_pages _ _ _ Ho' (addr, npages * PGSIZE) i
      ltac:(rewrite Hlb; left) ltac:(unfold PGSIZE; simpl; lia))).
  - rewrite <-(handed_out_refilled _ _ _ _ _ _ _ _ _ Ho R).
    apply (handed_out_cons (vs1, ps1) (vs', ps') a1 b1 a' b'); try done. intros t Ht. apply Hu. by apply Htag.
Qed.

(** The kernel's allocator keeps the promise of PageAlloc. *)
#[export] Program Instance kernel_pages : PageAlloc kstate := {
  pa_alloc := vm_kalloc kpml4;
  pa_free := vm_kfree kpml4;
  pa_inv st := ∃ a b, kernel_ok st a b;
  pa_live := handed_out;
  pa_ready npages wait st := ∃ a, arenas st.1 !! kmap_vmem = Some a ∧
    (request_ready npages wait st a ∨ refill_ready npages wait st a);
}.
Next Obligation.
  intros npages wait [vs ps] (a & b & Ho) (a0 & Ha & Hr).
  rewrite (ko_kmap _ _ _ Ho) in Ha. injection Ha as <-.
  destruct (kalloc_served npages wait vs ps a b Ho Hr)
    as (addr & vs' & ps' & a' & b' & Hrun & Ho' & _ & _ & Hd & Hlo & Hhi & Hal & Hp).
  unfold KHEAP_BASE, KHEAP_SIZE in *. exists addr, (vs', ps').
  split_and!; try done; [by exists a', b'|lia..|].
  intros r [_ Hin]%(elem_of_handed_out _ a b); [|done].
  destruct (Hd r Hin) as [_ Hdr]. unfold disjoint_ext, disjoint_ranges in *. simpl in *. lia.
Qed.
Next Obligation.
  intros npages addr [vs ps] (a & b & Ho) [Hu Hin]%(elem_of_handed_out _ a b); [|done].
  destruct (kfree_ok npages vs ps a b addr Ho Hin Hu) as (vs' & ps' & a' & b' & Hrun & Ho' & Hlb & _ & _ & Ht).
  exists (vs', ps'). split_and!; [done|by exists a', b'|].
  apply (handed_out_cons (vs', ps') (vs, ps) a' b' a b); try done.
  intros t Htg. apply Hu. by apply Ht.
Qed.

(** [kernel_ok] with nothing handed out. *)
Lemma kernel_ok_empty vs ps a b :
  sys_ok vs → pt_ok kpml4 ps → free_known ps → arenas vs !! kmap_vmem = Some a →
  arenas vs !! vm_kernel_wired = Some b → heap_arena a → (∀ m, m ∈ markers a → seg_ty m = kVMemSegSpan) →
  segqueue b = [] → vm_allocfn b = fn_allocwired → vm_freefn b = fn_freewired → vm_source b = kmap_vmem →
  (∀ t, tag vs t → ¬ in_heap t) → kernel_ok (vs, ps) a b.
Proof.
  intros Hs Hpt Hfk Ha Hb Hh Hm Hq F1 F2 F3 Ht.
  assert (live b = [] ∧ spans b = [] ∧ markers b = [] ∧ free_space b = []) as (El & Es & Em & Ef)
    by (unfold live, spans, markers, free_space, of_type; by rewrite Hq).
  split; simpl; try done.
  - intros m. rewrite Em. by intros ?%elem_of_nil.
  - by rewrite El, Es.
  - by rewrite Ef.
  - intros f. rewrite El. by intros ?%elem_of_nil.
  - intros f. rewrite El. by intros ?%elem_of_nil.
  - intros f i. rewrite El. by intros ?%elem_of_nil.
  - intros f g i j. rewrite El. by intros ?%elem_of_nil.
  - intros t Htg Hin. by destruct (Ht t Htg).
Qed.

(** [vm_kernel_init] establishes the invariant of [vm_kalloc] and [vm_kfree], with
    nothing handed out and one free segment, the kernel heap; so the first
    request for fewer than [2^19] pages finds what it needs, as long as there are
    page frames: with the flag that keeps the tag pool from being refilled at
    once, without it after the refill that the 126 tags left make it do. *)
Theorem vm_kernel_init_inv static_segs ps :
  pt_ok kpml4 ps → free_known ps → (∀ t, static_segs ≤ t < static_segs + 56 * 128 → ¬ in_heap t) →
  ∃ vs a b, vm_kernel_init static_segs (VState ∅ [] 0, ps) = Ok ((), (vs, ps)) ∧
    kernel_ok (vs, ps) a b ∧ live b = [] ∧ live a = [] ∧ nfreesegs vs = 126 ∧
    ∀ npages wait, 0 < npages < 2^19 →
      (4 * (if has_flag wait 2 then Z.to_nat npages else S (Z.to_nat npages)) ≤ length (pq_list (queues ps pgfreeq)))%nat →
      if has_flag wait 2 then request_ready npages wait (vs, ps) a else refill_ready npages wait (vs, ps) a.
Proof.
  intros Hpt Hfk Hstatic. destruct (vm_kernel_init_correct static_segs ps)
    as (vs & a & b & Hrun & Hs & Ha & Hb & Hh & Hsp & Hfr & Hla & Hq & F1 & F2 & F3 & Hn & Hm & Ht).
  exists vs, a, b. split; [done|]. split.
  { apply kernel_ok_empty; try done. intros t Hin. by apply Hstatic, Ht. }
  split; [unfold live, of_type; by rewrite Hq|]. split; [done|]. split; [done|]. intros npages wait Hnp Hpg.
  assert ((KHEAP_BASE, KHEAP_SIZE) ∈ free_space a) as Hin by (rewrite Hfr, Hsp; left).
  apply list_elem_of_fmap in Hin as (s & E & [Hf Hin]%list_elem_of_filter). injection E as Eb Es.
  destruct (has_flag wait 2) eqn:Hw.
  - split; simpl; [done|by left|pose proof (so_count _ _ _ Hs); simpl; lia| |lia].
    exists s. split; [done|]. apply (can_serve_heap a); try done.
    + exact (so_arena _ _ _ Hs _ _ Ha).
    + rewrite <-Es. unfold KHEAP_SIZE, PGSIZE. lia.
  - split; simpl; [done|done|lia| |done]. exists s. split_and!; [done|done|].
    rewrite <-Es. unfold KHEAP_SIZE, PGSIZE. lia.
Qed.
End inv.

(** ** At a small kernel *)

Lemma demo_free_known : free_known demo_pmap.
Proof.
  assert (Forall (λ x, vm_page_from_paddr demo_pmap x = Some x ∧ page_queue demo_pmap x = kVMPageFree)
    (pq_list (queues demo_pmap pgfreeq))) as H by (repeat constructor).
  rewrite Forall_forall in H. exact H.
Qed.

Lemma small_kernel_inv : kernel_ok 1048576 (small_kernel, demo_pmap) small_kmap small_wired.
Proof.
  apply kernel_ok_empty; try done; [apply small_kernel_ok|apply demo_pmap_ok|apply demo_free_known|..].
  - split.
    + intros m. unfold markers. simpl. intros [->|[]%elem_of_nil]%elem_of_cons.
      unfold seg_end. simpl. lia.
    + intros t. by intros [->|[->|[]%elem_of_nil]%elem_of_cons]%elem_of_cons.
  - intros m. unfold markers. simpl. by intros [->|[]%elem_of_nil]%elem_of_cons.
  - intros t Ht%elem_of_tag_list.
    assert (forallb (λ t, t <? KHEAP_BASE) (tag_list small_kernel) = true) as Hl by (vm_compute; reflexivity).
    rewrite forallb_forall in Hl. apply list_elem_of_In, Hl, Z.ltb_lt in Ht. unfold in_heap. lia.
Qed.

Lemma small_kernel_ready : request_ready 1 2 (small_kernel, demo_pmap) small_kmap.
Proof.
  split; [lia|by left|simpl; lia| |simpl; lia].
  exists (Seg 101 kVMemSegFree KHEAP_BASE KHEAP_SIZE). split; [right; left|]. split; [done|].
  vm_compute. split; [done|]. by intros ?.
Qed.

Lemma vm_kfree_correct_witness :
  ∃ addr st vs' ps' a' b', vm_kalloc 1048576 1 2 (small_kernel, demo_pmap) = Ok (addr, st) ∧
    vm_kfree 1048576 addr 1 st = Ok ((), (vs', ps')) ∧ kernel_ok 1048576 (vs', ps') a' b'.
Proof.
  destruct (kalloc_ok 1048576 1 2 _ _ _ _ small_kernel_inv small_kernel_ready)
    as (addr & vs & ps & pages & a & b & Hrun & Hd & Ho).
  destruct (vm_kfree_correct 1048576 1 vs ps a b addr Ho) as (vs' & ps' & a' & b' & Hrun' & Ho' & _).
  - rewrite (kd_live_b _ _ _ _ _ _ _ _ _ _ _ _ Hd). left.
  - exact (kalloc_untagged _ _ _ _ _ _ _ _ _ _ _ _ small_kernel_inv Hd).
  - exists addr, (vs, ps), vs', ps', a', b'. split; [exact Hrun|]. split; [exact Hrun'|exact Ho'].
Defined.

Lemma vm_kalloc_kfree_witness :
  ∃ addr st vs2 ps2 a2 b2, vm_kalloc 1048576 1 2 (small_kernel, demo_pmap) = Ok (addr, st) ∧
    vm_kfree 1048576 addr 1 st = Ok ((), (vs2, ps2)) ∧ live b2 ≡ₚ live small_wired ∧ live a2 ≡ₚ live small_kmap.
Proof.
  destruct (vm_kalloc_kfree 1048576 1 2 small_kernel demo_pmap small_kmap small_wired small_kernel_inv small_kernel_ready)
    as (addr & vs1 & ps1 & vs2 & ps2 & a2 & b2 & H1 & H2 & _ & H3 & H4 & _).
  exists addr, (vs1, ps1), vs2, ps2, a2, b2. split; [exact H1|]. split; [exact H2|]. split; [exact H3|exact H4].
Defined.

Lemma vm_kalloc_refill_correct_witness :
  ∃ vs addr st, vm_kernel_init 4096 (VState ∅ [] 0, demo_pmap) = Ok ((), (vs, demo_pmap)) ∧ nfreesegs vs = 126 ∧
    vm_kalloc 1048576 1 1 (vs, demo_pmap) = Ok (addr, st) ∧ handed_out st = [(addr, PGSIZE)].
Proof.
  destruct (vm_kernel_init_inv 1048576 4096 demo_pmap demo_pmap_ok demo_free_known)
    as (vs & a & b & H1 & H2 & H3 & H4 & H5 & H6).
  - intros t Ht. unfold in_heap, KHEAP_BASE. lia.
  - destruct (vm_kalloc_refill_correct 1048576 1 1 vs demo_pmap a b H2 (H6 1 1 ltac:(lia) ltac:(simpl; lia)))
      as (addr & block & vs' & ps' & a' & b' & H7 & _ & _ & _ & _ & _ & _ & H8).
    exists vs, addr, (vs', ps'). split; [exact H1|]. split; [exact H5|]. split; [exact H7|].
    rewrite (handed_out_eq _ _ _ _ H2), H3 in H8.
    by apply Permutation_singleton_r in H8.
Defined.
