(* ===== verification/KernelTrace.v ===== *)
(** * Any sequence of requests for kernel memory

    The steps a kernel takes through [vm_kalloc] and [vm_kfree] (vm/vm_kernel.c)
    after [vm_kernel_init]: a request that there is memory for, or the release of
    a range that is handed out.  What holds after any number of them. *)

From S2P Require Import Prelude Vmem VmemInv VmemSpan VmemProps VmPage Pmap PmapProps PmapKernel PageAlloc VmKernel VmKernelProps KernelMem.
Open Scope Z_scope.

Section trace.
Context (kpml4 : Z).

(** A request that can be served, with what it is for. *)
Inductive kernel_step : kstate → kstate → Prop :=
| ks_alloc npages wait st a addr st' :
    arenas st.1 !! kmap_vmem = Some a → request_ready npages wait st a ∨ refill_ready npages wait st a →
    vm_kalloc kpml4 npages wait st = Ok (addr, st') → kernel_step st st'
| ks_free npages addr st st' :
    (addr, npages * PGSIZE) ∈ handed_out st → vm_kfree kpml4 addr npages st = Ok ((), st') → kernel_step st st'.

Definition kernel_sound (st : kstate) : Prop := ∃ a b, kernel_ok kpml4 st a b.

(** Neither request fails: the step it asks for exists, and it leads to a sound
    state again. *)
Lemma alloc_served npages wait st a :
  kernel_sound st → arenas st.1 !! kmap_vmem = Some a →
  request_ready npages wait st a ∨ refill_ready npages wait st a →
  ∃ addr st', vm_kalloc kpml4 npages wait st = Ok (addr, st') ∧ kernel_sound st' ∧
    handed_out st' ≡ₚ (addr, npages * PGSIZE) :: handed_out st.
Proof.
  destruct st as [vs ps]. intros (a0 & b & Ho) Ha Hr. rewrite (ko_kmap _ _ _ _ Ho) in Ha. injection Ha as <-.
  destruct (kalloc_served kpml4 npages wait vs ps a0 b Ho Hr)
    as (addr & vs' & ps' & a' & b' & Hrun & Ho' & _ & _ & _ & _ & _ & _ & Hp).
  exists addr, (vs', ps'). split; [done|]. split; [by exists a', b'|done].
Qed.
Lemma free_served npages addr st :
  kernel_sound st → (addr, npages * PGSIZE) ∈ handed_out st →
  ∃ st', vm_kfree kpml4 addr npages st = Ok ((), st') ∧ kernel_sound st' ∧
    handed_out st ≡ₚ (addr, npages * PGSIZE) :: handed_out st'.
Proof. intros Hs Hin. exact (@pa_free_spec _ (kernel_pages kpml4) npages addr st Hs Hin). Qed.

Lemma kernel_step_sound st st' : kernel_sound st → kernel_step st st' → kernel_sound st'.
Proof.
  intros Hs Hstep. revert Hs. destruct Hstep as [npages wait s a addr s' Ha Hr Hrun|npages addr s s' Hin Hrun]; intros Hs.
  - destruct (alloc_served npages wait s a Hs Ha Hr) as (? & ? & E & H & _).
    rewrite Hrun in E. by injection E as <- <-.
  - destruct (free_served npages addr s Hs Hin) as (? & E & H & _). rewrite Hrun in E.
    by injection E as <-.
Qed.
Lemma kernel_steps_sound st st' : rtc kernel_step st st' → kernel_sound st → kernel_sound st'.
Proof. induction 1 as [|s s1 s' Hstep _ IH]; [done|]. intros Hs. by apply IH, (kernel_step_sound s). Qed.

(** ** What is handed out *)

Lemma ordpairs_filter {A} (P : A → Prop) `{∀ x, Decision (P x)} (R : A → A → Prop) l :
  ForallOrdPairs R l → ForallOrdPairs R (filter P l).
Proof.
  induction 1 as [|x l Hx _ IH]; [constructor|]. rewrite filter_cons. case_decide; [|done].
  constructor; [|done]. rewrite Forall_forall in *. intros y [_ Hy]%list_elem_of_filter. by apply Hx.
Qed.
Lemma handed_out_disjoint st : kernel_sound st → ForallOrdPairs disjoint_ext (handed_out st).
Proof.
  intros (a & b & Ho). rewrite (handed_out_eq _ _ _ _ Ho). apply ordpairs_filter, live_disjoint.
  exact (so_arena _ _ _ (ko_sys _ _ _ _ Ho) _ _ (ko_wired _ _ _ _ Ho)).
Qed.

(** A page of a range that is handed out: its own frame, which [pmap_trans] finds and
    which is neither free nor a table. *)
Lemma handed_out_page st f i :
  kernel_sound st → f ∈ handed_out st → 0 ≤ PGSIZE * i < f.2 →
  ∃ page, pmap_trans kpml4 (page_at f i) st.2 = Ok (page, st.2) ∧ page = frame_at kpml4 st.2 f i ∧ page_addr page ∧
    ¬ on_queue st.2 pgfreeq page ∧ ∀ a, inside page a → untouched kpml4 st.2 a.
Proof.
  intros (a & b & Ho) [_ Hf]%(elem_of_handed_out kpml4 _ a b) Hi; [|done].
  destruct (ko_pages _ _ _ _ Ho f i Hf Hi) as [Hpa _ _ Hq Hu]. exists (frame_at kpml4 st.2 f i).
  split; [apply trans_run, Ho|]. split_and!; try done.
  intros Hfree. pose proof (qo_disj _ (pt_queues _ _ (ko_pt _ _ _ _ Ho)) _ _ _ Hfree Hq). done.
Qed.
Lemma handed_out_frames st f g i j :
  kernel_sound st → f ∈ handed_out st → g ∈ handed_out st → 0 ≤ PGSIZE * i < f.2 → 0 ≤ PGSIZE * j < g.2 →
  frame_at kpml4 st.2 f i = frame_at kpml4 st.2 g j → page_at f i = page_at g j.
Proof.
  intros (a & b & Ho) [_ Hf]%(elem_of_handed_out kpml4 _ a b) [_ Hg]%(elem_of_handed_out kpml4 _ a b); [|done..].
  by apply (ko_inj _ _ _ _ Ho).
Qed.
Lemma handed_out_heap st f :
  kernel_sound st → f ∈ handed_out st →
  KHEAP_BASE ≤ f.1 ∧ f.1 + f.2 ≤ KHEAP_BASE + KHEAP_SIZE ∧ f.1 mod PGSIZE = 0.
Proof.
  intros (a & b & Ho) [_ Hf]%(elem_of_handed_out kpml4 _ a b); [|done]. apply (ko_source _ _ _ _ Ho) in Hf.
  destruct (live_heap a f) as (? & ? & ? & _); [|apply Ho|done|done].
  exact (so_arena _ _ _ (ko_sys _ _ _ _ Ho) _ _ (ko_kmap _ _ _ _ Ho)).
Qed.

(** C13: Kernel memory is safe, from [vm_kernel_init] on and after any number of
    requests.  Ranges that are handed out lie in the kernel heap and do not overlap;
    each of their pages translates to a frame that is neither free nor part of the
    page tables, and no other page of theirs translates to that frame.  Nor do
    requests get stuck: one there is memory for is served with a new range, and a range that is
    handed out can be released. *)
Theorem kernel_requests_safe static_segs ps st0 st :
  pt_ok kpml4 ps → free_known ps → (∀ t, static_segs ≤ t < static_segs + 56 * 128 → ¬ in_heap t) →
  vm_kernel_init static_segs (VState ∅ [] 0, ps) = Ok ((), st0) → rtc kernel_step st0 st →
  ForallOrdPairs disjoint_ext (handed_out st) ∧
  (∀ f, f ∈ handed_out st → KHEAP_BASE ≤ f.1 ∧ f.1 + f.2 ≤ KHEAP_BASE + KHEAP_SIZE ∧ f.1 mod PGSIZE = 0 ∧
     ∀ i, 0 ≤ PGSIZE * i < f.2 →
       ∃ page, pmap_trans kpml4 (page_at f i) st.2 = Ok (page, st.2) ∧ page_addr page ∧
         ¬ on_queue st.2 pgfreeq page ∧ (∀ a, inside page a → untouched kpml4 st.2 a) ∧
         ∀ g j, g ∈ handed_out st → 0 ≤ PGSIZE * j < g.2 →
           pmap_trans kpml4 (page_at g j) st.2 = Ok (page, st.2) → page_at f i = page_at g j) ∧
  (∀ npages wait a, arenas st.1 !! kmap_vmem = Some a → request_ready npages wait st a ∨ refill_ready npages wait st a →
     ∃ addr st', vm_kalloc kpml4 npages wait st = Ok (addr, st') ∧ handed_out st' ≡ₚ (addr, npages * PGSIZE) :: handed_out st) ∧
  (∀ npages addr, (addr, npages * PGSIZE) ∈ handed_out st →
     ∃ st', vm_kfree kpml4 addr npages st = Ok ((), st') ∧ handed_out st ≡ₚ (addr, npages * PGSIZE) :: handed_out st').
Proof.
  intros Hpt Hfk Hst Hi0 Hr. destruct (vm_kernel_init_inv kpml4 static_segs ps Hpt Hfk Hst) as (vs & a & b & Hinit & Ho & _).
  rewrite Hinit in Hi0. injection Hi0 as <-.
  assert (kernel_sound st) as Hs by (apply (kernel_steps_sound _ st Hr); by exists a, b).
  split; [by apply handed_out_disjoint|]. split; [|split].
  - intros f Hf. destruct (handed_out_heap st f Hs Hf) as (H1 & H2 & H3). do 3 (split; [done|]). intros i Hi.
    destruct (handed_out_page st f i Hs Hf Hi) as (page & H4 & E & H5 & H6 & H7). exists page.
    do 4 (split; [done|]). intros g j Hg Hj H8. apply (handed_out_frames st f g i j); try done.
    destruct (handed_out_page st g j Hs Hg Hj) as (page' & H9 & E' & _). congruence.
  - intros npages wait a0 Ha Hrd. destruct (alloc_served npages wait st a0 Hs Ha Hrd) as (addr & st' & ? & _ & ?).
    by exists addr, st'.
  - intros npages addr Hin. destruct (free_served npages addr st Hs Hin) as (st' & ? & _ & ?). by exists st'.
Qed.
End trace.

(** A request of one page after start-up, and its release. *)
Lemma kernel_requests_safe_witness :
  ∃ st0 st1 st2 addr, vm_kernel_init 4096 (VState ∅ [] 0, demo_pmap) = Ok ((), st0) ∧
    vm_kalloc 1048576 1 1 st0 = Ok (addr, st1) ∧ handed_out st1 = [(addr, PGSIZE)] ∧
    vm_kfree 1048576 addr 1 st1 = Ok ((), st2) ∧ handed_out st2 = [].
Proof.
  assert (∀ t, 4096 ≤ t < 4096 + 56 * 128 → ¬ in_heap t) as Hst by (intros t Ht; unfold in_heap, KHEAP_BASE; lia).
  destruct (vm_kernel_init_inv 1048576 4096 demo_pmap demo_pmap_ok demo_free_known Hst)
    as (vs & a & b & Hi & Ho & Hlb & _ & _ & Hrdy).
  destruct (kernel_requests_safe 1048576 4096 demo_pmap _ _ demo_pmap_ok demo_free_known Hst Hi (rtc_refl _ _))
    as (_ & _ & Hal & _).
  pose proof (Hrdy 1 1 ltac:(lia) ltac:(simpl; lia)) as Hr1.
  destruct (Hal 1 1 a (ko_kmap _ _ _ _ Ho) (or_intror Hr1)) as (addr & st1 & H1 & P1).
  rewrite (handed_out_eq _ _ _ _ Ho), Hlb in P1. apply Permutation_singleton_r in P1.
  destruct (kernel_requests_safe 1048576 4096 demo_pmap _ st1 demo_pmap_ok demo_free_known Hst Hi) as (_ & _ & _ & Hfr).
  { eapply rtc_l; [|apply rtc_refl]. eapply ks_alloc; [exact (ko_kmap _ _ _ _ Ho)|right; exact Hr1|exact H1]. }
  destruct (Hfr 1 addr) as (st2 & H2 & P2); [rewrite P1; left|].
  exists (vs, demo_pmap), st1, st2, addr. split; [exact Hi|]. split; [exact H1|]. split; [exact P1|]. split; [exact H2|].
  rewrite P1 in P2. apply Permutation_cons_inv in P2. by apply Permutation_nil_r.
Defined.
