(* ===== verification/Heap.v ===== *)
(** * The kernel heap, as its clients see it

    The state of the kernel heap contains that of the page allocator and of the
    virtual address space, which its clients also use directly.  An allocator of
    small objects gives, as long as it has free objects, addresses that are not
    in use, and does not touch the rest of the kernel while doing so; asked for no
    bytes, it stops the kernel.  KmemHeap shows that the slab allocator is one. *)

From S2P Require Import Prelude Vmem VmPage VmKernel.
Open Scope Z_scope.

Class KernelHeap (K : Type) := {
  kernel_of : K → kstate;
  with_kernel : kstate → K → K;
  heap_alloc : Z → M K Z;
  heap_free : Z → Z → M K unit;
  (** an object at this address, of this size, is in use *)
  heap_live : K → Z → Z → Prop;
  (** so many allocations of at most 256 bytes can be served without new pages *)
  heap_ready : nat → K → Prop;
  kernel_of_with s k : kernel_of (with_kernel s k) = s;
  with_kernel_of k : with_kernel (kernel_of k) k = k;
  heap_ready_with n s k : heap_ready n (with_kernel s k) ↔ heap_ready n k;
  heap_ready_less n k : heap_ready (S n) k → heap_ready n k;
  heap_live_with s k p z : heap_live (with_kernel s k) p z ↔ heap_live k p z;
  heap_alloc_spec n size k :
    heap_ready (S n) k → 0 < size ≤ 256 →
    ∃ p k', heap_alloc size k = Ok (p, k') ∧ kernel_of k' = kernel_of k ∧ heap_ready n k' ∧
      (∀ z, ¬ heap_live k p z) ∧ heap_live k' p size ∧ ∀ q z, heap_live k q z → heap_live k' q z;
  heap_free_spec n p size k :
    heap_ready n k → heap_live k p size →
    ∃ k', heap_free p size k = Ok ((), k') ∧ kernel_of k' = kernel_of k ∧
      (∀ m, heap_ready m k → heap_ready m k') ∧
      ∀ q z, heap_live k q z → q ≠ p → heap_live k' q z;
  heap_alloc_zero k : heap_alloc 0 k = Fatal "assert(size > 0)";
}.

(** A heap that never reuses an address. *)
Record counter_heap := CounterHeap { ch_next : Z; ch_live : list (Z * Z); ch_kernel : kstate }.
#[export] Program Instance counter_heap_ok : KernelHeap counter_heap := {
  kernel_of := ch_kernel;
  with_kernel s k := CounterHeap (ch_next k) (ch_live k) s;
  heap_alloc size k :=
    if 0 <? size then
      Ok (ch_next k, CounterHeap (ch_next k + 1) ((ch_next k, size) :: ch_live k) (ch_kernel k))
    else Fatal "assert(size > 0)";
  heap_free p _ k :=
    Ok ((), CounterHeap (ch_next k) (filter (λ x, x.1 ≠ p) (ch_live k)) (ch_kernel k));
  heap_live k p z := (p, z) ∈ ch_live k;
  heap_ready _ k := ∀ x, x ∈ ch_live k → x.1 < ch_next k;
}.
Next Obligation. done. Qed.
Next Obligation. by intros []. Qed.
Next Obligation. done. Qed.
Next Obligation. done. Qed.
Next Obligation. done. Qed.
Next Obligation.
  simpl. intros n size k Hr Hs. rewrite (proj2 (Z.ltb_lt 0 size)) by lia.
  eexists _, _. split; [done|]. split_and!; simpl; [done| | |by left|by right].
  - intros p [->|Hp]%elem_of_cons; simpl; [lia|]. specialize (Hr p Hp). lia.
  - intros z Hp. specialize (Hr _ Hp). simpl in Hr. lia.
Qed.
Next Obligation.
  simpl. intros n p size k Hn _. eexists. split; [done|]. split_and!; simpl; [done| |].
  - intros m Hr x [_ Hx]%list_elem_of_filter. auto.
  - intros q z Hq Hne. by apply list_elem_of_filter.
Qed.
Next Obligation. done. Qed.
