(* ===== verification/Klib.v ===== *)
(** * The kernel's C library: libkern/klib.c

    Memory is the byte function of VmPage; a [char] is read as the byte it has
    in memory.  The loops bounded by a length recurse on it; the loops that
    run to a NUL byte take fuel, and [strlen_correct] and its siblings show
    that the distance to the NUL is enough.  [strdup] is in Kmem, with the
    allocator it calls. *)

From S2P Require Import Prelude VmPage.
Open Scope Z_scope.

(** The store of one byte. *)
Definition poke (a v : Z) (m : mem) : mem := λ x, if x =? a then v else m x.

Fixpoint memcmp (m : mem) (c1 c2 : Z) (count : nat) : Z :=
  match count with
  | O => 0
  | S n => if m c1 =? m c2 then memcmp m (c1 + 1) (c2 + 1) n
           else if m c1 <? m c2 then -1 else 1
  end.

(** [for (i = 0; i < len; i++) dst[i] = src[i]], from [i], [n] turns. *)
Fixpoint memcpy_loop (dst src i : Z) (n : nat) (m : mem) : mem :=
  match n with
  | O => m
  | S n' => memcpy_loop dst src (i + 1) n' (poke (dst + i) (m (src + i)) m)
  end.
(** Returns [dst]. *)
Definition memcpy (dst src : Z) (len : nat) (m : mem) : Z * mem :=
  (dst, memcpy_loop dst src 0 len m).

(** [*--t = *--f] and [*t++ = *f++], [n] times. *)
Fixpoint memmove_down (t f : Z) (n : nat) (m : mem) : mem :=
  match n with
  | O => m
  | S n' => memmove_down (t - 1) (f - 1) n' (poke (t - 1) (m (f - 1)) m)
  end.
Fixpoint memmove_up (t f : Z) (n : nat) (m : mem) : mem :=
  match n with
  | O => m
  | S n' => memmove_up (t + 1) (f + 1) n' (poke t (m f) m)
  end.
Definition memmove (dst src : Z) (n : nat) (m : mem) : Z * mem :=
  (dst, if src <? dst
        then memmove_down (dst + Z.of_nat n) (src + Z.of_nat n) n m
        else memmove_up dst src n m).

Fixpoint memset_loop (ss c : Z) (len : nat) (m : mem) : mem :=
  match len with
  | O => m
  | S n => memset_loop (ss + 1) c n (poke ss (w8 c) m)
  end.
Definition memset (b c : Z) (len : nat) (m : mem) : Z * mem := (b, memset_loop b c len m).

(** [None]: out of fuel. *)
Fixpoint strcmp (fuel : nat) (m : mem) (s1 s2 : Z) : option Z :=
  match fuel with
  | O => None
  | S n => if m s1 =? m s2
           then if m s1 =? 0 then Some 0 else strcmp n m (s1 + 1) (s2 + 1)
           else Some (m s1 - m s2)
  end.

(** The value returned is the final [dst], one past the NUL. *)
Fixpoint strcpy (fuel : nat) (dst src : Z) (m : mem) : option (Z * mem) :=
  match fuel with
  | O => None
  | S n => let c := m src in
           let m' := poke dst c m in
           if c =? 0 then Some (dst + 1, m') else strcpy n (dst + 1) (src + 1) m'
  end.

Fixpoint strlen_from (fuel : nat) (m : mem) (s : Z) : option Z :=
  match fuel with
  | O => None
  | S n => if m s =? 0 then Some s else strlen_from n m (s + 1)
  end.
Definition strlen (fuel : nat) (m : mem) (str : Z) : option Z :=
  (λ s, s - str) <$> strlen_from fuel m str.

(** ** What they compute *)

(** The bytes of a buffer, and of a NUL-terminated string without the NUL. *)
Definition bytes_at (m : mem) (a : Z) (n : nat) : list Z := (λ i, m (a + i)) <$> seqZ 0 (Z.of_nat n).
Definition cstring (m : mem) (a : Z) (l : list Z) : Prop :=
  bytes_at m a (length l) = l ∧ m (a + Z.of_nat (length l)) = 0 ∧ Forall (λ c, c ≠ 0) l.

Lemma bytes_at_S m a n : bytes_at m a (S n) = m a :: bytes_at m (a + 1) n.
Proof.
  unfold bytes_at. rewrite seqZ_cons by lia.
  replace (Z.pred (Z.of_nat (S n))) with (Z.of_nat n) by lia. csimpl. f_equal; [f_equal; lia|].
  rewrite <-(fmap_add_seqZ 1 0), <-list_fmap_compose. apply list_fmap_ext.
  intros ? i _. simpl. f_equal. lia.
Qed.

Lemma length_bytes_at m a n : length (bytes_at m a n) = n.
Proof. unfold bytes_at. rewrite length_fmap, length_seqZ. lia. Qed.

Lemma poke_eq a v m : poke a v m a = v.
Proof. unfold poke. by rewrite Z.eqb_refl. Qed.
Lemma poke_ne a v m x : x ≠ a → poke a v m x = m x.
Proof. intros. unfold poke. by rewrite (proj2 (Z.eqb_neq _ _)). Qed.

Lemma cstring_nil m a : cstring m a [] ↔ m a = 0.
Proof. unfold cstring. simpl. rewrite Z.add_0_r. split; [naive_solver|]. intros. by repeat split. Qed.

Lemma cstring_cons m a c l : cstring m a (c :: l) ↔ m a = c ∧ c ≠ 0 ∧ cstring m (a + 1) l.
Proof.
  unfold cstring. simpl length. rewrite bytes_at_S, Forall_cons.
  replace (a + Z.of_nat (S (length l))) with (a + 1 + Z.of_nat (length l)) by lia.
  split; [intros ([= ? ?] & ? & ? & ?)|intros (? & ? & ? & ? & ?)]; split_and!; congruence.
Qed.

Lemma memcpy_loop_spec dst src n m i :
  dst ≤ src ∨ src + i + Z.of_nat n ≤ dst + i →
  ∀ x, memcpy_loop dst src i n m x =
    if in_range (dst + i) (Z.of_nat n) x then m (src + (x - dst)) else m x.
Proof.
  revert i m. induction n as [|n IH]; intros i m Hd x.
  { simpl. by rewrite in_range_false by lia. }
  simpl memcpy_loop. rewrite IH by lia. unfold poke, in_range.
  zcases; f_equal; lia.
Qed.

Lemma memmove_up_spec t f n m :
  t ≤ f → ∀ x, memmove_up t f n m x = if in_range t (Z.of_nat n) x then m (f + (x - t)) else m x.
Proof.
  revert t f m. induction n as [|n IH]; intros t f m Hd x.
  { simpl. by rewrite in_range_false by lia. }
  simpl memmove_up. rewrite IH by lia. unfold poke, in_range.
  zcases; f_equal; lia.
Qed.

Lemma memmove_down_spec t f n m :
  f < t → ∀ x, memmove_down t f n m x =
    if in_range (t - Z.of_nat n) (Z.of_nat n) x then m (f + (x - t)) else m x.
Proof.
  revert t f m. induction n as [|n IH]; intros t f m Hd x.
  { simpl. by rewrite in_range_false by lia. }
  simpl memmove_down. rewrite IH by lia. unfold poke, in_range.
  zcases; f_equal; lia.
Qed.

Lemma memset_loop_spec ss c n m :
  ∀ x, memset_loop ss c n m x = if in_range ss (Z.of_nat n) x then w8 c else m x.
Proof.
  revert ss m. induction n as [|n IH]; intros ss m x.
  { simpl. by rewrite in_range_false by lia. }
  simpl memset_loop. rewrite IH. unfold poke, in_range. zcases.
Qed.

(** However source and destination overlap, [memmove] leaves at the
    destination the bytes the source had, changes nothing else and returns the
    destination; [memcpy] and [memset(_, 0, _)], where the ranges do not
    overlap forwards, do what the models of the page code take them to do. *)
Theorem memmove_correct dst src n m :
  fst (memmove dst src n m) = dst ∧
  (∀ x, snd (memmove dst src n m) x =
     if in_range dst (Z.of_nat n) x then m (src + (x - dst)) else m x) ∧
  (dst ≤ src ∨ src + Z.of_nat n ≤ dst →
     ∀ x, snd (memcpy dst src n m) x = mem_copy dst src (Z.of_nat n) m x) ∧
  ∀ x, snd (memset dst 0 n m) x = mem_zero dst (Z.of_nat n) m x.
Proof.
  split_and!; [done| | |].
  - intros x. unfold memmove. simpl. destruct (Z.ltb_spec src dst).
    + rewrite memmove_down_spec by lia. unfold in_range. zcases; f_equal; lia.
    + by rewrite memmove_up_spec by lia.
  - intros Hd x. unfold memcpy. simpl. rewrite memcpy_loop_spec by lia.
    unfold mem_copy. by rewrite Z.add_0_r.
  - intros x. unfold memset. simpl. by rewrite memset_loop_spec.
Qed.

(** Lexicographic comparison, of unsigned bytes. *)
Fixpoint lex (l1 l2 : list Z) : comparison :=
  match l1, l2 with
  | [], [] => Eq
  | [], _ :: _ => Lt
  | _ :: _, [] => Gt
  | c1 :: l1', c2 :: l2' => if c1 =? c2 then lex l1' l2' else if c1 <? c2 then Lt else Gt
  end.
Definition as_int (c : comparison) : Z := match c with Lt => -1 | Eq => 0 | Gt => 1 end.

Lemma lex_Eq l1 l2 : lex l1 l2 = Eq ↔ l1 = l2.
Proof.
  revert l2. induction l1 as [|c1 l1 IH]; intros [|c2 l2]; simpl; try done.
  destruct (Z.eqb_spec c1 c2) as [->|].
  - rewrite IH. naive_solver.
  - destruct (c1 <? c2); naive_solver.
Qed.

Lemma memcmp_lex m a b n : memcmp m a b n = as_int (lex (bytes_at m a n) (bytes_at m b n)).
Proof.
  revert a b. induction n as [|n IH]; intros a b; [done|].
  rewrite !bytes_at_S. simpl. rewrite IH. zcases; done.
Qed.

Lemma strcmp_lex fuel m s1 s2 l1 l2 :
  cstring m s1 l1 → cstring m s2 l2 → Forall (λ c, 0 ≤ c) l1 → Forall (λ c, 0 ≤ c) l2 →
  (length l1 < fuel)%nat → ∃ r, strcmp fuel m s1 s2 = Some r ∧ Z.sgn r = as_int (lex l1 l2).
Proof.
  revert s1 s2 l1 l2. induction fuel as [|fuel IH]; intros s1 s2 l1 l2 H1 H2 P1 P2 Hf; [lia|].
  simpl. destruct l1 as [|c1 l1], l2 as [|c2 l2];
    rewrite ?cstring_nil, ?cstring_cons in *; simpl in Hf.
  - exists 0. by rewrite H1, H2.
  - destruct H2 as (H2 & Hn & _). apply Forall_cons in P2 as [? _]. rewrite H1, H2.
    exists (0 - c2). rewrite (proj2 (Z.eqb_neq 0 c2)) by congruence. split; [done|].
    rewrite Z.sgn_neg by lia. done.
  - destruct H1 as (H1 & Hn & _). apply Forall_cons in P1 as [? _]. rewrite H1, H2.
    exists (c1 - 0). rewrite (proj2 (Z.eqb_neq c1 0)) by congruence. split; [done|].
    rewrite Z.sgn_pos by lia. done.
  - destruct H1 as (H1 & Hn1 & H1'), H2 as (H2 & Hn2 & H2').
    apply Forall_cons in P1 as [? P1], P2 as [? P2]. rewrite H1, H2. simpl.
    destruct (Z.eqb_spec c1 c2) as [->|Hne].
    + rewrite (proj2 (Z.eqb_neq c2 0)) by done. apply IH; auto with lia.
    + eexists. split; [done|]. destruct (Z.ltb_spec c1 c2);
        [rewrite Z.sgn_neg by lia|rewrite Z.sgn_pos by lia]; done.
Qed.

(** [memcmp] and [strcmp] order byte ranges and NUL-terminated strings
    lexicographically, bytes taken as unsigned; they give 0 exactly for equal
    contents. *)
Theorem compare_correct m s1 s2 l1 l2 n fuel :
  cstring m s1 l1 → cstring m s2 l2 → Forall (λ c, 0 ≤ c) l1 → Forall (λ c, 0 ≤ c) l2 →
  (length l1 < fuel)%nat →
  (∃ r, strcmp fuel m s1 s2 = Some r ∧ Z.sgn r = as_int (lex l1 l2) ∧ (r = 0 ↔ l1 = l2)) ∧
  memcmp m s1 s2 n = as_int (lex (bytes_at m s1 n) (bytes_at m s2 n)) ∧
  (memcmp m s1 s2 n = 0 ↔ bytes_at m s1 n = bytes_at m s2 n).
Proof.
  intros H1 H2 P1 P2 Hf. split_and!.
  - destruct (strcmp_lex fuel m s1 s2 l1 l2) as (r & Hr & Hs); [done..|].
    exists r. split_and!; [done..|]. rewrite <-lex_Eq, <-Z.sgn_null_iff, Hs. by destruct (lex l1 l2).
  - apply memcmp_lex.
  - rewrite memcmp_lex, <-lex_Eq. by destruct (lex (bytes_at m s1 n) _).
Qed.

Definition demo_mem : mem := λ x, if x =? 10 then 97 else if x =? 20 then 98 else 0.
Lemma compare_correct_witness :
  (∃ r, strcmp 2 demo_mem 10 20 = Some r ∧ Z.sgn r = as_int (lex [97] [98]) ∧ (r = 0 ↔ [97] = [98])) ∧
  memcmp demo_mem 10 20 1 = as_int (lex (bytes_at demo_mem 10 1) (bytes_at demo_mem 20 1)) ∧
  (memcmp demo_mem 10 20 1 = 0 ↔ bytes_at demo_mem 10 1 = bytes_at demo_mem 20 1).
Proof.
  apply (compare_correct demo_mem 10 20 [97] [98] 1 2); repeat constructor; simpl; lia.
Defined.

Lemma strlen_run fuel m a l : cstring m a l → (length l < fuel)%nat → strlen fuel m a = Some (Z.of_nat (length l)).
Proof.
  intros H Hf. unfold strlen.
  assert (strlen_from fuel m a = Some (a + Z.of_nat (length l))) as ->; [|simpl; f_equal; lia].
  revert a l H Hf. induction fuel as [|fuel IH]; intros a l H Hf; [lia|]. simpl.
  destruct l as [|c l]; rewrite ?cstring_nil, ?cstring_cons in *.
  - rewrite H. simpl. f_equal. lia.
  - destruct H as (Hc & Hn & H). rewrite Hc, (proj2 (Z.eqb_neq _ _)) by done. simpl in *.
    rewrite (IH _ l) by (done || lia). f_equal. lia.
Qed.

Lemma cstring_ext m m' a l :
  (∀ i, 0 ≤ i ≤ Z.of_nat (length l) → m' (a + i) = m (a + i)) → cstring m a l → cstring m' a l.
Proof.
  intros E (H1 & H2 & H3). unfold cstring. rewrite E by lia. split_and!; try done.
  rewrite <-H1 at 2. unfold bytes_at. apply list_fmap_ext. intros i z Hz.
  apply lookup_seqZ in Hz as [-> ?]. apply E. lia.
Qed.

Lemma strcpy_run fuel m dst src l :
  cstring m src l → (length l < fuel)%nat →
  dst + Z.of_nat (length l) < src ∨ src + Z.of_nat (length l) < dst →
  ∃ m', strcpy fuel dst src m = Some (dst + Z.of_nat (length l) + 1, m') ∧ cstring m' dst l ∧
    ∀ x, x < dst ∨ dst + Z.of_nat (length l) < x → m' x = m x.
Proof.
  revert m dst src l. induction fuel as [|fuel IH]; intros m dst src l H Hf Hd; [lia|].
  cbn [strcpy]. cbv zeta. destruct l as [|c l].
  - apply cstring_nil in H. rewrite H. simpl. eexists. rewrite Z.add_0_r. split; [done|].
    split; [by rewrite cstring_nil, poke_eq|]. intros. apply poke_ne. simpl in *. lia.
  - apply cstring_cons in H as (Hm & Hn & H'). rewrite Hm, (proj2 (Z.eqb_neq _ _)) by done.
    simpl in Hf, Hd. destruct (IH (poke dst c m) (dst + 1) (src + 1) l) as (m' & -> & Hc & Ho); [|lia..|].
    { eapply cstring_ext; [|exact H']. intros. apply poke_ne. lia. }
    exists m'. split; [do 2 f_equal; simpl; lia|]. split.
    + apply cstring_cons. rewrite Ho by lia. by rewrite poke_eq.
    + simpl. intros x Hx. rewrite Ho by lia. apply poke_ne. lia.
Qed.

(** [strlen] gives the length of a string; [strcpy] copies the string with its
    NUL and nothing else, and returns the address after the copied NUL, not the
    destination. *)
Theorem strcpy_correct fuel m dst src l :
  cstring m src l → (length l < fuel)%nat →
  dst + Z.of_nat (length l) < src ∨ src + Z.of_nat (length l) < dst →
  strlen fuel m src = Some (Z.of_nat (length l)) ∧
  ∃ m', strcpy fuel dst src m = Some (dst + Z.of_nat (length l) + 1, m') ∧ cstring m' dst l ∧
    strlen fuel m' dst = Some (Z.of_nat (length l)) ∧
    ∀ x, x < dst ∨ dst + Z.of_nat (length l) < x → m' x = m x.
Proof.
  intros H Hf Hd. split; [by apply strlen_run|].
  destruct (strcpy_run fuel m dst src l H Hf Hd) as (m' & ? & ? & ?).
  exists m'. split_and!; try done. by apply strlen_run.
Qed.

Lemma strcpy_correct_witness :
  strlen 2 demo_mem 10 = Some 1 ∧
  ∃ m', strcpy 2 30 10 demo_mem = Some (32, m') ∧ cstring m' 30 [97] ∧ strlen 2 m' 30 = Some 1 ∧
    ∀ x, x < 30 ∨ 31 < x → m' x = demo_mem x.
Proof.
  apply (strcpy_correct 2 demo_mem 30 10 [97]); [|simpl; lia..].
  repeat constructor; simpl; lia.
Defined.
