(* ===== verification/Uuid.v ===== *)
(** * UUIDs: libkern/uuid.c

    A [uuid_t] is the list of its 16 bytes; [struct uuid] is a record.  The
    formatter behind [ksnprintf] is a vendored header and an argument. *)

From S2P Require Import Prelude VmPage Klib.
Open Scope Z_scope.

(** [struct uuid] *)
Record uuid := Uuid {
  time_low : Z;
  time_mid : Z;
  time_hi_and_version : Z;
  clock_seq : Z;
  node : list Z;
}.

(** [*ptr] at offset [i]. *)
Definition byte (l : list Z) (i : nat) : Z := default 0 (l !! i).
(** [(tmp << 8) | b] in [uint32_t]. *)
Definition push (tmp b : Z) : Z := w32 (Z.lor (Z.shiftl tmp 8) b).

Definition uuid_unpack (l : list Z) : uuid :=
  Uuid (push (push (push (byte l 0) (byte l 1)) (byte l 2)) (byte l 3))
       (w16 (push (byte l 4) (byte l 5)))
       (w16 (push (byte l 6) (byte l 7)))
       (w16 (push (byte l 8) (byte l 9)))
       (take 6 (drop 10 l)).

Definition uuid_pack (uu : uuid) : list Z :=
  let tl := time_low uu in
  [ w8 (Z.shiftr (Z.shiftr (Z.shiftr tl 8) 8) 8); w8 (Z.shiftr (Z.shiftr tl 8) 8);
    w8 (Z.shiftr tl 8); w8 tl;
    w8 (Z.shiftr (time_mid uu) 8); w8 (time_mid uu);
    w8 (Z.shiftr (time_hi_and_version uu) 8); w8 (time_hi_and_version uu);
    w8 (Z.shiftr (clock_seq uu) 8); w8 (clock_seq uu) ] ++ take 6 (node uu).

(** Two arrays one after the other in memory. *)
Definition two_arrays (a b : list Z) : mem := λ x, byte (a ++ b) (Z.to_nat x).

(** [UUCMP]: [None] goes on to the next field. *)
Definition UUCMP (u1 u2 : Z) : option Z :=
  if u1 =? u2 then None else Some (if u1 <? u2 then -1 else 1).

Definition uuid_compare (uu1 uu2 : list Z) : Z :=
  let uuid1 := uuid_unpack uu1 in
  let uuid2 := uuid_unpack uu2 in
  match UUCMP (time_low uuid1) (time_low uuid2) with Some r => r | None =>
  match UUCMP (time_mid uuid1) (time_mid uuid2) with Some r => r | None =>
  match UUCMP (time_hi_and_version uuid1) (time_hi_and_version uuid2) with Some r => r | None =>
  match UUCMP (clock_seq uuid1) (clock_seq uuid2) with Some r => r | None =>
  memcmp (two_arrays (node uuid1) (node uuid2)) 0 6 6
  end end end end.

(** [for (i = 0, cp = uu; i < 16; i++) if ( *cp++) return 0;] *)
Definition uuid_is_null (uu : list Z) : Z :=
  if existsb (λ i, negb (byte uu i =? 0)) (seq 0 16) then 0 else 1.

Definition UUID_STRING_LENGTH : Z := 36.
Definition fmt_lower : string := "%08x-%04x-%04x-%02x%02x-%02x%02x%02x%02x%02x%02x".
Definition fmt_upper : string := "%08X-%04X-%04X-%02X%02X-%02X%02X%02X%02X%02X%02X".

Section unparse.
(** [ksnprintf(out, size, fmt, ...)]: what it leaves in [out]. *)
Variable ksnprintf : Z → string → list Z → string.

Definition uuid_unparse_x (uu : list Z) (fmt : string) : string :=
  let uuid := uuid_unpack uu in
  ksnprintf UUID_STRING_LENGTH fmt
    ([ time_low uuid; time_mid uuid; time_hi_and_version uuid;
       Z.shiftr (clock_seq uuid) 8; Z.land (clock_seq uuid) 0xFF ]
     ++ (byte (node uuid) <$> seq 0 6)).
Definition uuid_unparse_lower (uu : list Z) : string := uuid_unparse_x uu fmt_lower.
Definition uuid_unparse_upper (uu : list Z) : string := uuid_unparse_x uu fmt_upper.
Definition uuid_unparse (uu : list Z) : string := uuid_unparse_x uu fmt_lower.
End unparse.

(** ** The two forms of a UUID *)

Definition is_byte (b : Z) : Prop := 0 ≤ b < 256.
Definition is_uuid (l : list Z) : Prop := length l = 16%nat ∧ Forall is_byte l.
Definition is_struct (u : uuid) : Prop :=
  0 ≤ time_low u < 2^32 ∧ 0 ≤ time_mid u < 2^16 ∧ 0 ≤ time_hi_and_version u < 2^16 ∧
  0 ≤ clock_seq u < 2^16 ∧ length (node u) = 6%nat ∧ Forall is_byte (node u).

Lemma push_eq t b : 0 ≤ t < 2^24 → is_byte b → push t b = 256 * t + b.
Proof.
  intros Ht Hb. unfold push, is_byte in *. rewrite lor_shiftl_add by (change (2^8) with 256; lia).
  change (2^8) with 256. apply w32_small. lia.
Qed.

(** The two halves of the 16-bit fields and the four bytes of [time_low]. *)
Lemma unpack16 b0 b1 : is_byte b0 → is_byte b1 → w16 (push b0 b1) = 256 * b0 + b1.
Proof.
  unfold is_byte. intros H0 H1. rewrite push_eq by (unfold is_byte; lia).
  apply Z.mod_small. lia.
Qed.
Lemma unpack32 b0 b1 b2 b3 : is_byte b0 → is_byte b1 → is_byte b2 → is_byte b3 →
  push (push (push b0 b1) b2) b3 = 2^24 * b0 + 2^16 * b1 + 256 * b2 + b3.
Proof.
  unfold is_byte. intros. rewrite (push_eq b0) by (unfold is_byte; lia).
  rewrite (push_eq (256 * b0 + b1)) by (unfold is_byte; lia).
  rewrite push_eq by (unfold is_byte; lia). lia.
Qed.

Lemma uuid_cases l : is_uuid l → ∃ b0 b1 b2 b3 b4 b5 b6 b7 b8 b9 n,
  l = [b0; b1; b2; b3; b4; b5; b6; b7; b8; b9] ++ n ∧ length n = 6%nat ∧ Forall is_byte n ∧
  is_byte b0 ∧ is_byte b1 ∧ is_byte b2 ∧ is_byte b3 ∧ is_byte b4 ∧ is_byte b5 ∧ is_byte b6 ∧
  is_byte b7 ∧ is_byte b8 ∧ is_byte b9.
Proof.
  intros [Hl Hb]. do 10 (destruct l as [|? l]; [done|]).
  repeat setoid_rewrite Forall_cons in Hb. destruct_and! Hb.
  eexists _, _, _, _, _, _, _, _, _, _, l. split_and!; try done. simpl in Hl. lia.
Qed.

Lemma unpack_eq b0 b1 b2 b3 b4 b5 b6 b7 b8 b9 n :
  is_byte b0 → is_byte b1 → is_byte b2 → is_byte b3 → is_byte b4 → is_byte b5 → is_byte b6 →
  is_byte b7 → is_byte b8 → is_byte b9 → length n = 6%nat →
  uuid_unpack ([b0; b1; b2; b3; b4; b5; b6; b7; b8; b9] ++ n) =
    Uuid (2^24 * b0 + 2^16 * b1 + 256 * b2 + b3) (256 * b4 + b5) (256 * b6 + b7) (256 * b8 + b9) n.
Proof.
  intros. unfold uuid_unpack.
  change (drop 10 ([b0; b1; b2; b3; b4; b5; b6; b7; b8; b9] ++ n)) with n.
  rewrite take_ge by lia. unfold byte. cbn [lookup list_lookup app default from_option].
  by rewrite unpack32, !unpack16.
Qed.

(** Packing and unpacking are inverse to each other: the 16 bytes of a
    UUID survive unpacking and packing, a structure whose fields are in the range
    of their types survives packing and unpacking, and each function gives a
    well-formed value. *)
Theorem uuid_roundtrip l u :
  is_uuid l → is_struct u →
  uuid_pack (uuid_unpack l) = l ∧ is_struct (uuid_unpack l) ∧
  uuid_unpack (uuid_pack u) = u ∧ is_uuid (uuid_pack u).
Proof.
  intros Hl Hu.
  destruct (uuid_cases l Hl) as (b0&b1&b2&b3&b4&b5&b6&b7&b8&b9&n&->&Hn&Hb&?&?&?&?&?&?&?&?&?&?).
  rewrite unpack_eq by done. destruct u as [tl tm th cs nd].
  destruct Hu as (?&?&?&?&Hnd&Hbd). simpl in *. unfold is_byte in *.
  assert (is_uuid (uuid_pack (Uuid tl tm th cs nd))) as Hp.
  { split; [unfold uuid_pack; simpl; by rewrite length_take, Hnd|].
    unfold uuid_pack. repeat (constructor; [apply Z.mod_pos_bound; lia|]).
    by apply Forall_take. }
  split_and!; [| |clear Hl|done].
  - unfold uuid_pack. simpl. rewrite take_ge by lia. unfold w8. rewrite !Z.shiftr_div_pow2 by lia.
    change (2^8) with 256. change (2^24) with 16777216. change (2^16) with 65536.
    repeat f_equal; zify; Z.to_euclidean_division_equations; lia.
  - unfold is_struct, is_byte. simpl. split_and!; try lia; done.
  - unfold uuid_pack. simpl. rewrite (take_ge nd) by lia.
    etransitivity; [apply unpack_eq; try apply Z.mod_pos_bound; lia|].
    unfold w8. rewrite !Z.shiftr_div_pow2 by lia.
    change (2^8) with 256. change (2^24) with 16777216. change (2^16) with 65536.
    f_equal; zify; Z.to_euclidean_division_equations; lia.
Qed.

(** ** Comparison *)

Lemma lex_app a1 a2 b1 b2 : length a1 = length b1 →
  lex (a1 ++ a2) (b1 ++ b2) = match lex a1 b1 with Eq => lex a2 b2 | c => c end.
Proof.
  revert b1. induction a1 as [|x a1 IH]; intros [|y b1] Hl; simpl in *; try done.
  rewrite IH by lia. zcases; done.
Qed.

Lemma bytes_at_eq m a l :
  (∀ i, (i < length l)%nat → m (a + Z.of_nat i) = byte l i) → bytes_at m a (length l) = l.
Proof.
  revert a. induction l as [|x l IH]; intros a Hm; [done|].
  simpl length. rewrite bytes_at_S. f_equal.
  - specialize (Hm 0%nat). rewrite Z.add_0_r in Hm. apply Hm. simpl. lia.
  - apply IH. intros i Hi. specialize (Hm (S i)). simpl in Hm.
    rewrite <-Z.add_assoc. replace (1 + Z.of_nat i) with (Z.of_nat (S i)) by lia. apply Hm. lia.
Qed.

Lemma two_arrays_compare a b : length a = length b →
  memcmp (two_arrays a b) 0 (Z.of_nat (length a)) (length a) = as_int (lex a b).
Proof.
  intros Hab. rewrite memcmp_lex. f_equal. f_equal; [|rewrite Hab]; apply bytes_at_eq; intros i Hi.
  - unfold two_arrays, byte. rewrite Z.add_0_l, Nat2Z.id. by rewrite lookup_app_l by lia.
  - unfold two_arrays, byte. rewrite <-Nat2Z.inj_add, Nat2Z.id.
    rewrite lookup_app_r by lia. f_equal. f_equal. lia.
Qed.

(** A big-endian field compares as its bytes do. *)
Lemma lex16 a0 a1 b0 b1 : is_byte a0 → is_byte a1 → is_byte b0 → is_byte b1 →
  UUCMP (256 * a0 + a1) (256 * b0 + b1) =
    match lex [a0; a1] [b0; b1] with Eq => None | c => Some (as_int c) end.
Proof. unfold is_byte, UUCMP. intros. simpl. zcases; lia || done. Qed.
Lemma lex32 a0 a1 a2 a3 b0 b1 b2 b3 :
  is_byte a0 → is_byte a1 → is_byte a2 → is_byte a3 →
  is_byte b0 → is_byte b1 → is_byte b2 → is_byte b3 →
  UUCMP (2^24 * a0 + 2^16 * a1 + 256 * a2 + a3) (2^24 * b0 + 2^16 * b1 + 256 * b2 + b3) =
    match lex [a0; a1; a2; a3] [b0; b1; b2; b3] with Eq => None | c => Some (as_int c) end.
Proof. unfold is_byte, UUCMP. intros. simpl lex. zcases; lia || done. Qed.

(** C40: Comparing two UUIDs field by field, as numbers of 32 and 16 bits, is
    comparing their 16 bytes in order: [uuid_compare] gives what [memcmp] of the
    two arrays gives.  It returns 0 exactly when they are equal; the comment at the
    head of libkern/uuid.c says 0 for different UUIDs and 1 for equal ones. *)
Theorem uuid_compare_bytes l1 l2 :
  is_uuid l1 → is_uuid l2 →
  uuid_compare l1 l2 = memcmp (two_arrays l1 l2) 0 16 16 ∧
  (uuid_compare l1 l2 = 0 ↔ l1 = l2).
Proof.
  intros H1 H2.
  assert (uuid_compare l1 l2 = as_int (lex l1 l2)) as ->.
  { destruct (uuid_cases l1 H1) as (a0&a1&a2&a3&a4&a5&a6&a7&a8&a9&n&->&Hn&_&?&?&?&?&?&?&?&?&?&?).
    destruct (uuid_cases l2 H2) as (b0&b1&b2&b3&b4&b5&b6&b7&b8&b9&n'&->&Hn'&_&?&?&?&?&?&?&?&?&?&?).
    unfold uuid_compare. rewrite !unpack_eq by done.
    cbn [time_low time_mid time_hi_and_version clock_seq node].
    rewrite lex32, !lex16 by done.
    assert (memcmp (two_arrays n n') 0 6 6 = as_int (lex n n')) as ->.
    { pose proof (two_arrays_compare n n' ltac:(lia)) as Hc. by rewrite Hn in Hc. }
    rewrite (lex_app [a0; a1; a2; a3; a4; a5; a6; a7; a8; a9] n) by done.
    change [a0; a1; a2; a3; a4; a5; a6; a7; a8; a9] with ([a0; a1; a2; a3] ++ [a4; a5] ++ [a6; a7] ++ [a8; a9]).
    change [b0; b1; b2; b3; b4; b5; b6; b7; b8; b9] with ([b0; b1; b2; b3] ++ [b4; b5] ++ [b6; b7] ++ [b8; b9]).
    rewrite (lex_app [a0; a1; a2; a3]), (lex_app [a4; a5]), (lex_app [a6; a7]) by done.
    by destruct (lex [a0; a1; a2; a3] [b0; b1; b2; b3]), (lex [a4; a5] [b4; b5]),
      (lex [a6; a7] [b6; b7]), (lex [a8; a9] [b8; b9]). }
  split.
  - pose proof (two_arrays_compare l1 l2) as Hc. rewrite (proj1 H1), (proj1 H2) in Hc. symmetry. by apply Hc.
  - rewrite <-lex_Eq. destruct (lex l1 l2); simpl; naive_solver lia.
Qed.

(** ** Witnesses *)

Definition demo_uuid : list Z :=
  [0xC1; 0x2A; 0x73; 0x28; 0xF8; 0x1F; 0x11; 0xD2; 0xBA; 0x4B; 0; 0xA0; 0xC9; 0x3E; 0xC9; 0x3B].
Definition demo_struct : uuid := Uuid 0xEBD0A0A2 0xB9E5 0x4433 0x87C0 [0x68; 0xB6; 0xB7; 0x26; 0x99; 0xC7].

Lemma uuid_roundtrip_witness :
  is_uuid demo_uuid ∧ is_struct demo_struct ∧
  uuid_pack (uuid_unpack demo_uuid) = demo_uuid ∧
  uuid_unpack (uuid_pack demo_struct) = demo_struct.
Proof.
  assert (is_uuid demo_uuid) as H1.
  { split; [done|]. unfold demo_uuid, is_byte. repeat constructor; lia. }
  assert (is_struct demo_struct) as H2.
  { unfold is_struct, is_byte. simpl. repeat constructor; lia. }
  destruct (uuid_roundtrip demo_uuid demo_struct H1 H2) as (?&_&?&_). done.
Defined.

Lemma uuid_compare_bytes_witness :
  is_uuid demo_uuid ∧ uuid_compare demo_uuid (uuid_pack demo_struct) = -1 ∧
  memcmp (two_arrays demo_uuid (uuid_pack demo_struct)) 0 16 16 = -1.
Proof.
  assert (is_uuid demo_uuid) as H1.
  { split; [done|]. unfold demo_uuid, is_byte. repeat constructor; lia. }
  assert (is_uuid (uuid_pack demo_struct)) as H2.
  { split; [done|]. unfold is_byte. vm_compute uuid_pack. repeat constructor; lia. }
  destruct (uuid_compare_bytes _ _ H1 H2) as [H _].
  split_and!; [done|done|]. by rewrite <-H.
Defined.
