(* ===== verification/Kmem.v ===== *)
(** * The slab allocator: kern/kmem_slab.c

    Zones, slabs and buffer control blocks are kept as records at their
    addresses; a free list is the list of its entries in order.  An object of a
    small slab is its own [kmem_bufctl] while it is free: the word of it that
    then holds [sle_next] is written in the byte memory too, so what an object
    contains after it was freed, or before it was first written, is not the
    caller's.  [kmem_zonealloc] of a large-object zone allocates from the two
    small-object zones for slab headers and bufctls, which never need a large
    slab themselves: the function is given with what makes a large slab as an
    argument, and closed one level up.  Zone locks are left out: each routine
    holds the lock of its zone from start to end. *)

From stdpp Require Export pretty.
From S2P Require Import Prelude VmPage Klib PageAlloc.
Open Scope Z_scope.

(** [sizeof(struct kmem_slab)] (the flexible [data] not counted) and
    [sizeof(struct kmem_bufctl)] *)
Definition sizeof_kmem_slab : Z := 32.
Definition sizeof_kmem_bufctl : Z := 24.

Record kmem_bufctl := Bufctl { bc_slab : Z; bc_base : Z }.
Record kmem_slab := Slab {
  slab_zone : Z;
  nfree : Z;
  firstfree : list Z;   (** the entries from [firstfree] on *)
  slab_data : Z;        (** [data[0]], of a large slab *)
}.
Record kmem_zone := Zone {
  zone_name : string;
  zone_size : Z;
  slablist : list Z;
  bufctllist : list Z;
}.

(** Zones are at small addresses of their own: the two internal ones, then the
    32 of [kmem_alloc_zones]. *)
Definition zone_kmem_slab : Z := 0.
Definition zone_kmem_bufctl : Z := 1.
Definition kmem_alloc_zone (zoneidx : Z) : Z := 2 + zoneidx.

Definition ZONE_SIZES : list Z :=
  [8; 16; 24; 32; 40; 48; 56; 64; 80; 96; 112; 128; 160; 192; 224; 256; 320; 384; 448; 512;
   640; 768; 896; 1024; 1280; 1536; 1792; 2048; 2560; 3072; 3584; 4096].
Definition kSmallSlabMax : Z := 256.
Definition SMALL_SLAB_HDR (base : Z) : Z := base + PGSIZE - sizeof_kmem_slab.

(** [slabsize] and [slabcapacity], of a zone for objects of [size] bytes. *)
Definition slabsize (size : Z) : Z :=
  if size <=? kSmallSlabMax then PGSIZE else PGROUNDUP (w64 (size * 16)).
Definition slabcapacity (size : Z) : Z :=
  w32 (if size <=? kSmallSlabMax then (slabsize size - sizeof_kmem_slab) / size
       else slabsize size / size).

Definition zonenum (size : Z) : Z :=
  if size <=? 64 then ROUNDUP size 8 / 8 - 1
  else if size <=? 128 then ROUNDUP (size - 64) 16 / 16 + 7
  else if size <=? 256 then ROUNDUP (size - 128) 32 / 32 + 11
  else if size <=? 512 then ROUNDUP (size - 256) 64 / 64 + 15
  else if size <=? 1024 then ROUNDUP (size - 512) 128 / 128 + 19
  else if size <=? 2048 then ROUNDUP (size - 1024) 256 / 256 + 23
  else if size <=? 4096 then ROUNDUP (size - 2048) 512 / 512 + 27
  else -1.

Section kmem.
Context {P : Type} `{!PageAlloc P}.

Record kmem := KMem {
  kmem_zones : list Z;              (** the list of all zones *)
  zones : gmap Z kmem_zone;
  slabs : gmap Z kmem_slab;
  bufctls : gmap Z kmem_bufctl;
  bytes : mem;
  pages : P;
}.

Definition set_zone (z : Z) (v : kmem_zone) (s : kmem) : kmem :=
  KMem (kmem_zones s) (<[z := v]> (zones s)) (slabs s) (bufctls s) (bytes s) (pages s).
Definition set_slab (h : Z) (v : kmem_slab) (s : kmem) : kmem :=
  KMem (kmem_zones s) (zones s) (<[h := v]> (slabs s)) (bufctls s) (bytes s) (pages s).
Definition set_bufctl (e : Z) (v : kmem_bufctl) (s : kmem) : kmem :=
  KMem (kmem_zones s) (zones s) (slabs s) (<[e := v]> (bufctls s)) (bytes s) (pages s).
Definition set_bytes (f : mem → mem) (s : kmem) : kmem :=
  KMem (kmem_zones s) (zones s) (slabs s) (bufctls s) (f (bytes s)) (pages s).

Definition get_zone (z : Z) : M kmem kmem_zone := λ s, deref (zones s !! z) "zone" s.
Definition get_slab (h : Z) : M kmem kmem_slab := λ s, deref (slabs s !! h) "slab" s.
Definition get_bufctl (e : Z) : M kmem kmem_bufctl := λ s, deref (bufctls s !! e) "bufctl" s.
Definition on_pa {A} (m : M P A) : M kmem A := λ s,
  match m (pages s) with
  | Ok (a, p) =>
      Ok (a, KMem (kmem_zones s) (zones s) (slabs s) (bufctls s) (bytes s) p)
  | Fatal w => Fatal w
  | Undef w => Undef w
  end.

(** ** Zones *)

Definition kmem_zone_init (z : Z) (name : string) (size : Z) : M kmem unit := λ s,
  Ok ((), KMem (kmem_zones s ++ [z]) (<[z := Zone name size [] []]> (zones s)) (slabs s)
            (bufctls s) (bytes s) (pages s)).

Definition kmem_init : M kmem unit :=
  kmem_zone_init zone_kmem_slab "kmem_slab" (sizeof_kmem_slab + 8);;
  kmem_zone_init zone_kmem_bufctl "kmem_bufctl" sizeof_kmem_bufctl;;
  mfor (seqZ 0 32) (λ i,
    kmem_zone_init (kmem_alloc_zone i) ("kmem_" +:+ pretty (ZONE_SIZES !!! Z.to_nat i))
      (ZONE_SIZES !!! Z.to_nat i)).

(** ** Allocation from a zone *)

(** The null page is not mapped. *)
Definition nonnull (ptr : Z) : M kmem unit := if ptr =? 0 then undef "NULL" else mret ().

(** The write to [sle_next] of an entry inside a small slab. *)
Definition link_bytes (entry next : Z) : M kmem unit :=
  mmodify (set_bytes (λ m, write64 m entry next)).

Definition small_slots (base size : Z) (n : Z) : list Z := (λ i, base + i * size) <$> seqZ 0 n.

Definition small_slab_new (z : Z) : M kmem Z :=
  base ← on_pa (pa_alloc 1 kVMKSleep);
  nonnull base;;
  let slab := SMALL_SLAB_HDR base in
  zone ← get_zone z;
  mmodify (set_zone z (Zone (zone_name zone) (zone_size zone) (slab :: slablist zone)
                         (bufctllist zone)));;
  let cap := slabcapacity (zone_size zone) in
  mmodify (set_slab slab (Slab z cap (small_slots base (zone_size zone) cap) 0));;
  mfor (small_slots base (zone_size zone) cap)
    (λ entry, link_bytes entry (entry + zone_size zone));;
  link_bytes (base + (cap - 1) * zone_size zone) 0;;
  mret slab.

(** The two halves of [kmem_zonealloc]: the slab to allocate from, [slab_new]
    making a new one, and the entry taken from it. *)
Definition pick_slab (slab_new : Z → M kmem Z) (z : Z) : M kmem Z :=
  zone ← get_zone z;
  match slablist zone with
  | [] => slab_new z
  | h :: _ =>
      slab ← get_slab h;
      if nfree slab =? 0 then slab_new z else mret h
  end.

Definition take_entry (z h : Z) : M kmem Z :=
  slab ← get_slab h;
  match firstfree slab with
  | [] => undef "entry->entrylist"
  | entry :: next =>
      mmodify (set_slab h (Slab (slab_zone slab) (w32 (nfree slab - 1)) next (slab_data slab)));;
      zone ← get_zone z;
      (match next with
       | [] => mmodify (set_zone z (Zone (zone_name zone) (zone_size zone)
                 (tq_remove (λ x, x) h (slablist zone) ++ [h]) (bufctllist zone)))
       | _ :: _ => mret ()
       end);;
      zone ← get_zone z;
      if zone_size zone <=? kSmallSlabMax then mret entry
      else
        mmodify (set_zone z (Zone (zone_name zone) (zone_size zone) (slablist zone)
                   (entry :: bufctllist zone)));;
        bc ← get_bufctl entry;
        mret (bc_base bc)
  end.

Definition kmem_zonealloc_with (slab_new : Z → M kmem Z) (z : Z) : M kmem Z :=
  h ← pick_slab slab_new z;
  take_entry z h.

(** For the zones of slab headers and bufctls. *)
Definition kmem_zonealloc_small : Z → M kmem Z := kmem_zonealloc_with small_slab_new.

(** The loop of [large_slab_new], from entry [i]; the entries come in order. *)
Fixpoint large_entries (slab data size i : Z) (n : nat) : M kmem (list Z) :=
  match n with
  | O => mret []
  | S n' =>
      entry ← kmem_zonealloc_small zone_kmem_bufctl;
      mmodify (set_bufctl entry (Bufctl slab (data + size * i)));;
      rest ← large_entries slab data size (i + 1) n';
      mret (entry :: rest)
  end.

Definition large_slab_new (z : Z) : M kmem Z :=
  slab ← kmem_zonealloc_small zone_kmem_slab;
  zone ← get_zone z;
  mmodify (set_zone z (Zone (zone_name zone) (zone_size zone) (slab :: slablist zone)
                         (bufctllist zone)));;
  let cap := slabcapacity (zone_size zone) in
  data ← on_pa (pa_alloc (slabsize (zone_size zone) / PGSIZE) kVMKSleep);
  entries ← large_entries slab data (zone_size zone) 0 (Z.to_nat cap);
  mmodify (set_slab slab (Slab z cap entries data));;
  mret slab.

Definition kmem_zonealloc (z : Z) : M kmem Z :=
  kmem_zonealloc_with (λ z,
    zone ← get_zone z;
    if kSmallSlabMax <? zone_size zone then large_slab_new z else small_slab_new z) z.

(** ** Release to a zone *)

Definition kmem_zonefree (z ptr : Z) : M kmem unit :=
  zone ← get_zone z;
  h ← (if zone_size zone <=? kSmallSlabMax then
         mret (SMALL_SLAB_HDR (PGROUNDDOWN ptr), ptr)
       else
         s ← mget;
         match List.find (λ e, match bufctls s !! e with Some bc => bc_base bc =? ptr | None => false end)
                 (bufctllist zone) with
         | None => undef "newfree is not initialised"
         | Some iter =>
             mmodify (set_zone z (Zone (zone_name zone) (zone_size zone) (slablist zone)
                        (tq_remove (λ x, x) iter (bufctllist zone))));;
             bc ← get_bufctl iter;
             mret (bc_slab bc, iter)
         end);
  let '(h, newfree) := h in
  slab ← get_slab h;
  mmodify (set_slab h (Slab (slab_zone slab) (w32 (nfree slab + 1)) (newfree :: firstfree slab)
                         (slab_data slab)));;
  if zone_size zone <=? kSmallSlabMax
  then link_bytes newfree (default 0 (head (firstfree slab)))
  else mret ().

(** ** [kmem_alloc] and its relatives *)

Definition kmem_alloc (size : Z) : M kmem Z :=
  massert (0 <? size) "assert(size > 0)";;
  let zoneidx := zonenum size in
  if zoneidx =? -1 then on_pa (pa_alloc (PGROUNDUP size / PGSIZE) kVMKSleep)
  else kmem_zonealloc (kmem_alloc_zone zoneidx).

Definition kmem_free (ptr size : Z) : M kmem unit :=
  let zoneidx := zonenum size in
  massert (0 <? size) "assert(size > 0)";;
  if zoneidx =? -1 then on_pa (pa_free ptr (PGROUNDUP size / PGSIZE))
  else kmem_zonefree (kmem_alloc_zone zoneidx) ptr.

Definition kmem_realloc (ptr oldSize size : Z) : M kmem Z :=
  ret ← kmem_alloc size;
  mwhen (negb (ptr =? 0)) (
    massert (0 <? oldSize) "assert(oldSize > 0)";;
    massert (oldSize <? size) "assert(size > oldSize)";;
    nonnull ret;;
    mmodify (set_bytes (λ m, snd (memcpy ret ptr (Z.to_nat oldSize) m)));;
    kmem_free ptr oldSize);;
  mret ret.

Definition kmem_zalloc (size : Z) : M kmem Z :=
  ret ← kmem_alloc size;
  nonnull ret;;
  mmodify (set_bytes (λ m, snd (memset ret 0 (Z.to_nat size) m)));;
  mret ret.

(** [fuel] bounds the search for the NUL. *)
Definition strdup (fuel : nat) (src : Z) : M kmem Z :=
  s ← mget;
  len ← deref (strlen fuel (bytes s) src) "strlen";
  let size := len + 1 in
  str ← kmem_alloc size;
  nonnull str;;
  mmodify (set_bytes (λ m, snd (memcpy str src (Z.to_nat size) m)));;
  mret str.

Definition kmem_strfree (fuel : nat) (str : Z) : M kmem Z :=
  s ← mget;
  len ← deref (strlen fuel (bytes s) str) "strlen";
  kmem_free str len;;
  mret 0.

(** What [kmem_dump] prints of each zone: name, size, slabs, objects in use,
    free objects. *)
Definition kmem_dump (s : kmem) : list (option (string * Z * Z * Z * Z)) :=
  (λ z, zone ← zones s !! z;
        let nSlabs := Z.of_nat (length (slablist zone)) in
        let totalFree := foldr (λ h n, default 0 (nfree <$> slabs s !! h) + n) 0 (slablist zone) in
        Some (zone_name zone, zone_size zone, nSlabs,
              w64 (slabcapacity (zone_size zone) * nSlabs - totalFree), totalFree)) <$> kmem_zones s.
End kmem.
Arguments kmem : clear implicits.
