(* ===== verification/KmemProps.v ===== *)
(** * The slab allocator, verified

    The invariant of the zones of small objects, what their operations do to the
    set of allocated objects, and the choice of a zone by [kmem_alloc]. *)

From S2P Require Import Prelude VmPage Klib PageAlloc Kmem.
Open Scope Z_scope.

(** ** Slots *)

Lemma capacity_small size : 8 ≤ size ≤ 256 → 0 < slabcapacity size ∧ slabcapacity size * size ≤ 4064.
Proof.
  intros H. unfold slabcapacity, slabsize, kSmallSlabMax, PGSIZE, sizeof_kmem_slab.
  rewrite (proj2 (Z.leb_le _ _)) by lia. rewrite w32_small; Z.div_mod_to_equations; nia.
Qed.

Lemma elem_of_slots base size n p :
  p ∈ small_slots base size n ↔ ∃ i, 0 ≤ i < n ∧ p = base + i * size.
Proof.
  unfold small_slots. rewrite list_elem_of_fmap. split.
  - intros (i & -> & Hi%elem_of_seqZ). exists i. split; [lia|done].
  - intros (i & ? & ->). exists i. split; [done|]. apply elem_of_seqZ. lia.
Qed.

Lemma slots_NoDup base size n : 0 < size → NoDup (small_slots base size n).
Proof.
  intros. unfold small_slots. assert (Inj (=) (=) (λ i, base + i * size)) by (intros i j ?; nia).
  apply (NoDup_fmap_2 _), NoDup_seqZ.
Qed.

Lemma slot_inside base size p :
  8 ≤ size ≤ 256 → p ∈ small_slots base size (slabcapacity size) →
  base ≤ p ∧ p + size ≤ base + 4064.
Proof. intros Hs. pose proof (capacity_small size Hs). rewrite elem_of_slots. intros (i & ? & ->). nia. Qed.

Lemma slots_apart base size n p q :
  0 < size → p ∈ small_slots base size n → q ∈ small_slots base size n → p ≠ q →
  disjoint_ranges (p, size) (q, size).
Proof.
  intros Hs. rewrite !elem_of_slots. intros (i & ? & ->) (j & ? & ->) Hne.
  assert (i ≠ j) by congruence. unfold disjoint_ranges. simpl.
  destruct (Z.lt_total i j) as [|[|]]; [left; nia|done|right; nia].
Qed.

(** The page of a small slab, from its header. *)
Definition slab_page (h : Z) : Z := h - 4064.
Lemma slab_page_hdr base : slab_page (SMALL_SLAB_HDR base) = base.
Proof. unfold slab_page, SMALL_SLAB_HDR, PGSIZE, sizeof_kmem_slab. lia. Qed.
Lemma hdr_slab_page h : SMALL_SLAB_HDR (slab_page h) = h.
Proof. unfold slab_page, SMALL_SLAB_HDR, PGSIZE, sizeof_kmem_slab. lia. Qed.

Lemma page_of_slot base p : 0 ≤ base → base + 4096 ≤ 2^64 → base mod PGSIZE = 0 →
  base ≤ p < base + 4096 → PGROUNDDOWN p = base.
Proof. intros ?? Hm ?. unfold PGSIZE in Hm. rewrite PGROUNDDOWN_eq by lia. Z.div_mod_to_equations. lia. Qed.

Lemma pages_apart b1 b2 : b1 mod PGSIZE = 0 → b2 mod PGSIZE = 0 → b1 ≠ b2 →
  b1 + 4096 ≤ b2 ∨ b2 + 4096 ≤ b1.
Proof. unfold PGSIZE. intros. Z.div_mod_to_equations. lia. Qed.

(** ** The invariant *)
Section props.
Context {P : Type} `{!PageAlloc P}.
Implicit Types (st : kmem P).

(** A slab of a zone of small objects: its free list holds slots of its page, none
    twice, as many as [nfree] says. *)
Record slab_ok (size h : Z) (s : kmem_slab) : Prop := {
  so_free e : e ∈ firstfree s → e ∈ small_slots (slab_page h) size (slabcapacity size);
  so_nodup : NoDup (firstfree s);
  so_n : nfree s = Z.of_nat (length (firstfree s));
}.

Record hdr_ok (h : Z) : Prop := {
  ho_align : slab_page h mod PGSIZE = 0;
  ho_range : 0 < slab_page h ∧ slab_page h + 4096 ≤ 2^64;
}.

Definition small_zone st (z : Z) (Zn : kmem_zone) : Prop :=
  zones st !! z = Some Zn ∧ zone_size Zn ≤ kSmallSlabMax.
Definition large_zone st (z : Z) (Zn : kmem_zone) : Prop :=
  zones st !! z = Some Zn ∧ kSmallSlabMax < zone_size Zn.

(** The zones in themselves; with the page allocator below. *)
Record core_ok st : Prop := {
  sk_size z Zn : small_zone st z Zn → 8 ≤ zone_size Zn;
  sk_nodup z Zn : small_zone st z Zn → NoDup (slablist Zn);
  sk_slab z Zn h : small_zone st z Zn → h ∈ slablist Zn →
    ∃ s, slabs st !! h = Some s ∧ slab_zone s = z ∧ slab_ok (zone_size Zn) h s;
  sk_hdr z Zn h : small_zone st z Zn → h ∈ slablist Zn → hdr_ok h;
}.
Record small_ok st : Prop := {
  sk_core :> core_ok st;
  sk_live z Zn h : small_zone st z Zn → h ∈ slablist Zn → (slab_page h, 4096) ∈ pa_live (pages st);
  sk_pages : pa_inv (pages st);
}.

(** The allocated objects of the zones of small objects. *)
Definition allocated_obj st (z p : Z) : Prop :=
  ∃ Zn h s, small_zone st z Zn ∧ h ∈ slablist Zn ∧ slabs st !! h = Some s ∧
    p ∈ small_slots (slab_page h) (zone_size Zn) (slabcapacity (zone_size Zn)) ∧
    (p ∉ firstfree s).

Lemma small_sizes st z Zn : core_ok st → small_zone st z Zn → 8 ≤ zone_size Zn ≤ 256.
Proof. intros Hok Hz. pose proof (sk_size _ Hok _ _ Hz). destruct Hz as [_ Hs]. unfold kSmallSlabMax in Hs. lia. Qed.

(** No slab is in two zones. *)
Lemma slab_one_zone st z1 Z1 z2 Z2 h :
  core_ok st → small_zone st z1 Z1 → small_zone st z2 Z2 →
  h ∈ slablist Z1 → h ∈ slablist Z2 → z1 = z2 ∧ Z1 = Z2.
Proof.
  intros Hok H1 H2 Hh1 Hh2. destruct (sk_slab _ Hok _ _ _ H1 Hh1) as (s & Hs & <- & _).
  destruct (sk_slab _ Hok _ _ _ H2 Hh2) as (s2 & Hs2 & <- & _). simplify_eq.
  destruct H1, H2. by simplify_eq.
Qed.

(** Two slots do not overlap, whatever their zones. *)
Lemma slots_disjoint st z1 z2 Z1 Z2 h1 h2 p q :
  core_ok st → small_zone st z1 Z1 → small_zone st z2 Z2 → h1 ∈ slablist Z1 → h2 ∈ slablist Z2 →
  p ∈ small_slots (slab_page h1) (zone_size Z1) (slabcapacity (zone_size Z1)) →
  q ∈ small_slots (slab_page h2) (zone_size Z2) (slabcapacity (zone_size Z2)) →
  (h1 = h2 → p ≠ q) → disjoint_ranges (p, zone_size Z1) (q, zone_size Z2).
Proof.
  intros Hok Hz1 Hz2 Hh1 Hh2 Hp Hq Hne. destruct (decide (h1 = h2)) as [->|Hh].
  - destruct (slab_one_zone _ _ _ _ _ _ Hok Hz1 Hz2 Hh1 Hh2) as [-> ->].
    pose proof (small_sizes _ _ _ Hok Hz2). eapply slots_apart; [lia|done..|auto].
  - pose proof (sk_hdr _ Hok _ _ _ Hz1 Hh1) as [A1 _]. pose proof (sk_hdr _ Hok _ _ _ Hz2 Hh2) as [A2 _].
    apply slot_inside in Hp; [|by eapply small_sizes]. apply slot_inside in Hq; [|by eapply small_sizes].
    destruct (pages_apart _ _ A1 A2); [unfold slab_page; lia|..]; unfold disjoint_ranges; simpl; lia.
Qed.

(** A free entry overlaps no allocated object. *)
Lemma free_apart st z Zn h s e z2 Z2 q :
  core_ok st → small_zone st z Zn → h ∈ slablist Zn → slabs st !! h = Some s → e ∈ firstfree s →
  zones st !! z2 = Some Z2 → allocated_obj st z2 q →
  disjoint_ranges (e, zone_size Zn) (q, zone_size Z2).
Proof.
  intros Hok Hz Hh Hs He E2 (Z2' & h2 & s2 & Hz2 & Hh2 & Hs2 & Hq & Hf).
  assert (Z2' = Z2) as -> by (destruct Hz2; by simplify_eq).
  destruct (sk_slab _ Hok _ _ _ Hz Hh) as (s' & Hs' & _ & [Hfr _ _]). simplify_eq.
  eapply slots_disjoint; [done|exact Hz|exact Hz2|done|done|by apply Hfr|done|].
  intros -> ->. by simplify_eq.
Qed.

(** ** One slab changes *)

(** From [st] to [st'], the zone [z] is now [Zn'] and its slab [h] is now [s]. *)
Record slab_update st st' (z : Z) (Zn Zn' : kmem_zone) (h : Z) (s : kmem_slab) : Prop := {
  su_zone : small_zone st z Zn;
  su_zones : zones st' = <[z := Zn']> (zones st);
  su_slabs : slabs st' = <[h := s]> (slabs st);
  su_bufctls : bufctls st' = bufctls st;
  su_size : zone_size Zn' = zone_size Zn;
  su_list : ∀ h', h' ∈ slablist Zn' ↔ h' = h ∨ h' ∈ slablist Zn;
  su_mine : ∀ z2 Z2, small_zone st z2 Z2 → h ∈ slablist Z2 → z2 = z;
}.

Lemma slab_update_zone st st' z Zn Zn' h s z2 Z2 :
  slab_update st st' z Zn Zn' h s →
  small_zone st' z2 Z2 ↔ (z2 = z ∧ Z2 = Zn') ∨ (z2 ≠ z ∧ small_zone st z2 Z2).
Proof.
  intros U. unfold small_zone. rewrite (su_zones _ _ _ _ _ _ _ U).
  destruct (su_zone _ _ _ _ _ _ _ U) as [_ Hs]. rewrite <-(su_size _ _ _ _ _ _ _ U) in Hs.
  rewrite lookup_insert_Some. naive_solver.
Qed.

(** What changes of the zones of small objects leave alone; a page they take is
    new. *)
Record small_change st st' : Prop := {
  sc_large z Zn : large_zone st' z Zn ↔ large_zone st z Zn;
  sc_slabs h : slab_page h mod PGSIZE ≠ 0 → slabs st' !! h = slabs st !! h;
  sc_bufctls : bufctls st' = bufctls st;
  sc_live r : r ∈ pa_live (pages st) → r ∈ pa_live (pages st');
  sc_page z Zn' h : small_zone st' z Zn' → h ∈ slablist Zn' →
    (∃ Zn, small_zone st z Zn ∧ h ∈ slablist Zn) ∨
    ∀ r, r ∈ pa_live (pages st) → disjoint_ranges (slab_page h, 4096) r;
  sc_sizes z : zone_size <$> zones st' !! z = zone_size <$> zones st !! z;
}.
Lemma small_change_refl st : small_change st st.
Proof. split; try done. intros z Zn h Hz Hh. left. by exists Zn. Qed.
Lemma small_change_trans st1 st2 st3 : small_change st1 st2 → small_change st2 st3 → small_change st1 st3.
Proof.
  intros [A1 A2 A3 A4 A5 A6] [B1 B2 B3 B4 B5 B6]. split.
  - intros z Zn. by rewrite B1, A1.
  - intros h Hh. by rewrite B2, A2.
  - congruence.
  - auto.
  - intros z Zn h Hz Hh. destruct (B5 z Zn h Hz Hh) as [(Z2 & Hz2 & Hh2)|Hd]; [by eapply A5|]. right. auto.
  - intros z. by rewrite B6, A6.
Qed.

Lemma slab_update_change st st' z Zn Zn' h s :
  slab_update st st' z Zn Zn' h s → slab_page h mod PGSIZE = 0 →
  (∀ r, r ∈ pa_live (pages st) → r ∈ pa_live (pages st')) →
  (h ∈ slablist Zn ∨ ∀ r, r ∈ pa_live (pages st) → disjoint_ranges (slab_page h, 4096) r) → small_change st st'.
Proof.
  intros U Hal Hlive Hpg. pose proof (su_zone _ _ _ _ _ _ _ U) as [Hz Hs]. pose proof (su_size _ _ _ _ _ _ _ U) as Esz. split.
  - intros z2 Z2. unfold large_zone. rewrite (su_zones _ _ _ _ _ _ _ U), lookup_insert_Some.
    split; [|intros [H1 H2]; split; [right|done]; split; [|done]; intros <-; simplify_eq; lia].
    intros [[[<- <-]|[_ ?]] ?]; [lia|done].
  - intros h' Hh'. rewrite (su_slabs _ _ _ _ _ _ _ U), lookup_insert_ne; [done|]. congruence.
  - apply (su_bufctls _ _ _ _ _ _ _ U).
  - done.
  - intros z2 Z2 h2 [[-> ->]|[_ Hz2]]%(slab_update_zone _ _ _ _ _ _ _ z2 Z2 U) Hh2; [|by left; exists Z2].
    apply (su_list _ _ _ _ _ _ _ U) in Hh2 as [->|Hh2]; [|by left; exists Zn].
    destruct Hpg; [by left; exists Zn|by right].
  - intros z2. rewrite (su_zones _ _ _ _ _ _ _ U). destruct (decide (z2 = z)) as [->|];
      [by rewrite lookup_insert_eq, Hz; simpl; rewrite Esz|by rewrite lookup_insert_ne].
Qed.

Lemma slab_update_core st st' z Zn Zn' h s :
  core_ok st → slab_update st st' z Zn Zn' h s → NoDup (slablist Zn') →
  slab_zone s = z → slab_ok (zone_size Zn) h s → hdr_ok h → core_ok st'.
Proof.
  intros Hok U ND Hz Hs Hh.
  pose proof (su_zone _ _ _ _ _ _ _ U) as Hzn. pose proof (su_size _ _ _ _ _ _ _ U) as Esz.
  pose proof (λ z2 Z2, proj1 (slab_update_zone _ _ _ _ _ _ _ z2 Z2 U)) as Hzs. split.
  - intros z2 Z2 [[-> ->]|[_ Hz2]]%Hzs; [rewrite Esz|]; by eapply sk_size.
  - intros z2 Z2 [[-> ->]|[_ Hz2]]%Hzs; [done|]. by eapply sk_nodup.
  - intros z2 Z2 h' [[-> ->]|[Hne Hz2]]%Hzs Hh'; rewrite (su_slabs _ _ _ _ _ _ _ U).
    + rewrite Esz. destruct (decide (h' = h)) as [->|].
      * exists s. by rewrite lookup_insert_eq.
      * rewrite lookup_insert_ne by done. apply (su_list _ _ _ _ _ _ _ U) in Hh' as [|]; [done|].
        by eapply sk_slab.
    + rewrite lookup_insert_ne; [by eapply sk_slab|].
      intros ->. apply Hne. by eapply (su_mine _ _ _ _ _ _ _ U).
  - intros z2 Z2 h' [[-> ->]|[_ Hz2]]%Hzs Hh'; [|by eapply sk_hdr].
    apply (su_list _ _ _ _ _ _ _ U) in Hh' as [->|]; [done|]. by eapply sk_hdr.
Qed.

Lemma slab_update_ok st st' z Zn Zn' h s :
  small_ok st → slab_update st st' z Zn Zn' h s → core_ok st' → (slab_page h, 4096) ∈ pa_live (pages st') →
  pa_inv (pages st') → (∀ r, r ∈ pa_live (pages st) → r ∈ pa_live (pages st')) → small_ok st'.
Proof.
  intros Hok U Hc Hh Hinv Hlive. split; [done| |done].
  intros z2 Z2 h' [[-> ->]|[_ Hz2]]%(slab_update_zone _ _ _ _ _ _ _ z2 Z2 U) Hh'.
  - apply (su_list _ _ _ _ _ _ _ U) in Hh' as [->|]; [done|].
    eapply Hlive, (sk_live _ Hok); [apply (su_zone _ _ _ _ _ _ _ U)|done].
  - by eapply Hlive, (sk_live _ Hok).
Qed.

(** The objects allocated outside slab [h]. *)
Definition alloc_elsewhere st (h z p : Z) : Prop :=
  ∃ Zn h' s, small_zone st z Zn ∧ h' ∈ slablist Zn ∧ h' ≠ h ∧ slabs st !! h' = Some s ∧
    p ∈ small_slots (slab_page h') (zone_size Zn) (slabcapacity (zone_size Zn)) ∧
    (p ∉ firstfree s).
Definition alloc_here (Zn : kmem_zone) (h : Z) (s : kmem_slab) (p : Z) : Prop :=
  p ∈ small_slots (slab_page h) (zone_size Zn) (slabcapacity (zone_size Zn)) ∧
  (p ∉ firstfree s).

Lemma alloc_split st z Zn h s z2 q :
  core_ok st → small_zone st z Zn → h ∈ slablist Zn → slabs st !! h = Some s →
  allocated_obj st z2 q ↔ (z2 = z ∧ alloc_here Zn h s q) ∨ alloc_elsewhere st h z2 q.
Proof.
  intros Hok Hz Hh Hs. split.
  - intros (Z2 & h2 & s2 & Hz2 & Hh2 & Hs2 & Hq & Hf). destruct (decide (h2 = h)) as [->|Hne].
    + destruct (slab_one_zone _ _ _ _ _ _ Hok Hz Hz2 Hh Hh2) as [-> ->]. simplify_eq.
      left. by repeat split.
    + right. by exists Z2, h2, s2.
  - intros [[-> [Hq Hf]]|(Z2 & h2 & s2 & Hz2 & Hh2 & Hne & Hs2 & Hq & Hf)];
      [by exists Zn, h, s|by exists Z2, h2, s2].
Qed.

Lemma alloc_absent st h z2 q :
  (∀ z Zn, small_zone st z Zn → (h ∉ slablist Zn)) →
  allocated_obj st z2 q ↔ alloc_elsewhere st h z2 q.
Proof.
  intros Hn. split.
  - intros (Z2 & h2 & s2 & Hz2 & Hh2 & Hs2 & Hq & Hf). exists Z2, h2, s2. split_and!; try done.
    intros ->. by eapply Hn.
  - intros (Z2 & h2 & s2 & Hz2 & Hh2 & Hne & Hs2 & Hq & Hf). by exists Z2, h2, s2.
Qed.

Lemma slab_update_elsewhere st st' z Zn Zn' h s z2 q :
  slab_update st st' z Zn Zn' h s → alloc_elsewhere st' h z2 q ↔ alloc_elsewhere st h z2 q.
Proof.
  intros U. pose proof (su_zone _ _ _ _ _ _ _ U) as Hzn. pose proof (su_size _ _ _ _ _ _ _ U) as Esz.
  unfold alloc_elsewhere. rewrite (su_slabs _ _ _ _ _ _ _ U).
  pose proof (λ z2 Z2, slab_update_zone _ _ _ _ _ _ _ z2 Z2 U) as Hzs. split.
  - intros (Z2 & h2 & s2 & Hz2 & Hh2 & Hne & Hs2 & Hq & Hf). rewrite lookup_insert_ne in Hs2 by done.
    apply Hzs in Hz2 as [[-> ->]|[_ Hz2]]; [|by exists Z2, h2, s2].
    rewrite Esz in Hq. apply (su_list _ _ _ _ _ _ _ U) in Hh2 as [|]; [done|]. by exists Zn, h2, s2.
  - intros (Z2 & h2 & s2 & Hz2 & Hh2 & Hne & Hs2 & Hq & Hf). destruct (decide (z2 = z)) as [->|Hz].
    + assert (Z2 = Zn) as -> by (destruct Hz2, Hzn; by simplify_eq).
      exists Zn', h2, s2. rewrite lookup_insert_ne by done. rewrite Esz.
      split_and!; try done; [apply Hzs; by left|apply (su_list _ _ _ _ _ _ _ U); by right].
    + exists Z2, h2, s2. rewrite lookup_insert_ne by done. split_and!; try done. apply Hzs. by right.
Qed.

Lemma slab_update_alloc st st' z Zn Zn' h s z2 q :
  core_ok st' → slab_update st st' z Zn Zn' h s →
  allocated_obj st' z2 q ↔ (z2 = z ∧ alloc_here Zn h s q) ∨ alloc_elsewhere st h z2 q.
Proof.
  intros Hok' U. rewrite (alloc_split st' z Zn' h s).
  - rewrite (slab_update_elsewhere _ _ _ _ _ _ _ _ _ U). unfold alloc_here.
    by rewrite (su_size _ _ _ _ _ _ _ U).
  - done.
  - apply (slab_update_zone _ _ _ _ _ _ _ _ _ U). by left.
  - apply (su_list _ _ _ _ _ _ _ U). by left.
  - rewrite (su_slabs _ _ _ _ _ _ _ U). apply lookup_insert_eq.
Qed.

(** ** Running the operations *)

Lemma mfor_link_bytes l f st :
  ∃ m', mfor l (λ e, link_bytes e (f e)) st = Ok ((), set_bytes (λ _, m') st).
Proof.
  revert st. induction l as [|e l IH]; intros st; simpl.
  - exists (bytes st). by destruct st.
  - destruct (IH (set_bytes (λ m, write64 m e (f e)) st)) as [m' E]. exists m'.
    rewrite (bind_step _ _ st () (set_bytes (λ m, write64 m e (f e)) st)) by done. by rewrite E.
Qed.

Lemma get_zone_ok st z Zn : zones st !! z = Some Zn → get_zone z st = Ok (Zn, st).
Proof. intros E. unfold get_zone. by rewrite E. Qed.
Lemma get_slab_ok st h s : slabs st !! h = Some s → get_slab h st = Ok (s, st).
Proof. intros E. unfold get_slab. by rewrite E. Qed.

Lemma on_pa_ok {A} (m : M P A) st a p :
  m (pages st) = Ok (a, p) →
  on_pa m st = Ok (a, KMem (kmem_zones st) (zones st) (slabs st) (bufctls st) (bytes st) p).
Proof. intros E. unfold on_pa. by rewrite E. Qed.

(** A new small slab: the zone has it first, all its slots free. *)
Lemma small_slab_new_run st z Zn :
  small_ok st → small_zone st z Zn → pa_ready 1 kVMKSleep (pages st) →
  ∃ h st' Zn', small_slab_new z st = Ok (h, st') ∧ small_ok st' ∧ zones st' !! z = Some Zn' ∧
    zone_size Zn' = zone_size Zn ∧ slablist Zn' = h :: slablist Zn ∧
    (∀ z2, z2 ≠ z → zones st' !! z2 = zones st !! z2) ∧
    slabs st' !! h = Some (Slab z (slabcapacity (zone_size Zn))
      (small_slots (slab_page h) (zone_size Zn) (slabcapacity (zone_size Zn))) 0) ∧
    (∃ s, slab_update st st' z Zn Zn' h s) ∧ (∃ a, pa_alloc 1 kVMKSleep (pages st) = Ok (a, pages st')) ∧
    small_change st st' ∧ ∀ z2 q, allocated_obj st' z2 q ↔ allocated_obj st z2 q.
Proof.
  intros Hok Hz Hr. pose proof (small_sizes _ _ _ Hok Hz) as Hsz.
  destruct (capacity_small _ Hsz) as [Hcap _].
  destruct (pa_alloc_spec 1 kVMKSleep _ (sk_pages _ Hok) Hr)
    as (base & p' & Hrun & Hinv & Hpos & Hmax & Hal & Hdis & Hlive).
  change (1 * PGSIZE) with 4096 in *. set (h := SMALL_SLAB_HDR base).
  assert (slab_page h = base) as Hpg by apply slab_page_hdr.
  set (size := zone_size Zn) in *. set (cap := slabcapacity size) in *.
  set (st0 := KMem (kmem_zones st) (zones st) (slabs st) (bufctls st) (bytes st) p').
  set (Zn' := Zone (zone_name Zn) size (h :: slablist Zn) (bufctllist Zn)).
  set (s := Slab z cap (small_slots base size cap) 0).
  set (st1 := set_slab h s (set_zone z Zn' st0)).
  destruct (mfor_link_bytes (small_slots base size cap) (λ e, e + size) st1) as [m1 E1].
  set (st2 := set_bytes (λ m, write64 m (base + (cap - 1) * size) 0) (set_bytes (λ _, m1) st1)).
  assert (∀ z2 Z2, small_zone st z2 Z2 → (h ∉ slablist Z2)) as Hfresh.
  { intros z2 Z2 Hz2 Hin. apply (sk_live _ Hok _ _ _ Hz2), Hdis in Hin.
    rewrite Hpg in Hin. unfold disjoint_ranges in Hin. simpl in Hin. lia. }
  assert (slab_update st st2 z Zn Zn' h s) as U.
  { split; try done; [intros h'; apply elem_of_cons|].
    intros z2 Z2 Hz2 Hin. by apply (Hfresh z2 Z2) in Hin. }
  assert (small_ok st2) as Hok'.
  { eapply (slab_update_ok st st2); [done|exact U|eapply (slab_update_core st st2); [apply Hok|exact U|..]|..].
    - apply NoDup_cons. split; [by eapply Hfresh|exact (sk_nodup _ Hok _ _ Hz)].
    - done.
    - split; simpl; rewrite ?Hpg.
      + done.
      + apply slots_NoDup. unfold size in *. lia.
      + unfold small_slots. rewrite length_fmap, length_seqZ. lia.
    - split; rewrite Hpg; [done|lia].
    - simpl. rewrite Hlive, Hpg. left.
    - done.
    - intros r Hin. simpl. rewrite Hlive. by right. }
  exists h, st2, Zn'. split.
  { unfold small_slab_new. rewrite (bind_step _ _ _ _ _ (on_pa_ok _ _ _ _ Hrun)). fold st0.
    unfold nonnull at 1. rewrite (proj2 (Z.eqb_neq _ _)) by lia.
    rewrite (bind_step _ _ st0 () st0) by done. cbv zeta. fold h.
    rewrite (bind_step _ _ _ _ _ (get_zone_ok st0 z Zn (proj1 Hz))).
    rewrite (bind_step _ _ _ _ _ (mmodify_ok _ _)). fold size Zn' cap.
    rewrite (bind_step _ _ _ _ _ (mmodify_ok _ _)). fold s st1.
    rewrite (bind_step _ _ _ _ _ E1). by rewrite (bind_step _ _ _ () st2). }
  split_and!; try done.
  - apply lookup_insert_eq.
  - intros z2 Hne. by apply lookup_insert_ne.
  - rewrite Hpg. apply lookup_insert_eq.
  - by exists s.
  - by exists base.
  - eapply slab_update_change; [exact U|by rewrite Hpg|intros r Hr'; simpl; rewrite Hlive; by right|].
    right. by rewrite Hpg.
  - intros z2 q. rewrite (slab_update_alloc st st2 z Zn Zn' h s z2 q Hok' U).
    rewrite (alloc_absent st h) by done. unfold alloc_here. simpl. rewrite Hpg.
    fold size cap. tauto.
Qed.

Lemma tq_remove_mem (l : list Z) h : h ∈ l → l ≡ₚ h :: tq_remove (λ x, x) h l.
Proof.
  induction l as [|x l IH]; [by intros ?%elem_of_nil|]. simpl.
  destruct (Z.eqb_spec x h) as [->|Hne]; [done|].
  intros [?|Hin]%elem_of_cons; [congruence|]. rewrite (IH Hin) at 1. apply Permutation_swap.
Qed.

Lemma to_tail_perm (l : list Z) h : h ∈ l → tq_remove (λ x, x) h l ++ [h] ≡ₚ l.
Proof. intros Hin. rewrite (tq_remove_mem l h Hin) at 2. symmetry. apply Permutation_cons_append. Qed.

Lemma slots_bound size base s :
  8 ≤ size ≤ 256 → NoDup s → (∀ e, e ∈ s → e ∈ small_slots base size (slabcapacity size)) →
  Z.of_nat (length s) ≤ 508.
Proof.
  intros Hsz ND Hs. pose proof (capacity_small size Hsz).
  assert (length s ≤ length (small_slots base size (slabcapacity size)))%nat as Hl
    by (apply submseteq_length, NoDup_submseteq; auto).
  unfold small_slots in Hl. rewrite length_fmap, length_seqZ in Hl. nia.
Qed.

(** The entry at the head of a slab's free list is taken. *)
Lemma take_entry_core st z Zn h s entry next :
  core_ok st → small_zone st z Zn → h ∈ slablist Zn → slabs st !! h = Some s →
  firstfree s = entry :: next →
  ∃ st' Zn1 s1, take_entry z h st = Ok (entry, st') ∧ core_ok st' ∧ pages st' = pages st ∧
    slab_update st st' z Zn Zn1 h s1 ∧ firstfree s1 = next ∧ (next ≠ [] → slablist Zn1 = slablist Zn) ∧
    ∀ z2 q, allocated_obj st' z2 q ↔ allocated_obj st z2 q ∨ (z2 = z ∧ q = entry).
Proof.
  intros Hok Hz Hh Hs Hf. pose proof (small_sizes _ _ _ Hok Hz) as Hsz.
  destruct (sk_slab _ Hok _ _ _ Hz Hh) as (s0 & Hs0 & Hzs & [Hfr Hnd Hn]). simplify_eq.
  pose proof (slots_bound _ _ _ Hsz Hnd Hfr) as Hlen. rewrite Hf in *.
  apply NoDup_cons in Hnd as [He Hnd]. simpl in Hn, Hlen.
  set (s1 := Slab (slab_zone s) (w32 (nfree s - 1)) next (slab_data s)).
  set (Zn1 := if decide (next = []) then Zone (zone_name Zn) (zone_size Zn)
    (tq_remove (λ x, x) h (slablist Zn) ++ [h]) (bufctllist Zn) else Zn).
  set (st' := if decide (next = []) then set_zone (slab_zone s) Zn1 (set_slab h s1 st)
              else set_slab h s1 st).
  assert (slablist Zn1 ≡ₚ slablist Zn) as HP
    by (unfold Zn1; case_decide; [by apply to_tail_perm|done]).
  assert (slab_update st st' (slab_zone s) Zn Zn1 h s1) as U.
  { split; try done.
    - unfold st', Zn1. case_decide; [done|]. simpl. symmetry. apply insert_id, Hz.
    - unfold st'. by case_decide.
    - unfold st'. by case_decide.
    - unfold Zn1. by case_decide.
    - intros h'. rewrite HP. set_solver.
    - intros z2 Z2 Hz2 Hh2. by destruct (slab_one_zone _ _ _ _ _ _ Hok Hz2 Hz Hh2 Hh). }
  assert (core_ok st') as Hok'.
  { eapply slab_update_core; [done|exact U|..]; try done.
    - rewrite HP. by eapply sk_nodup.
    - split; simpl; [intros e Hin; apply Hfr; by right|done|]. rewrite w32_small; lia.
    - by eapply sk_hdr. }
  exists st', Zn1, s1. split; [|split; [done|split; [unfold st'; by case_decide|
    split; [exact U|split; [done|split; [intros Hne; unfold Zn1; by rewrite decide_False|]]]]]].
  - unfold take_entry. rewrite (bind_step _ _ _ _ _ (get_slab_ok st h s Hs)). rewrite Hf.
    rewrite (bind_step _ _ _ _ _ (mmodify_ok _ _)).
    rewrite (bind_step _ _ _ _ _ (get_zone_ok (set_slab h s1 st) _ _ (proj1 Hz))).
    rewrite (bind_step _ _ _ () st').
    2:{ unfold st', Zn1. by destruct next; simpl. }
    rewrite (bind_step _ _ st' Zn1 st').
    2:{ apply get_zone_ok. rewrite (su_zones _ _ _ _ _ _ _ U). apply lookup_insert_eq. }
    rewrite (su_size _ _ _ _ _ _ _ U), (proj2 (Z.leb_le _ _)); [done|]. apply Hz.
  - intros z2 q. rewrite (slab_update_alloc _ _ _ _ _ _ _ _ _ Hok' U).
    rewrite (alloc_split _ _ _ _ _ z2 q Hok Hz Hh Hs). unfold alloc_here. simpl. rewrite Hf.
    rewrite !not_elem_of_cons.
    destruct (decide (q = entry)) as [->|]; [|naive_solver].
    assert (entry ∈ small_slots (slab_page h) (zone_size Zn) (slabcapacity (zone_size Zn)))
      by (apply Hfr; by left). naive_solver.
Qed.

Lemma take_entry_run st z Zn h s entry next :
  small_ok st → small_zone st z Zn → h ∈ slablist Zn → slabs st !! h = Some s →
  firstfree s = entry :: next →
  ∃ st', take_entry z h st = Ok (entry, st') ∧ small_ok st' ∧ small_change st st' ∧
    ∀ z2 q, allocated_obj st' z2 q ↔ allocated_obj st z2 q ∨ (z2 = z ∧ q = entry).
Proof.
  intros Hok Hz Hh Hs Hf.
  destruct (take_entry_core st z Zn h s entry next Hok Hz Hh Hs Hf) as (st' & Zn1 & s1 & Hrun & Hc & Hpg & U & _ & _ & Ha).
  exists st'. split; [done|]. split; [|split; [|done]].
  2:{ eapply slab_update_change; [exact U|apply (sk_hdr _ Hok _ _ _ Hz Hh)|by rewrite Hpg|by left]. }
  eapply slab_update_ok; [done|exact U|done|rewrite Hpg; exact (sk_live _ Hok _ _ _ Hz Hh)|rewrite Hpg; apply Hok|by rewrite Hpg].
Qed.

(** The slab [kmem_zonealloc] looks at has a free entry. *)
Definition first_has_free st (Zn : kmem_zone) : Prop :=
  ∃ h l s, slablist Zn = h :: l ∧ slabs st !! h = Some s ∧ nfree s ≠ 0.

Lemma pick_slab_first slab_new st z Zn :
  core_ok st → small_zone st z Zn → first_has_free st Zn →
  ∃ h l s entry next, pick_slab slab_new z st = Ok (h, st) ∧ slablist Zn = h :: l ∧
    slabs st !! h = Some s ∧ firstfree s = entry :: next.
Proof.
  intros Hok Hz (h & l & s & Hl & Hs & Hn).
  assert (h ∈ slablist Zn) as Hh by (rewrite Hl; left).
  destruct (sk_slab _ Hok _ _ _ Hz Hh) as (s0 & Hs0 & Hzs & [_ _ Hlen]). simplify_eq.
  destruct (firstfree s) as [|entry next] eqn:Ef; [done|].
  exists h, l, s, entry, next. split; [|done].
  unfold pick_slab. rewrite (bind_step _ _ _ _ _ (get_zone_ok _ _ _ (proj1 Hz))), Hl.
  rewrite (bind_step _ _ _ _ _ (get_slab_ok _ _ _ Hs)). by rewrite (proj2 (Z.eqb_neq _ _)).
Qed.

Lemma pick_slab_new slab_new st z Zn :
  core_ok st → small_zone st z Zn → ¬ first_has_free st Zn →
  pick_slab slab_new z st = slab_new z st.
Proof.
  intros Hok Hz Hn. unfold pick_slab. rewrite (bind_step _ _ _ _ _ (get_zone_ok _ _ _ (proj1 Hz))).
  destruct (slablist Zn) as [|h l] eqn:Hl; [done|].
  destruct (sk_slab _ Hok _ _ h Hz ltac:(rewrite Hl; left)) as (s & Hs & _).
  rewrite (bind_step _ _ _ _ _ (get_slab_ok _ _ _ Hs)).
  destruct (Z.eqb_spec (nfree s) 0); [done|]. destruct Hn. by exists h, l, s.
Qed.

Lemma first_has_free_dec st Zn : first_has_free st Zn ∨ ¬ first_has_free st Zn.
Proof.
  unfold first_has_free. destruct (slablist Zn) as [|h l]; [right; by intros (?&?&?&?&_)|].
  destruct (slabs st !! h) as [s|] eqn:Hs;
    [|right; intros (h' & l' & s' & [= -> ->] & E & _); congruence].
  destruct (decide (nfree s = 0)); [|left; by exists h, l, s].
  right. intros (h' & l' & s' & [= -> ->] & E & Hn). congruence.
Qed.

(** A slab with a free entry is found, or made. *)
Lemma pick_slab_run st z Zn :
  small_ok st → small_zone st z Zn → first_has_free st Zn ∨ pa_ready 1 kVMKSleep (pages st) →
  ∃ h s entry next st1 Zn1, pick_slab (λ z,
    zone ← get_zone z;
    if kSmallSlabMax <? zone_size zone then large_slab_new z else small_slab_new z) z st
    = Ok (h, st1) ∧ small_ok st1 ∧ small_zone st1 z Zn1 ∧ zone_size Zn1 = zone_size Zn ∧
    (∀ z2, z2 ≠ z → zones st1 !! z2 = zones st !! z2) ∧
    h ∈ slablist Zn1 ∧ slabs st1 !! h = Some s ∧ firstfree s = entry :: next ∧
    small_change st st1 ∧ ∀ z2 q, allocated_obj st1 z2 q ↔ allocated_obj st z2 q.
Proof.
  intros Hok Hz Hready.
  destruct (first_has_free_dec st Zn) as [Hff|Hff].
  - destruct (pick_slab_first (λ z, zone ← get_zone z;
      if kSmallSlabMax <? zone_size zone then large_slab_new z else small_slab_new z) st z Zn)
      as (h & l & s & entry & next & ? & Hl & ? & ?); [apply Hok|done..|].
    exists h, s, entry, next, st, Zn. split_and!; try done; [rewrite Hl; left|apply small_change_refl].
  - destruct Hready as [?|Hr]; [done|].
    destruct (small_slab_new_run st z Zn Hok Hz Hr)
      as (h & st1 & Zn1 & Hrun & Hok1 & Hz1 & Esz & Hl & Ho & Hs & _ & _ & Hch & Ha).
    pose proof (small_sizes _ _ _ Hok Hz) as Hsz.
    destruct (capacity_small _ Hsz) as [Hcap _].
    destruct (small_slots (slab_page h) (zone_size Zn) (slabcapacity (zone_size Zn)))
      as [|entry next] eqn:Ef.
    { apply (f_equal length) in Ef. unfold small_slots in Ef.
      rewrite length_fmap, length_seqZ in Ef. simpl in Ef. lia. }
    eexists h, _, entry, next, st1, Zn1. split_and!; try done.
    + rewrite (pick_slab_new _ _ _ _ Hok Hz Hff).
      rewrite (bind_step _ _ _ _ _ (get_zone_ok _ _ _ (proj1 Hz))).
      destruct (Z.ltb_spec kSmallSlabMax (zone_size Zn)); [|done]. destruct Hz. lia.
    + split; [done|]. rewrite Esz. apply Hz.
    + rewrite Hl. left.
Qed.

Lemma zonealloc_run st z Zn :
  small_ok st → small_zone st z Zn →
  first_has_free st Zn ∨ pa_ready 1 kVMKSleep (pages st) →
  ∃ p st', kmem_zonealloc z st = Ok (p, st') ∧ small_ok st' ∧ small_change st st' ∧
    (∀ z2 q, allocated_obj st' z2 q ↔ allocated_obj st z2 q ∨ (z2 = z ∧ q = p)) ∧
    (∃ base i, base mod PGSIZE = 0 ∧ p = base + i * zone_size Zn ∧
       base ≤ p ∧ p + zone_size Zn ≤ base + PGSIZE) ∧
    ∀ z2 Z2 q, zones st !! z2 = Some Z2 → allocated_obj st z2 q →
      disjoint_ranges (p, zone_size Zn) (q, zone_size Z2).
Proof.
  intros Hok Hz Hready.
  destruct (pick_slab_run st z Zn Hok Hz Hready)
    as (h & s & entry & next & st1 & Zn1 & Hpick & Hok1 & Hz1 & Esz & Ho & Hh & Hs & Hf & Hch & Ha).
  destruct (take_entry_run st1 z Zn1 h s entry next Hok1 Hz1 Hh Hs Hf) as (st' & Hrun & Hok' & Hch' & Ha').
  pose proof (small_sizes _ _ _ Hok1 Hz1) as Hsz.
  assert (entry ∈ firstfree s) as He by (rewrite Hf; left).
  destruct (sk_slab _ Hok1 _ _ _ Hz1 Hh) as (s' & Hs' & _ & [Hfr _ _]). simplify_eq.
  specialize (Hfr _ He). exists entry, st'. split_and!.
  - unfold kmem_zonealloc, kmem_zonealloc_with. by rewrite (bind_step _ _ _ _ _ Hpick).
  - done.
  - by eapply small_change_trans.
  - intros z2 q. by rewrite Ha', Ha.
  - rewrite <-Esz. apply elem_of_slots in Hfr as Hi. destruct Hi as (i & Hi & E).
    apply slot_inside in Hfr; [|done]. exists (slab_page h), i.
    pose proof (sk_hdr _ Hok1 _ _ _ Hz1 Hh) as [Hal _].
    split_and!; [done|done|lia|unfold PGSIZE; lia].
  - intros z2 Z2 q E2 Hq. rewrite <-Esz.
    assert (∃ Z2', zones st1 !! z2 = Some Z2' ∧ zone_size Z2' = zone_size Z2) as (Z2' & E2' & <-).
    { destruct (decide (z2 = z)) as [->|Hne]; [|exists Z2; by rewrite Ho].
      destruct Hz, Hz1. simplify_eq. by exists Zn1. }
    eapply (free_apart st1); [apply Hok1|done..|]. by apply Ha.
Qed.

(** Allocation from a zone of small objects, whether the first slab serves it
    or a new page does: it returns, keeps the zones sound, and the one object
    that is newly allocated lies in a slot of a page of the zone and overlaps no
    object allocated before, in any zone. *)
Theorem kmem_zonealloc_correct st z Zn :
  small_ok st → small_zone st z Zn →
  first_has_free st Zn ∨ pa_ready 1 kVMKSleep (pages st) →
  ∃ p st', kmem_zonealloc z st = Ok (p, st') ∧ small_ok st' ∧
    (∀ z2 q, allocated_obj st' z2 q ↔ allocated_obj st z2 q ∨ (z2 = z ∧ q = p)) ∧
    (∃ base i, base mod PGSIZE = 0 ∧ p = base + i * zone_size Zn ∧
       base ≤ p ∧ p + zone_size Zn ≤ base + PGSIZE) ∧
    ∀ z2 Z2 q, zones st !! z2 = Some Z2 → allocated_obj st z2 q →
      disjoint_ranges (p, zone_size Zn) (q, zone_size Z2).
Proof.
  intros Hok Hz Hready. destruct (zonealloc_run st z Zn Hok Hz Hready) as (p & st' & Hrun & Hok' & _ & H). by exists p, st'.
Qed.

(** What [kmem_zonefree] does to the zones. *)
Lemma zonefree_core st z zc Zn Zc p :
  core_ok st → small_zone st z Zn → small_zone st zc Zc → allocated_obj st z p →
  ∃ st' h s s1, kmem_zonefree zc p st = Ok ((), st') ∧ core_ok st' ∧ pages st' = pages st ∧
    h ∈ slablist Zn ∧ slabs st !! h = Some s ∧ slab_update st st' z Zn Zn h s1 ∧ firstfree s1 = p :: firstfree s ∧
    ∀ z2 q, allocated_obj st' z2 q ↔ allocated_obj st z2 q ∧ ¬ (z2 = z ∧ q = p).
Proof.
  intros Hok Hz Hzc (Z1 & h & s & Hz1 & Hh & Hs & Hp & Hf).
  assert (Z1 = Zn) as -> by (destruct Hz, Hz1; by simplify_eq).
  pose proof (small_sizes _ _ _ Hok Hz) as Hsz.
  destruct (sk_slab _ Hok _ _ _ Hz Hh) as (s0 & Hs0 & Hzs & [Hfr Hnd Hn]). simplify_eq.
  pose proof (slots_bound _ _ _ Hsz Hnd Hfr) as Hlen.
  pose proof (sk_hdr _ Hok _ _ _ Hz Hh) as [Hal [Hpos Hmax]].
  set (s1 := Slab (slab_zone s) (w32 (nfree s + 1)) (p :: firstfree s) (slab_data s)).
  set (st' := set_bytes (λ m, write64 m p (default 0 (head (firstfree s)))) (set_slab h s1 st)).
  assert (slab_update st st' (slab_zone s) Zn Zn h s1) as U.
  { split; try done.
    - simpl. symmetry. apply insert_id, Hz.
    - set_solver.
    - intros z2 Z2 Hz2 Hh2. by destruct (slab_one_zone _ _ _ _ _ _ Hok Hz2 Hz Hh2 Hh). }
  assert (core_ok st') as Hok'.
  { eapply slab_update_core; [done|exact U|..]; try done.
    - by eapply sk_nodup.
    - split; simpl; [|by apply NoDup_cons|rewrite w32_small; lia].
      intros e [->|]%elem_of_cons; [done|by apply Hfr]. }
  exists st', h, s, s1. split; [|split; [done|split; [done|split; [done|split; [done|split; [exact U|split; [done|]]]]]]].
  - unfold kmem_zonefree. rewrite (bind_step _ _ _ _ _ (get_zone_ok _ _ _ (proj1 Hzc))).
    rewrite (proj2 (Z.leb_le (zone_size Zc) _)) by apply Hzc.
    assert (SMALL_SLAB_HDR (PGROUNDDOWN p) = h) as Eh.
    { apply slot_inside in Hp; [|done]. rewrite (page_of_slot (slab_page h)), hdr_slab_page; lia || done. }
    rewrite (bind_step _ _ st (h, p) st) by (by rewrite Eh).
    rewrite (bind_step _ _ _ _ _ (get_slab_ok _ _ _ Hs)).
    by rewrite (bind_step _ _ _ _ _ (mmodify_ok _ _)).
  - intros z2 q. rewrite (slab_update_alloc _ _ _ _ _ _ _ _ _ Hok' U).
    rewrite (alloc_split _ _ _ _ _ z2 q Hok Hz Hh Hs). unfold alloc_here. simpl.
    rewrite not_elem_of_cons. split; [|naive_solver].
    intros [(-> & ? & ? & ?)|He]; [naive_solver|]. split; [by right|]. intros [-> ->].
    destruct He as (Z2 & h2 & s2 & Hz2 & Hh2 & Hne & Hs2 & Hq & Hf2).
    pose proof (slots_disjoint _ _ _ _ _ _ _ _ _ Hok Hz Hz2 Hh Hh2 Hp Hq ltac:(congruence)) as Hd.
    pose proof (small_sizes _ _ _ Hok Hz2). unfold disjoint_ranges in Hd. simpl in Hd. lia.
Qed.

(** Freeing an allocated small object: it returns, keeps the zones sound, that
    object is no longer allocated and every other one still is.  The slab is
    found from the address alone, so the zone named by the caller does not
    matter as long as it is one of small objects. *)
Theorem kmem_zonefree_correct st z zc Zn Zc p :
  small_ok st → small_zone st z Zn → small_zone st zc Zc → allocated_obj st z p →
  ∃ st', kmem_zonefree zc p st = Ok ((), st') ∧ small_ok st' ∧
    ∀ z2 q, allocated_obj st' z2 q ↔ allocated_obj st z2 q ∧ ¬ (z2 = z ∧ q = p).
Proof.
  intros Hok Hz Hzc Hp.
  destruct (zonefree_core st z zc Zn Zc p Hok Hz Hzc Hp) as (st' & h & s & s1 & Hrun & Hc & Hpg & Hh & _ & U & _ & Ha).
  exists st'. split; [done|]. split; [|done].
  eapply slab_update_ok; [done|exact U|done|rewrite Hpg; exact (sk_live _ Hok _ _ _ Hz Hh)|rewrite Hpg; apply Hok|by rewrite Hpg].
Qed.
(** ** Objects larger than a page *)

Lemma zonenum_large size : 4096 < size → zonenum size = -1.
Proof.
  intros. unfold zonenum.
  repeat match goal with |- context [size <=? ?b] => rewrite (proj2 (Z.leb_gt size b)) by lia end.
  done.
Qed.

(** A change of the pages that takes no page from a small slab. *)
Lemma small_ok_pages st p :
  small_ok st → pa_inv p → (∀ h, (h, 4096) ∈ pa_live (pages st) → (h, 4096) ∈ pa_live p) →
  small_ok (KMem (kmem_zones st) (zones st) (slabs st) (bufctls st) (bytes st) p).
Proof.
  intros [[H1 H2 H3 H4] Hl _] Hp Hk. split; [split|..]; try done. intros z Zn h Hz Hh. by eapply Hk, Hl.
Qed.

Definition large_pages (size : Z) : Z := PGROUNDUP size / PGSIZE.
Lemma large_pages_size size : PGSIZE < size < 2^63 →
  2 ≤ large_pages size ∧ size ≤ large_pages size * PGSIZE < size + PGSIZE.
Proof.
  unfold large_pages, PGSIZE. intros H. rewrite PGROUNDUP_eq by (unfold PGSIZE; lia). unfold PGSIZE.
  Z.div_mod_to_equations. lia.
Qed.

(** An object of more than a page is a range of whole pages of its own, and freeing it
    with the same size gives those pages, and only those, back to the page
    allocator; the zones and their objects are not touched by either. *)
Theorem kmem_large_correct st size :
  small_ok st → PGSIZE < size < 2^63 → pa_ready (large_pages size) kVMKSleep (pages st) →
  ∃ p st1 st2, kmem_alloc size st = Ok (p, st1) ∧ kmem_free p size st1 = Ok ((), st2) ∧
    small_ok st1 ∧ small_ok st2 ∧ p mod PGSIZE = 0 ∧
    (∀ r, r ∈ pa_live (pages st) → disjoint_ranges (p, size) r) ∧
    pa_live (pages st1) ≡ₚ (p, large_pages size * PGSIZE) :: pa_live (pages st) ∧
    pa_live (pages st2) ≡ₚ pa_live (pages st) ∧
    (∀ z q, allocated_obj st1 z q ↔ allocated_obj st z q) ∧
    ∀ z q, allocated_obj st2 z q ↔ allocated_obj st z q.
Proof.
  intros Hok Hs Hr. destruct (large_pages_size size Hs) as [Hn Hle].
  destruct (pa_alloc_spec _ _ _ (sk_pages _ Hok) Hr) as (p & s1 & Hrun1 & Hi1 & Hpos & Hmax & Hal & Hdis & Hlive).
  destruct (pa_free_spec (large_pages size) p s1 Hi1) as (s2 & Hrun2 & Hi2 & Hlive2); [rewrite Hlive; left|].
  assert (pa_live s2 ≡ₚ pa_live (pages st)) as HP
    by (eapply Permutation_cons_inv; by rewrite <-Hlive2, <-Hlive).
  set (st1 := KMem (kmem_zones st) (zones st) (slabs st) (bufctls st) (bytes st) s1).
  set (st2 := KMem (kmem_zones st) (zones st) (slabs st) (bufctls st) (bytes st) s2).
  exists p, st1, st2. split_and!; try done.
  - unfold kmem_alloc. cbv zeta. unfold PGSIZE in Hs. rewrite (proj2 (Z.ltb_lt 0 size)), massert_bind by lia.
    rewrite zonenum_large by lia. apply (on_pa_ok _ _ _ _ Hrun1).
  - unfold kmem_free. cbv zeta. unfold PGSIZE in Hs. rewrite (proj2 (Z.ltb_lt 0 size)), massert_bind by lia.
    rewrite zonenum_large by lia. apply (on_pa_ok _ st1 _ _ Hrun2).
  - apply small_ok_pages; [done..|]. intros h Hh. rewrite Hlive. by right.
  - apply small_ok_pages; [done..|]. intros h Hh. by rewrite HP.
  - intros r Hr'. specialize (Hdis r Hr'). unfold disjoint_ranges in *. simpl in *. lia.
Qed.
End props.

(** ** The choice of a zone *)

(** Decidable form, to be evaluated on the table. *)
Definition zonenum_good (size : Z) : Prop :=
  0 ≤ zonenum size < 32 ∧ size ≤ ZONE_SIZES !!! Z.to_nat (zonenum size) ∧
  Forall (λ j, ZONE_SIZES !!! Z.to_nat j < size) (seqZ 0 (zonenum size)).
#[export] Instance zonenum_good_dec size : Decision (zonenum_good size).
Proof. unfold zonenum_good. apply _. Defined.

Lemma zonenum_table : Forall zonenum_good (seqZ 1 4096).
Proof. apply (bool_decide_unpack _). vm_compute. exact I. Qed.

(** [kmem_alloc] serves an object of at most a page from the zone with the
    smallest objects it fits in, and goes to the page allocator for a larger one. *)
Theorem zonenum_correct size :
  0 < size →
  (size ≤ PGSIZE → 0 ≤ zonenum size < 32 ∧ size ≤ ZONE_SIZES !!! Z.to_nat (zonenum size) ∧
     ∀ j, 0 ≤ j < zonenum size → ZONE_SIZES !!! Z.to_nat j < size) ∧
  (PGSIZE < size → zonenum size = -1).
Proof.
  intros Hs. unfold PGSIZE. split; [|apply zonenum_large]. intros Hle.
  pose proof zonenum_table as HF. rewrite Forall_forall in HF.
  destruct (HF size) as (? & ? & Hmin); [apply elem_of_seqZ; lia|].
  split_and!; try lia. rewrite Forall_forall in Hmin. intros j Hj. apply Hmin, elem_of_seqZ. lia.
Qed.
Lemma zonenum_correct_witness :
  (300 ≤ PGSIZE → 0 ≤ zonenum 300 < 32 ∧ 300 ≤ ZONE_SIZES !!! Z.to_nat (zonenum 300) ∧
     ∀ j, 0 ≤ j < zonenum 300 → ZONE_SIZES !!! Z.to_nat j < 300) ∧
  (PGSIZE < 300 → zonenum 300 = -1).
Proof. apply (zonenum_correct 300). lia. Defined.

(** ** Start-up *)

(** The zones [kmem_init] makes. *)
Definition init_sizes : list Z := sizeof_kmem_slab + 8 :: sizeof_kmem_bufctl :: ZONE_SIZES.
Definition init_names : list string :=
  "kmem_slab" :: "kmem_bufctl" :: ((λ size : Z, "kmem_" +:+ pretty size) <$> ZONE_SIZES).
Definition init_zones : gmap Z kmem_zone :=
  list_to_map (zip (seqZ 0 34) (zip_with (λ n size, Zone n size [] []) init_names init_sizes)).

Lemma init_zones_ok : map_Forall (λ _ Zn, 8 ≤ zone_size Zn ∧ slablist Zn = []) init_zones.
Proof. apply (bool_decide_unpack _). vm_compute. exact I. Qed.

Lemma init_zones_sizes :
  Forall (λ i, zone_size <$> init_zones !! kmem_alloc_zone i = ZONE_SIZES !! Z.to_nat i) (seqZ 0 32).
Proof. apply (bool_decide_unpack _). vm_compute. exact I. Qed.

Section init.
Context {P : Type} `{!PageAlloc P}.
Implicit Types (p : P) (m : mem).

Definition start_state m p : kmem P := KMem [] ∅ ∅ ∅ m p.
Definition init_state m p : kmem P := KMem (seqZ 0 34) init_zones ∅ ∅ m p.

Lemma kmem_init_run m p : kmem_init (start_state m p) = Ok ((), init_state m p).
Proof. vm_compute. reflexivity. Qed.

Lemma init_zone m p z Zn : small_zone (init_state m p) z Zn → 8 ≤ zone_size Zn ∧ slablist Zn = [].
Proof. intros [Hz _]. pose proof init_zones_ok as H. rewrite map_Forall_lookup in H. by eapply H. Qed.

Lemma init_state_ok m p : pa_inv p → small_ok (init_state m p).
Proof.
  intros Hp. assert (∀ z Zn h, small_zone (init_state m p) z Zn → (h ∉ slablist Zn)) as Hno.
  { intros z Zn h Hz. apply init_zone in Hz as [_ ->]. apply not_elem_of_nil. }
  split; [split|..]; try done.
  - intros z Zn Hz. by apply init_zone in Hz as [? _].
  - intros z Zn Hz. apply init_zone in Hz as [_ ->]. apply NoDup_nil_2.
  - intros z Zn h Hz Hin. by destruct (Hno z Zn h Hz).
  - intros z Zn h Hz Hin. by destruct (Hno z Zn h Hz).
  - intros z Zn h Hz Hin. by destruct (Hno z Zn h Hz).
Qed.

(** [kmem_init] sets up the 34 zones, without slabs, those of [kmem_alloc] with
    the sizes of the table, and so establishes the invariant that allocation
    and release keep. *)
Theorem kmem_init_correct m p :
  pa_inv p →
  ∃ st, kmem_init (start_state m p) = Ok ((), st) ∧ small_ok st ∧ length (kmem_zones st) = 34%nat ∧
    (∀ z q, ¬ allocated_obj st z q) ∧
    ∀ i, 0 ≤ i < 32 → zone_size <$> zones st !! kmem_alloc_zone i = ZONE_SIZES !! Z.to_nat i.
Proof.
  intros Hp. exists (init_state m p). split_and!; [apply kmem_init_run|by apply init_state_ok|done| |].
  - intros z q (Zn & h & s & Hz & Hh & _). apply init_zone in Hz as [_ Hl]. rewrite Hl in Hh.
    by apply elem_of_nil in Hh.
  - intros i Hi. pose proof init_zones_sizes as H. rewrite Forall_forall in H.
    apply H, elem_of_seqZ. lia.
Qed.

(** [kmem_strfree] frees [strlen] bytes where [strdup] allocated one more:
    for the empty string the assertion in [kmem_free] stops the kernel, and for
    a string as long as the objects of a zone it names the zone below the one
    the string came from. *)
Theorem kmem_strfree_size fuel str (st : kmem P) l :
  cstring (bytes st) str l → (length l < fuel)%nat →
  (l = [] → kmem_strfree fuel str st = Fatal "assert(size > 0)") ∧
  (l ≠ [] → kmem_strfree fuel str st = (kmem_free str (Z.of_nat (length l));; mret 0) st) ∧
  (0 < Z.of_nat (length l) < PGSIZE →
     zonenum (Z.of_nat (length l)) = zonenum (Z.of_nat (length l) + 1) ↔
     (Z.of_nat (length l) ∉ ZONE_SIZES)).
Proof.
  intros Hc Hf. pose proof (strlen_run _ _ _ _ Hc Hf) as Hlen.
  assert (kmem_strfree fuel str st = (kmem_free str (Z.of_nat (length l));; mret 0) st) as E.
  { unfold kmem_strfree. rewrite (bind_step _ _ _ st st) by done. by rewrite Hlen. }
  split_and!; [intros ->; by rewrite E|done|].
  assert (Forall (λ n, zonenum n = zonenum (n + 1) ↔ (n ∉ ZONE_SIZES)) (seqZ 1 4095)) as HF.
  { clear. assert (Forall (λ n, bool_decide (zonenum n = zonenum (n + 1)) =
      bool_decide (n ∉ ZONE_SIZES)) (seqZ 1 4095)) as H
      by (apply (bool_decide_unpack _); vm_compute; exact I).
    eapply Forall_impl; [exact H|]. intros n Hn. simpl in Hn.
    rewrite <-(bool_decide_spec (zonenum n = _)), <-(bool_decide_spec (n ∉ _)). by rewrite Hn. }
  rewrite Forall_forall in HF. intros Hr. apply HF, elem_of_seqZ. unfold PGSIZE in Hr. lia.
Qed.
End init.

(** ** The properties at a small kernel *)

Definition bump0 : bump := (16, []).
Lemma bump0_inv : pa_inv bump0.
Proof. split; [done|]. intros r []%elem_of_nil. Qed.
Definition kmem0 : kmem bump := init_state (λ _, 0) bump0.
Lemma kmem0_ok : small_ok kmem0.
Proof. apply init_state_ok, bump0_inv. Qed.

Definition zone8 : kmem_zone := Zone "kmem_8" 8 [] [].
Lemma zone8_small : small_zone kmem0 2 zone8.
Proof. split; [vm_compute; reflexivity|done]. Qed.

Lemma kmem_zonealloc_correct_witness :
  ∃ p st', kmem_zonealloc 2 kmem0 = Ok (p, st') ∧ small_ok st' ∧
    (∀ z2 q, allocated_obj st' z2 q ↔ allocated_obj kmem0 z2 q ∨ (z2 = 2 ∧ q = p)) ∧
    (∃ base i, base mod PGSIZE = 0 ∧ p = base + i * zone_size zone8 ∧
       base ≤ p ∧ p + zone_size zone8 ≤ base + PGSIZE) ∧
    ∀ z2 Z2 q, zones kmem0 !! z2 = Some Z2 → allocated_obj kmem0 z2 q →
      disjoint_ranges (p, zone_size zone8) (q, zone_size Z2).
Proof. apply (kmem_zonealloc_correct kmem0 2 zone8 kmem0_ok zone8_small). right. simpl. lia. Defined.

(** After one allocation from the 8-byte zone. *)
Definition slab8 : kmem_slab :=
  Slab 2 507 (tail (small_slots 65536 8 508)) 0.
Definition kmem1 : kmem bump :=
  KMem (seqZ 0 34) (<[2 := Zone "kmem_8" 8 [69600] []]> init_zones) {[69600 := slab8]} ∅ (λ _, 0)
    (17, [(65536, 4096)]).
Definition zone8' : kmem_zone := Zone "kmem_8" 8 [69600] [].

Lemma zone8'_small : small_zone kmem1 2 zone8'.
Proof. split; [vm_compute; reflexivity|done]. Qed.

Lemma kmem1_zones z Zn : small_zone kmem1 z Zn → 8 ≤ zone_size Zn ∧
  (slablist Zn = [] ∨ z = 2 ∧ Zn = zone8').
Proof.
  intros [Hz _]. change (zones kmem1) with (<[2 := zone8']> init_zones) in Hz.
  apply lookup_insert_Some in Hz as [[<- <-]|[_ Hz]].
  - split; [simpl; lia|by right].
  - pose proof init_zones_ok as H. rewrite map_Forall_lookup in H. destruct (H _ _ Hz). auto.
Qed.

Lemma kmem1_ok : small_ok kmem1.
Proof.
  assert (∀ z Zn h, small_zone kmem1 z Zn → h ∈ slablist Zn → z = 2 ∧ Zn = zone8' ∧ h = 69600) as Hone.
  { intros z Zn h Hz Hin. apply kmem1_zones in Hz as [_ [Hl|[-> ->]]]; [by rewrite Hl in Hin; apply elem_of_nil in Hin|].
    by apply list_elem_of_singleton in Hin as ->. }
  split; [split|..].
  - intros z Zn Hz. by apply kmem1_zones in Hz as [? _].
  - intros z Zn Hz. apply kmem1_zones in Hz as [_ [->|[-> ->]]]; [apply NoDup_nil_2|]. by apply (bool_decide_unpack _).
  - intros z Zn h Hz Hin. destruct (Hone _ _ _ Hz Hin) as (-> & -> & ->). exists slab8. split_and!; [done..|].
    split; [|apply (bool_decide_unpack _); vm_compute; exact I|done].
    assert (Forall (λ e, e ∈ small_slots (slab_page 69600) 8 (slabcapacity 8)) (firstfree slab8)) as HF
      by (apply (bool_decide_unpack _); vm_compute; exact I).
    by rewrite Forall_forall in HF.
  - intros z Zn h Hz Hin. destruct (Hone _ _ _ Hz Hin) as (-> & -> & ->). by split; vm_compute.
  - intros z Zn h Hz Hin. destruct (Hone _ _ _ Hz Hin) as (-> & -> & ->). left.
  - split; [done|]. intros r [->|[]%elem_of_nil]%elem_of_cons. unfold PGSIZE. simpl. lia.
Qed.

Lemma kmem_zonefree_correct_witness :
  allocated_obj kmem1 2 65536 ∧
  ∃ st', kmem_zonefree 2 65536 kmem1 = Ok ((), st') ∧ small_ok st' ∧
    ∀ z2 q, allocated_obj st' z2 q ↔ allocated_obj kmem1 z2 q ∧ ¬ (z2 = 2 ∧ q = 65536).
Proof.
  assert (allocated_obj kmem1 2 65536) as Ha.
  { exists zone8', 69600, slab8. split; [apply zone8'_small|]. split; [left|]. split; [done|].
    split; apply (bool_decide_unpack _); vm_compute; exact I. }
  split; [exact Ha|].
  apply (kmem_zonefree_correct kmem1 2 2 zone8' zone8' 65536 kmem1_ok zone8'_small zone8'_small Ha).
Defined.

Lemma kmem_init_correct_witness :
  ∃ st, kmem_init (start_state (λ _, 0) bump0) = Ok ((), st) ∧ small_ok st ∧
    length (kmem_zones st) = 34%nat ∧ (∀ z q, ¬ allocated_obj st z q) ∧
    ∀ i, 0 ≤ i < 32 → zone_size <$> zones st !! kmem_alloc_zone i = ZONE_SIZES !! Z.to_nat i.
Proof. apply (kmem_init_correct (λ _, 0) bump0), bump0_inv. Defined.

Lemma kmem_strfree_size_witness :
  ([97] = [] → kmem_strfree 2 10 (init_state demo_mem bump0) = Fatal "assert(size > 0)") ∧
  ([97] ≠ [] → kmem_strfree 2 10 (init_state demo_mem bump0) =
     (kmem_free 10 (Z.of_nat (length [97])) ;; mret 0) (init_state demo_mem bump0)) ∧
  (0 < Z.of_nat (length [97]) < PGSIZE →
     zonenum (Z.of_nat (length [97])) = zonenum (Z.of_nat (length [97]) + 1) ↔
     (Z.of_nat (length [97]) ∉ ZONE_SIZES)).
Proof.
  apply (kmem_strfree_size 2 10 (init_state demo_mem bump0) [97]); [|simpl; lia].
  repeat constructor; simpl; lia.
Defined.

(** ** Runs that show where the code departs from its comments *)

Fixpoint kmem_allocs (n : nat) (size : Z) : M (kmem bump) (list Z) :=
  match n with
  | O => mret []
  | S n' => p ← kmem_alloc size; l ← kmem_allocs n' size; mret (p :: l)
  end.
Definition kmem_result {A} (m : M (kmem bump) A) : option A :=
  match m kmem0 with Ok (a, _) => Some a | _ => None end.

(** Two full slabs of 15 objects of 256 bytes; an object of the second is freed.
    The next allocation does not reuse it, but takes a third page: full slabs
    are not always at the tail of the queue. *)
Example freed_slab_not_first :
  kmem_result (l ← kmem_allocs 30 256; kmem_free (l !!! 20%nat) 256;;
               p ← kmem_alloc 256; mret (PGROUNDDOWN <$> [l !!! 0%nat; l !!! 20%nat; p]))
  = Some [65536; 69632; 73728].
Proof. vm_compute. reflexivity. Qed.

(** A pointer that was never allocated from a zone of large objects: [newfree] is
    read without having been assigned. *)
Example free_unknown_large :
  (p ← kmem_alloc 512; kmem_free (p + 8) 512) kmem0 = Undef "newfree is not initialised".
Proof. vm_compute. reflexivity. Qed.
