(* ===== verification/KmemLarge.v ===== *)
(** * Zones of large objects (kern/kmem_slab.c)

    The slab of a zone of objects of more than 256 bytes has its header and the
    control blocks of its objects in objects of the two internal zones, and its
    memory in pages of its own.  The invariant of these zones, over that of the
    zones of small objects, and what allocation and release do. *)

From S2P Require Import Prelude VmPage Klib PageAlloc Kmem KmemProps.
Open Scope Z_scope.

Lemma large_sizes size :
  256 < size ≤ 4096 →
  0 < slabcapacity size < 2^32 ∧ slabcapacity size * size ≤ slabsize size ∧
    slabsize size / PGSIZE * PGSIZE = slabsize size.
Proof.
  intros H. unfold slabcapacity, slabsize, kSmallSlabMax. rewrite (proj2 (Z.leb_gt _ _)) by lia.
  rewrite (w64_small (size * 16)), PGROUNDUP_eq by lia. unfold PGSIZE. rewrite w32_small; Z.div_mod_to_equations; nia.
Qed.

Section large.
Context {P : Type} `{!PageAlloc P}.
Implicit Types (st : kmem P).

(** A slab: its entries are the control blocks [es], in the order of the objects, in
    use or free. *)
Record large_slab_ok st (Zn : kmem_zone) (h : Z) (s : kmem_slab) (es : list Z) : Prop := {
  ll_n : nfree s = Z.of_nat (length (firstfree s));
  ll_nodup : NoDup es;
  ll_fnodup : NoDup (firstfree s);
  ll_len : Z.of_nat (length es) = slabcapacity (zone_size Zn);
  ll_entry i e : es !! i = Some e →
    bufctls st !! e = Some (Bufctl h (slab_data s + zone_size Zn * Z.of_nat i)) ∧ allocated_obj st zone_kmem_bufctl e;
  ll_free e : e ∈ firstfree s → e ∈ es ∧ (e ∉ bufctllist Zn);
  ll_used e : e ∈ es → e ∈ firstfree s ∨ e ∈ bufctllist Zn;
  ll_mine e bc : e ∈ bufctllist Zn → bufctls st !! e = Some bc → bc_slab bc = h → e ∈ es;
  ll_header : allocated_obj st zone_kmem_slab h;
  ll_data : (slab_data s, slabsize (zone_size Zn)) ∈ pa_live (pages st);
}.

Record large_part st : Prop := {
  lp_size z Zn : large_zone st z Zn → zone_size Zn ≤ 4096;
  lp_nodup z Zn : large_zone st z Zn → NoDup (slablist Zn) ∧ NoDup (bufctllist Zn);
  lp_slab z Zn h : large_zone st z Zn → h ∈ slablist Zn →
    ∃ s es, slabs st !! h = Some s ∧ slab_zone s = z ∧ large_slab_ok st Zn h s es;
  lp_used z Zn e : large_zone st z Zn → e ∈ bufctllist Zn →
    ∃ h s es, h ∈ slablist Zn ∧ slabs st !! h = Some s ∧ large_slab_ok st Zn h s es ∧ e ∈ es;
  lp_apart z1 z2 Z1 Z2 h1 h2 s1 s2 : large_zone st z1 Z1 → large_zone st z2 Z2 → h1 ∈ slablist Z1 → h2 ∈ slablist Z2 →
    slabs st !! h1 = Some s1 → slabs st !! h2 = Some s2 → h1 ≠ h2 →
    disjoint_ranges (slab_data s1, slabsize (zone_size Z1)) (slab_data s2, slabsize (zone_size Z2));
  lp_small z1 z2 Z1 Z2 h1 h2 s1 : large_zone st z1 Z1 → small_zone st z2 Z2 → h1 ∈ slablist Z1 → h2 ∈ slablist Z2 →
    slabs st !! h1 = Some s1 → disjoint_ranges (slab_page h2, 4096) (slab_data s1, slabsize (zone_size Z1));
}.

Record kmem_ok st : Prop := {
  km_small : small_ok st;
  km_large : large_part st;
}.

(** The objects in use of the zones of large objects. *)
Definition allocated_large st (z p : Z) : Prop :=
  ∃ Zn e bc, large_zone st z Zn ∧ e ∈ bufctllist Zn ∧ bufctls st !! e = Some bc ∧ bc_base bc = p.

(** A slot is not where a slab's header is. *)
Lemma slot_unaligned st z q : core_ok st → allocated_obj st z q → slab_page q mod PGSIZE ≠ 0.
Proof.
  intros Hok (Zn & h & s & Hz & Hh & _ & Hq & _).
  apply slot_inside in Hq; [|by eapply small_sizes]. pose proof (sk_hdr _ Hok _ _ _ Hz Hh) as [Hal _].
  pose proof (small_sizes _ _ _ Hok Hz). unfold slab_page, PGSIZE in *. Z.div_mod_to_equations. lia.
Qed.

(** ** Changes of the small zones *)

Definition internal_kept st st' : Prop :=
  ∀ z q, z = zone_kmem_slab ∨ z = zone_kmem_bufctl → allocated_obj st z q → allocated_obj st' z q.

Lemma ll_at st Zn h s es e : large_slab_ok st Zn h s es → e ∈ es → ∃ bc, bufctls st !! e = Some bc ∧ bc_slab bc = h.
Proof. intros Hl [i Hi]%list_elem_of_lookup. destruct (ll_entry _ _ _ _ _ Hl i e Hi) as [Hb _]. by eexists. Qed.
(** A slab stays as it is when its control blocks do. *)
Lemma large_slab_keep st st' Zn Zn' h s es :
  zone_size Zn' = zone_size Zn →
  (∀ e bc, bufctls st !! e = Some bc → bc_slab bc = h → e ∈ bufctllist Zn' ↔ e ∈ bufctllist Zn) →
  (∀ e, e ∈ es ∨ e ∈ bufctllist Zn' → bufctls st' !! e = bufctls st !! e) → internal_kept st st' →
  (∀ r, r ∈ pa_live (pages st) → r ∈ pa_live (pages st')) →
  large_slab_ok st Zn h s es → large_slab_ok st' Zn' h s es.
Proof.
  intros Es Eb Hb Hk Hl Hok. pose proof (λ e, ll_at st Zn h s es e Hok) as Hat.
  destruct Hok as [H1 H2 H3 H4 H5 H6 H7 Hm H8 H9]. split; rewrite ?Es; try done.
  - intros i e He. rewrite Hb by (left; by eapply list_elem_of_lookup_2). destruct (H5 i e He). split; [done|].
    apply Hk; auto.
  - intros e He. destruct (H6 e He) as [Hin Hn]. destruct (Hat e Hin) as (bc & ? & ?). split; [done|].
    by rewrite (Eb e bc).
  - intros e He. destruct (Hat e He) as (bc & ? & ?). rewrite (Eb e bc) by done. auto.
  - intros e bc He Hbc Hs. rewrite Hb in Hbc by by right. apply (Hm e bc); [by rewrite <-(Eb e bc)|done..].
  - apply Hk; auto.
  - auto.
Qed.
Lemma large_slab_change st st' Zn h s es :
  small_change st st' → internal_kept st st' → large_slab_ok st Zn h s es → large_slab_ok st' Zn h s es.
Proof.
  intros C Hk. apply large_slab_keep; try done; [|apply C]. intros e _. by rewrite (sc_bufctls _ _ C).
Qed.
Lemma large_part_change st st' :
  core_ok st → large_part st → small_change st st' → internal_kept st st' → large_part st'.
Proof.
  intros Hok L C Hk. pose proof (λ z Zn, proj1 (sc_large _ _ C z Zn)) as Hz.
  assert (∀ z Zn h, large_zone st z Zn → h ∈ slablist Zn → slabs st' !! h = slabs st !! h) as Hs.
  { intros z Zn h Hzn Hh. apply (sc_slabs _ _ C). destruct (lp_slab _ L _ _ _ Hzn Hh) as (s & es & _ & _ & Hl).
    eapply slot_unaligned; [done|apply (ll_header _ _ _ _ _ Hl)]. }
  split.
  - intros z Zn ?%Hz. by eapply lp_size.
  - intros z Zn ?%Hz. by eapply lp_nodup.
  - intros z Zn h Hzn%Hz Hh. destruct (lp_slab _ L _ _ _ Hzn Hh) as (s & es & ? & ? & Hl). exists s, es.
    rewrite (Hs z Zn) by done. split; [done|]. split; [done|]. by eapply large_slab_change.
  - intros z Zn e Hzn%Hz He. destruct (lp_used _ L _ _ _ Hzn He) as (h & s & es & Hh & ? & Hl & ?). exists h, s, es.
    rewrite (Hs z Zn) by done. split; [done|]. split; [done|]. split; [by eapply large_slab_change|done].
  - intros z1 z2 Z1 Z2 h1 h2 s1 s2 Hz1%Hz Hz2%Hz Hh1 Hh2. rewrite (Hs z1 Z1), (Hs z2 Z2) by done.
    by apply (lp_apart _ L z1 z2).
  - intros z1 z2 Z1 Z2 h1 h2 s1 Hz1%Hz Hz2 Hh1 Hh2. rewrite (Hs z1 Z1) by done. intros Hs1.
    destruct (sc_page _ _ C z2 Z2 h2 Hz2 Hh2) as [(Z0 & Hz0 & Hh0)|Hd]; [by apply (lp_small _ L z1 z2 Z1 Z0 h1)|].
    destruct (lp_slab _ L _ _ _ Hz1 Hh1) as (s & es & Hs' & _ & Hl). assert (s = s1) as -> by congruence.
    apply Hd, (ll_data _ _ _ _ _ Hl).
Qed.
Lemma allocated_large_change st st' z p : small_change st st' → allocated_large st' z p ↔ allocated_large st z p.
Proof. intros C. unfold allocated_large. rewrite (sc_bufctls _ _ C). by setoid_rewrite (sc_large _ _ C). Qed.

(** ** Small objects *)

Definition internal (z : Z) : Prop := z = zone_kmem_slab ∨ z = zone_kmem_bufctl.

Lemma small_alloc_ok st z Zn :
  kmem_ok st → small_zone st z Zn → first_has_free st Zn ∨ pa_ready 1 kVMKSleep (pages st) →
  ∃ p st', kmem_zonealloc z st = Ok (p, st') ∧ kmem_ok st' ∧ small_change st st' ∧
    (∀ z2 q, allocated_obj st' z2 q ↔ allocated_obj st z2 q ∨ (z2 = z ∧ q = p)) ∧
    ∀ z2 Z2 q, zones st !! z2 = Some Z2 → allocated_obj st z2 q →
      disjoint_ranges (p, zone_size Zn) (q, zone_size Z2).
Proof.
  intros [Hok L] Hz Hr. destruct (zonealloc_run st z Zn Hok Hz Hr) as (p & st' & Hrun & Hok' & C & Ha & _ & Hd).
  exists p, st'. split_and!; try done. split; [done|]. apply (large_part_change st); try done; [apply Hok|].
  intros z2 q _ Hq. apply Ha. by left.
Qed.
Lemma small_free_ok st z zc Zn Zc p :
  kmem_ok st → small_zone st z Zn → small_zone st zc Zc → allocated_obj st z p → ¬ internal z →
  ∃ st', kmem_zonefree zc p st = Ok ((), st') ∧ kmem_ok st' ∧ small_change st st' ∧ pages st' = pages st ∧
    ∀ z2 q, allocated_obj st' z2 q ↔ allocated_obj st z2 q ∧ ¬ (z2 = z ∧ q = p).
Proof.
  intros [Hok L] Hz Hzc Hp Hi.
  destruct (zonefree_core st z zc Zn Zc p (sk_core _ Hok) Hz Hzc Hp) as (st' & h & s & s1 & Hrun & Hc & Hpg & Hh &
    _ & U & _ & Ha).
  assert (small_change st st') as C.
  { eapply slab_update_change; [exact U|apply (sk_hdr _ Hok _ _ _ Hz Hh)|by rewrite Hpg|by left]. }
  exists st'. split_and!; try done. split.
  - eapply slab_update_ok; [done|exact U|done|rewrite Hpg; exact (sk_live _ Hok _ _ _ Hz Hh)|rewrite Hpg;
      apply Hok|by rewrite Hpg].
  - apply (large_part_change st); try done; [apply Hok|]. intros z2 q Hz2 Hq. apply Ha. split; [done|].
    intros [-> _]. by apply Hi.
Qed.

(** ** Headers and control blocks *)

(** The zone's first slab has [n] free entries. *)
Definition zone_free (n : nat) st (z : Z) : Prop :=
  ∃ Zn, small_zone st z Zn ∧
    (n = 0%nat ∨ ∃ h l s, slablist Zn = h :: l ∧ slabs st !! h = Some s ∧ (n ≤ length (firstfree s))%nat).

Lemma zone_free_update st st' z Zn Zn' h s n z2 :
  slab_update st st' z Zn Zn' h s → z2 ≠ z → zone_free n st z2 → zone_free n st' z2.
Proof.
  intros U Hne (Z2 & Hz2 & Hm). exists Z2. split; [apply (slab_update_zone _ _ _ _ _ _ _ _ _ U); by right|].
  destruct Hm as [->|(h2 & l2 & s2 & Hl2 & Hs2 & Hm)]; [by left|right]. exists h2, l2, s2.
  split; [done|]. rewrite (su_slabs _ _ _ _ _ _ _ U), lookup_insert_ne; [done|]. intros <-. apply Hne.
  eapply (su_mine _ _ _ _ _ _ _ U); [exact Hz2|rewrite Hl2; left].
Qed.

(** One entry from the slab [h] at the head of zone [z]. *)
Lemma take_small_run st z Zn h l s :
  small_ok st → small_zone st z Zn → slablist Zn = h :: l → slabs st !! h = Some s → firstfree s ≠ [] →
  ∃ p st', take_entry z h st = Ok (p, st') ∧ small_ok st' ∧ pages st' = pages st ∧ small_change st st' ∧
    (∀ n, (S n ≤ length (firstfree s))%nat → zone_free n st' z) ∧
    (∀ n z2, z2 ≠ z → zone_free n st z2 → zone_free n st' z2) ∧ ¬ allocated_obj st z p ∧
    ∀ z2 q, allocated_obj st' z2 q ↔ allocated_obj st z2 q ∨ (z2 = z ∧ q = p).
Proof.
  intros Hok Hz Hl Hs Hne. destruct (firstfree s) as [|p next] eqn:Hf; [done|]. pose proof (sk_core _ Hok) as C.
  assert (h ∈ slablist Zn) as Hh by (rewrite Hl; left).
  destruct (take_entry_core st z Zn h s p next C Hz Hh Hs Hf) as (st' & Zn1 & s1 & Hrun & Hok' & Hpg & U & Hf1 &
    Hsame & Ha).
  exists p, st'. split; [done|]. split; [|split; [done|split; [|split; [|split; [|split; [|done]]]]]].
  - eapply slab_update_ok; [done|exact U|done|rewrite Hpg; exact (sk_live _ Hok _ _ _ Hz Hh)|rewrite Hpg;
      apply Hok|by rewrite Hpg].
  - eapply slab_update_change; [exact U|apply (sk_hdr _ C _ _ _ Hz Hh)|by rewrite Hpg|by left].
  - intros n Hn. simpl in Hn. exists Zn1. split; [apply (slab_update_zone _ _ _ _ _ _ _ _ _ U); by left|].
    destruct n as [|n]; [by left|right]. exists h, l, s1.
    rewrite (su_slabs _ _ _ _ _ _ _ U), lookup_insert_eq, Hf1, Hsame, <-Hl; [|intros ->; simpl in Hn; lia].
    split_and!; [done..|lia].
  - intros n z2. by apply (zone_free_update st st' z Zn Zn1 h s1).
  - intros Hp. pose proof (free_apart st z Zn h s p z Zn p C Hz Hh Hs ltac:(rewrite Hf; left) (proj1 Hz) Hp) as Hd.
    pose proof (small_sizes _ _ _ C Hz). unfold disjoint_ranges in Hd. simpl in Hd. lia.
Qed.

(** An allocation for the allocator itself: from the first slab of the zone, or from a
    page that is made one. *)
Lemma internal_alloc st z Zn :
  small_ok st → small_zone st z Zn → first_has_free st Zn ∨ pa_ready 1 kVMKSleep (pages st) →
  ∃ p st', kmem_zonealloc_small z st = Ok (p, st') ∧ small_ok st' ∧ small_change st st' ∧
    (∀ n z2, z2 ≠ z → zone_free n st z2 → zone_free n st' z2) ∧ ¬ allocated_obj st z p ∧
    (∀ z2 q, allocated_obj st' z2 q ↔ allocated_obj st z2 q ∨ (z2 = z ∧ q = p)) ∧
    ((first_has_free st Zn ∧ pages st' = pages st ∧ ∀ n, zone_free (S n) st z → zone_free n st' z) ∨
     (¬ first_has_free st Zn ∧ (∃ a, pa_alloc 1 kVMKSleep (pages st) = Ok (a, pages st')) ∧
      ∀ n, Z.of_nat n < slabcapacity (zone_size Zn) → zone_free n st' z)).
Proof.
  intros Hok Hz Hr. pose proof (sk_core _ Hok) as C. destruct (first_has_free_dec st Zn) as [Hff|Hno].
  - destruct (pick_slab_first small_slab_new st z Zn C Hz Hff) as (h & l & s & p & next & Hpick & Hl & Hs & Hf).
    destruct (take_small_run st z Zn h l s Hok Hz Hl Hs) as (q & st' & Hrun & Hok' & Hpg & Hc & Hfr & Ho & Hn &
      Ha); [by rewrite Hf|].
    exists q, st'. split_and!; try done; [unfold kmem_zonealloc_small, kmem_zonealloc_with;
      by rewrite (bind_step _ _ _ _ _ Hpick)|].
    left. split_and!; [done..|]. intros n (Z2 & Hz2 & [?|(h2 & l2 & s2 & Hl2 & Hs2 & Hn2)]); [done|].
    assert (Z2 = Zn) as -> by (destruct Hz, Hz2; congruence). rewrite Hl in Hl2. injection Hl2 as <- <-.
    assert (s2 = s) as -> by congruence. by apply Hfr.
  - destruct Hr as [?|Hr]; [done|]. destruct (capacity_small _ (small_sizes _ _ _ C Hz)) as [Hcap _].
    destruct (small_slab_new_run st z Zn Hok Hz Hr) as (h & st1 & Zn1 & Hnew & Hok1 & Hz1 & Esz & Hl & _ & Hs &
      (s0 & U) & Hpa & Hc1 & Ha1).
    assert (small_zone st1 z Zn1) as Hzn1 by (split; [done|]; rewrite Esz; apply Hz).
    destruct (take_small_run st1 z Zn1 h (slablist Zn) _ Hok1 Hzn1 Hl Hs) as (p & st' & Hrun & Hok' & Hpg & Hc &
      Hfr & Ho & Hn & Ha).
    { simpl. intros E. apply (f_equal length) in E. unfold small_slots in E.
      rewrite length_fmap, length_seqZ in E. simpl in E. lia. }
    exists p, st'. split_and!; try done.
    + unfold kmem_zonealloc_small, kmem_zonealloc_with. rewrite (bind_step _ _ st h st1); [done|].
      by rewrite (pick_slab_new _ _ _ _ C Hz Hno).
    + by eapply small_change_trans.
    + intros n z2 Hne Hf. apply Ho; [done|]. by eapply zone_free_update.
    + by rewrite <-Ha1.
    + intros z2 q. by rewrite Ha, Ha1.
    + right. rewrite Hpg. split; [done|]. split; [done|]. intros n Hlt. apply Hfr. simpl. unfold small_slots.
      rewrite length_fmap, length_seqZ. lia.
Qed.

(** A change of large zones, their slabs and their control blocks only. *)
Record large_change st st' : Prop := {
  lc_zones z Zn : small_zone st' z Zn ↔ small_zone st z Zn;
  lc_slabs h : slab_page h mod PGSIZE = 0 → slabs st' !! h = slabs st !! h;
}.
Lemma large_change_alloc st st' z q :
  core_ok st → large_change st st' → allocated_obj st' z q ↔ allocated_obj st z q.
Proof.
  intros Hok [H1 H2]. unfold allocated_obj. split; intros (Zn & h & s & Hz & Hh & Hs & Hq).
  - apply H1 in Hz. exists Zn, h, s. rewrite <-(H2 h); [done|]. apply (sk_hdr _ Hok _ _ _ Hz Hh).
  - exists Zn, h, s. rewrite H1, H2; [done|]. apply (sk_hdr _ Hok _ _ _ Hz Hh).
Qed.
Lemma large_change_core st st' : core_ok st → large_change st st' → core_ok st'.
Proof.
  intros Hok [H1 H2]. split.
  - intros z Zn ?%H1. by eapply sk_size.
  - intros z Zn ?%H1. by eapply sk_nodup.
  - intros z Zn h Hz%H1 Hh. rewrite H2; [by eapply sk_slab|]. apply (sk_hdr _ Hok _ _ _ Hz Hh).
  - intros z Zn h Hz%H1 Hh. by eapply sk_hdr.
Qed.
Lemma large_change_ok st st' :
  small_ok st → large_change st st' → pa_inv (pages st') → (∀ r, r ∈ pa_live (pages st) →
    r ∈ pa_live (pages st')) → small_ok st'.
Proof.
  intros Hok Hc Hi Hl. split; [by eapply large_change_core; [apply Hok|]| |done].
  intros z Zn h Hz%Hc Hh. by eapply Hl, (sk_live _ Hok).
Qed.
Lemma large_change_free st st' n z : core_ok st → large_change st st' → zone_free n st z → zone_free n st' z.
Proof.
  intros Hok [H1 H2] (Zn & Hz & Hn). exists Zn. split; [by apply H1|].
  destruct Hn as [->|(h & l & s & Hl & Hs & Hn)]; [by left|right]. exists h, l, s. rewrite H2; [done|].
  apply (sk_hdr _ Hok _ _ _ Hz). rewrite Hl. left.
Qed.

(** What the construction of a slab does on the way to the rest: the large zones and their
    slabs stay. *)
Record inner st st' : Prop := {
  in_ok : small_ok st';
  in_large z Zn : large_zone st' z Zn ↔ large_zone st z Zn;
  in_slabs h : slab_page h mod PGSIZE ≠ 0 → slabs st' !! h = slabs st !! h;
  in_live r : r ∈ pa_live (pages st) → r ∈ pa_live (pages st');
  in_page z Zn' h : small_zone st' z Zn' → h ∈ slablist Zn' →
    (∃ Zn, small_zone st z Zn ∧ h ∈ slablist Zn) ∨
    ∀ r, r ∈ pa_live (pages st) → disjoint_ranges (slab_page h, 4096) r;
  in_sizes z : zone_size <$> zones st' !! z = zone_size <$> zones st !! z;
}.
Lemma inner_refl st : small_ok st → inner st st.
Proof. intros Hok. split; try done. intros z Zn h Hz Hh. left. by exists Zn. Qed.
Lemma inner_trans st1 st2 st3 : inner st1 st2 → inner st2 st3 → inner st1 st3.
Proof.
  intros [A1 A2 A3 A4 A5 A6] [B1 B2 B3 B4 B5 B6]. split.
  - done.
  - intros z Zn. by rewrite B2, A2.
  - intros h Hh. by rewrite B3, A3.
  - auto.
  - intros z Zn h Hz Hh. destruct (B5 z Zn h Hz Hh) as [(Z0 & ? & ?)|?]; [by eapply A5|right; auto].
  - intros z. by rewrite B6, A6.
Qed.
Lemma set_bufctl_change st e bc : large_change st (set_bufctl e bc st).
Proof. by split. Qed.
Lemma inner_bufctl st e bc : small_ok st → inner st (set_bufctl e bc st).
Proof.
  intros Hok. split; try done; [apply (large_change_ok st); [done|apply set_bufctl_change|apply Hok|done]|].
  intros z Zn h Hz Hh. left. by exists Zn.
Qed.
Lemma inner_small st st' : small_ok st' → small_change st st' → inner st st'.
Proof. intros Hok []. by split. Qed.

(** [n] objects of the zone, from its first slab or with one page. *)
Definition supply (n : nat) st (z : Z) (Zn : kmem_zone) : Prop :=
  small_zone st z Zn ∧ Z.of_nat n ≤ slabcapacity (zone_size Zn) ∧ (zone_free n st z ∨ pa_ready 1 kVMKSleep (pages
    st)).

Lemma supply_now n st z Zn :
  core_ok st → supply (S n) st z Zn → first_has_free st Zn ∨ pa_ready 1 kVMKSleep (pages st).
Proof.
  intros C (Hz & _ & [(Z2 & Hz2 & [?|(h & l & s & Hl & Hs & Hn)])|?]); [done| |by right].
  assert (Z2 = Zn) as -> by (destruct Hz, Hz2; congruence). left. exists h, l, s. split_and!; [done..|].
  destruct (sk_slab _ C _ _ h Hz ltac:(rewrite Hl; left)) as (s' & Hs' & _ & [_ _ Hnf]).
  assert (s' = s) as -> by congruence. lia.
Qed.

(** The control blocks of a new slab. *)
Lemma large_entries_run slab data size n i st Zb :
  small_ok st → supply n st zone_kmem_bufctl Zb →
  ∃ es st', large_entries slab data size i n st = Ok (es, st') ∧ inner st st' ∧ length es = n ∧ NoDup es ∧
    (∀ e, e ∈ es → ¬ allocated_obj st zone_kmem_bufctl e) ∧
    (∀ e, (e ∉ es) → bufctls st' !! e = bufctls st !! e) ∧
    (∀ j e, es !! j = Some e → bufctls st' !! e = Some (Bufctl slab (data + size * (i + Z.of_nat j)))) ∧
    ∀ z q, allocated_obj st' z q ↔ allocated_obj st z q ∨ (z = zone_kmem_bufctl ∧ q ∈ es).
Proof.
  revert i st Zb. induction n as [|n IH]; intros i st Zb Hok Hsup.
  - exists [], st. split; [done|]. split; [by apply inner_refl|]. split; [done|]. split; [constructor|].
    split; [by intros e ?%elem_of_nil|]. split; [done|]. split; [done|]. intros z q. rewrite elem_of_nil. tauto.
  - destruct (internal_alloc st zone_kmem_bufctl Zb Hok (proj1 Hsup) (supply_now n st _ Zb (sk_core _ Hok) Hsup))
      as (e & st1 & Hrun & Hok1 & C & _ & Hnew & Ha & Hpg).
    assert (inner st st1) as I1 by by apply inner_small.
    set (st2 := set_bufctl e (Bufctl slab (data + size * i)) st1).
    assert (inner st1 st2) as I2 by by apply inner_bufctl.
    assert (∀ z q, allocated_obj st2 z q ↔ allocated_obj st1 z q) as Ha2
      by (intros z q; apply large_change_alloc; [apply Hok1|apply set_bufctl_change]).
    assert (∃ Zb', supply n st2 zone_kmem_bufctl Zb') as [Zb' Hsup'].
    { destruct Hsup as (Hz & Hn & Hs). pose proof (in_sizes _ _ (inner_trans _ _ _ I1 I2) zone_kmem_bufctl) as Esz.
      rewrite (proj1 Hz) in Esz. destruct (zones st2 !! zone_kmem_bufctl) as [Zb'|] eqn:Ezb; simpl in Esz; [|done].
      injection Esz as Esz. exists Zb'. split; [split; [done|]; rewrite Esz; apply Hz|]. split; [rewrite Esz; lia|].
      destruct Hpg as [(_ & Ep & Hf)|(_ & _ & Hf)].
      - destruct Hs as [Hs|Hs]; [left|right; change (pages st2) with (pages st1); by rewrite Ep].
        eapply (large_change_free st1); [apply Hok1|apply set_bufctl_change|by apply Hf].
      - left. eapply (large_change_free st1); [apply Hok1|apply set_bufctl_change|]. apply Hf. lia. }
    destruct (IH (i + 1) st2 Zb') as (es & st3 & Hrun3 & I3 & Hlen & Hnd & Hfresh & Ho & He & Ha3); [apply I2|done|].
    assert (e ∉ es) as Hne by (intros Hin; apply (Hfresh e Hin), Ha2, Ha; by right).
    exists (e :: es), st3. split; [|split; [by eapply inner_trans, inner_trans|split; [simpl; lia|
      split; [by apply NoDup_cons|split; [|split; [|split]]]]]].
    + cbn [large_entries]. rewrite (bind_step _ _ _ _ _ Hrun), (bind_step _ _ _ _ _ (mmodify_ok _ _)). fold st2.
      by rewrite (bind_step _ _ _ _ _ Hrun3).
    + intros e' [->|Hin]%elem_of_cons; [done|]. intros Hal. apply (Hfresh e' Hin), Ha2, Ha. by left.
    + intros e' [Hn1 Hn2]%not_elem_of_cons. rewrite Ho by done. unfold st2. simpl. rewrite lookup_insert_ne by done.
      by rewrite (sc_bufctls _ _ C).
    + intros [|j] e' Hj; simpl in Hj.
      * injection Hj as <-. rewrite Ho by done. unfold st2. simpl. rewrite lookup_insert_eq. do 3 f_equal. lia.
      * rewrite (He j e' Hj). do 3 f_equal. lia.
    + intros z q. rewrite Ha3, Ha2, Ha, elem_of_cons. naive_solver.
Qed.

(** ** A new slab *)

Definition push_slab (h : Z) (Zn : kmem_zone) : kmem_zone :=
  Zone (zone_name Zn) (zone_size Zn) (h :: slablist Zn) (bufctllist Zn).

(** [large_slab_new] has put the slab [h] with the control blocks [es] and memory from
    [data] on in front of zone [z]. *)
Record new_slab st st' (z : Z) (Zn : kmem_zone) (h data : Z) (es : list Z) : Prop := {
  nw_small : small_ok st';
  nw_large z2 Z2 : large_zone st' z2 Z2 ↔ (z2 = z ∧ Z2 = push_slab h Zn) ∨ (z2 ≠ z ∧ large_zone st z2 Z2);
  nw_page z2 Z2 h2 : small_zone st' z2 Z2 → h2 ∈ slablist Z2 →
    (∃ Z0, small_zone st z2 Z0 ∧ h2 ∈ slablist Z0) ∨
    ∀ r, r ∈ pa_live (pages st) → disjoint_ranges (slab_page h2, 4096) r;
  nw_apart z2 Z2 h2 : small_zone st' z2 Z2 → h2 ∈ slablist Z2 →
    disjoint_ranges (slab_page h2, 4096) (data, slabsize (zone_size Zn));
  nw_slab : slabs st' !! h = Some (Slab z (slabcapacity (zone_size Zn)) es data);
  nw_slabs h2 : slab_page h2 mod PGSIZE ≠ 0 → h2 ≠ h → slabs st' !! h2 = slabs st !! h2;
  nw_len : Z.of_nat (length es) = slabcapacity (zone_size Zn);
  nw_nodup : NoDup es;
  nw_fresh e : e ∈ es → ¬ allocated_obj st zone_kmem_bufctl e;
  nw_header : ¬ allocated_obj st zone_kmem_slab h;
  nw_others e : (e ∉ es) → bufctls st' !! e = bufctls st !! e;
  nw_entry j e : es !! j = Some e → bufctls st' !! e = Some (Bufctl h (data + zone_size Zn * Z.of_nat j));
  nw_alloc z2 q : allocated_obj st' z2 q ↔ allocated_obj st z2 q ∨ (z2 = zone_kmem_slab ∧ q = h) ∨
    (z2 = zone_kmem_bufctl ∧ q ∈ es);
  nw_live r : r ∈ pa_live (pages st) → r ∈ pa_live (pages st');
  nw_own : (data, slabsize (zone_size Zn)) ∈ pa_live (pages st');
  nw_data r : r ∈ pa_live (pages st) → disjoint_ranges (data, slabsize (zone_size Zn)) r;
  nw_sizes z2 : zone_size <$> zones st' !! z2 = zone_size <$> zones st !! z2;
}.

(** After [n] pages are allocated, [Q]. *)
Definition page_then (n : Z) (Q : P → Prop) (p : P) : Prop :=
  pa_ready n kVMKSleep p ∧ ∀ a p', pa_alloc n kVMKSleep p = Ok (a, p') → Q p'.
(** What a new slab needs: a header, from a slab or with a page; then its pages; then control
    blocks, from a slab or with a page. *)
Definition slab_ready_for st (Zn : kmem_zone) : Prop :=
  ∃ Z0 Z1, small_zone st zone_kmem_slab Z0 ∧ small_zone st zone_kmem_bufctl Z1 ∧
    slabcapacity (zone_size Zn) ≤ slabcapacity (zone_size Z1) ∧
    let blocks p := zone_free (Z.to_nat (slabcapacity (zone_size Zn))) st zone_kmem_bufctl ∨ pa_ready 1 kVMKSleep p in
    let data := page_then (slabsize (zone_size Zn) / PGSIZE) blocks in
    first_has_free st Z0 ∧ data (pages st) ∨ (¬ first_has_free st Z0) ∧ page_then 1 data (pages st).

(** The header. *)
Lemma header_run st (Q : P → Prop) Z0 :
  small_ok st → small_zone st zone_kmem_slab Z0 →
  first_has_free st Z0 ∧ Q (pages st) ∨ (¬ first_has_free st Z0) ∧ page_then 1 Q (pages st) →
  ∃ h st1, kmem_zonealloc_small zone_kmem_slab st = Ok (h, st1) ∧ small_ok st1 ∧ small_change st st1 ∧
    (∀ n, zone_free n st zone_kmem_bufctl → zone_free n st1 zone_kmem_bufctl) ∧ ¬ allocated_obj st zone_kmem_slab h ∧
    (∀ z2 q, allocated_obj st1 z2 q ↔ allocated_obj st z2 q ∨ (z2 = zone_kmem_slab ∧ q = h)) ∧ Q (pages st1).
Proof.
  intros Hok Hz HQ. destruct (internal_alloc st zone_kmem_slab Z0 Hok Hz) as (h & st1 & Hrun & Hok1 & C & Hf & Hn
    & Ha & Hpg).
  { destruct HQ as [[? _]|(_ & ? & _)]; auto. }
  exists h, st1. split_and!; try done; [intros n; by apply Hf|].
  destruct HQ as [[Hff HQ]|(Hff & _ & HQ)], Hpg as [(? & -> & _)|(? & [a Ea] & _)]; try done. by eapply HQ.
Qed.

(** The pages of a slab and the zone's list. *)
Lemma large_pages_run st z Zn h (Q : P → Prop) :
  small_ok st → large_zone st z Zn → zone_size Zn ≤ 4096 → page_then (slabsize (zone_size Zn) / PGSIZE) Q (pages st) →
  let st2 := set_zone z (push_slab h Zn) st in
  ∃ data p', on_pa (pa_alloc (slabsize (zone_size Zn) / PGSIZE) kVMKSleep) st2 =
      Ok (data, KMem (kmem_zones st2) (zones st2) (slabs st2) (bufctls st2) (bytes st2) p') ∧
    let st3 := KMem (kmem_zones st2) (zones st2) (slabs st2) (bufctls st2) (bytes st2) p' in
    large_change st st3 ∧ small_ok st3 ∧ Q p' ∧
    (∀ r, r ∈ pa_live (pages st) → disjoint_ranges (data, slabsize (zone_size Zn)) r) ∧
    pa_live p' ≡ₚ (data, slabsize (zone_size Zn)) :: pa_live (pages st) ∧
    (∀ z2 Z2, large_zone st3 z2 Z2 ↔ (z2 = z ∧ Z2 = push_slab h Zn) ∨ (z2 ≠ z ∧ large_zone st z2 Z2)) ∧
    ∀ z2, zone_size <$> zones st3 !! z2 = zone_size <$> zones st !! z2.
Proof.
  intros Hok Hz Hmax [Rp HQ] st2. pose proof (proj2 Hz) as Hmin. unfold kSmallSlabMax in Hmin.
  destruct (large_sizes (zone_size Zn)) as (_ & _ & Hpgs); [lia|].
  destruct (pa_alloc_spec _ kVMKSleep _ (sk_pages _ Hok) Rp) as (data & p' & Hrunp & Hinv & _ & _ & _ & Hdis & Hlive).
  rewrite Hpgs in *. exists data, p'. split; [by apply on_pa_ok|]. intros st3.
  assert (large_change st st3) as C3.
  { split; [|done]. intros z2 Z2. unfold small_zone, st3, st2. simpl. destruct (decide (z2 = z)) as [->|Hne];
      [|by rewrite lookup_insert_ne].
    rewrite lookup_insert_eq. destruct Hz as [Hz1 Hs1]. rewrite Hz1. split; intros [[= <-] ?]; simpl in *; lia. }
  split; [done|]. split; [eapply large_change_ok; [done|done|done|]; intros r Hr; simpl; rewrite Hlive; by right|].
  split_and!; [by eapply HQ|done|done| |].
  - intros z2 Z2. unfold large_zone, st3, st2. simpl. rewrite lookup_insert_Some. split.
    + intros [[[<- <-]|[? ?]] ?]; [by left|right; split; [congruence|done]].
    + intros [[-> ->]|(? & ? & ?)]; [split; [by left|exact Hmin]|split; [right; split; [congruence|done]|done]].
  - intros z2. unfold st3, st2. simpl. destruct (decide (z2 = z)) as [->|Hne]; [|by rewrite lookup_insert_ne].
    by rewrite lookup_insert_eq, (proj1 Hz).
Qed.

Lemma large_slab_new_run st z Zn :
  kmem_ok st → large_zone st z Zn → slab_ready_for st Zn →
  ∃ h data es st', large_slab_new z st = Ok (h, st') ∧ new_slab st st' z Zn h data es.
Proof.
  intros [Hok L] Hz (Z0 & Z1 & Hz0 & Hzb & Hcap & Hrd). pose proof (lp_size _ L _ _ Hz) as Hmax.
  pose proof (proj2 Hz) as Hmin. unfold kSmallSlabMax in Hmin. destruct (large_sizes (zone_size Zn))
    as (Hc0 & _ & _); [lia|].
  destruct (header_run st _ Z0 Hok Hz0 Hrd) as (h & st1 & Hrun1 & Hok1 & C1 & Hf1 & Hnew & Ha1 & Hd).
  assert (large_zone st1 z Zn) as Hz1 by by apply (sc_large _ _ C1).
  destruct (large_pages_run st1 z Zn h _ Hok1 Hz1 Hmax Hd) as (data & p' & Hrunp & C3 & Hok3 & Hb & Hdis & Hlive &
    Hlz3 & Hsz3).
  revert Hrunp C3 Hok3 Hlz3 Hsz3. set (st2 := set_zone z (push_slab h Zn) st1).
  set (st3 := KMem (kmem_zones st2) (zones st2) (slabs st2) (bufctls st2) (bytes st2) p').
  intros Hrunp C3 Hok3 Hlz3 Hsz3.
  assert (∃ Zb, supply (Z.to_nat (slabcapacity (zone_size Zn))) st3 zone_kmem_bufctl Zb) as [Zb Hsup].
  { pose proof (Hsz3 zone_kmem_bufctl) as E. rewrite (sc_sizes _ _ C1), (proj1 Hzb) in E.
    destruct (zones st3 !! zone_kmem_bufctl) as [Zb|] eqn:EZ; simpl in E; [|done]. injection E as E. exists Zb.
    split; [split; [done|]; rewrite E; apply Hzb|]. split; [rewrite E; lia|].
    destruct Hb as [Hb|Hb]; [left|by right]. eapply (large_change_free st1); [apply Hok1|done|by apply Hf1]. }
  destruct (large_entries_run h data (zone_size Zn) _ 0 st3 Zb Hok3 Hsup)
    as (es & st4 & Hrun4 & [I1 I2 I3 I4 I5 I6] & Hlen & Hnd & Hfresh & Ho & He & Ha4).
  set (s := Slab z (slabcapacity (zone_size Zn)) es data). set (st5 := set_slab h s st4).
  assert (slab_page h mod PGSIZE ≠ 0) as Hal.
  { apply (slot_unaligned st1 zone_kmem_slab); [apply Hok1|]. apply Ha1. by right. }
  assert (large_change st4 st5) as C5.
  { split; [done|]. intros h2 Hh2. unfold st5. simpl. rewrite lookup_insert_ne; [done|]. congruence. }
  assert (∀ z2 q, allocated_obj st3 z2 q ↔ allocated_obj st1 z2 q) as Ha3 by (intros; apply large_change_alloc;
    [apply Hok1|done]).
  assert (∀ z2 Z2 h2, small_zone st5 z2 Z2 → h2 ∈ slablist Z2 → (∃ Z0, small_zone st1 z2 Z0 ∧ h2 ∈ slablist Z0) ∨
    ∀ r, r ∈ pa_live p' → disjoint_ranges (slab_page h2, 4096) r) as Hpage.
  { intros z2 Z2 h2 Hz2 Hh2. destruct (I5 z2 Z2 h2 Hz2 Hh2) as [(Z3 & Hz3%C3 & Hh3)|Hd2]; [left;
      by exists Z3|by right]. }
  assert ((data, slabsize (zone_size Zn)) ∈ pa_live p') as Hmine by (rewrite Hlive; left).
  exists h, data, es, st5. split.
  - unfold large_slab_new. rewrite (bind_step _ _ _ _ _ Hrun1), (bind_step _ _ _ _ _ (get_zone_ok _ _ _ (proj1 Hz1))).
    rewrite (bind_step _ _ _ _ _ (mmodify_ok _ _)). fold (push_slab h Zn). fold st2. cbv zeta.
    by rewrite (bind_step _ _ _ _ _ Hrunp), (bind_step _ _ _ _ _ Hrun4), (bind_step _ _ _ _ _ (mmodify_ok _ _)).
  - split; try done.
    + apply (large_change_ok st4); [done|done|apply I1|done].
    + intros z2 Z2. change (large_zone st4 z2 Z2 ↔ (z2 = z ∧ Z2 = push_slab h Zn) ∨ (z2 ≠ z ∧ large_zone st z2 Z2)).
      by rewrite I2, Hlz3, (sc_large _ _ C1).
    + intros z2 Z2 h2 Hz2 Hh2. destruct (Hpage z2 Z2 h2 Hz2 Hh2) as [(Z3 & Hz3 & Hh3)|Hd2];
        [by apply (sc_page _ _ C1 z2 Z3)|].
      right. intros r Hr. apply Hd2. rewrite Hlive. right. by apply C1.
    + intros z2 Z2 h2 Hz2 Hh2. destruct (Hpage z2 Z2 h2 Hz2 Hh2) as [(Z3 & Hz3 & Hh3)|Hd2]; [|by apply Hd2].
      pose proof (Hdis _ (sk_live _ Hok1 _ _ _ Hz3 Hh3)) as Hx. unfold disjoint_ranges in *. simpl in *. tauto.
    + apply lookup_insert_eq.
    + intros h2 Hh2 Hne. unfold st5. simpl. rewrite lookup_insert_ne, I3 by done. by apply (sc_slabs _ _ C1).
    + lia.
    + intros e Hin Hal'. apply (Hfresh e Hin), Ha3, Ha1. by left.
    + intros e Hin. unfold st5. simpl. rewrite Ho by done. change (bufctls st3 !! e) with (bufctls st1 !! e).
      by rewrite (sc_bufctls _ _ C1).
    + intros z2 q. rewrite (large_change_alloc st4 st5), Ha4, Ha3, Ha1 by first [done|apply I1]. tauto.
    + intros r Hr. apply I4. simpl. rewrite Hlive. right. by apply C1.
    + by apply I4.
    + intros r Hr. by apply Hdis, C1.
    + intros z2. rewrite <-(sc_sizes _ _ C1), <-Hsz3. apply I6.
Qed.

Lemma allocated_hdr st z Zn h : large_part st → large_zone st z Zn → h ∈ slablist Zn →
  allocated_obj st zone_kmem_slab h.
Proof.
  intros L Hz Hh. destruct (lp_slab _ L _ _ _ Hz Hh) as (s & es & _ & _ & Hl).
  apply (ll_header _ _ _ _ _ Hl).
Qed.

Section new_slab.
Context st st' (z : Z) (Zn : kmem_zone) (h data : Z) (es : list Z).
Hypotheses (Hok : kmem_ok st) (Hz : large_zone st z Zn) (N : new_slab st st' z Zn h data es).
Let L : large_part st := km_large _ Hok.
Let C : core_ok st := sk_core _ (km_small _ Hok).
Let s : kmem_slab := Slab z (slabcapacity (zone_size Zn)) es data.

Lemma new_slab_live r : r ∈ pa_live (pages st) → r ∈ pa_live (pages st').
Proof. apply N. Qed.
Lemma new_slab_kept : internal_kept st st'.
Proof. intros z2 q _ Hq. apply (nw_alloc _ _ _ _ _ _ _ N). by left. Qed.

(** The slabs there were. *)
Lemma old_slab z2 Z2 h2 : large_zone st z2 Z2 → h2 ∈ slablist Z2 → slabs st' !! h2 = slabs st !! h2.
Proof.
  intros Hz2 Hh2. pose proof (allocated_hdr st z2 Z2 h2 L Hz2 Hh2) as Ha. apply (nw_slabs _ _ _ _ _ _ _ N).
  - by apply (slot_unaligned st zone_kmem_slab).
  - intros ->. by apply (nw_header _ _ _ _ _ _ _ N).
Qed.
(** The control blocks of the slabs there were are not those of the new one. *)
Lemma blocks_old Z2 h2 s2 es2 e : large_slab_ok st Z2 h2 s2 es2 → e ∈ es2 → (e ∉ es).
Proof.
  intros Hl [i Hi]%list_elem_of_lookup Hin. apply (nw_fresh _ _ _ _ _ _ _ N e Hin), (ll_entry _ _ _ _ _ Hl i e Hi).
Qed.
Lemma used_old z2 Z2 e : large_zone st z2 Z2 → e ∈ bufctllist Z2 → (e ∉ es).
Proof.
  intros Hz2 He. destruct (lp_used _ L _ _ _ Hz2 He) as (h2 & s2 & es2 & _ & _ & Hl & Hin2). by eapply blocks_old.
Qed.
Lemma old_slab_ok z2 Z2 Z3 h2 s2 es2 :
  large_zone st z2 Z2 → zone_size Z3 = zone_size Z2 → bufctllist Z3 = bufctllist Z2 →
  large_slab_ok st Z2 h2 s2 es2 → large_slab_ok st' Z3 h2 s2 es2.
Proof.
  intros Hz2 E1 E2 Hl. apply (large_slab_keep st st' Z2 Z3 h2 s2 es2 E1);
    [by rewrite E2| |exact new_slab_kept|exact new_slab_live|done].
  intros e He. apply (nw_others _ _ _ _ _ _ _ N). rewrite E2 in He.
  destruct He; [by eapply blocks_old|by eapply used_old].
Qed.
(** Every zone of large objects is as it was, but for the new slab. *)
Lemma new_slab_zones z2 Z3 :
  large_zone st' z2 Z3 → ∃ Z2, large_zone st z2 Z2 ∧ zone_size Z3 = zone_size Z2 ∧ bufctllist Z3 = bufctllist Z2 ∧
    ∀ h2, h2 ∈ slablist Z3 → (h2 = h ∧ z2 = z ∧ Z2 = Zn) ∨ h2 ∈ slablist Z2.
Proof.
  intros [[-> ->]|[_ Hz2]]%(nw_large _ _ _ _ _ _ _ N); [|by exists Z3; split_and!; try done; right].
  exists Zn. split_and!; try done. intros h2 [->|Hin]%elem_of_cons; [by left|by right].
Qed.
Lemma new_slab_here : large_slab_ok st' (push_slab h Zn) h s es.
Proof.
  pose proof used_old as Hu.
  pose proof (nw_others _ _ _ _ _ _ _ N) as N10. pose proof (nw_entry _ _ _ _ _ _ _ N) as N11.
  pose proof (nw_alloc _ _ _ _ _ _ _ N) as N12. pose proof (nw_header _ _ _ _ _ _ _ N) as N9.
  pose proof (nw_nodup _ _ _ _ _ _ _ N). pose proof (nw_len _ _ _ _ _ _ _ N). pose proof (nw_own _ _ _ _ _ _ _ N).
  split; simpl; try done.
  - intros i e He. split; [by apply N11|]. apply N12. right; right. split; [done|]. by eapply list_elem_of_lookup_2.
  - intros e He. split; [done|]. intros Hin. by apply (Hu z Zn e).
  - by left.
  - intros e bc Hin Hbc <-. rewrite N10 in Hbc by by apply (Hu z Zn e). destruct N9.
    destruct (lp_used _ L _ _ _ Hz Hin) as (h2 & s2 & es2 & Hh2 & _ & Hl & Hin2).
    destruct (ll_at _ _ _ _ _ _ Hl Hin2) as (bc2 & Hbc2 & <-). rewrite Hbc in Hbc2. injection Hbc2 as <-.
    by apply (allocated_hdr st z Zn).
  - apply N12. right. by left.
Qed.

(** A slab of a large zone is an old one, with its objects' memory, or the new one. *)
Lemma old_slab_data z2 Z3 h2 s2 :
  large_zone st' z2 Z3 → h2 ∈ slablist Z3 → slabs st' !! h2 = Some s2 → h2 ≠ h →
  ∃ Z2, large_zone st z2 Z2 ∧ h2 ∈ slablist Z2 ∧ zone_size Z3 = zone_size Z2 ∧ slabs st !! h2 = Some s2 ∧
    (slab_data s2, slabsize (zone_size Z2)) ∈ pa_live (pages st).
Proof.
  intros Hz3 Hh2 Hs2 Hne. destruct (new_slab_zones z2 Z3 Hz3) as (Z2 & Hz2 & E1 & E2 & Hm).
  destruct (Hm h2 Hh2) as [(-> & _)|Hh]; [done|]. rewrite (old_slab z2 Z2) in Hs2 by done.
  destruct (lp_slab _ L _ _ _ Hz2 Hh) as (s3 & es2 & ? & ? & Hl). assert (s3 = s2) as -> by congruence.
  exists Z2. split_and!; try done. apply (ll_data _ _ _ _ _ Hl).
Qed.
Lemma new_slab_size z2 Z3 : large_zone st' z2 Z3 → h ∈ slablist Z3 → zone_size Z3 = zone_size Zn.
Proof.
  intros Hz3 Hh2. destruct (new_slab_zones z2 Z3 Hz3) as (Z2 & Hz2 & E1 & E2 & Hm).
  destruct (Hm h Hh2) as [(_ & -> & ->)|Hh]; [done|].
  by destruct (nw_header _ _ _ _ _ _ _ N); apply (allocated_hdr st z2 Z2).
Qed.
Lemma new_slab_ok : kmem_ok st'.
Proof.
  split; [apply N|]. pose proof (nw_slab _ _ _ _ _ _ _ N) as Hs. split.
  - intros z2 Z3 (Z2 & Hz2 & -> & _)%new_slab_zones. by apply (lp_size _ L z2).
  - intros z2 Z3 [[-> ->]|[_ Hz2]]%(nw_large _ _ _ _ _ _ _ N); [|by apply (lp_nodup _ L z2)].
    destruct (lp_nodup _ L _ _ Hz). split; [|done]. apply NoDup_cons. split; [|done]. intros Hin.
    by apply (nw_header _ _ _ _ _ _ _ N), (allocated_hdr st z Zn).
  - intros z2 Z3 h2 Hz3 Hh2. destruct (decide (h2 = h)) as [->|Hne].
    + exists s, es. apply (nw_large _ _ _ _ _ _ _ N) in Hz3 as [[-> ->]|[_ Hz3]]; [split_and!;
        [done..|exact new_slab_here]|].
      destruct (nw_header _ _ _ _ _ _ _ N). by apply (allocated_hdr st z2 Z3).
    + destruct (new_slab_zones z2 Z3 Hz3) as (Z2 & Hz2 & E1 & E2 & Hm). destruct (Hm h2 Hh2) as [(-> & _)|Hh];
        [done|].
      destruct (lp_slab _ L _ _ _ Hz2 Hh) as (s2 & es2 & ? & ? & Hl). exists s2, es2.
      rewrite (old_slab z2 Z2) by done. split_and!; [done..|]. by apply (old_slab_ok z2 Z2).
  - intros z2 Z3 e Hz3 He. destruct (new_slab_zones z2 Z3 Hz3) as (Z2 & Hz2 & E1 & E2 & Hm). rewrite E2 in He.
    destruct (lp_used _ L _ _ _ Hz2 He) as (h2 & s2 & es2 & Hh2 & Hs2 & Hl & Hin). exists h2, s2, es2.
    rewrite (old_slab z2 Z2) by done. split_and!; [|done|by apply (old_slab_ok z2 Z2)|done].
    apply (nw_large _ _ _ _ _ _ _ N) in Hz3 as [[-> ->]|[_ Hz3]]; [right; destruct Hz, Hz2; by simplify_eq|].
    destruct Hz2, Hz3. by simplify_eq.
  - intros z1 z2 Z1 Z2 h1 h2 s1 s2 Hz1 Hz2 Hh1 Hh2 Hs1 Hs2 Hne.
    destruct (decide (h1 = h)) as [->|Hn1]; [|destruct (decide (h2 = h)) as [->|Hn2]].
    + destruct (old_slab_data z2 Z2 h2 s2) as (Z2' & _ & _ & -> & _ & Hin); [done..|by intros ->|].
      rewrite (new_slab_size z1 Z1) by done. assert (s1 = s) as -> by (rewrite Hs in Hs1; by injection Hs1).
      by apply (nw_data _ _ _ _ _ _ _ N).
    + destruct (old_slab_data z1 Z1 h1 s1) as (Z1' & _ & _ & -> & _ & Hin); [done..|].
      rewrite (new_slab_size z2 Z2) by done. assert (s2 = s) as -> by (rewrite Hs in Hs2; by injection Hs2).
      pose proof (nw_data _ _ _ _ _ _ _ N _ Hin) as Hd. unfold disjoint_ranges in *. simpl in *. tauto.
    + destruct (old_slab_data z1 Z1 h1 s1) as (Z1' & Hz1' & Hh1' & -> & Hs1' & _); [done..|].
      destruct (old_slab_data z2 Z2 h2 s2) as (Z2' & Hz2' & Hh2' & -> & Hs2' & _); [done..|].
      by apply (lp_apart _ L z1 z2 Z1' Z2' h1 h2).
  - intros z1 z2 Z1 Z2 h1 h2 s1 Hz1 Hz2 Hh1 Hh2 Hs1.
    destruct (new_slab_zones z1 Z1 Hz1) as (Z1' & Hz1' & -> & _ & Hm). destruct (Hm h1 Hh1) as [(-> & -> & ->)|Hh].
    + assert (s1 = s) as -> by (rewrite Hs in Hs1; by injection Hs1). by apply (nw_apart _ _ _ _ _ _ _ N z2 Z2).
    + rewrite (old_slab z1 Z1') in Hs1 by done.
      destruct (nw_page _ _ _ _ _ _ _ N z2 Z2 h2 Hz2 Hh2) as [(Z0 & Hz0 & Hh0)|Hd];
        [by apply (lp_small _ L z1 z2 Z1' Z0 h1 h2)|].
      destruct (lp_slab _ L _ _ _ Hz1' Hh) as (s3 & es2 & ? & ? & Hl). assert (s3 = s1) as -> by congruence.
      apply Hd, (ll_data _ _ _ _ _ Hl).
Qed.

Lemma new_slab_allocated z2 q : allocated_large st' z2 q ↔ allocated_large st z2 q.
Proof.
  split.
  - intros (Z3 & e & bc & Hz3 & He & Hb & Hq). destruct (new_slab_zones z2 Z3 Hz3) as (Z2 & Hz2 & _ & E2 & _).
    rewrite E2 in He. exists Z2, e, bc. split_and!; try done.
    by rewrite <-(nw_others _ _ _ _ _ _ _ N e) by by eapply used_old.
  - intros (Z2 & e & bc & Hz2 & He & Hb & Hq).
    pose proof (nw_others _ _ _ _ _ _ _ N e (used_old z2 Z2 e Hz2 He)) as Ho.
    destruct (decide (z2 = z)) as [->|Hne].
    + assert (Z2 = Zn) as -> by (destruct Hz, Hz2; by simplify_eq). exists (push_slab h Zn), e, bc.
      rewrite Ho. split_and!; try done. apply (nw_large _ _ _ _ _ _ _ N). by left.
    + exists Z2, e, bc. rewrite Ho. split_and!; try done. apply (nw_large _ _ _ _ _ _ _ N). by right.
Qed.
End new_slab.

(** ** One slab changes *)

(** The slab [h] of zone [z] is now [s1], and an entry of it has come into use or gone
    out of it. *)
Record large_update st st' (z : Z) (Zn Zn' : kmem_zone) (h : Z) (s1 : kmem_slab) (es : list Z) : Prop := {
  lu_zone : large_zone st z Zn;
  lu_in : h ∈ slablist Zn;
  lu_zones : zones st' = <[z := Zn']> (zones st);
  lu_slabs : slabs st' = <[h := s1]> (slabs st);
  lu_bufctls : bufctls st' = bufctls st;
  lu_pages : pages st' = pages st;
  lu_size : zone_size Zn' = zone_size Zn;
  lu_list : slablist Zn' ≡ₚ slablist Zn;
  lu_nodup : NoDup (bufctllist Zn');
  lu_others e : (e ∉ es) → e ∈ bufctllist Zn' ↔ e ∈ bufctllist Zn;
  lu_same : ∃ s, slabs st !! h = Some s ∧ slab_zone s1 = slab_zone s ∧ slab_data s1 = slab_data s ∧
    large_slab_ok st Zn h s es;
  lu_free e : e ∈ firstfree s1 → e ∈ es ∧ (e ∉ bufctllist Zn');
  lu_used e : e ∈ es → e ∈ firstfree s1 ∨ e ∈ bufctllist Zn';
  lu_fnodup : NoDup (firstfree s1);
  lu_n : nfree s1 = Z.of_nat (length (firstfree s1));
}.

Section update.
Context st st' (z : Z) (Zn Zn' : kmem_zone) (h : Z) (s1 : kmem_slab) (es : list Z).
Hypotheses (Hok : kmem_ok st) (U : large_update st st' z Zn Zn' h s1 es).
Let L : large_part st := km_large _ Hok.
Let C : core_ok st := sk_core _ (km_small _ Hok).

Lemma update_unaligned : slab_page h mod PGSIZE ≠ 0.
Proof.
  destruct (lu_same _ _ _ _ _ _ _ _ U) as (s & _ & _ & _ & Hl). apply (slot_unaligned st zone_kmem_slab); [exact C|].
  apply (ll_header _ _ _ _ _ Hl).
Qed.
Lemma update_change : large_change st st'.
Proof.
  split.
  - intros z2 Z2. unfold small_zone. rewrite (lu_zones _ _ _ _ _ _ _ _ U).
    pose proof (lu_zone _ _ _ _ _ _ _ _ U) as [Hz Hs].
    pose proof (lu_size _ _ _ _ _ _ _ _ U) as Es. destruct (decide (z2 = z)) as [->|]; [|by rewrite lookup_insert_ne].
    rewrite lookup_insert_eq, Hz. split; intros [[= <-] ?]; lia.
  - intros h2 Hh2. rewrite (lu_slabs _ _ _ _ _ _ _ _ U), lookup_insert_ne; [done|]. intros <-.
    by apply update_unaligned.
Qed.
Lemma update_alloc z2 q : allocated_obj st' z2 q ↔ allocated_obj st z2 q.
Proof. apply large_change_alloc; [exact C|exact update_change]. Qed.
Lemma update_zones z2 Z3 : large_zone st' z2 Z3 ↔ (z2 = z ∧ Z3 = Zn') ∨ (z2 ≠ z ∧ large_zone st z2 Z3).
Proof.
  unfold large_zone. rewrite (lu_zones _ _ _ _ _ _ _ _ U), lookup_insert_Some.
  pose proof (lu_zone _ _ _ _ _ _ _ _ U) as [_ Hs].
  pose proof (lu_size _ _ _ _ _ _ _ _ U) as Es. split.
  - intros [[[<- <-]|[? ?]] ?]; [by left|right; split; [congruence|done]].
  - intros [[-> ->]|(? & ? & ?)]; [split; [by left|lia]|split; [right; split; [congruence|done]|done]].
Qed.
(** The zone a zone has become. *)
Lemma update_old z2 Z3 :
  large_zone st' z2 Z3 → ∃ Z2, large_zone st z2 Z2 ∧ zone_size Z3 = zone_size Z2 ∧
    (∀ h2, h2 ∈ slablist Z3 ↔ h2 ∈ slablist Z2) ∧ (∀ e, (e ∉ es) → e ∈ bufctllist Z3 ↔ e ∈ bufctllist Z2) ∧
    (z2 = z → Z2 = Zn ∧ Z3 = Zn') ∧ (z2 ≠ z → Z3 = Z2).
Proof.
  intros [[-> ->]|[Hne Hz2]]%update_zones; [|by exists Z3].
  exists Zn. split_and!; try done; [apply U..|intros h2; by rewrite (lu_list _ _ _ _ _ _ _ _ U)|apply U].
Qed.
Lemma blocks_apart st0 Z2 h2 s2 es2 e :
  h2 ≠ h → bufctls st0 = bufctls st → large_slab_ok st0 Z2 h2 s2 es2 → e ∈ es2 → (e ∉ es).
Proof.
  intros Hne Eb Hl He Hin. destruct (lu_same _ _ _ _ _ _ _ _ U) as (s & _ & _ & _ & Hs).
  destruct (ll_at _ _ _ _ _ _ Hl He) as (b1 & Hb1 & <-). destruct (ll_at _ _ _ _ _ _ Hs Hin) as (b2 & Hb2 & <-).
  rewrite Eb in Hb1. congruence.
Qed.
Lemma update_keep z2 Z2 Z3 h2 s2 es2 :
  h2 ≠ h → zone_size Z3 = zone_size Z2 → (∀ e, (e ∉ es) → e ∈ bufctllist Z3 ↔ e ∈ bufctllist Z2) →
  large_zone st z2 Z2 → large_slab_ok st Z2 h2 s2 es2 → large_slab_ok st' Z3 h2 s2 es2.
Proof.
  intros Hne Es Eb Hz2 Hl. apply (large_slab_keep st st' Z2); try done.
  - intros e bc Hbc Hbs. apply Eb. intros Hin. destruct (lu_same _ _ _ _ _ _ _ _ U) as (s & _ & _ & _ & Hs).
    destruct (ll_at _ _ _ _ _ _ Hs Hin) as (b2 & Hb2 & E2). congruence.
  - intros e _. by rewrite (lu_bufctls _ _ _ _ _ _ _ _ U).
  - intros z3 q _. apply update_alloc.
  - by rewrite (lu_pages _ _ _ _ _ _ _ _ U).
Qed.
Lemma update_here : large_slab_ok st' Zn' h s1 es.
Proof.
  pose proof update_alloc as Ha. destruct U as [Uz Ui Uzs Us Ub Up Usz Ul Und Uo (s & Hs & E1 & E2 & Hl) Uf Uu Ufn
    Un].
  destruct Hl as [H1 H2 H3 H4 H5 H6 H7 Hm H8 H9]. split; rewrite ?Usz, ?E2; try done.
  - intros i e He. rewrite Ub. destruct (H5 i e He). split; [done|]. by apply Ha.
  - intros e bc He Hb Hbs. destruct (decide (e ∈ es)) as [|Hn]; [done|]. apply (Hm e bc);
      [by apply Uo|by rewrite <-Ub|done].
  - by apply Ha.
  - by rewrite Up.
Qed.
Lemma update_slab z2 Z3 h2 s2 :
  large_zone st' z2 Z3 → h2 ∈ slablist Z3 → slabs st' !! h2 = Some s2 →
  ∃ Z2 s0, large_zone st z2 Z2 ∧ h2 ∈ slablist Z2 ∧ zone_size Z3 = zone_size Z2 ∧ slabs st !! h2 = Some s0 ∧
    slab_data s2 = slab_data s0 ∧ slab_zone s2 = slab_zone s0.
Proof.
  intros Hz3 Hh2. destruct (update_old z2 Z3 Hz3) as (Z2 & Hz2 & E & Hm & _). rewrite (lu_slabs _ _ _ _ _ _ _ _ U).
  apply Hm in Hh2. destruct (decide (h2 = h)) as [->|Hne].
  - rewrite lookup_insert_eq. intros [= <-]. destruct (lu_same _ _ _ _ _ _ _ _ U) as (s & Hs & E1 & E2 & _).
    by exists Z2, s.
  - rewrite lookup_insert_ne by done. intros Hs. by exists Z2, s2.
Qed.

Lemma large_update_ok : kmem_ok st'.
Proof.
  destruct (lu_same _ _ _ _ _ _ _ _ U) as (s & Hs & E1 & E2 & Hl). pose proof (lu_zone _ _ _ _ _ _ _ _ U) as Hz.
  assert (slab_zone s = z) as Ezs.
  { destruct (lp_slab _ L _ _ _ Hz (lu_in _ _ _ _ _ _ _ _ U)) as (s0 & ? & Hs0 & <- & _). congruence. }
  assert (∀ z2 Z2 h2 s2, large_zone st z2 Z2 → h2 ∈ slablist Z2 → slabs st !! h2 = Some s2 → h2 = h →
    z2 = z) as Honly.
  { intros z2 Z2 h2 s2 Hz2 Hh2 Hs2 ->. destruct (lp_slab _ L _ _ _ Hz2 Hh2) as (s0 & ? & Hs0 & <- & _). congruence. }
  split.
  - split; [eapply large_change_core; [exact C|exact update_change]| |].
    + intros z2 Z2 h2 Hz2%update_change Hh2. rewrite (lu_pages _ _ _ _ _ _ _ _ U).
      by eapply (sk_live _ (km_small _ Hok)).
    + rewrite (lu_pages _ _ _ _ _ _ _ _ U). apply (sk_pages _ (km_small _ Hok)).
  - split.
    + intros z2 Z3 (Z2 & Hz2 & -> & _)%update_old. by apply (lp_size _ L z2).
    + intros z2 Z3 [[-> ->]|[_ Hz2]]%update_zones; [|by apply (lp_nodup _ L z2)].
      rewrite (lu_list _ _ _ _ _ _ _ _ U). split; [apply (lp_nodup _ L z Zn Hz)|apply U].
    + intros z2 Z3 h2 Hz3 Hh2. destruct (update_old z2 Z3 Hz3) as (Z2 & Hz2 & Es & Hm & Hb & Hsame & _).
      apply Hm in Hh2.
      destruct (lp_slab _ L _ _ _ Hz2 Hh2) as (s2 & es2 & Hs2 & Hzs & Hl2). rewrite (lu_slabs _ _ _ _ _ _ _ _ U).
      destruct (decide (h2 = h)) as [->|Hne].
      * destruct (Hsame (Honly z2 Z2 h s2 Hz2 Hh2 Hs2 eq_refl)) as [-> ->]. exists s1, es. rewrite lookup_insert_eq.
        split_and!; [done|congruence|exact update_here].
      * exists s2, es2. rewrite lookup_insert_ne by done. split_and!; [done..|]. by apply (update_keep z2 Z2).
    + intros z2 Z3 e Hz3 He. destruct (update_old z2 Z3 Hz3) as (Z2 & Hz2 & Es & Hm & Hb & Hsame & Hoth).
      rewrite (lu_slabs _ _ _ _ _ _ _ _ U). destruct (decide (e ∈ es ∧ z2 = z)) as [[Hin ->]|Hne].
      * destruct (Hsame eq_refl) as [-> ->]. exists h, s1, es. rewrite lookup_insert_eq.
        split_and!; [apply Hm, U|done|exact update_here|done].
      * assert (e ∈ bufctllist Z2) as He2.
        { destruct (decide (z2 = z)) as [->|Hn]; [apply Hb; [intros ?; by apply Hne|done]|by rewrite <-(Hoth Hn)]. }
        destruct (lp_used _ L _ _ _ Hz2 He2) as (h2 & s2 & es2 & Hh2 & Hs2 & Hl2 & Hin2).
        assert (h2 ≠ h) as Hnh.
        { intros ->. pose proof (Honly z2 Z2 h s2 Hz2 Hh2 Hs2 eq_refl) as ->. apply Hne. split; [|done].
          destruct (Hsame eq_refl) as [-> _]. destruct (ll_at _ _ _ _ _ _ Hl2 Hin2) as (bc & Hbc & Eb).
          by apply (ll_mine _ _ _ _ _ Hl e bc). }
        exists h2, s2, es2. rewrite lookup_insert_ne by done. split_and!; [by apply Hm|done| |done].
        by apply (update_keep z2 Z2).
    + intros z1 z2 Z1 Z2 h1 h2 t1 t2 Hz1 Hz2 Hh1 Hh2 Ht1 Ht2 Hne.
      destruct (update_slab z1 Z1 h1 t1) as (Y1 & u1 & ? & ? & -> & ? & -> & _); [done..|].
      destruct (update_slab z2 Z2 h2 t2) as (Y2 & u2 & ? & ? & -> & ? & -> & _); [done..|].
      by apply (lp_apart _ L z1 z2 Y1 Y2 h1 h2).
    + intros z1 z2 Z1 Z2 h1 h2 t1 Hz1 Hz2%update_change Hh1 Hh2 Ht1.
      destruct (update_slab z1 Z1 h1 t1) as (Y1 & u1 & ? & ? & -> & ? & -> & _); [done..|].
      by apply (lp_small _ L z1 z2 Y1 Z2 h1 h2).
Qed.

(** What is allocated in zone [z] afterwards; nothing changes in the others. *)
Lemma update_allocated z2 q :
  allocated_large st' z2 q ↔ (z2 ≠ z ∧ allocated_large st z2 q) ∨
    (z2 = z ∧ ∃ e bc, e ∈ bufctllist Zn' ∧ bufctls st !! e = Some bc ∧ bc_base bc = q).
Proof.
  unfold allocated_large. rewrite (lu_bufctls _ _ _ _ _ _ _ _ U). split.
  - intros (Z3 & e & bc & [[-> ->]|[Hne Hz2]]%update_zones & He & Hb & Hq); [right|left; split;
      [done|by exists Z3, e, bc]].
    split; [done|by exists e, bc].
  - intros [(Hne & Z3 & e & bc & Hz2 & He & Hb & Hq)|(-> & e & bc & He & Hb & Hq)].
    + exists Z3, e, bc. split_and!; try done. apply update_zones. by right.
    + exists Zn', e, bc. split_and!; try done. apply update_zones. by left.
Qed.
End update.

(** ** Objects do not overlap *)

Lemma large_zone_sizes st z Zn : large_part st → large_zone st z Zn → 256 < zone_size Zn ≤ 4096.
Proof. intros L Hz. pose proof (lp_size _ L _ _ Hz). destruct Hz as [_ Hs]. unfold kSmallSlabMax in Hs. lia. Qed.

(** The blocks of a slab are its own. *)
Lemma same_blocks st Zn h s es1 es2 e :
  large_slab_ok st Zn h s es1 → large_slab_ok st Zn h s es2 → e ∈ es1 → e ∈ es2.
Proof.
  intros H1 H2 He. destruct (ll_at _ _ _ _ _ _ H1 He) as (bc & Hbc & Hs).
  destruct (ll_used _ _ _ _ _ H1 e He) as [Hf|Hu]; [by apply (ll_free _ _ _ _ _ H2)|by apply (ll_mine _ _ _ _ _ H2
    e bc)].
Qed.
(** The object of a block lies in the memory of its slab. *)
Lemma block_object st z Zn h s es e bc :
  large_part st → large_zone st z Zn → large_slab_ok st Zn h s es → e ∈ es → bufctls st !! e = Some bc →
  ∃ i, es !! i = Some e ∧ bc_base bc = slab_data s + zone_size Zn * Z.of_nat i ∧
    slab_data s ≤ bc_base bc ∧ bc_base bc + zone_size Zn ≤ slab_data s + slabsize (zone_size Zn).
Proof.
  intros L Hz Hl [i Hi]%list_elem_of_lookup Hb. destruct (ll_entry _ _ _ _ _ Hl i e Hi) as [Hb2 _].
  rewrite Hb in Hb2. injection Hb2 as ->. exists i. simpl. pose proof (large_zone_sizes _ _ _ L Hz) as Hs.
  destruct (large_sizes _ Hs) as (_ & Hfit & _). pose proof (ll_len _ _ _ _ _ Hl).
  pose proof (lookup_lt_Some _ _ _ Hi).
  split_and!; [done|done|nia|nia].
Qed.

Lemma blocks_disjoint st z1 z2 Z1 Z2 h1 h2 s1 s2 es1 es2 e1 e2 b1 b2 :
  large_part st → large_zone st z1 Z1 → large_zone st z2 Z2 → h1 ∈ slablist Z1 → h2 ∈ slablist Z2 →
  slabs st !! h1 = Some s1 → slabs st !! h2 = Some s2 → large_slab_ok st Z1 h1 s1 es1 →
    large_slab_ok st Z2 h2 s2 es2 →
  e1 ∈ es1 → e2 ∈ es2 → e1 ≠ e2 → bufctls st !! e1 = Some b1 → bufctls st !! e2 = Some b2 →
  disjoint_ranges (bc_base b1, zone_size Z1) (bc_base b2, zone_size Z2).
Proof.
  intros L Hz1 Hz2 Hh1 Hh2 Hs1 Hs2 Hl1 Hl2 He1 He2 Hne Hb1 Hb2. pose proof (large_zone_sizes _ _ _ L Hz1).
  destruct (decide (h1 = h2)) as [->|Hn].
  - assert (z1 = z2) as ->.
    { destruct (lp_slab _ L _ _ _ Hz1 Hh1) as (t1 & ? & Ht1 & <- & _), (lp_slab _ L _ _ _ Hz2 Hh2)
        as (t2 & ? & Ht2 & <- & _). congruence. }
    assert (Z1 = Z2) as -> by (destruct Hz1, Hz2; congruence). assert (s1 = s2) as -> by congruence.
    apply (same_blocks _ _ _ _ _ _ _ Hl2 Hl1) in He2.
    destruct (block_object _ _ _ _ _ _ _ _ L Hz2 Hl1 He1 Hb1) as (i & Hi & -> & _).
    destruct (block_object _ _ _ _ _ _ _ _ L Hz2 Hl1 He2 Hb2) as (j & Hj & -> & _).
    assert (i ≠ j) by congruence. unfold disjoint_ranges. simpl. assert (i < j ∨ j < i)%nat as [|] by lia; nia.
  - destruct (block_object _ _ _ _ _ _ _ _ L Hz1 Hl1 He1 Hb1) as (i & _ & _ & ? & ?).
    destruct (block_object _ _ _ _ _ _ _ _ L Hz2 Hl2 He2 Hb2) as (j & _ & _ & ? & ?).
    pose proof (lp_apart _ L _ _ _ _ _ _ _ _ Hz1 Hz2 Hh1 Hh2 Hs1 Hs2 Hn) as Hd. unfold disjoint_ranges in *.
    simpl in *. lia.
Qed.

(** The object of a block that is not in use overlaps no object in use. *)
Lemma block_apart st z Zn h s es e b z2 Z2 q :
  kmem_ok st → large_zone st z Zn → h ∈ slablist Zn → slabs st !! h = Some s → large_slab_ok st Zn h s es →
  e ∈ firstfree s → bufctls st !! e = Some b → zones st !! z2 = Some Z2 →
    allocated_obj st z2 q ∨ allocated_large st z2 q →
  disjoint_ranges (bc_base b, zone_size Zn) (q, zone_size Z2).
Proof.
  intros [Hok L] Hz Hh Hs Hl He Hb Hz2 Hq. destruct (ll_free _ _ _ _ _ Hl e He) as [Hin Hn]. destruct Hq as [Hq|Hq].
  - destruct Hq as (Z2' & h2 & s2 & Hz2' & Hh2 & _ & Hq & _). assert (Z2' = Z2) as -> by (destruct Hz2'; congruence).
    destruct (block_object _ _ _ _ _ _ _ _ L Hz Hl Hin Hb) as (i & _ & _ & ? & ?).
    apply slot_inside in Hq; [|by eapply (small_sizes st); [apply Hok|]].
    pose proof (lp_small _ L _ _ _ _ _ _ _ Hz Hz2' Hh Hh2 Hs) as Hd. unfold disjoint_ranges in *. simpl in *. lia.
  - destruct Hq as (Z2' & e2 & b2 & Hz2' & He2 & Hb2 & <-). assert (Z2' = Z2) as -> by (destruct Hz2'; congruence).
    destruct (lp_used _ L _ _ _ Hz2' He2) as (h2 & s2 & es2 & Hh2 & Hs2 & Hl2 & Hin2).
    eapply (blocks_disjoint st z z2); try done. intros <-. apply Hn.
    destruct (decide (h2 = h)) as [->|Hnh].
    + destruct (lp_slab _ L _ _ _ Hz Hh) as (t1 & ? & Ht1 & <- & _), (lp_slab _ L _ _ _ Hz2' Hh2)
        as (t2 & ? & Ht2 & Hzz & _).
      assert (t1 = t2) as -> by congruence. destruct Hz as [Hz _]. by assert (Z2 = Zn) as <- by congruence.
    + destruct (ll_at _ _ _ _ _ _ Hl Hin) as (b1 & Hb1 & <-), (ll_at _ _ _ _ _ _ Hl2 Hin2) as (b3 & Hb3 & <-).
      congruence.
Qed.

(** ** Allocation and release *)

Lemma tq_remove_elem (l : list Z) e x : NoDup l → e ∈ l → x ∈ tq_remove (λ x, x) e l ↔ x ∈ l ∧ x ≠ e.
Proof.
  intros Hnd He. pose proof (tq_remove_mem l e He) as HP. revert HP. generalize (tq_remove (λ x, x) e l). intros r HP.
  rewrite HP in Hnd. apply NoDup_cons in Hnd as [Hn _]. rewrite HP, elem_of_cons.
  split; [intros Hx; split; [by right|]; by intros ->|]. by intros [[?|?] ?].
Qed.
Lemma tq_remove_NoDup (l : list Z) e : NoDup l → e ∈ l → NoDup (tq_remove (λ x, x) e l).
Proof. intros Hnd He. rewrite (tq_remove_mem l e He) in Hnd. by apply NoDup_cons in Hnd as [_ ?]. Qed.
Lemma get_bufctl_ok st e b : bufctls st !! e = Some b → get_bufctl e st = Ok (b, st).
Proof. intros E. unfold get_bufctl. by rewrite E. Qed.

(** Where the slab goes when its last entry is taken. *)
Definition after_take (next : list Z) (h : Z) (l : list Z) : list Z :=
  match next with [] => tq_remove (λ x, x) h l ++ [h] | _ :: _ => l end.

Lemma take_large_run st z Zn h s es e next :
  kmem_ok st → large_zone st z Zn → h ∈ slablist Zn → slabs st !! h = Some s → large_slab_ok st Zn h s es →
  firstfree s = e :: next →
  ∃ b st', take_entry z h st = Ok (bc_base b, st') ∧ bufctls st !! e = Some b ∧
    large_update st st' z Zn (Zone (zone_name Zn) (zone_size Zn) (after_take next h (slablist Zn)) (e ::
      bufctllist Zn)) h
      (Slab (slab_zone s) (w32 (nfree s - 1)) next (slab_data s)) es.
Proof.
  intros [Hok L] Hz Hh Hs Hl Hf. set (s1 := Slab _ _ _ _). set (Zn1 := Zone _ _ _ _).
  destruct (ll_free _ _ _ _ _ Hl e ltac:(rewrite Hf; left)) as [Hin Hn].
  destruct (ll_at _ _ _ _ _ _ Hl Hin) as (b & Hb & _). exists b.
  set (Zm := Zone (zone_name Zn) (zone_size Zn) (after_take next h (slablist Zn)) (bufctllist Zn)).
  set (st1 := set_slab h s1 st). set (st2 := match next with [] => set_zone z Zm st1 | _ :: _ => st1 end).
  assert (zones st2 !! z = Some Zm) as Hz2.
  { unfold st2, Zm. destruct next; [apply lookup_insert_eq|]. simpl. rewrite (proj1 Hz). by destruct Zn. }
  assert (bufctls st2 = bufctls st ∧ pages st2 = pages st ∧ slabs st2 = <[h := s1]> (slabs st) ∧
    ∀ Zx, <[z := Zx]> (zones st2) = <[z := Zx]> (zones st)) as (Eb & Ep & Es & Ez).
  { unfold st2. destruct next; [|done]. split_and!; try done. intros Zx. apply insert_insert_eq. }
  exists (set_zone z Zn1 st2). split; [|split; [done|]].
  - unfold take_entry. rewrite (bind_step _ _ _ _ _ (get_slab_ok _ _ _ Hs)), Hf, (bind_step _ _ _ _ _ (mmodify_ok
      _ _)).
    fold s1 st1. rewrite (bind_step _ _ st1 Zn st1) by (apply get_zone_ok, Hz).
    rewrite (bind_step _ _ _ () st2) by (unfold st2, Zm; by destruct next).
    rewrite (bind_step _ _ _ _ _ (get_zone_ok _ _ _ Hz2)). unfold Zm at 1. cbn [zone_size].
    rewrite (proj2 (Z.leb_gt _ _)) by apply Hz. rewrite (bind_step _ _ _ _ _ (mmodify_ok _ _)).
    unfold Zm. cbn [zone_name zone_size slablist bufctllist]. fold Zn1.
    rewrite (bind_step _ _ _ b (set_zone z Zn1 st2)); [done|]. apply get_bufctl_ok. simpl. by rewrite Eb.
  - pose proof (ll_n _ _ _ _ _ Hl) as Hnf. pose proof (ll_fnodup _ _ _ _ _ Hl) as Hnd. rewrite Hf in Hnf, Hnd.
    simpl in Hnf.
    apply NoDup_cons in Hnd as [Hne Hnd]. destruct (lp_nodup _ L _ _ Hz) as [_ Hndb].
    destruct (large_sizes _ (large_zone_sizes _ _ _ L Hz)) as (Hcap & _). pose proof (ll_len _ _ _ _ _ Hl) as Hlen.
    assert (length (e :: next) ≤ length es)%nat as Hle.
    { apply submseteq_length, NoDup_submseteq; [by apply NoDup_cons|]. intros x Hx. apply (ll_free _ _ _ _ _ Hl).
      by rewrite Hf. }
    split; simpl; try done.
    + unfold after_take. destruct next; [by apply to_tail_perm|done].
    + by apply NoDup_cons.
    + intros x Hx. rewrite elem_of_cons. split; [intros [->|?]; done|by right].
    + by exists s.
    + intros x Hx. destruct (ll_free _ _ _ _ _ Hl x) as [Hi Hu]; [rewrite Hf; by right|]. split; [done|].
      apply not_elem_of_cons. split; [|done]. intros ->. done.
    + intros x Hx. destruct (ll_used _ _ _ _ _ Hl x Hx) as [Hfx|Hu]; [|right; by right].
      rewrite Hf in Hfx. apply elem_of_cons in Hfx as [->|?]; [right; left|by left].
    + rewrite w32_small; simpl in *; lia.
Qed.

(** The entry [kmem_zonefree] finds for an object in use. *)
Lemma find_entry_run st Zn z p :
  large_zone st z Zn → allocated_large st z p →
  ∃ e b, List.find (λ e, match bufctls st !! e with Some bc => bc_base bc =? p | None => false end) (bufctllist
    Zn) = Some e ∧
    e ∈ bufctllist Zn ∧ bufctls st !! e = Some b ∧ bc_base b = p.
Proof.
  intros Hz (Z2 & e0 & b0 & Hz2 & He0 & Hb0 & Hp). assert (Z2 = Zn) as -> by (destruct Hz, Hz2; congruence).
  set (f := λ e, match bufctls st !! e with Some bc => bc_base bc =? p | None => false end).
  destruct (List.find f (bufctllist Zn)) as [e|] eqn:Hf.
  - apply List.find_some in Hf as [Hin He]. unfold f in He. destruct (bufctls st !! e) as [b|] eqn:Hb; [|done].
    exists e, b. split_and!; [done|by apply list_elem_of_In|done|by apply Z.eqb_eq].
  - pose proof (List.find_none _ _ Hf e0) as Hn. unfold f in Hn. rewrite Hb0, Hp, Z.eqb_refl in Hn.
    discriminate Hn. by apply list_elem_of_In.
Qed.

Lemma zonefree_large_run st z Zn p :
  kmem_ok st → large_zone st z Zn → allocated_large st z p →
  ∃ e b h s es st', kmem_zonefree z p st = Ok ((), st') ∧ e ∈ bufctllist Zn ∧ bufctls st !! e = Some b ∧
    bc_base b = p ∧
    large_update st st' z Zn (Zone (zone_name Zn) (zone_size Zn) (slablist Zn) (tq_remove (λ x,
      x) e (bufctllist Zn))) h
      (Slab (slab_zone s) (w32 (nfree s + 1)) (e :: firstfree s) (slab_data s)) es.
Proof.
  intros [Hok L] Hz Hp. destruct (find_entry_run st Zn z p Hz Hp) as (e & b & Hfind & He & Hb & Hbp).
  destruct (lp_used _ L _ _ _ Hz He) as (h & s & es & Hh & Hs & Hl & Hin).
  destruct (ll_at _ _ _ _ _ _ Hl Hin) as (b' & Hb' & Eh). assert (b' = b) as -> by congruence.
  set (Zn1 := Zone (zone_name Zn) (zone_size Zn) (slablist Zn) (tq_remove (λ x, x) e (bufctllist Zn))).
  set (s1 := Slab (slab_zone s) (w32 (nfree s + 1)) (e :: firstfree s) (slab_data s)).
  exists e, b, h, s, es, (set_slab h s1 (set_zone z Zn1 st)). split; [|split_and!; try done].
  - unfold kmem_zonefree. rewrite (bind_step _ _ _ _ _ (get_zone_ok _ _ _ (proj1 Hz))).
    rewrite (proj2 (Z.leb_gt _ _)) by apply Hz. rewrite (bind_step _ _ _ (h, e) (set_zone z Zn1 st)).
    2:{ rewrite (bind_step mget _ st st st) by done. rewrite Hfind, (bind_step _ _ _ _ _ (mmodify_ok _ _)). fold Zn1.
        rewrite (bind_step _ _ _ b (set_zone z Zn1 st)) by by apply get_bufctl_ok. by rewrite Eh. }
    rewrite (bind_step _ _ _ s (set_zone z Zn1 st)) by by apply get_slab_ok.
    by rewrite (bind_step _ _ _ _ _ (mmodify_ok _ _)).
  - destruct (lp_nodup _ L _ _ Hz) as [_ Hnd]. pose proof (tq_remove_NoDup _ _ Hnd He) as Hnd'.
    pose proof (λ x, tq_remove_elem _ _ x Hnd He) as Hrem.
    assert (e ∉ firstfree s) as Hne by (intros Hx; by destruct (ll_free _ _ _ _ _ Hl e Hx)).
    destruct (large_sizes _ (large_zone_sizes _ _ _ L Hz)) as (Hcap & _). pose proof (ll_len _ _ _ _ _ Hl) as Hlen.
    assert (length (e :: firstfree s) ≤ length es)%nat as Hle.
    { apply submseteq_length, NoDup_submseteq; [apply NoDup_cons; split; [done|apply Hl]|].
      intros x [->|Hx]%elem_of_cons; [done|by apply (ll_free _ _ _ _ _ Hl)]. }
    split; simpl; try done.
    + intros x Hx. rewrite Hrem. split; [by intros [? _]|]. intros ?. split; [done|]. by intros ->.
    + by exists s.
    + intros x Hx. rewrite Hrem. apply elem_of_cons in Hx as [->|Hx]; [split; [done|by intros [_ ?]]|].
      destruct (ll_free _ _ _ _ _ Hl x Hx). split; [done|]. by intros [? _].
    + intros x Hx. rewrite elem_of_cons, Hrem. destruct (decide (x = e)) as [->|Hxe]; [by left; left|].
      destruct (ll_used _ _ _ _ _ Hl x Hx); [left; by right|by right].
    + apply NoDup_cons. split; [done|apply Hl].
    + rewrite (ll_n _ _ _ _ _ Hl), w32_small; simpl in *; lia.
Qed.

(** The slab [kmem_zonealloc] takes an entry from, found or made. *)
Record picked st st1 (z : Z) (Zn1 : kmem_zone) (h : Z) (s : kmem_slab) (es : list Z) : Prop := {
  pk_ok : kmem_ok st1;
  pk_zone : large_zone st1 z Zn1;
  pk_in : h ∈ slablist Zn1;
  pk_slab : slabs st1 !! h = Some s;
  pk_slab_ok : large_slab_ok st1 Zn1 h s es;
  pk_free : firstfree s ≠ [];
  pk_large z2 q : allocated_large st1 z2 q ↔ allocated_large st z2 q;
  pk_small z2 q : ¬ internal z2 → allocated_obj st1 z2 q ↔ allocated_obj st z2 q;
  pk_kept z2 q : allocated_obj st z2 q → allocated_obj st1 z2 q;
  pk_sizes z2 : zone_size <$> zones st1 !! z2 = zone_size <$> zones st !! z2;
}.

Lemma pick_large_run st z Zn :
  kmem_ok st → large_zone st z Zn → first_has_free st Zn ∨ slab_ready_for st Zn →
  ∃ st1 Zn1 h s es, pick_slab (λ z, zone ← get_zone z;
      if kSmallSlabMax <? zone_size zone then large_slab_new z else small_slab_new z) z st = Ok (h, st1) ∧
    picked st st1 z Zn1 h s es.
Proof.
  intros Hok Hz Hr. pose proof (km_large _ Hok) as L.
  destruct (first_has_free_dec st Zn) as [(h & l & s & Hl & Hs & Hn)|Hno].
  - assert (h ∈ slablist Zn) as Hh by (rewrite Hl; left).
    destruct (lp_slab _ L _ _ _ Hz Hh) as (s0 & es & Hs0 & _ & Hls). assert (s0 = s) as -> by congruence.
    exists st, Zn, h, s, es. split.
    + unfold pick_slab. rewrite (bind_step _ _ _ _ _ (get_zone_ok _ _ _ (proj1 Hz))), Hl.
      rewrite (bind_step _ _ _ _ _ (get_slab_ok _ _ _ Hs)). by rewrite (proj2 (Z.eqb_neq _ _)).
    + split; try done. intros Hf. apply Hn. by rewrite (ll_n _ _ _ _ _ Hls), Hf.
  - destruct Hr as [?|Hr]; [done|]. destruct (large_slab_new_run st z Zn Hok Hz Hr) as (h & data & es & st1 & Hrun
      & N).
    exists st1, (push_slab h Zn), h, (Slab z (slabcapacity (zone_size Zn)) es data), es. split.
    + unfold pick_slab. rewrite (bind_step _ _ _ _ _ (get_zone_ok _ _ _ (proj1 Hz))).
      assert ((zone ← get_zone z; if kSmallSlabMax <? zone_size zone then large_slab_new z else small_slab_new z)
        st = Ok (h, st1)) as E.
      { rewrite (bind_step _ _ _ _ _ (get_zone_ok _ _ _ (proj1 Hz))). by rewrite (proj2 (Z.ltb_lt _ _)) by apply Hz. }
      destruct (slablist Zn) as [|h0 l] eqn:Hl; [done|].
      destruct (lp_slab _ L _ _ h0 Hz ltac:(rewrite Hl; left)) as (s0 & es0 & Hs0 & _ & _).
      rewrite (bind_step _ _ _ _ _ (get_slab_ok _ _ _ Hs0)). destruct (Z.eqb_spec (nfree s0) 0); [done|].
      destruct Hno. by exists h0, l, s0.
    + split.
      * by eapply new_slab_ok.
      * apply (nw_large _ _ _ _ _ _ _ N). by left.
      * left.
      * apply N.
      * by eapply new_slab_here.
      * simpl. pose proof (nw_len _ _ _ _ _ _ _ N) as Hlen.
        destruct (large_sizes _ (large_zone_sizes _ _ _ L Hz)) as (? & _). intros ->. simpl in Hlen. lia.
      * intros z2 q. by eapply new_slab_allocated.
      * intros z2 q Hi. rewrite (nw_alloc _ _ _ _ _ _ _ N). unfold internal in Hi. tauto.
      * intros z2 q Hq. apply (nw_alloc _ _ _ _ _ _ _ N). by left.
      * apply N.
Qed.

Lemma update_sizes st st' z Zn Zn' h s1 es z2 :
  large_update st st' z Zn Zn' h s1 es → zone_size <$> zones st' !! z2 = zone_size <$> zones st !! z2.
Proof.
  intros U. rewrite (lu_zones _ _ _ _ _ _ _ _ U). destruct (decide (z2 = z)) as [->|Hne];
    [|by rewrite lookup_insert_ne].
  rewrite lookup_insert_eq, (proj1 (lu_zone _ _ _ _ _ _ _ _ U)). simpl. by rewrite (lu_size _ _ _ _ _ _ _ _ U).
Qed.

Lemma large_alloc_ok st z Zn :
  kmem_ok st → large_zone st z Zn → first_has_free st Zn ∨ slab_ready_for st Zn →
  ∃ p st', kmem_zonealloc z st = Ok (p, st') ∧ kmem_ok st' ∧
    (∀ z2, zone_size <$> zones st' !! z2 = zone_size <$> zones st !! z2) ∧
    (∀ z2 q, allocated_large st' z2 q ↔ allocated_large st z2 q ∨ (z2 = z ∧ q = p)) ∧
    (∀ z2 q, ¬ internal z2 → allocated_obj st' z2 q ↔ allocated_obj st z2 q) ∧
    ∀ z2 Z2 q, zones st !! z2 = Some Z2 → allocated_obj st z2 q ∨ allocated_large st z2 q →
      disjoint_ranges (p, zone_size Zn) (q, zone_size Z2).
Proof.
  intros Hok Hz Hr. destruct (pick_large_run st z Zn Hok Hz Hr) as (st1 & Zn1 & h & s & es & Hpick & [K1 K2 K3 K4
    K5 K6 K7 K8 K9 K10]).
  destruct (firstfree s) as [|e next] eqn:Hf; [done|].
  destruct (take_large_run st1 z Zn1 h s es e next K1 K2 K3 K4 K5 Hf) as (b & st' & Hrun & Hb & U).
  exists (bc_base b), st'. split_and!.
  - unfold kmem_zonealloc, kmem_zonealloc_with. by rewrite (bind_step _ _ _ _ _ Hpick).
  - by eapply large_update_ok.
  - intros z2. by rewrite (update_sizes _ _ _ _ _ _ _ _ z2 U), K10.
  - intros z2 q. rewrite (update_allocated st1 st' z _ _ h _ es U), <-K7. destruct (decide (z2 = z)) as [->|Hne].
    + unfold allocated_large. simpl. setoid_rewrite elem_of_cons. split.
      * intros [[? _]|(_ & x & bx & [->|Hx] & Hbx & Hq)]; [done|right; split; [done|congruence]|left;
          by exists Zn1, x, bx].
      * intros [(Z2 & x & bx & Hz2 & Hx & Hbx & Hq)|[_ ->]]; right; (split; [done|]); [|exists e, b; auto].
        assert (Z2 = Zn1) as -> by (destruct K2, Hz2; congruence). exists x, bx. auto.
    + split; [intros [[_ ?]|[? _]]; [by left|done]|]. intros [?|[? _]]; [by left|done].
  - intros z2 q Hi. rewrite (update_alloc st1 st' z _ _ h _ es K1 U). by apply K8.
  - intros z2 Z2 q Hz2 Hq.
    assert (∃ Z2', zones st1 !! z2 = Some Z2' ∧ zone_size Z2' = zone_size Z2) as (Z2' & Hz2' & <-).
    { pose proof (K10 z2) as E. rewrite Hz2 in E. destruct (zones st1 !! z2) as [Z2'|]; simpl in E; [|done].
      exists Z2'.
      split; [done|congruence]. }
    assert (zone_size Zn1 = zone_size Zn) as <-.
    { pose proof (K10 z) as E. rewrite (proj1 Hz), (proj1 K2) in E. simpl in E. congruence. }
    eapply (block_apart st1 z Zn1 h s es e b z2); try done; [rewrite Hf; left|]. destruct Hq; [left; auto|right;
      by apply K7].
Qed.

Lemma large_free_ok st z Zn p :
  kmem_ok st → large_zone st z Zn → allocated_large st z p →
  ∃ st', kmem_zonefree z p st = Ok ((), st') ∧ kmem_ok st' ∧ pages st' = pages st ∧
    (∀ z2, zone_size <$> zones st' !! z2 = zone_size <$> zones st !! z2) ∧
    (∀ z2 q, allocated_large st' z2 q ↔ allocated_large st z2 q ∧ ¬ (z2 = z ∧ q = p)) ∧
    ∀ z2 q, allocated_obj st' z2 q ↔ allocated_obj st z2 q.
Proof.
  intros Hok Hz Hp. destruct (zonefree_large_run st z Zn p Hok Hz Hp) as (e & b & h & s & es & st' & Hrun & He &
    Hb & Hbp & U).
  pose proof (km_large _ Hok) as L. exists st'.
  split_and!; [done|by eapply large_update_ok|apply U|intros z2; by eapply update_sizes| |intros z2 q;
    by eapply update_alloc].
  intros z2 q. rewrite (update_allocated st st' z _ _ h _ es U). destruct (decide (z2 = z)) as [->|Hne];
    [|naive_solver].
  simpl. destruct (lp_nodup _ L _ _ Hz) as [_ Hnd]. split.
  - intros [[? _]|(_ & x & bx & Hx & Hbx & Hq)]; [done|]. apply tq_remove_elem in Hx as [Hx Hxe]; [|done..].
    split; [by exists Zn, x, bx|]. intros [_ E].
    destruct (lp_used _ L _ _ _ Hz He) as (h1 & s1 & es1 & Hh1 & Hs1 & Hl1 & Hin1).
    destruct (lp_used _ L _ _ _ Hz Hx) as (h2 & s2 & es2 & Hh2 & Hs2 & Hl2 & Hin2).
    pose proof (blocks_disjoint st z z Zn Zn h1 h2 s1 s2 es1 es2 e x b bx L Hz Hz Hh1 Hh2 Hs1 Hs2 Hl1 Hl2 Hin1
      Hin2 ltac:(congruence) Hb Hbx) as Hd.
    pose proof (large_zone_sizes _ _ _ L Hz). unfold disjoint_ranges in Hd. simpl in Hd. lia.
  - intros [(Z2 & x & bx & Hz2 & Hx & Hbx & Hq) Hn]. assert (Z2 = Zn) as -> by (destruct Hz, Hz2; congruence).
    right. split; [done|]. exists x, bx. split_and!; try done. apply tq_remove_elem; try done. split; [done|].
    intros ->.
    apply Hn. split; [done|congruence].
Qed.
End large.
