(* ===== verification/KmemTrace.v ===== *)
(** * Any sequence of allocations (kern/kmem_slab.c)

    The steps a kernel takes through [kmem_alloc] and [kmem_free] after [kmem_init],
    for objects of up to a page, and what holds after any number of them; the page
    allocator may be used by others in between. *)

From S2P Require Import Prelude VmPage Klib PageAlloc Kmem KmemProps KmemLarge.
Open Scope Z_scope.

Section trace.
Context {P : Type} `{!PageAlloc P}.
Implicit Types (st : kmem P).

(** The zone of [kmem_alloc] for a size. *)
Definition zone_of (size : Z) : Z := kmem_alloc_zone (zonenum size).
(** Objects in use, but for the allocator's own. *)
Definition in_use st (z p : Z) : Prop := ¬ internal z ∧ (allocated_obj st z p ∨ allocated_large st z p).
Definition table_ok st : Prop :=
  ∀ i, 0 ≤ i < 32 → zone_size <$> zones st !! kmem_alloc_zone i = ZONE_SIZES !! Z.to_nat i.
Record heap_sound st : Prop := { hs_ok : kmem_ok st; hs_table : table_ok st }.

(** The first slab has a free entry, or there is what a new one takes. *)
Definition alloc_ready st (z : Z) : Prop :=
  ∃ Zn, zones st !! z = Some Zn ∧
    (first_has_free st Zn ∨
     if zone_size Zn <=? kSmallSlabMax then pa_ready 1 kVMKSleep (pages st) else slab_ready_for st Zn).

Definition with_pa (p : P) st : kmem P :=
  KMem (kmem_zones st) (zones st) (slabs st) (bufctls st) (bytes st) p.

(** The memory of the slabs. *)
Definition owned st (r : Z * Z) : Prop :=
  (∃ z Zn h, small_zone st z Zn ∧ h ∈ slablist Zn ∧ r = (slab_page h, 4096)) ∨
  (∃ z Zn h s, large_zone st z Zn ∧ h ∈ slablist Zn ∧ slabs st !! h = Some s ∧ r = (slab_data s,
    slabsize (zone_size Zn))).

(** A request that can be served; the release of an object in use; and whatever else
    the page allocator is used for, as long as it leaves the slabs' memory alone. *)
Inductive heap_step : kmem P → kmem P → Prop :=
| hp_alloc size st p st' :
    0 < size ≤ PGSIZE → alloc_ready st (zone_of size) → kmem_alloc size st = Ok (p, st') → heap_step st st'
| hp_free p size st st' :
    0 < size ≤ PGSIZE → in_use st (zone_of size) p → kmem_free p size st = Ok ((), st') → heap_step st st'
| hp_pages p st :
    pa_inv p → (∀ r, owned st r → r ∈ pa_live p) → heap_step st (with_pa p st).

Lemma zone_of_good size :
  0 < size ≤ PGSIZE → 0 ≤ zonenum size < 32 ∧ size ≤ ZONE_SIZES !!! Z.to_nat (zonenum size) ∧
    ¬ internal (zone_of size).
Proof.
  unfold PGSIZE. intros Hs. pose proof zonenum_table as HF. rewrite Forall_forall in HF.
  destruct (HF size) as (? & ? & _); [apply elem_of_seqZ; lia|]. split_and!; try lia.
  unfold internal, zone_of, kmem_alloc_zone, zone_kmem_slab, zone_kmem_bufctl. lia.
Qed.
Lemma table_zone st size :
  table_ok st → 0 < size ≤ PGSIZE → ∃ Zn, zones st !! zone_of size = Some Zn ∧ size ≤ zone_size Zn.
Proof.
  intros Ht Hs. destruct (zone_of_good size Hs) as (Hi & Hle & _). specialize (Ht _ Hi).
  assert (ZONE_SIZES !! Z.to_nat (zonenum size) = Some (ZONE_SIZES !!! Z.to_nat (zonenum size))) as E.
  { apply list_lookup_lookup_total_lt. change (length ZONE_SIZES) with 32%nat. lia. }
  rewrite E in Ht. unfold zone_of. destruct (zones st !! kmem_alloc_zone (zonenum size)) as [Zn|]; simpl in Ht;
    [|done].
  exists Zn. split; [done|]. injection Ht as ->. done.
Qed.
Lemma table_same st st' : (∀ z, zone_size <$> zones st' !! z = zone_size <$> zones st !! z) → table_ok st →
  table_ok st'.
Proof. intros E Ht i Hi. rewrite E. by apply Ht. Qed.

Lemma kmem_alloc_eq size st : 0 < size ≤ PGSIZE → kmem_alloc size st = kmem_zonealloc (zone_of size) st.
Proof.
  intros Hs. destruct (zone_of_good size Hs) as (Hi & _). unfold kmem_alloc. cbv zeta.
  rewrite (proj2 (Z.ltb_lt 0 size)), massert_bind by lia. by rewrite (proj2 (Z.eqb_neq _ _)) by lia.
Qed.
Lemma kmem_free_eq p size st : 0 < size ≤ PGSIZE → kmem_free p size st = kmem_zonefree (zone_of size) p st.
Proof.
  intros Hs. destruct (zone_of_good size Hs) as (Hi & _). unfold kmem_free. cbv zeta.
  rewrite (proj2 (Z.ltb_lt 0 size)), massert_bind by lia. by rewrite (proj2 (Z.eqb_neq _ _)) by lia.
Qed.

Lemma large_of_small st z Zn p : zones st !! z = Some Zn → zone_size Zn ≤ kSmallSlabMax → ¬ allocated_large st z p.
Proof. intros Hz Hs (Z2 & e & b & [Hz2 Hs2] & _). assert (Z2 = Zn) as -> by congruence. lia. Qed.
Lemma small_of_large st z Zn p : zones st !! z = Some Zn → kSmallSlabMax < zone_size Zn → ¬ allocated_obj st z p.
Proof. intros Hz Hs (Z2 & h & s & [Hz2 Hs2] & _). assert (Z2 = Zn) as -> by congruence. lia. Qed.

Lemma apart_self p size : 0 < size → ¬ disjoint_ranges (p, size) (p, size).
Proof. unfold disjoint_ranges. simpl. lia. Qed.
Lemma kmem_alloc_served size st :
  heap_sound st → 0 < size ≤ PGSIZE → alloc_ready st (zone_of size) →
  ∃ p st', kmem_alloc size st = Ok (p, st') ∧ heap_sound st' ∧ ¬ in_use st (zone_of size) p ∧
    ∀ z q, in_use st' z q ↔ in_use st z q ∨ (z = zone_of size ∧ q = p).
Proof.
  intros [Hok Ht] Hs (Zn & Hz & Hr). rewrite kmem_alloc_eq by done. destruct (zone_of_good size Hs) as (_ & _ & Hi).
  destruct (Z.leb_spec (zone_size Zn) kSmallSlabMax) as [Hsm|Hlg].
  - destruct (small_alloc_ok st (zone_of size) Zn Hok (conj Hz Hsm) Hr) as (p & st' & Hrun & Hok' & C & Ha & Hd).
    exists p, st'. split; [done|]. split; [split; [done|]; eapply table_same, Ht; apply C|]. split.
    + intros [_ [Hp|Hp]]; [|by destruct (large_of_small st _ Zn p Hz Hsm)].
      apply (apart_self p (zone_size Zn)); [|by eapply Hd].
      pose proof (small_sizes st _ Zn (sk_core _ (km_small _ Hok)) (conj Hz Hsm)). lia.
    + intros z q. unfold in_use. rewrite Ha, (allocated_large_change st st' z q C). naive_solver.
  - destruct (large_alloc_ok st (zone_of size) Zn Hok (conj Hz Hlg) Hr) as (p & st' & Hrun & Hok' & Hsz & Hl & Hsm
      & Hd).
    exists p, st'. split; [done|]. split; [split; [done|by eapply table_same]|]. split.
    { intros [_ Hp]. apply (apart_self p (zone_size Zn)); [unfold kSmallSlabMax in Hlg; lia|by eapply Hd]. }
    intros z q. unfold in_use.
    rewrite Hl. split; [|intros [[Hn Hq]|[-> ->]]; (split; [done|])].
    + intros [Hn [Hq|Hq]]; [left; split; [done|left; by apply Hsm]|]. naive_solver.
    + destruct Hq; [left; by apply Hsm|right; by left].
    + right. by right.
Qed.
Lemma kmem_free_served size p st :
  heap_sound st → 0 < size ≤ PGSIZE → in_use st (zone_of size) p →
  ∃ st', kmem_free p size st = Ok ((), st') ∧ heap_sound st' ∧
    ∀ z q, in_use st' z q ↔ in_use st z q ∧ ¬ (z = zone_of size ∧ q = p).
Proof.
  intros [Hok Ht] Hs [Hi Hp]. rewrite kmem_free_eq by done. destruct (table_zone st size Ht Hs) as (Zn & Hz & _).
  destruct (Z.le_gt_cases (zone_size Zn) kSmallSlabMax) as [Hsm|Hlg].
  - destruct Hp as [Hp|Hp]; [|by destruct (large_of_small st _ Zn p Hz Hsm)].
    destruct (small_free_ok st _ _ Zn Zn p Hok (conj Hz Hsm) (conj Hz Hsm) Hp Hi) as (st' & Hrun & Hok' & C & _ & Ha).
    exists st'. split; [done|]. split; [split; [done|]; eapply table_same, Ht; apply C|]. intros z q. unfold in_use.
    rewrite Ha, (allocated_large_change st st' z q C). split; [|naive_solver].
    intros [Hn [[? ?]|Hq]]; [naive_solver|]. split; [by split; [|right]|]. intros [-> ->].
    by destruct (large_of_small st _ Zn p Hz Hsm).
  - destruct Hp as [Hp|Hp]; [by destruct (small_of_large st _ Zn p Hz Hlg)|].
    destruct (large_free_ok st _ Zn p Hok (conj Hz Hlg) Hp) as (st' & Hrun & Hok' & _ & Hsz & Hl & Ha).
    exists st'. split; [done|]. split; [split; [done|by eapply table_same]|]. intros z q. unfold in_use.
    rewrite Ha, Hl. split; [|naive_solver].
    intros [Hn [Hq|[? ?]]]; [|naive_solver]. split; [by split; [|left]|]. intros [-> ->].
    by destruct (small_of_large st _ Zn p Hz Hlg).
Qed.

Lemma large_slab_pages st p Zn h s es :
  (slab_data s, slabsize (zone_size Zn)) ∈ pa_live p → large_slab_ok st Zn h s es →
    large_slab_ok (with_pa p st) Zn h s es.
Proof. intros Hl []. by split. Qed.
Lemma pages_sound st p :
  heap_sound st → pa_inv p → (∀ r, owned st r → r ∈ pa_live p) → heap_sound (with_pa p st).
Proof.
  intros [[[[C1 C2 C3 C4] Sl Si] [L1 L2 L3 L4 L5 L6]] Ht] Hp Hl. split; [|done]. split.
  - split; [split| |]; try done. intros z Zn h Hz Hh. apply Hl. left. by exists z, Zn, h.
  - assert (∀ z Zn h s es, large_zone st z Zn → h ∈ slablist Zn → slabs st !! h = Some s →
      large_slab_ok st Zn h s es → large_slab_ok (with_pa p st) Zn h s es) as Hk.
    { intros z Zn h s es Hz Hh Hs. apply large_slab_pages, Hl. right. by exists z, Zn, h, s. }
    split; try done.
    + intros z Zn h Hz Hh. destruct (L3 z Zn h Hz Hh) as (s & es & ? & ? & ?). exists s, es. split_and!; try done.
      by eapply Hk.
    + intros z Zn e Hz He. destruct (L4 z Zn e Hz He) as (h & s & es & ? & ? & ? & ?). exists h, s, es.
      split_and!; try done.
      by eapply Hk.
Qed.
Lemma heap_step_sound st st' : heap_step st st' → heap_sound st → heap_sound st'.
Proof.
  intros [size s p s' Hs Hr Hrun|p size s s' Hs Hu Hrun|p s Hp Hl] Hok.
  - destruct (kmem_alloc_served size s Hok Hs Hr) as (q & t & E & Ht & _). rewrite Hrun in E. by injection E as <- <-.
  - destruct (kmem_free_served size p s Hok Hs Hu) as (t & E & Ht & _). rewrite Hrun in E. by injection E as <-.
  - by apply pages_sound.
Qed.
Lemma heap_steps_sound st st' : rtc heap_step st st' → heap_sound st → heap_sound st'.
Proof. induction 1 as [|s s1 s' Hstep _ IH]; [done|]. intros Hs. by eapply IH, heap_step_sound. Qed.

(** Objects in use do not overlap. *)
Lemma in_use_disjoint st z1 z2 Z1 Z2 q1 q2 :
  heap_sound st → zones st !! z1 = Some Z1 → zones st !! z2 = Some Z2 → in_use st z1 q1 → in_use st z2 q2 →
  (z1, q1) ≠ (z2, q2) → disjoint_ranges (q1, zone_size Z1) (q2, zone_size Z2).
Proof.
  intros [[Hok L] _] HZ1 HZ2 [_ H1] [_ H2] Hne. pose proof (sk_core _ Hok) as C.
  assert (∀ z Zn q, zones st !! z = Some Zn → allocated_obj st z q → ∃ h, small_zone st z Zn ∧ h ∈ slablist Zn ∧
    q ∈ small_slots (slab_page h) (zone_size Zn) (slabcapacity (zone_size Zn))) as Hsm.
  { intros z Zn q Hz (Zn' & h & s & Hz' & Hh & _ & Hq & _). exists h. assert (Zn' = Zn) as -> by (destruct Hz';
      congruence). done. }
  assert (∀ z Zn q, zones st !! z = Some Zn → allocated_large st z q → ∃ e b h s es, large_zone st z Zn ∧
    bufctls st !! e = Some b ∧
    bc_base b = q ∧ h ∈ slablist Zn ∧ slabs st !! h = Some s ∧ large_slab_ok st Zn h s es ∧ e ∈ es) as Hlg.
  { intros z Zn q Hz (Zn' & e & b & Hz' & He & Hb & Hq). assert (Zn' = Zn) as -> by (destruct Hz'; congruence).
    destruct (lp_used _ L _ _ _ Hz' He) as (h & s & es & ? & ? & ? & ?). by exists e, b, h, s, es. }
  assert (∀ z Zn q z' Zn' q', zones st !! z = Some Zn → zones st !! z' = Some Zn' → allocated_obj st z q →
    allocated_large st z' q' → disjoint_ranges (q, zone_size Zn) (q', zone_size Zn')) as Hmix.
  { intros z Zn q z' Zn' q' Hz Hz' Hq Hq'. destruct (Hsm z Zn q Hz Hq) as (h & Hsz & Hh & Hin).
    destruct (Hlg z' Zn' q' Hz' Hq') as (e & b & h' & s & es & Hlz & Hb & <- & Hh' & Hs & Hl & He).
    destruct (block_object _ _ _ _ _ _ _ _ L Hlz Hl He Hb) as (i & _ & _ & ? & ?).
    apply slot_inside in Hin; [|by eapply small_sizes].
    pose proof (lp_small _ L _ _ _ _ _ _ _ Hlz Hsz Hh' Hh Hs) as Hd.
    unfold disjoint_ranges in *. simpl in *. lia. }
  destruct H1 as [H1|H1], H2 as [H2|H2].
  - destruct (Hsm z1 Z1 q1 HZ1 H1) as (h1 & Hz1 & Hh1 & Hq1), (Hsm z2 Z2 q2 HZ2 H2) as (h2 & Hz2 & Hh2 & Hq2).
    apply (slots_disjoint st z1 z2 Z1 Z2 h1 h2); try done. intros -> ->. apply Hne. f_equal.
    by destruct (slab_one_zone _ _ _ _ _ _ C Hz1 Hz2 Hh1 Hh2).
  - by apply (Hmix z1 Z1 q1 z2 Z2 q2).
  - pose proof (Hmix z2 Z2 q2 z1 Z1 q1 HZ2 HZ1 H2 H1) as Hd. unfold disjoint_ranges in *. tauto.
  - destruct (Hlg z1 Z1 q1 HZ1 H1) as (e1 & b1 & h1 & s1 & es1 & Hz1 & Hb1 & <- & Hh1 & Hs1 & Hl1 & He1).
    destruct (Hlg z2 Z2 q2 HZ2 H2) as (e2 & b2 & h2 & s2 & es2 & Hz2 & Hb2 & <- & Hh2 & Hs2 & Hl2 & He2).
    apply (blocks_disjoint st z1 z2 Z1 Z2 h1 h2 s1 s2 es1 es2 e1 e2); try done. intros <-.
    assert (b2 = b1) as -> by congruence.
    apply Hne. f_equal. destruct (ll_at _ _ _ _ _ _ Hl1 He1) as (b & Hb & E1), (ll_at _ _ _ _ _ _ Hl2 He2)
      as (b' & Hb' & E2).
    assert (h1 = h2) as <- by congruence.
    destruct (lp_slab _ L _ _ _ Hz1 Hh1) as (t1 & ? & Ht1 & <- & _), (lp_slab _ L _ _ _ Hz2 Hh2)
      as (t2 & ? & Ht2 & <- & _). congruence.
Qed.

Lemma init_zones_empty m (p : P) z Zn :
  zones (init_state m p) !! z = Some Zn → slablist Zn = [] ∧ bufctllist Zn = [] ∧ zone_size Zn ≤ 4096.
Proof.
  assert (map_Forall (λ _ Zn, slablist Zn = [] ∧ bufctllist Zn = [] ∧ zone_size Zn ≤ 4096) init_zones) as H
    by (apply (bool_decide_unpack _); vm_compute; exact I). apply H.
Qed.
Lemma init_unused m (p : P) z q : ¬ in_use (init_state m p) z q.
Proof.
  intros [_ [(Zn & h & s & [Hz _] & Hh & _)|(Zn & e & b & [Hz _] & He & _)]];
    destruct (init_zones_empty _ _ _ _ Hz) as (E1 & E2 & _); [rewrite E1 in Hh|rewrite E2 in He]; set_solver.
Qed.
Lemma init_sound m p : pa_inv p → heap_sound (init_state m p).
Proof.
  intros Hp. pose proof (init_zones_empty m p) as Hz. split.
  - split; [by apply init_state_ok|]. split.
    + intros z Zn [Hzn _]. apply (Hz _ _ Hzn).
    + intros z Zn [Hzn _]. destruct (Hz _ _ Hzn) as (-> & -> & _). split; constructor.
    + intros z Zn h [Hzn _]. destruct (Hz _ _ Hzn) as (-> & _). by intros ?%elem_of_nil.
    + intros z Zn e [Hzn _]. destruct (Hz _ _ Hzn) as (_ & -> & _). by intros ?%elem_of_nil.
    + intros z1 z2 Z1 Z2 h1 h2 s1 s2 [Hzn _] _. destruct (Hz _ _ Hzn) as (-> & _). by intros ?%elem_of_nil.
    + intros z1 z2 Z1 Z2 h1 h2 s1 [Hzn _] _. destruct (Hz _ _ Hzn) as (-> & _). by intros ?%elem_of_nil.
  - intros i Hi. pose proof init_zones_sizes as H. rewrite Forall_forall in H. apply H, elem_of_seqZ. lia.
Qed.

(** C22: The slab allocator is safe, from [kmem_init] on and after any sequence of
    allocations and releases of objects of up to a page, with whatever else the pages
    are used for in between.  Objects in use do not overlap, whatever their zones
    and whether their slabs are small or large.  A request that there is room for is
    served with an object of its zone that is large enough and was not in use,
    and every object in use can be released, which leaves all others in use. *)
Theorem kmem_requests_safe m p st0 st :
  pa_inv p → kmem_init (start_state m p) = Ok ((), st0) → rtc heap_step st0 st →
  (∀ z1 z2 Z1 Z2 q1 q2, zones st !! z1 = Some Z1 → zones st !! z2 = Some Z2 → in_use st z1 q1 → in_use st z2 q2 →
     (z1, q1) ≠ (z2, q2) → disjoint_ranges (q1, zone_size Z1) (q2, zone_size Z2)) ∧
  (∀ size, 0 < size ≤ PGSIZE → alloc_ready st (zone_of size) →
     ∃ q st' Zn, kmem_alloc size st = Ok (q, st') ∧ zones st !! zone_of size = Some Zn ∧ size ≤ zone_size Zn ∧
       ¬ in_use st (zone_of size) q ∧ ∀ z x, in_use st' z x ↔ in_use st z x ∨ (z = zone_of size ∧ x = q)) ∧
  (∀ size q, 0 < size ≤ PGSIZE → in_use st (zone_of size) q →
     ∃ st', kmem_free q size st = Ok ((), st') ∧ ∀ z x, in_use st' z x ↔ in_use st z x ∧ ¬ (z = zone_of size ∧
       x = q)).
Proof.
  intros Hp Hi Hr. assert (st0 = init_state m p) as -> by (rewrite kmem_init_run in Hi; by injection Hi).
  assert (heap_sound st) as Hok by (by apply (heap_steps_sound (init_state m p)), init_sound).
  split; [intros; by apply (in_use_disjoint st z1 z2)|]. split.
  - intros size Hs Hrd. destruct (kmem_alloc_served size st Hok Hs Hrd) as (q & st' & Hrun & _ & Hn & Hu).
    destruct (table_zone st size (hs_table _ Hok) Hs) as (Zn & Hz & Hle). by exists q, st', Zn.
  - intros size q Hs Hq. destruct (kmem_free_served size q st Hok Hs Hq) as (st' & Hrun & _ & Hu). by exists st'.
Qed.
End trace.

(** The kernel's first object of 512 bytes: a slab with its header and control blocks in
    fresh slabs of the internal zones. *)
Lemma kmem_requests_safe_witness :
  ∃ p st, kmem_alloc 512 (init_state (λ _, 0) bump0) = Ok (p, st) ∧ in_use st (zone_of 512) p ∧
    ∃ st', kmem_free p 512 st = Ok ((), st') ∧ ∀ z x, ¬ in_use st' z x.
Proof.
  set (st0 := init_state (λ _, 0) bump0). assert (pa_inv bump0) as Hinv by (split; [done|by intros ? ?%elem_of_nil]).
  assert (0 < 512 ≤ PGSIZE) as Hs by done.
  assert (alloc_ready st0 (zone_of 512)) as Hr.
  { eexists. split; [reflexivity|]. right. cbn -[slab_ready_for].
    eexists _, _. split; [split; [reflexivity|done]|]. split; [split; [reflexivity|done]|]. split; [done|]. right.
    split; [intros (h & l & s & E & _); discriminate E|]. split; [done|]. intros a p' [= <- <-]. split; [done|].
    intros b p2 [= <- <-]. by right. }
  destruct (kmem_requests_safe (λ _, 0) bump0 st0 st0 Hinv (kmem_init_run _ _) (rtc_refl _ _)) as (_ & Ha & _).
  destruct (Ha 512 Hs Hr) as (p & st & _ & Hrun & _ & _ & _ & Hu). exists p, st.
  assert (in_use st (zone_of 512) p) as Hp by (apply Hu; right; split; reflexivity). split; [exact Hrun|].
  split; [exact Hp|].
  assert (rtc heap_step st0 st) as Hst by (apply rtc_once; exact (hp_alloc 512 st0 p st Hs Hr Hrun)).
  destruct (kmem_requests_safe (λ _, 0) bump0 st0 st Hinv (kmem_init_run _ _) Hst) as (_ & _ & Hf).
  destruct (Hf 512 p Hs Hp) as (st' & Hfree & Hu'). exists st'. split; [exact Hfree|]. intros z x [Hx Hn]%Hu'.
  apply Hu in Hx as [Hx|Hx]; [exact (init_unused _ _ _ _ Hx)|exact (Hn Hx)].
Defined.
