(* ===== verification/KmemHeap.v ===== *)
(** * The slab allocator is a kernel heap

    The zones of small objects over any page allocator keep what Heap promises:
    while the first slab of each zone has free entries, [kmem_alloc] and
    [kmem_free] of small objects leave the pages, and so the rest of the kernel,
    alone, and hand out addresses that are not in use. *)

From S2P Require Import Prelude Vmem VmPage Pmap PmapProps PmapKernel PageAlloc VmKernel VmKernelProps KernelMem Heap Klib Kmem KmemProps.
Open Scope Z_scope.

(** ** The zones behind [kmem_alloc] *)

(** The zone for a small size is one of the first sixteen, and its objects are as
    large as what was asked for. *)
Definition zonenum_fits (size : Z) : Prop :=
  0 ≤ zonenum size < 16 ∧ size ≤ ZONE_SIZES !!! Z.to_nat (zonenum size).
#[export] Instance zonenum_fits_dec size : Decision (zonenum_fits size).
Proof. unfold zonenum_fits. apply _. Defined.

Lemma zonenum_small size : 0 < size ≤ 256 → zonenum_fits size.
Proof.
  assert (Forall zonenum_fits (seqZ 1 256)) as H by (apply (bool_decide_unpack _); vm_compute; exact I).
  rewrite Forall_forall in H. intros. apply H, elem_of_seqZ. lia.
Qed.

Lemma small_sizes_table i : 0 ≤ i < 16 → ZONE_SIZES !!! Z.to_nat i ≤ kSmallSlabMax.
Proof.
  assert (Forall (λ i, ZONE_SIZES !!! Z.to_nat i ≤ kSmallSlabMax) (seqZ 0 16)) as H
    by (apply (bool_decide_unpack _); vm_compute; exact I).
  rewrite Forall_forall in H. intros. apply H, elem_of_seqZ. lia.
Qed.

Section heap.
Context `{!PageAlloc kstate}.
Implicit Types (k : kmem kstate).

Definition set_pages (p : kstate) k : kmem kstate :=
  KMem (kmem_zones k) (zones k) (slabs k) (bufctls k) (bytes k) p.

(** The first slab of the zone has at least [n] free entries. *)
Definition zone_ready (n : nat) k (i : Z) : Prop :=
  ∃ Zn, zones k !! kmem_alloc_zone i = Some Zn ∧ zone_size Zn = ZONE_SIZES !!! Z.to_nat i ∧
    (n = 0%nat ∨ ∃ h l s, slablist Zn = h :: l ∧ slabs k !! h = Some s ∧ (n ≤ length (firstfree s))%nat).
Definition slab_ready (n : nat) k : Prop := core_ok k ∧ ∀ i, 0 ≤ i < 16 → zone_ready n k i.
Definition slab_live k (p size : Z) : Prop :=
  0 < size ≤ 256 ∧ allocated_obj k (kmem_alloc_zone (zonenum size)) p.

Lemma core_ok_set_pages p k : core_ok (set_pages p k) ↔ core_ok k.
Proof. split; intros [H1 H2 H3 H4]; split; [exact H1|exact H2|exact H3|exact H4|exact H1|exact H2|exact H3|exact H4]. Qed.

Lemma ready_small_zone n k i :
  slab_ready n k → 0 ≤ i < 16 → ∃ Zn, small_zone k (kmem_alloc_zone i) Zn.
Proof.
  intros [_ Hr] Hi. destruct (Hr i Hi) as (Zn & Hz & Hs & _). exists Zn. split; [done|].
  rewrite Hs. by apply small_sizes_table.
Qed.

(** A change of one slab keeps the other zones as ready as they were, and its own
    if the slab stays in place and has so many entries. *)
Lemma zone_ready_update n m k k' z Zn Zn' h s i :
  core_ok k → slab_update k k' z Zn Zn' h s → (n ≤ m)%nat → 0 ≤ i < 16 → zone_ready m k i →
  (∀ s0, n ≠ 0%nat → slabs k !! h = Some s0 → (m ≤ length (firstfree s0))%nat →
     (n ≤ length (firstfree s))%nat) →
  (z = kmem_alloc_zone i → n ≠ 0%nat → slablist Zn' = slablist Zn) →
  zone_ready n k' i.
Proof.
  intros Hok U Hnm Hi (Z0 & Hz0 & Hsz & Hn) Hlen Hlist.
  pose proof (su_zone _ _ _ _ _ _ _ U) as HZ. pose proof (su_size _ _ _ _ _ _ _ U) as Esz.
  assert (∃ Z1, zones k' !! kmem_alloc_zone i = Some Z1 ∧ zone_size Z1 = zone_size Z0 ∧
            (n ≠ 0%nat → slablist Z1 = slablist Z0)) as (Z1 & HZ1 & Es & El).
  { rewrite (su_zones _ _ _ _ _ _ _ U). destruct (decide (z = kmem_alloc_zone i)) as [->|Hne].
    - destruct HZ as [HZ _]. simplify_eq. exists Zn'. rewrite lookup_insert_eq. auto.
    - exists Z0. by rewrite lookup_insert_ne. }
  exists Z1. split; [done|]. split; [congruence|].
  destruct (decide (n = 0%nat)) as [|Hn0]; [by left|right].
  destruct Hn as [->|(h0 & l & s0 & Hl & Hs0 & Hn)]; [lia|].
  exists h0, l. rewrite (su_slabs _ _ _ _ _ _ _ U), (El Hn0).
  destruct (decide (h0 = h)) as [->|Hne].
  - exists s. rewrite lookup_insert_eq. split_and!; [done..|]. by eapply Hlen.
  - exists s0. rewrite lookup_insert_ne by done. split_and!; [done..|lia].
Qed.

(** ** Allocation *)

Lemma kmem_alloc_zone_run n k i :
  slab_ready (S n) k → 0 ≤ i < 16 →
  ∃ p k', kmem_zonealloc (kmem_alloc_zone i) k = Ok (p, k') ∧ pages k' = pages k ∧ slab_ready n k' ∧
    (∀ z Zn q, zones k !! z = Some Zn → allocated_obj k z q →
       disjoint_ranges (p, ZONE_SIZES !!! Z.to_nat i) (q, zone_size Zn)) ∧
    ∀ z q, allocated_obj k' z q ↔ allocated_obj k z q ∨ (z = kmem_alloc_zone i ∧ q = p).
Proof.
  intros [Hok Hr] Hi. destruct (ready_small_zone (S n) k i (conj Hok Hr) Hi) as [Zn Hz].
  destruct (Hr i Hi) as (Z0 & Hz0 & Hsz & [?|(h0 & l0 & s0 & Hl0 & Hs0 & Hn)]); [done|].
  assert (Z0 = Zn) as -> by (destruct Hz; by simplify_eq).
  assert (h0 ∈ slablist Zn) as Hh0 by (rewrite Hl0; left).
  destruct (sk_slab _ Hok _ _ _ Hz Hh0) as (s' & Hs' & _ & [_ _ Hnf]). assert (s' = s0) as -> by congruence.
  destruct (pick_slab_first (λ z, zone ← get_zone z;
      if kSmallSlabMax <? zone_size zone then large_slab_new z else small_slab_new z) k _ Zn Hok Hz)
    as (h & l & s & entry & next & Hpick & Hl & Hs & Hf); [exists h0, l0, s0; split_and!; try done; lia|].
  rewrite Hl0 in Hl. injection Hl as <- <-. assert (s = s0) as -> by congruence. rewrite Hf in Hn. simpl in Hn.
  destruct (take_entry_core k _ Zn h0 s0 entry next Hok Hz Hh0 Hs Hf)
    as (k' & Zn1 & s1 & Hrun & Hok' & Hpg & U & Hf1 & Hsame & Ha).
  exists entry, k'. split_and!; [|done|split; [done|]| |done].
  - unfold kmem_zonealloc, kmem_zonealloc_with. by rewrite (bind_step _ _ _ _ _ Hpick).
  - intros j Hj. eapply (zone_ready_update n (S n)); [exact Hok|exact U|lia|done|by apply Hr|..].
    + intros s2 _ _ _. rewrite Hf1. lia.
    + intros _ Hn0. apply Hsame. intros ->. simpl in Hn. lia.
  - intros z2 Z2 q Hz2 Hq. rewrite <-Hsz.
    by eapply (free_apart k); [exact Hok|exact Hz|exact Hh0|exact Hs0|rewrite Hf; left|..].
Qed.

Lemma kmem_alloc_small n size k :
  slab_ready (S n) k → 0 < size ≤ 256 →
  ∃ p k', kmem_alloc size k = Ok (p, k') ∧ pages k' = pages k ∧ slab_ready n k' ∧
    (∀ q z, slab_live k q z → disjoint_ranges (p, size) (q, z)) ∧
    slab_live k' p size ∧ ∀ q z, slab_live k q z → slab_live k' q z.
Proof.
  intros Hr Hs. destruct (zonenum_small size Hs) as [Hi Hle].
  destruct (kmem_alloc_zone_run n k _ Hr Hi) as (p & k' & Hrun & Hpg & Hr' & Hnew & Ha).
  exists p, k'. split_and!; try done.
  - unfold kmem_alloc. cbv zeta. rewrite (proj2 (Z.ltb_lt 0 size)), massert_bind by lia.
    by rewrite (proj2 (Z.eqb_neq _ _)) by lia.
  - intros q z [Hz Hl]. destruct (zonenum_small z Hz) as [Hj Hle2].
    destruct Hr as [_ Hr]. destruct (Hr _ Hj) as (Z2 & HZ2 & Esz & _).
    specialize (Hnew _ _ _ HZ2 Hl). unfold disjoint_ranges in *. simpl in *. lia.
  - split; [done|]. apply Ha. by right.
  - intros q z [Hz Hl]. split; [done|]. apply Ha. by left.
Qed.

Lemma kmem_free_small n p size k :
  slab_ready n k → slab_live k p size →
  ∃ k', kmem_free p size k = Ok ((), k') ∧ pages k' = pages k ∧
    (∀ m, slab_ready m k → slab_ready m k') ∧
    ∀ q z, slab_live k q z → q ≠ p → slab_live k' q z.
Proof.
  intros Hr [Hs Hp]. destruct (zonenum_small size Hs) as [Hi _].
  destruct (ready_small_zone n k _ Hr Hi) as [Zn Hz]. destruct Hr as [Hok _].
  destruct (zonefree_core k _ _ Zn Zn p Hok Hz Hz Hp)
    as (k' & h & s & s1 & Hrun & Hok' & Hpg & Hh & Hsl & U & Hf & Ha).
  exists k'. split_and!; [|done| |].
  - unfold kmem_free. cbv zeta. rewrite (proj2 (Z.ltb_lt 0 size)), massert_bind by lia.
    by rewrite (proj2 (Z.eqb_neq _ _)) by lia.
  - intros m [_ Hr]. split; [done|]. intros j Hj.
    eapply (zone_ready_update m m); [exact Hok|exact U|done|done|by apply Hr| |done].
    intros s2 _ Hs2. assert (s2 = s) as -> by congruence. rewrite Hf. simpl. lia.
  - intros q z [Hz' Hl] Hne. split; [done|]. apply Ha. split; [done|]. by intros [_ ->].
Qed.

(** ** Many objects *)

(** Calls of [kmem_alloc] one after the other; addresses with their sizes. *)
Fixpoint kmem_allocs_of (sizes : list Z) : M (kmem kstate) (list (Z * Z)) :=
  match sizes with
  | [] => mret []
  | size :: sizes =>
      p ← kmem_alloc size;
      objs ← kmem_allocs_of sizes;
      mret ((p, size) :: objs)
  end.
Definition kmem_frees (objs : list (Z * Z)) : M (kmem kstate) unit :=
  mfor objs (λ o, kmem_free o.1 o.2).

Definition apart_from_live k (o : Z * Z) : Prop := ∀ q z, slab_live k q z → disjoint_ranges o (q, z).

Lemma kmem_allocs_run sizes n k :
  slab_ready (n + length sizes) k → Forall (λ z, 0 < z ≤ 256) sizes →
  ∃ objs k', kmem_allocs_of sizes k = Ok (objs, k') ∧ objs.*2 = sizes ∧ pages k' = pages k ∧
    slab_ready n k' ∧ ForallOrdPairs disjoint_ranges objs ∧ Forall (apart_from_live k) objs ∧
    Forall (λ o, slab_live k' o.1 o.2) objs ∧ ∀ q z, slab_live k q z → slab_live k' q z.
Proof.
  intros Hr Hs. revert k Hr. induction Hs as [|size sizes Hsize _ IH]; intros k Hr.
  - exists [], k. rewrite Nat.add_0_r in Hr. split_and!; try done; constructor.
  - simpl length in Hr. rewrite Nat.add_succ_r in Hr.
    destruct (kmem_alloc_small _ size k Hr Hsize) as (p & k1 & Hrun & Hpg & Hr1 & Hd & Hl & Hlive).
    destruct (IH k1 Hr1) as (objs & k2 & Hrun2 & Hsz & Hpg2 & Hr2 & Hdis & Hap & Hl2 & Hlive2).
    exists ((p, size) :: objs), k2. split_and!; try done.
    + simpl. by rewrite (bind_step _ _ _ _ _ Hrun), (bind_step _ _ _ _ _ Hrun2).
    + by rewrite fmap_cons, Hsz.
    + congruence.
    + constructor; [|done]. eapply List.Forall_impl, Hap. intros o Ho.
      specialize (Ho p size Hl). unfold disjoint_ranges in *. simpl in *. tauto.
    + constructor; [exact Hd|]. eapply List.Forall_impl, Hap. intros o Ho q z Hq. by apply Ho, Hlive.
    + constructor; [by apply Hlive2|done].
    + auto.
Qed.

Lemma kmem_frees_run objs k :
  slab_ready 0 k → NoDup objs.*1 → Forall (λ o, slab_live k o.1 o.2) objs →
  ∃ k', kmem_frees objs k = Ok ((), k') ∧ pages k' = pages k ∧ slab_ready 0 k' ∧
    ∀ q z, slab_live k q z → (q ∉ objs.*1) → slab_live k' q z.
Proof.
  revert k. induction objs as [|[p size] objs IH]; intros k Hr Hnd Hl; [by exists k|].
  apply NoDup_cons in Hnd as [Hp Hnd]. apply Forall_cons in Hl as [Hlp Hl]. simpl in Hlp.
  destruct (kmem_free_small 0 p size k Hr Hlp) as (k1 & Hrun & Hpg & Hr1 & Hl1).
  destruct (IH k1 (Hr1 _ Hr) Hnd) as (k2 & Hrun2 & Hpg2 & Hr2 & Hl2).
  { rewrite Forall_forall in *. intros o Ho. apply Hl1; [by apply Hl|].
    intros E. apply Hp, list_elem_of_fmap. by exists o. }
  exists k2. split_and!; [|congruence|done|].
  - unfold kmem_frees. simpl. by rewrite (bind_step _ _ _ _ _ Hrun).
  - intros q z Hq Hn. apply not_elem_of_cons in Hn as [Hne Hn]. apply Hl2, Hn. by apply Hl1.
Qed.

Lemma objs_distinct (objs : list (Z * Z)) :
  Forall (λ z, 0 < z) objs.*2 → ForallOrdPairs disjoint_ranges objs → NoDup objs.*1.
Proof.
  intros Hs Hd. induction Hd as [|[p size] objs Hp _ IH]; [constructor|]. simpl in *.
  apply Forall_cons in Hs as [Hsz Hs]. constructor; [|by apply IH].
  intros ((q & z) & E & Hin)%list_elem_of_fmap. simpl in E. subst q.
  rewrite Forall_forall in Hp. specialize (Hp _ Hin).
  assert (0 < z) by (rewrite Forall_forall in Hs; apply Hs, list_elem_of_fmap; by exists (p, z)).
  unfold disjoint_ranges in Hp. simpl in Hp. lia.
Qed.

#[export] Program Instance slab_heap : KernelHeap (kmem kstate) := {
  kernel_of := pages;
  with_kernel := set_pages;
  heap_alloc := kmem_alloc;
  heap_free := kmem_free;
  heap_live := slab_live;
  heap_ready := slab_ready;
}.
Next Obligation. done. Qed.
Next Obligation. by intros []. Qed.
Next Obligation. intros n s k. unfold slab_ready. by rewrite core_ok_set_pages. Qed.
Next Obligation.
  intros n k [Hok Hr]. split; [done|]. intros i Hi. destruct (Hr i Hi) as (Zn & ? & ? & [?|(h & l & s & ? & ? & ?)]); [done|].
  exists Zn. split_and!; [done..|]. right. exists h, l, s. split_and!; [done..|lia].
Qed.
Next Obligation. done. Qed.
Next Obligation.
  intros n size k Hr Hs.
  destruct (kmem_alloc_small n size k Hr Hs) as (p & k' & Hrun & Hpg & Hr' & Hd & Hl & Hlive).
  exists p, k'. split_and!; try done. intros z Hz. pose proof (Hd p z Hz) as H. destruct Hz as [Hz _].
  unfold disjoint_ranges in H. simpl in H. lia.
Qed.
Next Obligation. exact kmem_free_small. Qed.
Next Obligation. done. Qed.
(** C24: [kmem_alloc] and [kmem_free] together.  Allocating objects of any sizes up to
    256 bytes, one after the other, while the zones have free entries in their
    first slabs, returns memory ranges that overlap neither each other nor an object
    that was in use; freeing them again, in whatever order, returns too and
    leaves every object in use that was in use before; the pages and the address
    space of the kernel are as they were all along. *)
Theorem kmem_alloc_free_correct sizes k :
  slab_ready (length sizes) k → Forall (λ z, 0 < z ≤ 256) sizes →
  ∃ objs k1, kmem_allocs_of sizes k = Ok (objs, k1) ∧ objs.*2 = sizes ∧ pages k1 = pages k ∧
    ForallOrdPairs disjoint_ranges objs ∧ Forall (apart_from_live k) objs ∧
    (∀ q z, slab_live k q z → slab_live k1 q z) ∧
    ∀ objs', objs' ≡ₚ objs → ∃ k2, kmem_frees objs' k1 = Ok ((), k2) ∧ pages k2 = pages k ∧
      ∀ q z, slab_live k q z → slab_live k2 q z.
Proof.
  intros Hr Hs.
  destruct (kmem_allocs_run sizes 0 k Hr Hs) as (objs & k1 & Hrun & Hsz & Hpg & Hr1 & Hd & Hap & Hl & Hlive).
  exists objs, k1. split_and!; try done. intros objs' HP.
  assert (NoDup objs.*1) as Hnd.
  { apply objs_distinct; [|done]. rewrite Hsz. eapply List.Forall_impl, Hs. simpl. lia. }
  destruct (kmem_frees_run objs' k1 Hr1) as (k2 & Hrun2 & Hpg2 & _ & Hl2); [by rewrite HP|by rewrite HP|].
  exists k2. split_and!; [done|congruence|]. intros q z Hq. apply Hl2; [by apply Hlive|]. rewrite HP.
  intros ((p & size) & -> & Hin)%list_elem_of_fmap. rewrite Forall_forall in Hap. rewrite Forall_forall in Hs.
  specialize (Hap _ Hin _ _ Hq). assert (0 < size ≤ 256).
  { apply Hs. rewrite <-Hsz. apply list_elem_of_fmap. by exists (p, size). }
  destruct Hq as [Hz _]. unfold disjoint_ranges in Hap. simpl in *. lia.
Qed.
End heap.

(** ** Zones with one slab each *)

Definition ready_slab (i : Z) : Z := SMALL_SLAB_HDR (PGSIZE * (i + 16)).
Definition ready_slabs : gmap Z kmem_slab :=
  list_to_map ((λ i, let size := ZONE_SIZES !!! Z.to_nat i in
    (ready_slab i, Slab (kmem_alloc_zone i) (slabcapacity size)
       (small_slots (PGSIZE * (i + 16)) size (slabcapacity size)) 0)) <$> seqZ 0 16).
Definition ready_zones : gmap Z kmem_zone :=
  foldr (λ i, <[kmem_alloc_zone i := let size := ZONE_SIZES !!! Z.to_nat i in
    Zone ("kmem_" +:+ pretty size) size [ready_slab i] []]>) init_zones (seqZ 0 16).
Definition ready_kmem (p : kstate) : kmem kstate :=
  KMem (seqZ 0 34) ready_zones ready_slabs ∅ (λ _, 0) p.

Definition ready_slab_good (z : Z) (Zn : kmem_zone) (h : Z) : Prop :=
  slab_page h mod PGSIZE = 0 ∧ 0 < slab_page h ∧ slab_page h + 4096 ≤ 2^64 ∧
  ready_slabs !! h = Some (Slab z (slabcapacity (zone_size Zn))
    (small_slots (slab_page h) (zone_size Zn) (slabcapacity (zone_size Zn))) 0).
#[export] Instance kmem_slab_eq_dec : EqDecision kmem_slab.
Proof. solve_decision. Defined.
#[export] Instance ready_slab_good_dec z Zn h : Decision (ready_slab_good z Zn h).
Proof. unfold ready_slab_good. apply _. Defined.

Lemma ready_zones_good :
  map_Forall (λ z Zn, 8 ≤ zone_size Zn ∧ NoDup (slablist Zn) ∧ Forall (ready_slab_good z Zn) (slablist Zn))
    ready_zones.
Proof. apply (bool_decide_unpack _). vm_compute. exact I. Qed.

Lemma ready_core p : core_ok (ready_kmem p).
Proof.
  assert (∀ z Zn, small_zone (ready_kmem p) z Zn → 8 ≤ zone_size Zn ∧ NoDup (slablist Zn) ∧
    Forall (ready_slab_good z Zn) (slablist Zn)) as H.
  { intros z Zn [Hz _]. pose proof ready_zones_good as H. rewrite map_Forall_lookup in H. by apply H. }
  assert (∀ z Zn h, small_zone (ready_kmem p) z Zn → h ∈ slablist Zn → ready_slab_good z Zn h) as Hg.
  { intros z Zn h Hz Hh. apply H in Hz as (_ & _ & HF). rewrite Forall_forall in HF. auto. }
  split; [intros z Zn Hz; apply (H _ _ Hz)|intros z Zn Hz; apply (H _ _ Hz)|..]; intros z Zn h Hz Hh;
    destruct (Hg _ _ _ Hz Hh) as (? & ? & ? & Hs); [|by split].
  eexists. split; [exact Hs|]. split; [done|]. destruct (H _ _ Hz) as [? _].
  assert (8 ≤ zone_size Zn ≤ 256) as Hsz by (destruct Hz as [_ Hle]; unfold kSmallSlabMax in Hle; lia).
  split; simpl; [done|apply slots_NoDup; lia|].
  unfold small_slots. rewrite length_fmap, length_seqZ. pose proof (capacity_small _ Hsz). lia.
Qed.

Definition ready_zone (i : Z) : Prop :=
  match ready_zones !! kmem_alloc_zone i, ready_slabs !! ready_slab i with
  | Some Zn, Some s => zone_size Zn = ZONE_SIZES !!! Z.to_nat i ∧ slablist Zn = [ready_slab i] ∧
      (15 ≤ length (firstfree s))%nat
  | _, _ => False
  end.
#[export] Instance ready_zone_dec i : Decision (ready_zone i).
Proof. unfold ready_zone. repeat case_match; apply _. Defined.
Lemma ready_zone_ok : Forall ready_zone (seqZ 0 16).
Proof. apply (bool_decide_unpack _). vm_compute. exact I. Qed.

(** Over the kernel's own page allocator. *)
Definition demo_kernel : kstate := (VState ∅ [] 0, demo_pmap).
Definition demo_pages : PageAlloc kstate := kernel_pages 1048576.
#[local] Existing Instance demo_pages.

Lemma ready_kmem_ready n p : (n ≤ 15)%nat → slab_ready n (ready_kmem p).
Proof.
  intros Hn. split; [apply ready_core|]. intros i Hi. pose proof ready_zone_ok as H.
  rewrite Forall_forall in H. specialize (H i ltac:(apply elem_of_seqZ; lia)). unfold ready_zone in H.
  destruct (ready_zones !! kmem_alloc_zone i) as [Zn|] eqn:E, (ready_slabs !! ready_slab i) as [s|] eqn:Es; try done.
  destruct H as (Hs & Hl & Hlen). exists Zn. split_and!; [done..|]. right.
  exists (ready_slab i), [], s. split_and!; [done..|lia].
Qed.

Lemma kmem_alloc_free_correct_witness :
  ∃ objs k1, kmem_allocs_of [100; 3; 256; 100] (ready_kmem demo_kernel) = Ok (objs, k1) ∧
    ForallOrdPairs disjoint_ranges objs ∧
    ∃ k2, kmem_frees (reverse objs) k1 = Ok ((), k2).
Proof.
  destruct (kmem_alloc_free_correct [100; 3; 256; 100] (ready_kmem demo_kernel)) as (objs & k1 & H1 & _ & _ & H2 & _ & _ & H3).
  - apply ready_kmem_ready. simpl. lia.
  - repeat constructor; lia.
  - exists objs, k1. split; [exact H1|]. split; [exact H2|].
    destruct (H3 (reverse objs) (reverse_Permutation objs)) as (k2 & H4 & _). exists k2. exact H4.
Defined.
