(* ===== verification/Vm.v ===== *)
(** * Address maps, objects and page faults: vm/vm.c

    Map entries, objects, anonymous maps and anons are records at their
    addresses; the chunks of an anonymous map are kept with it.  Memory comes
    from the kernel heap (Heap), pages, arenas and page tables are those of the
    kernel state inside it.  The locks of maps, objects and anons are left out:
    each operation holds them throughout. *)

From S2P Require Import Prelude Vmem VmPage Pmap VmKernel Heap.
Open Scope Z_scope.

Definition kVMFaultPresent : Z := 1.
Definition kVMFaultWrite : Z := 2.

Definition VADDR_MAX : Z := 2^64 - 1.
Definition USER_BASE : Z := 0x1000.
Definition USER_SIZE : Z := 0x100000000.
Definition kAMapChunkNPages : Z := 32.

(** [sizeof] the structures. *)
Definition sizeof_vm_map : Z := 848.
Definition sizeof_vm_map_entry : Z := 48.
Definition sizeof_vm_object : Z := 88.
Definition sizeof_vm_amap : Z := 16.
Definition sizeof_vm_amap_chunk : Z := 256.
Definition sizeof_vm_anon : Z := 56.

Inductive vm_object_type := kDirectMap | kKHeap | kVMObjAnon.
#[export] Instance vm_object_type_eq_dec : EqDecision vm_object_type.
Proof. solve_decision. Defined.

(** [vm_anon_t]; [physpage] is the page's address, the reference count a signed field of
    24 bits. *)
Record vm_anon := Anon { an_refcnt : Z; resident : bool; physpage : Z }.
(** [vm_amap_chunk_t] with its address; a slot is [None] when NULL. *)
Record vm_amap_chunk := Chunk { ck_addr : Z; ck_anon : list (option Z) }.
(** [vm_amap_t]: the array of chunk pointers, with its address (0 for NULL). *)
Record vm_amap := Amap { am_array : Z; chunks : list (option vm_amap_chunk) }.
(** [vm_object_t], of an anonymous object the amap and the parent. *)
Record vm_object := Object {
  ob_refcnt : Z;
  ob_type : vm_object_type;
  ob_size : Z;
  ob_amap : Z;
  ob_parent : option Z;
}.
(** [vm_map_entry_t] *)
Record vm_map_entry := Entry { en_addr : Z; en_start : Z; en_end : Z; en_offset : Z; en_obj : Z }.
(** [vm_map_t]: its entries, its arena and its top-level page table. *)
Record vm_map := Map { entries : list vm_map_entry; mp_vmem : Z; mp_pml4 : Z }.

Section vm.
Context {K : Type} `{!KernelHeap K}.

Record vm_state := Vm {
  heap : K;
  anons : gmap Z vm_anon;
  amaps : gmap Z vm_amap;
  objects : gmap Z vm_object;
  maps : gmap Z vm_map;
  page_anon : gmap Z Z;       (** the field [anon] of a page *)
  in_pagefault : bool;        (** of the current thread *)
}.

(** ** Access *)

Definition set_heap (h : K) (s : vm_state) : vm_state :=
  Vm h (anons s) (amaps s) (objects s) (maps s) (page_anon s) (in_pagefault s).
Definition set_anon (a : Z) (x : vm_anon) (s : vm_state) : vm_state :=
  Vm (heap s) (<[a := x]> (anons s)) (amaps s) (objects s) (maps s) (page_anon s) (in_pagefault s).
Definition set_amap (a : Z) (x : vm_amap) (s : vm_state) : vm_state :=
  Vm (heap s) (anons s) (<[a := x]> (amaps s)) (objects s) (maps s) (page_anon s) (in_pagefault s).
Definition set_object (a : Z) (x : vm_object) (s : vm_state) : vm_state :=
  Vm (heap s) (anons s) (amaps s) (<[a := x]> (objects s)) (maps s) (page_anon s) (in_pagefault s).
Definition set_map (a : Z) (x : vm_map) (s : vm_state) : vm_state :=
  Vm (heap s) (anons s) (amaps s) (objects s) (<[a := x]> (maps s)) (page_anon s) (in_pagefault s).
Definition set_in_pagefault (b : bool) (s : vm_state) : vm_state :=
  Vm (heap s) (anons s) (amaps s) (objects s) (maps s) (page_anon s) b.

Definition get_anon (a : Z) : M vm_state vm_anon := λ s, deref (anons s !! a) "anon" s.
Definition get_amap (a : Z) : M vm_state vm_amap := λ s, deref (amaps s !! a) "amap" s.
Definition get_object (a : Z) : M vm_state vm_object := λ s, deref (objects s !! a) "object" s.
Definition get_map (a : Z) : M vm_state vm_map := λ s, deref (maps s !! a) "map" s.

Definition on_heap {A} (m : M K A) : M vm_state A := λ s,
  match m (heap s) with
  | Ok (a, h) => Ok (a, set_heap h s)
  | Fatal w => Fatal w
  | Undef w => Undef w
  end.
Definition on_kernel {A} (m : M kstate A) : M vm_state A := λ s,
  match m (kernel_of (heap s)) with
  | Ok (a, k) => Ok (a, set_heap (with_kernel k (heap s)) s)
  | Fatal w => Fatal w
  | Undef w => Undef w
  end.
Definition on_pstate {A} (m : M pstate A) : M vm_state A := on_kernel (on_pages m).
Definition kmem_alloc (size : Z) : M vm_state Z := on_heap (heap_alloc size).
Definition kmem_free (p size : Z) : M vm_state unit := on_heap (heap_free p size).

(** The arenas of the maps have no [allocfn] or [freefn]; what the tag pool is
    refilled with is the kernel's [vm_kalloc]. *)
Context (kpml4 : Z).
Definition map_xalloc (v size minaddr flags : Z) : M kstate (Z * option Z) :=
  vmem_xalloc (vm_kalloc kpml4) no_allocfn no_freefn v size 0 0 0 minaddr 0 flags.
Definition map_xfree (v addr size : Z) : M kstate Z := vmem_xfree no_freefn v addr size.

(** ** Pageable mappings: x86_64/vm.c *)

Definition sizeof_pv_entry : Z := 32.
Definition sizeof_pmap : Z := 8.

Definition set_pv (page : Z) (l : list pv_entry) (s : pstate) : pstate :=
  PState (pregions s) (queues s) (page_queue s)
    (λ p, if p =? page then l else pv_table s p) (phys s).

(** [LIST_FOREACH ... LIST_REMOVE] of the first entry for (map, vaddr). *)
Fixpoint pv_remove (map vaddr : Z) (l : list pv_entry) : option (pv_entry * list pv_entry) :=
  match l with
  | [] => None
  | e :: l' =>
      if (pv_map e =? map) && (pv_vaddr e =? vaddr) then Some (e, l')
      else '(pv, rest) ← pv_remove map vaddr l'; Some (pv, e :: rest)
  end.

Definition pmap_enter (map page virt prot : Z) : M vm_state unit :=
  ent ← kmem_alloc sizeof_pv_entry;
  m ← get_map map;
  on_pstate (pmap_enter_kern (mp_pml4 m) page virt prot);;
  on_pstate (mmodify (λ s, set_pv page (PV ent map virt :: pv_table s page) s)).

Definition pmap_reenter (map page virt prot : Z) : M vm_state unit :=
  m ← get_map map;
  on_pstate (pmap_enter_kern (mp_pml4 m) page virt prot).

Definition pmap_reenter_all_readonly (page : Z) : M vm_state unit :=
  p ← on_pstate mget;
  mfor (pv_table p page) (λ pv, pmap_reenter (pv_map pv) page (pv_vaddr pv) (Z.lor kVMRead kVMExecute)).

(** [page] is [None] for NULL; [pv] is NULL for all callers. *)
Definition pmap_unenter (map : Z) (page : option Z) (vaddr : Z) : M vm_state unit :=
  m ← get_map map;
  pte ← on_pstate (pmap_fully_descend (mp_pml4 m) vaddr);
  if pte =? 0 then mret () else
  p ← on_pstate mget;
  let e := read64 (phys p) pte in
  if e =? 0 then mret () else
  on_pstate (mmodify (set_phys (λ m, write64 m pte 0)));;
  match (match page with Some q => Some q | None => vm_page_from_paddr p (pte_get_addr e) end) with
  | None => fatal "assert(page)"
  | Some page =>
      match pv_remove map vaddr (pv_table p page) with
      | None => fatal "pmap_unenter: no mapping of frame"
      | Some (pv, l) =>
          on_pstate (mmodify (set_pv page l));;
          kmem_free (pv_addr pv) sizeof_pv_entry
      end
  end.

(** The pmap structure holds only the top-level table, which the map keeps. *)
Definition pmap_new : M vm_state Z :=
  kmem_alloc sizeof_pmap;;
  on_pstate (pmap_new_table kpml4).

(** ** Anons *)

Definition copyphyspage (dst src : Z) : M vm_state unit :=
  on_pstate (mmodify (set_phys (mem_copy dst src PGSIZE))).

Definition anon_new : M vm_state Z :=
  newanon ← kmem_alloc sizeof_vm_anon;
  page ← on_pstate (vm_pagealloc true pgactiveq);
  mmodify (set_anon newanon (Anon 1 true page));;
  mmodify (λ s, Vm (heap s) (anons s) (amaps s) (objects s) (maps s)
                  (<[page := newanon]> (page_anon s)) (in_pagefault s));;
  mret newanon.

Definition anon_copy (anon : Z) : M vm_state Z :=
  newanon ← anon_new;
  n ← get_anon newanon;
  o ← get_anon anon;
  copyphyspage (physpage n) (physpage o);;
  mret newanon.

Definition anon_release (anon : Z) : M vm_state unit :=
  a ← get_anon anon;
  mmodify (set_anon anon (Anon (s24 (an_refcnt a - 1)) (resident a) (physpage a)));;
  if 0 <? s24 (an_refcnt a - 1) then mret () else
  if negb (resident a) then fatal "anon_release: doesn't support swapped-out anons yet" else
  on_pstate (vm_page_free (Some (physpage a)));;
  kmem_free anon sizeof_vm_anon.

(** ** Anonymous maps *)

(** [amap_anon_at]: make the slot of a page exist.  The slot itself is read and
    written by [amap_slot] and [amap_set_slot]. *)
Definition amap_anon_at (amap page : Z) : M vm_state unit :=
  let minnchunk := page / kAMapChunkNPages + 1 in
  let chunk := page / kAMapChunkNPages in
  a ← get_amap amap;
  let cur := Z.of_nat (length (chunks a)) in
  (if cur <? minnchunk then
     (* kmem_realloc *)
     arr ← kmem_alloc (minnchunk * 8);
     mwhen (negb (am_array a =? 0)) (
       massert (0 <? cur * 8) "assert(oldSize > 0)";;
       massert (cur * 8 <? minnchunk * 8) "assert(size > oldSize)";;
       kmem_free (am_array a) (cur * 8));;
     mmodify (set_amap amap (Amap arr (chunks a ++ replicate (Z.to_nat (minnchunk - cur)) None)))
   else mret ());;
  a ← get_amap amap;
  c ← deref (chunks a !! Z.to_nat chunk) "amap->chunks[chunk]";
  match c with
  | Some _ => mret ()
  | None =>
      p ← kmem_alloc sizeof_vm_amap_chunk;
      mmodify (set_amap amap (Amap (am_array a)
        (<[Z.to_nat chunk := Some (Chunk p (replicate (Z.to_nat kAMapChunkNPages) None))]> (chunks a))))
  end.

Definition slot_of (a : vm_amap) (page : Z) : option (option Z) :=
  c ← chunks a !! Z.to_nat (page / kAMapChunkNPages);
  c ← c;
  ck_anon c !! Z.to_nat (page mod kAMapChunkNPages).

Definition with_slot (page : Z) (v : option Z) (a : vm_amap) : vm_amap :=
  Amap (am_array a) (alter (fmap (λ c, Chunk (ck_addr c)
    (<[Z.to_nat (page mod kAMapChunkNPages) := v]> (ck_anon c)))) (Z.to_nat (page / kAMapChunkNPages)) (chunks a)).

Definition amap_slot (amap page : Z) : M vm_state (option Z) :=
  a ← get_amap amap; deref (slot_of a page) "slot".
Definition amap_set_slot (amap page : Z) (v : option Z) : M vm_state unit :=
  a ← get_amap amap;
  deref (slot_of a page) "slot";;
  mmodify (set_amap amap (with_slot page v a)).

(** The anon of a slot gets one more reference, and its mappings become read-only. *)
Definition share_slot (anon : option Z) : M vm_state unit :=
  match anon with
  | None => mret ()
  | Some an =>
      a ← get_anon an;
      mmodify (set_anon an (Anon (s24 (an_refcnt a + 1)) (resident a) (physpage a)));;
      pmap_reenter_all_readonly (physpage a)
  end.

Fixpoint copy_chunks (l : list (option vm_amap_chunk)) : M vm_state (list (option vm_amap_chunk)) :=
  match l with
  | [] => mret []
  | None :: l' => rest ← copy_chunks l'; mret (None :: rest)
  | Some c :: l' =>
      p ← kmem_alloc sizeof_vm_amap_chunk;
      mfor (ck_anon c) share_slot;;
      rest ← copy_chunks l';
      mret (Some (Chunk p (ck_anon c)) :: rest)
  end.

Definition amap_copy (amap : Z) : M vm_state Z :=
  newamap ← kmem_alloc sizeof_vm_amap;
  a ← get_amap amap;
  arr ← kmem_alloc (8 * Z.of_nat (length (chunks a)));
  cs ← copy_chunks (chunks a);
  mmodify (set_amap newamap (Amap arr cs));;
  mret newamap.

Definition amap_release (amap : Z) : M vm_state unit :=
  a ← get_amap amap;
  mfor (chunks a) (λ c,
    match c with
    | None => mret ()
    | Some c =>
        mfor (ck_anon c) (λ an, match an with None => mret () | Some an => anon_release an end);;
        kmem_free (ck_addr c) sizeof_vm_amap_chunk
    end);;
  kmem_free amap sizeof_vm_amap.

(** ** Objects *)

Definition vm_aobj_new (size : Z) : M vm_state Z :=
  obj ← kmem_alloc sizeof_vm_object;
  amap ← kmem_alloc sizeof_vm_amap;
  mmodify (set_amap amap (Amap 0 []));;
  mmodify (set_object obj (Object 1 kVMObjAnon size amap None));;
  mret obj.

Definition vm_object_copy (obj : Z) : M vm_state Z :=
  newobj ← kmem_alloc sizeof_vm_object;
  o ← get_object obj;
  if decide (ob_type o = kVMObjAnon) then
    amap ← amap_copy (ob_amap o);
    mmodify (set_object newobj (Object 1 (ob_type o) (ob_size o) amap (ob_parent o)));;
    mret newobj
  else fatal "vm_object_copy: only implemented for anons as of yet".

Definition vm_object_retain (obj : Z) : M vm_state unit :=
  o ← get_object obj;
  mmodify (set_object obj (Object (ob_refcnt o + 1) (ob_type o) (ob_size o) (ob_amap o) (ob_parent o))).

Definition vm_object_release (obj : Z) : M vm_state unit :=
  o ← get_object obj;
  mmodify (set_object obj (Object (ob_refcnt o - 1) (ob_type o) (ob_size o) (ob_amap o) (ob_parent o)));;
  if 0 <? ob_refcnt o - 1 then mret () else
  (if decide (ob_type o = kVMObjAnon) then amap_release (ob_amap o)
   else fatal "vm_object_release: only implemented for anons");;
  kmem_free obj sizeof_vm_object.

(** ** Maps *)

Definition map_entry_for_addr (m : vm_map) (addr : Z) : option vm_map_entry :=
  List.find (λ e, (en_start e <=? addr) && (addr <? en_end e)) (entries m).

(** [pmap_unenter] of every page from [v] on, [n] of them. *)
Fixpoint unenter_pages (map v : Z) (n : nat) : M vm_state unit :=
  match n with
  | O => mret ()
  | S n' =>
      pmap_unenter map None v;;
      unenter_pages map (v + PGSIZE) n'
  end.

Definition unmap_entry (map : Z) (entry : vm_map_entry) : M vm_state unit :=
  m ← get_map map;
  r ← on_kernel (map_xfree (mp_vmem m) (en_start entry) (en_end entry - en_start entry));
  massert (0 <=? r) "assert(vmem_xfree(...) >= 0)";;
  unenter_pages map (en_start entry) (Z.to_nat ((en_end entry - en_start entry + PGSIZE - 1) / PGSIZE));;
  vm_object_release (en_obj entry);;
  m ← get_map map;
  mmodify (set_map map (Map (tq_remove en_addr (en_addr entry) (entries m)) (mp_vmem m) (mp_pml4 m)));;
  kmem_free (en_addr entry) sizeof_vm_map_entry.

(** The body of the loop of [vm_deallocate]. *)
Definition deallocate_entry (map start end_ : Z) (entry : vm_map_entry) : M vm_state unit :=
  if ((en_start entry <? start) && (en_end entry <=? start)) || (end_ <=? en_start entry) then mret ()
  else if (start <=? en_start entry) && (en_end entry <=? end_) then unmap_entry map entry
  else if (start <=? en_start entry) && (en_end entry <=? end_) then
    fatal "unimplemented deallocate right of vm object"
  else if (en_start entry <? start) && (en_end entry <? end_) then
    fatal "unimplemented other sort of deallocate"
  else mret ().

Definition vm_deallocate (map start size : Z) : M vm_state Z :=
  m ← get_map map;
  mfor (entries m) (deallocate_entry map start (w64 (start + size)));;
  mret 0.

(** The arena is a member of the map. *)
Definition vmem_of (newmap : Z) : Z := newmap + 56.

Definition vm_map_new : M vm_state Z :=
  newmap ← kmem_alloc sizeof_vm_map;
  pml4 ← pmap_new;
  mmodify (set_map newmap (Map [] (vmem_of newmap) pml4));;
  on_kernel (vmem_init (vmem_of newmap) "task map" USER_BASE USER_SIZE PGSIZE
    0 0 0 0);;
  mret newmap.

Definition vm_map_release (map : Z) : M vm_state unit :=
  vm_deallocate map USER_BASE USER_SIZE;;
  m ← get_map map;
  on_kernel (vmem_destroy (mp_vmem m));;
  on_pstate (pmap_free (mp_pml4 m));;
  kmem_free map sizeof_vm_map.

(** Returns the error, and what [*vaddrp] is afterwards. *)
Definition vm_map_object (map obj vaddr size offset : Z) (copy : bool) : M vm_state (Z * Z) :=
  let exact := negb (vaddr =? VADDR_MAX) in
  let addr := if vaddr =? VADDR_MAX then 0 else vaddr in
  massert (Z.land size (PGSIZE - 1) =? 0) "assert((size & (PGSIZE - 1)) == 0)";;
  obj ← (if copy then vm_object_copy obj else vm_object_retain obj;; mret obj);
  m ← get_map map;
  '(r, out) ← on_kernel (map_xalloc (mp_vmem m) size (if exact then addr else 0)
                           (if exact then kVMemExact else 0));
  if r <? 0 then mret (r, vaddr) else
  entry ← kmem_alloc sizeof_vm_map_entry;
  let addr := default addr out in
  m ← get_map map;
  mmodify (set_map map (Map (entries m ++ [Entry entry addr (addr + size) offset obj]) (mp_vmem m) (mp_pml4 m)));;
  mret (r, addr).

(** Returns the error and what [*vaddrp] and [*out] are afterwards. *)
Definition vm_allocate (map vaddr size : Z) : M vm_state (Z * Z * option Z) :=
  massert (Z.land size (PGSIZE - 1) =? 0) "assert((size & (PGSIZE - 1)) == 0)";;
  obj ← vm_aobj_new size;
  '(r, vaddr) ← vm_map_object map obj vaddr size 0 false;
  vm_object_release obj;;
  mret (0, vaddr, if r <? 0 then None else Some obj).

(** The body of the loop of [vm_map_fork]. *)
Definition fork_entry (newmap : Z) (ent : vm_map_entry) : M vm_state unit :=
  o ← get_object (en_obj ent);
  (if decide (ob_type o = kVMObjAnon) then mret () else fatal "vm_map_fork: only handles anon objects");;
  newobj ← vm_object_copy (en_obj ent);
  '(r, _) ← vm_map_object newmap newobj (en_start ent) (en_end ent - en_start ent) (en_offset ent) false;
  massert (r =? 0) "assert(r == 0)";;
  vm_object_release newobj.

(** [kmap] is the address of the kernel map. *)
Definition vm_map_fork (kmap map : Z) : M vm_state Z :=
  newmap ← vm_map_new;
  if map =? kmap then mret newmap else
  m ← get_map map;
  mfor (entries m) (fork_entry newmap);;
  mret newmap.

(** ** Faults *)

(** A fault on a page that has an anon, in the slot for page [page] of [amap]. *)
Definition fault_anon (map amap page anon vaddr flags : Z) : M vm_state Z :=
  a ← get_anon anon;
  let present := has_flag flags kVMFaultPresent in
  let write := has_flag flags kVMFaultWrite in
  if negb (resident a) then
    massert (negb present) "assert(!(flags & kVMFaultPresent))";;
    mret (-1)
  else if 1 <? an_refcnt a then
    if write then
      mmodify (set_anon anon (Anon (s24 (an_refcnt a - 1)) (resident a) (physpage a)));;
      new ← anon_copy anon;
      amap_set_slot amap page (Some new);;
      mwhen present (pmap_unenter map (Some (physpage a)) vaddr);;
      n ← get_anon new;
      pmap_enter map (physpage n) vaddr kVMAll;;
      mret 0
    else
      massert (negb present) "assert(!(flags & kVMFaultPresent))";;
      pmap_enter map (physpage a) vaddr (Z.lor kVMRead kVMExecute);;
      mret 0
  else if present then
    massert write "assert(flags & kVMFaultWrite)";;
    pmap_reenter map (physpage a) vaddr kVMAll;;
    mret 0
  else
    pmap_enter map (physpage a) vaddr kVMAll;;
    mret 0.

Definition fault_aobj (map aobj vaddr voff flags : Z) : M vm_state Z :=
  o ← get_object aobj;
  amap_anon_at (ob_amap o) (voff / PGSIZE);;
  slot ← amap_slot (ob_amap o) (voff / PGSIZE);
  match slot with
  | Some anon => fault_anon map (ob_amap o) (voff / PGSIZE) anon vaddr flags
  | None =>
      match ob_parent o with
      | Some _ => mret (-1)
      | None =>
          anon ← anon_new;
          amap_set_slot (ob_amap o) (voff / PGSIZE) (Some anon);;
          a ← get_anon anon;
          pmap_enter map (physpage a) vaddr kVMAll;;
          mret 0
      end
  end.

Definition vm_fault (kmap map vaddr flags : Z) : M vm_state Z :=
  s ← mget;
  if in_pagefault s then fatal "Nested page fault" else
  mmodify (set_in_pagefault true);;
  let map := if KHEAP_BASE <=? vaddr then kmap else map in
  m ← get_map map;
  r ← (match map_entry_for_addr m vaddr with
       | None => mret (-1)
       | Some ent =>
           let vaddr := PGROUNDDOWN vaddr in
           o ← get_object (en_obj ent);
           if decide (ob_type o = kVMObjAnon) then
             fault_aobj map (en_obj ent) vaddr (w64 (vaddr - en_start ent + en_offset ent)) flags
           else mret (-1)
       end);
  mmodify (set_in_pagefault false);;
  mret r.
End vm.
Arguments vm_state K : clear implicits.
