(* ===== verification/VmProps.v ===== *)
(** * Page faults and copy-on-write, verified

    What a first touch, a write to a shared page and a copy of an object do to the
    memory a process sees.  The page tables of one map are followed; the heap
    is the interface of Heap. *)

From S2P Require Import Prelude Vmem VmPage Pmap PmapProps PmapKernel PageAlloc VmKernel VmKernelProps Heap Kmem KmemHeap Vm.
Open Scope Z_scope.

Section props.
Context {K : Type} `{!KernelHeap K}.
Implicit Types (s : vm_state K) (h : K).

(** ** Parts of the state *)

Definition pages_of h : pstate := (kernel_of h).2.
Definition ps s : pstate := pages_of (heap s).
Definition with_pages (p : pstate) h : K := with_kernel ((kernel_of h).1, p) h.
Definition free_pages (p : pstate) : nat := length (pq_list (queues p pgfreeq)).

(** The arenas and the tag pool. *)
Definition arenas_of h : vstate := (kernel_of h).1.
Lemma arenas_of_with p h : arenas_of (with_pages p h) = arenas_of h.
Proof. unfold arenas_of, with_pages. by rewrite kernel_of_with. Qed.
Lemma pages_of_with p h : pages_of (with_pages p h) = p.
Proof. unfold pages_of, with_pages. by rewrite kernel_of_with. Qed.
Lemma ready_with n p h : heap_ready n (with_pages p h) ↔ heap_ready n h.
Proof. apply heap_ready_with. Qed.
Lemma live_with p h q z : heap_live (with_pages p h) q z ↔ heap_live h q z.
Proof. apply heap_live_with. Qed.

Lemma get_anon_ok s a x : anons s !! a = Some x → get_anon a s = Ok (x, s).
Proof. intros E. unfold get_anon. by rewrite E. Qed.
Lemma get_amap_ok s a x : amaps s !! a = Some x → get_amap a s = Ok (x, s).
Proof. intros E. unfold get_amap. by rewrite E. Qed.
Lemma get_object_ok s a x : objects s !! a = Some x → get_object a s = Ok (x, s).
Proof. intros E. unfold get_object. by rewrite E. Qed.
Lemma get_map_ok s a x : maps s !! a = Some x → get_map a s = Ok (x, s).
Proof. intros E. unfold get_map. by rewrite E. Qed.

Lemma on_pstate_run {A} (m : M pstate A) s a p :
  m (ps s) = Ok (a, p) → on_pstate m s = Ok (a, set_heap (with_pages p (heap s)) s).
Proof.
  unfold ps, pages_of. intros E. unfold on_pstate, on_kernel, on_pages.
  destruct (kernel_of (heap s)) as [vs q] eqn:Ek. simpl in *. rewrite E. unfold with_pages. by rewrite Ek.
Qed.

Lemma kmem_alloc_run n size s :
  heap_ready (S n) (heap s) → 0 < size ≤ 256 →
  ∃ p h, kmem_alloc size s = Ok (p, set_heap h s) ∧ pages_of h = ps s ∧ heap_ready n h ∧
    (∀ z, ¬ heap_live (heap s) p z) ∧ heap_live h p size ∧
    ∀ q z, heap_live (heap s) q z → heap_live h q z.
Proof.
  intros Hr Hs. destruct (heap_alloc_spec n size (heap s) Hr Hs) as (p & h & Ha & Hk & Hr' & Hf & Hp & Hl).
  exists p, h. unfold kmem_alloc, on_heap. rewrite Ha. split_and!; try done.
  unfold ps, pages_of. by rewrite Hk.
Qed.

Lemma kmem_alloc_arenas n size s p h :
  heap_ready (S n) (heap s) → 0 < size ≤ 256 → kmem_alloc size s = Ok (p, set_heap h s) → arenas_of h = arenas_of (heap s).
Proof.
  intros Hr Hs Ha. destruct (heap_alloc_spec n size (heap s) Hr Hs) as (q & h' & Hq & Hk & _).
  unfold kmem_alloc, on_heap in Ha. rewrite Hq in Ha. injection Ha as -> <-. unfold arenas_of. by rewrite Hk.
Qed.

Lemma kmem_free_arenas n p size s h :
  heap_ready n (heap s) → heap_live (heap s) p size → kmem_free p size s = Ok ((), set_heap h s) → arenas_of h = arenas_of (heap s).
Proof.
  intros Hn Hl Ha. destruct (heap_free_spec n p size (heap s) Hn Hl) as (h' & Hq & Hk & _).
  unfold kmem_free, on_heap in Ha. rewrite Hq in Ha. injection Ha as <-. unfold arenas_of. by rewrite Hk.
Qed.

Lemma kmem_free_run n p size s :
  heap_ready n (heap s) → heap_live (heap s) p size →
  ∃ h, kmem_free p size s = Ok ((), set_heap h s) ∧ pages_of h = ps s ∧
    (∀ m, heap_ready m (heap s) → heap_ready m h) ∧
    ∀ q z, heap_live (heap s) q z → q ≠ p → heap_live h q z.
Proof.
  intros Hn Hl. destruct (heap_free_spec n p size (heap s) Hn Hl) as (h & Ha & Hk & Hr & Hl').
  exists h. unfold kmem_free, on_heap. rewrite Ha. split_and!; try done.
  unfold ps, pages_of. by rewrite Hk.
Qed.

(** ** Entering a page *)

Lemma pt_ok_pv root p page l : pt_ok root p → pt_ok root (set_pv page l p).
Proof. intros [[Q1 Q2] H1 H2 H3]. split; try done. Qed.

Definition pte_at (p : pstate) (root virt : Z) : option Z :=
  t ← table_at (phys p) root (path3 virt); Some (entry (phys p) t (pti virt)).

Lemma pte_translate p root virt page prot :
  page_addr page → has_flag prot kVMRead = true →
  pte_at p root virt = Some (pte_value page (vm_prot_to_i386 prot)) →
  translate (phys p) root virt = page + pgi virt.
Proof.
  intros Hpa Hpr He. unfold pte_at in He. unfold translate.
  destruct (table_at (phys p) root (path3 virt)) as [t|]; [|done]. injection He as ->.
  change kMMUPresent with (2^0). rewrite has_flag_value by lia. change (2^0) with kMMUPresent.
  rewrite prot_present, Hpr. f_equal. apply pte_get_addr_value; [done|apply prot_range].
Qed.

(** What is left of the pages after [virt] has been entered. *)
Record entered (root virt page prot : Z) (p p' : pstate) : Prop := {
  et_ok : pt_ok root p';
  et_pte : pte_at p' root virt = Some (pte_value page (vm_prot_to_i386 prot));
  et_free : (free_pages p ≤ 3 + free_pages p')%nat;
  et_queue q x : q ≠ pgfreeq → on_queue p q x → on_queue p' q x;
  et_bytes a : untouched root p a → phys p' a = phys p a ∧ untouched root p' a;
  et_other w : vpage w ≠ vpage virt → pte_of (phys p') root w = pte_of (phys p) root w;
}.

Lemma pmap_enter_kern_entered root p page virt prot :
  pt_ok root p → (3 ≤ free_pages p)%nat → page_addr page →
  ∃ p', pmap_enter_kern root page virt prot p = Ok ((), p') ∧ entered root virt page prot p p' ∧
    pv_table p' = pv_table p.
Proof.
  intros Hok Hf Hpa.
  destruct (enter_run root p page virt prot Hok Hf Hpa)
    as (t & p' & Hrun & Hok' & Ht & He & _ & Hq & Hlen & [Hb Hpv] & Htr).
  exists p'. split; [done|]. split; [|done]. split; try done. unfold pte_at. by rewrite Ht, <-He.
Qed.

Lemma pmap_enter_run n s map m page virt prot :
  heap_ready (S n) (heap s) → maps s !! map = Some m → pt_ok (mp_pml4 m) (ps s) →
  (3 ≤ free_pages (ps s))%nat → page_addr page →
  ∃ ent h, pmap_enter map page virt prot s = Ok ((), set_heap h s) ∧ heap_ready n h ∧ arenas_of h = arenas_of (heap s) ∧
    entered (mp_pml4 m) virt page prot (ps s) (pages_of h) ∧
    (∀ q, pv_table (pages_of h) q =
       if q =? page then PV ent map virt :: pv_table (ps s) page else pv_table (ps s) q) ∧
    (∀ z, ¬ heap_live (heap s) ent z) ∧ heap_live h ent sizeof_pv_entry ∧
    ∀ q z, heap_live (heap s) q z → heap_live h q z.
Proof.
  intros Hr Hm Hok Hf Hpa.
  destruct (kmem_alloc_run n sizeof_pv_entry s Hr ltac:(unfold sizeof_pv_entry; lia)) as (ent & h & Ha & Hp & Hr' & Hfr & Hlive & Hl).
  pose proof (kmem_alloc_arenas n sizeof_pv_entry s ent h Hr ltac:(unfold sizeof_pv_entry; lia) Ha) as Hvs.
  unfold pmap_enter. rewrite (bind_step _ _ _ _ _ Ha).
  rewrite (bind_step _ _ _ _ _ (get_map_ok (set_heap h s) map m Hm)).
  destruct (pmap_enter_kern_entered (mp_pml4 m) (ps s) page virt prot Hok Hf Hpa) as (p' & Hrun & He & Hpv).
  rewrite <-Hp in Hrun. change (pages_of h) with (ps (set_heap h s)) in Hrun.
  rewrite (bind_step _ _ _ _ _ (on_pstate_run _ _ _ _ Hrun)).
  erewrite on_pstate_run by reflexivity. unfold ps. simpl. rewrite pages_of_with.
  exists ent. eexists. split; [reflexivity|]. split_and!.
  - by rewrite !ready_with.
  - by rewrite !arenas_of_with.
  - rewrite pages_of_with. destruct He. split; try done. by apply pt_ok_pv.
  - intros q. rewrite pages_of_with. simpl. by rewrite Hpv.
  - done.
  - by rewrite !live_with.
  - intros q z Hq. rewrite !live_with. by apply Hl.
Qed.
(** ** A new anon *)

(** The state with a new anon [an] of page [page]. *)
Definition with_new_anon (an page : Z) h s : vm_state K :=
  Vm h (<[an := Anon 1 true page]> (anons s)) (amaps s) (objects s) (maps s)
    (<[page := an]> (page_anon s)) (in_pagefault s).

(** [page] has come from the free queue and holds [c]. *)
Record page_new (root page : Z) (c : Z → Z) (p p' : pstate) : Prop := {
  pn_ok : pt_ok root p';
  pn_addr : page_addr page;
  pn_was : on_queue p pgfreeq page;
  pn_queue : on_queue p' pgactiveq page;
  pn_free : free_pages p = S (free_pages p');
  pn_queues q x : q ≠ pgfreeq → on_queue p q x → on_queue p' q x;
  pn_new a : inside page a → phys p' a = c (a - page) ∧ untouched root p' a;
  pn_bytes a : untouched root p a → phys p' a = phys p a ∧ untouched root p' a;
  pn_pv : pv_table p' = pv_table p;
  pn_pte v : pte_at p' root v = pte_at p root v;
  pn_translate v : translate (phys p') root v = translate (phys p) root v;
}.

Lemma anon_new_run n s root :
  heap_ready (S n) (heap s) → pt_ok root (ps s) → (1 ≤ free_pages (ps s))%nat →
  ∃ an page h, anon_new s = Ok (an, with_new_anon an page h s) ∧ heap_ready n h ∧ arenas_of h = arenas_of (heap s) ∧
    (∀ z, ¬ heap_live (heap s) an z) ∧ page_new root page (λ _, 0) (ps s) (pages_of h) ∧
    heap_live h an sizeof_vm_anon ∧ ∀ q z, heap_live (heap s) q z → heap_live h q z.
Proof.
  intros Hr Hok Hf.
  destruct (kmem_alloc_run n sizeof_vm_anon s Hr ltac:(unfold sizeof_vm_anon; lia)) as (an & h & Ha & Hp & Hr' & Hfr & Hlive & Hl).
  pose proof (kmem_alloc_arenas n sizeof_vm_anon s an h Hr ltac:(unfold sizeof_vm_anon; lia) Ha) as Hvs.
  destruct (free_cons (ps s) 0 Hf) as (page & rest & Hq & _).
  destruct (pagealloc_tables root (ps s) true pgactiveq page rest Hok ltac:(done) Hq)
    as (p' & Hrun & Hok' & Hact & Hrest & Hqs & [Hb Hpv] & Hz & He & Htab & Htr).
  assert (on_queue (ps s) pgfreeq page) as Hpf by (unfold on_queue; rewrite Hq; left).
  unfold anon_new. rewrite (bind_step _ _ _ _ _ Ha).
  rewrite <-Hp in Hrun. change (pages_of h) with (ps (set_heap h s)) in Hrun.
  rewrite (bind_step _ _ _ _ _ (on_pstate_run _ _ _ _ Hrun)).
  exists an, page, (with_pages p' h). split; [reflexivity|]. split_and!.
  - by apply ready_with.
  - by rewrite arenas_of_with.
  - exact Hfr.
  - rewrite pages_of_with. split; try done; [by apply (pt_free _ _ Hok)| |].
    + unfold free_pages. by rewrite Hq, Hrest.
    + intros v. unfold pte_at. rewrite Htab by apply path3_ok.
      destruct (table_at _ root (path3 v)) as [t|] eqn:E; [|done]. simpl. f_equal.
      eapply He; [apply path3_ok|done|apply land511].
  - by rewrite live_with.
  - intros q z Hz0. rewrite live_with. by apply Hl.
Qed.
(** ** The slots of an anonymous map *)

Definition slot (a : vm_amap) (q : Z) : option Z := default None (slot_of a q).

Record amap_ok s (a : vm_amap) : Prop := {
  ao_chunks i c : chunks a !! i = Some (Some c) → length (ck_anon c) = 32%nat;
  ao_array : am_array a ≠ 0 → chunks a ≠ [] ∧
    heap_live (heap s) (am_array a) (8 * Z.of_nat (length (chunks a))) ∧ anons s !! am_array a = None;
}.
(** The array of chunk pointers may have been replaced; nothing else goes. *)
Record grown s (a a' : vm_amap) h : Prop := {
  gr_live q z : heap_live (heap s) q z → (am_array a ≠ 0 → q ≠ am_array a) → heap_live h q z;
  gr_arenas : arenas_of h = arenas_of (heap s);
  gr_array : am_array a' = am_array a ∨ ∀ z, ¬ heap_live (heap s) (am_array a') z;
}.
Definition anons_live s : Prop := ∀ b x, anons s !! b = Some x → heap_live (heap s) b sizeof_vm_anon.

Lemma set_amap_id am a s : amaps s !! am = Some a → set_amap am a s = s.
Proof. intros E. unfold set_amap. destruct s as [h an ams ob mp pa b]. simpl in *. by rewrite insert_id. Qed.

Lemma slot_grow arr a k q : slot (Amap arr (chunks a ++ replicate k None)) q = slot a q.
Proof.
  unfold slot, slot_of. simpl. destruct (chunks a !! Z.to_nat (q / kAMapChunkNPages)) as [c|] eqn:E.
  - by rewrite (lookup_app_l_Some _ _ _ _ E).
  - destruct ((chunks a ++ replicate k None) !! Z.to_nat (q / kAMapChunkNPages)) as [c|] eqn:E2; [|done].
    rewrite lookup_app_r in E2 by by apply lookup_ge_None.
    apply lookup_replicate in E2 as [-> _]. done.
Qed.

Lemma slot_fill arr a i p q :
  chunks a !! i = Some None →
  slot (Amap arr (<[i := Some (Chunk p (replicate 32 None))]> (chunks a))) q = slot a q.
Proof.
  intros Hi. unfold slot, slot_of. cbn [chunks]. destruct (decide (i = Z.to_nat (q / kAMapChunkNPages))) as [->|].
  - rewrite list_lookup_insert_eq by (by eapply lookup_lt_Some). rewrite Hi.
    assert (∀ j o, replicate 32 (@None Z) !! j = Some o → o = None) as Hn by (by intros j o [-> _]%lookup_replicate).
    revert Hn. generalize (replicate 32 (@None Z)). intros l Hn. simpl.
    destruct (l !! Z.to_nat (q mod kAMapChunkNPages)) eqn:E; [by apply Hn in E as ->|done].
  - by rewrite list_lookup_insert_ne.
Qed.

(** The array of chunk pointers is made long enough for [chunk]. *)
Lemma amap_grow_run n s am a (chunk : nat) :
  amaps s !! am = Some a → amap_ok s a → anons_live s → heap_ready (S n) (heap s) → (chunk < 32)%nat →
  ∃ a' h, (if Z.of_nat (length (chunks a)) <? Z.of_nat chunk + 1 then
       arr ← kmem_alloc ((Z.of_nat chunk + 1) * 8);
       mwhen (negb (am_array a =? 0)) (
         massert (0 <? Z.of_nat (length (chunks a)) * 8) "assert(oldSize > 0)";;
         massert (Z.of_nat (length (chunks a)) * 8 <? (Z.of_nat chunk + 1) * 8) "assert(size > oldSize)";;
         kmem_free (am_array a) (Z.of_nat (length (chunks a)) * 8));;
       mmodify (set_amap am (Amap arr (chunks a ++
         replicate (Z.to_nat (Z.of_nat chunk + 1 - Z.of_nat (length (chunks a)))) None)))
     else mret ()) s = Ok ((), set_amap am a' (set_heap h s)) ∧
    pages_of h = ps s ∧ heap_ready n h ∧ amap_ok (set_heap h s) a' ∧ anons_live (set_heap h s) ∧
    (chunk < length (chunks a'))%nat ∧ (∀ q, slot a' q = slot a q) ∧ grown s a a' h.
Proof.
  intros Ham Hok Hlive Hr Hc. destruct (Z.ltb_spec (Z.of_nat (length (chunks a))) (Z.of_nat chunk + 1)) as [Hlt|Hge].
  2: { exists a, (heap s). rewrite set_amap_id by done. destruct Hok. split; [by destruct s|].
       split_and!; try done; [by apply heap_ready_less|lia|]. split; [done|done|by left]. }
  destruct (kmem_alloc_run n ((Z.of_nat chunk + 1) * 8) s Hr ltac:(lia)) as (arr & h & Ha & Hp & Hr' & Hf & Hnew & Hl).
  pose proof (kmem_alloc_arenas n ((Z.of_nat chunk + 1) * 8) s arr h Hr ltac:(lia) Ha) as Hvs.
  set (a' := Amap arr (chunks a ++
    replicate (Z.to_nat (Z.of_nat chunk + 1 - Z.of_nat (length (chunks a)))) None)).
  assert (length (chunks a') = S chunk) as Hlen by (simpl; rewrite length_app, length_replicate; lia).
  assert (chunks a' ≠ []) as Hnil by (intros E; by rewrite E in Hlen).
  assert (∀ i c, chunks a' !! i = Some (Some c) → length (ck_anon c) = 32%nat) as Hck.
  { intros i c [Hi|[_ Hi]]%lookup_app_Some; [by apply (ao_chunks _ _ Hok i)|].
    by apply lookup_replicate in Hi as [? _]. }
  assert (anons s !! arr = None) as Harr.
  { destruct (anons s !! arr) as [x|] eqn:E; [|done]. by destruct (Hf sizeof_vm_anon (Hlive _ _ E)). }
  rewrite (bind_step _ _ _ _ _ Ha). destruct (Z.eqb_spec (am_array a) 0) as [_|Hne].
  - exists a', h. split; [done|]. split; [done|]. split; [done|].
    split; [split; [done|]|split; [|split; [lia|split; [apply slot_grow|split; [auto|done|by right]]]]].
    + intros _. split; [done|]. rewrite Hlen. split; [|done]. by replace (8 * Z.of_nat (S chunk)) with ((Z.of_nat chunk + 1) * 8) by lia.
    + intros b x Hb. apply Hl. by eapply Hlive.
  - destruct (ao_array _ _ Hok Hne) as (Hcs & Hal & Han).
    assert (0 < Z.of_nat (length (chunks a))) by (destruct (chunks a); [done|simpl; lia]).
    destruct (kmem_free_run n (am_array a) (Z.of_nat (length (chunks a)) * 8) (set_heap h s) Hr') as (h2 & Hfree & Hp2 & Hr2 & Hl2).
    { apply Hl. by rewrite Z.mul_comm. }
    pose proof (kmem_free_arenas n (am_array a) (Z.of_nat (length (chunks a)) * 8) (set_heap h s) h2 Hr' ltac:(apply Hl; by rewrite Z.mul_comm) Hfree) as Hvs2.
    assert (arr ≠ am_array a) as Hne2 by (intros ->; by apply (Hf _ Hal)).
    rewrite (proj2 (Z.ltb_lt _ _)) by lia. rewrite (proj2 (Z.ltb_lt _ _)) by lia.
    exists a', h2. cbn [negb mwhen]. split; [rewrite (bind_step _ _ (set_heap h s) () (set_heap h2 s)) by exact Hfree; done|].
    split; [unfold ps in Hp2; simpl in Hp2; congruence|]. split; [by apply Hr2|].
    split; [split; [done|]|split; [|split; [lia|split; [apply slot_grow|split; [| |by right]]]]].
    + intros _. split; [done|]. rewrite Hlen. split; [|done]. apply Hl2; [|done]. simpl.
      by replace (8 * Z.of_nat (S chunk)) with ((Z.of_nat chunk + 1) * 8) by lia.
    + intros b x Hb. apply Hl2; [|intros ->; simpl in Hb; congruence]. apply Hl. by eapply Hlive.
    + intros q z Hq Hqa. apply Hl2; [by apply Hl|by apply Hqa].
    + by rewrite Hvs2.
Qed.
Lemma slot_of_some s a page c :
  amap_ok s a → chunks a !! Z.to_nat (page / kAMapChunkNPages) = Some (Some c) →
  slot_of a page = Some (slot a page).
Proof.
  intros Hok Hc. unfold slot. unfold slot_of. rewrite Hc. simpl.
  destruct (lookup_lt_is_Some_2 (ck_anon c) (Z.to_nat (page mod kAMapChunkNPages))) as [o E]; [|by rewrite E].
  rewrite (ao_chunks _ _ Hok _ _ Hc). unfold kAMapChunkNPages. Z.div_mod_to_equations. lia.
Qed.

(** [amap_anon_at] makes the slot of a page exist and changes none. *)
Lemma amap_anon_at_run n s am a page :
  amaps s !! am = Some a → amap_ok s a → anons_live s → heap_ready (S (S n)) (heap s) → 0 ≤ page < 1024 →
  ∃ a' h, amap_anon_at am page s = Ok ((), set_amap am a' (set_heap h s)) ∧
    pages_of h = ps s ∧ heap_ready n h ∧ amap_ok (set_heap h s) a' ∧ anons_live (set_heap h s) ∧
    slot_of a' page = Some (slot a page) ∧ (∀ q, slot a' q = slot a q) ∧ grown s a a' h.
Proof.
  intros Ham Hok Hlive Hr Hp. set (chunk := Z.to_nat (page / kAMapChunkNPages)).
  assert (page / kAMapChunkNPages = Z.of_nat chunk) as Ec.
  { unfold chunk. rewrite Z2Nat.id; [done|]. apply Z.div_pos; [lia|done]. }
  assert (chunk < 32)%nat as Hc by (unfold kAMapChunkNPages in Ec; Z.div_mod_to_equations; lia).
  destruct (amap_grow_run (S n) s am a chunk Ham Hok Hlive Hr Hc)
    as (a1 & h1 & Hrun & Hp1 & Hr1 & Hok1 & Hl1 & Hlen & Hslot & Hg).
  unfold amap_anon_at. cbv zeta. rewrite Ec. rewrite (bind_step _ _ _ _ _ (get_amap_ok s am a Ham)).
  rewrite (bind_step _ _ _ _ _ Hrun). rewrite (bind_step _ _ _ _ _ (get_amap_ok _ am a1 (lookup_insert_eq _ _ _))).
  destruct (lookup_lt_is_Some_2 _ _ Hlen) as [c Hc1]. rewrite Nat2Z.id, Hc1, deref_bind.
  destruct c as [c|].
  - exists a1, h1. split_and!; try done; [by apply heap_ready_less| |by apply Hok1..].
    rewrite <-Hslot. by eapply slot_of_some.
  - destruct (kmem_alloc_run n sizeof_vm_amap_chunk (set_amap am a1 (set_heap h1 s)) Hr1) as (p & h2 & Ha & Hp2 & Hr2 & _ & _ & Hl2);
      [unfold sizeof_vm_amap_chunk; lia|].
    rewrite (bind_step _ _ _ _ _ Ha).
    pose proof (kmem_alloc_arenas n sizeof_vm_amap_chunk (set_amap am a1 (set_heap h1 s)) p h2 Hr1 ltac:(unfold sizeof_vm_amap_chunk; lia) Ha) as Hvs.
    set (a2 := Amap (am_array a1) (<[chunk := Some (Chunk p (replicate 32 None))]> (chunks a1))).
    assert (amap_ok (set_heap h2 s) a2) as Hok2.
    { destruct Hok1 as [C1 C2]. split.
      - intros i c [(-> & [= <-] & _)|[_ Hi]]%list_lookup_insert_Some; [done|by apply (C1 i)].
      - intros Hne. simpl in Hne. destruct (C2 Hne) as (N & L & F). split; [|split; [|done]].
        + simpl. intros E. apply (f_equal length) in E. rewrite length_insert in E. simpl in E. lia.
        + simpl. rewrite length_insert. by apply Hl2. }
    exists a2, h2. split.
    { unfold mmodify. f_equal. f_equal. unfold set_amap. simpl. by rewrite insert_insert_eq. }
    assert (∀ q, slot a2 q = slot a q) as Hs2 by (intros q; rewrite <-Hslot; by apply slot_fill).
    split_and!; try done; [by rewrite Hp2|by apply Hok2..| | |].
    3: { destruct Hg as [G1 G2 G3]. split; [|by rewrite Hvs|done]. intros q z Hq Hqa. by apply Hl2, G1. }
    + intros b x Hb. apply Hl2. by apply (Hl1 b x).
    + rewrite <-Hs2. eapply slot_of_some; [done|]. fold chunk. simpl.
      by rewrite list_lookup_insert_eq.
Qed.
Lemma slot_with s a page o v q :
  amap_ok s a → slot_of a page = Some o → 0 ≤ page → 0 ≤ q →
  slot (with_slot page v a) q = if q =? page then v else slot a q.
Proof.
  intros Hok Ho Hp Hq. unfold slot_of in Ho.
  destruct (chunks a !! Z.to_nat (page / kAMapChunkNPages)) as [[c|]|] eqn:Hc; [|done|done]. simpl in Ho.
  unfold slot, slot_of, with_slot. cbn [chunks].
  destruct (decide (q / kAMapChunkNPages = page / kAMapChunkNPages)) as [E|E].
  - rewrite E, list_lookup_alter_eq, Hc. simpl.
    destruct (Z.eqb_spec q page) as [->|Hne].
    + by rewrite list_lookup_insert_eq by (by eapply lookup_lt_Some).
    + rewrite list_lookup_insert_ne; [done|]. unfold kAMapChunkNPages in *. intros E2.
      Z.div_mod_to_equations. lia.
  - destruct (Z.eqb_spec q page) as [->|Hne]; [done|].
    rewrite list_lookup_alter_ne; [done|]. unfold kAMapChunkNPages in *. Z.div_mod_to_equations. lia.
Qed.

Lemma amap_set_slot_run s am a page o v :
  amaps s !! am = Some a → slot_of a page = Some o →
  amap_set_slot am page v s = Ok ((), set_amap am (with_slot page v a) s).
Proof.
  intros Ha Ho. unfold amap_set_slot. by rewrite (bind_step _ _ _ _ _ (get_amap_ok _ _ _ Ha)), Ho.
Qed.

(** ** Pages outside the tables *)

(** Writing pages that are in use and no tables changes no translation. *)
Lemma tables_frame root p m' :
  (∀ a, ¬ untouched root p a → m' a = phys p a) → pt_ok root p →
  let p' := set_phys (λ _, m') p in
  pt_ok root p' ∧ (∀ v, pte_at p' root v = pte_at p root v) ∧
  (∀ v, translate m' root v = translate (phys p) root v) ∧ ∀ a, untouched root p a → untouched root p' a.
Proof.
  intros Hm Hok p'.
  destruct (tables_kept root p m' Hm Hok) as (F1 & Ht & F3 & F4). split; [done|]. split; [|done].
  intros v. unfold pte_at. simpl. rewrite Ht by apply path3_ok.
  destruct (table_at (phys p) root (path3 v)) as [x|] eqn:E; [|done]. simpl. f_equal.
  eapply entry_frame; [done|apply path3_ok|done|apply land511].
Qed.

(** [vpage] is all that the tables look at. *)
Lemma vpage_round v : 0 ≤ v < 2^64 → vpage (PGROUNDDOWN v) = vpage v.
Proof.
  intros Hv. rewrite PGROUNDDOWN_eq by done. unfold vpage, path3, pml4i, pdpti, pdi, pti.
  rewrite !Z.shiftr_div_pow2 by lia.
  assert (∀ k, 12 ≤ k → v / 4096 * 4096 / 2^k = v / 2^k) as E.
  { intros k Hk. replace (2^k) with (4096 * 2^(k-12)) by (change 4096 with (2^12); rewrite <-Z.pow_add_r by lia; f_equal; lia).
    rewrite <-!Z.div_div by (try apply Z.pow_nonneg; try (apply Z.pow_pos_nonneg); lia).
    by rewrite Z.div_mul. }
  by rewrite !E by lia.
Qed.
Lemma pte_at_vpage p root v w : vpage v = vpage w → pte_at p root v = pte_at p root w.
Proof.
  intros E. pose proof (f_equal fst E) as E1. pose proof (f_equal snd E) as E2. simpl in E1, E2.
  unfold pte_at. by rewrite E1, E2.
Qed.
(** [anon_copy]: a new anon with the bytes of the old one. *)
Lemma anon_copy_run n s root an x :
  heap_ready (S n) (heap s) → pt_ok root (ps s) → (1 ≤ free_pages (ps s))%nat → anons_live s →
  anons s !! an = Some x → own_page root (ps s) (physpage x) →
  ∃ new page h, anon_copy an s = Ok (new, with_new_anon new page h s) ∧ heap_ready n h ∧ arenas_of h = arenas_of (heap s) ∧
    (∀ z, ¬ heap_live (heap s) new z) ∧
    page_new root page (λ i, phys (ps s) (physpage x + i)) (ps s) (pages_of h) ∧
    heap_live h new sizeof_vm_anon ∧ ∀ q z, heap_live (heap s) q z → heap_live h q z.
Proof.
  intros Hr Hok Hf Hlive Hx [Hxa Hxu].
  destruct (anon_new_run n s root Hr Hok Hf) as (new & page & h & Hnew & Hr' & Hvs & Hfr & Hpn & Hln & Hl).
  assert (new ≠ an) as Hne by (intros ->; by apply (Hfr sizeof_vm_anon), (Hlive an x)).
  set (m' := mem_copy page (physpage x) PGSIZE (phys (pages_of h))).
  assert (∀ a, ¬ inside page a → m' a = phys (pages_of h) a) as Hout.
  { intros a Ha. unfold m', mem_copy. unfold inside in Ha. by rewrite in_range_false by lia. }
  destruct Hpn as [P1 P2 P3 P4 P5 P6 P7 P8 P9 P10 P11].
  destruct (tables_frame root (pages_of h) m') as (F1 & F2 & F3 & F4); [|exact P1|].
  { intros a Ha. apply Hout. intros Hin. apply Ha, (P7 a Hin). }
  exists new, page, (with_pages (set_phys (λ _, m') (pages_of h)) h). split.
  { unfold anon_copy. rewrite (bind_step _ _ _ _ _ Hnew).
    rewrite (bind_step _ _ _ _ _ (get_anon_ok (with_new_anon new page h s) new _ (lookup_insert_eq _ _ _))).
    assert (anons (with_new_anon new page h s) !! an = Some x) as Hx2 by (simpl; by rewrite lookup_insert_ne).
    rewrite (bind_step _ _ _ _ _ (get_anon_ok _ _ _ Hx2)). cbn [physpage]. unfold copyphyspage.
    rewrite (bind_step _ _ _ () (set_heap (with_pages (set_phys (λ _, m') (pages_of h)) h) (with_new_anon new page h s)));
      [done|]. by erewrite on_pstate_run by reflexivity. }
  split; [by apply ready_with|]. split; [by rewrite arenas_of_with|]. split; [done|].
  split; [|split; [by rewrite live_with|intros q z Hq; rewrite live_with; by apply Hl]].
  rewrite pages_of_with. split; try done.
  - intros a Ha. destruct (P7 a Ha) as [_ Hu]. split; [|by apply F4]. simpl. unfold m', mem_copy.
    unfold inside in Ha. rewrite in_range_true by done. apply P8, Hxu. unfold inside. lia.
  - intros a Ha. destruct (P8 a Ha) as [<- Hu]. split; [|by apply F4]. apply Hout. intros Hin.
    destruct Ha as [Hfa _]. by apply (Hfa page).
  - intros v. simpl. by rewrite F2.
  - intros v. simpl. by rewrite F3.
Qed.

(** ** Removing a mapping *)

(** The pages after a mapping of [virt] may have been removed. *)
Record removed (root virt : Z) (p p' : pstate) : Prop := {
  rm_ok : pt_ok root p';
  rm_queues : queues p' = queues p;
  rm_bytes a : untouched root p a → phys p' a = phys p a ∧ untouched root p' a;
  rm_other w : vpage w ≠ vpage virt → pte_of (phys p') root w = pte_of (phys p) root w;
}.

Lemma untouched_pv root p page l a : untouched root (set_pv page l p) a ↔ untouched root p a.
Proof. done. Qed.

Lemma pmap_unenter_run n s map m page virt e pv l :
  heap_ready n (heap s) → maps s !! map = Some m → pt_ok (mp_pml4 m) (ps s) → pte_at (ps s) (mp_pml4 m) virt = Some e → e ≠ 0 →
  pv_remove map virt (pv_table (ps s) page) = Some (pv, l) → heap_live (heap s) (pv_addr pv) sizeof_pv_entry →
  ∃ h, pmap_unenter map (Some page) virt s = Ok ((), set_heap h s) ∧
    (∀ k, heap_ready k (heap s) → heap_ready k h) ∧ arenas_of h = arenas_of (heap s) ∧
    removed (mp_pml4 m) virt (ps s) (pages_of h) ∧ pte_at (pages_of h) (mp_pml4 m) virt = Some 0 ∧
    (∀ q, pv_table (pages_of h) q = if q =? page then l else pv_table (ps s) q) ∧
    ∀ q z, heap_live (heap s) q z → q ≠ pv_addr pv → heap_live h q z.
Proof.
  intros Hn Hm Hok He Hne Hpv Hlive. unfold pte_at in He.
  destruct (table_at (phys (ps s)) (mp_pml4 m) (path3 virt)) as [t|] eqn:Ht; [|done]. injection He as He.
  unfold pmap_unenter. rewrite (bind_step _ _ _ _ _ (get_map_ok _ _ _ Hm)).
  erewrite bind_step by (apply on_pstate_run, fully_descend_run; done).
  destruct (pt_table _ _ Hok _ _ (path3_ok virt) Ht) as [[Hpos _] _].
  pose proof (land511 (Z.shiftr virt 12)) as Hi. fold (pti virt) in Hi. unfold idx_ok in Hi.
  rewrite (proj2 (Z.eqb_neq _ _)) by (unfold entry_addr; lia).
  set (s1 := set_heap (with_pages (ps s) (heap s)) s).
  assert (ps s1 = ps s) as E1 by (unfold ps; simpl; apply pages_of_with).
  erewrite bind_step by (apply on_pstate_run; reflexivity). rewrite !E1.
  unfold entry in He. rewrite He. rewrite (proj2 (Z.eqb_neq _ _)) by done.
  rewrite Hpv. set (s2 := set_heap (with_pages (ps s) (heap s1)) s1).
  assert (ps s2 = ps s) as E2 by (unfold ps; simpl; apply pages_of_with).
  set (m' := write64 (phys (ps s)) (entry_addr t (pti virt)) 0). set (p3 := set_phys (λ _, m') (ps s)).
  erewrite bind_step by (apply on_pstate_run; rewrite E2; reflexivity). fold m'.
  change (set_phys (λ m0, write64 m0 (entry_addr t (pti virt)) 0) (ps s)) with p3.
  erewrite bind_step by (apply on_pstate_run; reflexivity).
  set (s3 := set_heap (with_pages p3 (heap s2)) s2).
  assert (ps s3 = p3) as E3 by (unfold ps; simpl; apply pages_of_with). rewrite E3.
  set (s4 := set_heap (with_pages (set_pv page l p3) (heap s3)) s3).
  destruct (kmem_free_run n (pv_addr pv) sizeof_pv_entry s4) as (h & Hfree & Hp & Hr & Hl).
  { simpl. by rewrite !ready_with. }
  { simpl. by rewrite !live_with. }
  exists h. split; [exact Hfree|]. assert (pages_of h = set_pv page l p3) as Eh.
  { rewrite Hp. unfold ps. simpl. apply pages_of_with. }
  split; [intros k Hk; apply Hr; simpl; by rewrite !ready_with|]. split.
  { rewrite (kmem_free_arenas n (pv_addr pv) sizeof_pv_entry s4 h); [simpl; by rewrite !arenas_of_with| | |exact Hfree];
      simpl; by rewrite ?ready_with, ?live_with. }
  rewrite Eh. split; [|split].
  - pose proof (leaf_ok (mp_pml4 m) (ps s) virt t 0 Hok Ht) as Hok3.
    destruct (leaf_keeps (mp_pml4 m) (ps s) virt t 0 Hok Ht) as [Hb _].
    split; [by apply pt_ok_pv|done|exact Hb|].
    intros w Hw. simpl. unfold m'. by apply (leaf_pte (mp_pml4 m) (ps s) virt t 0).
  - unfold pte_at. simpl. unfold m'. rewrite (leaf_table (mp_pml4 m) (ps s) virt t 0 Hok Ht) by apply path3_ok. rewrite Ht. simpl.
      f_equal. by apply entry_write.
  - split; [done|]. intros q z Hq Hqp. apply Hl; [|done]. simpl. by rewrite !live_with.
Qed.

(** The mapping that a write to a shared page replaces. *)
Definition mapped_at s map root virt page : Prop :=
  ∃ e pv l, pte_at (ps s) root virt = Some e ∧ e ≠ 0 ∧
    pv_remove map virt (pv_table (ps s) page) = Some (pv, l) ∧ heap_live (heap s) (pv_addr pv) sizeof_pv_entry.

Lemma when_unenter_run n (b : bool) s map m page virt :
  heap_ready n (heap s) → maps s !! map = Some m → pt_ok (mp_pml4 m) (ps s) → (b = true → mapped_at s map (mp_pml4 m) virt page) →
  ∃ h, mwhen b (pmap_unenter map (Some page) virt) s = Ok ((), set_heap h s) ∧
    (∀ k, heap_ready k (heap s) → heap_ready k h) ∧ removed (mp_pml4 m) virt (ps s) (pages_of h).
Proof.
  intros Hn Hm Hok Hb. destruct b.
  - destruct Hb as (e & pv & l & He & Hne & Hpv & Hl); [done|].
    destruct (pmap_unenter_run n s map m page virt e pv l Hn Hm Hok He Hne Hpv Hl) as (h & ? & ? & _ & ? & _). by exists h.
  - exists (heap s). split; [by destruct s|]. by split.
Qed.

(** ** Faults *)

(** A fault at [vaddr] of [map] goes to page [page] of the anonymous object [o]. *)
Record fault_at s (kmap map vaddr : Z) (m : vm_map) (ent : vm_map_entry) (o : vm_object)
    (a : vm_amap) (page : Z) : Prop := {
  fa_addr : 0 ≤ vaddr < 2^64;
  fa_idle : in_pagefault s = false;
  fa_map : maps s !! (if KHEAP_BASE <=? vaddr then kmap else map) = Some m;
  fa_entry : map_entry_for_addr m vaddr = Some ent;
  fa_object : objects s !! en_obj ent = Some o;
  fa_type : ob_type o = kVMObjAnon;
  fa_amap : amaps s !! ob_amap o = Some a;
  fa_ok : amap_ok s a;
  fa_live : anons_live s;
  fa_page : w64 (PGROUNDDOWN vaddr - en_start ent + en_offset ent) / PGSIZE = page ∧ 0 ≤ page < 1024;
  fa_tables : pt_ok (mp_pml4 m) (ps s);
}.

(** The state in which the slot for the page exists. *)
Definition slot_ready am (a' : vm_amap) h s : vm_state K :=
  set_amap am a' (set_heap h (set_in_pagefault true s)).

(** What is left to run once the slot is there. *)
Definition fault_slot (map am page vaddr flags : Z) (o : vm_object) : M (vm_state K) Z :=
  slot ← amap_slot am page;
  match slot with
  | Some anon => fault_anon map am page anon vaddr flags
  | None =>
      match ob_parent o with
      | Some _ => mret (-1)
      | None =>
          anon ← anon_new;
          amap_set_slot am page (Some anon);;
          a ← get_anon anon;
          pmap_enter map (physpage a) vaddr kVMAll;;
          mret 0
      end
  end.

Lemma vm_fault_after s kmap map vaddr flags m ent o a page s1 r s' :
  fault_at s kmap map vaddr m ent o a page →
  amap_anon_at (ob_amap o) page (set_in_pagefault true s) = Ok ((), s1) →
  fault_slot (if KHEAP_BASE <=? vaddr then kmap else map) (ob_amap o) page (PGROUNDDOWN vaddr) flags o s1 = Ok (r, s') →
  vm_fault kmap map vaddr flags s = Ok (r, set_in_pagefault false s').
Proof.
  intros [] Hrun Hslot. destruct fa_page0 as [Hpg Hlt].
  unfold vm_fault. rewrite (bind_step mget _ s s s) by done. rewrite fa_idle0.
  rewrite (bind_step (mmodify _) _ s () (set_in_pagefault true s)) by done.
  rewrite (bind_step _ _ _ _ _ (get_map_ok (set_in_pagefault true s) _ m fa_map0)). rewrite fa_entry0.
  erewrite bind_step; [reflexivity|]. cbv zeta.
  rewrite (bind_step _ _ _ _ _ (get_object_ok (set_in_pagefault true s) _ o fa_object0)).
  rewrite decide_True by done. unfold fault_aobj.
  rewrite (bind_step _ _ _ _ _ (get_object_ok (set_in_pagefault true s) _ o fa_object0)). rewrite Hpg.
  rewrite (bind_step _ _ _ _ _ Hrun). exact Hslot.
Qed.

Lemma vm_fault_run n s kmap map vaddr flags m ent o a page :
  fault_at s kmap map vaddr m ent o a page → heap_ready (S (S n)) (heap s) →
  ∃ a' h, pages_of h = ps s ∧ heap_ready n h ∧ amap_ok (set_heap h s) a' ∧ anons_live (set_heap h s) ∧
    slot_of a' page = Some (slot a page) ∧ (∀ q, slot a' q = slot a q) ∧
    ∀ r s', fault_slot (if KHEAP_BASE <=? vaddr then kmap else map) (ob_amap o) page (PGROUNDDOWN vaddr)
        flags o (slot_ready (ob_amap o) a' h s) = Ok (r, s') →
      vm_fault kmap map vaddr flags s = Ok (r, set_in_pagefault false s').
Proof.
  intros Hfa Hr. pose proof Hfa as [].
  destruct (amap_anon_at_run n (set_in_pagefault true s) (ob_amap o) a page)
    as (a' & h & Hrun & Hp & Hr' & Hok & Hl & Hs & Hs' & _); try done; [by destruct fa_ok0|by apply fa_page0..|].
  exists a', h. split; [done|]. split; [done|]. split; [by destruct Hok|]. split; [done|]. split; [done|].
  split; [done|]. intros r s'. by apply (vm_fault_after _ _ _ _ _ m ent o a page).
Qed.

(** A page whose slot holds an anon needs no new slot. *)
Lemma vm_fault_shared s kmap map vaddr flags m ent o a page an r s' :
  fault_at s kmap map vaddr m ent o a page → slot a page = Some an →
  fault_anon (if KHEAP_BASE <=? vaddr then kmap else map) (ob_amap o) page an (PGROUNDDOWN vaddr) flags
    (set_in_pagefault true s) = Ok (r, s') →
  vm_fault kmap map vaddr flags s = Ok (r, set_in_pagefault false s').
Proof.
  intros Hfa Hs Hrun. pose proof Hfa as []. destruct fa_page0 as [_ Hp].
  assert (slot_of a page = Some (Some an)) as Hso.
  { unfold slot in Hs. destruct (slot_of a page) as [[]|]; [by f_equal|done|done]. }
  unfold slot_of in Hso. destruct (chunks a !! Z.to_nat (page / kAMapChunkNPages)) as [[c|]|] eqn:Hc; [|done|done].
  apply (vm_fault_after _ _ _ _ _ m ent o a page (set_in_pagefault true s)); [done| |].
  - unfold amap_anon_at. cbv zeta. rewrite (bind_step _ _ _ _ _ (get_amap_ok (set_in_pagefault true s) _ a fa_amap0)).
    apply lookup_lt_Some in Hc as Hlt. rewrite (proj2 (Z.ltb_ge _ _)).
    2: { unfold kAMapChunkNPages in *. assert (0 ≤ page / 32) by (apply Z.div_pos; lia). lia. }
    rewrite (bind_step (mret _) _ (set_in_pagefault true s) () (set_in_pagefault true s)) by done.
    rewrite (bind_step _ _ _ _ _ (get_amap_ok (set_in_pagefault true s) _ a fa_amap0)). by rewrite Hc, deref_bind.
  - unfold fault_slot, amap_slot.
    erewrite bind_step by (rewrite (bind_step _ _ _ _ _ (get_amap_ok (set_in_pagefault true s) _ a fa_amap0));
      unfold slot_of; rewrite Hc; simpl; simpl in Hso; rewrite Hso; reflexivity).
    exact Hrun.
Qed.

(** What a process sees of a page entered for it with all rights. *)
Lemma entered_trans root virt page p p' :
  page_addr page → 0 ≤ virt < 2^64 → entered root (PGROUNDDOWN virt) page kVMAll p p' →
  pmap_trans root virt p' = Ok (page + pgi virt, p') ∧
  ∀ w, vpage w ≠ vpage virt → translate (phys p') root w = translate (phys p) root w.
Proof.
  intros Hpa Hv [Hok Hpte _ _ _ Hoth]. split.
  - rewrite trans_run by done. do 2 f_equal. eapply pte_translate; [done| |].
    + by instantiate (1 := kVMAll).
    + rewrite <-Hpte. apply pte_at_vpage. by rewrite vpage_round.
  - intros w Hw. apply translate_same, Hoth. by rewrite vpage_round.
Qed.

(** The first touch of a page of an anonymous object.  The fault returns 0 with a
    page from the free queue, all zero, mapped at the address for all access; the
    object's slot for that page, and no other slot, holds a new anon with one
    reference; every other page of the map is translated as before. *)
Theorem vm_fault_first_touch s kmap map vaddr flags m ent o a page :
  fault_at s kmap map vaddr m ent o a page → slot a page = None → ob_parent o = None →
  heap_ready 4 (heap s) → (4 ≤ free_pages (ps s))%nat →
  ∃ an pg a' s', vm_fault kmap map vaddr flags s = Ok (0, s') ∧ in_pagefault s' = false ∧
    on_queue (ps s) pgfreeq pg ∧ (∀ i, inside pg i → phys (ps s') i = 0) ∧
    pmap_trans (mp_pml4 m) vaddr (ps s') = Ok (pg + pgi vaddr, ps s') ∧
    (∀ w, vpage w ≠ vpage vaddr → translate (phys (ps s')) (mp_pml4 m) w = translate (phys (ps s)) (mp_pml4 m) w) ∧
    anons s !! an = None ∧ anons s' = <[an := Anon 1 true pg]> (anons s) ∧
    amaps s' = <[ob_amap o := a']> (amaps s) ∧
    (∀ q, 0 ≤ q → slot a' q = if q =? page then Some an else slot a q) ∧
    objects s' = objects s ∧ maps s' = maps s.
Proof.
  intros Hfa Hno Hpar Hr Hfree.
  destruct (vm_fault_run 2 s kmap map vaddr flags m ent o a page Hfa Hr)
    as (a1 & h & Hp & Hr1 & Hok1 & Hl1 & Hs1 & Hsl & Hrun).
  set (map' := if KHEAP_BASE <=? vaddr then kmap else map) in *. set (s1 := slot_ready (ob_amap o) a1 h s) in *.
  pose proof (fa_tables _ _ _ _ _ _ _ _ _ Hfa) as Hpt. pose proof (fa_addr _ _ _ _ _ _ _ _ _ Hfa) as Hv.
  destruct (fa_page _ _ _ _ _ _ _ _ _ Hfa) as [_ Hpage].
  destruct (anon_new_run 1 s1 (mp_pml4 m)) as (an & pg & h2 & Hnew & Hr2 & _ & Hfr & Hpn & _ & Hl2);
    [done|unfold ps; simpl; by rewrite Hp|unfold ps; simpl; rewrite Hp; lia|].
  change (ps s1) with (pages_of h) in Hpn. rewrite Hp in Hpn.
  set (s2 := with_new_anon an pg h2 s1) in *. set (a2 := with_slot page (Some an) a1).
  destruct (pmap_enter_run 0 (set_amap (ob_amap o) a2 s2) map' m pg (PGROUNDDOWN vaddr) kVMAll)
    as (pv & h3 & Hent & Hr3 & _ & Het & Hpv & _ & _ & Hl3); [done|by apply (fa_map _ _ _ _ _ _ _ _ _ Hfa)|exact (pn_ok _ _ _ _ _ Hpn)| |exact (pn_addr _ _ _ _ _ Hpn)|].
  { pose proof (pn_free _ _ _ _ _ Hpn). unfold ps in *. simpl. lia. }
  change (ps (set_amap (ob_amap o) a2 s2)) with (pages_of h2) in Het.
  exists an, pg, a2, (set_in_pagefault false (set_heap h3 (set_amap (ob_amap o) a2 s2))). split.
  { apply Hrun. unfold fault_slot, amap_slot. rewrite Hno in Hs1.
    assert (amaps s1 !! ob_amap o = Some a1) as Ha1 by apply lookup_insert_eq.
    erewrite bind_step by (rewrite (bind_step _ _ _ _ _ (get_amap_ok _ _ _ Ha1)), Hs1; reflexivity).
    rewrite Hpar. rewrite (bind_step _ _ _ _ _ Hnew).
    rewrite (bind_step _ _ _ _ _ (amap_set_slot_run s2 _ a1 page _ (Some an) Ha1 Hs1)).
    rewrite (bind_step _ _ _ _ _ (get_anon_ok (set_amap (ob_amap o) a2 s2) an _ (lookup_insert_eq _ _ _))).
    by rewrite (bind_step _ _ _ _ _ Hent). }
  destruct (entered_trans _ _ _ _ _ (pn_addr _ _ _ _ _ Hpn) Hv Het) as [Htr Hoth].
  split; [done|]. split; [exact (pn_was _ _ _ _ _ Hpn)|]. split; [|split; [exact Htr|split; [|split; [|split; [done|split; [|split; [|done]]]]]]].
  - intros i Hi. destruct (pn_new _ _ _ _ _ Hpn i Hi) as [Hz Hu]. unfold ps. simpl.
    by destruct (et_bytes _ _ _ _ _ _ Het i Hu) as [-> _].
  - intros w Hw. unfold ps in *. simpl. rewrite Hoth by done. apply (pn_translate _ _ _ _ _ Hpn).
  - destruct (anons s !! an) eqn:E; [|done]. exfalso. apply (Hfr sizeof_vm_anon). by apply (Hl1 an v).
  - simpl. by rewrite insert_insert_eq.
  - intros q Hq. unfold a2. erewrite (slot_with (set_heap h s) a1 page) by (exact Hok1 || exact Hs1 || lia).
    by rewrite Hsl.
Qed.
(** A write fault on a page whose anon is shared, in the slot for it. *)
Lemma fault_anon_cow s map m am a page an r pg v flags :
  maps s !! map = Some m → amaps s !! am = Some a → slot_of a page = Some (Some an) →
  anons s !! an = Some (Anon r true pg) → 1 < r < 2^23 → has_flag flags kVMFaultWrite = true →
  pt_ok (mp_pml4 m) (ps s) → anons_live s → own_page (mp_pml4 m) (ps s) pg →
  (has_flag flags kVMFaultPresent = true → mapped_at s map (mp_pml4 m) v pg) →
  heap_ready 2 (heap s) → (4 ≤ free_pages (ps s))%nat →
  ∃ new pg' p1 p2 h, fault_anon map am page an v flags s =
      Ok (0, set_heap h (set_amap am (with_slot page (Some new) a) (with_new_anon new pg' h
               (set_anon an (Anon (r - 1) true pg) s)))) ∧
    anons s !! new = None ∧ page_new (mp_pml4 m) pg' (λ i, phys (ps s) (pg + i)) (ps s) p1 ∧
    removed (mp_pml4 m) v p1 p2 ∧ entered (mp_pml4 m) v pg' kVMAll p2 (pages_of h).
Proof.
  intros Hm Ha Hs Han Hr Hw Hok Hlive Hown Hpres Hready Hfree.
  set (s1 := set_anon an (Anon (r - 1) true pg) s).
  assert (anons_live s1) as Hlive1.
  { intros b x Hb. simpl in Hb. apply lookup_insert_Some in Hb as [[<- _]|[_ Hb]]; [by apply (Hlive an (Anon r true pg))|by apply (Hlive b x)]. }
  destruct (anon_copy_run 1 s1 (mp_pml4 m) an (Anon (r - 1) true pg) Hready Hok) as
    (new & pg' & h1 & Hcopy & Hr1 & _ & Hfr & Hpn & _ & Hl1); [change (ps s1) with (ps s); lia|done|apply lookup_insert_eq|done|].
  assert (anons s !! new = None) as Hnew.
  { destruct (anons s !! new) as [x|] eqn:E; [|done]. by destruct (Hfr sizeof_vm_anon (Hlive _ _ E)). }
  assert (new ≠ an) as Hne by congruence.
  set (s2 := set_amap am (with_slot page (Some new) a) (with_new_anon new pg' h1 s1)).
  destruct (when_unenter_run 1 (has_flag flags kVMFaultPresent) s2 map m pg v Hr1) as (h2 & Hun & Hr2 & Hrm);
    [done|exact (pn_ok _ _ _ _ _ Hpn)| |].
  { intros Hp. destruct (Hpres Hp) as (e & pv & l & He & Hen & Hpv & Hl). exists e, pv, l.
    change (ps s2) with (pages_of h1). rewrite (pn_pte _ _ _ _ _ Hpn), (pn_pv _ _ _ _ _ Hpn).
    split_and!; try done. by apply Hl1. }
  destruct (pmap_enter_run 0 (set_heap h2 s2) map m pg' v kVMAll) as (pv & h3 & Hent & _ & _ & Het & _);
    [by apply Hr2|done|apply Hrm| |exact (pn_addr _ _ _ _ _ Hpn)|].
  { change (ps (set_heap h2 s2)) with (pages_of h2). unfold free_pages. rewrite (rm_queues _ _ _ _ Hrm).
    pose proof (pn_free _ _ _ _ _ Hpn). unfold free_pages, ps in *. simpl in *. lia. }
  exists new, pg', (pages_of h1), (pages_of h2), h3. split; [|done].
  unfold fault_anon. rewrite (bind_step _ _ _ _ _ (get_anon_ok _ _ _ Han)). cbn [resident negb an_refcnt physpage].
  rewrite (proj2 (Z.ltb_lt 1 r)) by lia. rewrite Hw, s24_small by lia.
  rewrite (bind_step (mmodify _) _ s () s1) by done. rewrite (bind_step _ _ _ _ _ Hcopy).
  rewrite (bind_step _ _ _ _ _ (amap_set_slot_run (with_new_anon new pg' h1 s1) am a page _ (Some new) Ha Hs)).
  rewrite (bind_step _ _ _ _ _ Hun).
  rewrite (bind_step _ _ _ _ _ (get_anon_ok (set_heap h2 s2) new _ (lookup_insert_eq _ _ _))).
  by rewrite (bind_step _ _ _ _ _ Hent).
Qed.

(** Copy-on-write.  A write fault on a page whose anon is shared returns 0 and
    maps at the address, for all access, a page from the free queue that holds
    what the shared page holds; the shared page keeps its bytes and its anon
    loses one reference; the slot of the faulting map, and no other, leads to a
    new anon with one reference; every other page is translated as before. *)
Theorem vm_fault_copy_on_write s kmap map vaddr flags m ent o a page an r pg :
  let map' := if KHEAP_BASE <=? vaddr then kmap else map in
  fault_at s kmap map vaddr m ent o a page → slot a page = Some an →
  anons s !! an = Some (Anon r true pg) → 1 < r < 2^23 → has_flag flags kVMFaultWrite = true →
  own_page (mp_pml4 m) (ps s) pg →
  (has_flag flags kVMFaultPresent = true → mapped_at s map' (mp_pml4 m) (PGROUNDDOWN vaddr) pg) →
  heap_ready 2 (heap s) → (4 ≤ free_pages (ps s))%nat →
  ∃ new pg' a' s', vm_fault kmap map vaddr flags s = Ok (0, s') ∧ in_pagefault s' = false ∧
    on_queue (ps s) pgfreeq pg' ∧
    pmap_trans (mp_pml4 m) vaddr (ps s') = Ok (pg' + pgi vaddr, ps s') ∧
    (∀ i, 0 ≤ i < PGSIZE → phys (ps s') (pg' + i) = phys (ps s) (pg + i) ∧
       phys (ps s') (pg + i) = phys (ps s) (pg + i)) ∧
    (∀ w, vpage w ≠ vpage vaddr → translate (phys (ps s')) (mp_pml4 m) w = translate (phys (ps s)) (mp_pml4 m) w) ∧
    anons s !! new = None ∧
    anons s' = <[new := Anon 1 true pg']> (<[an := Anon (r - 1) true pg]> (anons s)) ∧
    amaps s' = <[ob_amap o := a']> (amaps s) ∧
    (∀ q, 0 ≤ q → slot a' q = if q =? page then Some new else slot a q).
Proof.
  intros map' Hfa Hs Han Hr Hw Hown Hpres Hready Hfree.
  assert (slot_of a page = Some (Some an)) as Hso.
  { unfold slot in Hs. destruct (slot_of a page) as [[]|]; [by f_equal|done|done]. }
  destruct (fault_anon_cow (set_in_pagefault true s) map' m (ob_amap o) a page an r pg (PGROUNDDOWN vaddr) flags)
    as (new & pg' & p1 & p2 & h & Hrun & Hnew & Hpn & Hrm & Het);
    [apply Hfa|apply Hfa|done|done|done|done|apply Hfa|apply Hfa|done|done|done|done|].
  exists new, pg', (with_slot page (Some new) a). eexists.
  split; [by apply (vm_fault_shared _ _ _ _ _ m ent o a page an)|]. split; [done|].
  split; [exact (pn_was _ _ _ _ _ Hpn)|].
  pose proof (fa_addr _ _ _ _ _ _ _ _ _ Hfa) as Hv.
  destruct (entered_trans _ _ _ _ _ (pn_addr _ _ _ _ _ Hpn) Hv Het) as [Htr Hoth].
  assert (∀ b, untouched (mp_pml4 m) p1 b → phys (pages_of h) b = phys p1 b) as Hb.
  { intros b Hu. destruct (rm_bytes _ _ _ _ Hrm b Hu) as [<- Hu2]. by apply (et_bytes _ _ _ _ _ _ Het). }
  split; [exact Htr|]. split; [|split; [|split; [done|split; [done|split; [done|]]]]].
  - intros i Hi. unfold ps. simpl. split.
    + destruct (pn_new _ _ _ _ _ Hpn (pg' + i)) as [E Hu]; [unfold inside; lia|]. rewrite Hb, E by done.
      f_equal. lia.
    + destruct Hown as [_ Hown]. destruct (pn_bytes _ _ _ _ _ Hpn (pg + i)) as [E Hu].
      { apply Hown. unfold inside. lia. }
      by rewrite Hb, E.
  - intros w Hne. unfold ps. simpl. rewrite Hoth by done.
    rewrite (translate_same _ _ _ _ (rm_other _ _ _ _ Hrm w ltac:(by rewrite vpage_round))). apply (pn_translate _ _ _ _ _ Hpn).
  - intros q Hq. destruct (fa_page _ _ _ _ _ _ _ _ _ Hfa) as [_ Hp].
    by erewrite (slot_with s a page) by (apply Hfa || exact Hso || lia).
Qed.
(** ** Write-protecting *)

Definition kVMReadExecute : Z := Z.lor kVMRead kVMExecute.
(** The entry [e] without its write permission. *)
Definition readonly_pte (e : Z) : Z := pte_value (pte_get_addr e) (vm_prot_to_i386 kVMReadExecute).
Definition live_pte (e : Z) : Prop := has_flag e kMMUPresent = true ∧ page_addr (pte_get_addr e).

(** From [p] to [p'], nothing but write permissions went away. *)
Record protects (root : Z) (p p' : pstate) : Prop := {
  pr_ok : pt_ok root p';
  pr_pv : pv_table p' = pv_table p;
  pr_queues : queues p' = queues p;
  pr_bytes a : untouched root p a → phys p' a = phys p a ∧ untouched root p' a;
  pr_pte v : pte_at p' root v = pte_at p root v ∨
    ∃ e, pte_at p root v = Some e ∧ live_pte e ∧ pte_at p' root v = Some (readonly_pte e);
}.
Definition maps_page (root : Z) (p : pstate) (v page : Z) : Prop :=
  ∃ e, pte_at p root v = Some e ∧ live_pte e ∧ pte_get_addr e = page.
Definition readonly (root : Z) (p : pstate) (v : Z) : Prop :=
  ∃ e, pte_at p root v = Some e ∧ has_flag e kMMUWrite = false.

Lemma readonly_addr e : live_pte e → pte_get_addr (readonly_pte e) = pte_get_addr e.
Proof. intros [_ Hp]. apply pte_get_addr_value; [done|apply prot_range]. Qed.
Lemma readonly_live e : live_pte e → live_pte (readonly_pte e).
Proof.
  intros Hl. split; [|rewrite readonly_addr by done; apply Hl].
  unfold readonly_pte. change kMMUPresent with (2^0). by rewrite has_flag_value.
Qed.
Lemma readonly_nowrite e : has_flag (readonly_pte e) kMMUWrite = false.
Proof. unfold readonly_pte. change kMMUWrite with (2^1). by rewrite has_flag_value. Qed.
Lemma readonly_twice e : live_pte e → readonly_pte (readonly_pte e) = readonly_pte e.
Proof. intros Hl. unfold readonly_pte at 1. by rewrite readonly_addr. Qed.

Lemma protects_refl root p : pt_ok root p → protects root p p.
Proof. intros Hok. split; try done. by left. Qed.
Lemma protects_trans root p1 p2 p3 : protects root p1 p2 → protects root p2 p3 → protects root p1 p3.
Proof.
  intros [_ V1 Q1 B1 P1] [O2 V2 Q2 B2 P2]. split; [done|congruence|congruence| |].
  { intros a Ha. destruct (B1 a Ha) as [<- Ha1]. by apply B2. }
  intros v.
  destruct (P2 v) as [->|(e & He & Hl & ->)]; [apply P1|]. right.
  destruct (P1 v) as [E|(e1 & He1 & Hl1 & E)].
  - exists e. split; [congruence|done].
  - exists e1. split; [done|]. split; [done|]. rewrite E in He. injection He as <-. by rewrite readonly_twice.
Qed.
Lemma protects_maps root p p' v page : protects root p p' → maps_page root p v page → maps_page root p' v page.
Proof.
  intros [_ _ _ _ P] (e & He & Hl & Ha). destruct (P v) as [E|(e1 & He1 & Hl1 & E)].
  - exists e. by rewrite E.
  - assert (e1 = e) as -> by congruence. exists (readonly_pte e). split; [done|].
    split; [by apply readonly_live|by rewrite readonly_addr].
Qed.
Lemma protects_readonly root p p' v : protects root p p' → readonly root p v → readonly root p' v.
Proof.
  intros [_ _ _ _ P] (e & He & Hw). destruct (P v) as [E|(e1 & He1 & Hl1 & E)].
  - exists e. by rewrite E.
  - exists (readonly_pte e1). split; [done|apply readonly_nowrite].
Qed.
Lemma translate_pte p root v :
  translate (phys p) root v =
    match pte_at p root v with
    | Some e => if has_flag e kMMUPresent then pte_get_addr e + pgi v else 0
    | None => 0
    end.
Proof. unfold translate, pte_at. by destruct (table_at _ _ _). Qed.
Lemma protects_translate root p p' v : protects root p p' → translate (phys p') root v = translate (phys p) root v.
Proof.
  intros [_ _ _ _ P]. rewrite !translate_pte. destruct (P v) as [->|(e & -> & Hl & ->)]; [done|].
  rewrite readonly_addr by done. destruct (readonly_live e Hl) as [-> _]. by destruct Hl as [-> _].
Qed.

(** [pmap_enter_kern] where the tables exist. *)
Lemma enter_present root p page virt prot t :
  table_at (phys p) root (path3 virt) = Some t →
  pmap_enter_kern root page virt prot p =
    Ok ((), set_phys (λ m, write64 m (entry_addr t (pti virt)) (pte_value page (vm_prot_to_i386 prot))) p).
Proof.
  intros Ht. unfold path3 in Ht. change [pml4i virt; pdpti virt; pdi virt] with
    (([pml4i virt] ++ [pdpti virt]) ++ [pdi virt]) in Ht.
  rewrite table_at_snoc in Ht. destruct (table_at (phys p) root ([pml4i virt] ++ [pdpti virt])) as [t2|] eqn:T2; [|done].
  rewrite table_at_snoc in T2. destruct (table_at (phys p) root [pml4i virt]) as [t1|] eqn:T1; [|done].
  simpl in *. unfold pmap_enter_kern.
  rewrite (bind_step _ _ _ _ _ (descend_present _ _ _ true kMMUDefaultProt _ T1)).
  rewrite (bind_step _ _ _ _ _ (descend_present _ _ _ true kMMUDefaultProt _ T2)).
  by rewrite (bind_step _ _ _ _ _ (descend_present _ _ _ true kMMUDefaultProt _ Ht)).
Qed.

Lemma pte_at_leaf root p virt t v w :
  pt_ok root p → table_at (phys p) root (path3 virt) = Some t → 0 ≤ v < 2^64 →
  pte_at (set_phys (λ _, write64 (phys p) (entry_addr t (pti virt)) v) p) root w =
    if decide (vpage w = vpage virt) then Some v else pte_at p root w.
Proof.
  intros Hok Ht Hv. unfold pte_at. cbn [phys set_phys].
  rewrite (leaf_table root p virt t v Hok Ht) by apply path3_ok. case_decide as E.
  - pose proof (f_equal fst E) as E1. pose proof (f_equal snd E) as E2. simpl in E1, E2.
    rewrite E1, E2, Ht. cbn [mbind option_bind]. f_equal. by apply entry_write.
  - destruct (table_at (phys p) root (path3 w)) as [x|] eqn:Hx; [|done]. cbn [mbind option_bind]. f_equal.
    by apply (PmapProps.leaf_entry root p virt t v Hok Ht (path3 w)); [apply path3_ok| |apply land511|].
Qed.
Lemma reenter_run s map m page v :
  maps s !! map = Some m → pt_ok (mp_pml4 m) (ps s) → maps_page (mp_pml4 m) (ps s) v page →
  ∃ h, pmap_reenter map page v kVMReadExecute s = Ok ((), set_heap h s) ∧
    protects (mp_pml4 m) (ps s) (pages_of h) ∧ readonly (mp_pml4 m) (pages_of h) v ∧
    (∀ n, heap_ready n h ↔ heap_ready n (heap s)) ∧ (∀ q z, heap_live h q z ↔ heap_live (heap s) q z) ∧
    arenas_of h = arenas_of (heap s).
Proof.
  intros Hm Hok (e & He & Hl & Ha). subst page. pose proof He as He'. unfold pte_at in He'.
  destruct (table_at (phys (ps s)) (mp_pml4 m) (path3 v)) as [t|] eqn:Ht; [|done]. clear He'.
  assert (0 ≤ readonly_pte e < 2^64) as Hr.
  { apply pte_value_range; [apply prot_range|]. destruct Hl as [_ [? _]]. lia. }
  unfold pmap_reenter. rewrite (bind_step _ _ _ _ _ (get_map_ok _ _ _ Hm)).
  erewrite on_pstate_run by by apply enter_present. eexists. split; [reflexivity|]. rewrite pages_of_with.
  change (set_phys _ (ps s)) with
    (set_phys (λ _, write64 (phys (ps s)) (entry_addr t (pti v)) (readonly_pte e)) (ps s)).
  pose proof (pte_at_leaf (mp_pml4 m) (ps s) v t (readonly_pte e)) as Hpte.
  split; [split; [by apply leaf_ok|done|done|by apply (leaf_keeps (mp_pml4 m) (ps s) v t)|]|split; [|split; [|split]]].
  - intros w. rewrite Hpte by done. case_decide as E; [|by left].
    right. exists e. by rewrite (pte_at_vpage _ _ w v).
  - exists (readonly_pte e). rewrite Hpte by done. rewrite decide_True by done. split; [done|apply readonly_nowrite].
  - intros n. apply ready_with.
  - intros q z. apply live_with.
  - apply arenas_of_with.
Qed.

(** What write-protecting pages does to the state: the heap's pages change. *)
Record protected (root : Z) (vs : list Z) (h h' : K) : Prop := {
  pd_pages : protects root (pages_of h) (pages_of h');
  pd_readonly v : v ∈ vs → readonly root (pages_of h') v;
  pd_ready n : heap_ready n h' ↔ heap_ready n h;
  pd_live q z : heap_live h' q z ↔ heap_live h q z;
  pd_arenas : arenas_of h' = arenas_of h;
}.
Lemma protected_refl root h : pt_ok root (pages_of h) → protected root [] h h.
Proof. intros Hok. split; [by apply protects_refl|intros v []%elem_of_nil|done..]. Qed.
Lemma protected_trans root vs ws h1 h2 h3 :
  protected root vs h1 h2 → protected root ws h2 h3 → protected root (vs ++ ws) h1 h3.
Proof.
  intros [A1 A2 A3 A4 A5] [B1 B2 B3 B4 B5]. split.
  - by eapply protects_trans.
  - intros v [Hv|Hv]%elem_of_app; [|by apply B2]. eapply protects_readonly; [exact B1|by apply A2].
  - intros n. by rewrite B3, A3.
  - intros q z. by rewrite B4, A4.
  - congruence.
Qed.

Lemma reenter_list_run s map m page (l : list pv_entry) :
  maps s !! map = Some m → pt_ok (mp_pml4 m) (ps s) →
  Forall (λ pv, pv_map pv = map ∧ maps_page (mp_pml4 m) (ps s) (pv_vaddr pv) page) l →
  ∃ h, mfor l (λ pv, pmap_reenter (pv_map pv) page (pv_vaddr pv) kVMReadExecute) s = Ok ((), set_heap h s) ∧
    protected (mp_pml4 m) (pv_vaddr <$> l) (heap s) h.
Proof.
  intros Hm Hok Hl. revert s Hm Hok Hl. induction l as [|pv l IH]; intros s Hm Hok Hl.
  { exists (heap s). split; [by destruct s|by apply protected_refl]. }
  apply Forall_cons in Hl as [[Hpv Hmp] Hl]. cbn [mfor]. rewrite Hpv.
  destruct (reenter_run s map m page (pv_vaddr pv) Hm Hok Hmp) as (h1 & Hrun & Hpr & Hro & Hre & Hlv & Hvs).
  rewrite (bind_step _ _ _ _ _ Hrun).
  destruct (IH (set_heap h1 s) Hm) as (h2 & Hrun2 & Hpd); [apply Hpr| |].
  { eapply Forall_impl; [exact Hl|]. intros x [? ?]. split; [done|]. by eapply protects_maps. }
  exists h2. split; [exact Hrun2|]. rewrite fmap_cons. apply (protected_trans _ [pv_vaddr pv] _ _ h1); [|done].
  split; try done. by intros v ->%list_elem_of_singleton.
Qed.

(** ** Copying an object *)

Definition add_refs (k : Z) (x : vm_anon) : vm_anon := Anon (an_refcnt x + k) (resident x) (physpage x).
Definition occ (an : Z) (l : list (option Z)) : Z := Z.of_nat (length (List.filter (λ o, bool_decide (o = Some an)) l)).
(** The mappings of the page of an anon. *)
Definition mappings (p : pstate) (x : vm_anon) : list Z := pv_vaddr <$> pv_table p (physpage x).

(** Every anon of the slots is in a page that only [map] maps, where it says it does, and
    its reference count has room for a reference from each. *)
Definition shareable (map root : Z) s (l : list (option Z)) : Prop :=
  ∀ an, Some an ∈ l → ∃ x, anons s !! an = Some x ∧ 0 ≤ an_refcnt x ∧ an_refcnt x + occ an l < 2^23 ∧
    Forall (λ pv, pv_map pv = map ∧ maps_page root (ps s) (pv_vaddr pv) (physpage x)) (pv_table (ps s) (physpage x)).

(** [s'] after the anons of the slots [l] have been shared. *)
Record shared (root : Z) (l : list (option Z)) s s' : Prop := {
  sh_rest : ∃ h an, s' = Vm h an (amaps s) (objects s) (maps s) (page_anon s) (in_pagefault s);
  sh_anons an : anons s' !! an = add_refs (occ an l) <$> anons s !! an;
  sh_pages : protects root (ps s) (ps s');
  sh_readonly an x v : Some an ∈ l → anons s !! an = Some x → v ∈ mappings (ps s) x → readonly root (ps s') v;
  sh_arenas : arenas_of (heap s') = arenas_of (heap s);
}.

Lemma add_refs_0 x : add_refs 0 x = x.
Proof. destruct x. unfold add_refs. simpl. by rewrite Z.add_0_r. Qed.
Lemma add_refs_add j k x : add_refs k (add_refs j x) = add_refs (j + k) x.
Proof. unfold add_refs. simpl. f_equal. lia. Qed.
Lemma occ_app an l l' : occ an (l ++ l') = occ an l + occ an l'.
Proof. unfold occ. rewrite List.filter_app, length_app. lia. Qed.

Lemma shared_trans root l1 l2 s1 s2 s3 :
  shared root l1 s1 s2 → shared root l2 s2 s3 → shared root (l1 ++ l2) s1 s3.
Proof.
  intros [(h & m & ->) A2 A3 A4 A5] [(h' & m' & ->) B2 B3 B4 B5]. split; [| | | |congruence].
  - by exists h', m'.
  - intros an. rewrite B2, A2, occ_app. destruct (anons s1 !! an); simpl; [by rewrite add_refs_add|done].
  - by eapply protects_trans.
  - intros an x v Hin Hx Hv. destruct (decide (Some an ∈ l1)) as [H1|H1].
    + eapply protects_readonly; [exact B3|]. by eapply A4.
    + apply elem_of_app in Hin as [|Hin]; [done|]. apply (B4 an (add_refs (occ an l1) x)); [done|by rewrite A2, Hx|].
      unfold mappings. by rewrite (pr_pv _ _ _ A3).
Qed.
Lemma occ_nonneg an l : 0 ≤ occ an l.
Proof. unfold occ. lia. Qed.
Lemma shareable_prefix map root s l l' : shareable map root s (l ++ l') → shareable map root s l.
Proof.
  intros Hs an Han. destruct (Hs an) as (x & Hx & H0 & Hr & Hf); [apply elem_of_app; by left|]. exists x.
  rewrite occ_app in Hr. pose proof (occ_nonneg an l'). split_and!; try done. lia.
Qed.
Lemma shared_shareable map root l l' s s' :
  shared root l s s' → shareable map root s (l ++ l') → shareable map root s' l'.
Proof.
  intros [_ A2 A3 _ _] Hs an Han. destruct (Hs an) as (x & Hx & H0 & Hr & Hf); [apply elem_of_app; by right|].
  exists (add_refs (occ an l) x). rewrite occ_app in Hr. pose proof (occ_nonneg an l).
  split; [by rewrite A2, Hx|]. simpl. split_and!; [lia|lia|]. rewrite (pr_pv _ _ _ A3). eapply Forall_impl; [exact Hf|].
  intros pv [? ?]. split; [done|]. by eapply protects_maps.
Qed.
Lemma shared_heap root s h :
  pt_ok root (ps s) → pages_of h = ps s → arenas_of h = arenas_of (heap s) → shared root [] s (set_heap h s).
Proof.
  intros Hok Hp Hv. split; [| | | |done].
  - by exists h, (anons s).
  - intros an. change (occ an []) with 0. simpl. destruct (anons s !! an); simpl; [by rewrite add_refs_0|done].
  - unfold ps at 2. simpl. rewrite Hp. by apply protects_refl.
  - intros an x v []%elem_of_nil.
Qed.

(** Some objects may have been allocated, [k] at most. *)
Definition heap_used (k : nat) s s' : Prop :=
  (∀ n, heap_ready (k + n) (heap s) → heap_ready n (heap s')) ∧
  ∀ q z, heap_live (heap s) q z → heap_live (heap s') q z.
Lemma heap_used_trans j k s1 s2 s3 : heap_used j s1 s2 → heap_used k s2 s3 → heap_used (j + k) s1 s3.
Proof.
  intros [A1 A2] [B1 B2]. split; [|by auto]. intros n Hn. apply B1, A1. by rewrite Nat.add_assoc.
Qed.

Lemma on_pstate_get s : on_pstate mget s = Ok (ps s, s).
Proof.
  erewrite on_pstate_run by reflexivity. do 2 f_equal. unfold with_pages, ps, pages_of.
  rewrite <-surjective_pairing, with_kernel_of. by destruct s.
Qed.

Lemma share_slot_run map m s (o : option Z) :
  maps s !! map = Some m → pt_ok (mp_pml4 m) (ps s) → shareable map (mp_pml4 m) s [o] →
  ∃ s', share_slot o s = Ok ((), s') ∧ shared (mp_pml4 m) [o] s s' ∧ heap_used 0 s s'.
Proof.
  intros Hm Hok Hs. destruct o as [an|].
  2: { exists s. split; [done|]. split; [|by split].
       destruct (shared_heap (mp_pml4 m) s (heap s) Hok eq_refl eq_refl) as [A1 A2 A3 A4 A5]. destruct s. split; try done.
       intros an x v Hin%list_elem_of_singleton. done. }
  destruct (Hs an) as (x & Hx & H0 & Hr & Hf); [left|]. set (s1 := set_anon an (add_refs 1 x) s).
  assert (occ an [Some an] = 1) as E1 by (unfold occ; simpl; by rewrite bool_decide_true).
  destruct (reenter_list_run s1 map m (physpage x) (pv_table (ps s) (physpage x)) Hm Hok Hf) as (h & Hrun & Hpd).
  exists (set_heap h s1). split.
  { unfold share_slot. rewrite (bind_step _ _ _ _ _ (get_anon_ok _ _ _ Hx)).
    rewrite s24_small by lia. rewrite (bind_step (mmodify _) _ s () s1) by done. unfold pmap_reenter_all_readonly.
    rewrite (bind_step _ _ _ _ _ (on_pstate_get s1)). exact Hrun. }
  destruct Hpd as [P1 P2 P3 P4 P5]. split; [|split; [intros n; by apply P3|intros q z; by apply P4]].
  split.
  - by exists h, (<[an := add_refs 1 x]> (anons s)).
  - intros b. simpl. unfold occ. simpl. destruct (decide (b = an)) as [->|Hne].
    + rewrite bool_decide_true by done. by rewrite lookup_insert_eq, Hx.
    + rewrite bool_decide_false by congruence. rewrite lookup_insert_ne by done.
      destruct (anons s !! b); simpl; [by rewrite add_refs_0|done].
  - exact P1.
  - intros b y v [= ->]%list_elem_of_singleton Hy Hv. assert (y = x) as -> by congruence. by apply P2.
  - exact P5.
Qed.

Lemma share_slots_run map m s (l : list (option Z)) :
  maps s !! map = Some m → pt_ok (mp_pml4 m) (ps s) → shareable map (mp_pml4 m) s l →
  ∃ s', mfor l share_slot s = Ok ((), s') ∧ shared (mp_pml4 m) l s s' ∧ heap_used 0 s s'.
Proof.
  revert s. induction l as [|o l IH]; intros s Hm Hok Hs.
  { exists s. split; [done|]. split; [|by split]. pose proof (shared_heap (mp_pml4 m) s (heap s) Hok eq_refl eq_refl) as Hsh.
    by destruct s. }
  destruct (share_slot_run map m s o Hm Hok) as (s1 & Hrun & Hsh & Hu).
  { by apply (shareable_prefix _ _ _ [o] l). }
  destruct (IH s1) as (s2 & Hrun2 & Hsh2 & Hu2).
  - by destruct Hsh as [(h & an & ->) _ _ _ _].
  - apply Hsh.
  - by apply (shared_shareable _ _ [o] l s).
  - exists s2. cbn [mfor]. rewrite (bind_step _ _ _ _ _ Hrun). split; [done|].
    split; [by apply (shared_trans _ [o] l s s1)|by apply (heap_used_trans 0 0 s s1)].
Qed.

(** The slots of a list of chunks, and what a copy of the list keeps. *)
Definition chunk_slots (l : list (option vm_amap_chunk)) : list (option Z) :=
  l ≫= λ c, match c with Some c => ck_anon c | None => [] end.
Definition same_chunks (l l' : list (option vm_amap_chunk)) : Prop := option_map ck_anon <$> l' = option_map ck_anon <$> l.

Lemma copy_chunks_run n map m (l : list (option vm_amap_chunk)) s :
  maps s !! map = Some m → pt_ok (mp_pml4 m) (ps s) → shareable map (mp_pml4 m) s (chunk_slots l) →
  heap_ready (length l + n) (heap s) →
  ∃ l' s', copy_chunks l s = Ok (l', s') ∧ same_chunks l l' ∧ shared (mp_pml4 m) (chunk_slots l) s s' ∧
    heap_ready n (heap s') ∧ ∀ q z, heap_live (heap s) q z → heap_live (heap s') q z.
Proof.
  revert s. induction l as [|[c|] l IH]; intros s Hm Hok Hs Hr; cbn [copy_chunks].
  - exists [], s. split; [done|]. split; [done|]. split; [|done].
    pose proof (shared_heap (mp_pml4 m) s (heap s) Hok eq_refl eq_refl) as Hsh. by destruct s.
  - destruct (kmem_alloc_run (length l + n) sizeof_vm_amap_chunk s Hr) as (p & h & Ha & Hp & Hr1 & _ & _ & Hl1);
      [unfold sizeof_vm_amap_chunk; lia|]. rewrite (bind_step _ _ _ _ _ Ha).
    pose proof (kmem_alloc_arenas (length l + n) sizeof_vm_amap_chunk s p h Hr ltac:(unfold sizeof_vm_amap_chunk; lia) Ha) as Hvs.
    pose proof (shared_heap (mp_pml4 m) s h Hok Hp Hvs) as Hsh0.
    assert (shareable map (mp_pml4 m) (set_heap h s) (chunk_slots (Some c :: l))) as Hs0
      by by apply (shared_shareable _ _ [] _ s).
    destruct (share_slots_run map m (set_heap h s) (ck_anon c) Hm) as (s1 & Hrun1 & Hsh1 & Hu1 & Hv1); [apply Hsh0| |].
    { by apply (shareable_prefix _ _ _ _ (chunk_slots l)). }
    rewrite (bind_step _ _ _ _ _ Hrun1). destruct (IH s1) as (l' & s2 & Hrun2 & Hsame & Hsh2 & Hr2 & Hv2).
    { by destruct Hsh1 as [(h' & an & ->) _ _ _ _]. }
    { apply Hsh1. }
    { by apply (shared_shareable _ _ (ck_anon c) _ (set_heap h s)). }
    { by apply Hu1. }
    rewrite (bind_step _ _ _ _ _ Hrun2). exists (Some (Chunk p (ck_anon c)) :: l'), s2.
    split; [done|]. split; [unfold same_chunks in *; by rewrite !fmap_cons, Hsame|].
    split; [|split; [done|]].
    + apply (shared_trans _ [] _ _ _ _ Hsh0). by apply (shared_trans _ _ _ _ s1).
    + intros q z Hq. by apply Hv2, Hv1, Hl1.
  - destruct (IH s Hm Hok Hs) as (l' & s2 & Hrun2 & Hsame & Hsh2 & Hr2 & Hv2); [by apply heap_ready_less|].
    rewrite (bind_step _ _ _ _ _ Hrun2). exists (None :: l'), s2.
    split; [done|]. split; [unfold same_chunks in *; by rewrite !fmap_cons, Hsame|done].
Qed.
Lemma same_chunks_slot a arr l' q : same_chunks (chunks a) l' → slot (Amap arr l') q = slot a q.
Proof.
  intros Hs. unfold slot, slot_of. cbn [chunks].
  pose proof (f_equal (lookup (Z.to_nat (q / kAMapChunkNPages))) Hs) as E. rewrite !list_lookup_fmap in E.
  destruct (l' !! _) as [[c|]|], (chunks a !! _) as [[c'|]|]; try done. simpl in *. by injection E as ->.
Qed.

(** The object of a slot is one of the chunks'. *)
Lemma slot_chunk a q an : slot a q = Some an → Some an ∈ chunk_slots (chunks a).
Proof.
  unfold slot, slot_of, chunk_slots. intros Hs.
  destruct (chunks a !! Z.to_nat (q / kAMapChunkNPages)) as [[c|]|] eqn:Hc; [|done|done]. simpl in Hs.
  destruct (ck_anon c !! Z.to_nat (q mod kAMapChunkNPages)) as [o|] eqn:Ho; [|done]. simpl in Hs. subst o.
  apply list_elem_of_bind. exists (Some c). split; by eapply list_elem_of_lookup_2.
Qed.

(** [vm_object_copy] allocates the object, its anonymous map and the array of chunks, and
    shares every slot. *)
Lemma vm_object_copy_run n s obj o a map m :
  objects s !! obj = Some o → ob_type o = kVMObjAnon → amaps s !! ob_amap o = Some a →
  maps s !! map = Some m → pt_ok (mp_pml4 m) (ps s) → shareable map (mp_pml4 m) s (chunk_slots (chunks a)) →
  (1 ≤ length (chunks a) ≤ 32)%nat → heap_ready (3 + length (chunks a) + n) (heap s) →
  ∃ new am arr cs s4,
    vm_object_copy obj s =
      Ok (new, set_object new (Object 1 kVMObjAnon (ob_size o) am (ob_parent o)) (set_amap am (Amap arr cs) s4)) ∧
    heap_ready n (heap s4) ∧ same_chunks (chunks a) cs ∧ shared (mp_pml4 m) (chunk_slots (chunks a)) s s4 ∧
    (∀ z, ¬ heap_live (heap s) new z) ∧ (∀ z, ¬ heap_live (heap s) am z) ∧ (∀ z, ¬ heap_live (heap s) arr z) ∧
    NoDup [new; am; arr] ∧ heap_live (heap s4) new sizeof_vm_object ∧ heap_live (heap s4) am sizeof_vm_amap ∧
    heap_live (heap s4) arr (8 * Z.of_nat (length (chunks a))) ∧ ∀ q z, heap_live (heap s) q z → heap_live (heap s4) q z.
Proof.
  intros Ho Ht Ha Hm Hok Hs Hlen Hr. set (k := (length (chunks a) + n)%nat).
  destruct (kmem_alloc_run (S (S k)) sizeof_vm_object s Hr) as (new & h1 & Ha1 & Hp1 & Hr1 & Hf1 & Hlv1 & Hl1);
    [unfold sizeof_vm_object; lia|].
  destruct (kmem_alloc_run (S k) sizeof_vm_amap (set_heap h1 s) Hr1) as (am & h2 & Ha2 & Hp2 & Hr2 & Hf2 & Hlv2 & Hl2);
    [unfold sizeof_vm_amap; lia|].
  destruct (kmem_alloc_run k (8 * Z.of_nat (length (chunks a))) (set_heap h2 s) Hr2) as (arr & h3 & Ha3 & Hp3 & Hr3 & Hf3 & Hlv3 & Hl3);
    [lia|].
  assert (pages_of h3 = ps s) as Hp by (rewrite Hp3; unfold ps; simpl; rewrite Hp2; exact Hp1).
  assert (arenas_of h3 = arenas_of (heap s)) as Hvs.
  { trans (arenas_of h2); [exact (kmem_alloc_arenas k (8 * Z.of_nat (length (chunks a))) (set_heap h2 s) arr h3 Hr2 ltac:(lia) Ha3)|].
    trans (arenas_of h1); [exact (kmem_alloc_arenas (S k) sizeof_vm_amap (set_heap h1 s) am h2 Hr1 ltac:(unfold sizeof_vm_amap; lia) Ha2)|].
    exact (kmem_alloc_arenas (S (S k)) sizeof_vm_object s new h1 Hr ltac:(unfold sizeof_vm_object; lia) Ha1). }
  pose proof (shared_heap (mp_pml4 m) s h3 Hok Hp Hvs) as Hsh0.
  destruct (copy_chunks_run n map m (chunks a) (set_heap h3 s) Hm) as (cs & s4 & Hrun & Hsame & Hsh & Hr4 & Hl4);
    [apply Hsh0|by apply (shared_shareable _ _ [] _ s)|done|].
  exists new, am, arr, cs, s4. split.
  { unfold vm_object_copy. rewrite (bind_step _ _ _ _ _ Ha1).
    rewrite (bind_step _ _ _ _ _ (get_object_ok (set_heap h1 s) obj o Ho)). rewrite decide_True by done.
    erewrite bind_step.
    2: { unfold amap_copy. rewrite (bind_step _ _ _ _ _ Ha2).
         rewrite (bind_step _ _ _ _ _ (get_amap_ok (set_heap h2 s) _ a Ha)).
         rewrite (bind_step _ _ _ _ _ Ha3). rewrite (bind_step _ _ _ _ _ Hrun). reflexivity. }
    by rewrite Ht. }
  split; [done|]. split; [done|]. split; [exact (shared_trans _ [] _ _ _ _ Hsh0 Hsh)|]. split; [done|].
  split; [intros z Hz; by apply (Hf2 z), Hl1|]. split; [intros z Hz; by apply (Hf3 z), Hl2, Hl1|].
  split; [|split; [by apply Hl4, Hl3, Hl2|split; [by apply Hl4, Hl3|]]].
  { rewrite !NoDup_cons, !not_elem_of_cons. split_and!; try apply not_elem_of_nil; [| | |apply NoDup_nil_2].
    - intros ->. by apply (Hf2 _ Hlv1).
    - intros ->. by apply (Hf3 sizeof_vm_object), Hl2.
    - intros ->. by apply (Hf3 _ Hlv2). }
  split; [by apply Hl4|]. intros q z Hq. by apply Hl4, Hl3, Hl2, Hl1.
Qed.

(** Copying an object shares its pages.  When every anon of the object is in a
    page that only [map] maps, the copy has the same anon at every page, every
    anon has one more reference for each slot that leads to it, the translation
    of every address stays what it was, and no mapping of a page of the object is
    writable any more: whoever writes first takes a fault. *)
Theorem vm_object_copy_shares n s obj o a map m :
  objects s !! obj = Some o → ob_type o = kVMObjAnon → amaps s !! ob_amap o = Some a →
  maps s !! map = Some m → pt_ok (mp_pml4 m) (ps s) → shareable map (mp_pml4 m) s (chunk_slots (chunks a)) →
  (1 ≤ length (chunks a) ≤ 32)%nat → heap_live (heap s) (ob_amap o) sizeof_vm_amap →
  heap_ready (3 + length (chunks a) + n) (heap s) →
  ∃ new am a' s', vm_object_copy obj s = Ok (new, s') ∧ heap_ready n (heap s') ∧
    objects s' !! new = Some (Object 1 kVMObjAnon (ob_size o) am (ob_parent o)) ∧
    amaps s' !! am = Some a' ∧ amaps s' !! ob_amap o = Some a ∧ (∀ q, slot a' q = slot a q) ∧
    (∀ an, anons s' !! an = add_refs (occ an (chunk_slots (chunks a))) <$> anons s !! an) ∧
    (∀ v, translate (phys (ps s')) (mp_pml4 m) v = translate (phys (ps s)) (mp_pml4 m) v) ∧
    ∀ q an x v, slot a q = Some an → anons s !! an = Some x → v ∈ mappings (ps s) x →
      readonly (mp_pml4 m) (ps s') v.
Proof.
  intros Ho Ht Ha Hm Hok Hs Hlen Hlive Hr.
  destruct (vm_object_copy_run n s obj o a map m Ho Ht Ha Hm Hok Hs Hlen Hr)
    as (new & am & arr & cs & s4 & Hrun & Hr4 & Hsame & [(h & an & ->) S2 S3 S4] & _ & Hf & _).
  assert (am ≠ ob_amap o) as Hne by (intros ->; by apply (Hf sizeof_vm_amap)).
  eexists new, am, (Amap arr cs), _. split; [exact Hrun|].
  split; [done|]. split; [apply lookup_insert_eq|]. split; [apply lookup_insert_eq|].
  split; [simpl; by rewrite lookup_insert_ne|]. split; [intros q; by apply same_chunks_slot|].
  split; [exact S2|]. split; [intros v; by apply protects_translate|].
  intros q b x v Hq Hx Hv. eapply S4; [by eapply slot_chunk|exact Hx|exact Hv].
Qed.

(** Copying an object that nothing has touched stops the kernel: its array of
    chunks has no element, and the copy asks the heap for no bytes. *)
Theorem vm_object_copy_untouched s obj o a :
  objects s !! obj = Some o → ob_type o = kVMObjAnon → amaps s !! ob_amap o = Some a → chunks a = [] →
  heap_ready 2 (heap s) → vm_object_copy obj s = Fatal "assert(size > 0)".
Proof.
  intros Ho Ht Ha Hc Hr.
  destruct (kmem_alloc_run 1 sizeof_vm_object s Hr) as (new & h1 & Ha1 & _ & Hr1 & _); [unfold sizeof_vm_object; lia|].
  destruct (kmem_alloc_run 0 sizeof_vm_amap (set_heap h1 s) Hr1) as (am & h2 & Ha2 & _); [unfold sizeof_vm_amap; lia|].
  unfold vm_object_copy. rewrite (bind_step _ _ _ _ _ Ha1).
  rewrite (bind_step _ _ _ _ _ (get_object_ok (set_heap h1 s) obj o Ho)). rewrite decide_True by done.
  unfold mbind at 1, M_bind at 1. unfold amap_copy. rewrite (bind_step _ _ _ _ _ Ha2).
  rewrite (bind_step _ _ _ _ _ (get_amap_ok (set_heap h2 s) _ a Ha)). rewrite Hc.
  unfold mbind at 1, M_bind at 1. unfold kmem_alloc, on_heap.
  change (8 * Z.of_nat (length [])) with 0. by rewrite heap_alloc_zero.
Qed.
End props.
(** ** A process with one map entry *)

#[local] Existing Instance demo_pages.

Definition demo_map : vm_map := Map [Entry 50 0x1000 0x3000 0 60] (vmem_of 9) 1048576.
Definition demo_object : vm_object := Object 1 kVMObjAnon 0x2000 61 None.
Definition demo_vm (cs : list (option vm_amap_chunk)) (an : gmap Z vm_anon) (live : list (Z * Z)) : vm_state counter_heap :=
  Vm (CounterHeap 100 live (VState ∅ [] 0, demo_pmap)) an {[61 := Amap 0 cs]} {[60 := demo_object]}
    {[9 := demo_map]} ∅ false.

Lemma demo_fault cs an live :
  (∀ i c, cs !! i = Some (Some c) → length (ck_anon c) = 32%nat) →
  (∀ b x, an !! b = Some x → (b, sizeof_vm_anon) ∈ live) →
  fault_at (demo_vm cs an live) 8 9 0x1234 demo_map (Entry 50 0x1000 0x3000 0 60) demo_object (Amap 0 cs) 0.
Proof.
  intros Hc Hl. split; try done.
  apply demo_pmap_ok.
Qed.

(** The same process over the slab allocator. *)
Definition slab_vm : vm_state (kmem kstate) :=
  Vm (ready_kmem demo_kernel) ∅ {[61 := Amap 0 []]} {[60 := demo_object]} {[9 := demo_map]} ∅ false.

Lemma vm_fault_first_touch_witness :
  ∃ pg s', vm_fault 8 9 0x1234 kVMFaultWrite slab_vm = Ok (0, s') ∧
    (∀ i, inside pg i → phys (ps s') i = 0) ∧ pmap_trans 1048576 0x1234 (ps s') = Ok (pg + 0x234, ps s').
Proof.
  assert (fault_at slab_vm 8 9 0x1234 demo_map (Entry 50 0x1000 0x3000 0 60) demo_object (Amap 0 []) 0) as Hf
    by (split; try done; apply demo_pmap_ok).
  destruct (vm_fault_first_touch slab_vm 8 9 0x1234 kVMFaultWrite _ _ _ _ _ Hf eq_refl eq_refl)
    as (an & pg & a' & s' & H1 & _ & _ & H2 & H3 & _).
  - apply ready_kmem_ready. lia.
  - by apply (bool_decide_unpack _).
  - exists pg, s'. split; [exact H1|]. split; [exact H2|exact H3].
Defined.

(** Page 1052672 is shared. *)
Definition shared_chunk : list (option vm_amap_chunk) := [Some (Chunk 80 (Some 70 :: replicate 31 None))].
Lemma vm_fault_copy_on_write_witness :
  let s := demo_vm shared_chunk {[70 := Anon 2 true 1052672]} [(70, 56)] in
  ∃ new pg s', vm_fault 8 9 0x1234 kVMFaultWrite s = Ok (0, s') ∧
    pmap_trans 1048576 0x1234 (ps s') = Ok (pg + 0x234, ps s') ∧
    anons s' = <[new := Anon 1 true pg]> (<[70 := Anon 1 true 1052672]> (anons s)).
Proof.
  intros s.
  assert (fault_at s 8 9 0x1234 demo_map (Entry 50 0x1000 0x3000 0 60) demo_object (Amap 0 shared_chunk) 0) as Hf.
  { apply demo_fault.
    - intros [|i] c; [|done]. by intros [= <-].
    - intros b x [-> _]%lookup_singleton_Some. left. }
  destruct (vm_fault_copy_on_write s 8 9 0x1234 kVMFaultWrite _ _ _ _ _ 70 2 1052672 Hf)
    as (new & pg & a' & s' & H1 & _ & _ & H2 & _ & _ & _ & H3 & _); try done.
  - split; [by apply (bool_decide_unpack _)|]. intros a Ha. split.
    + intros x Hx Hxa. change (x ∈ [1060864; 1064960; 1069056; 1073152; 1077248; 1081344; 1085440; 1089536]) in Hx.
      rewrite !elem_of_cons, elem_of_nil in Hx. unfold inside, PGSIZE in *. lia.
    + intros q x Hq Hx Hxa. apply zero_tables in Hx as [_ ->]. unfold inside, PGSIZE in *. simpl in *. lia.
  - intros x ->%list_elem_of_singleton. done.
  - by apply Nat.leb_le.
  - exists new, pg, s'. split; [exact H1|]. split; [exact H2|exact H3].
Defined.

(** The page is mapped for all access at 0x1000 before the copy. *)
Definition mapped_vm (p : pstate) : vm_state counter_heap :=
  Vm (CounterHeap 100 [(61, 16); (70, 56)] (VState ∅ [] 0, set_pv 1052672 [PV 90 9 0x1000] p))
    {[70 := Anon 1 true 1052672]} {[61 := Amap 0 shared_chunk]} {[60 := demo_object]} {[9 := demo_map]} ∅ false.

Lemma vm_object_copy_shares_witness :
  ∃ p new s', pmap_trans 1048576 0x1000 p = Ok (1052672, p) ∧
    vm_object_copy 60 (mapped_vm p) = Ok (new, s') ∧ readonly 1048576 (ps s') 0x1000 ∧
    anons s' !! 70 = Some (Anon 2 true 1052672).
Proof.
  assert (page_addr 1052672) as Hpa by by apply (bool_decide_unpack _).
  destruct (pmap_enter_kern_entered 1048576 demo_pmap 1052672 0x1000 kVMAll) as (p & _ & He & _);
    [apply demo_pmap_ok|by apply (bool_decide_unpack _)|exact Hpa|].
  destruct (vm_object_copy_shares 0 (mapped_vm p) 60 demo_object (Amap 0 shared_chunk) 9 demo_map)
    as (new & am & a' & s' & H1 & _ & _ & _ & _ & _ & H2 & _ & H3); try done.
  - apply pt_ok_pv, He.
  - intros an Han. exists (Anon 1 true 1052672).
    assert (an = 70) as ->.
    { change (Some an ∈ Some 70 :: replicate 31 None) in Han.
      apply elem_of_cons in Han as [[= ->]|Han]; [done|].
      by apply elem_of_replicate_inv in Han. }
    split_and!; [done|by vm_compute|by vm_compute|]. apply Forall_singleton. split; [done|]. eexists. split; [exact (et_pte _ _ _ _ _ _ He)|].
    split; [split|]; [done| |]; by rewrite pte_get_addr_value by (done || apply prot_range).
  - simpl. lia.
  - left.
  - intros x Hx. change (x ∈ [(61, 16); (70, 56)]) in Hx. rewrite !elem_of_cons, elem_of_nil in Hx.
    destruct Hx as [->|[->|[]]]; done.
  - exists p, new, s'. split.
    { destruct (entered_trans 1048576 0x1000 1052672 demo_pmap p Hpa) as [Ht _]; [done|exact He|exact Ht]. }
    split; [exact H1|]. split.
    + apply (H3 0 70 (Anon 1 true 1052672)); [done|done|left].
    + by rewrite H2.
Defined.

Lemma vm_object_copy_untouched_witness :
  vm_object_copy 60 (demo_vm [] ∅ []) = Fatal "assert(size > 0)".
Proof.
  apply (vm_object_copy_untouched (demo_vm [] ∅ []) 60 demo_object (Amap 0 [])); try done.
  by intros x Hx%elem_of_nil.
Defined.
