(* ===== verification/UserArena.v ===== *)
(** * The arena of a process's map

    A map takes its addresses from an arena of its own, which [vm_map_new] (vm/vm.c)
    makes with one span for the whole of the user's addresses.  What the arena has
    allocated are the ranges of the map's entries, and a request is served exactly when
    there is a range that is still free. *)

From S2P Require Import Prelude Vmem VmemInv VmemSpan VmemProps VmPage Pmap VmKernel VmKernelProps Heap Vm VmProps.
Open Scope Z_scope.

(** ** Ranges *)

Definition user_range (r : Z * Z) : Prop := USER_BASE ≤ r.1 ∧ 0 < r.2 ∧ r.1 + r.2 ≤ USER_BASE + USER_SIZE.
(** Nothing of [r] is in one of [l]. *)
Definition unused (l : list (Z * Z)) (r : Z * Z) : Prop := ∀ e, e ∈ l → disjoint_ext r e.
Definition entry_range (ent : vm_map_entry) : Z * Z := (en_start ent, en_end ent - en_start ent).

(** One free segment has all of the range. *)
Definition covers (a : vmem) (r : Z * Z) : Prop :=
  ∃ t, t ∈ segqueue a ∧ seg_ty t = kVMemSegFree ∧ seg_base t ≤ r.1 ∧ r.1 + r.2 ≤ seg_end t.

(** The arena of a map whose entries have the ranges [l]. *)
Record user_arena (l : list (Z * Z)) (a : vmem) : Prop := {
  ua_live : live a ≡ₚ l;
  ua_spans : spans a = [(USER_BASE, USER_SIZE)];
  ua_alone : vm_allocfn a = 0;
  ua_bases t : t ∈ segqueue a → USER_BASE ≤ seg_base t ≤ USER_BASE + USER_SIZE ∧ seg_base t mod PGSIZE = 0;
  ua_free r : user_range r → unused l r → covers a r;
}.
Definition arena_holds (v : Z) (l : list (Z * Z)) (vs : vstate) : Prop :=
  sys_ok vs ∧ ∃ a, arenas vs !! v = Some a ∧ user_arena l a.
Definition arena_fits (m : vm_map) (vs : vstate) : Prop := arena_holds (mp_vmem m) (entry_range <$> entries m) vs.

#[export] Instance unused_proper : Proper ((≡ₚ) ==> (=) ==> iff) unused.
Proof. intros l1 l2 HP r ? <-. unfold unused. by setoid_rewrite HP. Qed.
#[export] Instance user_arena_proper : Proper ((≡ₚ) ==> (=) ==> iff) user_arena.
Proof.
  assert (∀ l1 l2 a, l1 ≡ₚ l2 → user_arena l1 a → user_arena l2 a) as H.
  { intros l1 l2 a HP [U1 U2 U3 U4 U5]. split; [by rewrite U1|done..|]. intros r Hr Hu. apply U5; [done|]. by rewrite HP. }
  intros l1 l2 HP a ? <-. split; by apply H.
Qed.

(** What is left after a piece was taken from a free segment. *)
Lemma covers_rest min addr size a a' r :
  room_left min addr size a a' → 0 < r.2 → disjoint_ext r (addr, size) → covers a r → covers a' r.
Proof.
  intros Hroom Hr Hd (t & Ht & Hf & H1 & H2). destruct (Hroom t Ht) as [Hk|(E & H3 & Hl & Hh)]; [by exists t|].
  destruct Hd as [Hd|Hd]; simpl in Hd.
  - destruct Hl as (t' & ? & ? & ? & ?); [lia|]. exists t'. split_and!; [done|done|lia|lia].
  - destruct Hh as (t' & ? & ? & ? & ?); [lia|]. exists t'. split_and!; [done|done|lia|lia].
Qed.

(** The arena as [vmem_init] makes it. *)
Lemma user_arena_new a ns nf :
  segqueue a = [Seg ns kVMemSegSpan USER_BASE USER_SIZE; Seg nf kVMemSegFree USER_BASE USER_SIZE] →
  vm_allocfn a = 0 → user_arena [] a.
Proof.
  intros Hq Hfn. split; [by unfold live, of_type; rewrite Hq|by unfold spans, markers; rewrite Hq|done| |].
  - intros t. rewrite Hq, !elem_of_cons, elem_of_nil. unfold USER_BASE, USER_SIZE. intros [->|[->|[]]]; simpl; split; (lia || done).
  - intros r (H1 & H2 & H3) _. exists (Seg nf kVMemSegFree USER_BASE USER_SIZE). rewrite Hq. split; [right; left|].
    split; [done|]. unfold seg_end. simpl. lia.
Qed.

(** A range at an address of the arena's choice, or at [vaddr]. *)
Definition asked (exact : bool) (vaddr : Z) : Z := if exact then vaddr else 0.
Definition asked_flags (exact : bool) : Z := if exact then kVMemExact else 0.
Definition wanted (exact : bool) (vaddr addr : Z) : Prop := exact = true → addr = vaddr.

(** The ranges of the entries are apart and in the user's part. *)
Lemma arena_ranges v l vs : arena_holds v l vs → Forall user_range l ∧ ForallOrdPairs disjoint_ext l.
Proof.
  intros [Hs (a & Ha & U)]. pose proof (so_arena _ _ _ Hs _ _ Ha) as Hok. split.
  - apply Forall_forall. intros r Hr. rewrite <-(ua_live _ _ U) in Hr.
    destruct (live_inside a r Hok Hr) as (f & Hf & Hi). rewrite (ua_spans _ _ U) in Hf.
    apply list_elem_of_singleton in Hf as ->. apply elem_of_live in Hr as (t & Ht & _ & ->).
    destruct (layout_pos _ _ _ _ (ao_layout _ Hok) Ht). unfold inside in Hi. simpl in *. split; simpl; lia.
  - eapply ordpairs_disjoint_proper; [exact (ua_live _ _ U)|]. by apply live_disjoint.
Qed.

(** Tags that a call has taken and forgets. *)
Lemma sys_ok_drop L vs : sys_inv (λ _, arena_ok) L vs → sys_ok vs.
Proof.
  intros [H1 H2 H3 H4 H5]. apply NoDup_app in H1 as (_ & _ & H1). split; try done.
  intros v a t Ha Ht Hin. apply (H4 v a t Ha Ht). apply elem_of_app. by right.
Qed.

Section xalloc.
Context {X : Type}.
Variable vm_kalloc : Z → Z → M (vstate * X) Z.
Variable call_alloc : Z → Z → Z → Z → M (vstate * X) (Z * Z).
Variable call_free : Z → Z → Z → Z → M (vstate * X) unit.

Lemma asked_args exact vaddr size l a :
  user_arena l a → 0 < size ≤ USER_SIZE → 0 ≤ vaddr < 2^63 →
  args_ok size (asked exact vaddr) (asked_flags exact) ∧ no_wrap size (asked exact vaddr) a ∧
  has_flag (asked_flags exact) kVMemExact = exact.
Proof.
  intros U Hs Hv. unfold USER_SIZE in Hs. assert (0 ≤ asked exact vaddr < 2^63) by (destruct exact; simpl; lia).
  split; [split; [lia|destruct exact; [by right|by left]]|]. split; [|by destruct exact].
  split_and!; [lia..|]. intros t Ht. destruct (ua_bases _ _ U t Ht) as [Hb _]. unfold USER_BASE, USER_SIZE in Hb. lia.
Qed.

Lemma user_arena_take exact vaddr addr size l a a' :
  user_arena l a → arena_ok a' → live a' ≡ₚ (addr, size) :: live a → markers a' = markers a → header a' = header a →
  bases_from [addr; addr + size] a a' → room_left (asked exact vaddr) addr size a a' →
  addr mod PGSIZE = 0 → size mod PGSIZE = 0 → 0 < size →
  user_arena ((addr, size) :: l) a' ∧ user_range (addr, size) ∧ unused l (addr, size).
Proof.
  intros U Hok Hl Hm Hh Hb Hr Ha Hs H0. pose proof U as [U1 U2 U3 U4 U5].
  assert (spans a' = [(USER_BASE, USER_SIZE)]) as Hsp by (unfold spans; by rewrite Hm).
  assert (user_range (addr, size)) as Hu.
  { destruct (live_inside a' (addr, size) Hok) as (f & Hf & Hi); [rewrite Hl; left|]. rewrite Hsp in Hf.
    apply list_elem_of_singleton in Hf as ->. unfold inside in Hi. simpl in Hi. split; simpl; lia. }
  split; [|split; [done|]].
  - split; [by rewrite Hl, U1|done| | |].
    + injection Hh as _ E1 E2 E3 E4 E5 E6 E7. congruence.
    + destruct Hu as (? & _ & ?). simpl in *. intros t Ht. destruct (Hb t Ht) as [Hn|(t0 & Ht0 & ->)]; [|by apply U4].
      rewrite !elem_of_cons, elem_of_nil in Hn. unfold PGSIZE in *. destruct Hn as [->|[->|[]]]; [lia|].
      split; [lia|]. Z.div_mod_to_equations. lia.
    + intros r Hru Hf. apply (covers_rest (asked exact vaddr) addr size a); [done|apply Hru| |].
      * apply Hf. left.
      * apply U5; [done|]. intros e He. apply Hf. by right.
  - intros e He. apply (ordpairs_disjoint_perm (live a') (addr, size) (live a)); [by apply live_disjoint|done|by rewrite U1].
Qed.

(** The arenas but [v]. *)
Definition apart_from (v : Z) (vs vs' : vstate) : Prop := ∀ w, w ≠ v → arenas vs' !! w = arenas vs !! w.

Lemma xalloc_served exact vaddr v size l vs (x : X) a s addr :
  sys_ok vs → arenas vs !! v = Some a → user_arena l a → 128 ≤ nfreesegs vs → 0 < size ≤ USER_SIZE →
  size mod PGSIZE = 0 → 0 ≤ vaddr < 2^63 → vaddr mod PGSIZE = 0 →
  search size (asked exact vaddr) (asked_flags exact) a = Some (s, addr) →
  ∃ vs', vmem_xalloc vm_kalloc call_alloc call_free v size 0 0 0 (asked exact vaddr) 0 (asked_flags exact) (vs, x) =
      Ok ((0, Some addr), (vs', x)) ∧ arena_holds v ((addr, size) :: l) vs' ∧ nfreesegs vs ≤ 2 + nfreesegs vs' ∧
    apart_from v vs vs' ∧ (user_range (addr, size) ∧ addr mod PGSIZE = 0 ∧ unused l (addr, size)) ∧ wanted exact vaddr addr.
Proof.
  intros Hs Ha U Hn Hz Hm Hv Hvm Hse. pose proof (so_arena _ _ _ Hs _ _ Ha) as Hok.
  destruct (asked_args exact vaddr size l a U Hz Hv) as (Hargs & Hw & Hfl). pose proof (so_count _ _ _ Hs) as Hc.
  destruct (xalloc_found vm_kalloc call_alloc call_free (λ _, arena_ok) [] v size _ _ vs x a s addr Hs ltac:(done) Ha
    Hargs Hw ltac:(by right) ltac:(lia) Hse) as (vs' & Hrun & Hs' & Hal).
  destruct (search_sound _ _ _ _ _ _ Hok Hw Hse) as (Hin & _ & _ & _ & Hx). rewrite Hfl in Hx.
  assert (addr mod PGSIZE = 0) as Had.
  { rewrite (search_start _ _ _ _ _ _ Hse). destruct (ua_bases _ _ U s Hin) as [_ Hb].
    apply Z.max_case; [done|]. by destruct exact. }
  destruct Hal as (a0 & a' & Ha0 & Hvs & Hl & Hmk & Hh & _ & _ & Ht & Hb & _ & Hr).
  rewrite Ha in Ha0. injection Ha0 as <-.
  pose proof (so_arena _ _ _ Hs' v a' ltac:(rewrite Hvs; apply lookup_insert_eq)) as Hok'.
  destruct (user_arena_take exact vaddr addr size l a a' U Hok' Hl Hmk Hh Hb Hr Had Hm ltac:(lia)) as (U' & Hu & Hf).
  exists vs'. split; [exact Hrun|]. split.
  { split; [done|]. exists a'. split; [rewrite Hvs; apply lookup_insert_eq|done]. }
  split; [rewrite Hc, (so_count _ _ _ Hs'); lia|]. split; [intros w Hw'; rewrite Hvs; by apply lookup_insert_ne|].
  split; [done|]. intros E. by rewrite (Hx E), E.
Qed.

(** No request is refused that could be served. *)
Lemma xalloc_refused exact vaddr v size l vs (x : X) a :
  sys_ok vs → arenas vs !! v = Some a → user_arena l a → 128 ≤ nfreesegs vs → 0 < size ≤ USER_SIZE →
  0 ≤ vaddr < 2^63 → search size (asked exact vaddr) (asked_flags exact) a = None →
  ∃ vs', vmem_xalloc vm_kalloc call_alloc call_free v size 0 0 0 (asked exact vaddr) 0 (asked_flags exact) (vs, x) =
      Ok ((- ERESOURCEEXHAUSTED, None), (vs', x)) ∧ arena_holds v l vs' ∧ nfreesegs vs ≤ 2 + nfreesegs vs' ∧
    apart_from v vs vs' ∧ ∀ addr, wanted exact vaddr addr → user_range (addr, size) → ¬ unused l (addr, size).
Proof.
  intros Hs Ha U Hn Hz Hv Hse. pose proof (so_arena _ _ _ Hs _ _ Ha) as Hok.
  destruct (asked_args exact vaddr size l a U Hz Hv) as (Hargs & Hw & Hfl). pose proof (so_count _ _ _ Hs) as Hc.
  destruct (free_segs vs) as [|i [|j pool]] eqn:Hp; simpl in Hc; [lia..|].
  exists (VState (arenas vs) pool (nfreesegs vs - 1 - 1)). split; [|split; [split; [|by exists a]|split; [simpl; lia|split; [done|]]]].
  - rewrite (xalloc_prologue _ _ _ v size _ _ vs x i j pool a Hargs ltac:(by right) Hp Ha), Hse.
    by rewrite (bind_step _ _ _ _ _ (try_import_none call_alloc call_free v size (asked_flags exact)
      (VState (arenas vs) pool (nfreesegs vs - 1 - 1)) x a Ha (ua_alone _ _ U))).
  - apply sys_ok_drop with [i; j]. by apply (sys_inv_take2 _ []).
  - intros addr Hwant Hr Hf. destruct (ua_free _ _ U (addr, size) Hr Hf) as (t & Ht & Hty & H1 & H2). simpl in H1, H2.
    destruct (search_complete size (asked exact vaddr) (asked_flags exact) a t Hok Hw Ht) as [y Hy]; [|congruence].
    split; [done|]. rewrite Hfl. destruct exact; simpl.
    + by rewrite (Hwant eq_refl) in *.
    + split; [lia|]. destruct (ua_bases _ _ U t Ht) as [Hb _]. unfold USER_BASE in Hb. lia.
Qed.
End xalloc.

(** ** The map's requests *)

Lemma map_xalloc_asked kpml4 exact vaddr v size l vs (x : pstate) :
  arena_holds v l vs → 128 ≤ nfreesegs vs → 0 < size ≤ USER_SIZE → size mod PGSIZE = 0 → 0 ≤ vaddr < 2^63 →
  vaddr mod PGSIZE = 0 →
  ∃ r out vs', map_xalloc kpml4 v size (asked exact vaddr) (asked_flags exact) (vs, x) = Ok ((r, out), (vs', x)) ∧
    nfreesegs vs ≤ 2 + nfreesegs vs' ∧ apart_from v vs vs' ∧
    ((∃ addr, r = 0 ∧ out = Some addr ∧ wanted exact vaddr addr ∧ arena_holds v ((addr, size) :: l) vs' ∧
        user_range (addr, size) ∧ addr mod PGSIZE = 0 ∧ unused l (addr, size)) ∨
     (r = - ERESOURCEEXHAUSTED ∧ out = None ∧ arena_holds v l vs' ∧
        ∀ addr, wanted exact vaddr addr → user_range (addr, size) → ¬ unused l (addr, size))).
Proof.
  intros [Hs (a & Ha & U)] Hn Hz Hm Hv Hvm.
  destruct (search size (asked exact vaddr) (asked_flags exact) a) as [[s addr]|] eqn:E.
  - destruct (xalloc_served (vm_kalloc kpml4) no_allocfn no_freefn exact vaddr v size l vs x a s addr)
      as (vs' & Hrun & Hh & Ht & Hap & (H1 & H2 & H3) & Hw); try done.
    exists 0, (Some addr), vs'. split; [exact Hrun|]. split; [done|]. split; [done|]. left. by exists addr.
  - destruct (xalloc_refused (vm_kalloc kpml4) no_allocfn no_freefn exact vaddr v size l vs x a)
      as (vs' & Hrun & Hh & Ht & Hap & Hno); try done.
    exists (- ERESOURCEEXHAUSTED), None, vs'. split; [exact Hrun|]. split; [done|]. split; [done|]. by right.
Qed.

Lemma map_xalloc_exact kpml4 v r l vs (x : pstate) :
  arena_holds v l vs → 128 ≤ nfreesegs vs → user_range r → unused l r → r.1 mod PGSIZE = 0 → r.2 mod PGSIZE = 0 →
  ∃ vs', map_xalloc kpml4 v r.2 r.1 kVMemExact (vs, x) = Ok ((0, Some r.1), (vs', x)) ∧
    arena_holds v (r :: l) vs' ∧ nfreesegs vs ≤ 2 + nfreesegs vs' ∧ apart_from v vs vs'.
Proof.
  intros Hh Hn Hr Hu H1 H2. pose proof Hr as (B1 & B2 & B3). unfold USER_BASE, USER_SIZE in *.
  destruct (map_xalloc_asked kpml4 true r.1 v r.2 l vs x Hh Hn) as (c & out & vs' & Hrun & Ht & Hap & Hc);
    [unfold USER_SIZE; lia|done|lia|done|]. simpl in Hrun.
  destruct Hc as [(addr & -> & -> & Hw & Hh' & _)|(_ & _ & _ & Hno)].
  - rewrite (Hw eq_refl) in *. exists vs'. split; [exact Hrun|]. split; [by destruct r|]. done.
  - destruct (Hno r.1); [done|by destruct r..].
Qed.

(** The arena of a new map. *)
Lemma user_arena_run newmap vs (x : pstate) k :
  sys_ok vs → 130 + 2 * Z.of_nat k ≤ nfreesegs vs → arenas vs !! vmem_of newmap = None →
  ∃ vs', vmem_init (vmem_of newmap) "task map" USER_BASE USER_SIZE PGSIZE 0 0 0 0 (vs, x) = Ok ((), (vs', x)) ∧
    arena_holds (vmem_of newmap) [] vs' ∧ 128 + 2 * Z.of_nat k ≤ nfreesegs vs' ∧ apart_from (vmem_of newmap) vs vs'.
Proof.
  intros Hs Hn Hv. pose proof (so_count _ _ _ Hs) as Hc.
  destruct (free_segs vs) as [|ns [|nf pool]] eqn:Hp; simpl in Hc; [lia..|].
  destruct (init_run (vmem_of newmap) "task map" USER_BASE USER_SIZE PGSIZE 0 0 0 vs x ns nf pool Hs Hv Hp)
    as (vs' & a & Hrun & Hs' & Ha & _ & Hfn & _ & Hn' & Hq & _); try (unfold USER_BASE, USER_SIZE; simpl; lia).
  exists vs'. split; [exact Hrun|]. split; [|split; [lia|intros w Hw; rewrite Ha; by apply lookup_insert_ne]].
  split; [done|]. exists a. rewrite Ha, lookup_insert_eq. split; [done|]. by eapply user_arena_new.
Qed.

(** ** Mapping an object *)

Section map_object.
Context {K : Type} `{!KernelHeap K} (kpml4 : Z).
Implicit Types (s : vm_state K).

Lemma on_kernel_run {A} (f : M kstate A) s r k :
  f (kernel_of (heap s)) = Ok (r, k) → on_kernel f s = Ok (r, set_heap (with_kernel k (heap s)) s).
Proof. intros E. unfold on_kernel. by rewrite E. Qed.
Lemma live_with_kernel k (h : K) q z : heap_live (with_kernel k h) q z ↔ heap_live h q z.
Proof. apply heap_live_with. Qed.
Lemma size_aligned z : z mod 4096 = 0 → (Z.land z (PGSIZE - 1) =? 0) = true.
Proof. intros H. change (PGSIZE - 1) with (Z.ones 12). rewrite Z.land_ones by lia. by apply Z.eqb_eq. Qed.

Definition retained (o : vm_object) : vm_object :=
  Object (ob_refcnt o + 1) (ob_type o) (ob_size o) (ob_amap o) (ob_parent o).
Definition vaddr_of (exact : bool) (vaddr : Z) : Z := if exact then vaddr else VADDR_MAX.

(** [vm_map_object], given what the arena answers. *)
Lemma vm_map_object_run n s map m obj o exact vaddr size offset r out vs :
  objects s !! obj = Some o → maps s !! map = Some m → vaddr ≠ VADDR_MAX → size mod 4096 = 0 →
  map_xalloc kpml4 (mp_vmem m) size (asked exact vaddr) (asked_flags exact) (arenas_of (heap s), ps s) =
    Ok ((r, out), (vs, ps s)) →
  heap_ready (S n) (heap s) →
  let s1 := set_heap (with_kernel (vs, ps s) (heap s)) (set_object obj (retained o) s) in
  if r <? 0 then
    vm_map_object kpml4 map obj (vaddr_of exact vaddr) size offset false s = Ok ((r, vaddr_of exact vaddr), s1)
  else ∃ p h,
    let addr := default (asked exact vaddr) out in
    vm_map_object kpml4 map obj (vaddr_of exact vaddr) size offset false s =
      Ok ((r, addr), set_map map (Map (entries m ++ [Entry p addr (addr + size) offset obj]) (mp_vmem m) (mp_pml4 m))
        (set_heap h (set_object obj (retained o) s))) ∧
    pages_of h = ps s ∧ arenas_of h = vs ∧ heap_ready n h ∧ ∀ q z, heap_live (heap s) q z → heap_live h q z.
Proof.
  intros Ho Hm Hv Hsz Hx Hr s1.
  assert (kernel_of (heap (set_object obj (retained o) s)) = (arenas_of (heap s), ps s)) as Hk by apply surjective_pairing.
  rewrite <-Hk in Hx. apply on_kernel_run in Hx. fold s1 in Hx.
  assert (∀ e, vm_map_object kpml4 map obj (vaddr_of exact vaddr) size offset false s = e ↔
    (if r <? 0 then Ok ((r, vaddr_of exact vaddr), s1) else
      (entry ← kmem_alloc sizeof_vm_map_entry;
       m ← get_map map;
       mmodify (set_map map (Map (entries m ++ [Entry entry (default (asked exact vaddr) out)
         (default (asked exact vaddr) out + size) offset obj]) (mp_vmem m) (mp_pml4 m)));;
       mret (r, default (asked exact vaddr) out)) s1) = e) as Hrun.
  { intros e. unfold vm_map_object. rewrite size_aligned, massert_bind by done.
    rewrite (bind_step _ _ s obj (set_object obj (retained o) s)).
    2: { rewrite (bind_step _ _ s () (set_object obj (retained o) s)); [done|]. unfold vm_object_retain.
      by rewrite (bind_step _ _ _ _ _ (get_object_ok s obj o Ho)). }
    rewrite (bind_step _ _ _ _ _ (get_map_ok (set_object obj (retained o) s) map m Hm)).
    destruct exact; simpl vaddr_of; rewrite ?(proj2 (Z.eqb_neq vaddr VADDR_MAX) Hv), ?Z.eqb_refl; simpl negb;
      cbv iota; simpl asked in *; simpl asked_flags in *; rewrite (bind_step _ _ _ _ _ Hx); cbv beta iota;
      by destruct (r <? 0). }
  destruct (r <? 0); [by apply Hrun|].
  destruct (kmem_alloc_run n sizeof_vm_map_entry s1) as (p & h & Ha & Hp & Hr' & _ & _ & Hl);
    [by apply heap_ready_with|unfold sizeof_vm_map_entry; lia|].
  pose proof (kmem_alloc_arenas n sizeof_vm_map_entry s1 p h ltac:(by apply heap_ready_with)
    ltac:(unfold sizeof_vm_map_entry; lia) Ha) as Hvs.
  exists p, h. split; [|split; [|split; [|split; [done|]]]].
  - apply Hrun. rewrite (bind_step _ _ _ _ _ Ha). by rewrite (bind_step _ _ _ _ _ (get_map_ok (set_heap h s1) map m Hm)).
  - rewrite Hp. unfold s1, ps, pages_of. simpl. by rewrite kernel_of_with.
  - rewrite Hvs. unfold s1, arenas_of. simpl. by rewrite kernel_of_with.
  - intros q z Hq. apply Hl. by apply live_with_kernel.
Qed.
End map_object.
