(* ===== verification/UserMem.v ===== *)
(** * The memory a process sees

    Loads and stores go through the page tables; where those say no, the processor
    raises a page fault, whose handler ([pagefault_interrupt] of x86_64/intr.c) calls
    [vm_fault], and tries again.  Over a map of anonymous objects this
    amounts to a flat memory: pages that appear on first touch, pages shared with
    other maps and the copies made of them on a write are not seen.  The
    processor's part is modelled here, without its TLB. *)

From S2P Require Import Prelude Vmem VmPage Pmap PmapProps PmapKernel VmKernel VmKernelProps Heap Vm VmProps.
Open Scope Z_scope.

Section cpu.
Context {K : Type} `{!KernelHeap K} (kmap map : Z).
Implicit Types (s : vm_state K).

(** [map] is the current task's, [vaddr] what CR2 holds. *)
Definition pagefault_interrupt (vaddr code : Z) : M (vm_state K) unit :=
  r ← vm_fault kmap map vaddr code;
  if r <? 0 then fatal "unhandled page fault" else mret ().

(** ** The processor *)

Definition kVMFaultUser : Z := 4.
Definition fault_code (present write : bool) : Z :=
  Z.lor (if present then kVMFaultPresent else 0) (Z.lor (if write then kVMFaultWrite else 0) kVMFaultUser).

(** The physical address, or the error code of the fault. *)
Definition mmu (p : pstate) (root va : Z) (write : bool) : Z + Z :=
  let e := pte_of (phys p) root va in
  let present := has_flag e kMMUPresent in
  if present && (negb write || has_flag e kMMUWrite) then inl (pte_get_addr e + pgi va)
  else inr (fault_code present write).

(** [n] attempts. *)
Fixpoint cpu_access (n : nat) (va : Z) (write : bool) : M (vm_state K) Z :=
  match n with
  | O => undef "faults again"
  | S n' =>
      m ← get_map map;
      p ← on_pstate mget;
      match mmu p (mp_pml4 m) va write with
      | inl pa => mret pa
      | inr code => pagefault_interrupt va code;; cpu_access n' va write
      end
  end.
Definition cpu_load (va : Z) : M (vm_state K) Z :=
  pa ← cpu_access 2 va false;
  p ← on_pstate mget;
  mret (phys p pa).
Definition cpu_store (va b : Z) : M (vm_state K) unit :=
  pa ← cpu_access 2 va true;
  on_pstate (mmodify (set_phys (λ m x, if x =? pa then b else m x))).

Inductive access := Load (va : Z) | Store (va b : Z).
(** What the loads give. *)
Fixpoint cpu_run (l : list access) : M (vm_state K) (list Z) :=
  match l with
  | [] => mret []
  | Load va :: l => v ← cpu_load va; vs ← cpu_run l; mret (v :: vs)
  | Store va b :: l => cpu_store va b;; cpu_run l
  end.
(** The same on a flat memory. *)
Fixpoint flat_run (l : list access) (f : Z → Z) : list Z * (Z → Z) :=
  match l with
  | [] => ([], f)
  | Load va :: l => let '(vs, g) := flat_run l f in (f va :: vs, g)
  | Store va b :: l => flat_run l (λ x, if x =? va then b else f x)
  end.
Definition access_va (a : access) : Z := match a with Load va | Store va _ => va end.

(** ** What the map says *)

Section space.
Context (m : vm_map).
Abbreviation root := (mp_pml4 m).

(** The page of an object that an address belongs to: its anonymous map and its number. *)
Definition page_index (ent : vm_map_entry) (va : Z) : Z :=
  w64 (PGROUNDDOWN va - en_start ent + en_offset ent) / PGSIZE.
Definition cell s (va : Z) : option (Z * Z) :=
  ent ← map_entry_for_addr m va;
  o ← objects s !! en_obj ent;
  Some (ob_amap o, page_index ent va).
Definition in_slot s (c : Z * Z) : option Z := a ← amaps s !! c.1; slot a c.2.

(** The bytes of a page of an object, 0 where it has none yet. *)
Definition cell_byte s (c : Z * Z) (i : Z) : Z :=
  match an ← in_slot s c; anons s !! an with
  | Some x => phys (ps s) (physpage x + i)
  | None => 0
  end.
Definition byte s (va : Z) : Z :=
  match cell s va with Some c => cell_byte s c (pgi va) | None => 0 end.
Definition same_bytes s s' : Prop :=
  ∀ c i, 0 ≤ c.2 → 0 ≤ i < PGSIZE → cell_byte s' c i = cell_byte s c i.

(** The entries: whole pages of anonymous objects, none at two addresses. *)
Record layout_ok s : Prop := {
  la_map : maps s !! map = Some m;
  la_bounds ent : ent ∈ entries m →
    0 ≤ en_start ent ∧ en_end ent ≤ 2^47 ∧ en_start ent mod 4096 = 0 ∧ en_end ent mod 4096 = 0;
  la_object ent va : map_entry_for_addr m va = Some ent → ∃ o, objects s !! en_obj ent = Some o ∧
    ob_type o = kVMObjAnon ∧ ob_parent o = None ∧ is_Some (amaps s !! ob_amap o) ∧ 0 ≤ page_index ent va < 1024;
  la_once va1 va2 c : cell s va1 = Some c → cell s va2 = Some c → PGROUNDDOWN va1 = PGROUNDDOWN va2;
}.

(** The anons: a reference for each slot that leads to one, counted in 24 bits. *)
Record refs_ok s : Prop := {
  rf_slot c an : 0 ≤ c.2 → in_slot s c = Some an → is_Some (anons s !! an);
  rf_count an x (l : list (Z * Z)) : anons s !! an = Some x → NoDup l →
    Forall (λ c, 0 ≤ c.2 ∧ in_slot s c = Some an) l → Z.of_nat (length l) ≤ an_refcnt x;
  rf_resident an x : anons s !! an = Some x → resident x = true;
  rf_fits an x : anons s !! an = Some x → an_refcnt x < 2^23;
}.

(** Their pages: neither free nor tables, each its own. *)
Record frames_ok s : Prop := {
  fr_tables : pt_ok root (ps s);
  fr_own an x : anons s !! an = Some x → own_page root (ps s) (physpage x);
  fr_apart an1 an2 x1 x2 : anons s !! an1 = Some x1 → anons s !! an2 = Some x2 → an1 ≠ an2 →
    physpage x1 ≠ physpage x2;
}.

(** What an object of the heap is in use as. *)
Inductive role := RAnon | RArray (am : Z) | RPv (page va : Z) | RObject | RAmap | RMap.
#[export] Instance role_eq_dec : EqDecision role.
Proof. solve_decision. Defined.
Definition role_of s (p : Z) (r : role) : Prop :=
  match r with
  | RAnon => is_Some (anons s !! p)
  | RArray am => p ≠ 0 ∧ am_array <$> amaps s !! am = Some p
  | RPv page va => ∃ pv, pv ∈ pv_table (ps s) page ∧ pv_map pv = map ∧ pv_vaddr pv = va ∧ pv_addr pv = p
  | RObject => is_Some (objects s !! p)
  | RAmap => is_Some (amaps s !! p)
  | RMap => is_Some (maps s !! p)
  end.
Definition role_size s (r : role) : Z :=
  match r with
  | RAnon => sizeof_vm_anon
  | RArray am => match amaps s !! am with Some a => 8 * Z.of_nat (length (chunks a)) | None => 0 end
  | RPv _ _ => sizeof_pv_entry
  | RObject => sizeof_vm_object
  | RAmap => sizeof_vm_amap
  | RMap => sizeof_vm_map
  end.
Definition own_pvs s (page : Z) : list pv_entry := filter (λ pv, pv_map pv = map) (pv_table (ps s) page).
Record roles_ok s : Prop := {
  ro_chunks am a : amaps s !! am = Some a →
    (∀ i c, chunks a !! i = Some (Some c) → length (ck_anon c) = 32%nat) ∧ (am_array a ≠ 0 → chunks a ≠ []);
  ro_live p r : role_of s p r → heap_live (heap s) p (role_size s r);
  ro_unique p r1 r2 : role_of s p r1 → role_of s p r2 → r1 = r2;
  ro_pvs page : NoDup (pv_addr <$> own_pvs s page);
  ro_vaddrs page : NoDup (pv_vaddr <$> own_pvs s page);
}.

(** The mappings recorded with a page are mappings of it. *)
Definition pv_fits s (page : Z) (pv : pv_entry) : Prop :=
  maps_page root (ps s) (pv_vaddr pv) page ∧ 0 ≤ pv_vaddr pv < 2^47 ∧ PGROUNDDOWN (pv_vaddr pv) = pv_vaddr pv.
Definition all_pvs s (P : Z → pv_entry → Prop) : Prop :=
  ∀ page pv, pv ∈ pv_table (ps s) page → pv_map pv = map → P page pv.

Record core s : Prop := {
  co_layout : layout_ok s;
  co_refs : refs_ok s;
  co_frames : frames_ok s;
  co_roles : roles_ok s;
  co_pvs : all_pvs s (pv_fits s);
}.

(** The entry of the page tables for an address: none, or the page of its slot, with
    write permission only where no other slot has that page; and it is recorded
    with the page.  No entry where the map has none. *)
Definition pte_cell s (va : Z) (c : Z * Z) : Prop :=
  pte_of (phys (ps s)) root va = 0 ∨
    ∃ an x prot pv, in_slot s c = Some an ∧ anons s !! an = Some x ∧
      pte_of (phys (ps s)) root va = pte_value (physpage x) (vm_prot_to_i386 prot) ∧
      (prot = kVMAll ∧ an_refcnt x = 1 ∨ prot = kVMReadExecute) ∧
      pv ∈ pv_table (ps s) (physpage x) ∧ pv_map pv = map ∧ pv_vaddr pv = PGROUNDDOWN va.
Definition pte_fits s (va : Z) : Prop :=
  0 ≤ va < 2^47 → match cell s va with Some c => pte_cell s va c | None => pte_of (phys (ps s)) root va = 0 end.

Record space_ok s : Prop := {
  sp_core : core s;
  sp_idle : in_pagefault s = false;
  sp_ptes va : pte_fits s va;
}.

(** ** Addresses and pages *)

Lemma in_entry s va ent :
  layout_ok s → map_entry_for_addr m va = Some ent → ent ∈ entries m ∧ en_start ent ≤ va < en_end ent ∧ 0 ≤ va < 2^47.
Proof.
  intros L Hf. apply List.find_some in Hf as [Hin Hb]. apply list_elem_of_In in Hin.
  pose proof (la_bounds _ L _ Hin). apply andb_true_iff in Hb as [?%Z.leb_le ?%Z.ltb_lt]. split; [done|lia].
Qed.
Lemma cell_bounds s va c : layout_ok s → cell s va = Some c → 0 ≤ va < 2^47 ∧ 0 ≤ c.2.
Proof.
  intros L Hc. unfold cell in Hc. destruct (map_entry_for_addr m va) as [ent|] eqn:E; [|done]. simpl in Hc.
  split; [by eapply in_entry|]. destruct (la_object _ L _ _ E) as (o & Ho & _ & _ & _ & Hi).
  rewrite Ho in Hc. injection Hc as <-. simpl. lia.
Qed.
Lemma round_down va : 0 ≤ va < 2^64 → PGROUNDDOWN va = va / 4096 * 4096.
Proof. apply PGROUNDDOWN_eq. Qed.
Lemma round_twice va : 0 ≤ va < 2^47 → PGROUNDDOWN (PGROUNDDOWN va) = PGROUNDDOWN va ∧ 0 ≤ PGROUNDDOWN va < 2^47.
Proof.
  intros H. rewrite (round_down va) by lia. assert (0 ≤ va / 4096 * 4096 < 2^47) by (Z.div_mod_to_equations; lia).
  split; [|done]. rewrite round_down by lia. by rewrite Z.div_mul.
Qed.
Lemma same_page_entry s v w :
  layout_ok s → 0 ≤ v < 2^47 → 0 ≤ w < 2^47 → PGROUNDDOWN v = PGROUNDDOWN w →
    map_entry_for_addr m v = map_entry_for_addr m w.
Proof.
  intros L Hv Hw E. rewrite !round_down in E by lia. unfold map_entry_for_addr. pose proof (la_bounds _ L) as Hb.
  induction (entries m) as [|ent l IH]; [done|]. simpl.
  destruct (Hb ent) as (? & ? & ? & ?); [left|].
  replace ((en_start ent <=? w) && (w <? en_end ent)) with ((en_start ent <=? v) && (v <? en_end ent)).
  { destruct (_ && _); [done|]. apply IH. intros x Hx. apply Hb. by right. }
  apply eq_true_iff_eq. rewrite !andb_true_iff, !Z.leb_le, !Z.ltb_lt. Z.div_mod_to_equations. lia.
Qed.
Lemma same_page_cell s v w :
  layout_ok s → 0 ≤ v < 2^47 → 0 ≤ w < 2^47 → PGROUNDDOWN v = PGROUNDDOWN w → cell s v = cell s w.
Proof.
  intros L Hv Hw E. unfold cell. rewrite (same_page_entry s v w) by done.
  destruct (map_entry_for_addr m w) as [ent|]; [|done]. simpl. unfold page_index. by rewrite E.
Qed.
Lemma same_page_vpage v w :
  0 ≤ v < 2^47 → 0 ≤ w < 2^47 → vpage v = vpage w ↔ PGROUNDDOWN v = PGROUNDDOWN w.
Proof.
  intros Hv Hw. split; intros E.
  - apply vpage_eq in E; [|lia..]. rewrite !round_down by lia. Z.div_mod_to_equations. lia.
  - rewrite <-(vpage_round v), <-(vpage_round w) by lia. by rewrite E.
Qed.
Lemma vpage_pte mem v w : vpage v = vpage w → pte_of mem root v = pte_of mem root w.
Proof.
  intros E. pose proof (f_equal fst E) as E1. pose proof (f_equal snd E) as E2. simpl in E1, E2.
  unfold pte_of. by rewrite E1, E2.
Qed.
Lemma pte_of_at p va : pte_of (phys p) root va ≠ 0 → pte_at p root va = Some (pte_of (phys p) root va).
Proof. unfold pte_of, pte_at. by destruct (table_at _ _ _). Qed.
Lemma pte_at_of p va e : pte_at p root va = Some e → pte_of (phys p) root va = e.
Proof. unfold pte_of, pte_at. destruct (table_at _ _ _); [by intros [= <-]|done]. Qed.
Lemma pte_of_same p p' va : pte_at p' root va = pte_at p root va → pte_of (phys p') root va = pte_of (phys p) root va.
Proof.
  unfold pte_at, pte_of. destruct (table_at (phys p') root (path3 va)), (table_at (phys p) root (path3 va));
    cbn [mbind option_bind]; congruence.
Qed.
Lemma pgi_bounds va : 0 ≤ pgi va < PGSIZE.
Proof.
  unfold pgi. change 0xFFF with (Z.ones 12). rewrite Z.land_ones by lia. apply Z.mod_pos_bound. done.
Qed.

Lemma fits_same s v w :
  layout_ok s → 0 ≤ v < 2^47 → PGROUNDDOWN v = PGROUNDDOWN w → pte_fits s v → pte_fits s w.
Proof.
  intros L Hv E Hf Hw. specialize (Hf Hv). unfold pte_cell in *.
  rewrite <-(same_page_cell s v w), <-E, <-(vpage_pte _ v w) by (done || by apply same_page_vpage). exact Hf.
Qed.
Lemma fits_at s va c : layout_ok s → pte_fits s va → cell s va = Some c → pte_cell s va c.
Proof. intros L Hf Hc. destruct (cell_bounds _ _ _ L Hc) as [Hv _]. specialize (Hf Hv). by rewrite Hc in Hf. Qed.

(** ** Changes of the heap and its pages alone *)

Lemma own_page_kept p p' page :
  (∀ a, untouched root p a → phys p' a = phys p a ∧ untouched root p' a) → own_page root p page →
    own_page root p' page.
Proof. intros Hu [Hp Ho]. split; [done|]. intros a Ha. by apply Hu, Ho. Qed.

Lemma cell_byte_at s c i an x :
  in_slot s c = Some an → anons s !! an = Some x → cell_byte s c i = phys (ps s) (physpage x + i).
Proof. intros Hs Hx. unfold cell_byte. rewrite Hs. simpl. by rewrite Hx. Qed.

Lemma prot_flags page prot :
  prot = kVMAll ∨ prot = kVMReadExecute →
  has_flag (pte_value page (vm_prot_to_i386 prot)) kMMUPresent = true ∧
  has_flag (pte_value page (vm_prot_to_i386 prot)) kMMUWrite = bool_decide (prot = kVMAll).
Proof.
  intros Hp. change kMMUPresent with (2^0). change kMMUWrite with (2^1). rewrite !has_flag_value by lia.
  by destruct Hp as [-> | ->].
Qed.

Lemma maps_page_of p v page :
  maps_page root p v page ↔ live_pte (pte_of (phys p) root v) ∧ pte_get_addr (pte_of (phys p) root v) = page.
Proof.
  split; [intros (e & He & H); by rewrite (pte_at_of p v e He)|]. intros [Hl Hp]. eexists. split; [|done].
  apply pte_of_at. intros E. destruct Hl as [Hl _]. by rewrite E in Hl.
Qed.
Lemma pv_fits_same s s' page pv :
  pte_of (phys (ps s')) root (pv_vaddr pv) = pte_of (phys (ps s)) root (pv_vaddr pv) → pv_fits s page pv →
    pv_fits s' page pv.
Proof. intros E [Hm H]. split; [|done]. apply maps_page_of. rewrite E. by apply maps_page_of. Qed.
(** No mapping of the page of [va] is recorded. *)
Definition no_pv s (va : Z) : Prop := all_pvs s (λ _ pv, pv_vaddr pv ≠ PGROUNDDOWN va).
Lemma no_pv_zero s va : core s → 0 ≤ va < 2^64 → pte_of (phys (ps s)) root va = 0 → no_pv s va.
Proof.
  intros C Hv E page pv Hin Hm Ev. destruct (co_pvs _ C page pv Hin Hm) as [Hp _].
  apply maps_page_of in Hp as [[Hp _] _].
  rewrite Ev, (vpage_pte _ _ va), E in Hp by by apply vpage_round. done.
Qed.

Lemma pages_changed s h :
  core s → pt_ok root (pages_of h) → roles_ok (set_heap h s) → all_pvs (set_heap h s) (pv_fits (set_heap h s)) →
  (∀ a, untouched root (ps s) a → phys (pages_of h) a = phys (ps s) a ∧ untouched root (pages_of h) a) →
  core (set_heap h s) ∧ same_bytes s (set_heap h s).
Proof.
  intros [[L1 L2 L3 L4] [R1 R2 R3] [F1 F2 F3] _ _] Hpt Hro Hpvs Hu. split.
  - split; [by split|by split| |done|done]. split; [done| |done]. intros an x Hx. eapply own_page_kept;
      [exact Hu|by eapply F2].
  - intros c i _ Hi. unfold cell_byte. change (in_slot (set_heap h s) c) with (in_slot s c).
    destruct (in_slot s c) as [an|]; [|done]. simpl. destruct (anons s !! an) as [x|] eqn:Hx; [|done].
    apply Hu. apply (F2 _ _ Hx). unfold inside. lia.
Qed.

(** New uses of heap objects are of new objects. *)
Lemma roles_unique s s' p0 r0 :
  roles_ok s → (∀ p r, role_of s' p r → role_of s p r ∨ (p = p0 ∧ r = r0)) → (∀ z, ¬ heap_live (heap s) p0 z) →
  ∀ p r1 r2, role_of s' p r1 → role_of s' p r2 → r1 = r2.
Proof.
  intros R Hr Hf p r1 r2 [H1|[-> ->]]%Hr [H2|[E ->]]%Hr; [by eapply ro_unique| | |done]; exfalso.
  - subst p. by eapply Hf, (ro_live _ R).
  - by eapply Hf, (ro_live _ R).
Qed.

Lemma roles_unique_list s s' (news : list (Z * role)) :
  roles_ok s → (∀ p r, role_of s' p r → role_of s p r ∨ (p, r) ∈ news) → NoDup news.*1 →
  Forall (λ p, ∀ z, ¬ heap_live (heap s) p z) news.*1 →
  ∀ p r1 r2, role_of s' p r1 → role_of s' p r2 → r1 = r2.
Proof.
  intros R Hr Hnd Hf p r1 r2 H1%Hr H2%Hr. rewrite Forall_forall in Hf.
  assert (∀ r r', role_of s p r → (p, r') ∈ news → False) as Hno.
  { intros r r' Ho Hn. eapply (Hf p); [by eapply (list_elem_of_fmap_2 fst _ (p, r'))|by apply (ro_live _ R)]. }
  destruct H1 as [H1|H1], H2 as [H2|H2]; [by eapply ro_unique|by destruct (Hno r1 r2)|by destruct (Hno r2 r1)|].
  clear -Hnd H1 H2. induction news as [|[q r] news IH]; [by apply elem_of_nil in H1|]. simpl in Hnd.
  apply NoDup_cons in Hnd as [Hq Hnd]. rewrite elem_of_cons in H1, H2.
  assert (∀ r', (p, r') ∈ news → p ∈ news.*1) as Hin by (intros r' H; by apply (list_elem_of_fmap_2 fst _ (p, r'))).
  destruct H1 as [H1|H1], H2 as [H2|H2]; [congruence| | |by apply IH].
  - destruct Hq. injection H1 as <- _. by apply (Hin r2).
  - destruct Hq. injection H2 as <- _. by apply (Hin r1).
Qed.

Lemma own_pvs_elem s page pv : pv ∈ own_pvs s page ↔ pv_map pv = map ∧ pv ∈ pv_table (ps s) page.
Proof. unfold own_pvs. by rewrite list_elem_of_filter. Qed.
Lemma pv_role s page pv : pv ∈ pv_table (ps s) page → pv_map pv = map →
  role_of s (pv_addr pv) (RPv page (pv_vaddr pv)).
Proof. intros. by exists pv. Qed.

(** ** Entering and removing a mapping *)

Lemma enter_roles s h page ent v :
  roles_ok s → (∀ q, pv_table (pages_of h) q = if q =? page then PV ent map v :: pv_table (ps s) page else
    pv_table (ps s) q) →
  (∀ z, ¬ heap_live (heap s) ent z) → heap_live h ent sizeof_pv_entry →
  all_pvs s (λ _ pv, pv_vaddr pv ≠ v) →
  (∀ q z, heap_live (heap s) q z → heap_live h q z) → roles_ok (set_heap h s).
Proof.
  intros R Hpv Hfr Hlv Hno Hl. assert (∀ p r, role_of (set_heap h s) p r → role_of s p r ∨ (p = ent ∧
    r = RPv page v)) as Hr.
  { intros p [|am|q va| | |]; [by left|by left| |by left..]. intros (pv & Hin & H1 & H2 & H3).
    change (ps (set_heap h s)) with (pages_of h) in Hin.
    rewrite Hpv in Hin. destruct (Z.eqb_spec q page) as [->|]; [|left; by exists pv].
    apply elem_of_cons in Hin as [->|Hin]; [right; simpl in *; by subst|left; by exists pv]. }
  split.
  - apply R.
  - intros p r [Hp|[-> ->]]%Hr; [apply Hl, (ro_live _ R _ _ Hp)|done].
  - by apply (roles_unique s _ ent (RPv page v)).
  - intros q. unfold own_pvs. change (ps (set_heap h s)) with (pages_of h). rewrite Hpv.
    pose proof (ro_pvs _ R q) as Hnd. destruct (Z.eqb_spec q page) as [->|]; [|done].
    rewrite filter_cons_True by done. rewrite fmap_cons. apply NoDup_cons. split; [|exact Hnd].
    intros (pv & E & [Hm Hin]%own_pvs_elem)%list_elem_of_fmap. simpl in E.
    apply (Hfr sizeof_pv_entry). rewrite E. eapply (ro_live _ R _ (RPv page _)), pv_role; done.
  - intros q. unfold own_pvs. change (ps (set_heap h s)) with (pages_of h). rewrite Hpv.
    pose proof (ro_vaddrs _ R q) as Hnd. destruct (Z.eqb_spec q page) as [->|]; [|done].
    rewrite filter_cons_True by done. rewrite fmap_cons. apply NoDup_cons. split; [|exact Hnd].
    intros (pv & E & [Hm Hin]%own_pvs_elem)%list_elem_of_fmap. simpl in E. by apply (Hno page pv).
Qed.

Lemma pv_remove_spec (v : Z) l pv l' :
  pv_remove map v l = Some (pv, l') → pv_map pv = map ∧ pv_vaddr pv = v ∧ l ≡ₚ pv :: l'.
Proof.
  revert pv l'. induction l as [|e l IH]; intros pv l'; [done|]. simpl.
  destruct ((pv_map e =? map) && (pv_vaddr e =? v)) eqn:E.
  - intros [= -> ->]. apply andb_true_iff in E as [E1%Z.eqb_eq E2%Z.eqb_eq]. done.
  - destruct (pv_remove map v l) as [[q r]|] eqn:Hr; simpl; [|done]. intros [= -> <-].
    destruct (IH _ _ eq_refl) as (H1 & H2 & ->). split; [done|]. split; [done|]. apply Permutation_swap.
Qed.
Lemma pv_remove_found (v : Z) l pv :
  pv ∈ l → pv_map pv = map → pv_vaddr pv = v → ∃ q l', pv_remove map v l = Some (q, l').
Proof.
  intros Hin Hm Hv. induction l as [|e l IH]; [by apply elem_of_nil in Hin|]. simpl.
  destruct ((pv_map e =? map) && (pv_vaddr e =? v)) eqn:E; [by eexists _, _|].
  apply elem_of_cons in Hin as [<-|Hin]; [rewrite Hm, Hv, !Z.eqb_refl in E; done|].
  destruct (IH Hin) as (q & l' & ->). by eexists _, _.
Qed.

Lemma unenter_roles s h page v pv l :
  roles_ok s → pv_remove map v (pv_table (ps s) page) = Some (pv, l) →
  (∀ q, pv_table (pages_of h) q = if q =? page then l else pv_table (ps s) q) →
  (∀ q z, heap_live (heap s) q z → q ≠ pv_addr pv → heap_live h q z) → roles_ok (set_heap h s).
Proof.
  intros R Hrm Hpv Hl. destruct (pv_remove_spec _ _ _ _ Hrm) as (Hm & Hv & HP).
  assert (pv ∈ pv_table (ps s) page) as Hin by (rewrite HP; left).
  assert (NoDup (pv_addr <$> pv :: filter (λ pv, pv_map pv = map) l)) as Hnd.
  { pose proof (ro_pvs _ R page) as Hn. unfold own_pvs in Hn. rewrite HP in Hn. by rewrite filter_cons_True in Hn. }
  rewrite fmap_cons in Hnd. apply NoDup_cons in Hnd as [Hout Hnd].
  assert (∀ p r, role_of (set_heap h s) p r → role_of s p r ∧ p ≠ pv_addr pv) as Hr.
  { intros p r Hp. assert (role_of s p r) as Hold.
    { destruct r as [|am|q va| | |]; [done|done| |done..]. destruct Hp as (pv' & Hin' & H1 & H2 & H3). exists pv'. split; [|done].
      change (ps (set_heap h s)) with (pages_of h) in Hin'. rewrite Hpv in Hin'.
      destruct (Z.eqb_spec q page) as [->|]; [rewrite HP; by right|done]. }
    split; [done|]. intros ->. pose proof (ro_unique _ R _ _ _ Hold (pv_role s page pv Hin Hm)) as ->.
    destruct Hp as (pv' & Hin' & H1 & _ & H3). change (ps (set_heap h s)) with (pages_of h) in Hin'.
    rewrite Hpv, Z.eqb_refl in Hin'. apply Hout. rewrite <-H3. apply list_elem_of_fmap_2.
    by apply list_elem_of_filter. }
  split.
  - apply R.
  - intros p r [Hp Hne]%Hr. apply Hl; [|done]. apply (ro_live _ R _ _ Hp).
  - intros p r1 r2 [H1 _]%Hr [H2 _]%Hr. by eapply (ro_unique _ R).
  - intros q. unfold own_pvs. change (ps (set_heap h s)) with (pages_of h). rewrite Hpv.
    destruct (Z.eqb_spec q page) as [->|]; [done|apply (ro_pvs _ R)].
  - intros q. unfold own_pvs. change (ps (set_heap h s)) with (pages_of h). rewrite Hpv.
    destruct (Z.eqb_spec q page) as [->|]; [|apply (ro_vaddrs _ R)].
    pose proof (ro_vaddrs _ R page) as Hn. unfold own_pvs in Hn. rewrite HP in Hn.
    rewrite filter_cons_True in Hn by done.
    rewrite fmap_cons in Hn. by apply NoDup_cons in Hn as [_ ?].
Qed.

(** The page tables lead, at [va], to the page of the slot's anon. *)
Definition leads s (va : Z) (c : Z * Z) (prot : Z) : Prop :=
  ∃ an x pv, in_slot s c = Some an ∧ anons s !! an = Some x ∧
    pte_of (phys (ps s)) root va = pte_value (physpage x) (vm_prot_to_i386 prot) ∧
    (prot = kVMAll ∧ an_refcnt x = 1 ∨ prot = kVMReadExecute) ∧
    pv ∈ pv_table (ps s) (physpage x) ∧ pv_map pv = map ∧ pv_vaddr pv = PGROUNDDOWN va.
Lemma leads_fits s va c prot : cell s va = Some c → leads s va c prot → pte_fits s va.
Proof.
  intros Hc (an & x & pv & H) _. rewrite Hc. right. by exists an, x, prot, pv.
Qed.

(** A mapping of another page still fits when only the page tables, the records of mappings
    and slots of other pages have changed. *)
Lemma fits_kept s s' w :
  objects s' = objects s → pte_of (phys (ps s')) root w = pte_of (phys (ps s)) root w →
  (∀ c, cell s w = Some c → in_slot s' c = in_slot s c) →
  (∀ an x, anons s !! an = Some x → ∃ x', anons s' !! an = Some x' ∧ physpage x' = physpage x ∧ (an_refcnt x = 1 →
    an_refcnt x' = 1)) →
  (∀ page pv, pv ∈ pv_table (ps s) page → pv_map pv = map → pv_vaddr pv = PGROUNDDOWN w →
    pv ∈ pv_table (ps s') page) →
  pte_fits s w → pte_fits s' w.
Proof.
  intros Ho Hp Hs Ha Hpv Hf Hw. specialize (Hf Hw).
  assert (cell s' w = cell s w) as -> by (unfold cell; by rewrite Ho). destruct (cell s w) as [c|]; [|by rewrite Hp].
  unfold pte_cell. rewrite Hp, (Hs c eq_refl). destruct Hf as [->|(an & x & prot & pv & H1 & H2 & H3 & H4 & H5 & H6 & H7)];
    [by left|right].
  destruct (Ha an x H2) as (x' & Hx' & Epg & Er). exists an, x', prot, pv. rewrite Epg. split_and!; try done;
    [|by apply Hpv].
  destruct H4 as [[-> ?]|?]; [left; auto|by right].
Qed.

Lemma other_page v w :
  0 ≤ v < 2^47 → 0 ≤ w < 2^47 → PGROUNDDOWN w ≠ PGROUNDDOWN v → vpage w ≠ vpage (PGROUNDDOWN v).
Proof.
  intros Hv Hw Hne. destruct (round_twice v Hv) as [Et Eb]. intros E.
  apply same_page_vpage in E; [|done..]. congruence.
Qed.

Lemma fits_intro s w : (0 ≤ w < 2^47 → pte_fits s w) → pte_fits s w.
Proof. intros H Hw. by apply H. Qed.

Lemma enter_step n s va c an x prot :
  core s → (∀ w, PGROUNDDOWN w ≠ PGROUNDDOWN va → pte_fits s w) → cell s va = Some c → in_slot s c = Some an →
  anons s !! an = Some x → (prot = kVMAll ∧ an_refcnt x = 1 ∨ prot = kVMReadExecute) → no_pv s va →
  heap_ready (S n) (heap s) → (3 ≤ free_pages (ps s))%nat →
  ∃ h, pmap_enter map (physpage x) (PGROUNDDOWN va) prot s = Ok ((), set_heap h s) ∧ heap_ready n h ∧
    arenas_of h = arenas_of (heap s) ∧ core (set_heap h s) ∧ same_bytes s (set_heap h s) ∧ (free_pages (ps s) ≤ 3 + free_pages (pages_of h))%nat ∧
    (∀ w, pte_fits (set_heap h s) w) ∧ leads (set_heap h s) va c prot.
Proof.
  intros C Hf Hc Hs Hx Hprot Hno Hr Hfree. pose proof (co_layout _ C) as L. destruct (cell_bounds _ _ _ L Hc)
    as [Hv _].
  destruct (fr_own _ (co_frames _ C) _ _ Hx) as [Hpa _].
  destruct (pmap_enter_run n s map m (physpage x) (PGROUNDDOWN va) prot Hr (la_map _ L) (fr_tables _ (co_frames _
    C)) Hfree Hpa)
    as (ent & h & Hrun & Hr' & Hvs & [E1 E2 E3 E4 E5 E6] & Hpv & Hfr & Hlv & Hl).
  exists h. split; [done|]. split; [done|]. split; [done|].
  assert (vpage (PGROUNDDOWN va) = vpage va) as Ev by (apply vpage_round; lia).
  destruct (pages_changed s h C E1) as [C' B']; [by eapply enter_roles; [apply C|..]| |done|].
  { intros q pv Hin Hm. change (ps (set_heap h s)) with (pages_of h) in Hin. rewrite Hpv in Hin.
    assert (pv ∈ pv_table (ps s) q → pv_fits (set_heap h s) q pv) as Hold.
    { intros Hin0. pose proof (co_pvs _ C q pv Hin0 Hm) as Hpf. apply (pv_fits_same s); [|done]. apply E6.
      destruct Hpf as (_ & Hb & Er). destruct (round_twice va Hv) as [Et Eb].
      intros E. apply same_page_vpage in E; [|done..]. apply (Hno q pv Hin0 Hm). congruence. }
    destruct (Z.eqb_spec q (physpage x)) as [->|]; [|by apply Hold]. apply elem_of_cons in Hin as [->|Hin];
      [|by apply Hold].
    destruct (round_twice va Hv) as [Et Eb]. split; [|done]. exists (pte_value (physpage x) (vm_prot_to_i386 prot)).
    destruct (prot_flags (physpage x) prot) as [Hpr _]; [tauto|].
    split; [exact E2|]. rewrite pte_get_addr_value by (done || apply prot_range). split; [|done]. split; [done|].
    by rewrite pte_get_addr_value by (done || apply prot_range). }
  split; [done|]. split; [done|]. split; [done|].
  assert (leads (set_heap h s) va c prot) as Hlead.
  { exists an, x, (PV ent map (PGROUNDDOWN va)). split_and!; try done.
    - rewrite <-(vpage_pte _ _ _ Ev). by apply pte_at_of.
    - change (ps (set_heap h s)) with (pages_of h). rewrite Hpv, Z.eqb_refl. left. }
  split; [|done]. intros w. destruct (decide (PGROUNDDOWN w = PGROUNDDOWN va)) as [E|Hne].
  - apply (fits_same _ va); [by apply C'|done|done|]. by eapply leads_fits.
  - apply fits_intro. intros Hw47.
    apply (fits_kept s); try done; [by eapply E6, other_page|by intros an' x' ?; exists x'| |by apply Hf].
    intros page pv Hin _ _. change (ps (set_heap h s)) with (pages_of h). rewrite Hpv.
    destruct (Z.eqb_spec page (physpage x)) as [->|]; [by right|done].
Qed.

Lemma unenter_step n s (b : bool) va page :
  core s → 0 ≤ va < 2^47 → heap_ready n (heap s) → (∀ w, PGROUNDDOWN w ≠ PGROUNDDOWN va → pte_fits s w) →
  (b = true → pte_of (phys (ps s)) root va ≠ 0 ∧
     ∃ pv, pv ∈ pv_table (ps s) page ∧ pv_map pv = map ∧ pv_vaddr pv = PGROUNDDOWN va) →
  (b = false → no_pv s va) →
  ∃ h, mwhen b (pmap_unenter map (Some page) (PGROUNDDOWN va)) s = Ok ((), set_heap h s) ∧
    (∀ k, heap_ready k (heap s) → heap_ready k h) ∧ arenas_of h = arenas_of (heap s) ∧ core (set_heap h s) ∧
    same_bytes s (set_heap h s) ∧ free_pages (pages_of h) = free_pages (ps s) ∧ no_pv (set_heap h s) va ∧
    ∀ w, PGROUNDDOWN w ≠ PGROUNDDOWN va → pte_fits (set_heap h s) w.
Proof.
  intros C Hv Hr Hf Hb Hb0. destruct b; [|exists (heap s); specialize (Hb0 eq_refl); split_and!; by destruct s].
  destruct Hb as (He & pv0 & Hin & Hm0 & Hv0); [done|]. pose proof (co_layout _ C) as L.
  assert (vpage (PGROUNDDOWN va) = vpage va) as Ev by (apply vpage_round; lia).
  assert (pte_at (ps s) root (PGROUNDDOWN va) = Some (pte_of (phys (ps s)) root va)) as He'.
  { rewrite <-(pte_of_at _ va He). by apply pte_at_vpage. }
  destruct (pv_remove_found _ _ _ Hin Hm0 Hv0) as (pv & l & Hrm). destruct (pv_remove_spec _ _ _ _ Hrm)
    as (Hm & Hva & HP).
  assert (pv ∈ pv_table (ps s) page) as Hpin by (rewrite HP; left).
  destruct (pmap_unenter_run n s map m page (PGROUNDDOWN va) _ pv l Hr (la_map _ L) (fr_tables _ (co_frames _ C))
    He' He Hrm)
    as (h & Hrun & Hr' & Hvs & [R1 R2 R3 R4] & _ & Hpv & Hl); [exact (ro_live _ (co_roles _ C) _ (RPv page _) (pv_role s
      page pv Hpin Hm))|].
  exists h. split; [done|]. split; [done|]. split; [done|].
  assert (no_pv (set_heap h s) va) as Hno.
  { intros q pv' Hin' Hm' Ew. change (ps (set_heap h s)) with (pages_of h) in Hin'. rewrite Hpv in Hin'.
    destruct (Z.eqb_spec q page) as [->|Hq].
    - pose proof (ro_vaddrs _ (co_roles _ C) page) as Hnd. unfold own_pvs in Hnd.
      rewrite HP, filter_cons_True, fmap_cons in Hnd by done.
      apply NoDup_cons in Hnd as [Hout _]. apply Hout. rewrite Hva, <-Ew. apply list_elem_of_fmap_2.
      by apply list_elem_of_filter.
    - destruct (co_pvs _ C q pv' Hin' Hm') as [H1%maps_page_of _], (co_pvs _ C page pv Hpin Hm)
        as [H2%maps_page_of _].
      rewrite Ew in H1. rewrite Hva in H2. by destruct H1 as [_ <-], H2 as [_ <-]. }
  assert (∀ q pv', pv' ∈ pv_table (pages_of h) q → pv' ∈ pv_table (ps s) q) as Hsub.
  { intros q pv' Hin'. rewrite Hpv in Hin'. destruct (Z.eqb_spec q page) as [->|]; [rewrite HP; by right|done]. }
  destruct (pages_changed s h C R1) as [C' B']; [by eapply unenter_roles; [apply C|..]| |done|].
  { intros q pv' Hin' Hm'. pose proof (co_pvs _ C q pv' (Hsub q pv' Hin') Hm') as Hpf. apply (pv_fits_same s);
      [|done]. apply R4.
    destruct Hpf as (_ & Hb & Er). destruct (round_twice va Hv) as [Et Eb].
    intros E. apply same_page_vpage in E; [|done..]. apply (Hno q pv' Hin' Hm'). congruence. }
  split; [done|]. split; [done|]. split; [unfold free_pages; by rewrite R2|]. split; [done|].
  intros w Hne. apply fits_intro. intros Hw47.
  apply (fits_kept s); try done; [by eapply R4, other_page|by intros an' x' ?; exists x'| |by apply Hf].
  intros q pv' Hin' _ Hw. change (ps (set_heap h s)) with (pages_of h). rewrite Hpv.
  destruct (Z.eqb_spec q page) as [->|]; [|done]. rewrite HP in Hin'. apply elem_of_cons in Hin' as [->|];
    [congruence|done].
Qed.

Lemma same_pvs_roles s p' :
  pv_table p' = pv_table (ps s) → roles_ok s → roles_ok (set_heap (with_pages p' (heap s)) s).
Proof.
  intros Epv [R1 R2 R3 R4 R5]. set (s' := set_heap _ s). assert (pv_table (ps s') = pv_table (ps s)) as E.
  { unfold ps, s'. simpl. by rewrite pages_of_with. }
  assert (∀ p r, role_of s' p r ↔ role_of s p r) as Hro.
  { intros p [|am|q w| | |]; [done|done| |done..]. unfold role_of. by rewrite E. }
  split; [done| | | |].
  - intros p r Hp%Hro. apply live_with, (R2 _ _ Hp).
  - intros p r1 r2 ?%Hro ?%Hro. by eapply R3.
  - intros q. unfold own_pvs. rewrite E. apply R4.
  - intros q. unfold own_pvs. rewrite E. apply R5.
Qed.

Lemma reenter_step s va c an x prot :
  core s → (∀ w, PGROUNDDOWN w ≠ PGROUNDDOWN va → pte_fits s w) → cell s va = Some c → leads s va c prot →
  in_slot s c = Some an → anons s !! an = Some x → an_refcnt x = 1 → pte_of (phys (ps s)) root va ≠ 0 →
  ∃ h, pmap_reenter map (physpage x) (PGROUNDDOWN va) kVMAll s = Ok ((), set_heap h s) ∧
    (∀ k, heap_ready k (heap s) → heap_ready k h) ∧ arenas_of h = arenas_of (heap s) ∧ core (set_heap h s) ∧
    same_bytes s (set_heap h s) ∧ free_pages (pages_of h) = free_pages (ps s) ∧ (∀ w, pte_fits (set_heap h s) w) ∧ leads (set_heap h s) va c kVMAll.
Proof.
  intros C Hf Hc (an' & x' & pv & H1 & H2 & Hpte0 & _ & Hpv) Hs Hx Hx1 He. assert (an' = an) as -> by congruence.
  assert (x' = x) as -> by congruence. pose proof (co_layout _ C) as L. destruct (cell_bounds _ _ _ L Hc) as [Hv _].
  pose proof (fr_tables _ (co_frames _ C)) as Hok. destruct (fr_own _ (co_frames _ C) _ _ Hx) as [Hpa _].
  assert (vpage (PGROUNDDOWN va) = vpage va) as Ev by (apply vpage_round; lia).
  destruct (table_at (phys (ps s)) root (path3 (PGROUNDDOWN va))) as [t|] eqn:Ht.
  2: { rewrite <-(vpage_pte _ _ _ Ev) in He. unfold pte_of in He. by rewrite Ht in He. }
  set (e := pte_value (physpage x) (vm_prot_to_i386 kVMAll)).
  assert (0 ≤ e < 2^64) as Hr by (apply pte_value_range; [apply prot_range|destruct Hpa; lia]).
  set (p' := set_phys (λ m, write64 m (entry_addr t (pti (PGROUNDDOWN va))) e) (ps s)).
  assert (p' = set_phys (λ _, write64 (phys (ps s)) (entry_addr t (pti (PGROUNDDOWN va))) e) (ps s)) as Ep by done.
  set (h := with_pages p' (heap s)). assert (pages_of h = p') as Eh by apply pages_of_with.
  exists h. split; [|split; [intros k; by apply ready_with|split; [apply arenas_of_with|]]].
  { unfold pmap_reenter. rewrite (bind_step _ _ _ _ _ (get_map_ok _ _ _ (la_map _ L))).
    by apply on_pstate_run, enter_present. }
  destruct (pages_changed s h C) as [C' B']; [rewrite Eh, Ep; by apply leaf_ok|apply same_pvs_roles;
    [done|apply C]| | |].
  { intros q pv' Hin' Hm'. change (ps (set_heap h s)) with (pages_of h) in Hin'. rewrite Eh in Hin'.
    pose proof (co_pvs _ C q pv' Hin' Hm') as Hpf. destruct (decide (vpage (pv_vaddr pv') = vpage va)) as [E|Hn].
    - split; [|apply Hpf]. destruct Hpf as [Hmp _]. apply maps_page_of in Hmp as [_ Hq].
      rewrite (vpage_pte _ _ _ E), Hpte0 in Hq.
      rewrite pte_get_addr_value in Hq by (done || apply prot_range). subst q. exists e.
      change (ps (set_heap h s)) with (pages_of h).
      rewrite Eh, Ep, (pte_at_leaf root (ps s) (PGROUNDDOWN va) t e), decide_True by (done || congruence).
      split; [done|].
      unfold live_pte, e. rewrite !pte_get_addr_value by (done || apply prot_range). split; [|done]. split; [|done].
      by destruct (prot_flags (physpage x) kVMAll) as [-> _]; [by left|].
    - apply (pv_fits_same s); [|done]. change (ps (set_heap h s)) with (pages_of h). rewrite Eh, Ep. simpl.
      apply leaf_pte; [done|done|congruence]. }
  { intros a Ha. rewrite Eh, Ep. by apply (leaf_keeps root (ps s) (PGROUNDDOWN va) t e). }
  split; [done|]. split; [done|]. split; [by rewrite Eh|].
  assert (leads (set_heap h s) va c kVMAll) as Hlead.
  { exists an, x, pv. change (ps (set_heap h s)) with (pages_of h). rewrite Eh. split_and!; try done;
      [|by left|apply Hpv..].
    rewrite <-(vpage_pte _ _ _ Ev). apply pte_at_of. rewrite Ep, (pte_at_leaf root (ps s) (PGROUNDDOWN va) t e) by
      done.
    by rewrite decide_True. }
  split; [|done]. intros w. destruct (decide (PGROUNDDOWN w = PGROUNDDOWN va)) as [E|Hne].
  - apply (fits_same _ va); [by apply C'|done|done|]. by eapply leads_fits.
  - apply fits_intro. intros Hw47. apply (fits_kept s); try done; [|by intros an' x' ?;
      exists x'| |by apply Hf];
      change (ps (set_heap h s)) with (pages_of h); rewrite Eh; [|done].
    rewrite Ep. simpl. eapply leaf_pte; [done|done|]. by eapply other_page.
Qed.

(** ** The slot of a page *)

Lemma core_amap_ok s am a : roles_ok s → amaps s !! am = Some a → amap_ok s a.
Proof.
  intros R Ha. destruct (ro_chunks _ R am a Ha) as [Hc Hn]. split; [done|]. intros Hne. split; [by apply Hn|].
  assert (role_of s (am_array a) (RArray am)) as Hr by (split; [done|by rewrite Ha]). split.
  - pose proof (ro_live _ R _ _ Hr) as Hl. simpl in Hl. by rewrite Ha in Hl.
  - destruct (anons s !! am_array a) as [x|] eqn:E; [|done].
    by pose proof (ro_unique _ R _ RAnon _ (ex_intro _ x E) Hr).
Qed.
Lemma core_anons_live s : roles_ok s → anons_live s.
Proof. intros R b x Hb. exact (ro_live _ R b RAnon (ex_intro _ x Hb)). Qed.

Lemma layout_insert s s' am a :
  maps s' = maps s → objects s' = objects s → amaps s' = <[am := a]> (amaps s) → layout_ok s → layout_ok s'.
Proof.
  intros Em Eo Ea [L1 L2 L3 L4]. assert (∀ va, cell s' va = cell s va) as Ec by (intros va; unfold cell;
    by rewrite Eo).
  split; rewrite ?Em, ?Eo; try done; [|intros va1 va2 c; rewrite !Ec; apply L4].
  intros ent va Hent. destruct (L3 ent va Hent) as (o & Ho & Ht & Hp & Hs & Hi). exists o.
  do 3 (split; [done|]). split; [|done]. rewrite Ea. by apply lookup_insert_is_Some'; right.
Qed.

Lemma grow_roles s h am a a' :
  roles_ok s → amaps s !! am = Some a → grown s a a' h → amap_ok (set_heap h s) a' → pages_of h = ps s →
  roles_ok (set_amap am a' (set_heap h s)).
Proof.
  intros R Ha [G1 _ G2] [A1 A2] Hp. set (s' := set_amap am a' (set_heap h s)).
  assert (∀ am', am' ≠ am → amaps s' !! am' = amaps s !! am') as Hne by (intros; by apply lookup_insert_ne).
  assert (amaps s' !! am = Some a') as Heq by apply lookup_insert_eq.
  assert (ps s' = ps s) as Eps by done.
  assert (∀ p r, role_of s' p r → role_of s p r ∨ (p = am_array a' ∧ r = RArray am)) as Hr.
  { intros p [|am'|q w| | |]; [by left| |by left; unfold role_of in *; rewrite <-Eps|by left| |by left].
    2: { intros [b Hb]. left. unfold role_of. destruct (decide (p = am)) as [->|Hn]; [by exists a|exists b].
         by rewrite <-Hne. }
    intros [Hp0 Hpa].
    destruct (decide (am' = am)) as [->|Hn]; [right|left; split; [done|by rewrite <-Hne]]. rewrite Heq in Hpa.
    by injection Hpa as <-. }
  assert (∀ p r, role_of s' p r → role_of s p r → r ≠ RArray am → heap_live h p (role_size s r)) as Hold.
  { intros p r _ Ho Hn. apply G1; [by apply (ro_live _ R)|]. intros Hz ->. apply Hn.
    eapply (ro_unique _ R); [exact Ho|]. split; [done|by rewrite Ha]. }
  split.
  - intros am' b Hb. destruct (decide (am' = am)) as [->|Hn]; [|rewrite Hne in Hb by done;
      by apply (ro_chunks _ R am')].
    rewrite Heq in Hb. injection Hb as <-. split; [done|]. intros Hz. by apply A2.
  - intros p r Hp'. destruct (decide (r = RArray am)) as [->|Hn].
    + destruct Hp' as [Hz Hpa]. unfold role_size. rewrite Heq in *. injection Hpa as <-. by apply A2.
    + destruct (Hr _ _ Hp') as [Ho|[_ ?]]; [|done]. pose proof (Hold _ _ Hp' Ho Hn) as Hl. destruct r as [|am'| | | |];
        [done| |done..].
      unfold role_size in *. by rewrite Hne by congruence.
  - destruct G2 as [E|Hf]; [|by apply (roles_unique s _ (am_array a') (RArray am))].
    assert (∀ p r, role_of s' p r → role_of s p r) as Hback.
    { intros p r Hp'. destruct (Hr _ _ Hp') as [?|[-> ->]]; [done|]. destruct Hp' as [Hz _]. split; [done|].
      by rewrite Ha, E. }
    intros p r1 r2 ?%Hback ?%Hback. by eapply (ro_unique _ R).
  - intros q. unfold own_pvs. rewrite Eps. apply (ro_pvs _ R).
  - intros q. unfold own_pvs. rewrite Eps. apply (ro_vaddrs _ R).
Qed.
Lemma grow_step n s am a page :
  core s → amaps s !! am = Some a → 0 ≤ page < 1024 → heap_ready (S (S n)) (heap s) → (∀ w, pte_fits s w) →
  ∃ a' h, let s' := set_amap am a' (set_heap h s) in
    amap_anon_at am page s = Ok ((), s') ∧ slot_of a' page = Some (slot a page) ∧ slot a' page = slot a page ∧
    core s' ∧ same_bytes s s' ∧ (∀ w, pte_fits s' w) ∧ heap_ready n h ∧ pages_of h = ps s ∧
    arenas_of h = arenas_of (heap s).
Proof.
  intros [L R F Ro Pv] Ha Hp Hr Hf.
  destruct (amap_anon_at_run n s am a page Ha (core_amap_ok _ _ _ Ro Ha) (core_anons_live _ Ro) Hr Hp)
    as (a' & h & Hrun & Hps & Hr' & Hok & _ & Hso & Hsl & Hg).
  exists a', h. intros s'. assert (ps s' = ps s) as Eps by done.
  assert (∀ c, in_slot s' c = in_slot s c) as Hs.
  { intros c. unfold in_slot. destruct (decide (c.1 = am)) as [->|Hn]; [|simpl; by rewrite lookup_insert_ne].
    simpl. rewrite lookup_insert_eq, Ha. simpl. apply Hsl. }
  split; [done|]. split; [done|]. split; [done|]. split; [|split; [|split; [|split; [done|split; [done|apply Hg]]]]].
  - split; [| | |by eapply grow_roles|by intros q pv; rewrite Eps; intros Hin Hm; apply (pv_fits_same s);
      [by rewrite Eps|by apply Pv]].
    + by apply (layout_insert s s' am a').
    + destruct R as [R1 R2 R3 R4]. split; [|intros an x l Hx Hnd Hl|done|done].
      * intros c an Hc. rewrite Hs. by apply R1.
      * apply (R2 an x l Hx Hnd). eapply Forall_impl; [exact Hl|]. intros c [? Hc]. split; [done|]. by rewrite <-Hs.
    + destruct F as [F1 F2 F3]. split; rewrite ?Eps; done.
  - intros c i _ _. unfold cell_byte. rewrite Hs. by rewrite Eps.
  - intros w. apply (fits_kept s); rewrite ?Eps; try done. by intros an' x' ?; exists x'.
Qed.

(** ** A page of its own for a slot *)

(** The anon that a slot led to loses that reference. *)
Definition dropped (o : option Z) s : vm_state K :=
  match o with
  | Some b => match anons s !! b with
              | Some x => set_anon b (Anon (an_refcnt x - 1) (resident x) (physpage x)) s
              | None => s
              end
  | None => s
  end.
Lemma dropped_anons o s b :
  anons (dropped o s) !! b =
    (λ x, Anon (an_refcnt x - (if decide (o = Some b) then 1 else 0)) (resident x) (physpage x)) <$> anons s !! b.
Proof.
  assert (∀ x, Anon (an_refcnt x - 0) (resident x) (physpage x) = x) as E by (intros []; simpl; by rewrite Z.sub_0_r).
  unfold dropped. destruct o as [b'|]; [|case_decide; [done|]; destruct (anons s !! b); simpl; by rewrite ?E].
  destruct (decide (Some b' = Some b)) as [[= ->]|Hn].
  - destruct (anons s !! b) as [x|] eqn:Hx; simpl; [by rewrite lookup_insert_eq|by rewrite Hx].
  - destruct (anons s !! b') as [x|]; simpl; [rewrite lookup_insert_ne by congruence|];
      destruct (anons s !! b); simpl; by rewrite ?E.
Qed.
Lemma dropped_rest o s :
  heap (dropped o s) = heap s ∧ amaps (dropped o s) = amaps s ∧ objects (dropped o s) = objects s ∧
    maps (dropped o s) = maps s ∧
  in_pagefault (dropped o s) = in_pagefault s.
Proof. unfold dropped. by destruct o as [b|]; [destruct (anons s !! b)|]. Qed.

Section renew.
Context s (am page : Z) (a : vm_amap) (o : option Z) (an pg : Z) (h : K) (f : Z → Z).
Let c : Z * Z := (am, page).
Let s' : vm_state K := set_amap am (with_slot page (Some an) a) (with_new_anon an pg h (dropped o s)).
Hypotheses (C : core s) (Ha : amaps s !! am = Some a) (Hpage : 0 ≤ page) (Hslot : slot_of a page = Some o).
Hypothesis Hshared : ∀ b x, o = Some b → anons s !! b = Some x → 1 < an_refcnt x.
Hypotheses (Hpn : page_new root pg f (ps s) (pages_of h)) (Hf : ∀ i, 0 ≤ i < PGSIZE → f i = cell_byte s c i).
Hypotheses (Hfresh : ∀ z, ¬ heap_live (heap s) an z) (Hlive : heap_live h an sizeof_vm_anon).
Hypothesis Hl : ∀ q z, heap_live (heap s) q z → heap_live h q z.

Lemma renew_slot_old : in_slot s c = o.
Proof. unfold in_slot. simpl. rewrite Ha. simpl. unfold slot. by rewrite Hslot. Qed.
Lemma renew_amaps : amaps s' = <[am := with_slot page (Some an) a]> (amaps s).
Proof. unfold s'. simpl. by destruct (dropped_rest o s) as (_ & -> & _). Qed.
Lemma renew_slot d : 0 ≤ d.2 → in_slot s' d = if decide (d = c) then Some an else in_slot s d.
Proof.
  intros Hd. unfold in_slot. rewrite renew_amaps. destruct d as [am' q]. simpl in *.
  destruct (decide (am' = am)) as [->|Hn].
  - rewrite lookup_insert_eq, Ha. simpl. erewrite slot_with by (exact (core_amap_ok _ _ _ (co_roles _ C) Ha) ||
      exact Hslot || done).
    unfold c. destruct (Z.eqb_spec q page) as [->|]; [by rewrite decide_True|].
    rewrite decide_False by congruence. done.
  - rewrite lookup_insert_ne by done. by rewrite decide_False by (unfold c; congruence).
Qed.
Lemma renew_none : anons s !! an = None.
Proof.
  destruct (anons s !! an) as [x|] eqn:E; [|done]. by pose proof (Hfresh _ (core_anons_live _ (co_roles _ C) _ _ E)).
Qed.
Lemma renew_anons b :
  anons s' !! b = if decide (b = an) then Some (Anon 1 true pg) else anons (dropped o s) !! b.
Proof. unfold s'. simpl. case_decide as E; [by rewrite E, lookup_insert_eq|by rewrite lookup_insert_ne]. Qed.
(** The anons there were. *)
Lemma renew_old b x' :
  anons s' !! b = Some x' → b ≠ an → ∃ x, anons s !! b = Some x ∧ resident x' = resident x ∧
    physpage x' = physpage x ∧
    an_refcnt x' = an_refcnt x - (if decide (o = Some b) then 1 else 0).
Proof.
  intros Hb Hn. rewrite renew_anons, decide_False, dropped_anons in Hb by done.
  destruct (anons s !! b) as [x|]; simpl in Hb; [|done]. injection Hb as <-. by exists x.
Qed.
Lemma renew_keeps b x :
  anons s !! b = Some x → ∃ x', anons s' !! b = Some x' ∧ physpage x' = physpage x ∧ (an_refcnt x = 1 →
    an_refcnt x' = 1).
Proof.
  intros Hb. eexists. rewrite renew_anons, decide_False by (intros ->; by rewrite renew_none in Hb).
  rewrite dropped_anons, Hb. split; [done|]. simpl. split; [done|]. intros E.
  destruct (decide (o = Some b)) as [Ho|]; [|lia]. pose proof (Hshared b x Ho Hb). lia.
Qed.

Lemma renew_refs : refs_ok s'.
Proof.
  destruct (co_refs _ C) as [R1 R2 R3 R4]. split.
  - intros d b Hd Hb. rewrite renew_slot in Hb by done. case_decide.
    + injection Hb as <-. rewrite renew_anons. by rewrite decide_True.
    + destruct (R1 d b Hd Hb) as [x Hx]. destruct (renew_keeps b x Hx) as (x' & -> & _). done.
  - intros b x' l Hb Hnd HF. assert (∀ d, d ∈ l → 0 ≤ d.2 ∧ in_slot s' d = Some b) as Hall by by apply Forall_forall.
    destruct (decide (b = an)) as [->|Hn].
    + assert (∀ d, d ∈ l → d = c) as Hone.
      { intros d Hd. destruct (Hall d Hd) as [H0 Hs]. rewrite renew_slot in Hs by done. case_decide; [done|].
        destruct (R1 d an H0 Hs) as [x Hx]. by rewrite renew_none in Hx. }
      rewrite renew_anons, decide_True in Hb by done. injection Hb as <-. simpl.
      assert (length l ≤ length [c])%nat; [|simpl in *; lia]. apply submseteq_length, NoDup_submseteq; [done|].
      intros d Hd. rewrite (Hone d Hd). left.
    + destruct (renew_old b x' Hb Hn) as (x & Hx & _ & _ & Er).
      assert (∀ d, d ∈ l → d ≠ c ∧ 0 ≤ d.2 ∧ in_slot s d = Some b) as Hold.
      { intros d Hd. destruct (Hall d Hd) as [H0 Hs]. rewrite renew_slot in Hs by done.
        case_decide; [congruence|done]. }
      rewrite Er. destruct (decide (o = Some b)) as [Eo|_].
      * pose proof (R2 b x (c :: l) Hx) as Hc. simpl in Hc. cut (Z.of_nat (S (length l)) ≤ an_refcnt x); [lia|].
        apply Hc.
        -- apply NoDup_cons. split; [|done]. intros Hin. by destruct (Hold c Hin).
        -- apply Forall_cons. split; [split; [done|by rewrite renew_slot_old]|]. apply Forall_forall. intros d Hd.
           apply (Hold d Hd).
      * rewrite Z.sub_0_r. apply (R2 b x l Hx Hnd). apply Forall_forall. intros d Hd. apply (Hold d Hd).
  - intros b x' Hb. destruct (decide (b = an)) as [->|Hn]; [|destruct (renew_old b x' Hb Hn) as (x & Hx & -> & _);
      by eapply R3].
    rewrite renew_anons, decide_True in Hb by done. by injection Hb as <-.
  - intros b x' Hb. destruct (decide (b = an)) as [->|Hn].
    + rewrite renew_anons, decide_True in Hb by done. by injection Hb as <-.
    + destruct (renew_old b x' Hb Hn) as (x & Hx & _ & _ & ->). pose proof (R4 b x Hx). case_decide; lia.
Qed.

Lemma renew_frames : frames_ok s'.
Proof.
  destruct (co_frames _ C) as [F1 F2 F3]. change (ps s') with (pages_of h).
  assert (∀ b x, anons s !! b = Some x → physpage x ≠ pg) as Hpg.
  { intros b x Hb E. destruct (F2 b x Hb) as [_ Ho]. destruct (Ho (physpage x)) as [Hfree _]; [unfold inside,
      PGSIZE; lia|].
    apply (Hfree pg (pn_was _ _ _ _ _ Hpn)). rewrite E. unfold inside, PGSIZE. lia. }
  split; [by apply Hpn| |].
  - intros b x' Hb. destruct (decide (b = an)) as [->|Hn].
    + rewrite renew_anons, decide_True in Hb by done. injection Hb as <-. simpl.
      split; [exact (pn_addr _ _ _ _ _ Hpn)|].
      intros i Hi. by apply (pn_new _ _ _ _ _ Hpn).
    + destruct (renew_old b x' Hb Hn) as (x & Hx & _ & -> & _). eapply own_page_kept;
        [apply (pn_bytes _ _ _ _ _ Hpn)|by eapply F2].
  - intros b1 b2 x1 x2 H1 H2 Hne. destruct (decide (b1 = an)) as [->|Hn1]; [|destruct (decide (b2 = an)) as [->|Hn2]].
    + destruct (renew_old b2 x2 H2) as (y & Hy & _ & -> & _); [congruence|].
      rewrite renew_anons, decide_True in H1 by done. injection H1 as <-. simpl. intros E. by apply (Hpg b2 y).
    + destruct (renew_old b1 x1 H1 Hn1) as (y & Hy & _ & -> & _).
      rewrite renew_anons, decide_True in H2 by done. injection H2 as <-. simpl. by apply (Hpg b1 y).
    + destruct (renew_old b1 x1 H1 Hn1) as (y1 & Hy1 & _ & -> & _), (renew_old b2 x2 H2 Hn2)
        as (y2 & Hy2 & _ & -> & _).
      by apply (F3 b1 b2).
Qed.

Lemma renew_roles : roles_ok s'.
Proof.
  pose proof (co_roles _ C) as R. assert (pv_table (ps s') = pv_table (ps s)) as Epv by exact (pn_pv _ _ _ _ _ Hpn).
  assert (objects s' = objects s ∧ maps s' = maps s) as [Eob Emp]
    by (destruct (dropped_rest o s) as (_ & _ & E1 & E2 & _); done).
  assert (∀ am' b', amaps s' !! am' = Some b' → ∃ b, amaps s !! am' = Some b ∧ am_array b' = am_array b ∧
    length (chunks b') = length (chunks b) ∧ (b' = b ∨ b = a ∧ b' = with_slot page (Some an) a)) as Hams.
  { intros am' b' Hb. rewrite renew_amaps in Hb. apply lookup_insert_Some in Hb as [[<- <-]|[_ Hb]];
      [|by exists b'; auto].
    exists a. split_and!; [done|done| |by right]. simpl. by rewrite length_alter. }
  assert (∀ p r, role_of s' p r → role_of s p r ∨ (p = an ∧ r = RAnon)) as Hr.
  { intros p [|am'|q w| | |] Hp.
    - destruct Hp as [x' Hx']. destruct (decide (p = an)) as [->|Hn]; [by right|left].
      destruct (renew_old p x' Hx' Hn) as (x & Hx & _). by exists x.
    - left. destruct Hp as [Hz Hp]. split; [done|]. destruct (amaps s' !! am') as [b'|] eqn:E; [|done].
      destruct (Hams am' b' E) as (b & -> & Eb & _). simpl in *. by rewrite <-Eb.
    - left. unfold role_of in *. by rewrite <-Epv.
    - left. unfold role_of in *. by rewrite <-Eob.
    - left. destruct Hp as [b' Hb']. destruct (Hams p b' Hb') as (b & Hb & _). by exists b.
    - left. unfold role_of in *. by rewrite <-Emp. }
  split.
  - intros am' b' Hb. destruct (Hams am' b' Hb) as (b & Hb0 & Earr & Elen & Hor).
    destruct (ro_chunks _ R am' b Hb0) as [Hc Hn].
    split; [|rewrite Earr; intros Hz E; apply (Hn Hz); apply nil_length_inv; by rewrite <-Elen, E].
    destruct Hor as [->|[-> ->]]; [done|]. intros i ck Hi. simpl in Hi.
    destruct (decide (i = Z.to_nat (page / kAMapChunkNPages))) as [->|Hi0];
      [|rewrite list_lookup_alter_ne in Hi by done; by eapply Hc].
    rewrite list_lookup_alter_eq in Hi. destruct (chunks a !! Z.to_nat (page / kAMapChunkNPages)) as [[ck0|]|]
      eqn:Hck; simpl in Hi; [|done|done].
    injection Hi as <-. simpl. rewrite length_insert. by eapply Hc.
  - intros p r Hp. destruct (Hr p r Hp) as [Ho|[-> ->]]; [|done]. pose proof (Hl _ _ (ro_live _ R _ _ Ho)) as Hlv.
    destruct r as [|am'| | | |]; [done| |done..]. unfold role_size in *. destruct Hp as [_ Hp].
    destruct (amaps s' !! am') as [b'|] eqn:E; [|done]. destruct (Hams am' b' E) as (b & Hb0 & _ & -> & _).
    by rewrite Hb0 in Hlv.
  - by apply (roles_unique s _ an RAnon).
  - intros q. unfold own_pvs. rewrite Epv. apply (ro_pvs _ R).
  - intros q. unfold own_pvs. rewrite Epv. apply (ro_vaddrs _ R).
Qed.

Lemma renew_pte w : pte_of (phys (ps s')) root w = pte_of (phys (ps s)) root w.
Proof. apply pte_of_same, (pn_pte _ _ _ _ _ Hpn). Qed.
Lemma renew_core : core s'.
Proof.
  destruct (dropped_rest o s) as (_ & _ & Eo & Em & _).
  split; [|apply renew_refs|apply renew_frames|apply renew_roles|].
  2: { intros q pv Hin Hm. change (ps s') with (pages_of h) in Hin. rewrite (pn_pv _ _ _ _ _ Hpn) in Hin.
       apply (pv_fits_same s); [apply renew_pte|by apply (co_pvs _ C)]. }
  apply (layout_insert s _ am (with_slot page (Some an) a)); [done|done|apply renew_amaps|apply C].
Qed.
Lemma renew_bytes : same_bytes s s'.
Proof.
  intros d i Hd Hi. destruct (decide (d = c)) as [->|Hn].
  - rewrite (cell_byte_at s' c i an (Anon 1 true pg)); [|by rewrite renew_slot,
      decide_True|by rewrite renew_anons, decide_True].
    rewrite <-Hf by done. simpl. change (ps s') with (pages_of h). destruct (pn_new _ _ _ _ _ Hpn (pg + i))
      as [-> _]; [unfold inside; lia|].
    f_equal. lia.
  - unfold cell_byte. rewrite renew_slot, decide_False by done. destruct (in_slot s d) as [b|] eqn:Hb; [|done].
    cbn [mbind option_bind].
    destruct (rf_slot _ (co_refs _ C) d b Hd Hb) as [x Hx]. rewrite Hx.
    destruct (renew_keeps b x Hx) as (x' & -> & -> & _).
    change (ps s') with (pages_of h). apply (pn_bytes _ _ _ _ _ Hpn).
    destruct (fr_own _ (co_frames _ C) b x Hx) as [_ Ho]. apply Ho. unfold inside. lia.
Qed.
Lemma renew_fits w : cell s w ≠ Some c → pte_fits s w → pte_fits s' w.
Proof.
  intros Hn. destruct (dropped_rest o s) as (_ & _ & Eo & _). apply fits_kept;
    [done|apply renew_pte| |exact renew_keeps|].
  - intros d Hd. destruct (cell_bounds _ _ _ (co_layout _ C) Hd) as [_ H0].
    rewrite renew_slot, decide_False by (done || congruence). done.
  - intros q pv Hpv _ _. change (ps s') with (pages_of h). by rewrite (pn_pv _ _ _ _ _ Hpn).
Qed.
End renew.

(** ** A fault *)

(** What stays: objects, maps, arenas; amaps keep their place. *)
Record rest s s' : Prop := {
  rs_objects : objects s' = objects s;
  rs_maps : maps s' = maps s;
  rs_arenas : arenas_of (heap s') = arenas_of (heap s);
  rs_amaps p : is_Some (amaps s !! p) → is_Some (amaps s' !! p);
}.
Lemma rest_refl s : rest s s.
Proof. by split. Qed.
Lemma rest_trans s1 s2 s3 : rest s1 s2 → rest s2 s3 → rest s1 s3.
Proof. intros [A1 A2 A3 A4] [B1 B2 B3 B4]. split; [congruence..|]. intros p Hp. by apply B4, A4. Qed.
Lemma rest_heap s h : arenas_of h = arenas_of (heap s) → rest s (set_heap h s).
Proof. by split. Qed.
Lemma rest_insert s s' am a :
  objects s' = objects s → maps s' = maps s → arenas_of (heap s') = arenas_of (heap s) →
  amaps s' = <[am := a]> (amaps s) → rest s s'.
Proof. intros E1 E2 E3 E4. split; [done..|]. intros p Hp. rewrite E4. apply lookup_insert_is_Some'. by right. Qed.

(** The fault at [va] is served: no byte has changed, and the access it is for can be made. *)
Record served (n : nat) s s' (va : Z) (c : Z * Z) (write : bool) : Prop := {
  sv_core : core s';
  sv_fits w : pte_fits s' w;
  sv_bytes : same_bytes s s';
  sv_leads : ∃ prot, leads s' va c prot ∧ (write = true → prot = kVMAll);
  sv_ready : heap_ready n (heap s');
  sv_free : (free_pages (ps s) ≤ 4 + free_pages (ps s'))%nat;
  sv_rest : rest s s';
  sv_idle : in_pagefault s' = in_pagefault s;
}.

Lemma code_present present write : has_flag (fault_code present write) kVMFaultPresent = present.
Proof. by destruct present, write. Qed.
Lemma code_write present write : has_flag (fault_code present write) kVMFaultWrite = write.
Proof. by destruct present, write. Qed.
(** Why the processor faults. *)
Lemma fault_cause s va c write code :
  cell s va = Some c → pte_cell s va c → mmu (ps s) root va write = inr code →
  (code = fault_code false write ∧ pte_of (phys (ps s)) root va = 0) ∨
  (code = fault_code true true ∧ write = true ∧ pte_of (phys (ps s)) root va ≠ 0 ∧ leads s va c kVMReadExecute).
Proof.
  intros Hc Hf Hm. unfold mmu in Hm. destruct Hf as [E|(an & x & prot & pv & H1 & H2 & H3 & H4 & Hpv)].
  - left. rewrite E in Hm. by injection Hm as <-.
  - destruct (prot_flags (physpage x) prot) as [Hpr Hw]; [tauto|]. rewrite H3, Hpr, Hw in Hm. right.
    destruct write; simpl in Hm; [|done]. destruct H4 as [[-> _]| ->]; [by rewrite bool_decide_true in Hm|].
    injection Hm as <-. split; [done|]. split; [done|]. split; [rewrite H3; intros E; by rewrite E in Hpr|].
    exists an, x, pv. split_and!; try done; [by right|apply Hpv..].
Qed.

(** From a state where the slot leads to an anon, and its mapping is gone. *)
Lemma served_enter n s0 s va c an x prot write :
  core s → (∀ w, PGROUNDDOWN w ≠ PGROUNDDOWN va → pte_fits s w) → cell s va = Some c → in_slot s c = Some an →
  anons s !! an = Some x → (prot = kVMAll ∧ an_refcnt x = 1 ∨ prot = kVMReadExecute) → (write = true →
    prot = kVMAll) →
  no_pv s va → heap_ready (S n) (heap s) → same_bytes s0 s → rest s0 s →
    in_pagefault s = in_pagefault s0 →
  (free_pages (ps s0) ≤ 1 + free_pages (ps s))%nat → (3 ≤ free_pages (ps s))%nat →
  ∃ s', pmap_enter map (physpage x) (PGROUNDDOWN va) prot s = Ok ((), s') ∧ served n s0 s' va c write.
Proof.
  intros C Hf Hc Hs Hx Hp Hw Hno Hr Hb Ho Hi Hfr0 Hfr.
  destruct (enter_step n s va c an x prot C Hf Hc Hs Hx Hp Hno Hr Hfr) as (h & Hrun & Hr' & Hvs & C' & B' & F' & Hfit &
    Hlead).
  exists (set_heap h s). split; [done|]. split; try done.
  - intros d i Hd Hi'. by rewrite B', Hb.
  - by exists prot.
  - change (ps (set_heap h s)) with (pages_of h). lia.
  - eapply rest_trans; [exact Ho|by apply rest_heap].
Qed.

Lemma cell_other s va w c :
  layout_ok s → cell s va = Some c → PGROUNDDOWN w ≠ PGROUNDDOWN va → cell s w ≠ Some c.
Proof. intros L Hc Hne Hw. by apply Hne, (la_once _ L w va c). Qed.
Lemma cell_objects s s' va : objects s' = objects s → cell s' va = cell s va.
Proof. intros E. unfold cell. by rewrite E. Qed.

Lemma fault_new_run n s va am page a write code ob :
  core s → (∀ w, pte_fits s w) → cell s va = Some (am, page) → amaps s !! am = Some a → slot_of a page = Some None →
  pte_of (phys (ps s)) root va = 0 → heap_ready (S (S n)) (heap s) → (4 ≤ free_pages (ps s))%nat →
    ob_parent ob = None →
  ∃ s', fault_slot map am page (PGROUNDDOWN va) code ob s = Ok (0, s') ∧ served n s s' va (am, page) write.
Proof.
  intros C Hf Hc Ha Hso Hpte Hr Hfree Hpar. destruct (cell_bounds _ _ _ (co_layout _ C) Hc) as [Hv Hpage].
  simpl in Hpage.
  destruct (anon_new_run (S n) s root Hr (fr_tables _ (co_frames _ C)) ltac:(lia))
    as (an & pg & h & Hnew & Hr1 & Hvs & Hfr & Hpn & Hlv & Hl).
  set (s2 := set_amap am (with_slot page (Some an) a) (with_new_anon an pg h s)).
  assert (in_slot s (am, page) = None) as Hnone by exact (renew_slot_old s am page a None Ha Hso).
  assert (∀ i, 0 ≤ i < PGSIZE → 0 = cell_byte s (am, page) i) as H0 by (intros i _; unfold cell_byte;
    by rewrite Hnone).
  assert (core s2) as C2 by by apply (renew_core s am page a None an pg h (λ _, 0)).
  assert (anons s2 !! an = Some (Anon 1 true pg)) as Han by apply lookup_insert_eq.
  assert (rest s s2) as Eo by by apply (rest_insert s s2 am (with_slot page (Some an) a)).
  destruct (served_enter n s s2 va (am, page) an (Anon 1 true pg) kVMAll write) as (s' & Hrun & Hsv); try done.
  - intros w Hw. apply (renew_fits s am page a None an pg h (λ _, 0)); try done. by eapply cell_other; [apply C|..].
  - rewrite (renew_slot s am page a None an pg h) by done. by rewrite decide_True.
  - by left.
  - apply no_pv_zero; [done|lia|]. by rewrite (renew_pte s am page a None an pg h (λ _, 0)).
  - by apply (renew_bytes s am page a None an pg h (λ _, 0)).
  - pose proof (pn_free _ _ _ _ _ Hpn). change (ps s2) with (pages_of h). lia.
  - pose proof (pn_free _ _ _ _ _ Hpn). change (ps s2) with (pages_of h). lia.
  - exists s'. split; [|done]. unfold fault_slot, amap_slot.
    erewrite bind_step by (rewrite (bind_step _ _ _ _ _ (get_amap_ok _ _ _ Ha)), Hso; reflexivity).
    rewrite Hpar, (bind_step _ _ _ _ _ Hnew).
    rewrite (bind_step _ _ _ _ _ (amap_set_slot_run (with_new_anon an pg h s) am a page None (Some an) Ha Hso)).
    fold s2.
    rewrite (bind_step _ _ _ _ _ (get_anon_ok _ _ _ Han)). by rewrite (bind_step _ _ _ _ _ Hrun).
Qed.

Lemma slot_refcnt s am page b x :
  core s → 0 ≤ page → in_slot s (am, page) = Some b → anons s !! b = Some x → 1 ≤ an_refcnt x.
Proof.
  intros C Hp Hs Hx. apply (rf_count _ (co_refs _ C) b x [(am, page)] Hx); [apply NoDup_singleton|].
  by apply Forall_singleton.
Qed.

(** The copy. *)
Lemma fault_copy_run n s va am page a b x present :
  core s → (∀ w, pte_fits s w) → cell s va = Some (am, page) → amaps s !! am = Some a →
    slot_of a page = Some (Some b) →
  anons s !! b = Some x → 1 < an_refcnt x → heap_ready (S (S n)) (heap s) → (4 ≤ free_pages (ps s))%nat →
  (present = true → pte_of (phys (ps s)) root va ≠ 0 ∧ ∃ prot, leads s va (am, page) prot) →
  (present = false → pte_of (phys (ps s)) root va = 0) →
  ∃ s', fault_anon map am page b (PGROUNDDOWN va) (fault_code present true) s = Ok (0, s') ∧ served n s s' va (am,
    page) true.
Proof.
  intros C Hf Hc Ha Hso Hx Hr1 Hr Hfree Hpres Hpres0. pose proof (co_layout _ C) as L.
  destruct (cell_bounds _ _ _ L Hc) as [Hv Hpage]. simpl in Hpage.
  pose proof (rf_resident _ (co_refs _ C) b x Hx) as Hres.
  assert (in_slot s (am, page) = Some b) as Hold by exact (renew_slot_old s am page a (Some b) Ha Hso).
  set (x1 := Anon (an_refcnt x - 1) (resident x) (physpage x)).
  assert (dropped (Some b) s = set_anon b x1 s) as Ed by (unfold dropped; by rewrite Hx).
  destruct (anon_copy_run (S n) (set_anon b x1 s) root b x1 Hr (fr_tables _ (co_frames _ C)))
    as (an & pg & h & Hcopy & Hr2 & Hvs & Hfr & Hpn & Hlv & Hl);
    [change (ps (set_anon b x1 s)) with (ps s); lia| |apply lookup_insert_eq|exact (fr_own _ (co_frames _ C) b x
      Hx)|].
  { intros b' y Hb'. simpl in Hb'. apply lookup_insert_Some in Hb' as [[<- _]|[_ Hb']];
      eapply (core_anons_live _ (co_roles _ C)); [exact Hx|exact Hb']. }
  set (f := λ i, phys (ps s) (physpage x + i)).
  assert (∀ i, 0 ≤ i < PGSIZE → f i = cell_byte s (am, page) i) as Hfb by (intros i _;
    by rewrite (cell_byte_at s _ i b x)).
  assert (∀ b' y, Some b = Some b' → anons s !! b' = Some y → 1 < an_refcnt y) as Hsh by (intros b' y [= <-] Hy;
    by simplify_eq).
  set (s2 := set_amap am (with_slot page (Some an) a) (with_new_anon an pg h (dropped (Some b) s))).
  assert (core s2) as C2 by exact (renew_core s am page a (Some b) an pg h f C Ha Hpage Hso Hsh Hpn Hfr Hlv Hl).
  assert (same_bytes s s2) as B2 by exact (renew_bytes s am page a (Some b) an pg h f C Ha Hpage Hso Hsh Hpn Hfb Hfr).
  destruct (dropped_rest (Some b) s) as (_ & Eam & Eo & Emp & Eid).
  assert (anons s2 !! an = Some (Anon 1 true pg)) as Han by apply lookup_insert_eq.
  destruct (unenter_step (S n) s2 present va (physpage x) C2 Hv Hr2) as (h3 & Hun & Hr3 & Hvs3 & C3 & B3 & Hfr3 & Hno3 &
    Hf3).
  { intros w Hw. apply (renew_fits s am page a (Some b) an pg h f); try done. by eapply cell_other. }
  { intros Hp. destruct (Hpres Hp) as [He (prot & b' & y & pv & G1 & G2 & _ & _ & G5 & G6)].
    change (ps s2) with (pages_of h).
    assert (b' = b) as -> by congruence. assert (y = x) as -> by congruence.
    rewrite (pn_pv _ _ _ _ _ Hpn). split; [|by exists pv]. erewrite pte_at_of; [exact He|].
    rewrite (pn_pte _ _ _ _ _ Hpn). by apply pte_of_at. }
  { intros Hp. apply no_pv_zero; [done|lia|]. rewrite (renew_pte s am page a (Some b) an pg h f) by done.
    by apply Hpres0. }
  set (s3 := set_heap h3 s2). pose proof (pn_free _ _ _ _ _ Hpn) as Hfree2.
  change (ps s2) with (pages_of h) in Hfr3. change (ps (set_anon b x1 s)) with (ps s) in Hfree2.
  destruct (served_enter n s s3 va (am, page) an (Anon 1 true pg) kVMAll true) as (s' & Hrun & Hsv); try done.
  - rewrite (cell_objects s) by exact Eo. done.
  - change (in_slot s3 (am, page)) with (in_slot s2 (am, page)). unfold s2.
    rewrite (renew_slot s am page a (Some b) an pg h) by done. by rewrite decide_True.
  - by left.
  - by apply Hr3.
  - intros d i Hd Hi. by rewrite B3, B2.
  - apply (rest_insert s s3 am (with_slot page (Some an) a)); [exact Eo|exact Emp|by trans (arenas_of (heap s2))|].
    unfold s3, s2. cbn [amaps set_heap set_amap with_new_anon]. by rewrite Eam.
  - change (ps s3) with (pages_of h3). lia.
  - change (ps s3) with (pages_of h3). lia.
  - exists s'. split; [|done]. unfold fault_anon. rewrite (bind_step _ _ _ _ _ (get_anon_ok _ _ _ Hx)), Hres.
    rewrite code_present, code_write. cbn [negb]. rewrite (proj2 (Z.ltb_lt 1 _)) by done.
    pose proof (rf_fits _ (co_refs _ C) b x Hx). rewrite s24_small by lia.
    rewrite (bind_step (mmodify _) _ s () (set_anon b x1 s)) by (unfold x1; by rewrite Hres).
    rewrite (bind_step _ _ _ _ _ Hcopy).
    assert (amap_set_slot am page (Some an) (with_new_anon an pg h (set_anon b x1 s)) = Ok ((), s2)) as Hset
      by (unfold s2; rewrite Ed; by apply (amap_set_slot_run _ am a page (Some b))).
    rewrite (bind_step _ _ _ _ _ Hset), (bind_step _ _ _ _ _ Hun). fold s3.
    assert (anons s3 !! an = Some (Anon 1 true pg)) as Han3 by done.
    rewrite (bind_step _ _ _ _ _ (get_anon_ok _ _ _ Han3)). by rewrite (bind_step _ _ _ _ _ Hrun).
Qed.

(** The other faults on a page that an anon holds. *)
Lemma fault_mapped_run n s va am page a b x write code :
  core s → (∀ w, pte_fits s w) → cell s va = Some (am, page) → amaps s !! am = Some a →
    slot_of a page = Some (Some b) →
  anons s !! b = Some x → (write = true → an_refcnt x = 1) → heap_ready (S n) (heap s) → (4 ≤ free_pages (ps s))%nat →
  mmu (ps s) root va write = inr code →
  ∃ s', fault_anon map am page b (PGROUNDDOWN va) code s = Ok (0, s') ∧ served n s s' va (am, page) write.
Proof.
  intros C Hf Hc Ha Hso Hx Hw Hr Hfree Hm. pose proof (co_layout _ C) as L. destruct (cell_bounds _ _ _ L Hc)
    as [Hv Hpage]. simpl in Hpage.
  pose proof (rf_resident _ (co_refs _ C) b x Hx) as Hres.
  assert (in_slot s (am, page) = Some b) as Hold by exact (renew_slot_old s am page a (Some b) Ha Hso).
  pose proof (slot_refcnt s am page b x C Hpage Hold Hx) as H1.
  unfold fault_anon. rewrite (bind_step _ _ _ _ _ (get_anon_ok _ _ _ Hx)), Hres. cbn [negb].
  destruct (fault_cause s va _ write code Hc (fits_at s va _ L (Hf va) Hc) Hm) as [[-> He]|(-> & -> & He & Hlead)];
    rewrite code_present, code_write.
  - set (prot := if 1 <? an_refcnt x then kVMReadExecute else kVMAll).
    assert ((1 <? an_refcnt x) = true → write = false) as Hro.
    { intros E%Z.ltb_lt. destruct write; [|done]. specialize (Hw eq_refl). lia. }
    destruct (served_enter n s s va (am, page) b x prot write) as (s' & Hrun & Hsv); try done.
    + unfold prot. destruct (Z.ltb_spec 1 (an_refcnt x)); [by right|left; split; [done|lia]].
    + unfold prot. destruct (1 <? an_refcnt x); [by rewrite Hro|done].
    + apply no_pv_zero; [done|lia|done].
    + lia.
    + lia.
    + exists s'. split; [|done]. unfold prot in Hrun. destruct (1 <? an_refcnt x); [rewrite (Hro eq_refl),
        massert_bind|];
        by rewrite (bind_step _ _ _ _ _ Hrun).
  - specialize (Hw eq_refl). rewrite (proj2 (Z.ltb_ge 1 _)) by lia. rewrite massert_bind.
    destruct (reenter_step s va _ b x kVMReadExecute C (λ w _, Hf w) Hc Hlead Hold Hx Hw He)
      as (h & Hrun & Hr' & Hvs & C' & B' & F' & Hfit & Hl').
    exists (set_heap h s). rewrite (bind_step _ _ _ _ _ Hrun). split; [done|]. split; try done.
    + by exists kVMAll.
    + simpl. by apply Hr', heap_ready_less.
    + change (ps (set_heap h s)) with (pages_of h). lia.
Qed.

Lemma idle_core b s : core s → core (set_in_pagefault b s).
Proof. intros [[] [] [] [] Pv]. split; [by split..|exact Pv]. Qed.

Lemma vm_fault_served n s va c write code :
  space_ok s → cell s va = Some c → mmu (ps s) root va write = inr code →
  heap_ready (4 + n) (heap s) → (4 ≤ free_pages (ps s))%nat →
  ∃ s', vm_fault kmap map va code s = Ok (0, s') ∧ space_ok s' ∧ same_bytes s s' ∧
    (∃ prot, leads s' va c prot ∧ (write = true → prot = kVMAll)) ∧
    heap_ready n (heap s') ∧ (free_pages (ps s) ≤ 4 + free_pages (ps s'))%nat ∧ rest s s'.
Proof.
  intros [C Hid Hf] Hc Hm Hr Hfree. pose proof (co_layout _ C) as L. destruct (cell_bounds _ _ _ L Hc) as [Hv Hpage].
  pose proof Hc as Hc0. unfold cell in Hc0. destruct (map_entry_for_addr m va) as [ent|] eqn:Hent; [|done].
  simpl in Hc0.
  destruct (la_object _ L _ _ Hent) as (ob & Hob & Hty & Hpar & [a Ha] & Hix). rewrite Hob in Hc0.
  injection Hc0 as <-.
  set (am := ob_amap ob) in *. set (page := page_index ent va) in *. set (s0 := set_in_pagefault true s).
  assert (core s0) as C0 by by apply idle_core.
  destruct (grow_step (S (S n)) s0 am a page C0 Ha Hix Hr Hf) as (a' & h & Hrun & Hso & Hsl & C1 & B1 & F1 & Hr1 &
    Hps & Hvs).
  set (s1 := set_amap am a' (set_heap h s0)) in *. assert (ps s1 = ps s) as Eps by exact Hps.
  assert (amaps s1 !! am = Some a') as Ha1 by apply lookup_insert_eq.
  assert (fault_at s kmap map va m ent ob a page) as Hfa.
  { split; try done; [lia| |by eapply core_amap_ok; [apply C|]|by apply core_anons_live, C|by apply C].
    unfold KHEAP_BASE. rewrite (proj2 (Z.leb_gt _ _)) by lia. apply L. }
  assert (∃ s', fault_slot map am page (PGROUNDDOWN va) code ob s1 = Ok (0, s') ∧ served n s1 s' va (am,
    page) write) as (s' & Hsl' & Hsv).
  { destruct (slot a page) as [b|] eqn:Hs.
    2: { assert (in_slot s1 (am, page) = None) as Hin by (unfold in_slot; simpl; rewrite lookup_insert_eq; done).
         apply (fault_new_run n s1 va am page a' write code ob); rewrite ?Eps; try done.
         destruct (fits_at s1 va (am, page) (co_layout _ C1) (F1 va) Hc) as [E|(b & ? & ? & ? & E & _)]; [by rewrite <-Eps|by rewrite Hin in E]. }
    assert (in_slot s1 (am, page) = Some b) as Hin by (unfold in_slot; simpl; rewrite lookup_insert_eq; done).
    destruct (rf_slot _ (co_refs _ C1) (am, page) b Hpage Hin) as [x Hx].
    assert (∀ r, fault_anon map am page b (PGROUNDDOWN va) code s1 = r →
      fault_slot map am page (PGROUNDDOWN va) code ob s1 = r) as Hgo.
    { intros r <-. unfold fault_slot, amap_slot.
      by erewrite bind_step by (rewrite (bind_step _ _ _ _ _ (get_amap_ok _ _ _ Ha1)), Hso; reflexivity). }
    rewrite <-Eps in Hm. destruct (decide (1 < an_refcnt x ∧ write = true)) as [[Hx1 ->]|Hno].
    - destruct (fault_cause s1 va _ true code Hc (fits_at s1 va (am, page) (co_layout _ C1) (F1 va) Hc) Hm) as [[-> He]|(-> & _ & He & Hlead)].
      + destruct (fault_copy_run n s1 va am page a' b x false) as (s' & Hrun' & Hsv); try done; [by rewrite Eps|].
        by exists s'; auto.
      + destruct (fault_copy_run n s1 va am page a' b x true) as (s' & Hrun' & Hsv); try done;
          [by rewrite Eps|by eauto|]. by exists s'; auto.
    - destruct (fault_mapped_run n s1 va am page a' b x write code) as (s' & Hrun' & Hsv); try done;
        [|by apply heap_ready_less|by rewrite Eps|by exists s'; auto].
      intros ->. pose proof (slot_refcnt s1 am page b x C1 Hpage Hin Hx). destruct (decide (1 < an_refcnt x));
        [naive_solver|lia]. }
  exists (set_in_pagefault false s'). split.
  { apply (vm_fault_after s kmap map va code m ent ob a page s1); [done|done|].
    unfold KHEAP_BASE. by rewrite (proj2 (Z.leb_gt _ _)) by lia. }
  destruct Hsv as [S1 S2 S3 S4 S5 S6 S7 S8]. rewrite Eps in S6. split_and!; try done.
  - split; [by apply idle_core|done|exact S2].
  - intros d i Hd Hi. change (cell_byte s' d i = cell_byte s d i). by rewrite S3, B1.
  - eapply (rest_trans _ s1); [by apply (rest_insert s s1 am a')|]. eapply (rest_trans _ s'); [exact S7|by split].
Qed.

(** ** Accesses *)

Lemma leads_mmu s va c prot write :
  core s → leads s va c prot → (write = true → prot = kVMAll) →
  ∃ an x, in_slot s c = Some an ∧ anons s !! an = Some x ∧ (write = true → an_refcnt x = 1) ∧
    mmu (ps s) root va write = inl (physpage x + pgi va).
Proof.
  intros C (an & x & pv & Hs & Hx & He & Hp & _) Hw. exists an, x. split; [done|]. split; [done|]. split.
  { intros E. destruct Hp as [[_ ?]|E2]; [done|]. rewrite (Hw E) in E2. discriminate E2. }
  destruct (fr_own _ (co_frames _ C) _ _ Hx) as [Hpa _]. unfold mmu. rewrite He.
  destruct (prot_flags (physpage x) prot) as [-> ->]; [tauto|].
  rewrite pte_get_addr_value by (done || apply prot_range).
  destruct write; [rewrite (Hw eq_refl)|]; done.
Qed.

Lemma cpu_access_run n s va c write :
  space_ok s → cell s va = Some c → heap_ready (4 + n) (heap s) → (4 ≤ free_pages (ps s))%nat →
  ∃ an x s', cpu_access 2 va write s = Ok (physpage x + pgi va, s') ∧ space_ok s' ∧ same_bytes s s' ∧
    in_slot s' c = Some an ∧ anons s' !! an = Some x ∧ (write = true → an_refcnt x = 1) ∧
    heap_ready n (heap s') ∧ (free_pages (ps s) ≤ 4 + free_pages (ps s'))%nat ∧ rest s s'.
Proof.
  intros Sp Hc Hr Hfree. pose proof (la_map _ (co_layout _ (sp_core _ Sp))) as Hm.
  assert (∀ k s, maps s !! map = Some m → cpu_access (S k) va write s =
    match mmu (ps s) root va write with inl pa => Ok (pa, s) | inr code => (pagefault_interrupt va code;;
      cpu_access k va write) s end) as Hstep.
  { intros k t Ht. cbn [cpu_access]. rewrite (bind_step _ _ _ _ _ (get_map_ok _ _ _ Ht)),
      (bind_step _ _ _ _ _ (on_pstate_get t)).
    by destruct (mmu (ps t) root va write). }
  rewrite Hstep by done. destruct (mmu (ps s) root va write) as [pa|code] eqn:Hmmu.
  - destruct (fits_at s va c (co_layout _ (sp_core _ Sp)) (sp_ptes _ Sp va) Hc) as [E|(an & x & prot & pv & Hl)]; [unfold mmu in Hmmu; by rewrite E in Hmmu|].
    assert (write = true → prot = kVMAll) as Hw.
    { intros ->. destruct Hl as (_ & _ & He & Hp & _). unfold mmu in Hmmu. rewrite He in Hmmu.
      destruct (prot_flags (physpage x) prot) as [E1 E2]; [tauto|]. rewrite E1, E2 in Hmmu. simpl in Hmmu.
      by case_bool_decide. }
    destruct (leads_mmu s va c prot write (sp_core _ Sp)) as (an' & x' & Hs & Hx & H1 & E); [by exists an, x,
      pv|done|].
    rewrite Hmmu in E. injection E as ->. exists an', x', s. split_and!; try done; [|lia].
    clear -Hr. revert Hr. simpl. intros Hr. by do 4 apply heap_ready_less.
  - destruct (vm_fault_served n s va c write code Sp Hc Hmmu Hr Hfree) as (s' & Hrun & Sp' & B' & (prot & Hl & Hw)
      & Hr' & Hfr & Ho).
    destruct (leads_mmu s' va c prot write (sp_core _ Sp') Hl Hw) as (an & x & Hs & Hx & H1 & E).
    exists an, x, s'. split; [|done].
    rewrite (bind_step _ _ s () s') by (unfold pagefault_interrupt; by rewrite (bind_step _ _ _ _ _ Hrun)).
    rewrite Hstep by apply (co_layout _ (sp_core _ Sp')). by rewrite E.
Qed.

Lemma same_page_bytes x y i j : page_addr x → page_addr y → 0 ≤ i < PGSIZE → 0 ≤ j < PGSIZE → x + i = y + j →
  x = y ∧ i = j.
Proof. unfold page_addr, PGSIZE. intros [_ Hx] [_ Hy] Hi Hj E. Z.div_mod_to_equations. lia. Qed.

(** Writing into the page of a slot that has it for itself. *)
Lemma poke_run s c an x i b :
  space_ok s → 0 ≤ c.2 → in_slot s c = Some an → anons s !! an = Some x → an_refcnt x = 1 → 0 ≤ i < PGSIZE →
  ∃ h, on_pstate (mmodify (set_phys (λ m a, if a =? physpage x + i then b else m a))) s = Ok ((), set_heap h s) ∧
    space_ok (set_heap h s) ∧ (∀ n, heap_ready n h ↔ heap_ready n (heap s)) ∧
      arenas_of h = arenas_of (heap s) ∧ free_pages (pages_of h) = free_pages (ps s) ∧
    ∀ d j, 0 ≤ d.2 → 0 ≤ j < PGSIZE → cell_byte (set_heap h s) d j = if decide (d = c ∧
      j = i) then b else cell_byte s d j.
Proof.
  intros [C Hid Hf] Hc Hs Hx H1 Hi. destruct (fr_own _ (co_frames _ C) _ _ Hx) as [Hpa Hown].
  set (m' := λ a, if a =? physpage x + i then b else phys (ps s) a). set (p' := set_phys (λ _, m') (ps s)).
  destruct (tables_frame root (ps s) m') as (Hok & Hpte & _ & Hun); [|apply C|].
  { intros a Ha. unfold m'. destruct (Z.eqb_spec a (physpage x + i)) as [->|]; [|done].
    destruct Ha. apply Hown. unfold inside. lia. }
  fold p' in Hok, Hpte, Hun. set (h := with_pages p' (heap s)). assert (pages_of h = p') as Eh by apply pages_of_with.
  assert (ps (set_heap h s) = p') as Eps by exact Eh.
  assert (∀ w, pte_of (phys p') root w = pte_of (phys (ps s)) root w) as Hpte' by (intros w; by apply pte_of_same).
  exists h. split; [by apply on_pstate_run|]. split; [split; [|done|]|split; [intros n; apply ready_with|split;
    [apply arenas_of_with|split; [by rewrite Eh|]]]].
  - destruct C as [L R F Ro Pv]. split; [by destruct L|by destruct R| |by apply same_pvs_roles|].
    2: { intros q pv Hin Hm. rewrite Eps in Hin. apply (pv_fits_same s); [rewrite Eps; apply Hpte'|by apply Pv]. }
    destruct F as [F1 F2 F3]. split; [by rewrite Eps| |done]. intros b' y Hy. rewrite Eps.
    destruct (F2 b' y Hy) as [? Ho].
    split; [done|]. intros a Ha. by apply Hun, Ho.
  - intros w. apply (fits_kept s); rewrite ?Eps; try done. by intros b' y ?; exists y.
  - intros d j Hd Hj. destruct (decide (d = c)) as [->|Hne].
    + rewrite !(cell_byte_at _ c j an x), Eps by done. change (phys p') with m'. unfold m'.
      destruct (Z.eqb_spec (physpage x + j) (physpage x + i)); [rewrite decide_True by (split; [done|lia]); done|].
      rewrite decide_False; [done|]. intros [_ ->]. done.
    + rewrite decide_False by tauto. unfold cell_byte. change (in_slot (set_heap h s) d) with (in_slot s d).
      destruct (in_slot s d) as [b'|] eqn:Hsd; [|done]. cbn [mbind option_bind].
      change (anons (set_heap h s)) with (anons s).
      destruct (anons s !! b') as [y|] eqn:Hy; [|done]. rewrite Eps. change (phys p') with m'. unfold m'.
      destruct (Z.eqb_spec (physpage y + j) (physpage x + i)) as [E|]; [|done]. exfalso.
      destruct (fr_own _ (co_frames _ C) _ _ Hy) as [Hya _]. apply same_page_bytes in E as [E _]; [|done..].
      destruct (decide (b' = an)) as [->|Hb]; [|by apply (fr_apart _ (co_frames _ C) b' an y x)].
      pose proof (rf_count _ (co_refs _ C) an x [c; d] Hx) as Hcnt. simpl in Hcnt.
      enough (2 ≤ an_refcnt x) by lia. apply Hcnt.
      * apply NoDup_cons. split; [by intros ->%list_elem_of_singleton|apply NoDup_singleton].
      * by repeat constructor.
Qed.

(** ** Programs *)

(** One access has been made, at the cost of four objects of the heap and four pages at most;
    pages that are not of this map have not changed. *)
Record went (n : nat) s s' : Prop := {
  wt_space : space_ok s';
  wt_ready : heap_ready n (heap s');
  wt_free : (free_pages (ps s) ≤ 4 + free_pages (ps s'))%nat;
  wt_rest : rest s s';
  wt_others d j : 0 ≤ d.2 → 0 ≤ j < PGSIZE → (∀ va, cell s va ≠ Some d) → cell_byte s' d j = cell_byte s d j;
}.

Lemma page_offset va : 0 ≤ va < 2^47 → va = PGROUNDDOWN va + pgi va.
Proof.
  intros H. rewrite round_down by lia. unfold pgi. change 0xFFF with (Z.ones 12). rewrite Z.land_ones by lia.
  change (2^12) with 4096. Z.div_mod_to_equations. lia.
Qed.
Lemma same_bytes_byte s s' w : layout_ok s → rest s s' → same_bytes s s' → byte s' w = byte s w.
Proof.
  intros L Ho Hb. unfold byte. rewrite (cell_objects s s' w (rs_objects _ _ Ho)). destruct (cell s w) as [c|] eqn:Hc; [|done].
  apply Hb; [by apply (cell_bounds s w c L)|apply pgi_bounds].
Qed.

Lemma cpu_load_run n s va :
  space_ok s → is_Some (cell s va) → heap_ready (4 + n) (heap s) → (4 ≤ free_pages (ps s))%nat →
  ∃ s', cpu_load va s = Ok (byte s va, s') ∧ went n s s' ∧ ∀ w, byte s' w = byte s w.
Proof.
  intros Sp [c Hc] Hr Hfree. pose proof (co_layout _ (sp_core _ Sp)) as L.
  destruct (cpu_access_run n s va c false Sp Hc Hr Hfree) as (an & x & s' & Hrun & Sp' & B & Hs & Hx & _ & Hr' &
    Hfr & Ho).
  exists s'. split; [|split; [split; try done; intros d j Hd Hj _; by apply B|intros w; by apply same_bytes_byte]].
  unfold cpu_load. rewrite (bind_step _ _ _ _ _ Hrun), (bind_step _ _ _ _ _ (on_pstate_get s')).
  unfold mret, M_ret. do 2 f_equal. unfold byte.
  rewrite Hc, <-(B c) by first [apply (cell_bounds s va c L Hc)|apply pgi_bounds].
  by rewrite (cell_byte_at s' c _ an x).
Qed.

Lemma cpu_store_run n s va b :
  space_ok s → is_Some (cell s va) → heap_ready (4 + n) (heap s) → (4 ≤ free_pages (ps s))%nat →
  ∃ s', cpu_store va b s = Ok ((), s') ∧ went n s s' ∧ ∀ w, byte s' w = if w =? va then b else byte s w.
Proof.
  intros Sp [c Hc] Hr Hfree. pose proof (co_layout _ (sp_core _ Sp)) as L. destruct (cell_bounds s va c L Hc)
    as [Hv Hc2].
  destruct (cpu_access_run n s va c true Sp Hc Hr Hfree) as (an & x & s1 & Hrun & Sp1 & B & Hs & Hx & H1 & Hr1 &
    Hfr & Ho).
  destruct (poke_run s1 c an x (pgi va) b Sp1 Hc2 Hs Hx (H1 eq_refl) (pgi_bounds va))
    as (h & Hpoke & Sp' & Hr' & Hvs' & Hfr' & Hb).
  set (s' := set_heap h s1) in *. exists s'. split; [|split].
  - unfold cpu_store. by rewrite (bind_step _ _ _ _ _ Hrun).
  - split; [done|by apply Hr'| | |].
    + change (ps s') with (pages_of h). by rewrite Hfr'.
    + eapply rest_trans; [exact Ho|by apply rest_heap].
    + intros d j Hd Hj Hn. rewrite Hb by done. rewrite decide_False; [by apply B|]. intros [-> _]. by apply (Hn va).
  - intros w. unfold byte. assert (∀ u, cell s' u = cell s u) as Ec by (intros u; by apply cell_objects, Ho). rewrite Ec.
    destruct (cell s w) as [d|] eqn:Hd; [|destruct (Z.eqb_spec w va) as [->|]; [congruence|done]].
    destruct (cell_bounds s w d L Hd) as [Hw Hd2]. pose proof (pgi_bounds w). rewrite Hb, B by done.
    destruct (Z.eqb_spec w va) as [->|Hne]; [rewrite decide_True; [done|split; congruence]|].
    rewrite decide_False; [done|]. intros [-> E]. apply Hne. rewrite (page_offset w), (page_offset va) by done.
    f_equal; [by apply (la_once _ L w va c)|done].
Qed.

Lemma flat_run_ext l f g : (∀ x, f x = g x) → (flat_run l f).1 = (flat_run l g).1 ∧
  ∀ x, (flat_run l f).2 x = (flat_run l g).2 x.
Proof.
  revert f g. induction l as [|[va|va b] l IH]; intros f g E; [done| |]; simpl.
  - destruct (IH f g E) as [E1 E2]. destruct (flat_run l f) as [vs f'], (flat_run l g) as [ws g']. simpl in *.
    by rewrite E, E1.
  - apply IH. intros x. by rewrite E.
Qed.

Lemma cpu_run_went l s :
  space_ok s → Forall (λ x, is_Some (cell s (access_va x))) l →
  heap_ready (4 * length l) (heap s) → (4 * length l ≤ free_pages (ps s))%nat →
  ∃ s', cpu_run l s = Ok ((flat_run l (byte s)).1, s') ∧ space_ok s' ∧ rest s s' ∧
    (∀ va, byte s' va = (flat_run l (byte s)).2 va) ∧
    ∀ d j, 0 ≤ d.2 → 0 ≤ j < PGSIZE → (∀ va, cell s va ≠ Some d) → cell_byte s' d j = cell_byte s d j.
Proof.
  revert s. induction l as [|x l IH]; intros s Sp HF Hr Hfree; [by exists s|].
  apply Forall_cons in HF as [Hx HF]. simpl length in *.
  replace (4 * S (length l))%nat with (4 + 4 * length l)%nat in * by lia.
  assert (∀ s1, went (4 * length l) s s1 → ∃ s', cpu_run l s1 = Ok ((flat_run l (byte s1)).1, s') ∧ space_ok s' ∧
    rest s s' ∧
    (∀ va, byte s' va = (flat_run l (byte s1)).2 va) ∧
    ∀ d j, 0 ≤ d.2 → 0 ≤ j < PGSIZE → (∀ va, cell s va ≠ Some d) → cell_byte s' d j = cell_byte s d j) as Hgo.
  { intros s1 [W1 W2 W3 W4 W5]. assert (∀ u, cell s1 u = cell s u) as Ec by (intros u; by apply cell_objects, W4).
    destruct (IH s1 W1) as (s' & Hrun & Sp' & Ho & Hb & Hot); [|done|lia|].
    { eapply Forall_impl; [exact HF|]. intros y. by rewrite Ec. }
    exists s'. split; [done|]. split; [done|]. split; [by eapply rest_trans|]. split; [done|]. intros d j Hd Hj Hn.
    rewrite Hot, W5 by (done || intros va; rewrite ?Ec; apply Hn). done. }
  destruct x as [va|va b]; simpl in Hx.
  - destruct (cpu_load_run (4 * length l) s va Sp Hx Hr ltac:(lia)) as (s1 & Hload & W & Hb1).
    destruct (Hgo s1 W) as (s' & Hrun & Sp' & Ho & Hb & Hot). destruct (flat_run_ext l (byte s1) (byte s) Hb1)
      as [E1 E2].
    exists s'. simpl. destruct (flat_run l (byte s)) as [vs g]. simpl in *. split; [|split; [done|split;
      [done|split; [|done]]]].
    + rewrite (bind_step _ _ _ _ _ Hload), (bind_step _ _ _ _ _ Hrun). by rewrite E1.
    + intros u. by rewrite Hb, E2.
  - destruct (cpu_store_run (4 * length l) s va b Sp Hx Hr ltac:(lia)) as (s1 & Hst & W & Hb1).
    destruct (Hgo s1 W) as (s' & Hrun & Sp' & Ho & Hb & Hot).
    destruct (flat_run_ext l (byte s1) (λ x, if x =? va then b else byte s x) Hb1) as [E1 E2].
    exists s'. simpl. split; [|split; [done|split; [done|split; [|done]]]].
    + by rewrite (bind_step _ _ _ _ _ Hst), Hrun, E1.
    + intros u. by rewrite Hb, E2.
Qed.

(** An address without an entry. *)
Lemma pagefault_unmapped s va code :
  space_ok s → va < KHEAP_BASE → map_entry_for_addr m va = None →
  pagefault_interrupt va code s = Fatal "unhandled page fault".
Proof.
  intros Sp Hva Hno.
  unfold pagefault_interrupt. rewrite (bind_step _ _ s (-1) s); [done|]. unfold vm_fault.
  rewrite (bind_step mget _ s s s) by done. rewrite (sp_idle _ Sp), (proj2 (Z.leb_gt _ _)) by done.
  rewrite (bind_step (mmodify _) _ s () (set_in_pagefault true s)) by done.
  pose proof (la_map _ (co_layout _ (sp_core _ Sp))) as Hm.
  rewrite (bind_step _ _ _ _ _ (get_map_ok (set_in_pagefault true s) _ _ Hm)), Hno.
  rewrite (bind_step (mret _) _ _ (-1) (set_in_pagefault true s)) by done. pose proof (sp_idle _ Sp) as Hi.
  rewrite (bind_step (mmodify _) _ _ () s); [done|]. unfold mmodify. by destruct s; simpl in *; subst.
Qed.

End space.
End cpu.

(** ** A process that shares a page with another *)

Definition cow_vm : vm_state counter_heap :=
  Vm (CounterHeap 100 [(70, 56); (61, 16); (62, 16); (60, 88); (63, 88); (9, 848)] (VState ∅ [] 0,
    demo_pmap)) {[70 := Anon 2 true 1052672]}
    {[61 := Amap 0 shared_chunk; 62 := Amap 0 shared_chunk]}
    {[60 := demo_object; 63 := Object 1 kVMObjAnon 0x2000 62 None]} {[9 := demo_map]} ∅ false.

Lemma shared_slot q b : 0 ≤ q → slot (Amap 0 shared_chunk) q = Some b → q = 0 ∧ b = 70.
Proof.
  intros Hq. unfold slot, slot_of, shared_chunk. cbn [chunks].
  destruct (Z.to_nat (q / kAMapChunkNPages)) as [|k] eqn:Ek; [|done].
  cbn [lookup list_lookup mbind option_bind ck_anon].
  assert (q / kAMapChunkNPages = 0) as E0 by (assert (0 ≤ q / kAMapChunkNPages) by (apply Z.div_pos;
    unfold kAMapChunkNPages; lia); lia).
  destruct (Z.to_nat (q mod kAMapChunkNPages)) as [|j] eqn:Ej.
  - intros [= <-]. split; [|done]. unfold kAMapChunkNPages in *. Z.div_mod_to_equations. lia.
  - cbn [lookup list_lookup]. destruct (replicate 31 None !! j) as [o|] eqn:E; [|done].
    by apply lookup_replicate in E as [-> _].
Qed.
Lemma cow_slot c b : 0 ≤ c.2 → in_slot cow_vm c = Some b → b = 70 ∧ c ∈ [(61, 0); (62, 0)].
Proof.
  destruct c as [am q]. intros Hq Hs. unfold in_slot in Hs. simpl in *.
  destruct (decide (am = 61)) as [->|H1]; [|destruct (decide (am = 62)) as [->|H2]].
  - change (slot (Amap 0 shared_chunk) q = Some b) in Hs. destruct (shared_slot q b Hq Hs) as [-> ->]. set_solver.
  - change (slot (Amap 0 shared_chunk) q = Some b) in Hs. destruct (shared_slot q b Hq Hs) as [-> ->]. set_solver.
  - by rewrite lookup_insert_ne, lookup_singleton_ne in Hs by done.
Qed.
Lemma demo_own_page : own_page 1048576 demo_pmap 1052672.
Proof.
  split; [by apply (bool_decide_unpack _)|]. intros a Ha. split.
  - intros x Hx Hxa. change (x ∈ [1060864; 1064960; 1069056; 1073152; 1077248; 1081344; 1085440; 1089536]) in Hx.
    rewrite !elem_of_cons, elem_of_nil in Hx. unfold inside, PGSIZE in *. lia.
  - intros q x Hq Hx Hxa. apply zero_tables in Hx as [_ ->]. unfold inside, PGSIZE in *. simpl in *. lia.
Qed.

Lemma cow_cell va c : cell demo_map cow_vm va = Some c → 0x1000 ≤ va < 0x3000 ∧ c = (61, PGROUNDDOWN va / 4096 - 1).
Proof.
  unfold cell, map_entry_for_addr. simpl. destruct ((4096 <=? va) && (va <? 12288)) eqn:E; [|done].
  apply andb_true_iff in E as [?%Z.leb_le ?%Z.ltb_lt]. intros [= <-]. split; [lia|]. f_equal. unfold page_index. simpl.
  rewrite PGROUNDDOWN_eq by lia. rewrite w64_small by (Z.div_mod_to_equations; lia). unfold PGSIZE.
  Z.div_mod_to_equations. lia.
Qed.
Lemma cow_anon b x : anons cow_vm !! b = Some x → b = 70 ∧ x = Anon 2 true 1052672.
Proof. intros Hb. unfold cow_vm in Hb. cbn [anons] in Hb. by apply lookup_singleton_Some in Hb as [<- <-]. Qed.
Lemma cow_role p r : role_of 9 cow_vm p r →
  (p, r) ∈ [(70, RAnon); (60, RObject); (63, RObject); (61, RAmap); (62, RAmap); (9, RMap)].
Proof.
  destruct r as [|am|q w| | |].
  - intros [x [-> _]%cow_anon]. left.
  - intros [Hp E]. destruct (amaps cow_vm !! am) as [a|] eqn:Ea; [|done]. simpl in *.
    apply lookup_insert_Some in Ea as [[_ <-]|[_ [_ <-]%lookup_singleton_Some]]; injection E as <-; done.
  - by intros (pv & Hin%elem_of_nil & _).
  - intros [x Hx]. unfold cow_vm in Hx. cbn [objects amaps] in Hx.
    apply lookup_insert_Some in Hx as [[<- _]|[_ [<- _]%lookup_singleton_Some]]; set_solver.
  - intros [x Hx]. unfold cow_vm in Hx. cbn [objects amaps] in Hx.
    apply lookup_insert_Some in Hx as [[<- _]|[_ [<- _]%lookup_singleton_Some]]; set_solver.
  - intros [x Hx]. unfold cow_vm in Hx. cbn [maps] in Hx. apply lookup_singleton_Some in Hx as [<- _]. set_solver.
Qed.

Lemma cow_space_ok : space_ok 9 demo_map cow_vm.
Proof.
  split; [split|done|].
  - split; [done| | |].
    + intros ent He. simpl in He. apply list_elem_of_singleton in He as ->. done.
    + intros ent va. unfold map_entry_for_addr. simpl. destruct ((4096 <=? va) && (va <? 12288)) eqn:E; [|done].
      apply andb_true_iff in E as [?%Z.leb_le ?%Z.ltb_lt]. intros [= <-]. exists demo_object. split_and!; try done.
      all: unfold page_index; simpl; rewrite PGROUNDDOWN_eq by lia; rewrite w64_small by (Z.div_mod_to_equations;
        lia);
        unfold PGSIZE; Z.div_mod_to_equations; lia.
    + intros v w c [Hv ->]%cow_cell [Hw E]%cow_cell. injection E as E. rewrite !PGROUNDDOWN_eq in * by lia.
      Z.div_mod_to_equations. lia.
  - split.
    + intros c b Hc [-> _]%cow_slot; [|done]. by eexists.
    + intros b x l [-> ->]%cow_anon Hnd HF. simpl. set (cs := [(61, 0); (62, 0)]). assert (length l ≤ length cs)%nat;
        [|simpl in *; lia].
      apply submseteq_length, NoDup_submseteq; [done|]. intros c Hc. rewrite Forall_forall in HF.
      destruct (HF c Hc) as [H0 Hs]. by apply (cow_slot c 70).
    + by intros b x [_ ->]%cow_anon.
    + by intros b x [_ ->]%cow_anon.
  - split; [apply demo_pmap_ok|intros b x [_ ->]%cow_anon; exact demo_own_page|].
    intros b1 b2 x1 x2 [-> _]%cow_anon [-> _]%cow_anon. done.
  - split.
    + intros am a Ha. simpl in Ha. assert (a = Amap 0 shared_chunk) as ->.
      { by apply lookup_insert_Some in Ha as [[_ <-]|[_ [_ <-]%lookup_singleton_Some]]. }
      split; [|done]. intros [|i] ck; [|done]. by intros [= <-].
    + intros p r Hin%cow_role. simpl. rewrite !elem_of_cons, elem_of_nil in Hin. destruct_or! Hin; simplify_eq/=; set_solver.
    + intros p r1 r2 H1%cow_role H2%cow_role. rewrite !elem_of_cons, elem_of_nil in H1, H2. destruct_or! H1; destruct_or! H2; by simplify_eq.
    + intros page. constructor.
    + intros page. constructor.
  - by intros page pv Hin%elem_of_nil.
  - intros va _. assert (pte_of (phys (ps cow_vm)) (mp_pml4 demo_map) va = 0) as E
      by (unfold pte_of; destruct (table_at _ _ _) as [t|]; reflexivity).
    rewrite E. destruct (cell demo_map cow_vm va); [by left|done].
Qed.

Lemma cow_ready n : heap_ready n (heap cow_vm).
Proof. intros x Hx. simpl in Hx. rewrite !elem_of_cons, elem_of_nil in Hx. naive_solver lia. Qed.
