(* ===== verification/UserCopy.v ===== *)
(** * Copies of objects are snapshots

    [vm_object_copy] (vm/vm.c), which [vm_map_fork] makes of every object of a process,
    copies no page.  What the copy holds is nevertheless what the object held
    when it was made, whatever the process then stores into its memory, and the process
    does not notice the copy. *)

From S2P Require Import Prelude Vmem VmPage Pmap PmapProps PmapKernel VmKernel VmKernelProps Heap Vm VmProps UserMem.
Open Scope Z_scope.

(** ** Counting slots *)

Lemma filter_count {A} (f : A → bool) (L : list A) (js : list nat) :
  NoDup js → (∀ j, j ∈ js → ∃ y, L !! j = Some y ∧ f y = true) → (length js ≤ length (List.filter f L))%nat.
Proof.
  revert js. induction L as [|y L IH]; intros js Hnd Hj.
  { destruct js as [|j js]; [done|]. by destruct (Hj j) as (y & Hy & _); [left|]. }
  assert (∀ ks, NoDup ks → (∀ j, j ∈ ks → j ≠ 0%nat ∧ j ∈ js) → (length ks ≤ length (List.filter f L))%nat) as Htail.
  { intros ks Hks Hin. rewrite <-(length_fmap pred). apply IH.
    - apply NoDup_fmap_2_strong; [|done]. intros i j Hi%Hin Hj'%Hin. destruct Hi, Hj'. lia.
    - intros i (j & -> & Hin')%list_elem_of_fmap. destruct (Hin j Hin') as [Hn Hjs]. destruct j as [|j]; [done|].
      by destruct (Hj (S j) Hjs) as (z & Hz & ?); exists z. }
  destruct (decide (0%nat ∈ js)) as [[ks HP]%elem_of_Permutation|Hn].
  - rewrite HP in Hnd. apply NoDup_cons in Hnd as [H0 Hks]. destruct (Hj 0%nat) as (z & [= <-] & Hf); [rewrite HP;
      left|].
    simpl. rewrite Hf, HP. simpl. apply le_n_S, Htail; [done|]. intros j Hin. split; [|rewrite HP; by right].
    by intros ->.
  - assert (length js ≤ length (List.filter f L))%nat as Hle.
    { apply Htail; [done|]. intros j Hin. split; [|done]. by intros ->. }
    simpl. destruct (f y); simpl; lia.
Qed.

(** All slots in a row. *)
Definition flat_slots (cs : list (option vm_amap_chunk)) : list (option Z) :=
  cs ≫= λ c, match c with Some c => ck_anon c | None => replicate 32 None end.
Lemma occ_none an n : occ an (replicate n None) = 0.
Proof. unfold occ. induction n as [|n IH]; [done|]. exact IH. Qed.
Lemma occ_flat an cs : occ an (flat_slots cs) = occ an (chunk_slots cs).
Proof.
  induction cs as [|c cs IH]; [done|]. unfold flat_slots, chunk_slots in *. rewrite !bind_cons, !occ_app, IH.
  destruct c as [c|]; [done|]. by rewrite occ_none.
Qed.
Lemma slot_flat arr cs q an :
  (∀ i c, cs !! i = Some (Some c) → length (ck_anon c) = 32%nat) → 0 ≤ q → slot (Amap arr cs) q = Some an →
  flat_slots cs !! Z.to_nat q = Some (Some an).
Proof.
  revert q. induction cs as [|c cs IH]; intros q Hc Hq Hs; [by unfold slot, slot_of in Hs|]. unfold flat_slots.
  rewrite bind_cons.
  assert (length (match c with Some c => ck_anon c | None => replicate 32 None end) = 32%nat) as Hlen.
  { destruct c as [c|]; [by apply (Hc 0%nat)|done]. }
  unfold slot, slot_of, kAMapChunkNPages in Hs. cbn [chunks] in Hs. destruct (Z.lt_ge_cases q 32) as [Hlt|Hge].
  - rewrite lookup_app_l by (rewrite Hlen; lia). rewrite Z.div_small, Z.mod_small in Hs by lia. simpl in Hs.
    destruct c as [c|]; simpl in Hs; [|done]. destruct (ck_anon c !! Z.to_nat q); simpl in Hs; [by f_equal|done].
  - rewrite lookup_app_r, Hlen by (rewrite Hlen; lia). replace (Z.to_nat q - 32)%nat with (Z.to_nat (q - 32)) by lia.
    apply IH; [intros i d Hd; by apply (Hc (S i))|lia|]. unfold slot, slot_of, kAMapChunkNPages. cbn [chunks].
    replace (Z.to_nat (q / 32)) with (S (Z.to_nat ((q - 32) / 32))) in Hs by (Z.div_mod_to_equations; lia).
    replace ((q - 32) mod 32) with (q mod 32) by (Z.div_mod_to_equations; lia). exact Hs.
Qed.

Section copy.
Context {K : Type} `{!KernelHeap K} (kmap map : Z) (m : vm_map).
Implicit Types (s : vm_state K).
Abbreviation root := (mp_pml4 m).

(** The object's pages are mapped by this map only. *)
Definition mapped_here s (a : vm_amap) : Prop :=
  ∀ q an x pv, slot a q = Some an → anons s !! an = Some x → pv ∈ pv_table (ps s) (physpage x) → pv_map pv = map.

(** The reference counts have room for [k] more each. *)
Definition refs_below (k : Z) s : Prop := ∀ an x, anons s !! an = Some x → an_refcnt x + k < 2^23.

Lemma refs_below_le j k s : j ≤ k → refs_below k s → refs_below j s.
Proof. intros Hjk Hb an x Hx. pose proof (Hb an x Hx). lia. Qed.

(** The anons of slots can be counted. *)
Lemma slots_count s am a an (l : list (Z * Z)) :
  roles_ok map s → amaps s !! am = Some a → NoDup l → Forall (λ c, c.1 = am ∧ 0 ≤ c.2 ∧ in_slot s c = Some an) l →
  Z.of_nat (length l) ≤ occ an (chunk_slots (chunks a)).
Proof.
  intros R Ha Hnd HF. rewrite Forall_forall in HF. rewrite <-occ_flat. unfold occ. apply inj_le.
  rewrite <-(length_fmap (λ c : Z * Z, Z.to_nat c.2)). apply filter_count.
  - apply NoDup_fmap_2_strong; [|done]. intros [a1 q1] [a2 q2] H1%HF H2%HF E. simpl in *. f_equal; [|lia].
    destruct H1, H2. congruence.
  - intros j (c & -> & Hc)%list_elem_of_fmap. destruct (HF c Hc) as (E & H0 & Hs). exists (Some an).
    split; [|by apply bool_decide_eq_true].
    destruct a as [arr cs]. apply (slot_flat arr); [apply (ro_chunks _ _ R am _ Ha)|done|]. unfold in_slot in Hs.
    by rewrite E, Ha in Hs.
Qed.
Lemma slot_in_chunks s am a an q : amaps s !! am = Some a → in_slot s (am, q) = Some an →
  Some an ∈ chunk_slots (chunks a).
Proof. unfold in_slot. intros Ha Hs. simpl in Hs. rewrite Ha in Hs. by eapply slot_chunk. Qed.

Lemma occ_length an l : occ an l ≤ Z.of_nat (length l).
Proof. unfold occ. pose proof (List.filter_length_le (λ o, bool_decide (o = Some an)) l). lia. Qed.
(** No object has more than 1024 slots. *)
Lemma slots_few s am a an :
  space_ok map m s → amaps s !! am = Some a → (length (chunks a) ≤ 32)%nat → occ an (chunk_slots (chunks a)) ≤ 1024.
Proof.
  intros Sp Ha Hlen. destruct (ro_chunks _ _ (co_roles _ _ _ (sp_core _ _ _ Sp)) am a Ha) as [H32 _].
  pose proof (occ_length an (chunk_slots (chunks a))).
  cut (Z.of_nat (length (chunk_slots (chunks a))) ≤ 32 * Z.of_nat (length (chunks a))); [lia|].
  assert (∀ c, c ∈ chunks a → match c with Some c => length (ck_anon c) = 32%nat | None => True end) as Hall.
  { intros [c|] Hc; [|done]. apply list_elem_of_lookup in Hc as [i Hi]. by apply (H32 i). }
  clear - Hall. induction (chunks a) as [|c cs IH]; [done|]. unfold chunk_slots in *. rewrite bind_cons, length_app.
  specialize (IH (λ d Hd, Hall d (list_elem_of_further _ _ _ Hd))). pose proof (Hall c ltac:(left)) as Hc.
  destruct c; simpl in *; lia.
Qed.

Lemma space_shareable s am a :
  space_ok map m s → amaps s !! am = Some a → mapped_here s a → (length (chunks a) ≤ 32)%nat → refs_below 1024 s →
  shareable map root s (chunk_slots (chunks a)).
Proof.
  intros Sp Ha Hh Hlen Hb an Hin. pose proof (sp_core _ _ _ Sp) as C.
  assert (∃ q, 0 ≤ q ∧ slot a q = Some an) as (q & Hq & Hs).
  { apply list_elem_of_bind in Hin as ([c|] & Hin & Hc); [|by apply elem_of_nil in Hin].
    apply list_elem_of_lookup in Hc as [i Hi]. apply list_elem_of_lookup in Hin as [j Hj].
    pose proof (lookup_lt_Some _ _ _ Hj) as Hlt. destruct (ro_chunks _ _ (co_roles _ _ _ C) am a Ha) as [H32 _].
    rewrite (H32 i c Hi) in Hlt.
    exists (32 * Z.of_nat i + Z.of_nat j). split; [lia|]. unfold slot, slot_of, kAMapChunkNPages.
    replace ((32 * Z.of_nat i + Z.of_nat j) / 32) with (Z.of_nat i) by (Z.div_mod_to_equations; lia).
    replace ((32 * Z.of_nat i + Z.of_nat j) mod 32) with (Z.of_nat j) by (Z.div_mod_to_equations; lia).
    rewrite !Nat2Z.id, Hi. simpl. by rewrite Hj. }
  destruct (rf_slot _ (co_refs _ _ _ C) (am, q) an Hq) as [x Hx]; [unfold in_slot; simpl; by rewrite Ha|].
  exists x. split; [done|].
  split; [apply (rf_count _ (co_refs _ _ _ C) an x [] Hx); by constructor|].
  split; [pose proof (slots_few s am a an Sp Ha Hlen); pose proof (Hb an x Hx); lia|].
  apply Forall_forall. intros pv Hpv. pose proof (Hh q an x pv Hs Hx Hpv) as Hm.
  split; [done|].
  apply (co_pvs _ _ _ C _ pv Hpv Hm).
Qed.

Lemma protects_zero p p' va :
  protects root p p' → pte_of (phys p) root va = 0 → pte_of (phys p') root va = 0.
Proof.
  intros Hpr E. destruct (pr_pte _ _ _ Hpr va) as [E2|(e & E2 & [Hl2 _] & _)]; [by rewrite (pte_of_same m _ _ va E2)|].
  exfalso. rewrite (pte_at_of m _ va e E2) in E. by rewrite E in Hl2.
Qed.

(** ** The state after the copy *)

Section after.
Context s (s4 : vm_state K) (am0 new am arr : Z) (nob : vm_object) (a : vm_amap) (cs : list (option vm_amap_chunk)).
Let s5 : vm_state K := set_object new nob (set_amap am (Amap arr cs) s4).
Hypotheses (Sp : space_ok map m s) (Ha : amaps s !! am0 = Some a).
Hypotheses (Hsame : same_chunks (chunks a) cs) (Hsh : shared root (chunk_slots (chunks a)) s s4).
Hypothesis Hhere : mapped_here s a.
Hypotheses (Hf1 : ∀ z, ¬ heap_live (heap s) new z) (Hf2 : ∀ z, ¬ heap_live (heap s) am z).
Hypothesis Hf3 : ∀ z, ¬ heap_live (heap s) arr z.
Hypotheses (Hdist : NoDup [new; am; arr]) (Hlo : heap_live (heap s4) new sizeof_vm_object).
Hypotheses (Hla : heap_live (heap s4) am sizeof_vm_amap) (Hlv : heap_live (heap s4) arr (8 * Z.of_nat (length (chunks a)))).
Hypothesis Hl : ∀ q z, heap_live (heap s) q z → heap_live (heap s4) q z.
Hypothesis Hnil : chunks a ≠ [].
Hypotheses (Hfew : (length (chunks a) ≤ 32)%nat) (Hbelow : refs_below 1024 s).
Let C : core map m s := sp_core _ _ _ Sp.

Lemma after_rest : amaps s4 = amaps s ∧ objects s4 = objects s ∧ maps s4 = maps s ∧ in_pagefault s4 = in_pagefault s.
Proof. by destruct Hsh as [(h & an & ->) _ _ _]. Qed.
Lemma copy_object_new : objects s !! new = None.
Proof.
  destruct (objects s !! new) as [x|] eqn:E; [|done]. destruct (Hf1 sizeof_vm_object).
  apply (ro_live _ _ (co_roles _ _ _ C) new RObject). by exists x.
Qed.
Lemma copy_amap_new : amaps s !! am = None.
Proof.
  destruct (amaps s !! am) as [x|] eqn:E; [|done]. destruct (Hf2 sizeof_vm_amap).
  apply (ro_live _ _ (co_roles _ _ _ C) am RAmap). by exists x.
Qed.
Lemma after_amaps : amaps s5 = <[am := Amap arr cs]> (amaps s).
Proof. unfold s5. simpl. by destruct after_rest as [-> _]. Qed.
Lemma after_slot c : in_slot s5 c = if decide (c.1 = am) then in_slot s (am0, c.2) else in_slot s c.
Proof.
  unfold in_slot. rewrite after_amaps. case_decide as E; [|by rewrite lookup_insert_ne].
  rewrite E, lookup_insert_eq. simpl. rewrite Ha. by apply same_chunks_slot.
Qed.
Lemma after_anons an : anons s5 !! an = add_refs (occ an (chunk_slots (chunks a))) <$> anons s !! an.
Proof. apply (sh_anons _ _ _ _ Hsh). Qed.
Lemma after_anon an x' :
  anons s5 !! an = Some x' → ∃ x, anons s !! an = Some x ∧ x' = add_refs (occ an (chunk_slots (chunks a))) x.
Proof. rewrite after_anons. destruct (anons s !! an) as [x|]; simpl; [|done]. intros [= <-]. by exists x. Qed.
Lemma after_protects : protects root (ps s) (ps s5).
Proof. apply (sh_pages _ _ _ _ Hsh). Qed.
Lemma after_cell va : cell m s5 va = cell m s va.
Proof.
  unfold cell. destruct (map_entry_for_addr m va) as [ent|] eqn:E; [|done]. simpl.
  destruct (la_object _ _ _ (co_layout _ _ _ C) _ _ E) as (ob & Hob & _). destruct after_rest as (_ & Eo & _).
  change (objects s5) with (<[new := nob]> (objects s4)). rewrite Eo, lookup_insert_ne; [done|].
  intros E2. by rewrite <-E2, copy_object_new in Hob.
Qed.
Lemma cell_not_new va c : cell m s va = Some c → c.1 ≠ am.
Proof.
  intros Hc E. unfold cell in Hc. destruct (map_entry_for_addr m va) as [ent|] eqn:Hent; [|done]. simpl in Hc.
  destruct (la_object _ _ _ (co_layout _ _ _ C) _ _ Hent) as (ob & Hob & _ & _ & [b Hb] & _). rewrite Hob in Hc.
  injection Hc as <-.
  simpl in E. by rewrite E, copy_amap_new in Hb.
Qed.
Lemma after_byte c i : 0 ≤ i < PGSIZE → 0 ≤ c.2 →
  cell_byte s5 c i = if decide (c.1 = am) then cell_byte s (am0, c.2) i else cell_byte s c i.
Proof.
  intros Hi Hc. assert (∀ d, 0 ≤ d.2 → match an ← in_slot s d;
    anons s5 !! an with Some x => phys (ps s5) (physpage x + i) | None => 0 end =
    cell_byte s d i) as Hd.
  { intros d Hd. unfold cell_byte. destruct (in_slot s d) as [an|]; [|done]. cbn [mbind option_bind].
    rewrite after_anons.
    destruct (anons s !! an) as [x|] eqn:Hx; [|done]. cbn [fmap option_fmap option_map add_refs physpage].
    apply (pr_bytes _ _ _ after_protects). apply (fr_own _ _ (co_frames _ _ _ C) an x Hx). unfold inside. lia. }
  unfold cell_byte at 1. rewrite after_slot. case_decide; by apply Hd.
Qed.

Lemma after_refs : refs_ok s5.
Proof.
  pose proof (co_refs _ _ _ C) as [R1 R2 R3 _]. split.
  - intros c an Hc Hs. rewrite after_slot in Hs. assert (∃ x, anons s !! an = Some x) as [x Hx].
    { case_decide; [by apply (R1 (am0, c.2))|by apply (R1 c)]. }
    rewrite after_anons, Hx. by eexists.
  - intros an x' l (x & Hx & ->)%after_anon Hnd HF. simpl. rewrite Forall_forall in HF.
    set (P := λ c : Z * Z, c.1 = am).
    assert (l ≡ₚ filter P l ++ filter (λ c, ¬ P c) l) as HP by (symmetry; apply filter_app_complement).
    rewrite HP in Hnd. apply NoDup_app in Hnd as (Hnd1 & _ & Hnd2). rewrite HP, length_app.
    assert (Z.of_nat (length (filter (λ c, ¬ P c) l)) ≤ an_refcnt x) as H1.
    { apply (R2 an x _ Hx Hnd2), Forall_forall. intros c [Hc Hin]%list_elem_of_filter. destruct (HF c Hin) as [H0 Hs].
      rewrite after_slot, decide_False in Hs by done. done. }
    set (l1 := (λ c : Z * Z, (am0, c.2)) <$> filter P l).
    assert (Z.of_nat (length l1) ≤ occ an (chunk_slots (chunks a))) as H2.
    { apply (slots_count s am0 a an l1); [exact (co_roles _ _ _ C)|done| |].
      - apply NoDup_fmap_2_strong; [|done].
        intros [a1 q1] [a2 q2] [E1 _]%list_elem_of_filter [E2 _]%list_elem_of_filter [= ->].
        unfold P in *. simpl in *. congruence.
      - apply Forall_forall. intros c (d & -> & [Hd Hin]%list_elem_of_filter)%list_elem_of_fmap.
        destruct (HF d Hin) as [H0 Hs].
        rewrite after_slot, decide_True in Hs by done. done. }
    unfold l1 in H2. rewrite length_fmap in H2. lia.
  - intros an x' (x & Hx & ->)%after_anon. exact (R3 an x Hx).
  - intros an x' (x & Hx & ->)%after_anon. simpl. pose proof (slots_few s am0 a an Sp Ha Hfew).
    pose proof (Hbelow an x Hx). lia.
Qed.
(** Each copy takes at most 1024 references of an anon. *)
Lemma after_below k : refs_below (1024 + k) s → refs_below k s5.
Proof.
  intros Hk an x' (x & Hx & ->)%after_anon. simpl. pose proof (slots_few s am0 a an Sp Ha Hfew).
  pose proof (Hk an x Hx). lia.
Qed.
Lemma after_frames : frames_ok m s5.
Proof.
  pose proof (co_frames _ _ _ C) as [F1 F2 F3]. split; [apply (pr_ok _ _ _ after_protects)| |].
  - intros an x' (x & Hx & ->)%after_anon. eapply own_page_kept; [apply (pr_bytes _ _ _ after_protects)|exact (F2
      an x Hx)].
  - intros an1 an2 x1 x2 (y1 & Hy1 & ->)%after_anon (y2 & Hy2 & ->)%after_anon. exact (F3 an1 an2 y1 y2 Hy1 Hy2).
Qed.
Lemma after_role p r :
  role_of map s5 p r → role_of map s p r ∨ (p, r) ∈ [(arr, RArray am); (new, RObject); (am, RAmap)].
Proof.
  destruct after_rest as (_ & Eo & Em & _). rewrite !elem_of_cons, elem_of_nil. destruct r as [|am'|q w| | |]; unfold role_of.
  - intros [x' (x & Hx & _)%after_anon]. left. by exists x.
  - rewrite after_amaps. destruct (decide (am' = am)) as [->|Hn].
    + rewrite lookup_insert_eq. intros [_ [= <-]]. auto.
    + rewrite lookup_insert_ne by done. by left.
  - rewrite (pr_pv _ _ _ after_protects). by left.
  - change (objects s5) with (<[new := nob]> (objects s4)). rewrite Eo, lookup_insert_is_Some. intros [<-|[_ H]]; auto.
  - rewrite after_amaps, lookup_insert_is_Some. intros [<-|[_ H]]; auto.
  - change (maps s5) with (maps s4). rewrite Em. by left.
Qed.
Lemma after_roles : roles_ok map s5.
Proof.
  pose proof (co_roles _ _ _ C) as R. assert (pv_table (ps s5) = pv_table (ps s)) as Epv by apply after_protects.
  assert (length cs = length (chunks a)) as Elen.
  { apply (f_equal length) in Hsame. by rewrite !length_fmap in Hsame. }
  split.
  - intros am' b Hb. rewrite after_amaps in Hb. apply lookup_insert_Some in Hb as [[<- <-]|[_ Hb]];
      [|by apply (ro_chunks _ _ R am')].
    simpl. split; [|intros _ E; apply Hnil, nil_length_inv; by rewrite <-Elen, E]. intros i c Hi.
    pose proof (f_equal (lookup i) Hsame) as E. rewrite !list_lookup_fmap, Hi in E.
    destruct (ro_chunks _ _ R am0 a Ha) as [H32 _].
    destruct (chunks a !! i) as [[c'|]|] eqn:Hc; simpl in E; [|done|done]. injection E as ->. by apply (H32 i).
  - intros p r [Ho|Hin]%after_role.
    + pose proof (Hl _ _ (ro_live _ _ R _ _ Ho)) as Hlp. destruct r as [|am'|q w| | |]; [done| |done..].
      unfold role_size in *. rewrite after_amaps, lookup_insert_ne; [done|]. intros <-. destruct Ho as [_ Ho].
      by rewrite copy_amap_new in Ho.
    + rewrite !elem_of_cons, elem_of_nil in Hin. destruct Hin as [[= -> ->]|[[= -> ->]|[[= -> ->]|[]]]]; [|done..].
      unfold role_size. rewrite after_amaps, lookup_insert_eq. simpl. by rewrite Elen.
  - eapply (roles_unique_list map s); [exact R|exact after_role| |by repeat constructor]. simpl.
    rewrite (Permutation_cons_append [new; am] arr). exact Hdist.
  - intros q. unfold own_pvs. rewrite Epv. apply (ro_pvs _ _ R).
  - intros q. unfold own_pvs. rewrite Epv. apply (ro_vaddrs _ _ R).
Qed.

(** A mapping of a page of the object has become read-only; all others are as before or
    read-only. *)
Lemma after_fits va : pte_fits map m s5 va.
Proof.
  intros Hv. pose proof (sp_ptes _ _ _ Sp va Hv) as Hold. rewrite after_cell. pose proof after_protects as Hpr.
  destruct (cell m s va) as [c|] eqn:Hc; [|by apply (protects_zero _ _ _ Hpr)].
  destruct (cell_bounds _ _ _ _ _ (co_layout _ _ _ C) Hc) as [_ H0].
  pose proof (cell_not_new va c Hc) as Hcam. unfold pte_cell.
  rewrite after_slot, decide_False by done.
  destruct Hold as [E|(an & x & prot & pv & Hs & Hx & He & Hp & Hpv & Hm & Hva)].
  - left. by apply (protects_zero _ _ _ Hpr).
  - right. destruct (fr_own _ _ (co_frames _ _ _ C) an x Hx) as [Hpa _].
    assert (pte_of (phys (ps s5)) root va = pte_of (phys (ps s)) root va ∨
      pte_of (phys (ps s5)) root va = pte_value (physpage x) (vm_prot_to_i386 kVMReadExecute)) as Hnew.
    { destruct (pr_pte _ _ _ Hpr va) as [E2|(e & E2 & _ & E3)]; [left; by apply pte_of_same|right].
      rewrite (pte_at_of m _ va _ E3). rewrite (pte_at_of m _ va _ E2) in He. subst e. unfold readonly_pte.
      by rewrite pte_get_addr_value by (done || apply prot_range). }
    assert (∀ prot', pte_of (phys (ps s5)) root va = pte_value (physpage x) (vm_prot_to_i386 prot') →
      (prot' = kVMAll ∧ an_refcnt (add_refs (occ an (chunk_slots (chunks a))) x) = 1 ∨ prot' = kVMReadExecute) →
      ∃ an0 x0 prot0 pv0, in_slot s c = Some an0 ∧ anons s5 !! an0 = Some x0 ∧
        pte_of (phys (ps s5)) root va = pte_value (physpage x0) (vm_prot_to_i386 prot0) ∧
        (prot0 = kVMAll ∧ an_refcnt x0 = 1 ∨ prot0 = kVMReadExecute) ∧
        pv0 ∈ pv_table (ps s5) (physpage x0) ∧ pv_map pv0 = map ∧ pv_vaddr pv0 = PGROUNDDOWN va) as Hgo.
    { intros prot' H1 H2. eexists an, _, prot', pv. rewrite after_anons, Hx. split; [done|]. split; [done|].
      split; [exact H1|]. split; [exact H2|]. by rewrite (pr_pv _ _ _ Hpr). }
    destruct Hnew as [E|E]; [|apply (Hgo kVMReadExecute); auto]. destruct Hp as [[-> H1]| ->];
      [|apply (Hgo kVMReadExecute); [congruence|auto]].
    apply (Hgo kVMAll); [congruence|left]. split; [done|].
    destruct (decide (Some an ∈ chunk_slots (chunks a))) as [Hin|Hout].
    + exfalso. destruct (sh_readonly _ _ _ _ Hsh an x (PGROUNDDOWN va) Hin Hx) as (e & He2 & Hw).
      { unfold mappings. rewrite <-Hva. by apply list_elem_of_fmap_2. }
      assert (vpage (PGROUNDDOWN va) = vpage va) as Ev by (apply vpage_round; lia).
      change (ps s4) with (ps s5) in He2. rewrite (pte_at_vpage _ _ _ _ Ev) in He2. apply pte_at_of in He2.
      rewrite E, He in He2. subst e. destruct (prot_flags (physpage x) kVMAll) as [_ Hw2]; [by left|].
      by rewrite Hw2 in Hw.
    + assert (occ an (chunk_slots (chunks a)) = 0) as ->; [|unfold add_refs; simpl; lia]. unfold occ.
      assert (List.filter (λ o, bool_decide (o = Some an)) (chunk_slots (chunks a)) = []) as ->; [|done].
      apply elem_of_nil_inv. intros o Ho%list_elem_of_In. apply List.filter_In in Ho as [Ho E2%bool_decide_eq_true].
      apply Hout. by rewrite <-E2, list_elem_of_In.
Qed.

Lemma after_space : space_ok map m s5.
Proof.
  destruct after_rest as (Eam & Eo & Em & Eid). pose proof (co_layout _ _ _ C) as [L1 L2 L3 L4].
  split; [|unfold s5; simpl; rewrite Eid; apply Sp|exact after_fits].
  split; [|apply after_refs|apply after_frames|apply after_roles|].
  - split; [by rewrite <-L1, <-Em|done| |intros v w c; rewrite !after_cell; apply L4].
    intros ent va Hent. destruct (L3 ent va Hent) as (ob & Hob & Ht & Hp & Hs & Hi). exists ob.
    split; [unfold s5; simpl; rewrite Eo, lookup_insert_ne; [done|]; intros E; by rewrite <-E, copy_object_new in Hob|].
    do 2 (split; [done|]). split; [|done]. rewrite after_amaps. apply lookup_insert_is_Some'. by right.
  - intros page pv Hin Hm. rewrite (pr_pv _ _ _ after_protects) in Hin.
    destruct (co_pvs _ _ _ C page pv Hin Hm) as [Hmp H].
    split; [|done]. by eapply protects_maps; [apply after_protects|].
Qed.
End after.

(** A copy of an object is a snapshot of it, and nobody notices that it shares pages.
    The process that has the object in its map sees the same bytes after the copy;
    whatever loads and stores it then makes, the loads give what they would give on its
    memory as it was, and every page of the copy holds what the page of the object held
    when the copy was made. *)
Theorem object_copy_snapshot s obj o a l :
  space_ok map m s → objects s !! obj = Some o → ob_type o = kVMObjAnon →
    amaps s !! ob_amap o = Some a →
  mapped_here s a → (1 ≤ length (chunks a) ≤ 32)%nat → refs_below 1024 s →
  Forall (λ x, is_Some (cell m s (access_va x))) l →
  heap_ready (3 + length (chunks a) + 4 * length l) (heap s) → (4 * length l ≤ free_pages (ps s))%nat →
  ∃ new am s1 s2, vm_object_copy obj s = Ok (new, s1) ∧ (∀ va, byte m s1 va = byte m s va) ∧
    cpu_run kmap map l s1 = Ok ((flat_run l (byte m s)).1, s2) ∧ space_ok map m s2 ∧
    (∀ va, byte m s2 va = (flat_run l (byte m s)).2 va) ∧
    objects s2 !! new = Some (Object 1 kVMObjAnon (ob_size o) am (ob_parent o)) ∧
    ∀ q i, 0 ≤ q → 0 ≤ i < PGSIZE → cell_byte s2 (am, q) i = cell_byte s (ob_amap o, q) i.
Proof.
  intros Sp Ho Ht Ha Hh Hlen Hbl HF Hr Hfree. pose proof (proj2 Hlen) as Hfew. pose proof (sp_core _ _ _ Sp) as C.
  destruct (vm_object_copy_run (4 * length l) s obj o a map m Ho Ht Ha (la_map _ _ _ (co_layout _ _ _ C))
    (fr_tables _ _ (co_frames _ _ _ C))
    (space_shareable s _ a Sp Ha Hh (proj2 Hlen) Hbl) Hlen Hr) as (new & am & arr & cs & s4 & Hrun & Hr4 & Hsame & Hsh & Hf1 & Hf2
      & Hf3 & Hdist & Hlo & Hla & Hlv & Hl).
  set (s5 := set_object new _ _) in Hrun. assert (chunks a ≠ []) as Hnil by (intros E; rewrite E in Hlen;
    simpl in Hlen; lia).
  assert (space_ok map m s5) as Sp5 by by eapply (after_space s s4 (ob_amap o) new am arr).
  assert (∀ va, cell m s5 va = cell m s va) as Hcell by (intros va; by eapply after_cell).
  assert (∀ c i, 0 ≤ i < PGSIZE → 0 ≤ c.2 → cell_byte s5 c i = if decide (c.1 = am) then cell_byte s (ob_amap o,
    c.2) i else cell_byte s c i)
    as Hbyte by (intros c i; by eapply after_byte).
  assert (∀ va c, cell m s va = Some c → c.1 ≠ am) as Hother by (intros va c; by eapply cell_not_new).
  assert (∀ va, byte m s5 va = byte m s va) as Hsee.
  { intros va. unfold byte. rewrite Hcell. destruct (cell m s va) as [c|] eqn:Hc; [|done].
    destruct (cell_bounds _ _ _ _ _ (co_layout _ _ _ C) Hc) as [_ H0]. pose proof (Hother va c Hc).
    by rewrite Hbyte, decide_False by (done || apply pgi_bounds). }
  destruct (cpu_run_went kmap map m l s5 Sp5) as (s2 & Hgo & Sp2 & Eo & Hb & Hrest);
    [by eapply Forall_impl; [exact HF|]; intros x; rewrite Hcell|done|change (ps s5) with (ps s4);
      unfold free_pages; by rewrite (pr_queues _ _ _ (sh_pages _ _ _ _ Hsh))|].
  destruct (flat_run_ext l (byte m s5) (byte m s) Hsee) as [E1 E2]. exists new, am, s5, s2. rewrite <-E1.
  do 4 (split; [done|]). split; [intros va; by rewrite Hb|]. split; [rewrite (rs_objects _ _ Eo); apply lookup_insert_eq|].
  intros q i Hq Hi. rewrite Hrest; [by rewrite Hbyte, decide_True by done|done|done|]. intros va Hva.
  rewrite Hcell in Hva.
  by apply (Hother va (am, q)).
Qed.
End copy.

Lemma object_copy_snapshot_witness :
  ∃ new am s1 s2, vm_object_copy 60 cow_vm = Ok (new, s1) ∧
    cpu_run 8 9 [Store 0x1234 7; Load 0x1234] s1 = Ok ([7], s2) ∧
    objects s2 !! new = Some (Object 1 kVMObjAnon 0x2000 am None) ∧
    cell_byte s2 (am, 0) 0x234 = cell_byte cow_vm (61, 0) 0x234.
Proof.
  destruct (object_copy_snapshot 8 9 demo_map cow_vm 60 demo_object (Amap 0 shared_chunk) [Store 0x1234 7;
    Load 0x1234])
    as (new & am & s1 & s2 & H1 & _ & H2 & _ & _ & H3 & H4).
  - exact cow_space_ok.
  - reflexivity.
  - reflexivity.
  - reflexivity.
  - by intros q an x pv _ _ Hpv%elem_of_nil.
  - simpl. lia.
  - by intros an x [_ ->]%cow_anon.
  - repeat constructor; eexists; reflexivity.
  - exact (cow_ready _).
  - by apply Nat.leb_le.
  - exists new, am, s1, s2. do 3 (split; [assumption|]). apply H4; [lia|unfold PGSIZE; lia].
Defined.
