(* ===== verification/UserAlloc.v ===== *)
(** * A process that asks for memory

    [vm_allocate] (vm/vm.c) adds a new anonymous object to a process's map, at an address of the
    arena's choice or at the one asked for.  With loads and stores that makes what a
    process can do to its memory: all of it together is a flat memory that grows by
    ranges of zeros. *)

From S2P Require Import Prelude Vmem VmemProps VmPage Pmap PmapProps PmapKernel VmKernel VmKernelProps Heap Vm VmProps UserArena UserMem.
Open Scope Z_scope.

Section alloc.
Context {K : Type} `{!KernelHeap K} (kpml4 kmap map : Z).
Implicit Types (s : vm_state K) (m : vm_map).

(** ** What [vm_allocate] does *)

Definition new_object (size am : Z) : vm_object := Object 1 kVMObjAnon size am None.
(** An object and its anonymous map have been added. *)
Definition with_object s (h : K) (obj am size : Z) : vm_state K :=
  set_object obj (new_object size am) (set_amap am (Amap 0 []) (set_heap h s)).
Record newly s (obj am : Z) (h : K) : Prop := {
  nw_pages : pages_of h = ps s;
  nw_fresh z : ¬ heap_live (heap s) obj z ∧ ¬ heap_live (heap s) am z;
  nw_apart : obj ≠ am;
  nw_live : heap_live h obj sizeof_vm_object ∧ heap_live h am sizeof_vm_amap;
  nw_kept q z : heap_live (heap s) q z → heap_live h q z;
}.

Lemma vm_aobj_new_run n s size :
  heap_ready (2 + n) (heap s) →
  ∃ obj am h, vm_aobj_new size s = Ok (obj, with_object s h obj am size) ∧ newly s obj am h ∧
    arenas_of h = arenas_of (heap s) ∧ heap_ready n h.
Proof.
  intros Hr.
  destruct (kmem_alloc_run (S n) sizeof_vm_object s Hr) as (obj & h1 & Ha1 & Hp1 & Hr1 & Hf1 & Hlv1 & Hl1);
    [unfold sizeof_vm_object; lia|].
  destruct (kmem_alloc_run n sizeof_vm_amap (set_heap h1 s) Hr1) as (am & h2 & Ha2 & Hp2 & Hr2 & Hf2 & Hlv2 & Hl2);
    [unfold sizeof_vm_amap; lia|].
  exists obj, am, h2. split; [|split; [split|split; [|done]]].
  - unfold vm_aobj_new. rewrite (bind_step _ _ _ _ _ Ha1), (bind_step _ _ _ _ _ Ha2). done.
  - rewrite Hp2. exact Hp1.
  - intros z. split; [apply Hf1|]. intros Hz. by apply (Hf2 z), Hl1.
  - intros ->. by apply (Hf2 sizeof_vm_object).
  - split; [by apply Hl2|done].
  - intros q z Hq. by apply Hl2, Hl1.
  - rewrite (kmem_alloc_arenas n sizeof_vm_amap (set_heap h1 s) am h2 Hr1 ltac:(unfold sizeof_vm_amap; lia) Ha2).
    exact (kmem_alloc_arenas (S n) sizeof_vm_object s obj h1 Hr ltac:(unfold sizeof_vm_object; lia) Ha1).
Qed.

(** The reference of the map's entry is the one that is left. *)
Lemma vm_object_release_new s h obj am size (t : vm_state K) :
  objects t = <[obj := retained (new_object size am)]> (objects (with_object s h obj am size)) →
  vm_object_release obj t = Ok ((), Vm (heap t) (anons t) (amaps t) (objects (with_object s h obj am size)) (maps t)
    (page_anon t) (in_pagefault t)).
Proof.
  intros E. unfold vm_object_release. rewrite (bind_step _ _ t (retained (new_object size am)) t).
  2: { apply get_object_ok. rewrite E. apply lookup_insert_eq. }
  erewrite bind_step by reflexivity. unfold mret, M_ret, set_object. simpl. rewrite E. simpl.
  by rewrite !insert_insert_eq.
Qed.

(** The address is 0 for none asked for: the arena chooses. *)
Definition vaddrp (vaddr : option Z) : Z := default VADDR_MAX vaddr.
Definition is_exact (vaddr : option Z) : bool := bool_decide (is_Some vaddr).
Definition size_ok (size : Z) : Prop := 0 < size ≤ 1024 * PGSIZE ∧ size mod PGSIZE = 0.
Definition vaddr_ok (vaddr : option Z) : Prop := ∀ v, vaddr = Some v → 0 ≤ v < 2^47 ∧ v mod PGSIZE = 0.
Definition asked_for (vaddr : option Z) (addr : Z) : Prop := ∀ v, vaddr = Some v → addr = v.
(** A range that a request can be given. *)
Definition fits (l : list (Z * Z)) (vaddr : option Z) (addr size : Z) : Prop :=
  asked_for vaddr addr ∧ user_range (addr, size) ∧ addr mod PGSIZE = 0 ∧ unused l (addr, size).

(** The state with the entry for the object in the map. *)
Definition with_entry s (m : vm_map) (p addr size obj : Z) : vm_state K :=
  set_map map (Map (entries m ++ [Entry p addr (addr + size) 0 obj]) (mp_vmem m) (mp_pml4 m)) s.

Lemma vm_allocate_run n s m vaddr size :
  maps s !! map = Some m → arena_fits m (arenas_of (heap s)) → 128 ≤ nfreesegs (arenas_of (heap s)) →
  size_ok size → vaddr_ok vaddr → heap_ready (3 + n) (heap s) →
  ∃ obj am h, newly s obj am h ∧ heap_ready n h ∧
    nfreesegs (arenas_of (heap s)) ≤ 2 + nfreesegs (arenas_of h) ∧
    ((∃ p addr, fits (entry_range <$> entries m) vaddr addr size ∧
        arena_holds (mp_vmem m) ((addr, size) :: (entry_range <$> entries m)) (arenas_of h) ∧
        vm_allocate kpml4 map (vaddrp vaddr) size s =
          Ok ((0, addr, Some obj), with_entry (with_object s h obj am size) m p addr size obj)) ∨
     ((∀ addr, ¬ fits (entry_range <$> entries m) vaddr addr size) ∧ arena_fits m (arenas_of h) ∧
        vm_allocate kpml4 map (vaddrp vaddr) size s =
          Ok ((0, vaddrp vaddr, None), with_object s h obj am size))).
Proof.
  intros Hm Har Ht [Hz Hzm] Hv Hr. set (v := default 0 vaddr).
  assert (0 ≤ v < 2^47 ∧ v mod PGSIZE = 0) as [Hv1 Hv2] by (unfold v; destruct vaddr as [w|]; [by apply Hv|done]).
  destruct (vm_aobj_new_run (S n) s size Hr) as (obj & am & h & Hnew & N & Harn & Hr1).
  set (s1 := with_object s h obj am size) in *.
  assert (ps s1 = ps s) as Eps by apply (nw_pages _ _ _ _ N).
  destruct (map_xalloc_asked kpml4 (is_exact vaddr) v (mp_vmem m) size _ (arenas_of (heap s)) (ps s) Har Ht)
    as (r & out & vs & Hx & Htags & _ & Hcase); [unfold USER_SIZE, PGSIZE in *; lia|done|lia|done|].
  rewrite <-Harn, <-Eps in Hx. change h with (heap s1) in Hx.
  assert (∀ addr, wanted (is_exact vaddr) v addr ↔ asked_for vaddr addr) as Hw.
  { intros addr. unfold wanted, asked_for, v. destruct vaddr as [w|]; simpl; [|split; done].
    split; [intros H u [= <-]; by apply H|intros H _; by apply H]. }
  pose proof (vm_map_object_run kpml4 n s1 map m obj (new_object size am) (is_exact vaddr) v size 0 r out vs
    ltac:(apply lookup_insert_eq) Hm ltac:(unfold VADDR_MAX; lia) Hzm Hx Hr1) as Hmo.
  assert (vaddr_of (is_exact vaddr) v = vaddrp vaddr) as Ev by by destruct vaddr.
  rewrite Ev in Hmo. cbv zeta in Hmo. unfold vm_allocate.
  rewrite size_aligned, massert_bind by done. rewrite (bind_step _ _ _ _ _ Hnew).
  destruct Hcase as [(addr & -> & -> & Hwa & Hh & Hu & Hal & Hun)|(-> & -> & Hh & Hno)].
  - change (0 <? 0) with false in Hmo. cbv iota in Hmo. destruct Hmo as (p & h2 & Hrun & Hp2 & Hvs & Hr2 & Hl2).
    simpl default in Hrun. exists obj, am, h2. destruct N as [N1 N2 N3 [N4 N5] N6]. split; [split|].
    { by rewrite Hp2. } { done. } { done. } { split; by apply Hl2. } { intros q z Hq. by apply Hl2, N6. }
    split; [done|]. rewrite Hvs. split; [done|]. left. exists p, addr. split.
    { split; [by apply Hw|done]. }
    split; [done|]. rewrite (bind_step _ _ _ _ _ Hrun). cbv beta iota.
    erewrite bind_step by (apply (vm_object_release_new s h obj am size); reflexivity). reflexivity.
  - change (- ERESOURCEEXHAUSTED <? 0) with true in Hmo. cbv iota in Hmo.
    exists obj, am, (with_kernel (vs, ps s1) h). destruct N as [N1 N2 N3 [N4 N5] N6]. split; [split|].
    { unfold pages_of. by rewrite kernel_of_with. } { done. } { done. } { split; by apply live_with_kernel. }
    { intros q z Hq. by apply live_with_kernel, N6. }
    split; [by apply heap_ready_with, heap_ready_less|]. assert (arenas_of (with_kernel (vs, ps s1) h) = vs) as ->
      by (unfold arenas_of; by rewrite kernel_of_with).
    split; [done|]. right. split; [|split; [done|]].
    { intros addr (H1 & H2 & _ & H4). by apply (Hno addr); [apply Hw| |]. }
    rewrite (bind_step _ _ _ _ _ Hmo). cbv beta iota.
    erewrite bind_step by (apply (vm_object_release_new s h obj am size); reflexivity). reflexivity.
Qed.

(** ** A new object *)

Lemma in_slot_nothing arr q : slot (Amap arr []) q = None.
Proof. done. Qed.

Section object.
Context (m : vm_map) s (h : K) (obj am size : Z).
Hypotheses (Sp : space_ok map m s) (N : newly s obj am h).
Let s1 : vm_state K := with_object s h obj am size.
Let C : core map m s := sp_core _ _ _ Sp.

Lemma new_object_fresh : objects s !! obj = None.
Proof.
  destruct (objects s !! obj) as [x|] eqn:E; [|done]. destruct (proj1 (nw_fresh _ _ _ _ N sizeof_vm_object)).
  apply (ro_live _ _ (co_roles _ _ _ C) obj RObject). by exists x.
Qed.
Lemma new_amap_fresh : amaps s !! am = None.
Proof.
  destruct (amaps s !! am) as [x|] eqn:E; [|done]. destruct (proj2 (nw_fresh _ _ _ _ N sizeof_vm_amap)).
  apply (ro_live _ _ (co_roles _ _ _ C) am RAmap). by exists x.
Qed.
Lemma with_object_pages : ps s1 = ps s.
Proof. apply (nw_pages _ _ _ _ N). Qed.
Lemma with_object_kept p o : objects s !! p = Some o → objects s1 !! p = Some o.
Proof. intros Ho. simpl. rewrite lookup_insert_ne; [done|]. intros <-. by rewrite new_object_fresh in Ho. Qed.
Lemma with_amap_kept p a : amaps s !! p = Some a → amaps s1 !! p = Some a.
Proof. intros Ha. simpl. rewrite lookup_insert_ne; [done|]. intros <-. by rewrite new_amap_fresh in Ha. Qed.

Lemma with_object_slot c : in_slot s1 c = in_slot s c.
Proof.
  unfold in_slot. simpl. destruct (decide (c.1 = am)) as [->|Hn]; [|by rewrite lookup_insert_ne].
  by rewrite lookup_insert_eq, new_amap_fresh.
Qed.
Lemma with_object_cell va : cell m s1 va = cell m s va.
Proof.
  unfold cell. destruct (map_entry_for_addr m va) as [ent|] eqn:E; [|done]. cbn [mbind option_bind].
  destruct (la_object _ _ _ (co_layout _ _ _ C) _ _ E) as (o & Ho & _). by rewrite Ho, (with_object_kept _ _ Ho).
Qed.
Lemma with_object_byte c i : cell_byte s1 c i = cell_byte s c i.
Proof. unfold cell_byte. by rewrite with_object_slot, with_object_pages. Qed.

Lemma with_object_role p r : role_of map s1 p r → role_of map s p r ∨ (p, r) ∈ [(obj, RObject); (am, RAmap)].
Proof.
  rewrite !elem_of_cons, elem_of_nil. destruct r as [|am'|q w| | |]; unfold role_of; rewrite ?with_object_pages; simpl;
    [by left| |by left| | |by left].
  - destruct (decide (am' = am)) as [->|Hn]; [|rewrite lookup_insert_ne by done; by left].
    rewrite lookup_insert_eq. intros [H0 [= <-]]. done.
  - rewrite lookup_insert_is_Some. intros [<-|[_ H]]; auto.
  - rewrite lookup_insert_is_Some. intros [<-|[_ H]]; auto.
Qed.
Lemma with_object_roles : roles_ok map s1.
Proof.
  pose proof (co_roles _ _ _ C) as R. destruct (nw_live _ _ _ _ N) as [L1 L2]. split.
  - intros am' a. simpl. intros [[<- <-]|[_ Ha]]%lookup_insert_Some; [done|by apply (ro_chunks _ _ R am')].
  - intros p r [Ho|Hin]%with_object_role.
    + pose proof (nw_kept _ _ _ _ N _ _ (ro_live _ _ R _ _ Ho)) as Hl. destruct r as [|am'|q w| | |]; try exact Hl.
      unfold role_size in *. destruct Ho as [_ Ho]. destruct (amaps s !! am') as [a|] eqn:Ha; [|done].
      by rewrite (with_amap_kept _ _ Ha).
    + rewrite !elem_of_cons, elem_of_nil in Hin. by destruct Hin as [[= -> ->]|[[= -> ->]|[]]].
  - eapply (roles_unique_list map s); [exact R|exact with_object_role| |].
    + simpl. apply NoDup_cons. split; [|apply NoDup_singleton]. intros E%list_elem_of_singleton.
      by apply (nw_apart _ _ _ _ N).
    + repeat constructor; intros z; apply (nw_fresh _ _ _ _ N z).
  - intros q. unfold own_pvs. rewrite with_object_pages. apply (ro_pvs _ _ R).
  - intros q. unfold own_pvs. rewrite with_object_pages. apply (ro_vaddrs _ _ R).
Qed.

Lemma with_object_space : space_ok map m s1.
Proof.
  pose proof C as [[L1 L2 L3 L4] [R1 R2 R3 R4] [F1 F2 F3] _ Hpv]. pose proof with_object_pages as Eps.
  split; [split|apply Sp|].
  - split; [done|done| |intros v w c; rewrite !with_object_cell; apply L4]. intros ent va Hent.
    destruct (L3 ent va Hent) as (o & Ho & H1 & H2 & [a Ha] & H3). exists o. split; [by apply with_object_kept|].
    do 2 (split; [done|]). split; [exists a; by apply with_amap_kept|done].
  - split; [intros c an; rewrite with_object_slot; apply R1| |exact R3|exact R4]. intros an x l Hx Hnd HF.
    apply (R2 an x l Hx Hnd). eapply Forall_impl; [exact HF|]. intros c [? Hs]. by rewrite with_object_slot in Hs.
  - split; rewrite ?Eps; [done|exact F2|exact F3].
  - exact with_object_roles.
  - intros page pv Hin Hm. rewrite Eps in Hin. apply (pv_fits_same m s); [by rewrite Eps|by apply Hpv].
  - intros va Hva. pose proof (sp_ptes _ _ _ Sp va Hva) as Hf. rewrite with_object_cell.
    destruct (cell m s va) as [c|]; [|by rewrite Eps]. unfold pte_cell. rewrite Eps, with_object_slot. exact Hf.
Qed.
End object.

(** ** A new entry *)

Section entry.
Context (m : vm_map) s (p addr size obj am : Z).
Let ent : vm_map_entry := Entry p addr (addr + size) 0 obj.
Let m' : vm_map := Map (entries m ++ [ent]) (mp_vmem m) (mp_pml4 m).
Let s' : vm_state K := with_entry s m p addr size obj.
Hypotheses (Sp : space_ok map m s) (Ho : objects s !! obj = Some (new_object size am)).
Hypothesis Ha : amaps s !! am = Some (Amap 0 []).
Hypothesis Hother : ∀ va c, cell m s va = Some c → c.1 ≠ am.
Hypotheses (Hz : size_ok size) (Hr : user_range (addr, size)) (Hal : addr mod PGSIZE = 0).
Hypothesis Hun : unused (entry_range <$> entries m) (addr, size).
Let C : core map m s := sp_core _ _ _ Sp.

Lemma new_entry_bounds : USER_BASE ≤ addr ∧ addr + size ≤ 2^33 ∧ addr mod 4096 = 0 ∧ size mod 4096 = 0 ∧ 0 < size ≤ 2^22.
Proof.
  pose proof Hr as (H1 & _ & H2). pose proof Hz as [H3 H4]. unfold USER_BASE, USER_SIZE, PGSIZE in H1, H2, H3. simpl in H1, H2.
  split; [exact H1|]. split; [lia|]. split; [exact Hal|]. split; [exact H4|]. lia.
Qed.
Lemma with_entry_find va :
  map_entry_for_addr m' va =
    match map_entry_for_addr m va with
    | Some e => Some e
    | None => if (addr <=? va) && (va <? addr + size) then Some ent else None
    end.
Proof.
  unfold map_entry_for_addr, m'. cbn [entries]. generalize (entries m). intros l. induction l as [|e l IH]; simpl.
  - by destruct (_ && _).
  - by destruct ((en_start e <=? va) && (va <? en_end e)).
Qed.
Lemma new_entry_alone va : addr ≤ va < addr + size → map_entry_for_addr m va = None.
Proof.
  intros Hva. destruct (map_entry_for_addr m va) as [e|] eqn:E; [|done].
  destruct (in_entry _ _ _ _ _ (co_layout _ _ _ C) E) as (Hin & Hb & _).
  destruct (Hun (entry_range e)) as [H|H]; [by apply list_elem_of_fmap_2|simpl in H; lia..].
Qed.
Definition new_page (va : Z) : Z := (PGROUNDDOWN va - addr) / PGSIZE.
Lemma new_page_bounds va :
  addr ≤ va < addr + size → page_index ent va = new_page va ∧ 0 ≤ new_page va < 1024 ∧
    PGROUNDDOWN va = addr + PGSIZE * new_page va.
Proof.
  intros Hva. destruct new_entry_bounds as (B1 & B2 & B3 & B4 & B5). unfold USER_BASE in B1. unfold page_index, new_page.
  simpl. rewrite PGROUNDDOWN_eq by lia. rewrite w64_small by (Z.div_mod_to_equations; lia). unfold PGSIZE.
  replace (va / 4096 * 4096 - addr + 0) with (va / 4096 * 4096 - addr) by lia.
  split; [done|]. split; Z.div_mod_to_equations; lia.
Qed.
Lemma with_entry_cell va :
  cell m' s' va =
    match cell m s va with
    | Some c => Some c
    | None => if (addr <=? va) && (va <? addr + size) then Some (am, new_page va) else None
    end.
Proof.
  unfold cell. rewrite with_entry_find. destruct (map_entry_for_addr m va) as [e|] eqn:E.
  - cbn [mbind option_bind]. destruct (la_object _ _ _ (co_layout _ _ _ C) _ _ E) as (o & Hoe & _).
    change (objects s') with (objects s). by rewrite Hoe.
  - destruct (_ && _) eqn:Hin; [|done]. apply andb_true_iff in Hin as [?%Z.leb_le ?%Z.ltb_lt].
    cbn [mbind option_bind]. change (objects s') with (objects s). simpl en_obj. rewrite Ho. simpl.
    by rewrite (proj1 (new_page_bounds va ltac:(lia))).
Qed.
Lemma with_entry_cell_new va c :
  cell m' s' va = Some c → cell m s va = Some c ∨ cell m s va = None ∧ addr ≤ va < addr + size ∧ c = (am, new_page va).
Proof.
  rewrite with_entry_cell. destruct (cell m s va) as [d|]; [by left|]. destruct (_ && _) eqn:Hin; [|done].
  apply andb_true_iff in Hin as [?%Z.leb_le ?%Z.ltb_lt]. intros [= <-]. by right.
Qed.

Lemma with_entry_layout : layout_ok map m' s'.
Proof.
  pose proof (co_layout _ _ _ C) as [L1 L2 L3 L4]. destruct new_entry_bounds as (B1 & B2 & B3 & B4 & B5). split.
  - apply lookup_insert_eq.
  - intros e [He| ->%list_elem_of_singleton]%elem_of_app; [by apply L2|]. simpl. unfold USER_BASE in B1.
    split; [lia|]. split; [lia|]. split; [done|]. Z.div_mod_to_equations. lia.
  - intros e va. rewrite with_entry_find. destruct (map_entry_for_addr m va) as [e'|] eqn:E.
    + intros [= <-]. by apply L3.
    + destruct (_ && _) eqn:Hin; [|done]. apply andb_true_iff in Hin as [?%Z.leb_le ?%Z.ltb_lt]. intros [= <-].
      destruct (new_page_bounds va ltac:(lia)) as (E1 & E2 & _). exists (new_object size am). rewrite E1.
      split; [done|]. split; [done|]. split; [done|]. split; [by eexists|done].
  - intros v w c [Hv|(_ & Hv & ->)]%with_entry_cell_new [Hw|(_ & Hw & E)]%with_entry_cell_new.
    + by apply (L4 v w c).
    + subst c. by destruct (Hother _ _ Hv).
    + by destruct (Hother _ _ Hw).
    + injection E as E. destruct (new_page_bounds v Hv) as (_ & _ & ->), (new_page_bounds w Hw) as (_ & _ & ->). by rewrite E.
Qed.

Lemma with_entry_space : space_ok map m' s'.
Proof.
  pose proof C as [L R F O Hpv]. pose proof (la_map _ _ _ L) as Hm.
  assert (∀ q r, role_of map s' q r → role_of map s q r) as Hrole.
  { intros q [|am'|page w| | |] Hq; try exact Hq. unfold role_of in *. simpl in Hq.
    apply lookup_insert_is_Some in Hq as [<-|[_ Hq]]; [by exists m|done]. }
  split; [split|apply Sp|].
  - exact with_entry_layout.
  - by destruct R.
  - by destruct F.
  - destruct O as [O1 O2 O3 O4 O5]. split; [done| | |done|done].
    + intros q r Hq%Hrole. apply O2 in Hq. by destruct r.
    + intros q r1 r2 H1%Hrole H2%Hrole. by eapply O3.
  - exact Hpv.
  - intros va Hva. pose proof (sp_ptes _ _ _ Sp va Hva) as Hf. rewrite with_entry_cell.
    destruct (cell m s va) as [c|]; [exact Hf|]. destruct (_ && _); [by left|exact Hf].
Qed.
Lemma with_entry_byte va : byte m' s' va = byte m s va.
Proof.
  unfold byte. rewrite with_entry_cell. destruct (cell m s va) as [c|]; [done|]. destruct (_ && _); [|done].
  unfold cell_byte, in_slot. simpl. by rewrite Ha.
Qed.
End entry.
End alloc.
