(* ===== verification/UserProc.v ===== *)
(** * What a process can do to its memory

    Loads, stores and [vm_allocate], in any order and at any addresses, each request depending
    on the answers so far.  The reference is a flat memory: ranges of addresses in use, and
    their bytes. *)

From S2P Require Import Prelude Vmem VmemProps VmPage Pmap PmapProps PmapKernel VmKernel VmKernelProps Heap Vm VmProps UserArena UserMem UserAlloc.
Open Scope Z_scope.

(** ** Requests *)

(** A load, a store, or [vm_allocate] with an address or without. *)
Inductive request := Access (x : access) | Allocate (vaddr : option Z) (size : Z).
Inductive answer := Value (b : Z) | Stored | At (addr : Z) | Refused.
(** The next request, given the answers so far. *)
Abbreviation program := (list answer → request).

Definition request_ok (r : request) : Prop :=
  match r with
  | Access x => 0 ≤ access_va x < 2^47
  | Allocate vaddr size => vaddr_ok vaddr ∧ size_ok size
  end.

(** ** The reference *)

Record flat := Flat { fl_ranges : list (Z * Z); fl_bytes : Z → Z }.
Definition in_range (r : Z * Z) (va : Z) : bool := (r.1 <=? va) && (va <? r.1 + r.2).
Definition in_use (l : list (Z * Z)) (va : Z) : Prop := ∃ r, r ∈ l ∧ in_range r va = true.

Inductive flat_step : request → flat → answer → flat → Prop :=
| flat_load va f : in_use (fl_ranges f) va → flat_step (Access (Load va)) f (Value (fl_bytes f va)) f
| flat_store va b f : in_use (fl_ranges f) va →
    flat_step (Access (Store va b)) f Stored (Flat (fl_ranges f) (λ x, if x =? va then b else fl_bytes f x))
| flat_allocate vaddr size addr f : fits (fl_ranges f) vaddr addr size →
    flat_step (Allocate vaddr size) f (At addr)
      (Flat (fl_ranges f ++ [(addr, size)]) (λ x, if in_range (addr, size) x then 0 else fl_bytes f x))
| flat_refuse vaddr size f : (∀ addr, ¬ fits (fl_ranges f) vaddr addr size) →
    flat_step (Allocate vaddr size) f Refused f.

(** [n] requests: all the answers and the memory, or nothing after an access to an
    address that is not in use. *)
Inductive flat_trace (prog : program) : nat → list answer → flat → option (list answer * flat) → Prop :=
| trace_end l f : flat_trace prog 0 l f (Some (l, f))
| trace_step n l f a f' r : flat_step (prog l) f a f' → flat_trace prog n (l ++ [a]) f' r → flat_trace prog (S n) l f r
| trace_fault n l f x : prog l = Access x → ¬ in_use (fl_ranges f) (access_va x) → flat_trace prog (S n) l f None.

Section process.
Context {K : Type} `{!KernelHeap K} (kpml4 kmap map : Z).
Implicit Types (s : vm_state K) (m : vm_map) (f : flat).

Definition user_step (r : request) : M (vm_state K) answer :=
  match r with
  | Access (Load va) => b ← cpu_load kmap map va; mret (Value b)
  | Access (Store va b) => cpu_store kmap map va b;; mret Stored
  | Allocate vaddr size =>
      '(_, addr, obj) ← vm_allocate kpml4 map (vaddrp vaddr) size;
      mret (match obj with Some _ => At addr | None => Refused end)
  end.
Fixpoint user_run (prog : program) (n : nat) (l : list answer) : M (vm_state K) (list answer) :=
  match n with
  | O => mret l
  | S n' => a ← user_step (prog l); user_run prog n' (l ++ [a])
  end.

(** ** One request *)

Record process m s : Prop := {
  pr_space : space_ok map m s;
  pr_arena : arena_fits m (arenas_of (heap s));
}.
(** What [n] requests can take. *)
Record supplies (n : nat) s : Prop := {
  su_heap : heap_ready (4 * n) (heap s);
  su_pages : (4 * n ≤ free_pages (ps s))%nat;
  su_tags : 126 + 2 * Z.of_nat n ≤ nfreesegs (arenas_of (heap s));
}.
(** The map shows the flat memory. *)
Record sees m s f : Prop := {
  se_ranges : fl_ranges f = entry_range <$> entries m;
  se_bytes va : byte m s va = fl_bytes f va;
}.
(** Other maps stay, and the pages of objects that are not in the map keep their bytes. *)
Record others m s m' s' : Prop := {
  ot_objects p o : objects s !! p = Some o → objects s' !! p = Some o;
  ot_maps q : q ≠ map → maps s' !! q = maps s !! q;
  ot_amaps p : is_Some (amaps s !! p) → is_Some (amaps s' !! p);
  ot_cells va d : is_Some (amaps s !! d.1) → cell m' s' va = Some d → cell m s va = Some d;
  ot_bytes d j : is_Some (amaps s !! d.1) → 0 ≤ d.2 → 0 ≤ j < PGSIZE → (∀ va, cell m s va ≠ Some d) →
    cell_byte s' d j = cell_byte s d j;
}.
Lemma others_refl m s : others m s m s.
Proof. by split. Qed.
Lemma others_trans m1 s1 m2 s2 m3 s3 : others m1 s1 m2 s2 → others m2 s2 m3 s3 → others m1 s1 m3 s3.
Proof.
  intros [A1 A2 A3 A4 A5] [B1 B2 B3 B4 B5]. split; [by auto| |by auto|by auto|].
  - intros q Hq. by rewrite B2, A2.
  - intros d j Hd H0 Hj Hn. rewrite B5, A5; auto. intros va Hva. by apply (Hn va), A4.
Qed.
Lemma others_rest m s s' :
  rest s s' → (∀ d j, 0 ≤ d.2 → 0 ≤ j < PGSIZE → (∀ va, cell m s va ≠ Some d) → cell_byte s' d j = cell_byte s d j) →
  others m s m s'.
Proof.
  intros [R1 R2 R3 R4] Hb. split; [by rewrite R1|by rewrite R2|done| |by auto].
  intros va d _. by rewrite (cell_objects m s s' va R1).
Qed.

Lemma in_use_cell m s va : space_ok map m s → is_Some (cell m s va) ↔ in_use (entry_range <$> entries m) va.
Proof.
  intros Sp. pose proof (co_layout _ _ _ (sp_core _ _ _ Sp)) as L. split.
  - intros [c Hc]. unfold cell in Hc. destruct (map_entry_for_addr m va) as [ent|] eqn:E; [|done].
    destruct (in_entry _ _ _ _ _ L E) as (Hin & Hb & _). exists (entry_range ent).
    split; [by apply list_elem_of_fmap_2|]. unfold in_range. simpl. apply andb_true_iff. rewrite Z.leb_le, Z.ltb_lt. lia.
  - intros (r & (ent & -> & Hin)%list_elem_of_fmap & Hb). unfold in_range in Hb. simpl in Hb.
    apply andb_true_iff in Hb as [?%Z.leb_le ?%Z.ltb_lt].
    destruct (map_entry_for_addr m va) as [e|] eqn:E.
    + destruct (la_object _ _ _ L _ _ E) as (o & Ho & _). unfold cell. rewrite E. cbn [mbind option_bind]. rewrite Ho.
      by eexists.
    + apply (List.find_none _ _) with (x := ent) in E; [|by apply list_elem_of_In].
      apply andb_false_iff in E as [?%Z.leb_gt|?%Z.ltb_ge]; lia.
Qed.
Lemma unmapped_entry m s va : space_ok map m s → cell m s va = None → map_entry_for_addr m va = None.
Proof.
  intros Sp Hc. destruct (map_entry_for_addr m va) as [ent|] eqn:E; [|done].
  destruct (la_object _ _ _ (co_layout _ _ _ (sp_core _ _ _ Sp)) _ _ E) as (o & Ho & _). unfold cell in Hc.
  rewrite E in Hc. cbn [mbind option_bind] in Hc. by rewrite Ho in Hc.
Qed.
Lemma cpu_access_unmapped m s va write k :
  space_ok map m s → 0 ≤ va < 2^47 → cell m s va = None →
  cpu_access kmap map (S k) va write s = Fatal "unhandled page fault".
Proof.
  intros Sp Hv Hc. pose proof (la_map _ _ _ (co_layout _ _ _ (sp_core _ _ _ Sp))) as Hm. cbn [cpu_access].
  rewrite (bind_step _ _ _ _ _ (get_map_ok _ _ _ Hm)), (bind_step _ _ _ _ _ (on_pstate_get s)).
  pose proof (sp_ptes _ _ _ Sp va Hv) as Hf. rewrite Hc in Hf. unfold mmu. rewrite Hf. change (has_flag 0 _) with false.
  cbn [andb]. unfold mbind at 1, M_bind. rewrite (pagefault_unmapped kmap map m s va _ Sp); [done|unfold KHEAP_BASE; lia|].
  by eapply unmapped_entry.
Qed.

(** A request has been served. *)
Record served_request (n : nat) m s m' s' f' : Prop := {
  sr_process : process m' s';
  sr_sees : sees m' s' f';
  sr_supplies : supplies n s';
  sr_others : others m s m' s';
}.

Lemma supplies_less n s : supplies (S n) s →
  heap_ready (4 + 4 * n) (heap s) ∧ (4 + 4 * n ≤ free_pages (ps s))%nat ∧
    128 + 2 * Z.of_nat n ≤ nfreesegs (arenas_of (heap s)).
Proof.
  intros [H1 H2 H3]. replace (4 * S n)%nat with (4 + 4 * n)%nat in * by lia. split; [done|]. split; [done|lia].
Qed.

Lemma went_served n m s s' f' :
  process m s → supplies (S n) s → went map m (4 * n) s s' → sees m s' f' → served_request n m s m s' f'.
Proof.
  intros [P1 [P2 P3]] (_ & H2 & H3)%supplies_less [W1 W2 W3 W4 W5] Hs. pose proof (rs_arenas _ _ W4) as E.
  split; [split; [done|by rewrite E]|done| |by apply others_rest]. split; [done|lia|rewrite E; lia].
Qed.

Lemma access_step n m s f x :
  process m s → supplies (S n) s → sees m s f → request_ok (Access x) →
  (¬ in_use (fl_ranges f) (access_va x) ∧ user_step (Access x) s = Fatal "unhandled page fault") ∨
  ∃ a s' f', user_step (Access x) s = Ok (a, s') ∧ flat_step (Access x) f a f' ∧ served_request n m s m s' f'.
Proof.
  intros P Su [E1 E2] Hok. pose proof (pr_space _ _ P) as Sp. destruct (supplies_less n s Su) as (Hr & Hfr & _).
  pose proof (in_use_cell m s (access_va x) Sp) as Hiff. rewrite <-E1 in Hiff.
  destruct (cell m s (access_va x)) as [c|] eqn:Hc; [right|left].
  2: { split; [intros Hu; apply Hiff in Hu; by destruct Hu|]. destruct x as [va|va b]; simpl in *.
    - unfold cpu_load. unfold mbind, M_bind. by rewrite (cpu_access_unmapped m s va false 1 Sp Hok Hc).
    - unfold cpu_store. unfold mbind, M_bind. by rewrite (cpu_access_unmapped m s va true 1 Sp Hok Hc). }
  assert (in_use (fl_ranges f) (access_va x)) as Hu by (apply Hiff; by exists c).
  destruct x as [va|va b]; simpl in Hc, Hu.
  - destruct (cpu_load_run kmap map m (4 * n) s va Sp ltac:(by exists c) Hr ltac:(lia)) as (s' & Hrun & W & Hb).
    exists (Value (byte m s va)), s', f. split; [simpl; by rewrite (bind_step _ _ _ _ _ Hrun)|].
    split; [rewrite E2; by constructor|]. apply went_served; [done|done|done|]. split; [done|]. intros w. by rewrite Hb.
  - destruct (cpu_store_run kmap map m (4 * n) s va b Sp ltac:(by exists c) Hr ltac:(lia)) as (s' & Hrun & W & Hb).
    eexists Stored, s', _. split; [simpl; by rewrite (bind_step _ _ _ _ _ Hrun)|].
    split; [by constructor|]. apply went_served; [done|done|done|]. split; [done|]. intros w. simpl. by rewrite Hb, E2.
Qed.

(** What a new object brings is not of any map. *)
Lemma others_object m s h obj am size :
  space_ok map m s → newly s obj am h → others m s m (with_object s h obj am size).
Proof.
  intros Sp N. split.
  - intros p o. by eapply with_object_kept.
  - done.
  - intros p [a Ha]. exists a. by eapply with_amap_kept.
  - intros va d _. by rewrite (with_object_cell map m s h obj am size Sp N).
  - intros d j _ _ _ _. by apply (with_object_byte map m s h obj am size Sp N).
Qed.

Lemma object_served n m s h obj am size f :
  process m s → newly s obj am h → supplies n (with_object s h obj am size) →
  arena_fits m (arenas_of h) → sees m s f → served_request n m s m (with_object s h obj am size) f.
Proof.
  intros [P1 P2] N Su Ha [E1 E2]. split; [split|split; [done|]|done|by apply others_object].
  - by apply with_object_space.
  - exact Ha.
  - intros va. rewrite <-E2. unfold byte. rewrite (with_object_cell map m s h obj am size P1 N).
    destruct (cell m s va) as [c|]; [|done]. by apply (with_object_byte map m s h obj am size P1 N).
Qed.

Section allocated.
Context (n : nat) m s (h : K) (obj am size p addr : Z) f.
Let s1 : vm_state K := with_object s h obj am size.
Let m' : vm_map := Map (entries m ++ [Entry p addr (addr + size) 0 obj]) (mp_vmem m) (mp_pml4 m).
Let s' : vm_state K := with_entry map s1 m p addr size obj.
Hypotheses (P : process m s) (N : newly s obj am h) (Su : supplies n s1) (S : sees m s f).
Hypotheses (Hz : size_ok size) (Hr : user_range (addr, size)) (Hal : addr mod PGSIZE = 0).
Hypothesis Hun : unused (entry_range <$> entries m) (addr, size).
Hypothesis Hh : arena_holds (mp_vmem m) ((addr, size) :: (entry_range <$> entries m)) (arenas_of h).

Lemma allocated_object_new va c : cell m s1 va = Some c → c.1 ≠ am.
Proof.
  unfold s1. rewrite (with_object_cell map m s h obj am size (pr_space _ _ P) N). intros Hc E. unfold cell in Hc.
  destruct (map_entry_for_addr m va) as [ent|] eqn:Hent; [|done]. simpl in Hc.
  destruct (la_object _ _ _ (co_layout _ _ _ (sp_core _ _ _ (pr_space _ _ P))) _ _ Hent) as (o & Ho & _ & _ & [a Ha] & _).
  rewrite Ho in Hc. injection Hc as <-. simpl in E.
  by rewrite E, (new_amap_fresh map m s h obj am (pr_space _ _ P) N) in Ha.
Qed.
Lemma allocated_cell va c :
  cell m' s' va = Some c →
  cell m s va = Some c ∨ cell m s va = None ∧ addr ≤ va < addr + size ∧ c.1 = am.
Proof.
  intros Hc. pose proof (with_object_space map m s h obj am size (pr_space _ _ P) N) as Sp1.
  destruct (with_entry_cell_new map m s1 p addr size obj am Sp1 ltac:(apply lookup_insert_eq) Hz Hr Hal va c Hc)
    as [Ho|(Ho & Hv & ->)]; unfold s1 in Ho; rewrite (with_object_cell map m s h obj am size (pr_space _ _ P) N) in Ho.
  - by left.
  - by right.
Qed.

Lemma allocated_served :
  served_request n m s m' s' (Flat (fl_ranges f ++ [(addr, size)]) (λ x, if in_range (addr, size) x then 0 else fl_bytes f x)).
Proof.
  pose proof (pr_space _ _ P) as Sp. pose proof (with_object_space map m s h obj am size Sp N) as Sp1.
  assert (amaps s1 !! am = Some (Amap 0 [])) as Ham by apply lookup_insert_eq.
  assert (space_ok map m' s') as Sp'.
  { apply (with_entry_space map m s1 p addr size obj am Sp1); first [done|apply lookup_insert_eq|exact allocated_object_new]. }
  assert (∀ va, byte m' s' va = byte m s va) as Hb.
  { intros va. unfold s', m'.
    rewrite (with_entry_byte map m s1 p addr size obj am Sp1 ltac:(apply lookup_insert_eq) Ham Hz Hr Hal va).
    unfold byte, s1. rewrite (with_object_cell map m s h obj am size Sp N). destruct (cell m s va) as [c|]; [|done].
    by apply (with_object_byte map m s h obj am size Sp N). }
  split; [split| |by destruct Su|].
  - exact Sp'.
  - destruct Hh as [H1 (a & Ha & U)]. split; [exact H1|]. exists a. split; [exact Ha|]. unfold m'. cbn [entries].
    rewrite fmap_app. unfold entry_range at 2. simpl. replace (addr + size - addr) with size by lia.
    by rewrite <-Permutation_cons_append.
  - destruct S as [E1 E2]. split.
    + simpl. rewrite fmap_app, E1. unfold entry_range at 3. simpl. by replace (addr + size - addr) with size by lia.
    + intros va. rewrite Hb. simpl. destruct (in_range (addr, size) va) eqn:E; [|apply E2].
      unfold byte, cell. rewrite (new_entry_alone map m s1 addr size Sp1 Hun va); [done|].
      apply andb_true_iff in E as [E3%Z.leb_le E4%Z.ltb_lt]. simpl in E3, E4. lia.
  - pose proof (others_object m s h obj am size Sp N) as [O1 O2 O3 O4 O5]. split; try done.
    + intros q Hq. simpl. by rewrite lookup_insert_ne.
    + intros va d [b Hb'] [Hd|(_ & _ & Hd)]%allocated_cell; [done|].
      by rewrite Hd, (new_amap_fresh map m s h obj am Sp N) in Hb'.
Qed.
End allocated.

Lemma allocate_step n m s f vaddr size :
  process m s → supplies (S n) s → sees m s f → request_ok (Allocate vaddr size) →
  ∃ a m' s' f', user_step (Allocate vaddr size) s = Ok (a, s') ∧ flat_step (Allocate vaddr size) f a f' ∧
    served_request n m s m' s' f'.
Proof.
  intros P Su S [Hv Hz]. pose proof (pr_space _ _ P) as Sp. destruct (supplies_less n s Su) as (Hr & Hfr & Ht).
  pose proof (la_map _ _ _ (co_layout _ _ _ (sp_core _ _ _ Sp))) as Hm. pose proof (se_ranges _ _ _ S) as E.
  destruct (vm_allocate_run kpml4 map (1 + 4 * n) s m vaddr size Hm (pr_arena _ _ P) ltac:(lia) Hz Hv Hr)
    as (obj & am & h & N & Hr' & Ht' & Hcase).
  assert (supplies n (with_object s h obj am size)) as Su'.
  { split; [by apply heap_ready_less| |].
    - change (ps (with_object s h obj am size)) with (pages_of h). rewrite (nw_pages _ _ _ _ N). lia.
    - change (arenas_of (heap (with_object s h obj am size))) with (arenas_of h). lia. }
  destruct Hcase as [(p & addr & (Hw & Hu & Hal & Hun) & Hh & Hrun)|(Hno & Har & Hrun)].
  - eexists (At addr), _, _, _. split; [simpl; by rewrite (bind_step _ _ _ _ _ Hrun)|].
    split; [constructor; by rewrite E|]. by apply (allocated_served n m s h obj am size p addr f).
  - exists Refused, m, (with_object s h obj am size), f. split; [simpl; by rewrite (bind_step _ _ _ _ _ Hrun)|].
    split; [constructor; by rewrite E|]. by apply object_served.
Qed.

(** ** Programs *)

Lemma user_run_flat_others prog n m s f l :
  process m s → supplies n s → sees m s f → (∀ l, request_ok (prog l)) →
  ∃ r, flat_trace prog n l f r ∧
    match r with
    | Some (l', f') => ∃ m' s', user_run prog n l s = Ok (l', s') ∧ served_request 0 m s m' s' f'
    | None => user_run prog n l s = Fatal "unhandled page fault"
    end.
Proof.
  intros P Su Se Hok. revert m s f l P Su Se. induction n as [|n IH]; intros m s f l P Su Se.
  { exists (Some (l, f)). split; [constructor|]. exists m, s. split; [done|]. by split. }
  assert (∀ a m1 s1 f1, user_step (prog l) s = Ok (a, s1) → flat_step (prog l) f a f1 → served_request n m s m1 s1 f1 →
    ∃ r, flat_trace prog (S n) l f r ∧ match r with
      | Some (l', f') => ∃ m' s', user_run prog (S n) l s = Ok (l', s') ∧ served_request 0 m s m' s' f'
      | None => user_run prog (S n) l s = Fatal "unhandled page fault"
      end) as Hgo.
  { intros a m1 s1 f1 Hrun Hst [P1 S1 Su1 O1]. destruct (IH m1 s1 f1 (l ++ [a]) P1 Su1 S1) as (r & Htr & Hr).
    exists r. split; [by eapply trace_step|]. cbn [user_run]. rewrite (bind_step _ _ _ _ _ Hrun).
    destruct r as [[l' f']|]; [|done]. destruct Hr as (m' & s' & Hrun' & [P2 S2 Su2 O2]). exists m', s'.
    split; [done|]. split; try done. by eapply others_trans. }
  pose proof (Hok l) as Hl. destruct (prog l) as [x|vaddr size] eqn:El.
  - destruct (access_step n m s f x P Su Se Hl) as [[Hno Hf]|(a & s' & f' & Hrun & Hst & Hsr)]; [|by eapply Hgo].
    exists None. split; [by eapply trace_fault|]. cbn [user_run]. unfold mbind, M_bind. by rewrite El, Hf.
  - destruct (allocate_step n m s f vaddr size P Su Se Hl) as (a & m' & s' & f' & Hrun & Hst & Hsr). by eapply Hgo.
Qed.

(** C6: A process's memory is a flat memory, whatever the process does, if no page in it
    is shared 2^23 times or more (where its 24-bit count overflows).  Let it make any loads
    and stores and ask for memory with [vm_allocate], at addresses of its choice or of the
    arena's, each request depending on the answers it had.  Then there is a run of
    the reference with the same answers: loads give what the last stores put there, or
    0 in a range that is new; [vm_allocate] gives a range of whole pages
    that is in the user's part and not in use, the one asked for if one is, and refuses
    only when there is none; and after it, the map shows the reference's ranges and bytes.  Pages of objects that are not in
    the map, those that share pages with it included, keep their bytes.  The
    first access to an address not in use stops the kernel, and nothing else does. *)
Theorem user_run_flat prog n m s f :
  process m s → supplies n s → sees m s f → (∀ l, request_ok (prog l)) →
  ∃ r, flat_trace prog n [] f r ∧
    match r with
    | Some (l, f') => ∃ m' s', user_run prog n [] s = Ok (l, s') ∧ process m' s' ∧ sees m' s' f' ∧
        ∀ d j, is_Some (amaps s !! d.1) → 0 ≤ d.2 → 0 ≤ j < PGSIZE → (∀ va, cell m s va ≠ Some d) →
          cell_byte s' d j = cell_byte s d j
    | None => user_run prog n [] s = Fatal "unhandled page fault"
    end.
Proof.
  intros P Su Se Hok. destruct (user_run_flat_others prog n m s f [] P Su Se Hok) as (r & Htr & Hr). exists r.
  split; [done|]. destruct r as [[l f']|]; [|done]. destruct Hr as (m' & s' & Hrun & [P' Se' _ O]). exists m', s'.
  do 3 (split; [done|]). apply O.
Qed.
End process.

(** ** A new process *)

(** What [vm_map_new] leaves: a map without entries and its arena. *)
Definition new_map : vm_map := Map [] (vmem_of 9) 1048576.
Definition new_arenas : vstate :=
  match vmem_init (vmem_of 9) "task map" USER_BASE USER_SIZE PGSIZE 0 0 0 0 (VState ∅ (seqZ 1000 140) 140, demo_pmap) with
  | Ok (_, (vs, _)) => vs
  | _ => VState ∅ [] 0
  end.
Definition new_vm : vm_state counter_heap :=
  Vm (CounterHeap 100 [(9, 848)] (new_arenas, demo_pmap)) ∅ ∅ ∅ {[9 := new_map]} ∅ false.

Lemma new_arenas_ok : arena_fits new_map new_arenas ∧ 130 ≤ nfreesegs new_arenas.
Proof.
  destruct (user_arena_run 9 (VState ∅ (seqZ 1000 140) 140) demo_pmap 1) as (vs & Hrun & Hh & Ht & _); [|simpl; lia|done|].
  { split; simpl; try done. apply NoDup_seqZ. }
  unfold new_arenas. rewrite Hrun. split; [exact Hh|lia].
Qed.
Lemma new_space : space_ok 9 new_map new_vm.
Proof.
  assert (∀ p r, role_of 9 new_vm p r → p = 9 ∧ r = RMap) as Hr.
  { intros p [|am|q w| | |]; unfold role_of; simpl; [by intros [x Hx]|by intros [_ Hx]| |by intros [x Hx]..|].
    - by intros (pv & Hin%elem_of_nil & _).
    - by intros [x [<- _]%lookup_singleton_Some]. }
  split; [split|done|].
  - split; [done|by intros ent Hin%elem_of_nil|done|done].
  - split; [by intros c an _ Hs|by intros an x l Hx|by intros an x Hx..].
  - split; [apply demo_pmap_ok|by intros an x Hx|by intros an1 an2 x1 x2 Hx].
  - split; [done| | |intros q; constructor..].
    + intros p r [-> ->]%Hr. left.
    + by intros p r1 r2 [_ ->]%Hr [_ ->]%Hr.
  - by intros page pv Hin%elem_of_nil.
  - intros va _. change (pte_of (phys (ps new_vm)) (mp_pml4 new_map) va = 0). unfold pte_of.
    destruct (table_at (phys (ps new_vm)) _ (path3 va)) as [t|]; reflexivity.
Qed.

Definition first_steps (l : list answer) : request :=
  match l with [] => Allocate (Some 0x1000) 0x2000 | _ => Access (Load 0x1234) end.

Lemma user_run_flat_witness :
  ∃ s', user_run 1048576 8 9 first_steps 2 [] new_vm = Ok ([At 0x1000; Value 0], s').
Proof.
  destruct (user_run_flat 1048576 8 9 first_steps 2 new_map new_vm (Flat [] (λ _, 0))) as (r & Htr & Hr).
  - split; [exact new_space|apply new_arenas_ok].
  - split; [|by apply Nat.leb_le|apply new_arenas_ok]. intros x Hx. simpl in Hx. apply list_elem_of_singleton in Hx as ->.
    done.
  - by split.
  - intros [|a l]; simpl; [|lia]. split; [by intros v [= <-]|]. by unfold size_ok.
  - inversion Htr as [|? ? ? a f' ? Hst Htr2|]; subst; [|done].
    assert (fits [] (Some 0x1000) 0x1000 0x2000) as Hfit.
    { split; [by intros v [= <-]|]. split; [by unfold user_range|]. split; [done|]. by intros e He%elem_of_nil. }
    inversion Hst as [| |? ? addr ? Hf|? ? ? Hno]; subst; [|by destruct (Hno 0x1000)].
    assert (addr = 0x1000) as -> by by apply Hf. simpl in Htr2.
    inversion Htr2 as [|? ? ? a2 f2 ? Hst2 Htr3|? ? ? x Hx Hno]; subst.
    + inversion Hst2; subst. inversion Htr3; subst. destruct Hr as (m' & s' & Hrun & _). exists s'. exact Hrun.
    + simpl in Hx. injection Hx as <-. destruct Hno. exists (0x1000, 0x2000). split; [left|done].
Defined.
