(* ===== verification/UserFork.v ===== *)
(** * Forks are snapshots

    [vm_map_fork] (vm/vm.c) makes a map with a copy of every object of a process's map at
    the same addresses.  The child's memory holds what the parent's held, and what the
    parent stores afterwards is not seen in it.  All the layers take part: the heap, the
    arena of the new map, the page tables, objects and anons. *)

From S2P Require Import Prelude Vmem VmemInv VmemSpan VmemProps VmPage Pmap PmapProps PmapKernel VmKernel VmKernelProps Heap Vm VmProps UserArena UserMem UserCopy UserAlloc UserProc.
Open Scope Z_scope.

(** ** New page tables *)

(** What happens beside the tables of [root]. *)
Record beside (root : Z) (p p' : pstate) : Prop := {
  be_ok : pt_ok root p';
  be_pv : pv_table p' = pv_table p;
  be_bytes a : untouched root p a → phys p' a = phys p a ∧ untouched root p' a;
  be_pte v : pte_of (phys p') root v = pte_of (phys p) root v;
}.
Lemma beside_refl root p : pt_ok root p → beside root p p.
Proof. by split. Qed.
Lemma beside_trans root p1 p2 p3 : beside root p1 p2 → beside root p2 p3 → beside root p1 p3.
Proof.
  intros [A1 A2 A3 A4] [B1 B2 B3 B4]. split; [done|congruence| |congruence].
  intros a [E Hu]%A3. destruct (B3 a Hu) as [E2 ?]. by rewrite E2.
Qed.

(** The kernel's top-level table is a page and not free. *)
Definition kernel_table (kroot : Z) (p : pstate) : Prop := page_addr kroot ∧ ¬ on_queue p pgfreeq kroot.

Lemma pmap_new_beside kroot root p :
  pt_ok root p → kernel_table kroot p → (1 ≤ free_pages p)%nat →
  ∃ new p', pmap_new_table kroot p = Ok (new, p') ∧ beside root p p' ∧ (free_pages p = S (free_pages p'))%nat.
Proof.
  intros Hok [Hka Hkf] Hf. destruct (free_cons p 0 Hf) as (new & rest & Hq & _).
  destruct (pagealloc_tables root p true pgpmapq new rest Hok ltac:(done) Hq)
    as (p1 & Hrun & Hok1 & _ & Hrest & _ & K1 & Hnew & He & Ht1 & _).
  assert (on_queue p pgfreeq new) as Hnf by (unfold on_queue; rewrite Hq; left).
  assert (page_addr new ∧ kroot ≠ new) as [Hna Hne] by (split; [by apply (pt_free _ _ Hok)|by intros ->]).
  destruct (copy_entries_run kroot new 257 255 p1 Hka Hna Hne) as (m' & Hrun2 & Hout & _); [lia|lia|].
  assert (∀ a, ¬ untouched root p1 a → m' a = phys p1 a) as Hsame.
  { intros a Ha. apply Hout. intros Hin. apply Ha, (Hnew a Hin). }
  destruct (tables_kept root p1 m' Hsame Hok1) as (Hok2 & Ht2 & _ & Hu2).
  exists new, (set_phys (λ _, m') p1). split; [|split; [split|]].
  - unfold pmap_new_table. rewrite (bind_step _ _ _ _ _ Hrun). by rewrite (bind_step _ _ _ _ _ Hrun2).
  - exact Hok2.
  - apply K1.
  - intros a Hu. destruct (ke_bytes _ _ _ K1 a Hu) as [E Hu1]. split; [|by apply Hu2]. simpl. rewrite Hout; [done|].
    intros Hin. destruct Hu as [Hfr _]. by apply (Hfr new).
  - intros v. simpl. unfold pte_of. rewrite Ht2, Ht1 by apply path3_ok.
    destruct (table_at (phys p) root (path3 v)) as [t|] eqn:E; [|done].
    assert (table_at (phys p1) root (path3 v) = Some t) as E1 by (by rewrite Ht1 by apply path3_ok).
    rewrite (entry_frame root p1 m' (path3 v) t (pti v) Hsame (path3_ok v) E1 (land511 _)).
    exact (He (path3 v) t (pti v) (path3_ok v) E (land511 _)).
  - unfold free_pages. simpl. by rewrite Hq, Hrest.
Qed.

Section fork.
Context {K : Type} `{!KernelHeap K} (kpml4 kmap map : Z) (m : vm_map).
Implicit Types (s : vm_state K).
Abbreviation root := (mp_pml4 m).

(** ** What happens beside a process *)

(** The process's objects, anons and mappings stay, other objects, maps and pages may
    come; what comes is new. *)
Record aside s s' : Prop := {
  as_anons : anons s' = anons s;
  as_amaps : amaps s' = amaps s;
  as_objects ent : ent ∈ entries m → objects s' !! en_obj ent = objects s !! en_obj ent;
  as_map : maps s' !! map = maps s !! map;
  as_idle : in_pagefault s' = in_pagefault s;
  as_role p r : role_of map s' p r → role_of map s p r ∨ (∀ z, ¬ heap_live (heap s) p z) ∧
    heap_live (heap s') p (role_size s' r) ∧ ∀ r', role_of map s' p r' → r' = r;
  as_live q z : heap_live (heap s) q z → heap_live (heap s') q z;
  as_pages : beside root (ps s) (ps s');
}.

Lemma aside_cell s s' va : aside s s' → cell m s' va = cell m s va.
Proof.
  intros A. unfold cell. destruct (map_entry_for_addr m va) as [ent|] eqn:E; [|done]. simpl.
  apply List.find_some in E as [Hin%list_elem_of_In _]. by rewrite (as_objects _ _ A).
Qed.
Lemma aside_slot s s' c : aside s s' → in_slot s' c = in_slot s c.
Proof. intros A. unfold in_slot. by rewrite (as_amaps _ _ A). Qed.
Lemma aside_byte s s' c i : space_ok map m s → aside s s' → 0 ≤ i < PGSIZE → cell_byte s' c i = cell_byte s c i.
Proof.
  intros Sp A Hi. unfold cell_byte. rewrite (aside_slot s s') by done. destruct (in_slot s c) as [an|]; [|done].
  cbn [mbind option_bind]. rewrite (as_anons _ _ A). destruct (anons s !! an) as [x|] eqn:Hx; [|done].
  apply (be_bytes _ _ _ (as_pages _ _ A)). apply (fr_own _ _ (co_frames _ _ _ (sp_core _ _ _ Sp)) an x Hx).
  unfold inside. lia.
Qed.

Lemma aside_space s s' : space_ok map m s → aside s s' → space_ok map m s'.
Proof.
  intros [[[L1 L2 L3 L4] [R1 R2 R3 R4] [F1 F2 F3] [O1 O2 O3 O4 O5] Hpv] Hidle Hfit] A.
  pose proof (aside_cell s s') as Hcell. pose proof (aside_slot s s') as Hslot.
  pose proof A as [Ean Eam Eob Emap Eid Hrole Hl P].
  pose proof P as [P1 P2 P3 P4].
  split; [split|congruence|].
  - split; [congruence|done| |intros v w c; rewrite !Hcell by done; apply L4].
    intros ent va Hent. rewrite Eob, Eam; [by apply (L3 ent va)|]. by apply List.find_some in Hent
      as [?%list_elem_of_In _].
  - split.
    + intros c an Hc. rewrite Hslot, Ean by done. by apply R1.
    + intros an x l Hx Hnd HF. rewrite Ean in Hx. apply (R2 an x l Hx Hnd). eapply Forall_impl; [exact HF|].
      intros c [? Hs]. by rewrite Hslot in Hs.
    + intros an x. rewrite Ean. apply R3.
    + intros an x. rewrite Ean. apply R4.
  - split; [done| |intros an1 an2 x1 x2; rewrite Ean; apply F3].
    intros an x Hx. rewrite Ean in Hx. eapply own_page_kept; [exact P3|by apply (F2 an)].
  - split.
    + intros am a. rewrite Eam. apply O1.
    + intros p r [Hp|(_ & Hp & _)]%Hrole; [|done]. apply Hl. specialize (O2 p r Hp).
      destruct r; simpl in *; [done| |done..]. by rewrite Eam.
    + intros p r1 r2 H1 H2. destruct (Hrole p r1 H1) as [K1|(_ & _ & K1)]; [|by symmetry; apply K1].
      destruct (Hrole p r2 H2) as [K2|(_ & _ & K2)]; [by eapply O3|by apply K2].
    + intros q. unfold own_pvs. rewrite P2. apply O4.
    + intros q. unfold own_pvs. rewrite P2. apply O5.
  - intros q pv Hin Hm. rewrite P2 in Hin. apply (pv_fits_same m s); [by apply P4|by apply Hpv].
  - intros va Hva. rewrite Hcell by done. specialize (Hfit va Hva). destruct (cell m s va) as [c|]; [|by rewrite P4].
    unfold pte_cell. rewrite P4, P2, Ean, Hslot by done. exact Hfit.
Qed.

(** ** Mapping an object at its address *)

(** The arena of a map with entries for [l] has room for those of [todo], and there are
    tags for [k] requests more. *)
Record arena_room (vs : vstate) (vm : Z) (l : list (Z * Z)) (todo : list vm_map_entry) (k : nat) : Prop := {
  ar_holds : arena_holds vm l vs;
  ar_tags : 128 + 2 * Z.of_nat (length todo + k) ≤ nfreesegs vs;
  ar_range : Forall (λ e, user_range (entry_range e)) todo;
  ar_unused : Forall (λ e, unused l (entry_range e)) todo;
  ar_apart : ForallOrdPairs disjoint_ext (entry_range <$> todo);
}.

Lemma arena_room_take vs (x : pstate) vm l ent todo k :
  arena_room vs vm l (ent :: todo) k → en_start ent mod 4096 = 0 → en_end ent mod 4096 = 0 →
  ∃ vs', map_xalloc kpml4 vm (en_end ent - en_start ent) (en_start ent) kVMemExact (vs, x) =
      Ok ((0, Some (en_start ent)), (vs', x)) ∧ arena_room vs' vm (entry_range ent :: l) todo k ∧
    apart_from vm vs vs'.
Proof.
  intros [H1 H2 [Hr HR]%Forall_cons [Hu HU]%Forall_cons HD] M1 M2. inversion HD as [|? ? HD1 HD2]; subst.
  cbn [length] in H2.
  destruct (map_xalloc_exact kpml4 vm (entry_range ent) l vs x H1) as (vs' & Hrun & Hh & Ht & Hap); try done; [lia| |].
  { unfold PGSIZE. simpl. Z.div_mod_to_equations. lia. }
  exists vs'. split; [exact Hrun|]. split; [|done]. split; [done|lia|done| |done]. apply Forall_forall. intros e He f.
  rewrite elem_of_cons. rewrite Forall_forall in HU. intros [->|Hf]; [|by apply HU]. apply disjoint_ext_sym.
  rewrite List.Forall_forall in HD1. by apply HD1, list_elem_of_In, list_elem_of_fmap_2.
Qed.

Lemma arena_room_perm vs vm l l' todo k : l ≡ₚ l' → arena_room vs vm l todo k → arena_room vs vm l' todo k.
Proof.
  intros HP [[H1 (a & Ha & U)] H2 H3 H4 H5]. split; [|done|done| |done].
  - split; [done|]. exists a. by rewrite <-HP.
  - eapply Forall_impl; [exact H4|]. intros e. simpl. by rewrite HP.
Qed.

Lemma vm_map_object_exact n s newmap obj o ents vm pml4 l ent todo k :
  objects s !! obj = Some o → maps s !! newmap = Some (Map ents vm pml4) →
  arena_room (arenas_of (heap s)) vm l (ent :: todo) k → en_start ent mod 4096 = 0 → en_end ent mod 4096 = 0 →
  heap_ready (S n) (heap s) →
  ∃ p h, vm_map_object kpml4 newmap obj (en_start ent) (en_end ent - en_start ent) (en_offset ent) false s =
      Ok ((0, en_start ent),
        set_map newmap (Map (ents ++ [Entry p (en_start ent) (en_end ent) (en_offset ent) obj]) vm pml4)
          (set_heap h (set_object obj (retained o) s))) ∧
    pages_of h = ps s ∧ heap_ready n h ∧ arena_room (arenas_of h) vm (entry_range ent :: l) todo k ∧
    apart_from vm (arenas_of (heap s)) (arenas_of h) ∧
    ∀ q z, heap_live (heap s) q z → heap_live h q z.
Proof.
  intros Ho Hm Har M1 M2 Hr. pose proof (ar_range _ _ _ _ _ Har) as [(R1 & R2 & R3) _]%Forall_cons. simpl in *.
  destruct (arena_room_take _ (ps s) vm l ent todo k Har M1 M2) as (vs' & Hx & Har' & Hap).
  assert (en_start ent ≠ VADDR_MAX) by (unfold USER_BASE, USER_SIZE, VADDR_MAX in *; lia).
  destruct (vm_map_object_run kpml4 n s newmap _ obj o true (en_start ent) (en_end ent - en_start ent) (en_offset ent)
    0 (Some (en_start ent)) vs' Ho Hm) as (p & h & Hrun & Hp & Hvs & Hr' & Hl); [done| |exact Hx|done|].
  { Z.div_mod_to_equations. lia. }
  simpl in Hrun. replace (en_start ent + (en_end ent - en_start ent)) with (en_end ent) in Hrun by lia.
  exists p, h. split; [exact Hrun|]. split; [done|]. split; [done|]. by rewrite Hvs.
Qed.

(** ** Copying an object *)

Record copied s (o nob : vm_object) (new : Z) s' : Prop := {
  cp_space : space_ok map m s';
  cp_fresh : objects s !! new = None;
  cp_objects : objects s' = <[new := nob]> (objects s);
  cp_nob : nob = Object 1 kVMObjAnon (ob_size o) (ob_amap nob) (ob_parent o);
  cp_amap : amaps s !! ob_amap nob = None;
  cp_amaps : ∃ a', amaps s' = <[ob_amap nob := a']> (amaps s);
  cp_bytes c i : 0 ≤ i < PGSIZE → 0 ≤ c.2 →
    cell_byte s' c i = if decide (c.1 = ob_amap nob) then cell_byte s (ob_amap o, c.2) i else cell_byte s c i;
  cp_below k : refs_below (1024 + k) s → refs_below k s';
  cp_anons an : physpage <$> anons s' !! an = physpage <$> anons s !! an;
  cp_maps : maps s' = maps s;
  cp_pv : pv_table (ps s') = pv_table (ps s);
  cp_queues : queues (ps s') = queues (ps s);
  cp_arenas : arenas_of (heap s') = arenas_of (heap s);
  cp_used q z : heap_live (heap s) q z → heap_live (heap s') q z;
}.

Lemma object_copied n s obj o a :
  space_ok map m s → objects s !! obj = Some o → ob_type o = kVMObjAnon →
  amaps s !! ob_amap o = Some a → mapped_here map s a → (1 ≤ length (chunks a) ≤ 32)%nat → refs_below 1024 s →
  heap_ready (3 + length (chunks a) + n) (heap s) →
  ∃ nob new s', vm_object_copy obj s = Ok (new, s') ∧ heap_ready n (heap s') ∧ copied s o nob new s'.
Proof.
  intros Sp Ho Ht Ha Hh Hlen Hbl Hr. pose proof (sp_core _ _ _ Sp) as C. pose proof (proj2 Hlen) as Hfew.
  destruct (vm_object_copy_run n s obj o a map m Ho Ht Ha (la_map _ _ _ (co_layout _ _ _ C))
    (fr_tables _ _ (co_frames _ _ _ C)) (space_shareable map m s _ a Sp Ha Hh Hfew Hbl) Hlen Hr)
    as (new & am & arr & cs & s4 & Hrun & Hr4 & Hsame & Hsh & Hf1 & Hf2 & Hf3 & Hdist & Hv1 & Hv2 & Hlv & Hl).
  assert (chunks a ≠ []) as Hnil by (intros E; rewrite E in Hlen; simpl in Hlen; lia).
  pose proof (sh_rest _ _ _ _ Hsh) as (h & an & E4).
  exists (Object 1 kVMObjAnon (ob_size o) am (ob_parent o)), new. eexists. split; [exact Hrun|]. split; [exact Hr4|].
  split; simpl.
  - by eapply (after_space map m s s4 (ob_amap o) new am arr).
  - by eapply copy_object_new.
  - by rewrite E4.
  - done.
  - by eapply copy_amap_new.
  - rewrite E4. by eexists.
  - intros c i Hi Hc. by eapply (after_byte map m s s4 (ob_amap o)).
  - intros k. by eapply (after_below map m s s4 (ob_amap o)).
  - intros b. rewrite (sh_anons _ _ _ _ Hsh). by destruct (anons s !! b).
  - by rewrite E4.
  - apply (sh_pages _ _ _ _ Hsh).
  - apply (sh_pages _ _ _ _ Hsh).
  - apply (sh_arenas _ _ _ _ Hsh).
  - exact Hl.
Qed.

(** ** The loop over the entries *)

(** The entry's object, as it was in [s0], can be copied. *)
Definition forkable s0 s (ent : vm_map_entry) : Prop :=
  ∃ o a, objects s0 !! en_obj ent = Some o ∧ ob_type o = kVMObjAnon ∧ amaps s0 !! ob_amap o = Some a ∧
    (1 ≤ length (chunks a) ≤ 32)%nat ∧ mapped_here map s a.
Definition entry_chunks s (ent : vm_map_entry) : nat :=
  match o ← objects s !! en_obj ent; amaps s !! ob_amap o with Some a => length (chunks a) | None => 0 end.
(** How many objects of the heap the copies of these entries take. *)
Definition fork_cost s (l : list vm_map_entry) : nat := sum_list_with (λ ent, 4 + entry_chunks s ent)%nat l.

(** The entry of the child is for the same addresses, its object a snapshot. *)
Record child_entry s0 s (ent ent' : vm_map_entry) : Prop := {
  ce_range : en_start ent' = en_start ent ∧ en_end ent' = en_end ent ∧ en_offset ent' = en_offset ent;
  ce_object : ∃ o o', objects s0 !! en_obj ent = Some o ∧ objects s !! en_obj ent' = Some o' ∧
    o' = Object 1 kVMObjAnon (ob_size o) (ob_amap o') (ob_parent o) ∧
    amaps s0 !! ob_amap o' = None ∧ is_Some (amaps s !! ob_amap o') ∧
    ∀ q i, 0 ≤ q → 0 ≤ i < PGSIZE → cell_byte s (ob_amap o', q) i = cell_byte s0 (ob_amap o, q) i;
}.

Record forking s0 s (newmap vm pml4 : Z) (done todo ents : list vm_map_entry) (n k : nat) : Prop := {
  fk_space : space_ok map m s;
  fk_map : maps s !! newmap = Some (Map ents vm pml4);
  fk_room : arena_room (arenas_of (heap s)) vm (entry_range <$> ents) todo k;
  fk_arenas : apart_from vm (arenas_of (heap s0)) (arenas_of (heap s));
  fk_ready : heap_ready (fork_cost s0 todo + n) (heap s);
  fk_free : free_pages (ps s) = free_pages (ps s0);
  fk_children : Forall2 (child_entry s0 s) done ents;
  fk_bytes c i : is_Some (amaps s0 !! c.1) → 0 ≤ c.2 → 0 ≤ i < PGSIZE → cell_byte s c i = cell_byte s0 c i;
  fk_objects p o : objects s0 !! p = Some o → objects s !! p = Some o;
  fk_amaps am a : amaps s0 !! am = Some a → amaps s !! am = Some a;
  fk_here ent : ent ∈ todo → forkable s0 s ent;
  fk_below : refs_below (1024 * Z.of_nat (length todo)) s;
}.

Lemma mapped_here_kept s s' a :
  (∀ an, physpage <$> anons s' !! an = physpage <$> anons s !! an) → pv_table (ps s') = pv_table (ps s) →
  mapped_here map s a → mapped_here map s' a.
Proof.
  intros Han Hpv Hh q an x' pv Hs Hx Hin. specialize (Han an). rewrite Hx in Han.
  destruct (anons s !! an) as [x|] eqn:E; [|done]. injection Han as Ep. rewrite Ep, Hpv in Hin.
  by apply (Hh q an x pv).
Qed.

Lemma child_entry_kept s0 s s' o nob new ent ent' :
  copied s o nob new s' → child_entry s0 s ent ent' → child_entry s0 s' ent ent'.
Proof.
  intros C [Hr (ob & ob' & H1 & H2 & H3 & H4 & [b H5] & H6)]. split; [done|]. exists ob, ob'.
  assert (ob_amap ob' ≠ ob_amap nob) as Hne by (intros E; rewrite E, (cp_amap _ _ _ _ _ C) in H5; done).
  split; [done|]. split.
  { rewrite (cp_objects _ _ _ _ _ C), lookup_insert_ne; [done|]. intros E.
    by rewrite <-E, (cp_fresh _ _ _ _ _ C) in H2. }
  split; [done|]. split; [done|]. split.
  { destruct (cp_amaps _ _ _ _ _ C) as [a' ->]. rewrite lookup_insert_ne by done. by exists b. }
  intros q i Hq Hi. rewrite (cp_bytes _ _ _ _ _ C), decide_False by done. by apply H6.
Qed.

(** The object's reference of [vm_map_object] is the one that is given back. *)
Definition child_state s5 (newmap vm pml4 p new : Z) (ents : list vm_map_entry) (ent : vm_map_entry) (h : K) :
  vm_state K :=
  Vm h (anons s5) (amaps s5) (objects s5)
    (<[newmap := Map (ents ++ [Entry p (en_start ent) (en_end ent) (en_offset ent) new]) vm pml4]> (maps s5))
    (page_anon s5) (in_pagefault s5).

Lemma copy_release_run s5 newmap vm pml4 p new nob ents ent h :
  objects s5 !! new = Some nob → ob_refcnt nob = 1 →
  vm_object_release new (set_map newmap (Map (ents ++ [Entry p (en_start ent) (en_end ent) (en_offset ent) new])
    vm pml4)
      (set_heap h (set_object new (Object (ob_refcnt nob + 1) (ob_type nob) (ob_size nob) (ob_amap nob) (ob_parent
        nob)) s5)))
    = Ok ((), child_state s5 newmap vm pml4 p new ents ent h).
Proof.
  intros Hn H1. unfold vm_object_release. erewrite bind_step by (apply get_object_ok; apply lookup_insert_eq).
  erewrite bind_step by reflexivity. simpl. rewrite H1. simpl. unfold mret, M_ret, child_state, set_object,
    set_map. simpl.
  do 3 f_equal. rewrite insert_insert_eq. apply insert_id. rewrite Hn. destruct nob. simpl in *. by subst.
Qed.

Lemma child_state_aside s5 newmap vm pml4 p new ents ent h :
  space_ok map m s5 → newmap ≠ map → is_Some (maps s5 !! newmap) → pages_of h = ps s5 → (∀ q z, heap_live (heap s5) q z → heap_live h q z) →
  aside s5 (child_state s5 newmap vm pml4 p new ents ent h).
Proof.
  intros Sp Hne Hnm Hp Hl. assert (ps (child_state s5 newmap vm pml4 p new ents ent h) = ps s5) as Ep by exact Hp.
  split; try done; simpl.
  - by rewrite lookup_insert_ne.
  - intros q [|am|page v| | |] Hr; left; unfold role_of in *; [done|done|by rewrite <-Ep|done|done|].
    simpl in Hr. by apply lookup_insert_is_Some in Hr as [<-|[_ Hr]].
  - change (beside root (ps s5) (pages_of h)). rewrite Hp. apply beside_refl, (sp_core _ _ _ Sp).
Qed.

Lemma child_entry_aside s0 s s' ent ent' :
  space_ok map m s → aside s s' → objects s' = objects s → child_entry s0 s ent ent' → child_entry s0 s' ent ent'.
Proof.
  intros Sp A Eo [Hr (ob & ob' & H1 & H2 & H3 & H4 & H5 & H6)]. split; [done|]. exists ob, ob'.
  rewrite Eo, (as_amaps _ _ A). do 5 (split; [done|]). intros q i Hq Hi. rewrite (aside_byte s s') by done.
  by apply H6.
Qed.

Section next.
Context s0 s s5 (h : K) (newmap vm pml4 p new : Z) (o nob : vm_object) (a : vm_amap).
Context (dn todo ents : list vm_map_entry) (ent : vm_map_entry) (n k : nat).
Let s' : vm_state K := child_state s5 newmap vm pml4 p new ents ent h.
Hypotheses (F : forking s0 s newmap vm pml4 dn (ent :: todo) ents n k) (C : copied s o nob new s5).
Hypotheses (Ho : objects s0 !! en_obj ent = Some o) (Ha : amaps s0 !! ob_amap o = Some a).
Hypotheses (Hp : pages_of h = ps s5) (Hl : ∀ q z, heap_live (heap s5) q z → heap_live h q z).
Hypothesis A : aside s5 s'.

Lemma next_amap am b : amaps s0 !! am = Some b → am ≠ ob_amap nob.
Proof.
  intros Hb ->. pose proof (cp_amap _ _ _ _ _ C) as Hn. by rewrite (fk_amaps _ _ _ _ _ _ _ _ _ _ F _ _ Hb) in Hn.
Qed.
Lemma next_byte c i :
  is_Some (amaps s0 !! c.1) → 0 ≤ c.2 → 0 ≤ i < PGSIZE → cell_byte s5 c i = cell_byte s0 c i.
Proof.
  intros [b Hb] Hc Hi. rewrite (cp_bytes _ _ _ _ _ C), decide_False by (done || by eapply next_amap).
  apply (fk_bytes _ _ _ _ _ _ _ _ _ _ F); [by exists b|done..].
Qed.
Lemma next_child : child_entry s0 s' ent (Entry p (en_start ent) (en_end ent) (en_offset ent) new).
Proof.
  apply (child_entry_aside s0 s5 s'); [apply C|exact A|done|]. split; [done|]. exists o, nob.
  destruct (cp_amaps _ _ _ _ _ C) as [a' Ea]. simpl.
  split; [done|]. split; [rewrite (cp_objects _ _ _ _ _ C); apply lookup_insert_eq|].
  split; [apply (cp_nob _ _ _ _ _ C)|].
  split.
  { destruct (amaps s0 !! ob_amap nob) as [b|] eqn:E; [|done]. by destruct (next_amap _ _ E). }
  split; [rewrite Ea, lookup_insert_eq; by eexists|].
  intros q i Hq Hi. rewrite (cp_bytes _ _ _ _ _ C), decide_True by done. simpl.
  apply (fk_bytes _ _ _ _ _ _ _ _ _ _ F); [by exists a|done..].
Qed.
Lemma next_here e : e ∈ todo → forkable s0 s' e.
Proof.
  intros He. destruct (fk_here _ _ _ _ _ _ _ _ _ _ F e) as (oe & ae & H1 & H2 & H3 & H4 & H5); [by right|].
  exists oe, ae. do 4 (split; [done|]). apply (mapped_here_kept s).
  - intros an. rewrite (as_anons _ _ A). apply (cp_anons _ _ _ _ _ C).
  - change (pv_table (pages_of h) = pv_table (ps s)). rewrite Hp. apply (cp_pv _ _ _ _ _ C).
  - done.
Qed.

Lemma forking_next :
  heap_ready (fork_cost s0 todo + n) h → arena_room (arenas_of h) vm (entry_range ent :: (entry_range <$> ents)) todo k →
  apart_from vm (arenas_of (heap s5)) (arenas_of h) →
  forking s0 s' newmap vm pml4 (dn ++ [ent]) todo (ents ++ [Entry p (en_start ent) (en_end ent) (en_offset ent)
    new]) n k.
Proof.
  intros Hr Hroom Hap. split; [by apply (aside_space s5), A; apply C|apply lookup_insert_eq| | |done| | | | |
    |exact next_here|].
  - eapply arena_room_perm; [|exact Hroom]. rewrite fmap_app. apply Permutation_cons_append.
  - intros w Hw. change (arenas_of (heap s')) with (arenas_of h). rewrite Hap, (cp_arenas _ _ _ _ _ C) by done.
    by apply (fk_arenas _ _ _ _ _ _ _ _ _ _ F).
  - rewrite <-(fk_free _ _ _ _ _ _ _ _ _ _ F). change (ps s') with (pages_of h). rewrite Hp. unfold free_pages.
    by rewrite (cp_queues _ _ _ _ _ C).
  - apply Forall2_app; [|constructor; [exact next_child|constructor]].
    eapply Forall2_impl; [apply (fk_children _ _ _ _ _ _ _ _ _ _ F)|]. intros e e' He.
    apply (child_entry_aside s0 s5 s'); [apply C|exact A|done|]. by eapply child_entry_kept.
  - intros c i Hc H0 Hi. rewrite (aside_byte s5 s') by (done || apply C). by apply next_byte.
  - intros q x Hx. change (objects s') with (objects s5). rewrite (cp_objects _ _ _ _ _ C), lookup_insert_ne.
    + by apply (fk_objects _ _ _ _ _ _ _ _ _ _ F).
    + intros <-. apply (fk_objects _ _ _ _ _ _ _ _ _ _ F) in Hx. by rewrite (cp_fresh _ _ _ _ _ C) in Hx.
  - intros q x Hx. change (amaps s') with (amaps s5). destruct (cp_amaps _ _ _ _ _ C) as [a' ->].
    rewrite lookup_insert_ne; [by apply (fk_amaps _ _ _ _ _ _ _ _ _ _ F)|]. intros E. by destruct (next_amap _ _ Hx).
  - intros an x Hx. change (anons s' !! an) with (anons s5 !! an) in Hx. revert an x Hx. apply (cp_below _ _ _ _ _ C).
    eapply refs_below_le; [|exact (fk_below _ _ _ _ _ _ _ _ _ _ F)]. cbn [length]. lia.
Qed.
End next.

Lemma fork_entry_step s0 s newmap vm pml4 dn ent todo ents n k :
  forking s0 s newmap vm pml4 dn (ent :: todo) ents n k → newmap ≠ map → ent ∈ entries m →
  ∃ ent' s', fork_entry kpml4 newmap ent s = Ok ((), s') ∧
    forking s0 s' newmap vm pml4 (dn ++ [ent]) todo (ents ++ [ent']) n k.
Proof.
  intros F Hne Hin. destruct (fk_here _ _ _ _ _ _ _ _ _ _ F ent) as (o & a & Ho0 & Ht & Ha0 & Hlen & Hh); [left|].
  pose proof (fk_objects _ _ _ _ _ _ _ _ _ _ F _ _ Ho0) as Ho. pose proof (fk_amaps _ _ _ _ _ _ _ _ _ _ F _ _ Ha0) as Ha.
  pose proof (fk_ready _ _ _ _ _ _ _ _ _ _ F) as Hr. pose proof (fk_space _ _ _ _ _ _ _ _ _ _ F) as Sp.
  assert (refs_below 1024 s) as Hbl
    by (eapply refs_below_le; [|exact (fk_below _ _ _ _ _ _ _ _ _ _ F)]; cbn [length]; lia).
  assert (fork_cost s0 (ent :: todo) + n = 3 + length (chunks a) + S (fork_cost s0 todo + n))%nat as Ec.
  { unfold fork_cost. simpl. unfold entry_chunks at 1. rewrite Ho0. cbn [mbind option_bind]. rewrite Ha0. lia. }
  rewrite Ec in Hr. destruct (object_copied _ s (en_obj ent) o a Sp Ho Ht Ha Hh Hlen Hbl Hr)
    as (nob & new & s5 & Hcopy & Hr5 & C).
  assert (objects s5 !! new = Some nob) as Hnew by (rewrite (cp_objects _ _ _ _ _ C); apply lookup_insert_eq).
  assert (maps s5 !! newmap = Some (Map ents vm pml4)) as Hmap by (rewrite (cp_maps _ _ _ _ _ C); apply F).
  pose proof (fk_room _ _ _ _ _ _ _ _ _ _ F) as Hroom. rewrite <-(cp_arenas _ _ _ _ _ C) in Hroom.
  destruct (la_bounds _ _ _ (co_layout _ _ _ (sp_core _ _ _ Sp)) ent Hin) as (_ & _ & M1 & M2).
  destruct (vm_map_object_exact (fork_cost s0 todo + n) s5 newmap new nob ents vm pml4 _ ent todo k Hnew
    Hmap Hroom M1 M2 Hr5) as (p & h & Hmo & Hp & Hr6 & Hroom6 & Hap6 & Hl6).
  set (s' := child_state s5 newmap vm pml4 p new ents ent h).
  pose proof (child_state_aside s5 newmap vm pml4 p new ents ent h (cp_space _ _ _ _ _ C) Hne ltac:(by eexists) Hp Hl6) as A.
  fold s' in A.
  exists (Entry p (en_start ent) (en_end ent) (en_offset ent) new), s'. split.
  { unfold fork_entry. rewrite (bind_step _ _ _ _ _ (get_object_ok _ _ _ Ho)). rewrite decide_True by done.
    rewrite (bind_step (mret ()) _ s () s) by done. rewrite (bind_step _ _ _ _ _ Hcopy), (bind_step _ _ _ _ _ Hmo).
    rewrite massert_bind. apply copy_release_run; [done|]. by rewrite (cp_nob _ _ _ _ _ C). }
  by eapply (forking_next s0 s s5 h newmap vm pml4 p new o nob a).
Qed.

Lemma fork_loop_run s0 newmap vm pml4 n k todo : ∀ s dn ents,
  forking s0 s newmap vm pml4 dn todo ents n k → newmap ≠ map → (∀ e, e ∈ todo → e ∈ entries m) →
  ∃ ents' s', mfor todo (fork_entry kpml4 newmap) s = Ok ((), s') ∧
    forking s0 s' newmap vm pml4 (dn ++ todo) [] ents' n k.
Proof.
  induction todo as [|ent todo IH]; intros s dn ents F Hne Hin.
  { exists ents, s. by rewrite app_nil_r. }
  destruct (fork_entry_step s0 s newmap vm pml4 dn ent todo ents n k F Hne) as (ent' & s1 & Hrun & F1);
    [apply Hin; left|].
  destruct (IH s1 (dn ++ [ent]) (ents ++ [ent']) F1 Hne) as (ents' & s2 & Hrun2 & F2);
    [intros e He; apply Hin; by right|].
  exists ents', s2. cbn [mfor]. rewrite (bind_step _ _ _ _ _ Hrun). split; [exact Hrun2|].
  by rewrite <-app_assoc in F2.
Qed.

(** ** The new map *)

(** The object for the map itself, larger than those Heap speaks of, can be allocated. *)
Record map_alloc (n : nat) s (newmap : Z) (h : K) : Prop := {
  ma_run : heap_alloc sizeof_vm_map (heap s) = Ok (newmap, h);
  ma_kernel : kernel_of h = kernel_of (heap s);
  ma_ready : heap_ready n h;
  ma_fresh z : ¬ heap_live (heap s) newmap z;
  ma_taken : heap_live h newmap sizeof_vm_map;
  ma_live q z : heap_live (heap s) q z → heap_live h q z;
  ma_arena : arenas (arenas_of (heap s)) !! vmem_of newmap = None;
}.

(** The kernel has tags, a page and its top-level table. *)
Record kernel_fit s (n : nat) : Prop := {
  kf_arenas : sys_ok (arenas_of (heap s));
  kf_tags : 130 + 2 * Z.of_nat n ≤ nfreesegs (arenas_of (heap s));
  kf_table : kernel_table kpml4 (ps s);
}.

Lemma pmap_new_run n s :
  pt_ok root (ps s) → kernel_table kpml4 (ps s) → (1 ≤ free_pages (ps s))%nat → heap_ready (S n) (heap s) →
  ∃ pml4 h, pmap_new kpml4 s = Ok (pml4, set_heap h s) ∧ beside root (ps s) (pages_of h) ∧
    free_pages (ps s) = S (free_pages (pages_of h)) ∧ heap_ready n h ∧ arenas_of h = arenas_of (heap s) ∧
    ∀ q z, heap_live (heap s) q z → heap_live h q z.
Proof.
  intros Hok Hk Hf Hr.
  destruct (kmem_alloc_run n sizeof_pmap s Hr) as (p & h & Ha & Hp & Hr1 & _ & _ & Hl); [unfold sizeof_pmap; lia|].
  pose proof (kmem_alloc_arenas n sizeof_pmap s p h Hr ltac:(unfold sizeof_pmap; lia) Ha) as Hv.
  destruct (pmap_new_beside kpml4 root (ps s) Hok Hk Hf) as (pml4 & p' & Hrun & B & Hfr).
  rewrite <-Hp in Hrun. change (pages_of h) with (ps (set_heap h s)) in Hrun.
  exists pml4, (with_pages p' h). split.
  { unfold pmap_new. rewrite (bind_step _ _ _ _ _ Ha). by rewrite (on_pstate_run _ _ _ _ Hrun). }
  rewrite pages_of_with, arenas_of_with. split; [done|]. split; [done|]. split; [by apply ready_with|].
  split; [done|].
  intros q z Hq. apply live_with. by apply Hl.
Qed.

(** A new map is the one new use of an object of the heap. *)
Lemma new_map_role s s1 newmap nm p r :
  space_ok map m s → (∀ z, ¬ heap_live (heap s) newmap z) → heap_live (heap s1) newmap sizeof_vm_map →
  anons s1 = anons s → amaps s1 = amaps s → objects s1 = objects s → maps s1 = <[newmap := nm]> (maps s) →
  pv_table (ps s1) = pv_table (ps s) → role_of map s1 p r →
  role_of map s p r ∨ (∀ z, ¬ heap_live (heap s) p z) ∧
    heap_live (heap s1) p (role_size s1 r) ∧ ∀ r', role_of map s1 p r' → r' = r.
Proof.
  intros Sp Hf Hlv E1 E2 E3 E4 E5. pose proof (co_roles _ _ _ (sp_core _ _ _ Sp)) as R.
  assert (∀ q r0, role_of map s1 q r0 → role_of map s q r0 ∨ (q, r0) = (newmap, RMap)) as Hr.
  { intros q [|am|page v| | |]; unfold role_of; rewrite ?E1, ?E2, ?E3, ?E5; [by left..|].
    rewrite E4, lookup_insert_is_Some. intros [<-|[_ H]]; auto. }
  intros [Hp|[= -> ->]]%Hr; [by left|]. right. split; [done|]. split; [done|]. intros r' [Ho|[= ->]]%Hr; [|done].
  destruct (Hf (role_size s r')). by apply (ro_live _ _ R).
Qed.

Lemma vm_map_new_run n k s newmap h0 :
  space_ok map m s → map_alloc (S n) s newmap h0 → kernel_fit s k →
  (1 ≤ free_pages (ps s))%nat →
  ∃ pml4 s1, vm_map_new kpml4 s = Ok (newmap, s1) ∧ newmap ≠ map ∧ aside s s1 ∧ objects s1 = objects s ∧
    maps s1 !! newmap = Some (Map [] (vmem_of newmap) pml4) ∧ heap_ready n (heap s1) ∧
    free_pages (ps s) = S (free_pages (ps s1)) ∧
    arena_holds (vmem_of newmap) [] (arenas_of (heap s1)) ∧ 128 + 2 * Z.of_nat k ≤ nfreesegs (arenas_of (heap s1)) ∧
    apart_from (vmem_of newmap) (arenas_of (heap s)) (arenas_of (heap s1)).
Proof.
  intros Sp [A1 A2 A3 A4 Alv A5 A6] [K1 K2 K3] Hf.
  pose proof (co_roles _ _ _ (sp_core _ _ _ Sp)) as R. pose proof (la_map _ _ _ (co_layout _ _ _ (sp_core _ _ _ Sp))) as Hm.
  assert (newmap ≠ map) as Hne.
  { intros ->. apply (A4 sizeof_vm_map), (ro_live _ _ R map RMap). by exists m. }
  assert (ps (set_heap h0 s) = ps s) as Eps by (unfold ps, pages_of; simpl; by rewrite A2).
  assert (arenas_of h0 = arenas_of (heap s)) as Ev by (unfold arenas_of; by rewrite A2).
  destruct (pmap_new_run n (set_heap h0 s)) as (pml4 & h & Hrun & B & Hfr & Hr & Hvs & Hl);
    [rewrite Eps; apply (sp_core _ _ _ Sp)|by rewrite Eps|by rewrite Eps|exact A3|]. rewrite Eps in B, Hfr.
    change (heap (set_heap h0 s)) with h0 in Hvs, Hl.
  set (s2 := set_map newmap (Map [] (vmem_of newmap) pml4) (set_heap h (set_heap h0 s))).
  destruct (user_arena_run newmap (arenas_of h) (pages_of h) k) as (vs' & Hini & Hroom & Htags & Hap); [by rewrite Hvs, Ev..|].
  assert (kernel_of (heap s2) = (arenas_of h, pages_of h)) as Hk by apply surjective_pairing. rewrite <-Hk in Hini.
  set (s1 := set_heap (with_kernel (vs', pages_of h) (heap s2)) s2).
  assert (pages_of (heap s1) = pages_of h ∧ arenas_of (heap s1) = vs') as [Ep1 Ev1]
    by (unfold pages_of, arenas_of; simpl; by rewrite kernel_of_with).
  exists pml4, s1. split; [|split; [done|split; [|split; [done|split; [apply lookup_insert_eq|split; [|split]]]]]].
  - unfold vm_map_new. rewrite (bind_step _ _ s newmap (set_heap h0 s)) by (unfold kmem_alloc, on_heap;
      by rewrite A1).
    rewrite (bind_step _ _ _ _ _ Hrun). rewrite (bind_step (mmodify _) _ _ () s2) by done.
    by rewrite (bind_step _ _ _ _ _ (on_kernel_run _ s2 _ _ Hini)).
  - split; try done; simpl.
    + by rewrite lookup_insert_ne.
    + intros q r. apply (new_map_role s s1 newmap (Map [] (vmem_of newmap) pml4)); try done.
      * apply heap_live_with. by apply Hl.
      * change (pv_table (pages_of (heap s1)) = pv_table (ps s)). rewrite Ep1. apply B.
    + intros q y Hq. apply heap_live_with. by apply Hl, A5.
    + change (beside root (ps s) (pages_of (heap s1))). by rewrite Ep1.
  - apply heap_ready_with. exact Hr.
  - change (ps s1) with (pages_of (heap s1)). by rewrite Ep1.
  - rewrite Ev1. split; [done|]. split; [done|]. by rewrite <-Ev, <-Hvs.
Qed.

(** ** What the child sees *)

Lemma child_found s0 s (l ents : list vm_map_entry) va :
  Forall2 (child_entry s0 s) l ents →
  let find := List.find (λ e, (en_start e <=? va) && (va <? en_end e)) in
  match find l, find ents with
  | Some ent, Some ent' => child_entry s0 s ent ent'
  | None, None => True
  | _, _ => False
  end.
Proof.
  intros H find. induction H as [|ent ent' l ents H _ IH]; [done|]. simpl.
  destruct (ce_range _ _ _ _ H) as (-> & -> & _). by destruct (_ && _).
Qed.

(** An address leads to the copy of the page it led to. *)
Lemma child_cell s0 s ents vm pml4 va :
  space_ok map m s0 → Forall2 (child_entry s0 s) (entries m) ents →
  match cell m s0 va, cell (Map ents vm pml4) s va with
  | Some c, Some c' => c'.2 = c.2 ∧ 0 ≤ c.2 ∧ amaps s0 !! c'.1 = None ∧
      ∀ i, 0 ≤ i < PGSIZE → cell_byte s c' i = cell_byte s0 c i
  | None, None => True
  | _, _ => False
  end.
Proof.
  intros Sp HF. pose proof (child_found s0 s _ _ va HF) as Hf. cbv zeta in Hf. unfold cell, map_entry_for_addr.
  cbn [entries]. destruct (List.find _ (entries m)) as [ent|] eqn:E, (List.find _ ents) as [ent'|]; try done.
  destruct Hf as [(R1 & R2 & R3) (o & o' & H1 & H2 & H3 & H4 & H5 & H6)].
  destruct (la_object _ _ _ (co_layout _ _ _ (sp_core _ _ _ Sp)) ent va E) as (_ & _ & _ & _ & _ & Hi).
  cbn [mbind option_bind]. rewrite H1, H2. simpl. unfold page_index in *. rewrite R1, R3.
  split; [done|]. split; [lia|]. split; [done|]. intros i Hib. apply H6; lia.
Qed.
Lemma child_byte s0 s ents vm pml4 va :
  space_ok map m s0 → Forall2 (child_entry s0 s) (entries m) ents → byte (Map ents vm pml4) s va = byte m s0 va.
Proof.
  intros Sp HF. pose proof (child_cell s0 s ents vm pml4 va Sp HF) as Hc. unfold byte.
  destruct (cell m s0 va) as [c|], (cell (Map ents vm pml4) s va) as [c'|]; try done.
  apply Hc, pgi_bounds.
Qed.

Lemma cell_amap s va c : space_ok map m s → cell m s va = Some c → is_Some (amaps s !! c.1).
Proof.
  intros Sp Hc. unfold cell in Hc. destruct (map_entry_for_addr m va) as [ent|] eqn:E; [|done]. simpl in Hc.
  destruct (la_object _ _ _ (co_layout _ _ _ (sp_core _ _ _ Sp)) ent va E) as (o & Ho & _ & _ & Ha & _).
  rewrite Ho in Hc. by injection Hc as <-.
Qed.
Lemma forking_cell s0 s newmap vm pml4 dn todo ents n k va :
  space_ok map m s0 → forking s0 s newmap vm pml4 dn todo ents n k → cell m s va = cell m s0 va.
Proof.
  intros Sp F. unfold cell. destruct (map_entry_for_addr m va) as [ent|] eqn:E; [|done]. simpl.
  destruct (la_object _ _ _ (co_layout _ _ _ (sp_core _ _ _ Sp)) ent va E) as (o & Ho & _).
  by rewrite Ho, (fk_objects _ _ _ _ _ _ _ _ _ _ F _ _ Ho).
Qed.

(** The whole of [vm_map_fork]. *)
Lemma vm_map_fork_run n k s newmap h0 :
  process map m s → map ≠ kmap → Forall (forkable s s) (entries m) →
  refs_below (1024 * Z.of_nat (length (entries m))) s →
  map_alloc (S (fork_cost s (entries m) + n)) s newmap h0 → kernel_fit s (length (entries m) + k) →
  (1 ≤ free_pages (ps s))%nat →
  ∃ s0 s1 pml4 ents, vm_map_fork kpml4 kmap map s = Ok (newmap, s1) ∧ newmap ≠ map ∧ aside s s0 ∧ space_ok map m s0 ∧
    forking s0 s1 newmap (vmem_of newmap) pml4 (entries m) [] ents n k ∧ free_pages (ps s) = S (free_pages (ps s0)) ∧
    apart_from (vmem_of newmap) (arenas_of (heap s)) (arenas_of (heap s1)).
Proof.
  intros [Sp Har] Hk HF Hbl Hma Hkf Hf. pose proof (la_map _ _ _ (co_layout _ _ _ (sp_core _ _ _ Sp))) as Hm.
  destruct (arena_ranges _ _ _ Har) as [HR HD].
  destruct (vm_map_new_run _ (length (entries m) + k) s newmap h0 Sp Hma Hkf Hf)
    as (pml4 & s0 & Hnew & Hne & A & Eo & Hmap & Hr & Hfr & Hroom & Htags & Hap).
  pose proof (aside_space _ _ Sp A) as Sp0. pose proof (as_amaps _ _ A) as Ea.
  assert (∀ e, entry_chunks s0 e = entry_chunks s e) as Ec by (intros e; unfold entry_chunks; by rewrite Eo, Ea).
  assert (forking s0 s0 newmap (vmem_of newmap) pml4 [] (entries m) [] n k) as F0.
  { split; try done.
    - split; [done|done|by rewrite Forall_fmap in HR|by apply Forall_true; intros e f []%elem_of_nil|done].
    - replace (fork_cost s0 (entries m)) with (fork_cost s (entries m)); [done|]. unfold fork_cost.
      clear -Ec. induction (entries m) as [|e l IH]; [done|]. cbn [sum_list_with]. by rewrite IH, Ec.
    - intros e He. rewrite Forall_forall in HF. destruct (HF e He) as (o & a & H1 & H2 & H3 & H4 & H5).
      exists o, a. rewrite Eo, Ea. do 4 (split; [done|]). apply (mapped_here_kept s); [intros an;
        by rewrite (as_anons _ _ A)| |done].
      apply (as_pages _ _ A).
    - intros an x. rewrite (as_anons _ _ A). apply Hbl. }
  destruct (fork_loop_run s0 newmap (vmem_of newmap) pml4 n k (entries m) s0 [] [] F0 Hne ltac:(done))
    as (ents & s1 & Hrun & F1).
  exists s0, s1, pml4, ents. split.
  2: { do 5 (split; [done|]). intros w Hw. rewrite (fk_arenas _ _ _ _ _ _ _ _ _ _ F1) by done. by apply Hap. }
  unfold vm_map_fork. rewrite (bind_step _ _ _ _ _ Hnew).
  rewrite (proj2 (Z.eqb_neq _ _)) by done.
  rewrite (bind_step _ _ _ _ _ (get_map_ok s0 map m ltac:(by rewrite (as_map _ _ A)))).
  by rewrite (bind_step _ _ _ _ _ Hrun).
Qed.

(** The child's pages are not the parent's. *)
Lemma child_entry_others s0 s m2 s2 ent ent' :
  space_ok map m s0 → (∀ va, cell m s va = cell m s0 va) → others map m s m2 s2 →
  child_entry s0 s ent ent' → child_entry s0 s2 ent ent'.
Proof.
  intros Sp Ec [O1 _ O3 _ O5] [Hr (o & o' & H1 & H2 & H3 & H4 & H5 & H6)]. split; [done|]. exists o, o'.
  split; [done|]. split; [by apply O1|]. do 2 (split; [done|]). split; [by apply O3|]. intros q i Hq Hi.
  rewrite O5; [by apply H6|done..|]. intros va. rewrite Ec. intros [b Hb]%cell_amap; [|done]. simpl in Hb. congruence.
Qed.

(** C5: [vm_map_fork] makes a snapshot of a process's memory, if every object in its map
    has been touched (its array of chunks is not empty, and has 32 chunks at most), no
    other address space maps its pages ([forkable]), and the 24-bit reference counts
    have room for the copies ([refs_below]).  An untouched object stops the kernel
    ([vm_object_copy_untouched]); a fork after a child has mapped a page that it shares
    with the process is not covered.  The fork returns a map with an
    entry for every entry of the process's map, at the same addresses, which its arena
    has allocated; every byte of the new map is what it was in the process's; and
    whatever the process then does, loads, stores and [vm_allocate], it gets what it would get on
    its memory as it was, and the new map goes on holding the bytes from before the fork. *)
Theorem vm_map_fork_snapshot s prog n newmap h0 :
  process map m s → map ≠ kmap → Forall (forkable s s) (entries m) →
  refs_below (1024 * Z.of_nat (length (entries m))) s → (∀ l, request_ok (prog l)) →
  map_alloc (S (fork_cost s (entries m) + 4 * n)) s newmap h0 → kernel_fit s (length (entries m) + n) →
  (1 + 4 * n ≤ free_pages (ps s))%nat →
  ∃ m' s1 r, vm_map_fork kpml4 kmap map s = Ok (newmap, s1) ∧ maps s1 !! newmap = Some m' ∧
    Forall2 (λ e e', en_start e' = en_start e ∧ en_end e' = en_end e ∧
      en_offset e' = en_offset e) (entries m) (entries m') ∧
    arena_fits m' (arenas_of (heap s1)) ∧ (∀ va, byte m' s1 va = byte m s va) ∧
    flat_trace prog n [] (Flat (entry_range <$> entries m) (byte m s)) r ∧
    match r with
    | Some (l, f) => ∃ m2 s2, user_run kpml4 kmap map prog n [] s1 = Ok (l, s2) ∧ process map m2 s2 ∧ sees m2 s2 f ∧
        maps s2 !! newmap = Some m' ∧ ∀ va, byte m' s2 va = byte m s va
    | None => user_run kpml4 kmap map prog n [] s1 = Fatal "unhandled page fault"
    end.
Proof.
  intros P Hk HF Hbl Hok Hma Hkf Hfree. pose proof P as [Sp [_ (a & Ha & U)]].
  destruct (vm_map_fork_run (4 * n) n s newmap h0 P Hk HF Hbl Hma Hkf ltac:(lia))
    as (s0 & s1 & pml4 & ents & Hrun & Hne & A & Sp0 & F & Hfr & Hap). set (m' := Map ents (vmem_of newmap) pml4).
  pose proof (fk_children _ _ _ _ _ _ _ _ _ _ F) as Hch. pose proof (co_layout _ _ _ (sp_core _ _ _ Sp0)) as L0.
  destruct (fk_room _ _ _ _ _ _ _ _ _ _ F) as [Hh Ht _ _ _].
  assert (∀ va, byte m s0 va = byte m s va) as E0.
  { intros va. unfold byte. rewrite (aside_cell s s0) by done. destruct (cell m s va); [|done].
    by apply (aside_byte s s0), pgi_bounds. }
  assert (∀ va, cell m s1 va = cell m s0 va) as Ec by (intros va; by eapply forking_cell).
  assert (∀ va, byte m s1 va = byte m s va) as E1.
  { intros va. rewrite <-E0. unfold byte. rewrite Ec. destruct (cell m s0 va) as [c|] eqn:Hc; [|done].
    apply (fk_bytes _ _ _ _ _ _ _ _ _ _ F); [by eapply cell_amap|by apply (cell_bounds map m s0 va c L0)|apply
      pgi_bounds]. }
  assert (process map m s1) as P1.
  { split; [apply F|]. split; [apply Hh|]. exists a. split; [|done]. rewrite Hap; [done|]. intros E.
    by rewrite E, (ma_arena _ _ _ _ Hma) in Ha. }
  destruct (user_run_flat_others kpml4 kmap map prog n m s1 (Flat (entry_range <$> entries m) (byte m s)) [] P1)
    as (r & Htr & Hr); [|by split|done|].
  { split; [apply F|rewrite (fk_free _ _ _ _ _ _ _ _ _ _ F); lia|simpl in Ht; lia]. }
  exists m', s1, r. split; [done|]. split; [apply F|]. split.
  { eapply Forall2_impl; [exact Hch|]. intros e e' He. apply He. }
  split; [exact Hh|]. split; [intros va; rewrite <-E0; by apply child_byte|]. split; [done|].
  destruct r as [[l f]|]; [|done]. destruct Hr as (m2 & s2 & Hgo & [P2 S2 _ O]). exists m2, s2.
  do 3 (split; [done|]). split; [rewrite (ot_maps _ _ _ _ _ O) by done; apply F|].
  intros va. rewrite <-E0. apply child_byte; [done|]. eapply Forall2_impl; [exact Hch|]. intros e e'.
  by eapply child_entry_others.
Qed.
End fork.

(** ** A process with a shared page that forks *)

(** The arena of its map. *)
Definition fork_arenas : vstate :=
  match (vmem_init (vmem_of 9) "task map" USER_BASE USER_SIZE PGSIZE 0 0 0 0;;
         map_xalloc 1048576 (vmem_of 9) 0x2000 0x1000 kVMemExact) (VState ∅ (seqZ 1000 140) 140, demo_pmap) with
  | Ok (_, (vs, _)) => vs
  | _ => VState ∅ [] 0
  end.
Definition fork_vm : vm_state counter_heap :=
  set_heap (CounterHeap 100 [(70, 56); (61, 16); (62, 16); (60, 88); (63, 88); (9, 848)] (fork_arenas, demo_pmap)) cow_vm.

Lemma fork_arenas_ok : arena_fits demo_map fork_arenas ∧ 134 ≤ nfreesegs fork_arenas ∧ arenas fork_arenas !! vmem_of 100 = None.
Proof.
  destruct (user_arena_run 9 (VState ∅ (seqZ 1000 140) 140) demo_pmap 4) as (vs & Hrun & Hh & Ht & Hap); [|simpl; lia|done|].
  { split; simpl; try done. apply NoDup_seqZ. }
  destruct (map_xalloc_exact 1048576 (vmem_of 9) (0x1000, 0x2000) [] vs demo_pmap Hh) as (vs2 & Hrun2 & Hh2 & Ht2 & Hap2);
    [lia|by unfold user_range|by intros e []%elem_of_nil|done|done|].
  unfold fork_arenas. rewrite (bind_step _ _ _ _ _ Hrun). cbn [fst snd] in Hrun2. rewrite Hrun2.
  split; [exact Hh2|]. split; [lia|]. by rewrite Hap2, Hap.
Qed.
Lemma fork_vm_space : space_ok 9 demo_map fork_vm.
Proof.
  apply (aside_space 9 demo_map cow_vm); [exact cow_space_ok|]. split; try done; [by left|].
  apply beside_refl, demo_pmap_ok.
Qed.
Lemma fork_vm_table : kernel_table 1048576 (ps fork_vm).
Proof. destruct (pt_table _ _ demo_pmap_ok [] 1048576); [split; [constructor|simpl; lia]|done|done]. Qed.

(** The child does not see what the parent writes. *)
Lemma vm_map_fork_snapshot_witness :
  ∃ m' s1 s2, vm_map_fork 1048576 8 9 fork_vm = Ok (100, s1) ∧ maps s1 !! 100 = Some m' ∧
    user_run 1048576 8 9 (λ _, Access (Store 0x1234 7)) 1 [] s1 = Ok ([Stored], s2) ∧
    byte m' s2 0x1234 = byte demo_map fork_vm 0x1234.
Proof.
  destruct fork_arenas_ok as (H1 & H2 & H3).
  destruct (vm_map_fork_snapshot 1048576 8 9 demo_map fork_vm (λ _, Access (Store 0x1234 7)) 1 100
    (CounterHeap 101 ((100, 848) :: ch_live (heap fork_vm)) (ch_kernel (heap fork_vm))))
    as (m' & s1 & r & G1 & G2 & _ & _ & _ & Htr & Hr).
  - split; [exact fork_vm_space|exact H1].
  - done.
  - apply Forall_singleton. exists demo_object, (Amap 0 shared_chunk). do 3 (split; [reflexivity|]).
    split; [simpl; lia|]. by intros q an x pv _ _ Hpv%elem_of_nil.
  - intros an x Hx. by apply cow_anon in Hx as [_ ->].
  - intros l. simpl. lia.
  - split; try reflexivity.
    + intros x Hx. simpl in Hx. rewrite !elem_of_cons, elem_of_nil in Hx. simpl. naive_solver lia.
    + intros y Hy. simpl in Hy. rewrite !elem_of_cons, elem_of_nil in Hy. naive_solver.
    + left.
    + intros q y Hq. simpl in *. by right.
  - split; [apply H1|exact H2|exact fork_vm_table].
  - by apply Nat.leb_le.
  - inversion Htr as [|? ? ? a f' ? Hst Htr2|? ? ? x Hx Hno]; subst.
    + inversion Hst; subst. inversion Htr2; subst. destruct Hr as (m2 & s2 & Hrun & _ & _ & _ & Hb).
      exists m', s1, s2. split; [exact G1|]. split; [exact G2|]. split; [exact Hrun|apply Hb].
    + injection Hx as <-. destruct Hno. exists (0x1000, 0x2000). split; [left|done].
Defined.
