(* ===== verification/Callout.v ===== *)
(** * Callouts and the per-CPU timer: kern/task.c, x86_64/intr.c

    A CPU's pending callouts wait on one queue, each with the time to its
    predecessor.  The model is of one CPU: its queue, the callouts by address,
    and of the local APIC timer the ticks per second and the current count,
    which writing the initial count loads.  Interrupts are off in all of it. *)

From S2P Require Import Prelude.
Open Scope Z_scope.

Definition NS_PER_S : Z := 1000000000.

Inductive callout_state := kCalloutDisabled | kCalloutPending.
#[export] Instance callout_state_eq_dec : EqDecision callout_state.
Proof. solve_decision. Defined.

(** [callout_t]; the callback is the address of a function. *)
Record callout := Callout {
  co_callback : Z;
  co_arg : Z;
  nanosecs : Z;
  co_state : callout_state;
}.

Record cpu_timer := CpuTimer {
  pendingcallouts : list Z;
  callouts : gmap Z callout;
  lapic_tps : Z;
  timer_count : Z;
}.

Definition set_nanosecs (n : Z) (c : callout) : callout := Callout (co_callback c) (co_arg c) n (co_state c).
Definition set_state (st : callout_state) (c : callout) : callout :=
  Callout (co_callback c) (co_arg c) (nanosecs c) st.

Definition get_callout (c : Z) : M cpu_timer callout := λ s, deref (callouts s !! c) "callout" s.
Definition alter_callout (c : Z) (f : callout → callout) : M cpu_timer unit :=
  mmodify (λ s, CpuTimer (pendingcallouts s) (alter f c (callouts s)) (lapic_tps s) (timer_count s)).
Definition set_pending (f : list Z → list Z) : M cpu_timer unit :=
  mmodify (λ s, CpuTimer (f (pendingcallouts s)) (callouts s) (lapic_tps s) (timer_count s)).

(** ** The timer *)

Definition md_timer_set (nanos : Z) : M cpu_timer unit :=
  s ← mget;
  let ticks := w64 (lapic_tps s * nanos) / NS_PER_S in
  massert (ticks <? 2^32 - 1) "assert(ticks < UINT32_MAX)";;
  mput (CpuTimer (pendingcallouts s) (callouts s) (lapic_tps s) (w32 ticks)).

Definition md_timer_get_remaining : M cpu_timer Z :=
  s ← mget;
  let d := w64 (lapic_tps s * NS_PER_S) in
  if d =? 0 then undef "division by zero" else mret (timer_count s / d).

(** ** The queue *)

(** The loop of [callout_enqueue], at [co]; the result is the callout to insert
    after and what is left of the time.  The queue bounds the loop. *)
Fixpoint enqueue_walk (fuel : nat) (co rest : Z) : M cpu_timer (Z * Z) :=
  match fuel with
  | O => undef "queue longer than itself"
  | S fuel' =>
      c ← get_callout co;
      if nanosecs c <? rest then
        let rest := rest - nanosecs c in
        s ← mget;
        match tq_next (λ x, x) co (pendingcallouts s) with
        | None => mret (co, rest)
        | Some next => enqueue_walk fuel' next rest
        end
      else mret (co, rest)
  end.

(** [callout_enqueue] from the point where the time left is known. *)
Definition callout_insert (callout co remains : Z) : M cpu_timer unit :=
  alter_callout co (λ c, set_nanosecs (Z.min remains (nanosecs c)) c);;
  c ← get_callout co;
  massert (0 <? nanosecs c) "assert(co->nanosecs > 0)";;
  new ← get_callout callout;
  if nanosecs new <? nanosecs c then
    alter_callout co (set_nanosecs (nanosecs c - nanosecs new));;
    set_pending (λ q, callout :: q);;
    md_timer_set (nanosecs new)
  else
    s ← mget;
    '(after, rest) ← enqueue_walk (length (pendingcallouts s)) co (nanosecs new);
    alter_callout callout (set_nanosecs rest);;
    set_pending (tq_insert_after (λ x, x) after callout).

Definition callout_enqueue (callout : Z) : M cpu_timer unit :=
  new ← get_callout callout;
  massert (0 <? nanosecs new) "assert(callout->nanosecs > 0)";;
  s ← mget;
  (match pendingcallouts s with
   | [] =>
       set_pending (λ q, callout :: q);;
       md_timer_set (nanosecs new)
   | co :: _ =>
       remains ← md_timer_get_remaining;
       callout_insert callout co remains
   end);;
  alter_callout callout (set_state kCalloutPending).

Definition callout_dequeue (callout : Z) : M cpu_timer unit :=
  c ← get_callout callout;
  massert (bool_decide (co_state c = kCalloutPending)) "assert(callout->state == kCalloutPending)";;
  s ← mget;
  match pendingcallouts s with
  | [] => set_pending (tq_remove (λ x, x) callout)
  | co :: _ =>
      if negb (co =? callout) then set_pending (tq_remove (λ x, x) callout)
      else
        remains ← md_timer_get_remaining;
        set_pending (tq_remove (λ x, x) callout);;
        alter_callout callout (set_state kCalloutDisabled);;
        s ← mget;
        match pendingcallouts s with
        | co :: _ =>
            alter_callout co (λ c, set_nanosecs (w64 (nanosecs c + Z.min remains (nanosecs c))) c);;
            c ← get_callout co;
            md_timer_set (nanosecs c)
        | [] => md_timer_set 0
        end
  end.

(** The timer interrupt; [callback] stands for the functions the callouts name. *)
Definition callout_interrupt (callback : Z → Z → M cpu_timer unit) : M cpu_timer unit :=
  s ← mget;
  match pendingcallouts s with
  | [] => mret ()
  | co :: _ =>
      set_pending (tq_remove (λ x, x) co);;
      alter_callout co (set_state kCalloutDisabled);;
      c ← get_callout co;
      callback (co_callback c) (co_arg c);;
      s ← mget;
      match pendingcallouts s with
      | co :: _ => c ← get_callout co; md_timer_set (nanosecs c)
      | [] => mret ()
      end
  end.

(** ** Expiry times *)

(** The queue as pairs of callout and time to its predecessor; with the times
    from now on, each callout's time of expiry. *)
Definition queue_view (s : cpu_timer) : list (Z * Z) :=
  (λ c, (c, default 0 (nanosecs <$> callouts s !! c))) <$> pendingcallouts s.
Fixpoint times (now : Z) (q : list (Z * Z)) : list (Z * Z) :=
  match q with
  | [] => []
  | (c, d) :: q' => (c, now + d) :: times (now + d) q'
  end.
Definition total (q : list (Z * Z)) : Z := foldr (λ p n, p.2 + n) 0 q.
Definition sooner (d : Z) (q : list (Z * Z)) : list (Z * Z) := prod_map id (λ t, t - d) <$> q.

Lemma total_cons c d q : total ((c, d) :: q) = d + total q.
Proof. done. Qed.

Lemma total_app q1 q2 : total (q1 ++ q2) = total q1 + total q2.
Proof. induction q1 as [|[c d] q1 IH]; simpl; [done|]. rewrite IH. lia. Qed.

Lemma times_app now q1 q2 : times now (q1 ++ q2) = times now q1 ++ times (now + total q1) q2.
Proof.
  revert now. induction q1 as [|[c d] q1 IH]; intros now; simpl; [by rewrite Z.add_0_r|].
  rewrite IH. do 3 f_equal. lia.
Qed.

Lemma times_shift now d q : times (now - d) q = sooner d (times now q).
Proof.
  unfold sooner. revert now. induction q as [|[c e] q IH]; intros now; simpl; [done|].
  rewrite <-IH. unfold prod_map. simpl. repeat f_equal; lia.
Qed.

Lemma times_le now q c t :
  Forall (λ p, 0 ≤ p.2) q → (c, t) ∈ times now q → now ≤ t ≤ now + total q.
Proof.
  revert now. induction q as [|[c' d] q IH]; intros now; simpl.
  - by intros _ ?%elem_of_nil.
  - rewrite Forall_cons. simpl. intros [Hd Hq] [[= -> ->]|Hin]%elem_of_cons.
    + split; [lia|]. clear IH. induction Hq as [|[? ?] ? ?]; simpl in *; lia.
    + specialize (IH _ Hq Hin). lia.
Qed.

(** The queue holds known callouts, none twice. *)
Record timer_ok (s : cpu_timer) : Prop := {
  to_nodup : NoDup (pendingcallouts s);
  to_known : ∀ c, c ∈ pendingcallouts s → is_Some (callouts s !! c);
  to_nonneg : Forall (λ p, 0 ≤ p.2) (queue_view s);
}.

Lemma get_callout_ok s c x : callouts s !! c = Some x → get_callout c s = Ok (x, s).
Proof. intros E. unfold get_callout. by rewrite E. Qed.

Lemma view_elem s l1 c d l2 :
  queue_view s = l1 ++ (c, d) :: l2 →
  pendingcallouts s = (fst <$> l1) ++ c :: (fst <$> l2) ∧
  d = default 0 (nanosecs <$> callouts s !! c).
Proof.
  intros E. assert (pendingcallouts s = fst <$> queue_view s) as Hp.
  { unfold queue_view. rewrite <-list_fmap_compose. symmetry. apply list_fmap_id. }
  split; [by rewrite Hp, E, fmap_app|].
  assert ((c, d) ∈ queue_view s) as (c' & [= -> ->] & _)%list_elem_of_fmap;
    [rewrite E; apply elem_of_app; right; left|done].
Qed.

Lemma view_get s l1 c d l2 :
  timer_ok s → queue_view s = l1 ++ (c, d) :: l2 →
  ∃ x, callouts s !! c = Some x ∧ nanosecs x = d.
Proof.
  intros Hok E. destruct (view_elem _ _ _ _ _ E) as [Hp Hd].
  destruct (to_known _ Hok c) as [x Hx]; [rewrite Hp; apply elem_of_app; right; left|].
  exists x. rewrite Hx in Hd. done.
Qed.

Lemma view_nodup s l1 c d l2 :
  timer_ok s → queue_view s = l1 ++ (c, d) :: l2 → (c ∉ fst <$> l1) ∧ (c ∉ fst <$> l2).
Proof.
  intros Hok E. destruct (view_elem _ _ _ _ _ E) as [Hp _]. pose proof (to_nodup _ Hok) as ND.
  rewrite Hp in ND. apply NoDup_app in ND as (_ & H1 & [H2 _]%NoDup_cons).
  split; [|done]. intros Hin. apply (H1 c Hin). left.
Qed.

(** Where the walk stops: after the last callout, all being sooner, or at the first
    that is not sooner. *)
Lemma walk_run s fuel l1 c d l2 rest :
  timer_ok s → queue_view s = l1 ++ (c, d) :: l2 → (length l2 < fuel)%nat → 0 < rest →
  ∃ m1 a da m2 rest', enqueue_walk fuel c rest s = Ok ((a, rest'), s) ∧
    (c, d) :: l2 = m1 ++ (a, da) :: m2 ∧ 0 < rest' ∧
    ((m2 = [] ∧ rest' = rest - total ((c, d) :: l2)) ∨ (rest' = rest - total m1 ∧ rest' ≤ da)).
Proof.
  revert l1 c d l2 rest. induction fuel as [|fuel IH]; intros l1 c d l2 rest Hok E Hf Hr; [lia|].
  destruct (view_get _ _ _ _ _ Hok E) as (x & Hx & Hd). simpl.
  rewrite (bind_step _ _ _ _ _ (get_callout_ok _ _ _ Hx)), Hd.
  destruct (Z.ltb_spec d rest).
  - rewrite (bind_step _ _ s s s) by done.
    destruct (view_elem _ _ _ _ _ E) as [Hp _]. destruct (view_nodup _ _ _ _ _ Hok E) as [Hn _].
    rewrite Hp, tq_next_at by (done || by rewrite list_fmap_id).
    destruct l2 as [|[c2 d2] l2]; simpl.
    + exists [], c, d, [], (rest - d). split_and!; try done; [lia|]. left. split; [done|lia].
    + destruct (IH (l1 ++ [(c, d)]) c2 d2 l2 (rest - d) Hok) as (m1 & a & da & m2 & rest' & Hrun & Em & Hr' & Hcase).
      { by rewrite E, <-app_assoc. } { simpl in Hf. lia. } { lia. }
      exists ((c, d) :: m1), a, da, m2, rest'. rewrite Hrun, Em. split_and!; try done.
      rewrite !total_cons in *. destruct Hcase as [[? ?]|[? ?]]; [left|right]; split; done || lia.
  - exists [], c, d, l2, rest. split_and!; try done. right. simpl. split; lia.
Qed.

Lemma view_alter s c f (q : list Z) :
  (c ∉ q) →
  (λ x, (x, default 0 (nanosecs <$> alter f c (callouts s) !! x))) <$> q =
  (λ x, (x, default 0 (nanosecs <$> callouts s !! x))) <$> q.
Proof.
  intros Hc. apply list_fmap_ext. intros i x Hx. apply list_elem_of_lookup_2 in Hx.
  rewrite lookup_alter_ne; [done|]. by intros ->.
Qed.

Lemma alter_callout_ok c f s :
  alter_callout c f s = Ok ((), CpuTimer (pendingcallouts s) (alter f c (callouts s)) (lapic_tps s) (timer_count s)).
Proof. done. Qed.

Lemma timer_set_ok nanos s :
  0 ≤ nanos → 0 ≤ lapic_tps s → lapic_tps s * nanos < 2^64 →
  lapic_tps s * nanos / NS_PER_S < 2^32 - 1 →
  md_timer_set nanos s = Ok ((), CpuTimer (pendingcallouts s) (callouts s) (lapic_tps s)
    (lapic_tps s * nanos / NS_PER_S)).
Proof.
  intros. unfold md_timer_set. rewrite (bind_step _ _ s s s) by done. cbv zeta.
  rewrite w64_small by nia. rewrite (proj2 (Z.ltb_lt _ _)) by done. rewrite massert_bind.
  unfold mput. rewrite w32_small; [done|]. split; [|lia].
  apply Z.div_pos; [nia|]. unfold NS_PER_S. lia.
Qed.

(** The head's time is set to what is left of it. *)
Lemma head_set s co d q r :
  timer_ok s → queue_view s = (co, d) :: q → 0 ≤ r →
  let s1 := CpuTimer (pendingcallouts s) (alter (set_nanosecs r) co (callouts s)) (lapic_tps s)
              (timer_count s) in
  timer_ok s1 ∧ queue_view s1 = (co, r) :: q.
Proof.
  intros Hok E Hr s1. destruct (view_elem s [] co d q E) as [Hp _].
  destruct (view_nodup s [] co d q Hok E) as [_ Hn]. destruct (view_get s [] co d q Hok E) as (x & Hx & Hd).
  assert (queue_view s1 = (co, r) :: q) as E1.
  { unfold queue_view in *. simpl in *. rewrite Hp in *. rewrite fmap_cons in *.
    injection E as _ E. rewrite lookup_alter_eq, Hx. simpl. f_equal. by rewrite view_alter, E. }
  split; [split|done].
  - apply Hok.
  - intros c Hc. simpl. rewrite lookup_alter_is_Some. by apply Hok.
  - rewrite E1. pose proof (to_nonneg _ Hok) as HF. rewrite E in HF. apply Forall_cons in HF as [_ HF].
    by apply Forall_cons.
Qed.

(** A new callout put into a queue. *)
Lemma view_insert s c x q1 q2 e :
  queue_view s = q1 ++ q2 → (c ∉ pendingcallouts s) → callouts s !! c = Some x → 0 ≤ e →
  queue_view (CpuTimer ((fst <$> q1) ++ c :: (fst <$> q2)) (alter (set_nanosecs e) c (callouts s))
    (lapic_tps s) (timer_count s)) = q1 ++ (c, e) :: q2.
Proof.
  intros E Hc Hx He. assert (pendingcallouts s = (fst <$> q1) ++ (fst <$> q2)) as Hp.
  { rewrite <-fmap_app, <-E. unfold queue_view. rewrite <-list_fmap_compose. symmetry. apply list_fmap_id. }
  rewrite Hp in Hc. apply not_elem_of_app in Hc as [Hc1 Hc2].
  unfold queue_view in *. simpl. rewrite Hp, fmap_app in E. rewrite fmap_app, fmap_cons.
  apply app_inj_1 in E as [E1 E2]; [|by rewrite !length_fmap].
  rewrite !view_alter by done. rewrite lookup_alter_eq, Hx. simpl. by rewrite E1, E2.
Qed.

(** Insertion after the callout the walk stops at. *)
Lemma insert_late s co d q c x :
  timer_ok s → queue_view s = (co, d) :: q → (c ∉ pendingcallouts s) → callouts s !! c = Some x →
  0 < nanosecs x →
  ∃ m1 a da m2 rest' s',
    ('(after, rest) ← enqueue_walk (length (pendingcallouts s)) co (nanosecs x);
     alter_callout c (set_nanosecs rest);;
     set_pending (tq_insert_after (λ x, x) after c)) s = Ok ((), s') ∧
    queue_view s = m1 ++ (a, da) :: m2 ∧ queue_view s' = m1 ++ (a, da) :: (c, rest') :: m2 ∧
    0 < rest' ∧
    ((m2 = [] ∧ rest' = nanosecs x - total (queue_view s)) ∨
     (rest' = nanosecs x - total m1 ∧ rest' ≤ da)).
Proof.
  intros Hok E Hc Hx Hpos. destruct (view_elem s [] co d q E) as [Hp _].
  destruct (walk_run s (length (pendingcallouts s)) [] co d q (nanosecs x) Hok E)
    as (m1 & a & da & m2 & rest' & Hrun & Em & Hr' & Hcase).
  { rewrite Hp. simpl. rewrite length_fmap. lia. } { done. }
  rewrite Em in E. destruct (view_nodup _ _ _ _ _ Hok E) as [Ha _].
  set (s1 := CpuTimer (pendingcallouts s) (alter (set_nanosecs rest') c (callouts s)) (lapic_tps s)
    (timer_count s)).
  set (s' := CpuTimer ((fst <$> m1 ++ [(a, da)]) ++ c :: (fst <$> m2))
    (alter (set_nanosecs rest') c (callouts s)) (lapic_tps s) (timer_count s)).
  exists m1, a, da, m2, rest', s'. split.
  { rewrite (bind_step _ _ _ _ _ Hrun). rewrite (bind_step _ _ _ () s1) by done.
    unfold set_pending, mmodify. do 2 f_equal. unfold s'. f_equal. simpl.
    destruct (view_elem _ _ _ _ _ E) as [-> _]. rewrite fmap_app. simpl. rewrite <-app_assoc. simpl.
    apply tq_insert_after_at; [done|]. by rewrite list_fmap_id. }
  split_and!; [done| |done|].
  - change ((a, da) :: (c, rest') :: m2) with ([(a, da)] ++ (c, rest') :: m2). rewrite app_assoc.
    eapply view_insert; try done; [|lia]. by rewrite E, <-app_assoc.
  - rewrite E, <-Em. destruct Hcase as [[-> ->]|?]; [by left|by right].
Qed.

(** The head's time is brought up to date. *)
Lemma alter_remaining s co y remains :
  callouts s !! co = Some y →
  alter_callout co (λ c, set_nanosecs (Z.min remains (nanosecs c)) c) s =
    Ok ((), CpuTimer (pendingcallouts s) (alter (set_nanosecs (Z.min remains (nanosecs y))) co (callouts s)) (lapic_tps s)
              (timer_count s)).
Proof.
  intros Hy. rewrite alter_callout_ok. do 3 f_equal. apply map_eq. intros k. destruct (decide (k = co)) as [->|].
  - by rewrite !lookup_alter_eq, Hy.
  - by rewrite !lookup_alter_ne.
Qed.

(** [callout_insert], given the time left of the first callout.  A new callout
    that expires before the first, or after all others, expires when it should
    and leaves the others alone; any other one is put after the callout it should
    precede, and so expires too late. *)
Theorem callout_insert_times s co d q c x remains :
  timer_ok s → queue_view s = (co, d) :: q → (c ∉ pendingcallouts s) → callouts s !! c = Some x →
  0 < nanosecs x → 0 < d → 0 < remains → 0 ≤ lapic_tps s → lapic_tps s * nanosecs x < 2^64 →
  lapic_tps s * nanosecs x / NS_PER_S < 2^32 - 1 →
  let old := times 0 ((co, Z.min remains d) :: q) in
  ∃ s', callout_insert c co remains s = Ok ((), s') ∧
    (nanosecs x < Z.min remains d → times 0 (queue_view s') = (c, nanosecs x) :: old) ∧
    ((∀ k t, (k, t) ∈ old → t < nanosecs x) →
       times 0 (queue_view s') = old ++ [(c, nanosecs x)]) ∧
    (Z.min remains d ≤ nanosecs x → (∃ k t, (k, t) ∈ old ∧ nanosecs x ≤ t) →
       ∃ t, (c, t) ∈ times 0 (queue_view s') ∧ nanosecs x < t).
Proof.
  intros Hok E Hc Hx Hpos Hd Hr Htps Hw Ht old.
  destruct (view_get s [] co d q Hok E) as (y & Hy & Hyd).
  destruct (view_elem s [] co d q E) as [Hp _].
  assert (co ≠ c) as Hne by (intros ->; apply Hc; rewrite Hp; left).
  set (r := Z.min remains d) in *.
  destruct (head_set s co d q r Hok E ltac:(lia)) as [Hok1 E1]. simpl in Hok1, E1.
  set (s1 := CpuTimer (pendingcallouts s) (alter (set_nanosecs r) co (callouts s)) (lapic_tps s)
    (timer_count s)) in *.
  assert (callouts s1 !! co = Some (set_nanosecs r y)) as Hy1 by (simpl; by rewrite lookup_alter_eq, Hy).
  assert (callouts s1 !! c = Some x) as Hx1 by (simpl; by rewrite lookup_alter_ne).
  assert (alter_callout co (λ c, set_nanosecs (Z.min remains (nanosecs c)) c) s = Ok ((), s1)) as Ha
    by (rewrite (alter_remaining s co y remains Hy), Hyd; done).
  unfold callout_insert. rewrite (bind_step _ _ _ _ _ Ha).
  rewrite (bind_step _ _ _ _ _ (get_callout_ok _ _ _ Hy1)). simpl nanosecs.
  rewrite (proj2 (Z.ltb_lt 0 r)) by lia. rewrite massert_bind.
  rewrite (bind_step _ _ _ _ _ (get_callout_ok _ _ _ Hx1)).
  destruct (Z.ltb_spec (nanosecs x) r) as [Hlt|Hge].
  - destruct (head_set s1 co r q (r - nanosecs x) Hok1 E1 ltac:(lia)) as [_ E2]. simpl in E2.
    set (s2 := CpuTimer _ _ _ _) in E2.
    set (s3 := CpuTimer (c :: pendingcallouts s2) (callouts s2) (lapic_tps s2) (timer_count s2)).
    rewrite (bind_step _ _ _ () s2) by done. rewrite (bind_step _ _ _ () s3) by done.
    rewrite timer_set_ok by (done || lia). eexists. split; [done|].
    assert (queue_view (CpuTimer (pendingcallouts s3) (callouts s3) (lapic_tps s3)
      (lapic_tps s3 * nanosecs x / NS_PER_S)) = (c, nanosecs x) :: (co, r - nanosecs x) :: q) as ->.
    { change (queue_view _) with ((c, default 0 (nanosecs <$> callouts s2 !! c)) :: queue_view s2).
      rewrite E2. simpl. by rewrite !lookup_alter_ne, Hx by done. }
    split_and!; [intros _|intros Hall|lia].
    + unfold old. simpl times.
      by replace (0 + nanosecs x + (r - nanosecs x)) with (0 + r) by lia.
    + specialize (Hall co (0 + r)). unfold old in Hall. simpl in Hall.
      assert (0 + r < nanosecs x) by (apply Hall; left). lia.
  - rewrite (bind_step _ _ s1 s1 s1) by done.
    destruct (insert_late s1 co r q c x Hok1 E1 Hc Hx1 Hpos)
      as (m1 & a & da & m2 & rest' & s' & Hrun & Em & E' & Hr' & Hcase).
    exists s'. split; [exact Hrun|]. rewrite E1 in *. pose proof (to_nonneg _ Hok1) as HF.
    rewrite E1 in HF. split_and!; [lia|intros Hall|intros _ (k & t & Hin & Hle)].
    + destruct Hcase as [[-> ->]|[-> Hda]].
      * rewrite E'. change ((a, da) :: ?l) with ([(a, da)] ++ l). rewrite app_assoc, <-Em, times_app.
        unfold old. simpl times. by replace (0 + (r + total q) + (nanosecs x - (r + total q)))
          with (nanosecs x) by lia.
      * assert ((a, total m1 + da) ∈ old) as Hin.
        { unfold old. rewrite Em, times_app, Z.add_0_l. set_solver. }
        apply Hall in Hin. lia.
    + destruct Hcase as [[_ ->]|[-> Hda]].
      * apply times_le in Hin; [|done]. lia.
      * exists (total m1 + da + (nanosecs x - total m1)). split; [|lia].
        rewrite E', times_app, Z.add_0_l. set_solver.
Qed.

(** [md_timer_get_remaining] divides where it should multiply: with a timer of
    five ticks a second or more it always gives 0.  A callout can therefore only
    be enqueued on an empty queue; with one pending already the assertion on
    the first callout's time stops the kernel. *)
Theorem callout_enqueue_busy s c x :
  timer_ok s → callouts s !! c = Some x → 0 < nanosecs x →
  5 ≤ lapic_tps s → lapic_tps s * NS_PER_S < 2^64 → 0 ≤ timer_count s < 2^32 →
  md_timer_get_remaining s = Ok (0, s) ∧
  (pendingcallouts s ≠ [] → callout_enqueue c s = Fatal "assert(co->nanosecs > 0)") ∧
  (pendingcallouts s = [] → lapic_tps s * nanosecs x < 2^64 →
     lapic_tps s * nanosecs x / NS_PER_S < 2^32 - 1 →
     ∃ s', callout_enqueue c s = Ok ((), s') ∧ queue_view s' = [(c, nanosecs x)] ∧
       callouts s' !! c = Some (set_state kCalloutPending x) ∧
       timer_count s' = lapic_tps s * nanosecs x / NS_PER_S).
Proof.
  intros Hok Hx Hpos Htps Hw Hcnt.
  assert (md_timer_get_remaining s = Ok (0, s)) as Hrem.
  { unfold md_timer_get_remaining. rewrite (bind_step _ _ s s s) by done. unfold NS_PER_S in *.
    rewrite w64_small by lia. rewrite (proj2 (Z.eqb_neq _ _)) by lia.
    by rewrite Z.div_small by lia. }
  unfold callout_enqueue. rewrite (bind_step _ _ _ _ _ (get_callout_ok _ _ _ Hx)).
  rewrite (proj2 (Z.ltb_lt _ _)) by done. rewrite massert_bind, (bind_step _ _ s s s) by done.
  split_and!; [done| |].
  - intros Hne. destruct (queue_view s) as [|[co d] q] eqn:E.
    { unfold queue_view in E. apply fmap_nil_inv in E. done. }
    destruct (view_elem s [] co d q E) as [Hp _]. destruct (view_get s [] co d q Hok E) as (y & Hy & Hd).
    rewrite Hp. simpl. unfold mbind at 1, M_bind at 1.
    rewrite (bind_step _ _ _ _ _ Hrem). unfold callout_insert.
    rewrite (bind_step _ _ _ _ _ (alter_callout_ok _ _ _)).
    pose proof (to_nonneg _ Hok) as HF. rewrite E in HF. apply Forall_cons in HF as [HF _]. simpl in HF.
    rewrite (bind_step _ _ _ (set_nanosecs 0 y) (CpuTimer (pendingcallouts s)
      (alter (λ c, set_nanosecs (Z.min 0 (nanosecs c)) c) co (callouts s)) (lapic_tps s) (timer_count s))).
    + done.
    + apply get_callout_ok. simpl. rewrite lookup_alter_eq, Hy. simpl.
      rewrite Z.min_l; [done|]. subst d. exact HF.
  - intros Hemp Hw2 Ht. rewrite Hemp.
    set (s1 := CpuTimer (c :: pendingcallouts s) (callouts s) (lapic_tps s) (timer_count s)).
    set (s2 := CpuTimer (c :: pendingcallouts s) (callouts s) (lapic_tps s)
      (lapic_tps s * nanosecs x / NS_PER_S)).
    rewrite (bind_step _ _ s () s2).
    2:{ rewrite (bind_step _ _ _ () s1) by done. by rewrite (timer_set_ok _ s1) by (done || (simpl; lia)). }
    eexists. split; [apply alter_callout_ok|]. split_and!.
    + unfold queue_view. simpl. rewrite Hemp. simpl. by rewrite lookup_alter_eq, Hx.
    + simpl. by rewrite lookup_alter_eq, Hx.
    + done.
Qed.

(** Taking a callout that is not first off the queue: its time is not given to
    the callouts behind it, which all expire that much too soon, and it still
    counts as pending. *)
Theorem callout_dequeue_later s c x l1 d l2 :
  timer_ok s → queue_view s = l1 ++ (c, d) :: l2 → l1 ≠ [] →
  callouts s !! c = Some x → co_state x = kCalloutPending →
  ∃ s', callout_dequeue c s = Ok ((), s') ∧
    times 0 (queue_view s') = times 0 l1 ++ sooner d (times (total l1 + d) l2) ∧
    callouts s' !! c = Some x.
Proof.
  intros Hok E Hne Hx Hst. destruct (view_elem _ _ _ _ _ E) as [Hp _].
  destruct (view_nodup _ _ _ _ _ Hok E) as [Hn _]. destruct l1 as [|[co e] l1]; [done|].
  assert (co ≠ c) as Hco by (intros ->; apply Hn; left).
  set (s' := CpuTimer (tq_remove (λ x, x) c (pendingcallouts s)) (callouts s) (lapic_tps s) (timer_count s)).
  exists s'. split_and!; [| |done].
  - unfold callout_dequeue. rewrite (bind_step _ _ _ _ _ (get_callout_ok _ _ _ Hx)).
    rewrite bool_decide_true, massert_bind by done. rewrite (bind_step _ _ s s s) by done.
    rewrite Hp. simpl. by rewrite (proj2 (Z.eqb_neq _ _)).
  - assert (queue_view s' = ((co, e) :: l1) ++ l2) as ->.
    { unfold queue_view in *. simpl. rewrite Hp in *. rewrite tq_remove_at by (done || by rewrite list_fmap_id).
      rewrite !fmap_app, !fmap_cons in *. apply app_inj_1 in E as [E1 [= _ E2]];
        [by rewrite E1, E2|simpl; by rewrite !length_fmap]. }
    rewrite times_app, Z.add_0_l. f_equal. rewrite <-times_shift. f_equal. lia.
Qed.

(** The timer can be set for the first callout. *)
Definition settable (s : cpu_timer) : Prop :=
  0 ≤ lapic_tps s ∧ ∀ n e q, queue_view s = (n, e) :: q →
    lapic_tps s * e < 2^64 ∧ lapic_tps s * e / NS_PER_S < 2^32 - 1.

(** The end of the interrupt, with what the callback left. *)
Lemma set_next_run s :
  timer_ok s → settable s →
  (s ← mget; match pendingcallouts s with
     | co :: _ => c ← get_callout co; md_timer_set (nanosecs c)
     | [] => mret ()
     end) s =
  Ok ((), CpuTimer (pendingcallouts s) (callouts s) (lapic_tps s)
    (match queue_view s with (_, e) :: _ => lapic_tps s * e / NS_PER_S | [] => timer_count s end)).
Proof.
  intros Hok [Htps Ht]. rewrite (bind_step _ _ s s s) by done. destruct (queue_view s) as [|[n e] q] eqn:E.
  - unfold queue_view in E. apply fmap_nil_inv in E. rewrite E. destruct s. simpl in E. by subst.
  - destruct (view_elem s [] n e q E) as [Hp _]. destruct (view_get s [] n e q Hok E) as (y & Hy & He).
    destruct (Ht n e q eq_refl) as [Hw Hl]. pose proof (to_nonneg _ Hok) as HF.
    rewrite E, Forall_cons in HF. destruct HF as [HF _]. simpl in HF.
    destruct s as [p cs tps cnt]. cbn [pendingcallouts app fmap list_fmap] in Hp. subst p. cbn [pendingcallouts].
    rewrite (bind_step _ _ _ _ _ (get_callout_ok _ _ _ Hy)), He.
    apply timer_set_ok; done || lia.
Qed.

(** C39: The timer interrupt does nothing when no callout is pending.  Otherwise it
    takes the first off the queue, which leaves the others their times of expiry,
    disables it, and runs its callback with its argument in that state; what the
    callback leaves, callouts it enqueued included, is kept, and the timer is set
    for the callout that is first then.  If the callback stops the kernel, so does
    the interrupt. *)
Theorem callout_interrupt_correct s callback :
  timer_ok s →
  match queue_view s with
  | [] => callout_interrupt callback s = Ok ((), s)
  | (c, d) :: q => ∃ x, callouts s !! c = Some x ∧
      let s1 := CpuTimer (tail (pendingcallouts s)) (alter (set_state kCalloutDisabled) c (callouts s))
        (lapic_tps s) (timer_count s) in
      queue_view s1 = q ∧ times 0 q = sooner d (tail (times 0 (queue_view s))) ∧
      match callback (co_callback x) (co_arg x) s1 with
      | Ok (_, s2) => timer_ok s2 → settable s2 →
          ∃ s', callout_interrupt callback s = Ok ((), s') ∧
            pendingcallouts s' = pendingcallouts s2 ∧ callouts s' = callouts s2 ∧ lapic_tps s' = lapic_tps s2 ∧
            timer_count s' =
              match queue_view s2 with (_, e) :: _ => lapic_tps s2 * e / NS_PER_S | [] => timer_count s2 end
      | Fatal w => callout_interrupt callback s = Fatal w
      | Undef w => callout_interrupt callback s = Undef w
      end
  end.
Proof.
  intros Hok. destruct (queue_view s) as [|[c d] q] eqn:E.
  { unfold queue_view in E. apply fmap_nil_inv in E. unfold callout_interrupt.
    by rewrite (bind_step _ _ s s s), E by done. }
  destruct (view_elem s [] c d q E) as [Hp _]. destruct (view_get s [] c d q Hok E) as (x & Hx & _).
  destruct (view_nodup s [] c d q Hok E) as [_ Hn].
  exists x. split; [done|]. cbv zeta. rewrite Hp. cbn [app fmap list_fmap tail].
  set (s1 := CpuTimer (fst <$> q) (alter (set_state kCalloutDisabled) c (callouts s)) (lapic_tps s) (timer_count s)).
  split.
  { unfold queue_view in *. simpl. rewrite Hp in E. rewrite fmap_app in E. simpl in E. injection E as _ E.
    by rewrite view_alter. }
  split; [simpl; rewrite <-times_shift; f_equal; lia|].
  assert (callouts s1 !! c = Some (set_state kCalloutDisabled x)) as Hx1 by (simpl; by rewrite lookup_alter_eq, Hx).
  unfold callout_interrupt. rewrite (bind_step _ _ s s s) by done. cbv beta. rewrite Hp. lazy iota beta delta [app fmap list_fmap].
  rewrite (bind_step _ _ _ () (CpuTimer (fst <$> q) (callouts s) (lapic_tps s) (timer_count s)))
    by (unfold set_pending, mmodify; rewrite Hp; simpl; by rewrite Z.eqb_refl).
  rewrite (bind_step _ _ _ () s1) by done. rewrite (bind_step _ _ _ _ _ (get_callout_ok _ _ _ Hx1)).
  change (co_callback (set_state kCalloutDisabled x)) with (co_callback x).
  change (co_arg (set_state kCalloutDisabled x)) with (co_arg x).
  destruct (callback (co_callback x) (co_arg x) s1) as [[[] s2]| |] eqn:Ecb.
  - intros Hok2 Hset. rewrite (bind_step _ _ _ _ _ Ecb), set_next_run by done. by eexists.
  - unfold mbind at 1, M_bind at 1. by rewrite Ecb.
  - unfold mbind at 1, M_bind at 1. by rewrite Ecb.
Qed.

(** ** The properties at a small queue *)

Definition demo_callouts : gmap Z callout :=
  {[ 1 := Callout 0 0 5 kCalloutPending; 2 := Callout 0 0 10 kCalloutPending;
     3 := Callout 0 0 8 kCalloutDisabled ]}.
Definition demo_timer (q : list Z) (tps count : Z) : cpu_timer := CpuTimer q demo_callouts tps count.
Lemma demo_timer_ok tps count : timer_ok (demo_timer [1; 2] tps count).
Proof.
  split.
  - by apply (bool_decide_unpack _).
  - intros c [->|[->|[]%elem_of_nil]%elem_of_cons]%elem_of_cons; eexists; vm_compute; reflexivity.
  - vm_compute. by repeat constructor.
Qed.

Lemma callout_insert_times_witness :
  ∃ s', callout_insert 3 1 4 (demo_timer [1; 2] 1 0) = Ok ((), s') ∧
    (8 < Z.min 4 5 → times 0 (queue_view s') = (3, 8) :: times 0 [(1, Z.min 4 5); (2, 10)]) ∧
    ((∀ k t, (k, t) ∈ times 0 [(1, Z.min 4 5); (2, 10)] → t < 8) →
       times 0 (queue_view s') = times 0 [(1, Z.min 4 5); (2, 10)] ++ [(3, 8)]) ∧
    (Z.min 4 5 ≤ 8 → (∃ k t, (k, t) ∈ times 0 [(1, Z.min 4 5); (2, 10)] ∧ 8 ≤ t) →
       ∃ t, (3, t) ∈ times 0 (queue_view s') ∧ 8 < t).
Proof.
  apply (callout_insert_times (demo_timer [1; 2] 1 0) 1 5 [(2, 10)] 3 (Callout 0 0 8 kCalloutDisabled) 4);
    try done; [apply demo_timer_ok|by apply (bool_decide_unpack _)].
Defined.

Lemma callout_enqueue_busy_witness :
  md_timer_get_remaining (demo_timer [1; 2] 1000 7) = Ok (0, demo_timer [1; 2] 1000 7) ∧
  ([1; 2] ≠ [] → callout_enqueue 3 (demo_timer [1; 2] 1000 7) = Fatal "assert(co->nanosecs > 0)") ∧
  ([1; 2] = [] → 1000 * 8 < 2^64 → 1000 * 8 / NS_PER_S < 2^32 - 1 →
     ∃ s', callout_enqueue 3 (demo_timer [1; 2] 1000 7) = Ok ((), s') ∧ queue_view s' = [(3, 8)] ∧
       callouts s' !! 3 = Some (set_state kCalloutPending (Callout 0 0 8 kCalloutDisabled)) ∧
       timer_count s' = 1000 * 8 / NS_PER_S).
Proof.
  apply (callout_enqueue_busy (demo_timer [1; 2] 1000 7) 3 (Callout 0 0 8 kCalloutDisabled));
    [apply demo_timer_ok|done..].
Defined.

Lemma callout_dequeue_later_witness :
  ∃ s', callout_dequeue 2 (demo_timer [1; 2] 1 0) = Ok ((), s') ∧
    times 0 (queue_view s') = times 0 [(1, 5)] ++ sooner 10 (times (total [(1, 5)] + 10) []) ∧
    callouts s' !! 2 = Some (Callout 0 0 10 kCalloutPending).
Proof.
  apply (callout_dequeue_later (demo_timer [1; 2] 1 0) 2 (Callout 0 0 10 kCalloutPending) [(1, 5)] 10 []);
    [apply demo_timer_ok|done..].
Defined.

(** The callback enqueues callout 3: it alone is pending afterwards, and the timer
    is set for it. *)
Definition demo_callback (fn arg : Z) : M cpu_timer unit := callout_enqueue 3.
Lemma callout_interrupt_correct_witness :
  ∃ s', callout_interrupt demo_callback (demo_timer [1] NS_PER_S 0) = Ok ((), s') ∧
    pendingcallouts s' = [3] ∧ timer_count s' = 8 ∧
    callouts s' !! 1 = Some (Callout 0 0 5 kCalloutDisabled) ∧ callouts s' !! 3 = Some (Callout 0 0 8 kCalloutPending).
Proof.
  destruct (callout_interrupt_correct (demo_timer [1] NS_PER_S 0) demo_callback) as (x & Hx & _ & _ & H).
  { split; [by apply (bool_decide_unpack _)| |vm_compute; by repeat constructor].
    intros c [->|[]%elem_of_nil]%elem_of_cons; eexists; vm_compute; reflexivity. }
  vm_compute in Hx. injection Hx as <-.
  destruct (demo_callback _ _ _) as [[[] s2]| |] eqn:Ecb in H; vm_compute in Ecb; [|done..].
  injection Ecb as <-. destruct H as (s' & Hrun & Hp & Hcs & _ & Hcnt).
  - split; [by apply (bool_decide_unpack _)| |vm_compute; by repeat constructor].
    intros c [->|[]%elem_of_nil]%elem_of_cons; eexists; vm_compute; reflexivity.
  - split; [done|]. intros n e q [= _ <- _]. by vm_compute.
  - exists s'. split; [exact Hrun|]. rewrite Hp, Hcs, Hcnt. by vm_compute.
Defined.
