(* ===== verification/Sync.v ===== *)
(** * Mutexes and semaphores: kern/sync.h, kern/task.c

    Any number of threads run [mutex_lock] and [mutex_unlock] on one mutex, or
    [semaphore_wait] and [semaphore_signal] on one semaphore, interleaved at
    their atomic operations and at the critical sections of the wait queue's
    lock.  A thread is at a point of the code; [mutex_step] and [sem_step] run one of its steps, and are not defined
    while it sleeps or spins on a lock.

    A thread that is to sleep takes its own lock ([waitq_await_locked]), puts
    itself on the queue and lets [sched_reschedule] unlock it, which it does only
    if the thread is still waiting: a thread woken earlier keeps its lock, and
    spins on it for ever the next time it is to sleep, with the queue's lock
    held.  What a woken thread's scheduling involves is in Sched. *)

From S2P Require Import Prelude.
Open Scope Z_scope.

(** ** Counting threads *)
Section count.
Context {P : Type}.

Definition upd (pcs : Z → P) (t : Z) (p : P) : Z → P := λ u, if decide (u = t) then p else pcs u.
Definition b2z (b : bool) : Z := if b then 1 else 0.
Fixpoint cnt (f : P → bool) (pcs : Z → P) (ths : list Z) : Z :=
  match ths with
  | [] => 0
  | t :: ths' => b2z (f (pcs t)) + cnt f pcs ths'
  end.

Lemma upd_eq pcs t p : upd pcs t p t = p.
Proof. unfold upd. by rewrite decide_True. Qed.
Lemma upd_ne pcs t p u : u ≠ t → upd pcs t p u = pcs u.
Proof. intros. unfold upd. by rewrite decide_False. Qed.

Lemma b2z_range b : 0 ≤ b2z b ≤ 1.
Proof. destruct b; simpl; lia. Qed.

Lemma cnt_range f pcs ths : 0 ≤ cnt f pcs ths ≤ Z.of_nat (length ths).
Proof. induction ths as [|t ths IH]; simpl; [lia|]. pose proof (b2z_range (f (pcs t))). lia. Qed.

Lemma cnt_upd_out f pcs t p ths : (t ∉ ths) → cnt f (upd pcs t p) ths = cnt f pcs ths.
Proof.
  induction ths as [|u ths IH]; simpl; [done|]. intros [Hne Hn]%not_elem_of_cons.
  by rewrite upd_ne, IH.
Qed.

Lemma cnt_upd f pcs t p ths :
  NoDup ths → t ∈ ths → cnt f (upd pcs t p) ths = cnt f pcs ths - b2z (f (pcs t)) + b2z (f p).
Proof.
  induction 1 as [|u ths Hu ND IH]; [by intros ?%elem_of_nil|].
  intros Hin. simpl. destruct (decide (t = u)) as [->|Hne].
  - rewrite upd_eq, cnt_upd_out by done. lia.
  - rewrite upd_ne by done. apply elem_of_cons in Hin as [|Hin]; [done|]. rewrite IH by done. lia.
Qed.

Lemma cnt_pos f pcs ths t : t ∈ ths → f (pcs t) = true → 1 ≤ cnt f pcs ths.
Proof.
  induction ths as [|u ths IH]; [by intros ?%elem_of_nil|]. simpl.
  pose proof (cnt_range f pcs ths). pose proof (b2z_range (f (pcs u))).
  intros [->|Hin]%elem_of_cons Hf; [rewrite Hf; simpl; lia|]. specialize (IH Hin Hf). lia.
Qed.

Lemma cnt_two f pcs ths t u :
  NoDup ths → t ∈ ths → u ∈ ths → t ≠ u → f (pcs t) = true → f (pcs u) = true → 2 ≤ cnt f pcs ths.
Proof.
  induction 1 as [|v ths Hv ND IH]; [by intros ?%elem_of_nil|]. simpl.
  pose proof (b2z_range (f (pcs v))).
  intros [->|Ht]%elem_of_cons [->|Hu]%elem_of_cons Hne Hft Hfu; try done.
  - pose proof (cnt_pos f pcs ths u Hu Hfu). rewrite Hft. simpl. lia.
  - pose proof (cnt_pos f pcs ths t Ht Hft). rewrite Hfu. simpl. lia.
  - specialize (IH Ht Hu Hne Hft Hfu). lia.
Qed.

Lemma cnt_exists f pcs ths : 1 ≤ cnt f pcs ths → ∃ t, t ∈ ths ∧ f (pcs t) = true.
Proof.
  induction ths as [|u ths IH]; simpl; [lia|]. destruct (f (pcs u)) eqn:E.
  - intros _. exists u. split; [left|done].
  - simpl. intros H. destruct IH as (t & ? & ?); [lia|]. exists t. split; [by right|done].
Qed.

Lemma cnt_add f g pcs ths : (∀ p, f p = false ∨ g p = false) →
  cnt (λ p, f p || g p) pcs ths = cnt f pcs ths + cnt g pcs ths.
Proof.
  intros H. induction ths as [|u ths IH]; simpl; [done|]. rewrite IH.
  destruct (H (pcs u)) as [-> | ->]; simpl; [lia|]. destruct (f (pcs u)); simpl; lia.
Qed.
End count.

(** ** The mutex *)

(** Where a thread is. *)
Inductive mutex_pc :=
| MOut            (** not using the mutex *)
| MAwait          (** [mutex_lock]: [count] was 1 or more, about to call [waitq_await] *)
| MSpin           (** holds the queue's lock and spins on its own, which it holds *)
| MQueued         (** on the wait queue, its own lock held, about to reschedule *)
| MAsleep         (** on the wait queue, switched away *)
| MTake           (** [mutex_lock]: about to set [owner] *)
| MHeld           (** holds the mutex *)
| MRelease        (** [mutex_unlock]: [owner] cleared, about to decrement [count] *)
| MWake           (** [mutex_unlock]: [count] was more than 1, about to call [waitq_wake_one] *)
| MResume (u : Z). (** took [u] off the queue, about to resume it *)
#[export] Instance mutex_pc_eq_dec : EqDecision mutex_pc.
Proof. solve_decision. Defined.

(** [wq_lock] is the lock of the wait queue, [th_lock] the threads' own. *)
Record mutex := Mutex {
  owner : option Z;
  count : Z;
  waiters : list Z;
  wq_lock : bool;
  th_lock : Z → bool;
  m_pc : Z → mutex_pc;
}.

(** [l] is how the threads' earlier waits left their locks. *)
Definition mutex_init (l : Z → bool) : mutex := Mutex None 0 [] false l (λ _, MOut).

(** One step of thread [t]: [None] when it has none. *)
Definition mutex_step (t : Z) (s : mutex) : option (result mutex) :=
  let '(Mutex o c w k l p) := s in
  match p t with
  | MOut =>
      (* atomic_fetch_add(&mtx->count, 1) >= 1 *)
      Some (Ok (Mutex o (w32 (c + 1)) w k l (upd p t (if 1 <=? c then MAwait else MTake))))
  | MAwait =>
      (* waitq_await: spinlock_lock(&wq->lock), spinlock_lock(&thread->lock) *)
      if k then None
      else if l t then Some (Ok (Mutex o c w true l (upd p t MSpin)))
      else Some (Ok (Mutex o c (w ++ [t]) false (upd l t true) (upd p t MQueued)))
  | MSpin => None
  | MQueued =>
      (* sched_reschedule: spinlock_unlock(&oldthread->lock), md_switch *)
      Some (Ok (Mutex o c w k (upd l t false) (upd p t MAsleep)))
  | MAsleep => None
  | MTake =>
      (* assert(atomic_compare_exchange_strong(&mtx->owner, &nul, curthread())) *)
      Some (match o with
            | None => Ok (Mutex (Some t) c w k l (upd p t MHeld))
            | Some _ => Fatal "mutex_lock: owner"
            end)
  | MHeld =>
      (* assert(atomic_compare_exchange_strong(&mtx->owner, &expected, NULL)) *)
      Some (if decide (o = Some t)
            then Ok (Mutex None c w k l (upd p t MRelease))
            else Fatal "mutex_unlock: owner")
  | MRelease =>
      (* atomic_fetch_sub(&mtx->count, 1) > 1 *)
      Some (Ok (Mutex o (w32 (c - 1)) w k l (upd p t (if 1 <? c then MWake else MOut))))
  | MWake =>
      (* waitq_wake_one: the first waiter is taken off the queue under its lock *)
      if k then None else
      Some (Ok (match w with
                | [] => Mutex o c [] k l (upd p t MOut)
                | u :: w' => Mutex o c w' k l (upd p t (MResume u))
                end))
  | MResume u =>
      (* thread_resume: if it has not switched away, its reschedule returns at
         once, with its lock still held *)
      Some (Ok (Mutex o c w k l (upd (upd p u MTake) t MOut)))
  end.

(** The steps of the threads in [ths]. *)
Inductive mutex_reach (ths : list Z) : mutex → mutex → Prop :=
| mutex_here s : mutex_reach ths s s
| mutex_next s1 s2 s3 t :
    mutex_reach ths s1 s2 → t ∈ ths → mutex_step t s2 = Some (Ok s3) → mutex_reach ths s1 s3.

Definition counted (p : mutex_pc) : bool :=
  match p with MOut | MWake | MResume _ => false | _ => true end.
(** On the wait queue, unless another thread is resuming it. *)
Definition queued (p : mutex_pc) : bool := match p with MQueued | MAsleep => true | _ => false end.
Definition spinning (p : mutex_pc) : bool := match p with MSpin => true | _ => false end.
Definition waiting (p : mutex_pc) : bool :=
  match p with MAwait | MSpin | MQueued | MAsleep => true | _ => false end.
(** The threads the mutex belongs to, or that have to pass it on. *)
Definition token (p : mutex_pc) : bool :=
  match p with MTake | MHeld | MRelease | MWake | MResume _ => true | _ => false end.
Definition waking (p : mutex_pc) : bool := match p with MWake | MResume _ => true | _ => false end.
Definition resumes (p : mutex_pc) : option Z := match p with MResume u => Some u | _ => None end.

Record mutex_ok (ths : list Z) (s : mutex) : Prop := {
  mo_count : count s = cnt counted (m_pc s) ths;
  mo_token : cnt token (m_pc s) ths ≤ 1;
  mo_waking : cnt waking (m_pc s) ths ≤ cnt waiting (m_pc s) ths;
  mo_spin : b2z (wq_lock s) = cnt spinning (m_pc s) ths;
  mo_spin_lock t : m_pc s t = MSpin → th_lock s t = true;
  mo_owner t : t ∈ ths → owner s = Some t ↔ m_pc s t = MHeld;
  mo_owner_in t : owner s = Some t → t ∈ ths;
  mo_waiters t : t ∈ waiters s ↔
    t ∈ ths ∧ queued (m_pc s t) = true ∧ ∀ v, v ∈ ths → resumes (m_pc s v) ≠ Some t;
  mo_resumes v u : v ∈ ths → resumes (m_pc s v) = Some u → u ∈ ths ∧ queued (m_pc s u) = true;
  mo_nodup : NoDup (waiters s);
}.

Lemma cnt_all_false {P} (f : P → bool) pcs ths : (∀ v : Z, f (pcs v) = false) → cnt f pcs ths = 0.
Proof. intros H. induction ths as [|t ths IH]; simpl; [done|]. by rewrite H, IH. Qed.

Lemma cnt_counted pcs ths :
  cnt counted pcs ths = cnt waiting pcs ths + cnt token pcs ths - cnt waking pcs ths.
Proof.
  induction ths as [|t ths IH]; simpl; [done|]. rewrite IH. destruct (pcs t); simpl; lia.
Qed.

Lemma mutex_init_ok ths l : mutex_ok ths (mutex_init l).
Proof.
  split; simpl; rewrite ?(cnt_all_false _ (λ _, MOut)) by done; try done; try lia.
  - intros t. split; [by intros ?%elem_of_nil|by intros (_ & ? & _)].
  - apply NoDup_nil_2.
Qed.

Section mutex_safe.
Context (ths : list Z).
Hypothesis (Hnd : NoDup ths) (Hfew : Z.of_nat (length ths) < 2^32).

(** The counters after thread [t] has moved. *)
Ltac moved Ht Hpc := rewrite ?(cnt_upd _ _ _ _ _ Hnd Ht), ?Hpc; simpl b2z.

(** Who waits and who is resumed, after a thread has moved that is on the queue
    before and after or neither, and that resumes nobody. *)
Lemma waiters_moved pc t p u :
  queued p = queued (pc t) → resumes (pc t) = None → resumes p = None →
  (u ∈ ths ∧ queued (upd pc t p u) = true ∧ ∀ v, v ∈ ths → resumes (upd pc t p v) ≠ Some u) ↔
  (u ∈ ths ∧ queued (pc u) = true ∧ ∀ v, v ∈ ths → resumes (pc v) ≠ Some u).
Proof.
  intros Hq H1 H2.
  assert (queued (upd pc t p u) = queued (pc u)) as -> by (unfold upd; case_decide; by subst).
  assert (∀ v, resumes (upd pc t p v) = resumes (pc v)) as Hr
    by (intros v; unfold upd; case_decide; subst; congruence).
  by setoid_rewrite Hr.
Qed.

(** A thread moves and the wait queue stays: what is left to show is about the
    counters, the locks and the owner. *)
Lemma move_ok o c w k l pc t p o' c' k' l' :
  mutex_ok ths (Mutex o c w k l pc) → t ∈ ths →
  queued p = queued (pc t) → resumes (pc t) = None → resumes p = None →
  b2z k' = b2z k - b2z (spinning (pc t)) + b2z (spinning p) →
  (∀ u, upd pc t p u = MSpin → l' u = true) →
  c' = cnt counted pc ths - b2z (counted (pc t)) + b2z (counted p) →
  cnt token pc ths - b2z (token (pc t)) + b2z (token p) ≤ 1 →
  cnt waking pc ths - b2z (waking (pc t)) + b2z (waking p) ≤
    cnt waiting pc ths - b2z (waiting (pc t)) + b2z (waiting p) →
  (∀ u, u ∈ ths → o' = Some u ↔ upd pc t p u = MHeld) → (∀ u, o' = Some u → u ∈ ths) →
  mutex_ok ths (Mutex o' c' w k' l' (upd pc t p)).
Proof.
  intros [] Ht Hq Hr1 Hr2 Hk Hl Hc Htok Hwk Ho Hoi. simpl in *.
  split; simpl; rewrite ?(cnt_upd _ _ _ _ _ Hnd Ht); try done; try lia.
  - intros u. by rewrite waiters_moved.
  - intros v u Hv. assert (resumes (upd pc t p v) = resumes (pc v)) as ->
      by (unfold upd; case_decide; subst; congruence).
    intros Hu. destruct (mo_resumes0 v u Hv Hu) as [? Hqu]. split; [done|].
    unfold upd. case_decide; subst; congruence.
Qed.

(** The locks after a thread has moved that neither spins nor locked anything. *)
Lemma spin_moved s t p :
  mutex_ok ths s → p ≠ MSpin → ∀ u, upd (m_pc s) t p u = MSpin → th_lock s u = true.
Proof. intros Hok Hp u. unfold upd. case_decide; [done|apply (mo_spin_lock _ _ Hok)]. Qed.

Lemma owner_moved s t p :
  mutex_ok ths s → t ∈ ths → m_pc s t ≠ MHeld → p ≠ MHeld →
  ∀ u, u ∈ ths → owner s = Some u ↔ upd (m_pc s) t p u = MHeld.
Proof.
  intros Hok Ht H1 H2 u Hu. rewrite (mo_owner _ _ Hok u Hu). destruct (decide (u = t)) as [->|].
  - rewrite upd_eq. naive_solver.
  - by rewrite upd_ne.
Qed.

(** At most one thread is at a point that owns or passes on the mutex. *)
Lemma token_unique s t u :
  mutex_ok ths s → t ∈ ths → u ∈ ths → token (m_pc s t) = true → token (m_pc s u) = true → t = u.
Proof.
  intros Hok Ht Hu H1 H2. destruct (decide (t = u)) as [|Hne]; [done|].
  pose proof (cnt_two token (m_pc s) ths t u Hnd Ht Hu Hne H1 H2). pose proof (mo_token _ _ Hok). lia.
Qed.

Lemma token_not_held s t u :
  mutex_ok ths s → t ∈ ths → u ∈ ths → u ≠ t → token (m_pc s t) = true → m_pc s u ≠ MHeld.
Proof.
  intros Hok Ht Hu Hne Htok Hh. apply Hne. eapply token_unique; [exact Hok|done..| |exact Htok]. by rewrite Hh.
Qed.

(** The owner after the thread the mutex belongs to has moved. *)
Lemma owner_passes s t p :
  mutex_ok ths s → t ∈ ths → token (m_pc s t) = true →
  ∀ u, u ∈ ths → (if decide (p = MHeld) then Some t else None) = Some u ↔ upd (m_pc s) t p u = MHeld.
Proof.
  intros Hok Ht Htok u Hu. destruct (decide (u = t)) as [->|Hne].
  - rewrite upd_eq. by case_decide.
  - rewrite upd_ne by done. pose proof (token_not_held s t u Hok Ht Hu Hne Htok). case_decide; naive_solver.
Qed.

(** Thread [t] takes its own lock and puts itself on the queue. *)
Lemma queue_ok o c w l pc t :
  mutex_ok ths (Mutex o c w false l pc) → t ∈ ths → pc t = MAwait → l t = false →
  mutex_ok ths (Mutex o c (w ++ [t]) false (upd l t true) (upd pc t MQueued)).
Proof.
  intros Hok Ht Hpc Hl. pose proof (owner_moved _ t MQueued Hok Ht) as Ho. simpl in Ho.
  rewrite Hpc in Ho. destruct Hok. simpl in *.
  assert (∀ v, v ∈ ths → resumes (upd pc t MQueued v) = resumes (pc v)) as Hres
    by (intros v Hv; unfold upd; case_decide; subst; by rewrite ?Hpc).
  assert (∀ v, v ∈ ths → resumes (pc v) ≠ Some t) as Hrt
    by (intros v Hv Hr; destruct (mo_resumes0 v t Hv Hr) as [_ Hq]; by rewrite Hpc in Hq).
  split; simpl; moved Ht Hpc; try lia; try done.
  - unfold upd. intros u. case_decide; [done|apply mo_spin_lock0].
  - by apply Ho.
  - intros u. rewrite elem_of_app, mo_waiters0, list_elem_of_singleton.
    destruct (decide (u = t)) as [->|]; [rewrite upd_eq, Hpc|rewrite upd_ne by done].
    + split; [|by right]. intros _. split_and!; try done. intros v Hv. rewrite Hres by done. by apply Hrt.
    + assert ((∀ v, v ∈ ths → resumes (upd pc t MQueued v) ≠ Some u) ↔
              (∀ v, v ∈ ths → resumes (pc v) ≠ Some u)) as ->; [|naive_solver].
      split; intros Hn v Hv; specialize (Hn v Hv); by rewrite Hres in *.
  - intros v u Hv. rewrite Hres by done. intros Hu. destruct (mo_resumes0 v u Hv Hu).
    split; [done|]. rewrite upd_ne; [done|]. intros ->. by destruct (Hrt v Hv).
  - apply NoDup_app. split_and!; [done| |apply NoDup_singleton].
    intros u Hu ->%list_elem_of_singleton. apply mo_waiters0 in Hu as (_ & Hq & _). by rewrite Hpc in Hq.
Qed.

(** Thread [t] takes the first waiter off the queue. *)
Lemma wake_ok o c u w k l pc t :
  mutex_ok ths (Mutex o c (u :: w) k l pc) → t ∈ ths → pc t = MWake →
  mutex_ok ths (Mutex o c w k l (upd pc t (MResume u))).
Proof.
  intros Hok Ht Hpc. pose proof (owner_moved _ t (MResume u) Hok Ht) as Ho. simpl in Ho.
  rewrite Hpc in Ho. pose proof (spin_moved _ t (MResume u) Hok) as Hsp. simpl in Hsp.
  destruct Hok. simpl in *. apply NoDup_cons in mo_nodup0 as [Huw ND].
  destruct (proj1 (mo_waiters0 u)) as (Hu & Hqu & Hru); [left|].
  assert (t ≠ u) as Hne by (intros ->; by rewrite Hpc in Hqu).
  assert (∀ v, queued (upd pc t (MResume u) v) = queued (pc v)) as Hq
    by (intros v; unfold upd; case_decide; subst; by rewrite ?Hpc).
  split; simpl; moved Ht Hpc; try lia; try done; [by apply Hsp|by apply Ho| |].
  - intros v. rewrite Hq. pose proof (mo_waiters0 v) as Ha. rewrite elem_of_cons in Ha.
    destruct (decide (v = u)) as [->|Hvu].
    + split; [done|]. intros (_ & _ & Hn). by destruct (Hn t Ht); rewrite upd_eq.
    + assert ((∀ v', v' ∈ ths → resumes (upd pc t (MResume u) v') ≠ Some v) ↔
              (∀ v', v' ∈ ths → resumes (pc v') ≠ Some v)) as ->; [|naive_solver].
      split; intros Hn v' Hv'; specialize (Hn v' Hv'); revert Hn; unfold upd; case_decide; subst;
        rewrite ?Hpc; simpl; congruence.
  - intros v v' Hv. rewrite Hq. unfold upd at 1. case_decide; [|by apply mo_resumes0].
    by intros [= <-].
Qed.

(** Thread [t] resumes the waiter [u] it took off the queue. *)
Lemma resume_ok o c w k l pc t u :
  mutex_ok ths (Mutex o c w k l pc) → t ∈ ths → pc t = MResume u →
  mutex_ok ths (Mutex o c w k l (upd (upd pc u MTake) t MOut)).
Proof.
  intros Hok Ht Hpc.  assert (∀ v, v ∈ ths → resumes (pc v) ≠ None → v = t) as Hone.
  { intros v Hv Hr. eapply (token_unique _ v t Hok Hv Ht); simpl; [|by rewrite Hpc].
    by destruct (pc v). }
  destruct Hok. simpl in *.
  destruct (mo_resumes0 t u Ht) as [Hu Hqu]; [by rewrite Hpc|].
  assert (t ≠ u) as Hne by (intros ->; by rewrite Hpc in Hqu).
  assert (∀ v, v ∈ ths → resumes (upd (upd pc u MTake) t MOut v) = None) as Hnone.
  { intros v Hv. unfold upd. repeat case_decide; [done|done|].
    destruct (decide (resumes (pc v) = None)) as [|Hr]; [done|]. by destruct (Hone v Hv Hr). }
  split; simpl; rewrite ?(cnt_upd _ _ t _ _ Hnd Ht), ?upd_ne, ?(cnt_upd _ _ u _ _ Hnd Hu), ?Hpc by done.
  1-4: clear mo_waiters0 mo_resumes0 Hone Hnone mo_owner0; destruct (pc u); simpl in *; try discriminate; lia.
  - unfold upd. intros v. repeat case_decide; try done. apply mo_spin_lock0.
  - intros v Hv. rewrite (mo_owner0 v Hv). unfold upd. repeat case_decide; subst; try done.
    + rewrite Hpc. naive_solver.
    + split; [|done]. intros E. by rewrite E in Hqu.
  - done.
  - intros v. rewrite mo_waiters0. unfold upd at 1. case_decide; [|unfold upd at 1; case_decide]; subst.
    + rewrite Hpc. simpl. by split; intros (_ & ? & _).
    + simpl. split; [|by intros (_ & ? & _)]. intros (_ & _ & Hn). by destruct (Hn t Ht); rewrite Hpc.
    + split; intros (? & ? & Hn); (split_and!; [done..|]); intros v' Hv'.
      * by rewrite Hnone.
      * intros Hr. assert (v' = t) as -> by (apply Hone; congruence). rewrite Hpc in Hr. by simplify_eq/=.
  - intros v v' Hv. by rewrite Hnone.
  - done.
Qed.

(** Why a thread has no step: it is asleep, on the queue or about to be resumed,
    or it waits for the queue's lock or its own, because of a thread that spins
    on its own lock, which it holds itself. *)
Definition mutex_blocked (t : Z) (s : mutex) : Prop :=
  (m_pc s t = MAsleep ∧ (t ∈ waiters s ∨ ∃ v, v ∈ ths ∧ m_pc s v = MResume t)) ∨
  (m_pc s t ∈ [MAwait; MSpin; MWake] ∧ ∃ u, u ∈ ths ∧ m_pc s u = MSpin ∧ th_lock s u = true).

Lemma asleep_blocked s t : mutex_ok ths s → t ∈ ths → m_pc s t = MAsleep → mutex_blocked t s.
Proof.
  intros Hok Ht Hpc. left. split; [done|].
  destruct (decide (t ∈ waiters s)) as [|Hn]; [by left|]. right.
  destruct (decide (Exists (λ v, resumes (m_pc s v) = Some t) ths)) as [(v & Hv & Hr)%Exists_exists|Hno].
  - exists v. split; [done|]. by destruct (m_pc s v); simplify_eq/=.
  - destruct Hn. apply (mo_waiters _ _ Hok). split_and!; [done|by rewrite Hpc|].
    intros v Hv Hr. apply Hno, Exists_exists. by exists v.
Qed.

Lemma locked_blocked s t :
  mutex_ok ths s → wq_lock s = true → m_pc s t ∈ [MAwait; MSpin; MWake] → mutex_blocked t s.
Proof.
  intros Hok Hk Hpc. right. split; [done|]. pose proof (mo_spin _ _ Hok) as Hs. rewrite Hk in Hs.
  destruct (cnt_exists spinning (m_pc s) ths) as (u & Hu & Hsp); [by rewrite <-Hs|].
  assert (m_pc s u = MSpin) as E by (by destruct (m_pc s u)).
  exists u. split_and!; [done..|by apply (mo_spin_lock _ _ Hok)].
Qed.

(** The steps that do not touch the queue, but for their counters. *)
Ltac moves Hok Hpc :=
  eapply move_ok; [exact Hok|..]; rewrite ?Hpc; simpl; try done; try lia;
  try (by apply (spin_moved _ _ _ Hok)); try (by apply (owner_moved _ _ _ Hok); simpl; rewrite ?Hpc);
  try (by apply (mo_owner_in _ _ Hok)).

Lemma count_step_ok o c w k l pc t :
  mutex_ok ths (Mutex o c w k l pc) → t ∈ ths → pc t = MOut ∨ pc t = MRelease →
  match mutex_step t (Mutex o c w k l pc) with Some (Ok s') => mutex_ok ths s' | _ => False end.
Proof.
  intros Hok Ht Hp. pose proof (cnt_counted pc ths) as Hcc. pose proof (cnt_range counted pc ths) as Hr.
  pose proof (mo_count _ _ Hok) as Hcnt. pose proof (mo_token _ _ Hok) as Htok.
  pose proof (mo_waking _ _ Hok) as Hwk. simpl in *.
  pose proof (cnt_range waiting pc ths). pose proof (cnt_range token pc ths).
  pose proof (cnt_range waking pc ths). destruct Hp as [Hpc|Hpc]; rewrite Hpc.
  - assert (cnt counted (upd pc t MAwait) ths ≤ Z.of_nat (length ths)) as Hb by apply cnt_range.
    rewrite (cnt_upd _ _ _ _ _ Hnd Ht), Hpc in Hb. simpl in Hb. rewrite w32_small by lia.
    destruct (Z.leb_spec 1 c); moves Hok Hpc.
  - pose proof (cnt_pos counted pc ths t Ht ltac:(by rewrite Hpc)).
    pose proof (cnt_pos token pc ths t Ht ltac:(by rewrite Hpc)). rewrite w32_small by lia.
    destruct (Z.ltb_spec 1 c); moves Hok Hpc.
Qed.

Lemma owner_step_ok o c w k l pc t :
  mutex_ok ths (Mutex o c w k l pc) → t ∈ ths → pc t = MTake ∨ pc t = MHeld →
  match mutex_step t (Mutex o c w k l pc) with Some (Ok s') => mutex_ok ths s' | _ => False end.
Proof.
  intros Hok Ht Hp. pose proof (mo_count _ _ Hok) as Hcnt. pose proof (mo_token _ _ Hok) as Htok.
  pose proof (mo_waking _ _ Hok) as Hwk. simpl in *. destruct Hp as [Hpc|Hpc]; rewrite Hpc.
  - assert (o = None) as ->.
    { destruct o as [u|]; [|done]. pose proof (mo_owner_in _ _ Hok u eq_refl) as Hu.
      pose proof (proj1 (mo_owner _ _ Hok u Hu) eq_refl) as Eu. simpl in Eu.
      assert (t = u) as -> by (eapply token_unique; [exact Hok|done..|by simpl; rewrite Hpc|by simpl; rewrite Eu]).
      congruence. }
    moves Hok Hpc; [|by intros u [= <-]]. by apply (owner_passes _ t MHeld Hok Ht); simpl; rewrite Hpc.
  - rewrite decide_True by (by apply (mo_owner _ _ Hok)). moves Hok Hpc.
    by apply (owner_passes _ t MRelease Hok Ht); simpl; rewrite Hpc.
Qed.

(** The steps that take the queue's lock. *)
Lemma queue_step_ok o c w k l pc t :
  mutex_ok ths (Mutex o c w k l pc) → t ∈ ths → pc t = MAwait ∨ pc t = MWake →
  match mutex_step t (Mutex o c w k l pc) with
  | Some (Ok s') => mutex_ok ths s'
  | Some _ => False
  | None => k = true
  end.
Proof.
  intros Hok Ht Hp. pose proof (mo_count _ _ Hok) as Hcnt. pose proof (mo_token _ _ Hok) as Htok.
  pose proof (mo_waking _ _ Hok) as Hwk. simpl in *.
  destruct Hp as [Hpc|Hpc]; rewrite Hpc; (destruct k; [done|]).
  - destruct (l t) eqn:El; [|by apply queue_ok]. moves Hok Hpc.
    intros u. unfold upd. case_decide; [by subst|apply (mo_spin_lock _ _ Hok)].
  - destruct w as [|u w]; [|by apply wake_ok]. moves Hok Hpc.
Qed.

Lemma mutex_step_ok s t :
  mutex_ok ths s → t ∈ ths →
  match mutex_step t s with
  | Some (Ok s') => mutex_ok ths s'
  | Some _ => False
  | None => mutex_blocked t s
  end.
Proof.
  intros Hok Ht. destruct s as [o c w k l pc].
  pose proof (count_step_ok _ _ _ _ _ _ t Hok Ht) as Hc. pose proof (owner_step_ok _ _ _ _ _ _ t Hok Ht) as Ho.
  pose proof (queue_step_ok _ _ _ _ _ _ t Hok Ht) as Hq.
  pose proof (mo_count _ _ Hok) as Hcnt. pose proof (mo_token _ _ Hok) as Htok.
  pose proof (mo_waking _ _ Hok) as Hwk. unfold mutex_step in *. simpl in *. destruct (pc t) eqn:Hpc.
  - by apply Hc; left.
  - specialize (Hq (or_introl eq_refl)). destruct k; [|by destruct (l t)].
    apply locked_blocked; [done..|]. simpl. rewrite Hpc. left.
  - apply locked_blocked; [done| |simpl; rewrite Hpc; right; left].
    pose proof (cnt_pos spinning pc ths t Ht ltac:(by rewrite Hpc)). pose proof (mo_spin _ _ Hok).
    simpl in *. destruct k; [done|]. simpl in *. lia.
  - moves Hok Hpc. intros u. unfold upd at 1. case_decide; [done|]. intros Hu. rewrite upd_ne by done.
    by apply (mo_spin_lock _ _ Hok).
  - by apply asleep_blocked.
  - by apply Ho; left.
  - by apply Ho; right.
  - by apply Hc; right.
  - specialize (Hq (or_intror eq_refl)). destruct k; [|done].
    apply locked_blocked; [done..|]. simpl. rewrite Hpc. right; right; left.
  - by apply resume_ok.
Qed.

Lemma mutex_reach_ok s s' : mutex_reach ths s s' → mutex_ok ths s → mutex_ok ths s'.
Proof.
  induction 1 as [|s1 s2 s3 t _ IH Ht Hst]; [done|]. intros Hok. specialize (IH Hok).
  pose proof (mutex_step_ok s2 t IH Ht) as H. by rewrite Hst in H.
Qed.

(** C9: Whatever the interleaving, the mutex excludes: from its initial state no
    assertion of [mutex_lock] or [mutex_unlock] fails, at most one thread holds
    the mutex, [owner] names it, and a thread that cannot step is asleep, on the
    wait queue or about to be resumed, or waits for a lock because some thread
    spins on its own lock, left held by an earlier wait (see
    [mutex_thread_lock_deadlock]). *)
Theorem mutex_exclusion l s t u :
  mutex_reach ths (mutex_init l) s → t ∈ ths → u ∈ ths →
  (m_pc s t = MHeld → m_pc s u = MHeld → t = u) ∧
  (m_pc s t = MHeld ↔ owner s = Some t) ∧
  match mutex_step t s with
  | Some (Ok _) => True
  | Some _ => False
  | None => mutex_blocked t s
  end.
Proof.
  intros Hr Ht Hu. pose proof (mutex_reach_ok _ _ Hr (mutex_init_ok ths l)) as Hok. split_and!.
  - intros H1 H2. eapply token_unique; [done..|by rewrite H1|by rewrite H2].
  - by rewrite (mo_owner _ _ Hok t Ht).
  - pose proof (mutex_step_ok s t Hok Ht) as H. by destruct (mutex_step t s) as [[| |]|].
Qed.

(** Nobody owns the mutex or is about to pass it on, yet it counts as taken. *)
Definition mutex_lost (s : mutex) : Prop := cnt token (m_pc s) ths = 0 ∧ 1 ≤ count s.

Lemma mutex_lost_step s t s' :
  mutex_ok ths s → t ∈ ths → mutex_lost s → mutex_step t s = Some (Ok s') → mutex_lost s'.
Proof.
  intros Hok Ht [H0 H1] Hst. destruct s as [o c w k l pc].
  assert (token (pc t) = false) as Hf.
  { destruct (token (pc t)) eqn:E; [|done]. pose proof (cnt_pos token pc ths t Ht E). simpl in *. lia. }
  pose proof (mo_count _ _ Hok) as Hc. unfold mutex_lost, mutex_step in *. simpl in *.
  assert (cnt counted (upd pc t MAwait) ths ≤ Z.of_nat (length ths)) as Hb by apply cnt_range.
  rewrite (cnt_upd _ _ _ _ _ Hnd Ht) in Hb.
  destruct (pc t) eqn:Hpc; try done; simpl in *.
  - rewrite w32_small, (proj2 (Z.leb_le _ _)) in Hst by lia. injection Hst as <-. simpl. moved Ht Hpc. lia.
  - destruct k; [done|]. destruct (l t); injection Hst as <-; simpl; moved Ht Hpc; lia.
  - injection Hst as <-. simpl. moved Ht Hpc. lia.
Qed.

Lemma mutex_lost_reach s s' :
  mutex_reach ths s s' → mutex_ok ths s → mutex_lost s → mutex_ok ths s' ∧ mutex_lost s'.
Proof.
  induction 1 as [|s1 s2 s3 t _ IH Ht Hst]; [done|]. intros Hok Hl. destruct (IH Hok Hl) as [Hok2 Hl2].
  split; [|by eapply mutex_lost_step]. pose proof (mutex_step_ok s2 t Hok2 Ht) as H. by rewrite Hst in H.
Qed.

(** One thread spins on its own lock, which it holds, and another waits for the
    queue's lock to wake a waiter. *)
Definition mutex_jam (t u : Z) (s : mutex) : Prop := m_pc s t = MWake ∧ m_pc s u = MSpin.

Lemma mutex_jam_step t u s v s' :
  mutex_ok ths s → v ∈ ths → u ∈ ths → mutex_jam t u s → mutex_step v s = Some (Ok s') → mutex_jam t u s'.
Proof.
  intros Hok Hv Hu [Ht Hu'] Hst. pose proof (cnt_pos spinning (m_pc s) ths u Hu ltac:(by rewrite Hu')) as Hk.
  rewrite <-(mo_spin _ _ Hok) in Hk. pose proof (mo_resumes _ _ Hok v) as Hr. destruct s as [o c w k l pc].
  unfold mutex_jam in *. simpl in *. destruct k; [|simpl in Hk; lia].
  assert (v ≠ t ∧ v ≠ u) as [Hvt Hvu] by (split; intros ->; [rewrite Ht in Hst|rewrite Hu' in Hst]; done).
  destruct (pc v) as [| | | | | | | | |u'] eqn:Hpc; try done.
  1,2,5: injection Hst as <-; simpl; by rewrite !upd_ne by done.
  - destruct o; [done|]. injection Hst as <-. simpl. by rewrite !upd_ne by done.
  - case_decide; [|done]. injection Hst as <-. simpl. by rewrite !upd_ne by done.
  - injection Hst as <-. simpl. destruct (Hr u' Hv eq_refl) as [_ Hq].
    assert (t ≠ u' ∧ u ≠ u') as [? ?]
      by (split; intros <-; [by rewrite Ht in Hq|by rewrite Hu' in Hq]).
    by rewrite !upd_ne by done.
Qed.

Lemma mutex_jam_reach t u s s' :
  mutex_reach ths s s' → u ∈ ths → mutex_ok ths s → mutex_jam t u s → mutex_ok ths s' ∧ mutex_jam t u s'.
Proof.
  induction 1 as [|s1 s2 s3 v _ IH Hv Hst]; [done|]. intros Hu Hok Hj. destruct (IH Hu Hok Hj) as [Hok2 Hj2].
  split; [|by apply (mutex_jam_step t u s2 v)]. pose proof (mutex_step_ok s2 v Hok2 Hv) as H. by rewrite Hst in H.
Qed.

(** Run the threads in the order given. *)
Fixpoint mutex_run (l : list Z) (s : mutex) : option mutex :=
  match l with
  | [] => Some s
  | t :: l' => match mutex_step t s with Some (Ok s') => mutex_run l' s' | _ => None end
  end.

Lemma mutex_run_reach l s0 s s' :
  Forall (λ t, t ∈ ths) l → mutex_reach ths s0 s → mutex_run l s = Some s' → mutex_reach ths s0 s'.
Proof.
  intros Hl. revert s. induction Hl as [|t l Ht _ IH]; intros s Hr; simpl; [congruence|].
  destruct (mutex_step t s) as [[s1| |]|] eqn:E; try done. apply IH. by eapply mutex_next.
Qed.

(** Evaluate the steps of threads known to differ. *)
Ltac run_mutex :=
  unfold mutex_run, mutex_step, mutex_init; simpl;
  repeat first [rewrite upd_eq|rewrite upd_ne by congruence|rewrite decide_True by done|progress simpl].

(** The locks of threads none of whose waits was cut short. *)
Definition unlocked : Z → bool := λ _, false.

(** A wake-up can be lost: with two threads, the unlocking one may look for a
    waiter after the other has found the mutex taken but before it is on the wait
    queue.  In the state this leads to nobody holds the mutex, the second thread
    is on the wait queue, and no thread ever holds the mutex again. *)
Theorem mutex_lost_wakeup t u :
  t ∈ ths → u ∈ ths → t ≠ u →
  ∃ s, mutex_run [t; t; u; t; t; t; u; u] (mutex_init unlocked) = Some s ∧
    mutex_reach ths (mutex_init unlocked) s ∧
    owner s = None ∧ m_pc s t = MOut ∧ waiters s = [u] ∧
    ∀ s' v, mutex_reach ths s s' → v ∈ ths → m_pc s' v ≠ MHeld.
Proof.
  intros Ht Hu Hne.
  assert (∃ s, mutex_run [t; t; u; t; t; t; u; u] (mutex_init unlocked) = Some s ∧ owner s = None ∧ count s = 1 ∧
    waiters s = [u] ∧ ∀ v, m_pc s v = if decide (v = u) then MAsleep else MOut)
    as (s & Hrun & Ho & Hc & Hw & Hp).
  { run_mutex. eexists. split; [done|]. split_and!; try done.
    intros v. unfold m_pc, upd. repeat case_decide; congruence. }
  assert (mutex_reach ths (mutex_init unlocked) s) as Hr.
  { eapply mutex_run_reach; [|apply mutex_here|exact Hrun]. by repeat constructor. }
  exists s. split_and!; try done; [rewrite Hp; by rewrite decide_False|].
  assert (mutex_lost s) as Hl.
  { split; [|lia]. apply cnt_all_false. intros v. rewrite Hp. by case_decide. }
  intros s' v Hr' Hv Hh.
  destruct (mutex_lost_reach _ _ Hr' (mutex_reach_ok _ _ Hr (mutex_init_ok ths _)) Hl) as [Hok' [H0 _]].
  pose proof (cnt_pos token (m_pc s') ths v Hv ltac:(by rewrite Hh)). lia.
Qed.

(** A thread woken between its place on the queue and its reschedule keeps its own
    lock.  The next time it finds the mutex taken it spins on that lock with the
    queue's lock held, and the thread that unlocks the mutex spins too, both for
    ever. *)
Theorem mutex_thread_lock_deadlock t u :
  t ∈ ths → u ∈ ths → t ≠ u →
  ∃ s, mutex_run [t; t; u; u; t; t; t; t; u; u; u; t; t; u; u; t; t] (mutex_init unlocked) = Some s ∧
    mutex_reach ths (mutex_init unlocked) s ∧
    ∀ s', mutex_reach ths s s' → m_pc s' t = MWake ∧ m_pc s' u = MSpin ∧
      mutex_step t s' = None ∧ mutex_step u s' = None.
Proof.
  intros Ht Hu Hne.
  assert (∃ s, mutex_run [t; t; u; u; t; t; t; t; u; u; u; t; t; u; u; t; t] (mutex_init unlocked) = Some s ∧
    mutex_jam t u s) as (s & Hrun & Hj).
  { run_mutex. eexists. split; [done|]. split; unfold m_pc, upd; repeat case_decide; congruence. }
  assert (mutex_reach ths (mutex_init unlocked) s) as Hr.
  { eapply mutex_run_reach; [|apply mutex_here|exact Hrun]. by repeat constructor. }
  exists s. split_and!; try done. intros s' Hr'.
  destruct (mutex_jam_reach t u _ _ Hr' Hu (mutex_reach_ok _ _ Hr (mutex_init_ok ths _)) Hj) as [Hok [H1 H2]].
  pose proof (cnt_pos spinning (m_pc s') ths u Hu ltac:(by rewrite H2)) as Hk.
  rewrite <-(mo_spin _ _ Hok) in Hk. split_and!; try done; destruct s' as [o c w k l pc]; simpl in *.
  - rewrite H1. destruct k; [done|]. simpl in Hk. lia.
  - by rewrite H2.
Qed.
End mutex_safe.

(** Thread 1 holds the mutex, 2 and 3 are asleep on the queue and 4 is about to
    join them. *)
Definition contended : mutex :=
  from_option id (mutex_init unlocked) (mutex_run [1; 1; 2; 2; 3; 2; 3; 3; 4] (mutex_init unlocked)).

Lemma contended_reach : mutex_reach [1; 2; 3; 4] (mutex_init unlocked) contended.
Proof.
  eapply (mutex_run_reach [1; 2; 3; 4] [1; 1; 2; 2; 3; 2; 3; 3; 4]);
    [apply (bool_decide_unpack _); reflexivity|apply mutex_here|reflexivity].
Qed.

Lemma mutex_exclusion_witness :
  owner contended = Some 1 ∧ waiters contended = [2; 3] ∧ m_pc contended 1 = MHeld ∧ m_pc contended 2 = MAsleep ∧
  m_pc contended 4 = MAwait ∧
  (m_pc contended 1 = MHeld → m_pc contended 2 = MHeld → 1 = 2) ∧
  (m_pc contended 1 = MHeld ↔ owner contended = Some 1) ∧
  match mutex_step 1 contended with
  | Some (Ok _) => True
  | Some _ => False
  | None => mutex_blocked [1; 2; 3; 4] 1 contended
  end ∧
  mutex_step 2 contended = None ∧ mutex_blocked [1; 2; 3; 4] 2 contended.
Proof.
  do 5 (split; [reflexivity|]).
  pose proof (mutex_exclusion [1; 2; 3; 4] ltac:(by apply (bool_decide_unpack _)) ltac:(done)
    unlocked contended) as H.
  destruct (H 1 2 contended_reach ltac:(by left) ltac:(by right; left)) as (H1 & H2 & H3).
  destruct (H 2 1 contended_reach ltac:(by right; left) ltac:(by left)) as (_ & _ & H4).
  exact (conj H1 (conj H2 (conj H3 (conj eq_refl H4)))).
Defined.

Lemma mutex_lost_wakeup_witness :
  ∃ s, mutex_run [1; 1; 2; 1; 1; 1; 2; 2] (mutex_init unlocked) = Some s ∧
    mutex_reach [1; 2] (mutex_init unlocked) s ∧
    owner s = None ∧ m_pc s 1 = MOut ∧ waiters s = [2] ∧
    ∀ s' v, mutex_reach [1; 2] s s' → v ∈ [1; 2] → m_pc s' v ≠ MHeld.
Proof.
  apply (mutex_lost_wakeup [1; 2] ltac:(by apply (bool_decide_unpack _)) ltac:(done) 1 2);
    [left|right; left|done].
Defined.

(** ** The semaphore *)

Inductive sem_pc :=
| SOut            (** not using the semaphore *)
| SLocked         (** [semaphore_wait]: holds the queue's lock *)
| SEnqueue        (** the count went below 0; still holds the lock *)
| SPass           (** the count did not; still holds the lock *)
| SQueued         (** on the wait queue, its own lock held, about to reschedule *)
| SAsleep         (** on the wait queue, switched away *)
| SWoken          (** resumed, about to return from [semaphore_wait] *)
| SWake           (** [semaphore_signal]: about to call [waitq_wake_one] *)
| SResume (u : Z). (** took [u] off the queue, about to resume it *)
#[export] Instance sem_pc_eq_dec : EqDecision sem_pc.
Proof. solve_decision. Defined.

(** [sem_signals] and [sem_passes] count the calls of [semaphore_signal] and the
    returns of [semaphore_wait]; [sem_th_lock] is the threads' own locks. *)
Record semaphore := Sem {
  sem_count : Z;
  sem_locked : bool;
  sem_waiters : list Z;
  sem_th_lock : Z → bool;
  sem_pcs : Z → sem_pc;
  sem_signals : Z;
  sem_passes : Z;
}.

Definition sem_init (count : Z) (l : Z → bool) : semaphore := Sem count false [] l (λ _, SOut) 0 0.

(** One step of thread [t]; outside it begins a signal when [signal], else a wait. *)
Definition sem_step (signal : bool) (t : Z) (s : semaphore) : option semaphore :=
  let '(Sem c k w l p g n) := s in
  match p t with
  | SOut =>
      if signal then
        (* ++sem->count <= 0, an atomic_int, outside the lock *)
        Some (Sem (s32 (c + 1)) k w l (upd p t (if s32 (c + 1) <=? 0 then SWake else SOut)) (g + 1) n)
      else if k then None else Some (Sem c true w l (upd p t SLocked) g n)
  | SLocked =>
      (* --sem->count < 0 *)
      Some (Sem (s32 (c - 1)) k w l (upd p t (if s32 (c - 1) <? 0 then SEnqueue else SPass)) g n)
  | SEnqueue =>
      (* waitq_await_locked: spinlock_lock(&thread->lock), ... *)
      if l t then None else Some (Sem c false (w ++ [t]) (upd l t true) (upd p t SQueued) g n)
  | SPass => Some (Sem c false w l (upd p t SOut) g (n + 1))
  | SQueued =>
      (* sched_reschedule: spinlock_unlock(&oldthread->lock), md_switch *)
      Some (Sem c k w (upd l t false) (upd p t SAsleep) g n)
  | SAsleep => None
  | SWoken => Some (Sem c k w l (upd p t SOut) g (n + 1))
  | SWake =>
      (* waitq_wake_one: the first waiter is taken off the queue under its lock *)
      if k then None else
      Some (match w with
            | [] => Sem c k [] l (upd p t SOut) g n
            | u :: w' => Sem c k w' l (upd p t (SResume u)) g n
            end)
  | SResume u =>
      (* thread_resume: its lock stays held if it has not switched away *)
      Some (Sem c k w l (upd (upd p u SWoken) t SOut) g n)
  end.

Inductive sem_reach (ths : list Z) : semaphore → semaphore → Prop :=
| sem_here s : sem_reach ths s s
| sem_next s1 s2 s3 b t :
    sem_reach ths s1 s2 → t ∈ ths → sem_step b t s2 = Some s3 → sem_reach ths s1 s3.

Definition holding (p : sem_pc) : bool :=
  match p with SLocked | SEnqueue | SPass => true | _ => false end.
(** On the wait queue, unless another thread is resuming it. *)
Definition on_queue (p : sem_pc) : bool := match p with SQueued | SAsleep => true | _ => false end.
(** Waiting, or bound to. *)
Definition sleeper (p : sem_pc) : bool := match p with SEnqueue | SQueued | SAsleep => true | _ => false end.
Definition signaller (p : sem_pc) : bool := match p with SWake | SResume _ => true | _ => false end.
Definition passing (p : sem_pc) : bool := match p with SPass | SWoken => true | _ => false end.
Definition target (p : sem_pc) : option Z := match p with SResume u => Some u | _ => None end.
Definition resuming (p : sem_pc) : bool := match p with SResume _ => true | _ => false end.

Record sem_ok (ths : list Z) (c0 : Z) (s : semaphore) : Prop := {
  se_lock : b2z (sem_locked s) = cnt holding (sem_pcs s) ths;
  se_sleep : cnt sleeper (sem_pcs s) ths - cnt signaller (sem_pcs s) ths = Z.max 0 (- sem_count s);
  se_permits : c0 + sem_signals s =
    sem_count s + sem_passes s + cnt passing (sem_pcs s) ths + cnt sleeper (sem_pcs s) ths;
  se_len : Z.of_nat (length (sem_waiters s)) = cnt on_queue (sem_pcs s) ths - cnt resuming (sem_pcs s) ths;
  se_waiters t : t ∈ sem_waiters s ↔
    t ∈ ths ∧ on_queue (sem_pcs s t) = true ∧ ∀ v, v ∈ ths → target (sem_pcs s v) ≠ Some t;
  se_target v u : v ∈ ths → target (sem_pcs s v) = Some u → u ∈ ths ∧ on_queue (sem_pcs s u) = true;
  se_one u v v' : v ∈ ths → v' ∈ ths →
    target (sem_pcs s v) = Some u → target (sem_pcs s v') = Some u → v = v';
  se_nodup : NoDup (sem_waiters s);
  se_passes : 0 ≤ sem_passes s;
}.

Lemma sem_init_ok ths c0 l : 0 ≤ c0 → sem_ok ths c0 (sem_init c0 l).
Proof.
  intros Hc. split; simpl; rewrite ?(cnt_all_false _ (λ _, SOut)) by done; try done; try lia.
  - intros t. split; [by intros ?%elem_of_nil|by intros (_ & ? & _)].
  - apply NoDup_nil_2.
Qed.

Section sem_safe.
Context (ths : list Z) (c0 : Z).
Hypothesis (Hnd : NoDup ths) (Hfew : Z.of_nat (length ths) < 2^31) (Hc0 : 0 ≤ c0).

(** A thread moves that is on the queue before and after or neither, and that
    resumes nobody: what is left to show is about the counters. *)
Lemma sem_move_ok c k w l p g n t p' c' k' l' g' n' :
  sem_ok ths c0 (Sem c k w l p g n) → t ∈ ths →
  on_queue p' = on_queue (p t) → target (p t) = None → target p' = None →
  b2z k' = b2z k - b2z (holding (p t)) + b2z (holding p') →
  cnt sleeper p ths - b2z (sleeper (p t)) + b2z (sleeper p') -
    (cnt signaller p ths - b2z (signaller (p t)) + b2z (signaller p')) = Z.max 0 (- c') →
  g' - g = c' - c + n' - n - b2z (passing (p t)) + b2z (passing p') - b2z (sleeper (p t)) + b2z (sleeper p') →
  0 ≤ n' → sem_ok ths c0 (Sem c' k' w l' (upd p t p') g' n').
Proof.
  intros [] Ht Hq H1 H2 Hk Hs Hg Hn. simpl in *.
  assert (resuming (p t) = false ∧ resuming p' = false) as [E1 E2] by (by destruct (p t), p').
  assert (∀ u, on_queue (upd p t p' u) = on_queue (p u)) as Hqs
    by (intros u; unfold upd; case_decide; by subst).
  assert (∀ v, target (upd p t p' v) = target (p v)) as Hts
    by (intros v; unfold upd; case_decide; subst; congruence).
  split; simpl; rewrite ?(cnt_upd _ _ _ _ _ Hnd Ht), ?E1, ?E2, ?Hq; simpl; try done; try lia.
  - intros u. rewrite se_waiters0, Hqs. by setoid_rewrite Hts.
  - intros v u. rewrite Hts, Hqs. apply se_target0.
  - intros u v v'. rewrite !Hts. apply se_one0.
Qed.

Lemma sem_queue_ok c k w l p g n t :
  sem_ok ths c0 (Sem c k w l p g n) → t ∈ ths → p t = SEnqueue →
  sem_ok ths c0 (Sem c false (w ++ [t]) (upd l t true) (upd p t SQueued) g n).
Proof.
  intros [] Ht Hpc. simpl in *. pose proof (cnt_pos holding p ths t Ht ltac:(by rewrite Hpc)).
  pose proof (b2z_range k).
  assert (∀ v, target (upd p t SQueued v) = target (p v)) as Hts
    by (intros v; unfold upd; case_decide; subst; by rewrite ?Hpc).
  assert (∀ v, v ∈ ths → target (p v) ≠ Some t) as Hnt
    by (intros v Hv Hr; destruct (se_target0 v t Hv Hr) as [_ Hq]; by rewrite Hpc in Hq).
  split; simpl; rewrite ?(cnt_upd _ _ _ _ _ Hnd Ht), ?Hpc; simpl; try done; try lia.
  - rewrite length_app. simpl. lia.
  - intros u. setoid_rewrite Hts. rewrite elem_of_app, se_waiters0, list_elem_of_singleton.
    destruct (decide (u = t)) as [->|]; [rewrite upd_eq, Hpc|rewrite upd_ne by done]; naive_solver.
  - intros v u Hv. rewrite Hts. intros Hu. destruct (se_target0 v u Hv Hu). split; [done|].
    rewrite upd_ne; [done|]. intros ->. by destruct (Hnt v Hv).
  - intros u v v'. rewrite !Hts. apply se_one0.
  - apply NoDup_app. split_and!; [done| |apply NoDup_singleton].
    intros u Hu ->%list_elem_of_singleton. apply se_waiters0 in Hu as (_ & Hq & _). by rewrite Hpc in Hq.
Qed.

Lemma sem_wake_ok c k w l p g n t u :
  sem_ok ths c0 (Sem c k (u :: w) l p g n) → t ∈ ths → p t = SWake →
  sem_ok ths c0 (Sem c k w l (upd p t (SResume u)) g n).
Proof.
  intros [] Ht Hpc. simpl in *. apply NoDup_cons in se_nodup0 as [Huw ND].
  destruct (proj1 (se_waiters0 u)) as (Hu & Hqu & Hru); [left|].
  assert (∀ v, on_queue (upd p t (SResume u) v) = on_queue (p v)) as Hqs
    by (intros v; unfold upd; case_decide; subst; by rewrite ?Hpc).
  split; simpl; rewrite ?(cnt_upd _ _ _ _ _ Hnd Ht), ?Hpc; simpl; try done; try lia.
  - intros v. rewrite Hqs. pose proof (se_waiters0 v) as Ha. rewrite elem_of_cons in Ha.
    destruct (decide (v = u)) as [->|Hvu].
    + split; [done|]. intros (_ & _ & Hn). by destruct (Hn t Ht); rewrite upd_eq.
    + assert ((∀ v', v' ∈ ths → target (upd p t (SResume u) v') ≠ Some v) ↔
              (∀ v', v' ∈ ths → target (p v') ≠ Some v)) as ->; [|naive_solver].
      split; intros Hn v' Hv'; specialize (Hn v' Hv'); revert Hn; unfold upd; case_decide; subst;
        rewrite ?Hpc; simpl; congruence.
  - intros v v' Hv. rewrite Hqs. unfold upd at 1. case_decide; [|by apply se_target0]. by intros [= <-].
  - intros v v1 v2 Hv1 Hv2. unfold upd. repeat case_decide; subst; try done; [| |by apply se_one0].
    + intros [= ->] Hr. by destruct (Hru v2 Hv2).
    + intros Hr [= ->]. by destruct (Hru v1 Hv1).
Qed.

Lemma sem_resume_ok c k w l p g n t u :
  sem_ok ths c0 (Sem c k w l p g n) → t ∈ ths → p t = SResume u →
  sem_ok ths c0 (Sem c k w l (upd (upd p u SWoken) t SOut) g n).
Proof.
  intros [] Ht Hpc. simpl in *.
  destruct (se_target0 t u Ht) as [Hu Hqu]; [by rewrite Hpc|].
  assert (t ≠ u) as Hne by (intros ->; by rewrite Hpc in Hqu).
  assert (target (p u) = None) as Hpu by (by destruct (p u)).
  assert (∀ v, target (upd (upd p u SWoken) t SOut v) = if decide (v = t) then None else target (p v)) as Hts
    by (intros v; unfold upd; repeat case_decide; by subst).
  assert (holding (p u) = false ∧ sleeper (p u) = true ∧ signaller (p u) = false ∧ passing (p u) = false ∧
    resuming (p u) = false) as (E1 & E2 & E3 & E4 & E5) by (by destruct (p u)).
  split; simpl; rewrite ?(cnt_upd _ _ t _ _ Hnd Ht), ?upd_ne, ?(cnt_upd _ _ u _ _ Hnd Hu), ?Hpc, ?Hqu,
    ?E1, ?E2, ?E3, ?E4, ?E5 by done; simpl; try lia; try done.
  - intros v. rewrite se_waiters0. setoid_rewrite Hts. unfold upd.
    case_decide; [|case_decide]; subst.
    + rewrite Hpc. simpl. by split; intros (_ & ? & _).
    + simpl. split; [|by intros (_ & ? & _)]. intros (_ & _ & Hn). by destruct (Hn t Ht); rewrite Hpc.
    + split; intros (? & ? & Hn); (split_and!; [done..|]); intros v' Hv'; specialize (Hn v' Hv').
      * by case_decide.
      * case_decide; [|done]. subst. rewrite Hpc. simpl. congruence.
  - intros v v' Hv. rewrite Hts. case_decide; [done|]. intros Hr. destruct (se_target0 v v' Hv Hr) as [? Hq].
    split; [done|]. rewrite !upd_ne; [done| |].
    + intros ->. assert (v = t) by (apply (se_one0 u); rewrite ?Hpc; done). done.
    + intros ->. by rewrite Hpc in Hq.
  - intros v v1 v2 Hv1 Hv2. rewrite !Hts. repeat case_decide; try done. by apply se_one0.
Qed.

(** While the lock is free, everyone bound to wait is on the wait queue or being
    resumed. *)
Lemma sleepers_queued s :
  sem_ok ths c0 s → sem_locked s = false →
  cnt sleeper (sem_pcs s) ths = Z.of_nat (length (sem_waiters s)) + cnt resuming (sem_pcs s) ths.
Proof.
  intros Hok Hk. rewrite (se_len _ _ _ Hok). pose proof (se_lock _ _ _ Hok) as Hl. rewrite Hk in Hl.
  assert (cnt sleeper (sem_pcs s) ths = cnt on_queue (sem_pcs s) ths); [|lia].
  simpl in Hl. clear Hk Hok. induction ths as [|t l IH]; simpl in *; [done|].
  assert (cnt holding (sem_pcs s) l = 0 ∧ holding (sem_pcs s t) = false) as [H1 H2].
  { pose proof (cnt_range holding (sem_pcs s) l). destruct (holding (sem_pcs s t)); simpl in Hl; [lia|done]. }
  apply NoDup_cons in Hnd as [_ Hnd']. rewrite IH; [|done|simpl in Hfew; lia|done].
  by destruct (sem_pcs s t).
Qed.

Lemma wake_finds s t :
  sem_ok ths c0 s → t ∈ ths → sem_pcs s t = SWake → sem_locked s = false → sem_waiters s ≠ [].
Proof.
  intros Hok Ht Hpc Hk Hw. pose proof (sleepers_queued s Hok Hk) as Hq. rewrite Hw in Hq. simpl in Hq.
  pose proof (se_sleep _ _ _ Hok).
  assert (∀ f : sem_pc → bool, (∀ q, f q = signaller q && negb (resuming q)) →
    cnt signaller (sem_pcs s) ths = cnt f (sem_pcs s) ths + cnt resuming (sem_pcs s) ths) as Hsplit.
  { intros f Hf. clear - Hf. induction ths as [|v l IH]; simpl; [done|]. rewrite IH, Hf.
    destruct (sem_pcs s v); simpl; lia. }
  rewrite (Hsplit (λ q, signaller q && negb (resuming q)) (λ q, eq_refl)) in *.
  pose proof (cnt_pos (λ q, signaller q && negb (resuming q)) (sem_pcs s) ths t Ht ltac:(by rewrite Hpc)). lia.
Qed.

Lemma sem_step_ok b t s s' :
  sem_ok ths c0 s → t ∈ ths → sem_step b t s = Some s' → c0 + sem_signals s' < 2^31 →
  sem_ok ths c0 s'.
Proof.
  intros Hok Ht Hst Hg. pose proof (wake_finds s t Hok Ht) as Hwf.
  destruct s as [c k w l p g n]. simpl in *.
  pose proof (se_permits _ _ _ Hok) as Hp. pose proof (se_sleep _ _ _ Hok) as Hs.
  pose proof (se_passes _ _ _ Hok) as Hn. pose proof (se_lock _ _ _ Hok) as Hl. simpl in *.
  pose proof (cnt_range passing p ths). pose proof (cnt_range sleeper p ths).
  pose proof (cnt_range signaller p ths). pose proof (b2z_range k).
  destruct (p t) as [| | | | | | | |u] eqn:Hpc.
  - destruct b; [|destruct k; [done|]]; injection Hst as <-; simpl in *; rewrite ?s32_small in * by lia;
      eapply sem_move_ok; try exact Hok; rewrite ?Hpc; simpl; try done; try lia;
      destruct (Z.leb_spec (c + 1) 0); simpl; try done; lia.
  - injection Hst as <-. simpl in *. rewrite s32_small in * by lia.
    eapply sem_move_ok; try exact Hok; rewrite ?Hpc; try done;
      destruct (Z.ltb_spec (c - 1) 0); simpl; try done; lia.
  - destruct (l t); [done|]. injection Hst as <-. by apply sem_queue_ok with k.
  - injection Hst as <-. pose proof (cnt_pos holding p ths t Ht ltac:(by rewrite Hpc)).
    eapply sem_move_ok; try exact Hok; rewrite ?Hpc; simpl; try done; lia.
  - injection Hst as <-. eapply sem_move_ok; try exact Hok; rewrite ?Hpc; simpl; try done; lia.
  - done.
  - injection Hst as <-. eapply sem_move_ok; try exact Hok; rewrite ?Hpc; simpl; try done; lia.
  - destruct k; [done|]. destruct w as [|u w]; [by destruct Hwf|]. injection Hst as <-. by apply sem_wake_ok.
  - injection Hst as <-. by apply sem_resume_ok.
Qed.

Lemma sem_signals_mono b t s s' : sem_step b t s = Some s' → sem_signals s ≤ sem_signals s'.
Proof.
  destruct s as [c k w l p g n]. simpl.
  destruct (p t), b, k, (l t), w; intros; simplify_eq; simpl; lia.
Qed.

Lemma sem_reach_ok l s :
  sem_reach ths (sem_init c0 l) s → c0 + sem_signals s < 2^31 → sem_ok ths c0 s.
Proof.
  intros Hr. remember (sem_init c0 l) as s0 eqn:E.
  assert (sem_ok ths c0 s0) as H0 by (rewrite E; by apply sem_init_ok). clear E.
  induction Hr as [|s1 s2 s3 b t _ IH Ht Hst]; [done|]. intros Hg.
  pose proof (sem_signals_mono b t s2 s3 Hst).
  eapply sem_step_ok; [apply IH; [done|lia]|exact Ht|exact Hst|done].
Qed.

(** Why a thread has no step. *)
Definition sem_blocked (t : Z) (s : semaphore) : Prop :=
  (sem_pcs s t = SAsleep ∧ (t ∈ sem_waiters s ∨ ∃ v, v ∈ ths ∧ sem_pcs s v = SResume t)) ∨
  (sem_pcs s t = SEnqueue ∧ sem_th_lock s t = true) ∨
  (sem_pcs s t ∈ [SOut; SWake] ∧ ∃ u, u ∈ ths ∧ holding (sem_pcs s u) = true).

Lemma sem_step_none b t s : sem_ok ths c0 s → t ∈ ths → sem_step b t s = None → sem_blocked t s.
Proof.
  intros Hok Ht Hst. pose proof (se_lock _ _ _ Hok) as Hl. pose proof (se_waiters _ _ _ Hok t) as Hw.
  assert (sem_locked s = true → ∃ u, u ∈ ths ∧ holding (sem_pcs s u) = true) as Hh.
  { intros E. apply cnt_exists. rewrite <-Hl, E. simpl. lia. }
  destruct s as [c k w l p g n]. unfold sem_blocked. simpl in *. destruct (p t) eqn:Hpc; try done.
  - right; right. split; [left|]. destruct b, k; try done. by apply Hh.
  - right; left. split; [done|]. by destruct (l t).
  - left. split; [done|]. destruct (decide (t ∈ w)) as [|Hn]; [by left|right].
    destruct (decide (Exists (λ v, target (p v) = Some t) ths)) as [(v & Hv & Hr)%Exists_exists|Hno].
    + exists v. split; [done|]. by destruct (p v); simplify_eq/=.
    + destruct Hn. apply Hw. split_and!; [done..|]. intros v Hv Hr. apply Hno, Exists_exists. by exists v.
  - right; right. split; [right; left|]. destruct k; try done. by apply Hh.
Qed.

(** C32: Whatever the interleaving, as long as the permits given are fewer than
    2^31, the semaphore loses no wake-up and gives no more permits than there
    are: a signaller that looks for a waiter finds one, the waits that returned are at most the initial count
    and the signals, when no thread is in the middle of an operation a thread
    sleeps only if all permits are used, and a thread that cannot step is asleep,
    on the wait queue or about to be resumed, or spins on its own lock, left held
    by an earlier wait, or waits for the queue's lock, which some thread holds. *)
Theorem semaphore_correct l s :
  sem_reach ths (sem_init c0 l) s → c0 + sem_signals s < 2^31 →
  (∀ t, t ∈ ths → sem_pcs s t = SWake → sem_locked s = false → sem_waiters s ≠ []) ∧
  sem_passes s ≤ c0 + sem_signals s ∧
  ((∀ t, t ∈ ths → sem_pcs s t = SOut ∨ sem_pcs s t = SAsleep) → sem_waiters s ≠ [] →
     sem_passes s = c0 + sem_signals s) ∧
  ∀ b t, t ∈ ths → sem_step b t s = None → sem_blocked t s.
Proof.
  intros Hr Hg. pose proof (sem_reach_ok l s Hr Hg) as Hok.
  pose proof (se_permits _ _ _ Hok) as Hp. pose proof (se_sleep _ _ _ Hok) as Hs.
  pose proof (cnt_range passing (sem_pcs s) ths). pose proof (cnt_range sleeper (sem_pcs s) ths).
  pose proof (cnt_range signaller (sem_pcs s) ths). split_and!.
  - intros t Ht Hpc. by apply wake_finds with t.
  - lia.
  - intros Hq Hw.
    assert (∀ f : sem_pc → bool, f SOut = false → f SAsleep = false → cnt f (sem_pcs s) ths = 0) as Hz.
    { intros f F1 F2. destruct (decide (1 ≤ cnt f (sem_pcs s) ths)) as [(t & Ht & Hf)%cnt_exists|];
        [by destruct (Hq t Ht) as [E|E]; rewrite E in Hf; congruence|].
      pose proof (cnt_range f (sem_pcs s) ths). lia. }
    rewrite (Hz passing), (Hz signaller) in * by done.
    assert (sem_locked s = false) as Hk.
    { pose proof (se_lock _ _ _ Hok) as Hl. rewrite (Hz holding) in Hl by done. by destruct (sem_locked s). }
    pose proof (sleepers_queued s Hok Hk) as Hsl. rewrite (Hz resuming) in Hsl by done.
    destruct (sem_waiters s); [done|]. simpl in *. lia.
  - intros b t Ht. by apply sem_step_none.
Qed.
End sem_safe.

(** Run the threads in the order given. *)
Fixpoint sem_run (l : list (bool * Z)) (s : semaphore) : option semaphore :=
  match l with
  | [] => Some s
  | (b, t) :: l' => match sem_step b t s with Some s' => sem_run l' s' | None => None end
  end.

Lemma sem_run_reach ths l s0 s s' :
  Forall (λ x, x.2 ∈ ths) l → sem_reach ths s0 s → sem_run l s = Some s' → sem_reach ths s0 s'.
Proof.
  intros Hl. revert s. induction Hl as [|[b t] l Ht _ IH]; intros s Hr; simpl; [congruence|].
  destruct (sem_step b t s) as [s1|] eqn:E; [|done]. apply IH. by eapply sem_next.
Qed.

(** One permit, taken by thread 1; 2 and 3 sleep; 4 has signalled and is about to
    wake the first of them. *)
Definition sem_schedule (wake : bool) : list (bool * Z) :=
  [(false, 1); (false, 1); (false, 1)] ++
  [(false, 2); (false, 2); (false, 2); (false, 2)] ++
  [(false, 3); (false, 3); (false, 3); (false, 3)] ++
  (if wake then [(true, 4)] else []).
Definition sem_contended (wake : bool) : semaphore :=
  from_option id (sem_init 1 unlocked) (sem_run (sem_schedule wake) (sem_init 1 unlocked)).

Lemma sem_contended_reach wake : sem_reach [1; 2; 3; 4] (sem_init 1 unlocked) (sem_contended wake).
Proof.
  eapply (sem_run_reach _ (sem_schedule wake)); [|apply sem_here|]; destruct wake; try reflexivity;
    apply (bool_decide_unpack _); reflexivity.
Qed.

(** The first two clauses say something of the state in which 4 is to wake a
    waiter, the third of the one before. *)
Lemma semaphore_correct_witness :
  (sem_pcs (sem_contended true) 4 = SWake ∧ sem_locked (sem_contended true) = false ∧
   sem_waiters (sem_contended true) = [2; 3] ∧ sem_waiters (sem_contended true) ≠ [] ∧
   sem_passes (sem_contended true) ≤ 1 + sem_signals (sem_contended true)) ∧
  (sem_waiters (sem_contended false) ≠ [] ∧
   sem_passes (sem_contended false) = 1 + sem_signals (sem_contended false) ∧
   sem_blocked [1; 2; 3; 4] 2 (sem_contended false)).
Proof.
  pose proof (semaphore_correct [1; 2; 3; 4] 1 ltac:(by apply (bool_decide_unpack _)) ltac:(done) ltac:(done)
    unlocked) as H.
  split.
  - do 3 (split; [reflexivity|]).
    destruct (H (sem_contended true) (sem_contended_reach true) ltac:(reflexivity)) as (H1 & H2 & _).
    split; [|exact H2]. apply (H1 4); [by right; right; right; left|reflexivity..].
  - destruct (H (sem_contended false) (sem_contended_reach false) ltac:(reflexivity)) as (_ & _ & H3 & H4).
    split; [discriminate|]. split.
    + apply H3; [|discriminate]. intros t Ht. repeat (apply elem_of_cons in Ht as [->|Ht]);
        [left; reflexivity|right; reflexivity|right; reflexivity|left; reflexivity|by apply elem_of_nil in Ht].
    + apply (H4 false 2); [by right; left|reflexivity].
Defined.
