(* ===== verification/Sched.v ===== *)
(** * Threads and the scheduler: kern/task.c, x86_64/machdep.c

    Threads, CPUs and wait queues at their addresses, with the spinlocks that
    guard them.  Every operation names the CPU it runs on ([curcpu()]), with
    interrupts off.  A spinlock that is already held makes the operation spin:
    no step of the model on its own frees it, so the model treats it like a stop.
    A thread that goes to sleep leaves [sched_reschedule] when it is scheduled
    again; the model's [sched_reschedule] ends where the CPU has switched to the
    next thread. *)

From S2P Require Import Prelude Callout.
Open Scope Z_scope.

Inductive thread_state := kThreadRunnable | kThreadRunning | kThreadWaiting | kThreadExiting.
#[export] Instance thread_state_eq_dec : EqDecision thread_state.
Proof. solve_decision. Defined.

(** The part of [md_intr_frame_t] that [thread_new] sets up. *)
Record md_intr_frame := Frame {
  f_cs : Z; f_ss : Z; f_rflags : Z; f_rip : Z; f_rdi : Z; f_rbp : Z; f_rsp : Z;
}.

Record thread_t := Thread {
  th_lock : bool;
  th_wq : Z;
  th_wqres : Z;
  th_cpu : Z;
  th_state : thread_state;
  th_kstack : Z;
  th_ustack : Z;
  th_task : Z;
  th_frame : md_intr_frame;
  th_fs : Z;
}.

Record cpu_t := Cpu {
  curthread : Z;
  idlethread : Z;
  runqueue : list Z;
  preempted : bool;
  inInterrupt : bool;
  timeslicer : Z;          (** the address of the callout *)
  timer : cpu_timer;
  md_old : Z;
  regs : md_intr_frame;    (** the registers of the thread that runs *)
  fsbase : Z;
}.

(** [waitq_t] *)
Record waitq := Waitq { wq_lock : bool; wq_waiters : list Z }.

Record sched := Sched {
  threads : gmap Z thread_t;
  cpus : gmap Z cpu_t;
  cpu_array : list Z;      (** [cpus], an array of [ncpu] pointers *)
  lastcpu : Z;
  sched_lock : bool;
  waitqs : gmap Z waitq;
  task_threads : gmap Z (list Z);
  ipis : list Z;           (** the reschedule interrupts sent, last first *)
}.

(** ** Access *)

Definition kWQSuccess : Z := 0.
Definition KWQTimeout : Z := -1.

Definition get_thread (t : Z) : M sched thread_t := λ s, deref (threads s !! t) "thread" s.
Definition get_cpu (c : Z) : M sched cpu_t := λ s, deref (cpus s !! c) "cpu" s.
Definition get_waitq (w : Z) : M sched waitq := λ s, deref (waitqs s !! w) "waitq" s.

Definition set_thread (t : Z) (th : thread_t) (s : sched) : sched :=
  Sched (<[t := th]> (threads s)) (cpus s) (cpu_array s) (lastcpu s) (sched_lock s) (waitqs s)
    (task_threads s) (ipis s).
Definition set_cpu (c : Z) (p : cpu_t) (s : sched) : sched :=
  Sched (threads s) (<[c := p]> (cpus s)) (cpu_array s) (lastcpu s) (sched_lock s) (waitqs s)
    (task_threads s) (ipis s).
Definition set_waitq (w : Z) (q : waitq) (s : sched) : sched :=
  Sched (threads s) (cpus s) (cpu_array s) (lastcpu s) (sched_lock s) (<[w := q]> (waitqs s))
    (task_threads s) (ipis s).
Definition set_sched_lock (b : bool) (s : sched) : sched :=
  Sched (threads s) (cpus s) (cpu_array s) (lastcpu s) b (waitqs s) (task_threads s) (ipis s).

Definition th_set_state (st : thread_state) (t : thread_t) : thread_t :=
  Thread (th_lock t) (th_wq t) (th_wqres t) (th_cpu t) st (th_kstack t) (th_ustack t) (th_task t)
    (th_frame t) (th_fs t).
Definition th_set_lock (b : bool) (t : thread_t) : thread_t :=
  Thread b (th_wq t) (th_wqres t) (th_cpu t) (th_state t) (th_kstack t) (th_ustack t) (th_task t)
    (th_frame t) (th_fs t).
Definition th_set_frame (f : md_intr_frame) (fs : Z) (t : thread_t) : thread_t :=
  Thread (th_lock t) (th_wq t) (th_wqres t) (th_cpu t) (th_state t) (th_kstack t) (th_ustack t)
    (th_task t) f fs.
Definition cpu_set_queue (q : list Z) (p : cpu_t) : cpu_t :=
  Cpu (curthread p) (idlethread p) q (preempted p) (inInterrupt p) (timeslicer p) (timer p)
    (md_old p) (regs p) (fsbase p).
Definition cpu_set_preempted (b : bool) (p : cpu_t) : cpu_t :=
  Cpu (curthread p) (idlethread p) (runqueue p) b (inInterrupt p) (timeslicer p) (timer p)
    (md_old p) (regs p) (fsbase p).
Definition cpu_set_timer (t : cpu_timer) (p : cpu_t) : cpu_t :=
  Cpu (curthread p) (idlethread p) (runqueue p) (preempted p) (inInterrupt p) (timeslicer p) t
    (md_old p) (regs p) (fsbase p).

(** [spinlock_lock(&sched_lock)] *)
Definition lock_sched : M sched unit :=
  s ← mget; if sched_lock s then fatal "spins" else mput (set_sched_lock true s).
Definition unlock_sched : M sched unit := mmodify (set_sched_lock false).

(** An operation on the timer of CPU [c]. *)
Definition on_timer {A} (c : Z) (m : M cpu_timer A) : M sched A := λ s,
  match cpus s !! c with
  | None => Undef "cpu"
  | Some p =>
      match m (timer p) with
      | Ok (a, t) => Ok (a, set_cpu c (cpu_set_timer t p) s)
      | Fatal w => Fatal w
      | Undef w => Undef w
      end
  end.

(** ** Scheduling *)

Definition nextcpu : M sched Z :=
  s ← mget;
  let n := if Z.of_nat (length (cpu_array s)) <=? lastcpu s + 1 then 0 else lastcpu s + 1 in
  mput (Sched (threads s) (cpus s) (cpu_array s) n (sched_lock s) (waitqs s) (task_threads s) (ipis s));;
  deref (cpu_array s !! Z.to_nat n) "cpus[lastcpu]".

Definition sched_next (c : Z) : M sched Z :=
  s ← mget;
  massert (sched_lock s) "ASSERT_SPINLOCK_HELD(&sched_lock)";;
  p ← get_cpu c;
  match runqueue p with
  | [] => mret (idlethread p)
  | cand :: _ =>
      mmodify (set_cpu c (cpu_set_queue (tq_remove (λ x, x) cand (runqueue p)) p));;
      mret cand
  end.

(** Case 240 of [handle_int]: the registers of the old thread are saved, those
    of the current one loaded. *)
Definition switch_interrupt (c : Z) : M sched unit :=
  p ← get_cpu c;
  old ← get_thread (md_old p);
  mmodify (set_thread (md_old p) (th_set_frame (regs p) (fsbase p) old));;
  next ← get_thread (curthread p);
  mmodify (set_cpu c (Cpu (curthread p) (idlethread p) (runqueue p) (preempted p) (inInterrupt p)
    (timeslicer p) (timer p) (md_old p) (th_frame next) (th_fs next)));;
  unlock_sched.

(** [md_switch], with the interrupt it raises. *)
Definition md_switch (c from to : Z) : M sched unit :=
  p ← get_cpu c;
  mmodify (set_cpu c (Cpu to (idlethread p) (runqueue p) (preempted p) (inInterrupt p) (timeslicer p)
    (timer p) from (regs p) (fsbase p)));;
  switch_interrupt c.

(** The timeslicing callout is started again if it is not pending. *)
Definition start_timeslicer (slicer : Z) : M cpu_timer unit :=
  co ← get_callout slicer;
  if decide (co_state co = kCalloutDisabled) then
    alter_callout slicer (set_nanosecs NS_PER_S);;
    callout_enqueue slicer
  else mret ().

Definition sched_reschedule (c : Z) : M sched unit :=
  lock_sched;;
  p ← get_cpu c;
  let oldthread := curthread p in
  old ← get_thread oldthread;
  (if oldthread =? idlethread p then
     massert (bool_decide (th_state old = kThreadRunning)) "assert(oldthread->state == kThreadRunning)"
   else
     match th_state old with
     | kThreadWaiting => mmodify (set_thread oldthread (th_set_lock false old))
     | kThreadExiting => mret ()
     | kThreadRunning => mmodify (set_cpu c (cpu_set_queue (runqueue p ++ [oldthread]) p))
     | kThreadRunnable => mret ()
     end);;
  next ← sched_next c;
  nt ← get_thread next;
  mmodify (set_thread next (th_set_state kThreadRunning nt));;
  on_timer c (start_timeslicer (timeslicer p));;
  if next =? oldthread then unlock_sched else md_switch c oldthread next.

(** [sched_timeslice], and the callback of every timeslicer. *)
Definition sched_timeslice (c : Z) : M sched unit :=
  p ← get_cpu c; mmodify (set_cpu c (cpu_set_preempted true p)).

Definition thread_resume (c t : Z) : M sched unit :=
  lock_sched;;
  th ← get_thread t;
  mmodify (set_thread t (th_set_state kThreadRunnable th));;
  p ← get_cpu (th_cpu th);
  mmodify (set_cpu (th_cpu th) (cpu_set_queue (t :: runqueue p) p));;
  unlock_sched;;
  if th_cpu th =? c then
    p ← get_cpu c;
    if inInterrupt p then mmodify (set_cpu c (cpu_set_preempted true p))
    else sched_reschedule c
  else mmodify (λ s, Sched (threads s) (cpus s) (cpu_array s) (lastcpu s) (sched_lock s) (waitqs s)
                       (task_threads s) (th_cpu th :: ipis s)).

(** [thread] and [kstack] are what [kmem_alloc] and [vm_kalloc] returned, [junk]
    what the memory of the thread holds: the lock, the wait queue and its result
    and [md.fs] are not set. *)
Definition thread_new (thread kstack : Z) (junk : thread_t) (task fun_ arg : Z) : M sched Z :=
  lock_sched;;
  mmodify (λ s, Sched (threads s) (cpus s) (cpu_array s) (lastcpu s) (sched_lock s) (waitqs s)
    (<[task := thread :: default [] (task_threads s !! task)]> (task_threads s)) (ipis s));;
  c ← nextcpu;
  unlock_sched;;
  let top := kstack + 4 * PGSIZE in
  mmodify (set_thread thread (Thread (th_lock junk) (th_wq junk) (th_wqres junk) c kThreadRunnable top 0
    task (Frame 0x28 0x30 0x202 fun_ arg 0 top) (th_fs junk)));;
  mret thread.

(** ** Wait queues *)

(** [waitq_await_locked] up to the switch, the queue's lock being held. *)
Definition waitq_await_locked (c w : Z) : M sched unit :=
  p ← get_cpu c;
  let thread := curthread p in
  th ← get_thread thread;
  (if th_lock th then fatal "spins" else mret ());;
  q ← get_waitq w;
  mmodify (set_thread thread (Thread true w (th_wqres th) (th_cpu th) kThreadWaiting (th_kstack th)
    (th_ustack th) (th_task th) (th_frame th) (th_fs th)));;
  mmodify (set_waitq w (Waitq false (wq_waiters q ++ [thread])));;
  sched_reschedule c.

Definition lock_waitq (w : Z) : M sched unit :=
  q ← get_waitq w;
  if wq_lock q then fatal "spins" else mmodify (set_waitq w (Waitq true (wq_waiters q))).

Definition waitq_await (c w : Z) : M sched unit :=
  lock_waitq w;;
  waitq_await_locked c w.

Definition waitq_wake_one (c w : Z) : M sched Z :=
  lock_waitq w;;
  q ← get_waitq w;
  match wq_waiters q with
  | [] =>
      mmodify (set_waitq w (Waitq false []));;
      mret 0
  | thrd :: _ =>
      mmodify (set_waitq w (Waitq false (tq_remove (λ x, x) thrd (wq_waiters q))));;
      th ← get_thread thrd;
      mmodify (set_thread thrd (Thread (th_lock th) (th_wq th) kWQSuccess (th_cpu th) (th_state th)
        (th_kstack th) (th_ustack th) (th_task th) (th_frame th) (th_fs th)));;
      thread_resume c thrd;;
      mret 1
  end.
