(* ===== verification/SchedProps.v ===== *)
(** * The scheduler, verified

    Rescheduling takes the next thread of the run queue in order and loses none;
    waking resumes on the thread's own CPU; and the window in which a wake-up
    comes before the sleeper has switched away. *)

From S2P Require Import Prelude Callout Sched.
Open Scope Z_scope.

Definition runnable (st : thread_state) : Prop := st = kThreadRunnable ∨ st = kThreadRunning.

(** A CPU: its queue holds runnable threads of its own, none twice, neither the
    current one nor the idle one. *)
Record cpu_ok (ths : gmap Z thread_t) (c : Z) (p : cpu_t) : Prop := {
  co_nodup : NoDup (runqueue p);
  co_cur : (curthread p ∉ runqueue p);
  co_idle : (idlethread p ∉ runqueue p);
  co_queue t : t ∈ runqueue p → ∃ th, ths !! t = Some th ∧ th_cpu th = c ∧ runnable (th_state th);
  co_curthread : ∃ th, ths !! curthread p = Some th ∧
    (curthread p ≠ idlethread p → th_cpu th = c ∧ th_state th ≠ kThreadRunnable);
  co_idlethread : ∃ th, ths !! idlethread p = Some th ∧ th_state th = kThreadRunning;
}.

(** No thread is current or idle on two CPUs, nor queued where another runs it. *)
Record sched_ok (s : sched) : Prop := {
  so_cpu c p : cpus s !! c = Some p → cpu_ok (threads s) c p;
  so_apart c1 c2 p1 p2 : cpus s !! c1 = Some p1 → cpus s !! c2 = Some p2 → c1 ≠ c2 →
    (curthread p1 ≠ curthread p2) ∧ (curthread p1 ≠ idlethread p2) ∧ (idlethread p1 ≠ idlethread p2) ∧
    (curthread p1 ∉ runqueue p2) ∧ (idlethread p1 ∉ runqueue p2);
}.

(** The timeslicer is pending, or can be started. *)
Definition slicer_ok (slicer : Z) (t : cpu_timer) : Prop :=
  ∃ co, callouts t !! slicer = Some co ∧
    (co_state co = kCalloutPending ∨
     pendingcallouts t = [] ∧ 0 ≤ lapic_tps t < 2^32 - 1).

Lemma start_timeslicer_run slicer t :
  slicer_ok slicer t → ∃ t', start_timeslicer slicer t = Ok ((), t').
Proof.
  intros (co & Hco & Hcase). unfold start_timeslicer.
  rewrite (bind_step _ _ _ _ _ (get_callout_ok _ _ _ Hco)).
  case_decide as Hd; [|by eexists].
  destruct Hcase as [?|[Hp Ht]]; [congruence|].
  set (t1 := CpuTimer (pendingcallouts t) (alter (set_nanosecs NS_PER_S) slicer (callouts t)) (lapic_tps t)
    (timer_count t)).
  rewrite (bind_step _ _ t () t1) by done. unfold callout_enqueue.
  assert (callouts t1 !! slicer = Some (set_nanosecs NS_PER_S co)) as H1
    by (simpl; by rewrite lookup_alter_eq, Hco).
  rewrite (bind_step _ _ _ _ _ (get_callout_ok _ _ _ H1)).
  change (0 <? nanosecs (set_nanosecs NS_PER_S co)) with true. rewrite massert_bind.
  rewrite (bind_step _ _ t1 t1 t1) by done. cbv beta.
  change (pendingcallouts t1) with (pendingcallouts t). rewrite Hp.
  set (t2 := CpuTimer (slicer :: pendingcallouts t1) (callouts t1) (lapic_tps t1) (timer_count t1)).
  unfold mbind at 1, M_bind at 1. rewrite (bind_step _ _ t1 () t2) by done.
  change (nanosecs (set_nanosecs NS_PER_S co)) with NS_PER_S.
  rewrite timer_set_ok; [by eexists|..]; simpl; unfold NS_PER_S; try lia.
  rewrite Z.div_mul by lia. lia.
Qed.

(** ** The pieces of [sched_reschedule] *)

Lemma get_cpu_ok s c p : cpus s !! c = Some p → get_cpu c s = Ok (p, s).
Proof. intros E. unfold get_cpu. by rewrite E. Qed.
Lemma get_thread_ok s t th : threads s !! t = Some th → get_thread t s = Ok (th, s).
Proof. intros E. unfold get_thread. by rewrite E. Qed.
Lemma get_waitq_ok s w q : waitqs s !! w = Some q → get_waitq w s = Ok (q, s).
Proof. intros E. unfold get_waitq. by rewrite E. Qed.
Lemma lock_sched_ok s : sched_lock s = false → lock_sched s = Ok ((), set_sched_lock true s).
Proof. intros E. unfold lock_sched. rewrite (bind_step _ _ s s s) by done. by rewrite E. Qed.

(** [s] with thread [t] and CPU [c] replaced and the scheduler's lock as given. *)
Definition with_tc (t : Z) (th : thread_t) (c : Z) (p : cpu_t) (b : bool) (s : sched) : sched :=
  Sched (<[t := th]> (threads s)) (<[c := p]> (cpus s)) (cpu_array s) (lastcpu s) b (waitqs s)
    (task_threads s) (ipis s).

Lemma cpu_set_queue_id p : cpu_set_queue (runqueue p) p = p.
Proof. by destruct p. Qed.

(** Whether the current thread goes back to the queue, and what becomes of it. *)
Definition yields (p : cpu_t) (old : thread_t) : bool :=
  negb (curthread p =? idlethread p) && bool_decide (th_state old = kThreadRunning).
Definition new_queue (p : cpu_t) (old : thread_t) : list Z :=
  runqueue p ++ (if yields p old then [curthread p] else []).
Definition put_away (p : cpu_t) (old : thread_t) : thread_t :=
  if negb (curthread p =? idlethread p) && bool_decide (th_state old = kThreadWaiting)
  then th_set_lock false old else old.

Lemma put_away_run s c p old :
  cpus s !! c = Some p → threads s !! curthread p = Some old →
  (curthread p = idlethread p → th_state old = kThreadRunning) →
  (if curthread p =? idlethread p then
     massert (bool_decide (th_state old = kThreadRunning)) "assert(oldthread->state == kThreadRunning)"
   else
     match th_state old with
     | kThreadWaiting => mmodify (set_thread (curthread p) (th_set_lock false old))
     | kThreadExiting => mret ()
     | kThreadRunning => mmodify (set_cpu c (cpu_set_queue (runqueue p ++ [curthread p]) p))
     | kThreadRunnable => mret ()
     end) s = Ok ((), with_tc (curthread p) (put_away p old) c (cpu_set_queue (new_queue p old) p)
                        (sched_lock s) s).
Proof.
  intros Hc Ht Hid. unfold with_tc, put_away, new_queue, yields. destruct s as [ths cs ? ? ? ? ? ?]. simpl in *.
  destruct (Z.eqb_spec (curthread p) (idlethread p)) as [E|Hne].
  - rewrite (Hid E). simpl. rewrite app_nil_r, cpu_set_queue_id. by rewrite !insert_id by done.
  - destruct (th_state old) eqn:Es; simpl; rewrite ?app_nil_r, ?cpu_set_queue_id;
      unfold mmodify, set_thread, set_cpu; simpl; by rewrite ?(insert_id _ _ _ Hc), ?(insert_id _ _ _ Ht).
Qed.

Lemma sched_next_run s c p q :
  cpus s !! c = Some p → runqueue p = q → sched_lock s = true →
  sched_next c s = Ok (default (idlethread p) (head q),
    Sched (threads s) (<[c := cpu_set_queue (tail q) p]> (cpus s)) (cpu_array s) (lastcpu s) true (waitqs s)
      (task_threads s) (ipis s)).
Proof.
  intros Hc Hq Hl. unfold sched_next. rewrite (bind_step _ _ s s s) by done. rewrite Hl, massert_bind.
  rewrite (bind_step _ _ _ _ _ (get_cpu_ok _ _ _ Hc)), Hq. destruct q as [|n q]; simpl.
  - rewrite <-Hq, cpu_set_queue_id. rewrite insert_id by done. destruct s. simpl in *. by rewrite Hl.
  - rewrite (bind_step _ _ _ _ _ (mmodify_ok _ _)). rewrite Z.eqb_refl. unfold set_cpu.
    destruct s. simpl in *. by rewrite Hl.
Qed.

Lemma on_timer_run {A} s c p (m : M cpu_timer A) a t :
  cpus s !! c = Some p → m (timer p) = Ok (a, t) → on_timer c m s = Ok (a, set_cpu c (cpu_set_timer t p) s).
Proof. intros Hc Hm. unfold on_timer. by rewrite Hc, Hm. Qed.

Lemma md_switch_run s c p from to old nt :
  cpus s !! c = Some p → threads s !! from = Some old → threads s !! to = Some nt → to ≠ from →
  md_switch c from to s = Ok ((),
    with_tc from (th_set_frame (regs p) (fsbase p) old) c
      (Cpu to (idlethread p) (runqueue p) (preempted p) (inInterrupt p) (timeslicer p) (timer p) from
         (th_frame nt) (th_fs nt)) false s).
Proof.
  intros Hc Ho Hn Hne. unfold md_switch. rewrite (bind_step _ _ _ _ _ (get_cpu_ok _ _ _ Hc)).
  rewrite (bind_step _ _ _ _ _ (mmodify_ok _ _)). unfold switch_interrupt.
  set (s1 := set_cpu c _ s).
  rewrite (bind_step _ _ _ _ _ (get_cpu_ok s1 c _ (lookup_insert_eq _ _ _))).
  rewrite (bind_step _ _ _ _ _ (get_thread_ok s1 from old Ho)).
  rewrite (bind_step _ _ _ _ _ (mmodify_ok _ _)).
  rewrite (bind_step _ _ _ _ _ (get_thread_ok (set_thread from _ s1) to nt
    ltac:(simpl; rewrite lookup_insert_ne; done))).
  rewrite (bind_step _ _ _ _ _ (mmodify_ok _ _)).
  unfold unlock_sched, mmodify, set_sched_lock, with_tc, s1. simpl. by rewrite insert_insert_eq.
Qed.

(** Where [sched_reschedule] ends. *)
Lemma reschedule_run s c p old nt :
  sched_lock s = false → cpus s !! c = Some p → threads s !! curthread p = Some old →
  (curthread p = idlethread p → th_state old = kThreadRunning) → slicer_ok (timeslicer p) (timer p) →
  let q := new_queue p old in
  let next := default (idlethread p) (head q) in
  <[curthread p := put_away p old]> (threads s) !! next = Some nt →
  ∃ s' p' tm, sched_reschedule c s = Ok ((), s') ∧ sched_lock s' = false ∧
    cpus s' = <[c := p']> (cpus s) ∧
    p' = Cpu next (idlethread p) (tail q) (preempted p) (inInterrupt p) (timeslicer p) tm
           (if decide (next = curthread p) then md_old p else curthread p)
           (if decide (next = curthread p) then regs p else th_frame nt)
           (if decide (next = curthread p) then fsbase p else th_fs nt) ∧
    threads s' = (if decide (next = curthread p)
                  then <[next := th_set_state kThreadRunning nt]> (threads s)
                  else <[curthread p := th_set_frame (regs p) (fsbase p) (put_away p old)]>
                         (<[next := th_set_state kThreadRunning nt]> (threads s))) ∧
    waitqs s' = waitqs s ∧ ipis s' = ipis s.
Proof.
  intros Hl Hc Ht Hid Hsl q next Hnt.
  destruct (start_timeslicer_run _ _ Hsl) as [tm Htm].
  set (s1 := with_tc (curthread p) (put_away p old) c (cpu_set_queue q p) true s).
  set (s2 := with_tc (curthread p) (put_away p old) c (cpu_set_queue (tail q) p) true s).
  set (s3 := set_thread next (th_set_state kThreadRunning nt) s2).
  set (s4 := set_cpu c (cpu_set_timer tm (cpu_set_queue (tail q) p)) s3).
  assert (sched_reschedule c s = (if next =? curthread p then unlock_sched
    else md_switch c (curthread p) next) s4) as ->.
  { unfold sched_reschedule. rewrite (bind_step _ _ _ _ _ (lock_sched_ok _ Hl)).
    rewrite (bind_step _ _ _ _ _ (get_cpu_ok (set_sched_lock true s) _ _ Hc)).
    rewrite (bind_step _ _ _ _ _ (get_thread_ok (set_sched_lock true s) _ _ Ht)).
    rewrite (bind_step _ _ _ _ _ (put_away_run (set_sched_lock true s) c p old Hc Ht Hid)).
    rewrite (bind_step _ _ _ next s2).
    2:{ etransitivity; [eapply (sched_next_run s1 c (cpu_set_queue q p) q);
          [apply lookup_insert_eq|done|done]|]. unfold s1, s2, with_tc. simpl. by rewrite insert_insert_eq. }
    rewrite (bind_step _ _ _ _ _ (get_thread_ok s2 next nt Hnt)).
    rewrite (bind_step _ _ _ () s3) by done.
    rewrite (bind_step _ _ _ () s4); [done|].
    apply (on_timer_run s3 c (cpu_set_queue (tail q) p)); [apply lookup_insert_eq|done]. }
  destruct (Z.eqb_spec next (curthread p)) as [E|Hne].
  - exists (set_sched_lock false s4), (cpu_set_timer tm (cpu_set_queue (tail q) p)), tm.
    split; [done|]. rewrite !decide_True by done. split_and!; try done; simpl.
    + by rewrite insert_insert_eq.
    + unfold cpu_set_timer, cpu_set_queue. simpl. by rewrite E.
    + rewrite E. by rewrite insert_insert_eq.
  - assert (threads s4 !! curthread p = Some (put_away p old)) as Ho
      by (simpl; by rewrite lookup_insert_ne, lookup_insert_eq).
    rewrite (md_switch_run s4 c _ _ _ _ (th_set_state kThreadRunning nt) (lookup_insert_eq _ _ _) Ho)
      by (simpl; rewrite ?lookup_insert_ne, ?lookup_insert_eq by done; done).
    eexists _, _, tm. split; [done|]. rewrite !decide_False by done. split_and!; try done; simpl.
    + by rewrite !insert_insert_eq.
    + rewrite (insert_insert_ne _ next) by done. by rewrite insert_insert_eq.
Qed.

(** ** Rescheduling *)

Lemma cpu_ok_frame ths ths' c p :
  cpu_ok ths c p →
  (∀ t, t = curthread p ∨ t = idlethread p ∨ t ∈ runqueue p → ths' !! t = ths !! t) → cpu_ok ths' c p.
Proof.
  intros [? ? ? Hq Hc Hi] H. split; try done.
  - intros t Ht. rewrite H by auto. by apply Hq.
  - by rewrite H by auto.
  - by rewrite H by auto.
Qed.

Section reschedule.
Context (s : sched) (c : Z) (p : cpu_t) (old : thread_t).
Hypothesis (Hok : sched_ok s) (Hc : cpus s !! c = Some p) (Hold : threads s !! curthread p = Some old).

Let q := new_queue p old.
Let next := default (idlethread p) (head q).

Lemma elem_of_q t : t ∈ q ↔ t ∈ runqueue p ∨ (yields p old = true ∧ t = curthread p).
Proof.
  unfold q, new_queue. rewrite elem_of_app. destruct (yields p old).
  - rewrite list_elem_of_singleton. naive_solver.
  - split; [intros [|?%elem_of_nil]; [by left|done]|intros [|[? _]]; [by left|done]].
Qed.

Lemma yields_spec : yields p old = true ↔ curthread p ≠ idlethread p ∧ th_state old = kThreadRunning.
Proof.
  unfold yields. rewrite andb_true_iff, negb_true_iff, Z.eqb_neq, bool_decide_eq_true. done.
Qed.

Lemma q_nodup : NoDup q.
Proof.
  pose proof (so_cpu _ Hok _ _ Hc) as Hp. unfold q, new_queue. apply NoDup_app. split_and!.
  - apply Hp.
  - intros t Ht. destruct (yields p old); [|apply not_elem_of_nil].
    rewrite list_elem_of_singleton. intros ->. by apply (co_cur _ _ _ Hp).
  - destruct (yields p old); [apply NoDup_singleton|apply NoDup_nil_2].
Qed.

Lemma idle_not_q : (idlethread p ∉ q).
Proof.
  rewrite elem_of_q, yields_spec. intros [Hi|[[? _] ?]]; [|congruence].
  by apply (co_idle _ _ _ (so_cpu _ Hok _ _ Hc)).
Qed.

Lemma next_cases : (q = [] ∧ next = idlethread p) ∨ (∃ l, q = next :: l).
Proof. unfold next. destruct q; [by left|right; by eexists]. Qed.

Lemma next_not_tail : (next ∉ tail q).
Proof.
  destruct next_cases as [[E _]|[l E]]; rewrite E; simpl; [apply not_elem_of_nil|].
  pose proof q_nodup as ND. rewrite E in ND. by apply NoDup_cons in ND as [? _].
Qed.

Lemma tail_q t : t ∈ tail q → t ∈ q.
Proof. destruct q; [done|]. simpl. intros. by right. Qed.

(** A thread of the new queue. *)
Lemma q_thread t : t ∈ q → ∃ th, threads s !! t = Some th ∧ th_cpu th = c ∧ runnable (th_state th).
Proof.
  pose proof (so_cpu _ Hok _ _ Hc) as Hp. rewrite elem_of_q, yields_spec. intros [Ht|[[Hne Hr] ->]].
  - by apply (co_queue _ _ _ Hp).
  - exists old. destruct (co_curthread _ _ _ Hp) as (th & Hth & H). assert (th = old) as -> by congruence.
    split_and!; [done|by apply H|by right].
Qed.

Lemma next_thread : ∃ nt, <[curthread p := put_away p old]> (threads s) !! next = Some nt ∧
  (next ≠ idlethread p → th_cpu nt = c).
Proof.
  pose proof (so_cpu _ Hok _ _ Hc) as Hp.
  assert (∃ nt, threads s !! next = Some nt ∧ (next ≠ idlethread p → th_cpu nt = c)) as (nt & Hn & Hcpu).
  { destruct next_cases as [[_ E]|[l E]].
    - destruct (co_idlethread _ _ _ Hp) as (th & Hth & _). exists th. rewrite E. done.
    - destruct (q_thread next) as (th & ? & ? & _); [rewrite E; left|]. by exists th. }
  destruct (decide (next = curthread p)) as [E|Hne].
  - rewrite E in *. rewrite lookup_insert_eq. eexists. split; [done|]. intros Hi. specialize (Hcpu Hi).
    assert (nt = old) as -> by congruence. unfold put_away. by destruct (_ && _).
  - rewrite lookup_insert_ne by done. by exists nt.
Qed.

(** Another CPU has nothing to do with the two threads. *)
Lemma other_cpu c' p' t : cpus s !! c' = Some p' → c' ≠ c →
  t = curthread p' ∨ t = idlethread p' ∨ t ∈ runqueue p' → t ≠ curthread p ∧ t ≠ next ∧ (t ∉ tail q).
Proof.
  intros Hc' Hne Ht.
  destruct (so_apart _ Hok c' c p' p Hc' Hc Hne) as (A1 & A2 & A3 & A4 & A5).
  destruct (so_apart _ Hok c c' p p' Hc Hc' ltac:(done)) as (_ & B2 & _ & B4 & B5).
  assert (t ≠ curthread p) as H1 by (intros ->; naive_solver).
  assert (t ∉ q) as Hq.
  { intros Hin. destruct Ht as [->|[->|Ht]].
    - apply elem_of_q in Hin as [|[_ ?]]; done.
    - apply elem_of_q in Hin as [|[_ ?]]; [done|congruence].
    - apply q_thread in Hin as (th & Hth & Hcpu & _).
      destruct (co_queue _ _ _ (so_cpu _ Hok _ _ Hc') t Ht) as (th' & Hth' & Hcpu' & _). congruence. }
  split_and!; [done| |by intros ?%tail_q].
  destruct next_cases as [[_ E]|[l E]].
  - rewrite E. naive_solver.
  - intros ->. apply Hq. rewrite E. left.
Qed.
End reschedule.

(** The threads after rescheduling: the chosen one runs, the old one keeps its
    registers, nothing else changes. *)
Section after.
Context (s : sched) (c : Z) (p : cpu_t) (old nt : thread_t).
Hypothesis (Hok : sched_ok s) (Hc : cpus s !! c = Some p) (Hold : threads s !! curthread p = Some old).
Let q := new_queue p old.
Let next := default (idlethread p) (head q).
Hypothesis (Hnt : <[curthread p := put_away p old]> (threads s) !! next = Some nt).
Context (ths' : gmap Z thread_t) (p' : cpu_t).
Hypothesis (Hcur : curthread p' = next) (Hidle : idlethread p' = idlethread p) (Hq : runqueue p' = tail q).
Hypothesis (Hths : ths' = (if decide (next = curthread p)
                  then <[next := th_set_state kThreadRunning nt]> (threads s)
                  else <[curthread p := th_set_frame (regs p) (fsbase p) (put_away p old)]>
                         (<[next := th_set_state kThreadRunning nt]> (threads s)))).

Lemma ths_next : ths' !! next = Some (th_set_state kThreadRunning nt).
Proof.
  rewrite Hths. case_decide; [apply lookup_insert_eq|]. by rewrite lookup_insert_ne, lookup_insert_eq.
Qed.

Lemma ths_same t : t ≠ next → t ≠ curthread p → ths' !! t = threads s !! t.
Proof. intros H1 H2. rewrite Hths. case_decide; by rewrite ?lookup_insert_ne. Qed.

Lemma ths_old : next ≠ curthread p →
  ths' !! curthread p = Some (th_set_frame (regs p) (fsbase p) (put_away p old)).
Proof. intros Hne. rewrite Hths, decide_False by done. apply lookup_insert_eq. Qed.

Lemma after_cpu : cpu_ok ths' c p'.
Proof.
  pose proof (so_cpu _ Hok _ _ Hc) as Hp. destruct (next_thread s c p old Hok Hc Hold) as (nt' & Hn' & Hcpu).
  fold q next in Hn', Hcpu. assert (nt' = nt) as -> by congruence.
  split; rewrite ?Hcur, ?Hidle, ?Hq.
  - pose proof (q_nodup s c p old Hok Hc) as ND. fold q in ND. destruct q; [done|]. by apply NoDup_cons in ND as [_ ?].
  - by eapply next_not_tail.
  - intros H%tail_q. by apply (idle_not_q s c p old Hok Hc) in H.
  - intros t Ht. assert (t ≠ next) as Hn by (intros ->; by apply (next_not_tail s c p old Hok Hc) in Ht).
    apply tail_q in Ht. destruct (decide (t = curthread p)) as [->|Hne].
    + apply elem_of_q in Ht as [Ht|[Hy _]]; [by apply (co_cur _ _ _ Hp) in Ht|].
      apply yields_spec in Hy as [Hni Hr]. eexists. split; [by apply ths_old|].
      destruct (co_curthread _ _ _ Hp) as (th & Hth & Hcc). assert (th = old) as -> by congruence.
      unfold put_away. rewrite Hr. rewrite bool_decide_false, andb_false_r by done. simpl.
      split; [by apply Hcc|by right].
    + rewrite ths_same by done. by apply (q_thread s c p old Hok Hc Hold).
  - eexists. split; [apply ths_next|]. simpl. intros Hni. split; [by apply Hcpu|done].
  - destruct (co_idlethread _ _ _ Hp) as (th & Hth & Hr).
    destruct (decide (next = idlethread p)) as [<-|Hni]; [by eexists; split; [apply ths_next|]|].
    destruct (decide (curthread p = idlethread p)) as [E|Hne].
    + eexists. split; [rewrite <-E; apply ths_old; congruence|]. simpl. unfold put_away.
      rewrite E, Z.eqb_refl. simpl. congruence.
    + exists th. rewrite ths_same by done. done.
Qed.

Lemma after_ok s' : threads s' = ths' → cpus s' = <[c := p']> (cpus s) → sched_ok s'.
Proof.
  intros Et Ec.
  assert (∀ c' x, cpus s' !! c' = Some x → (c' = c ∧ x = p') ∨ (c' ≠ c ∧ cpus s !! c' = Some x)) as Hcs.
  { intros c' x. rewrite Ec, lookup_insert_Some. naive_solver. }
  assert (∀ c' x t, cpus s !! c' = Some x → c' ≠ c →
    t = curthread x ∨ t = idlethread x ∨ t ∈ runqueue x →
    t ≠ curthread p ∧ t ≠ next ∧ (t ∉ tail q)) as Hother by (intros *; by eapply other_cpu).
  split.
  - intros c' x [[-> ->]|[Hne Hx]]%Hcs; rewrite Et; [apply after_cpu|].
    apply (cpu_ok_frame (threads s)); [by apply Hok|]. intros t Ht.
    destruct (Hother c' x t Hx Hne Ht) as (? & ? & _). by apply ths_same.
  - intros c1 c2 p1 p2 [[-> ->]|[Hn1 H1]]%Hcs [[-> ->]|[Hn2 H2]]%Hcs Hne; [done| | |by eapply so_apart].
    + destruct (so_apart _ Hok c c2 p p2 Hc H2 Hne) as (_ & _ & A3 & _ & A5).
      rewrite Hcur, Hidle. destruct (Hother c2 p2 (curthread p2) H2 ltac:(done) ltac:(auto)) as (_ & ? & _).
      destruct (Hother c2 p2 (idlethread p2) H2 ltac:(done) ltac:(auto)) as (_ & ? & _).
      split_and!; try done. intros Hin. by destruct (Hother c2 p2 next H2 ltac:(done) ltac:(auto)) as (_ & ? & _).
    + destruct (so_apart _ Hok c1 c p1 p H1 Hc Hne) as (_ & A2 & A3 & _ & _).
      rewrite Hcur, Hidle, Hq. destruct (Hother c1 p1 (curthread p1) H1 ltac:(done) ltac:(auto)) as (_ & ? & ?).
      destruct (Hother c1 p1 (idlethread p1) H1 ltac:(done) ltac:(auto)) as (_ & ? & ?).
      done.
Qed.
End after.

(** C19: [sched_reschedule] on a CPU: it returns with the scheduler's lock free and
    the state sound; the thread that runs next is the first of the run queue, to
    whose end the old thread has gone if it was running and is not the idle one,
    or the idle thread when the queue is empty; the rest of the queue stays in
    order, the registers of the two threads are exchanged, a thread that went to
    sleep has its lock released, and other CPUs are not touched. *)
Theorem sched_reschedule_correct s c p old :
  sched_ok s → sched_lock s = false → cpus s !! c = Some p → threads s !! curthread p = Some old →
  slicer_ok (timeslicer p) (timer p) →
  let q := new_queue p old in
  let next := default (idlethread p) (head q) in
  ∃ s' p' nt, sched_reschedule c s = Ok ((), s') ∧ sched_ok s' ∧ sched_lock s' = false ∧
    cpus s' = <[c := p']> (cpus s) ∧ curthread p' = next ∧ runqueue p' = tail q ∧
    threads s' !! next = Some (th_set_state kThreadRunning nt) ∧
    (next = curthread p → regs p' = regs p) ∧
    (next ≠ curthread p → threads s !! next = Some nt ∧ regs p' = th_frame nt ∧
       threads s' !! curthread p = Some (th_set_frame (regs p) (fsbase p) (put_away p old))) ∧
    ∀ t, t ≠ next → t ≠ curthread p → threads s' !! t = threads s !! t.
Proof.
  intros Hok Hl Hc Hold Hsl q next. pose proof (so_cpu _ Hok _ _ Hc) as Hp.
  destruct (next_thread s c p old Hok Hc Hold) as (nt & Hnt & _). fold q next in Hnt.
  destruct (reschedule_run s c p old nt Hl Hc Hold) as (s' & p' & tm & Hrun & Hl' & Hcs & Ep & Eth & _); try done.
  { intros E. destruct (co_idlethread _ _ _ Hp) as (th & Hth & Hr). rewrite E in Hold. congruence. }
  fold q next in Ep, Eth.
  exists s', p', nt. split_and!; try done.
  - apply (after_ok s c p old nt Hok Hc Hold Hnt (threads s') p');
      [by rewrite Ep|by rewrite Ep|by rewrite Ep|exact Eth|done|exact Hcs].
  - by rewrite Ep.
  - by rewrite Ep.
  - eapply (ths_next s p old nt); exact Eth.
  - intros E. rewrite Ep. simpl. by rewrite decide_True.
  - intros Hne. split_and!.
    + rewrite <-Hnt. by rewrite lookup_insert_ne.
    + rewrite Ep. simpl. by rewrite decide_False.
    + eapply (ths_old s p old nt); [exact Eth|done].
  - intros t. eapply (ths_same s p old nt). exact Eth.
Qed.

(** ** Waking *)

(** [thread_resume] up to the point where the CPU is notified. *)
Definition resumed (t : Z) (th : thread_t) (p : cpu_t) (s : sched) : sched :=
  Sched (<[t := th_set_state kThreadRunnable th]> (threads s))
    (<[th_cpu th := cpu_set_queue (t :: runqueue p) p]> (cpus s)) (cpu_array s) (lastcpu s) false
    (waitqs s) (task_threads s) (ipis s).

Lemma thread_resume_run s c t th p :
  sched_lock s = false → threads s !! t = Some th → cpus s !! th_cpu th = Some p →
  thread_resume c t s =
    if th_cpu th =? c then
      if inInterrupt p then Ok ((), set_cpu c (cpu_set_preempted true (cpu_set_queue (t :: runqueue p) p)) (resumed t th p s))
      else sched_reschedule c (resumed t th p s)
    else Ok ((), Sched (threads (resumed t th p s)) (cpus (resumed t th p s)) (cpu_array s) (lastcpu s) false
                   (waitqs s) (task_threads s) (th_cpu th :: ipis s)).
Proof.
  intros Hl Ht Hc. unfold thread_resume. rewrite (bind_step _ _ _ _ _ (lock_sched_ok _ Hl)).
  rewrite (bind_step _ _ _ _ _ (get_thread_ok (set_sched_lock true s) _ _ Ht)).
  rewrite (bind_step _ _ _ _ _ (mmodify_ok _ _)).
  rewrite (bind_step _ _ _ p (set_thread t (th_set_state kThreadRunnable th) (set_sched_lock true s)))
    by (by apply get_cpu_ok).
  rewrite (bind_step _ _ _ _ _ (mmodify_ok _ _)).
  rewrite (bind_step _ _ _ () (resumed t th p s)) by done.
  destruct (Z.eqb_spec (th_cpu th) c) as [E|]; [|done].
  rewrite (bind_step _ _ _ (cpu_set_queue (t :: runqueue p) p) (resumed t th p s)).
  - simpl. by destruct (inInterrupt p).
  - apply get_cpu_ok. simpl. rewrite E. apply lookup_insert_eq.
Qed.

(** Waking a thread that sleeps: it becomes runnable, at the head of the run
    queue of its own CPU, and the state stays sound.  On that CPU it is scheduled
    at once, or at the end of the interrupt in progress; another CPU is sent a
    reschedule interrupt. *)
Theorem thread_resume_correct s c t th p :
  sched_ok s → sched_lock s = false → threads s !! t = Some th → th_state th = kThreadWaiting →
  cpus s !! th_cpu th = Some p →
  (∀ c' p', cpus s !! c' = Some p' → t ≠ curthread p' ∧ t ≠ idlethread p') →
  ∃ s1, sched_ok s1 ∧ sched_lock s1 = false ∧
    threads s1 = <[t := th_set_state kThreadRunnable th]> (threads s) ∧
    cpus s1 = <[th_cpu th := cpu_set_queue (t :: runqueue p) p]> (cpus s) ∧
    (th_cpu th = c → inInterrupt p = false → thread_resume c t s = sched_reschedule c s1) ∧
    (th_cpu th = c → inInterrupt p = true → ∃ s2, thread_resume c t s = Ok ((), s2) ∧
       threads s2 = threads s1 ∧ ∃ p2, cpus s2 !! c = Some p2 ∧ runqueue p2 = t :: runqueue p ∧ preempted p2 = true) ∧
    (th_cpu th ≠ c → ∃ s2, thread_resume c t s = Ok ((), s2) ∧ threads s2 = threads s1 ∧ cpus s2 = cpus s1 ∧
       ipis s2 = th_cpu th :: ipis s).
Proof.
  intros Hok Hl Ht Hst Hc Hfree. pose proof (thread_resume_run s c t th p Hl Ht Hc) as Hrun.
  assert (∀ c' p', cpus s !! c' = Some p' → (t ∉ runqueue p')) as Hnq.
  { intros c' p' Hc' Hin. destruct (co_queue _ _ _ (so_cpu _ Hok _ _ Hc') t Hin) as (th' & Hth' & _ & [|]); congruence. }
  assert (∀ c' x, <[th_cpu th := cpu_set_queue (t :: runqueue p) p]> (cpus s) !! c' = Some x →
    ∃ y, cpus s !! c' = Some y ∧ curthread x = curthread y ∧ idlethread x = idlethread y ∧
      (∀ u, u ∈ runqueue x ↔ (u = t ∧ c' = th_cpu th) ∨ u ∈ runqueue y)) as Hcs.
  { intros c' x [[<- <-]|[Hne Hx]]%lookup_insert_Some.
    - exists p. split_and!; try done. intros u. simpl. rewrite elem_of_cons. naive_solver.
    - exists x. split_and!; try done. naive_solver. }
  exists (resumed t th p s). split_and!; try done.
  - split.
    + intros c' x Hx. destruct (Hcs c' x Hx) as (y & Hy & E1 & E2 & Hq).
      destruct (Hfree c' y Hy) as [F1 F2]. destruct (so_cpu _ Hok _ _ Hy) as [N1 N2 N3 N4 N5 N6].
      split; rewrite ?E1, ?E2, ?Hq; simpl.
      * simpl in Hx. apply lookup_insert_Some in Hx as [[<- <-]|[Hne Hx]]; simpl.
        -- simplify_eq. apply NoDup_cons. split; [by eapply Hnq|done].
        -- by simplify_eq.
      * naive_solver.
      * naive_solver.
      * intros u [[-> ->]|Hu]%Hq.
        -- rewrite lookup_insert_eq. eexists. split_and!; [done|done|by left].
        -- rewrite lookup_insert_ne by (intros ->; by eapply Hnq). by apply N4.
      * by rewrite lookup_insert_ne.
      * by rewrite lookup_insert_ne.
    + intros c1 c2 x1 x2 H1 H2 Hne. destruct (Hcs c1 x1 H1) as (y1 & Hy1 & E1 & E1' & Q1).
      destruct (Hcs c2 x2 H2) as (y2 & Hy2 & E2 & E2' & Q2).
      destruct (so_apart _ Hok _ _ _ _ Hy1 Hy2 Hne) as (? & ? & ? & ? & ?).
      destruct (Hfree c1 y1 Hy1). rewrite E1, E1', E2, E2', !Q2. naive_solver.
  - intros E Hi. by rewrite Hrun, E, Z.eqb_refl, Hi.
  - intros E Hi. rewrite Hrun, E, Z.eqb_refl, Hi. eexists. split; [done|]. split; [done|].
    eexists. split; [apply lookup_insert_eq|done].
  - intros Hne. rewrite Hrun, (proj2 (Z.eqb_neq _ _)) by done. by eexists.
Qed.

(** A wake-up in the window of [waitq_await_locked] between the release of the
    queue's lock and the switch: the sleeper, still current on its CPU [c], is made
    runnable from another CPU [c2].  Its own [sched_reschedule] then picks it
    again and returns, but the thread's lock, which only the switch of a waiting
    thread releases, stays held: the next time the thread waits, it spins for
    ever. *)
Theorem wake_before_switch s c c2 t th p :
  sched_lock s = false → cpus s !! c = Some p → curthread p = t → t ≠ idlethread p →
  threads s !! t = Some th → th_state th = kThreadWaiting → th_lock th = true → th_cpu th = c → c2 ≠ c →
  slicer_ok (timeslicer p) (timer p) →
  ∃ s1 s2 p2 th2, thread_resume c2 t s = Ok ((), s1) ∧ sched_reschedule c s1 = Ok ((), s2) ∧
    cpus s2 !! c = Some p2 ∧ curthread p2 = t ∧ threads s2 !! t = Some th2 ∧
    th_state th2 = kThreadRunning ∧ th_lock th2 = true ∧
    ∀ w q, waitqs s2 !! w = Some q → wq_lock q = false → waitq_await c w s2 = Fatal "spins".
Proof.
  intros Hl Hc Hcur Hni Ht Hst Hlk Hcpu Hne Hsl.
  pose proof (thread_resume_run s c2 t th p Hl Ht ltac:(by rewrite Hcpu)) as Hrun.
  rewrite Hcpu, (proj2 (Z.eqb_neq _ _)) in Hrun by done. set (s1 := Sched _ _ _ _ _ _ _ _) in Hrun.
  set (p1 := cpu_set_queue (t :: runqueue p) p). set (th1 := th_set_state kThreadRunnable th).
  assert (cpus s1 !! c = Some p1) as Hc1 by (simpl; rewrite Hcpu; apply lookup_insert_eq).
  assert (threads s1 !! curthread p1 = Some th1) as Ht1 by (simpl; rewrite Hcur; apply lookup_insert_eq).
  assert ((curthread p1 =? idlethread p1) = false) as Hb by (apply Z.eqb_neq; simpl; congruence).
  assert (put_away p1 th1 = th1 ∧ new_queue p1 th1 = t :: runqueue p) as [Epa Eq].
  { unfold put_away, new_queue, yields. rewrite Hb. simpl. by rewrite app_nil_r. }
  destruct (reschedule_run s1 c p1 th1 th1 eq_refl Hc1 Ht1) as (s2 & p2 & tm & Hrun2 & _ & Hcs & Ep & Eth & Ew & _).
  { intros E. simpl in E. congruence. } { exact Hsl. } { rewrite Eq, Epa. change (curthread p1) with (curthread p). rewrite Hcur. apply lookup_insert_eq. }
  rewrite Eq in Ep, Eth. simpl in Ep, Eth. rewrite decide_True in Eth by done.
  exists s1, s2, p2, (th_set_state kThreadRunning th1).
  assert (cpus s2 !! c = Some p2) as Hc2 by (rewrite Hcs; apply lookup_insert_eq).
  assert (threads s2 !! t = Some (th_set_state kThreadRunning th1)) as Ht2 by (rewrite Eth; apply lookup_insert_eq).
  split_and!; try done; [by rewrite Ep|].
  intros w q Hw Hq. unfold waitq_await, lock_waitq. rewrite (bind_step _ _ s2 () (set_waitq w (Waitq true (wq_waiters q)) s2)).
  2:{ rewrite (bind_step _ _ _ _ _ (get_waitq_ok _ _ _ Hw)). by rewrite Hq. }
  unfold waitq_await_locked. rewrite (bind_step _ _ _ p2 (set_waitq w (Waitq true (wq_waiters q)) s2)) by (by apply get_cpu_ok).
  assert (curthread p2 = t) as -> by (by rewrite Ep).
  rewrite (bind_step _ _ _ (th_set_state kThreadRunning th1) (set_waitq w (Waitq true (wq_waiters q)) s2)) by (by apply get_thread_ok).
  simpl. by rewrite Hlk.
Qed.

(** ** New threads *)

Lemma nextcpu_run s c :
  0 ≤ lastcpu s < Z.of_nat (length (cpu_array s)) →
  cpu_array s !! Z.to_nat ((lastcpu s + 1) mod Z.of_nat (length (cpu_array s))) = Some c →
  nextcpu s = Ok (c, Sched (threads s) (cpus s) (cpu_array s)
    ((lastcpu s + 1) mod Z.of_nat (length (cpu_array s))) (sched_lock s) (waitqs s) (task_threads s) (ipis s)).
Proof.
  intros Hl Hc. unfold nextcpu. rewrite (bind_step _ _ s s s) by done. cbv beta zeta.
  assert ((if Z.of_nat (length (cpu_array s)) <=? lastcpu s + 1 then 0 else lastcpu s + 1) =
    (lastcpu s + 1) mod Z.of_nat (length (cpu_array s))) as ->.
  { destruct (Z.leb_spec (Z.of_nat (length (cpu_array s))) (lastcpu s + 1)).
    - replace (lastcpu s + 1) with (Z.of_nat (length (cpu_array s))) by lia. by rewrite Z_mod_same_full.
    - by rewrite Z.mod_small by lia. }
  rewrite (bind_step _ _ s () (Sched (threads s) (cpus s) (cpu_array s)
    ((lastcpu s + 1) mod Z.of_nat (length (cpu_array s))) (sched_lock s) (waitqs s) (task_threads s) (ipis s))) by done.
  by rewrite Hc.
Qed.

(** [thread_new] takes the CPUs in turn; the thread is set up to enter its
    function with its argument on a fresh stack, belongs to its task and is on no
    run queue.  Its lock is whatever its memory held. *)
Theorem thread_new_correct s thread kstack junk task fun_ arg c :
  sched_lock s = false → 0 ≤ lastcpu s < Z.of_nat (length (cpu_array s)) →
  cpu_array s !! Z.to_nat ((lastcpu s + 1) mod Z.of_nat (length (cpu_array s))) = Some c →
  ∃ s' th, thread_new thread kstack junk task fun_ arg s = Ok (thread, s') ∧
    sched_lock s' = false ∧ cpus s' = cpus s ∧
    lastcpu s' = (lastcpu s + 1) mod Z.of_nat (length (cpu_array s)) ∧
    threads s' = <[thread := th]> (threads s) ∧ th_cpu th = c ∧ th_state th = kThreadRunnable ∧
    f_rip (th_frame th) = fun_ ∧ f_rdi (th_frame th) = arg ∧ f_rsp (th_frame th) = kstack + 4 * PGSIZE ∧
    task_threads s' !! task = Some (thread :: default [] (task_threads s !! task)) ∧
    th_lock th = th_lock junk.
Proof.
  intros Hl Hlast Hc. unfold thread_new. rewrite (bind_step _ _ _ _ _ (lock_sched_ok _ Hl)).
  rewrite (bind_step _ _ _ _ _ (mmodify_ok _ _)). set (s1 := Sched _ _ _ _ _ _ _ _).
  rewrite (bind_step _ _ _ _ _ (nextcpu_run s1 c Hlast Hc)). unfold unlock_sched.
  rewrite (bind_step _ _ _ _ _ (mmodify_ok _ _)). cbv zeta.
  rewrite (bind_step _ _ _ _ _ (mmodify_ok _ _)). eexists _, _. split; [done|]. split_and!; try done.
  simpl. apply lookup_insert_eq.
Qed.

(** ** The properties on two CPUs *)

Definition frame0 : md_intr_frame := Frame 0x28 0x30 0x202 0 0 0 0.
Definition mk_thread (c : Z) (st : thread_state) (lk : bool) : thread_t :=
  Thread lk 0 0 c st 0 0 0 frame0 0.
Definition timer0 : cpu_timer := CpuTimer [] {[ 100 := Callout 0 0 1 kCalloutDisabled ]} 1000 0.
Definition mk_cpu (cur idle : Z) (q : list Z) : cpu_t := Cpu cur idle q false false 100 timer0 0 frame0 0.
(** CPU 1 runs thread 11 with 12 queued, CPU 2 idles; thread 21 sleeps. *)
Definition two_cpus : sched :=
  Sched {[ 10 := mk_thread 1 kThreadRunning false; 11 := mk_thread 1 kThreadRunning false;
           12 := mk_thread 1 kThreadRunnable false; 20 := mk_thread 2 kThreadRunning false;
           21 := mk_thread 2 kThreadWaiting false ]}
    {[ 1 := mk_cpu 11 10 [12]; 2 := mk_cpu 20 20 [] ]} [1; 2] 0 false {[ 50 := Waitq false [21] ]} ∅ [].

Lemma two_cpus_inv c p :
  cpus two_cpus !! c = Some p → (c = 1 ∧ p = mk_cpu 11 10 [12]) ∨ (c = 2 ∧ p = mk_cpu 20 20 []).
Proof.
  simpl. rewrite lookup_insert_Some, lookup_singleton_Some. naive_solver.
Qed.

Lemma two_cpus_ok : sched_ok two_cpus.
Proof.
  split.
  - intros c p [[-> ->]|[-> ->]]%two_cpus_inv; split; simpl; try (by apply (bool_decide_unpack _));
      try (by eexists; split; [vm_compute; reflexivity|]).
    + intros t [->|[]%elem_of_nil]%elem_of_cons. eexists. split; [vm_compute; reflexivity|].
      split; [done|by left].
    + intros t []%elem_of_nil.
  - intros c1 c2 p1 p2 [[-> ->]|[-> ->]]%two_cpus_inv [[-> ->]|[-> ->]]%two_cpus_inv Hne; try done;
      split_and!; simpl; by apply (bool_decide_unpack _).
Qed.

Lemma slicer0_ok : slicer_ok 100 timer0.
Proof. eexists. split; [vm_compute; reflexivity|]. by right. Qed.

Lemma sched_reschedule_correct_witness :
  ∃ s' p' nt, sched_reschedule 1 two_cpus = Ok ((), s') ∧ sched_ok s' ∧ sched_lock s' = false ∧
    cpus s' = <[1 := p']> (cpus two_cpus) ∧ curthread p' = 12 ∧ runqueue p' = [11] ∧
    threads s' !! 12 = Some (th_set_state kThreadRunning nt) ∧
    (12 = 11 → regs p' = frame0) ∧
    (12 ≠ 11 → threads two_cpus !! 12 = Some nt ∧ regs p' = th_frame nt ∧
       threads s' !! 11 = Some (th_set_frame frame0 0 (put_away (mk_cpu 11 10 [12]) (mk_thread 1 kThreadRunning false)))) ∧
    ∀ t, t ≠ 12 → t ≠ 11 → threads s' !! t = threads two_cpus !! t.
Proof.
  apply (sched_reschedule_correct two_cpus 1 (mk_cpu 11 10 [12]) (mk_thread 1 kThreadRunning false) two_cpus_ok
    eq_refl); first [apply slicer0_ok|by vm_compute].
Defined.

Lemma thread_resume_correct_witness :
  ∃ s1, sched_ok s1 ∧ sched_lock s1 = false ∧
    threads s1 = <[21 := mk_thread 2 kThreadRunnable false]> (threads two_cpus) ∧
    cpus s1 = <[2 := mk_cpu 20 20 [21]]> (cpus two_cpus) ∧
    (2 = 1 → false = false → thread_resume 1 21 two_cpus = sched_reschedule 1 s1) ∧
    (2 = 1 → false = true → ∃ s2, thread_resume 1 21 two_cpus = Ok ((), s2) ∧
       threads s2 = threads s1 ∧ ∃ p2, cpus s2 !! 1 = Some p2 ∧ runqueue p2 = [21] ∧ preempted p2 = true) ∧
    (2 ≠ 1 → ∃ s2, thread_resume 1 21 two_cpus = Ok ((), s2) ∧ threads s2 = threads s1 ∧ cpus s2 = cpus s1 ∧
       ipis s2 = [2]).
Proof.
  apply (thread_resume_correct two_cpus 1 21 (mk_thread 2 kThreadWaiting false) (mk_cpu 20 20 []) two_cpus_ok eq_refl);
    try done; try (by vm_compute).
  by intros c p [[-> ->]|[-> ->]]%two_cpus_inv.
Defined.

(** Thread 11 has put itself on a wait queue and not switched yet. *)
Definition in_window : sched :=
  set_thread 11 (mk_thread 1 kThreadWaiting true) two_cpus.
Lemma wake_before_switch_witness :
  ∃ s1 s2 p2 th2, thread_resume 2 11 in_window = Ok ((), s1) ∧ sched_reschedule 1 s1 = Ok ((), s2) ∧
    cpus s2 !! 1 = Some p2 ∧ curthread p2 = 11 ∧ threads s2 !! 11 = Some th2 ∧
    th_state th2 = kThreadRunning ∧ th_lock th2 = true ∧
    ∀ w q, waitqs s2 !! w = Some q → wq_lock q = false → waitq_await 1 w s2 = Fatal "spins".
Proof.
  apply (wake_before_switch in_window 1 2 11 (mk_thread 1 kThreadWaiting true) (mk_cpu 11 10 [12]));
    try done; first [apply slicer0_ok|by vm_compute].
Defined.

Lemma thread_new_correct_witness :
  ∃ s' th, thread_new 30 4096 (mk_thread 0 kThreadRunnable true) 7 100 200 two_cpus = Ok (30, s') ∧
    sched_lock s' = false ∧ cpus s' = cpus two_cpus ∧ lastcpu s' = 1 ∧
    threads s' = <[30 := th]> (threads two_cpus) ∧ th_cpu th = 2 ∧ th_state th = kThreadRunnable ∧
    f_rip (th_frame th) = 100 ∧ f_rdi (th_frame th) = 200 ∧ f_rsp (th_frame th) = 4096 + 4 * PGSIZE ∧
    task_threads s' !! 7 = Some (30 :: default [] (task_threads two_cpus !! 7)) ∧
    th_lock th = true.
Proof.
  apply (thread_new_correct two_cpus 30 4096 (mk_thread 0 kThreadRunnable true) 7 100 200 2); done.
Defined.
