(* ===== verification/Intr.v ===== *)
(** * Interrupts: x86_64/intr.c, x86_64/machdep.c

    The interrupt descriptor table, the table of handlers, the dispatcher that
    every interrupt goes through, and the local APIC.  Handlers are code pointers:
    the code behind them is the argument [call] of the dispatcher.  Writes to
    ports and to the APIC are kept in the order they are made; what reads of
    them give is part of the state.  The dispatcher works on the scheduler's
    state, with the CPU it runs on as an argument. *)

From S2P Require Import Prelude Callout Sched SchedProps.
Open Scope Z_scope.

Definition kIntNumSyscall : Z := 128.
Definition kIntNumLAPICTimer : Z := 223.
Definition kIntNumSwitch : Z := 240.
Definition kIntNumInvlPG : Z := 241.
Definition kIntNumReschedule : Z := 242.

Definition kLAPICRegEOI : Z := 0xb0.
Definition kLAPICRegSpurious : Z := 0xf0.
Definition kLAPICRegICR0 : Z := 0x300.
Definition kLAPICRegICR1 : Z := 0x310.
Definition kLAPICRegTimer : Z := 0x320.
Definition kLAPICRegTimerInitial : Z := 0x380.
Definition kLAPICRegTimerCurrentCount : Z := 0x390.
Definition kLAPICRegTimerDivider : Z := 0x3e0.

(** [ipl_t] *)
Definition kSPLHigh : Z := 15.
Definition kSPL0 : Z := 0.

(** [idt_entry_t] *)
Record idt_entry := IdtEntry {
  isr_low : Z; selector : Z; ist : Z; type : Z; isr_mid : Z; isr_high : Z; idt_zero : Z;
}.
(** [struct md_intr_entry]; [name] is never set, [handler] 0 is NULL. *)
Record md_intr_entry := IntrEntry { prio : Z; handler : Z; intr_arg : Z }.

(** [tss_gdt_entry_t] *)
Record tss_gdt_entry := TssEntry {
  length_ : Z; base_low : Z; base_mid : Z; access : Z; flags_ : Z; base_high : Z;
  base_upper : Z; reserved : Z;
}.

Inductive io_event :=
| Outb (port data : Z)
| LapicWrite (addr data : Z)
| Invlpg (vaddr : Z)
| Ltr (sel : Z).

Record machine := Machine {
  sch : sched;
  idt : Z → idt_entry;
  md_intrs : Z → md_intr_entry;
  gdt_tss : tss_gdt_entry;
  invlpg_addr : Z;
  invlpg_done_cnt : Z;
  apic_base : Z;            (** the model-specific register *)
  out : list io_event;      (** last first *)
  inb_in : list Z;          (** what the next reads of a port give *)
  lapic_in : list Z;        (** what the next reads of the APIC give *)
}.

Definition set_sch (x : sched) (s : machine) : machine :=
  Machine x (idt s) (md_intrs s) (gdt_tss s) (invlpg_addr s) (invlpg_done_cnt s) (apic_base s)
    (out s) (inb_in s) (lapic_in s).
Definition set_idt (i : Z) (e : idt_entry) (s : machine) : machine :=
  Machine (sch s) (λ j, if j =? i then e else idt s j) (md_intrs s) (gdt_tss s) (invlpg_addr s)
    (invlpg_done_cnt s) (apic_base s) (out s) (inb_in s) (lapic_in s).
Definition set_intr (i : Z) (e : md_intr_entry) (s : machine) : machine :=
  Machine (sch s) (idt s) (λ j, if j =? i then e else md_intrs s j) (gdt_tss s) (invlpg_addr s)
    (invlpg_done_cnt s) (apic_base s) (out s) (inb_in s) (lapic_in s).
Definition set_tss (e : tss_gdt_entry) (s : machine) : machine :=
  Machine (sch s) (idt s) (md_intrs s) e (invlpg_addr s) (invlpg_done_cnt s) (apic_base s) (out s)
    (inb_in s) (lapic_in s).
Definition set_done (n : Z) (s : machine) : machine :=
  Machine (sch s) (idt s) (md_intrs s) (gdt_tss s) (invlpg_addr s) n (apic_base s) (out s) (inb_in s)
    (lapic_in s).
Definition emit (e : io_event) (s : machine) : machine :=
  Machine (sch s) (idt s) (md_intrs s) (gdt_tss s) (invlpg_addr s) (invlpg_done_cnt s) (apic_base s)
    (e :: out s) (inb_in s) (lapic_in s).
Definition set_inputs (pi li : list Z) (s : machine) : machine :=
  Machine (sch s) (idt s) (md_intrs s) (gdt_tss s) (invlpg_addr s) (invlpg_done_cnt s) (apic_base s)
    (out s) pi li.

Definition on_sched {A} (m : M sched A) : M machine A := λ s,
  match m (sch s) with
  | Ok (a, x) => Ok (a, set_sch x s)
  | Fatal w => Fatal w
  | Undef w => Undef w
  end.

(** ** Ports and the APIC *)

Definition outb (port data : Z) : M machine unit := mmodify (emit (Outb (w16 port) (w8 data))).

Definition HHDM_BASE : Z := 0xffff800000000000.
Definition lapic_addr (base reg : Z) : Z := w64 (HHDM_BASE + (Z.land base 0xfffff000 + reg)).

Definition lapic_read (reg : Z) : M machine Z :=
  s ← mget;
  match lapic_in s with
  | [] => undef "no reading of the APIC given"
  | v :: l => mput (set_inputs (inb_in s) l s);; mret (w32 v)
  end.
Definition lapic_write (reg val : Z) : M machine unit :=
  mmodify (λ s, emit (LapicWrite (lapic_addr (apic_base s) reg) (w32 val)) s).

Definition lapic_eoi : M machine unit := lapic_write kLAPICRegEOI 0.
Definition lapic_enable (spurvec : Z) : M machine unit :=
  v ← lapic_read kLAPICRegSpurious;
  lapic_write kLAPICRegSpurious (Z.lor (Z.lor v (Z.shiftl 1 8)) (w8 spurvec)).

Definition pit_init_oneshot (hz : Z) : M machine unit :=
  if hz =? 0 then undef "division by zero" else
  let divisor := 1193180 / hz in
  outb 0x43 0x30;;
  outb 0x40 (Z.land divisor 0xFF);;
  outb 0x40 (Z.shiftr divisor 8).

(** The loop ends at the first reading with bit 7 set; [None] when none is. *)
Fixpoint await_loop (inputs : list Z) : M machine (list Z) :=
  match inputs with
  | [] => undef "still waiting"
  | v :: l =>
      outb 0x43 (Z.lor (Z.lor (Z.lor (Z.shiftl 1 7) (Z.shiftl 1 6)) (Z.shiftl 1 5)) (Z.shiftl 1 1));;
      if has_flag (w8 v) (Z.shiftl 1 7) then mret l else await_loop l
  end.
Definition pit_await_oneshot : M machine unit :=
  s ← mget;
  rest ← await_loop (inb_in s);
  mmodify (λ s, set_inputs rest (lapic_in s) s).

Definition lapic_timer_calibrate : M machine Z :=
  let initial := 0xffffffff in
  let hz := 50 in
  lapic_write kLAPICRegTimerDivider 0x2;;
  lapic_write kLAPICRegTimer kIntNumLAPICTimer;;
  pit_init_oneshot hz;;
  lapic_write kLAPICRegTimerInitial initial;;
  pit_await_oneshot;;
  apic_after ← lapic_read kLAPICRegTimerCurrentCount;
  mret (w32 (w32 (initial - apic_after) * hz)).

Definition send_ipi (lapic_id intr : Z) : M machine unit :=
  lapic_write kLAPICRegICR1 (w32 (Z.shiftl (w32 lapic_id) 24));;
  lapic_write kLAPICRegICR0 (w8 intr).
Definition md_ipi_invlpg (lapic_id : Z) : M machine unit := send_ipi lapic_id kIntNumInvlPG.
Definition md_ipi_resched (lapic_id : Z) : M machine unit := send_ipi lapic_id kIntNumReschedule.

(** ** Descriptors *)

Definition idt_value (isr ty st : Z) : idt_entry :=
  IdtEntry (Z.land isr 0xFFFF) 0x28 st ty (Z.land (Z.shiftr isr 16) 0xFFFF) (w32 (Z.shiftr isr 32)) 0.
Definition idt_set (index isr ty st : Z) : M machine unit :=
  mmodify (set_idt (w8 index) (idt_value isr (w8 ty) (w8 st))).

(** The task state segment of CPU [num]: element [num] of the array [tss], 104
    bytes each. *)
Definition sizeof_tss : Z := 104.
Definition tss_value (tss : Z) : tss_gdt_entry :=
  TssEntry 0x68 (w16 tss) (w8 (Z.shiftr tss 16)) 0x89 0x0 (w8 (Z.shiftr tss 24)) (w32 (Z.shiftr tss 32)) 0.
Definition setup_cpu_gdt (tss num : Z) : M machine unit :=
  (if (num <? 0) || (64 <=? num) then undef "&tss[cpu->num]" else mret ());;
  mmodify (set_tss (tss_value (tss + sizeof_tss * num)));;
  mmodify (emit (Ltr 72)).

Definition md_intr_register (vec pr h arg : Z) : M machine unit :=
  mmodify (set_intr vec (IntrEntry pr h arg)).

(** [for (i = MAX(prio << 4, 32); i < 256; i++)]: the first free vector. *)
Definition free_vector (s : machine) (pr : Z) : option Z :=
  let i := Z.max (Z.shiftl pr 4) 32 in
  List.find (λ v, handler (md_intrs s v) =? 0) (seqZ i (256 - i)).

Definition md_intr_alloc (pr h arg : Z) : M machine Z :=
  s ← mget;
  let vec := default 0 (free_vector s pr) in
  if vec =? 0 then mret (-1) else
  md_intr_register vec pr h arg;;
  mret vec.

(** [NORMAL_INTS], [SPECIAL_INTS] with their gates. *)
Definition INT : Z := 0x8e.
Definition INT_USER : Z := 0xee.
Definition NORMAL_INTS : list Z := seqZ 32 96 ++ seqZ 129 127.
Definition SPECIAL_INTS : list (Z * Z) :=
  [(4, INT); (6, INT); (8, INT); (10, INT); (11, INT); (12, INT); (13, INT); (14, INT); (128, INT_USER)].

(** [isr_thunk v] is the address of [isr_thunk_v]; the last three arguments are
    the addresses of the handlers. *)
Definition idt_init (isr_thunk : Z → Z) (pagefault_interrupt callout_interrupt sched_timeslice : Z)
    : M machine unit :=
  mfor NORMAL_INTS (λ v, idt_set v (isr_thunk v) INT 0);;
  mfor SPECIAL_INTS (λ x, idt_set x.1 (isr_thunk x.1) x.2 0);;
  md_intr_register 14 kSPL0 pagefault_interrupt 0;;
  md_intr_register kIntNumLAPICTimer kSPL0 callout_interrupt 0;;
  md_intr_register kIntNumReschedule kSPL0 sched_timeslice 0.

(** ** The dispatcher *)

Definition cpu_set_inInterrupt (b : bool) (p : cpu_t) : cpu_t :=
  Cpu (curthread p) (idlethread p) (runqueue p) (preempted p) b (timeslicer p) (timer p) (md_old p)
    (regs p) (fsbase p).
Definition alter_cpu (c : Z) (f : cpu_t → cpu_t) : M sched unit :=
  p ← get_cpu c; mmodify (set_cpu c (f p)).

(** What a handler at an address does, with its argument. *)
Definition handle_int (call : Z → Z → M machine unit) (c num : Z) : M machine unit :=
  p ← on_sched (get_cpu c);
  let oldInInterrupt := inInterrupt p in
  if num =? 240 then on_sched (switch_interrupt c)
  else if num =? kIntNumInvlPG then
    s ← mget;
    mmodify (emit (Invlpg (invlpg_addr s)));;
    mmodify (set_done (s32 (invlpg_done_cnt s + 1)));;
    lapic_eoi
  else
    s ← mget;
    let h := md_intrs s num in
    if handler h =? 0 then fatal "unhandled interrupt" else
    mwhen (32 <=? num) (on_sched (alter_cpu c (cpu_set_inInterrupt true)));;
    call (handler h) (intr_arg h);;
    mwhen (32 <=? num) (
      lapic_eoi;;
      on_sched (alter_cpu c (cpu_set_inInterrupt oldInInterrupt)));;
    p ← on_sched (get_cpu c);
    t ← on_sched (get_thread (curthread p));
    massert (bool_decide (th_state t = kThreadRunning)) "assert(curthread()->state == kThreadRunning)";;
    if preempted p && negb (inInterrupt p) then
      on_sched (alter_cpu c (cpu_set_preempted false));;
      on_sched (sched_reschedule c)
    else mret ().

(** ** Running the pieces *)

Lemma on_sched_ok {A} (m : M sched A) s a x : m (sch s) = Ok (a, x) → on_sched m s = Ok (a, set_sch x s).
Proof. intros E. unfold on_sched. by rewrite E. Qed.

Lemma alter_cpu_ok c f s p :
  cpus s !! c = Some p → alter_cpu c f s = Ok ((), set_cpu c (f p) s).
Proof. intros Hc. unfold alter_cpu. by rewrite (bind_step _ _ _ _ _ (get_cpu_ok _ _ _ Hc)). Qed.

(** Only the flags of a CPU change: the scheduler's state stays sound. *)
Lemma sched_ok_flags s c p p' :
  sched_ok s → cpus s !! c = Some p →
  curthread p' = curthread p → idlethread p' = idlethread p → runqueue p' = runqueue p →
  sched_ok (set_cpu c p' s).
Proof.
  intros Hok Hc E1 E2 E3.
  assert (∀ c' x, cpus (set_cpu c p' s) !! c' = Some x →
    ∃ y, cpus s !! c' = Some y ∧ curthread x = curthread y ∧ idlethread x = idlethread y ∧
      runqueue x = runqueue y) as H.
  { intros c' x. simpl. rewrite lookup_insert_Some. intros [[<- <-]|[? ?]]; eauto 10. }
  split.
  - intros c' x (y & Hy & Ec & Ei & Eq)%H. destruct (so_cpu _ Hok _ _ Hy) as [? ? ? ? ? ?].
    split; by rewrite ?Ec, ?Ei, ?Eq.
  - intros c1 c2 x1 x2 (y1 & Hy1 & C1 & I1 & Q1)%H (y2 & Hy2 & C2 & I2 & Q2)%H.
    rewrite C1, I1, C2, I2, Q2. by apply (so_apart _ Hok).
Qed.

(** The dispatcher on an interrupt that does not go to the switch or the
    invalidation, up to the scheduling decision: the handler runs with
    [inInterrupt] set, then the APIC is told, then [inInterrupt] gets its old
    value. *)
Lemma handle_int_run call c num s p h s1 p1 t :
  32 ≤ num → num ≠ 240 → num ≠ kIntNumInvlPG →
  cpus (sch s) !! c = Some p → md_intrs s num = h → handler h ≠ 0 →
  call (handler h) (intr_arg h) (set_sch (set_cpu c (cpu_set_inInterrupt true p) (sch s)) s) = Ok ((), s1) →
  cpus (sch s1) !! c = Some p1 → threads (sch s1) !! curthread p1 = Some t → th_state t = kThreadRunning →
  let p2 := cpu_set_inInterrupt (inInterrupt p) p1 in
  let s2 := set_sch (set_cpu c p2 (sch s1)) (emit (LapicWrite (lapic_addr (apic_base s1) kLAPICRegEOI) 0) s1) in
  handle_int call c num s =
    (if preempted p1 && negb (inInterrupt p) then
       on_sched (alter_cpu c (cpu_set_preempted false));; on_sched (sched_reschedule c)
     else mret ()) s2.
Proof.
  intros Hn H240 H241 Hc Hh Hh0 Hcall Hc1 Ht Hst p2 s2. unfold handle_int.
  rewrite (bind_step _ _ s p s) by (rewrite (on_sched_ok _ _ _ _ (get_cpu_ok _ _ _ Hc)); by destruct s).
  rewrite (proj2 (Z.eqb_neq num 240)), (proj2 (Z.eqb_neq num kIntNumInvlPG)) by done.
  rewrite (bind_step _ _ s s s) by done. cbv beta. rewrite Hh, (proj2 (Z.eqb_neq (handler h) 0)) by done.
  rewrite (proj2 (Z.leb_le 32 num)) by done. unfold mwhen.
  rewrite (bind_step _ _ _ _ _ (on_sched_ok _ _ _ _ (alter_cpu_ok _ _ _ _ Hc))).
  rewrite (bind_step _ _ _ _ _ Hcall).
  rewrite (bind_step _ _ _ () s2).
  2:{ rewrite (bind_step _ _ _ () (emit (LapicWrite (lapic_addr (apic_base s1) kLAPICRegEOI) 0) s1)) by done.
      by rewrite (on_sched_ok _ (emit _ s1) _ _ (alter_cpu_ok c _ (sch s1) _ Hc1)). }
  assert (cpus (sch s2) !! c = Some p2) as Hc2 by apply lookup_insert_eq.
  rewrite (bind_step _ _ s2 p2 s2) by (by rewrite (on_sched_ok _ _ _ _ (get_cpu_ok _ _ _ Hc2))).
  rewrite (bind_step _ _ s2 t s2) by
    (rewrite (on_sched_ok _ _ _ _ (get_thread_ok (sch s2) (curthread p2) t Ht)); done).
  rewrite Hst. rewrite bool_decide_true, massert_bind by done. done.
Qed.

Definition eoi (s : machine) : io_event := LapicWrite (lapic_addr (apic_base s) kLAPICRegEOI) 0.

(** C21: An interrupt whose handler is [sched_timeslice], taken while a thread
    runs.  The APIC is told exactly once.  When the interrupt is not nested in
    another, the CPU switches to the thread the scheduler's order names, and both
    flags end clear; when it is nested, no thread changes, and the request
    stays in [preempted] for the outer interrupt. *)
Theorem timeslice_interrupt call c num s p old h :
  sched_ok (sch s) → sched_lock (sch s) = false → cpus (sch s) !! c = Some p →
  threads (sch s) !! curthread p = Some old → th_state old = kThreadRunning →
  slicer_ok (timeslicer p) (timer p) →
  32 ≤ num → num ≠ 240 → num ≠ kIntNumInvlPG → md_intrs s num = h → handler h ≠ 0 →
  call (handler h) (intr_arg h) = on_sched (sched_timeslice c) →
  let q := new_queue p old in
  ∃ s' p', handle_int call c num s = Ok ((), s') ∧ sched_ok (sch s') ∧ sched_lock (sch s') = false ∧
    cpus (sch s') = <[c := p']> (cpus (sch s)) ∧ out s' = eoi s :: out s ∧
    inInterrupt p' = inInterrupt p ∧
    (inInterrupt p = false → preempted p' = false ∧ curthread p' = default (idlethread p) (head q) ∧
       runqueue p' = tail q) ∧
    (inInterrupt p = true → p' = cpu_set_preempted true p ∧ threads (sch s') = threads (sch s)).
Proof.
  intros Hok Hl Hc Ht Hst Hsl Hn H240 H241 Hh Hh0 Hcall q.
  set (x1 := set_cpu c (cpu_set_inInterrupt true p) (sch s)).
  set (p1 := cpu_set_preempted true (cpu_set_inInterrupt true p)).
  assert (cpus x1 !! c = Some (cpu_set_inInterrupt true p)) as Hc1 by apply lookup_insert_eq.
  assert (call (handler h) (intr_arg h) (set_sch x1 s) = Ok ((), set_sch (set_cpu c p1 x1) s)) as Hrun.
  { rewrite Hcall. exact (on_sched_ok (sched_timeslice c) (set_sch x1 s) _ _ (alter_cpu_ok c (cpu_set_preempted true) x1 _ Hc1)). }
  rewrite (handle_int_run call c num s p h _ p1 old Hn H240 H241 Hc Hh Hh0 Hrun); [|apply lookup_insert_eq|exact Ht|done].
  change (preempted p1) with true. simpl andb.
  set (s2 := set_sch _ _). set (p2 := cpu_set_inInterrupt (inInterrupt p) p1) in *.
  assert (cpus (sch s2) = <[c := p2]> (cpus (sch s))) as Ec2 by (simpl; by rewrite !insert_insert_eq).
  assert (cpus (sch s2) !! c = Some p2) as Hc2 by (rewrite Ec2; apply lookup_insert_eq).
  destruct (inInterrupt p) eqn:Ei; cbn [andb negb].
  { exists s2, p2. split_and!; try done; [|by destruct p; simpl in *; subst].
    eapply (sched_ok_flags _ c (cpu_set_preempted true (cpu_set_inInterrupt true p))); [|apply lookup_insert_eq|done..].
    eapply (sched_ok_flags _ c (cpu_set_inInterrupt true p)); [|apply lookup_insert_eq|done..].
    by eapply (sched_ok_flags _ c p). }
  set (p3 := cpu_set_preempted false p2). set (x3 := set_cpu c p3 (sch s2)).
  rewrite (bind_step _ _ _ _ _ (on_sched_ok _ _ _ _ (alter_cpu_ok c (cpu_set_preempted false) (sch s2) _ Hc2))).
  set (s3 := set_sch x3 s2).
  assert (cpus x3 = <[c := p3]> (cpus (sch s))) as Ec3 by (simpl; by rewrite !insert_insert_eq).
  assert (cpus x3 !! c = Some p3) as Hc3 by apply lookup_insert_eq.
  assert (sched_ok x3) as Hok3.
  { eapply (sched_ok_flags _ c p2); [|exact Hc2|done..].
    eapply (sched_ok_flags _ c p1); [|apply lookup_insert_eq|done..].
    eapply (sched_ok_flags _ c (cpu_set_inInterrupt true p)); [|apply lookup_insert_eq|done..].
    by eapply (sched_ok_flags _ c p). }
  destruct (next_thread x3 c p3 old Hok3 Hc3 Ht) as (nt & Hnt & _).
  destruct (reschedule_run x3 c p3 old nt Hl Hc3 Ht ltac:(done) Hsl Hnt)
    as (s' & p' & tm & Hr & Hl' & Hcs & Ep & Eth & _).
  exists (set_sch s' s3), p'. split_and!; try done.
  - exact (on_sched_ok (sched_reschedule c) s3 _ _ Hr).
  - apply (after_ok x3 c p3 old nt Hok3 Hc3 Ht Hnt (threads s') p');
      [by rewrite Ep|by rewrite Ep|by rewrite Ep|exact Eth|done|exact Hcs].
  - simpl. by rewrite Hcs, Ec3, insert_insert_eq.
  - rewrite Ep. simpl. done.
  - intros _. rewrite Ep. simpl. done.
Qed.

(** ** Vectors *)

Lemma find_seqZ (f : Z → bool) i n :
  match List.find f (seqZ i n) with
  | Some v => i ≤ v < i + n ∧ f v = true ∧ ∀ w, i ≤ w < v → f w = false
  | None => ∀ w, i ≤ w < i + n → f w = false
  end.
Proof.
  destruct (decide (0 ≤ n)) as [Hn|]; [|rewrite seqZ_nil by lia; simpl; lia].
  revert i. pattern n. apply natlike_ind; [simpl; lia| |done]. clear n Hn. intros n Hn IH i.
  rewrite seqZ_cons by lia. simpl. rewrite Z.pred_succ. destruct (f i) eqn:E; [split_and!; [lia..|done|lia]|].
  specialize (IH (Z.succ i)). destruct (List.find f (seqZ (Z.succ i) n)).
  - destruct IH as (? & ? & Hw). split_and!; [lia..|done|]. intros w ?.
    destruct (decide (w = i)) as [->|]; [done|]. apply Hw. lia.
  - intros w ?. destruct (decide (w = i)) as [->|]; [done|]. apply IH. lia.
Qed.

(** [md_intr_alloc] registers the handler at the lowest free vector of the
    priority's block of sixteen or above it, never below 32, and gives -1 and
    changes nothing exactly when none is free.  For the highest priority the
    first candidate is 240, the switch interrupt: [handle_int] never calls a
    handler registered there. *)
Theorem md_intr_alloc_correct s pr h arg :
  0 ≤ pr ≤ kSPLHigh →
  let lo := Z.max (16 * pr) 32 in
  ((∃ v, md_intr_alloc pr h arg s = Ok (v, set_intr v (IntrEntry pr h arg) s) ∧ lo ≤ v < 256 ∧
      handler (md_intrs s v) = 0 ∧ ∀ w, lo ≤ w < v → handler (md_intrs s w) ≠ 0) ∨
   (md_intr_alloc pr h arg s = Ok (-1, s) ∧ ∀ w, lo ≤ w < 256 → handler (md_intrs s w) ≠ 0)) ∧
  (pr = kSPLHigh → handler (md_intrs s kIntNumSwitch) = 0 →
   md_intr_alloc pr h arg s = Ok (kIntNumSwitch, set_intr kIntNumSwitch (IntrEntry pr h arg) s) ∧
   ∀ call c p s', cpus (sch s') !! c = Some p →
     handle_int call c kIntNumSwitch s' = on_sched (switch_interrupt c) s').
Proof.
  intros Hpr lo. unfold kSPLHigh in *.
  assert (free_vector s pr = List.find (λ v, handler (md_intrs s v) =? 0) (seqZ lo (256 - lo))) as E.
  { unfold free_vector. rewrite Z.shiftl_mul_pow2 by lia. change (2^4) with 16.
    by replace (pr * 16) with (16 * pr) by lia. }
  split.
  - unfold md_intr_alloc. rewrite !(bind_step _ _ s s s) by done. rewrite E.
    pose proof (find_seqZ (λ v, handler (md_intrs s v) =? 0) lo (256 - lo)) as H.
    destruct (List.find _ _) as [v|]; cbv zeta; cbn [default from_option id].
    + left. destruct H as (Hv & Hf & Hw). exists v. rewrite (proj2 (Z.eqb_neq v 0)) by lia.
      split_and!; [done|lia..|by apply Z.eqb_eq|]. intros w ?. by apply Z.eqb_neq, Hw.
    + right. split; [done|]. intros w ?. apply Z.eqb_neq, H. lia.
  - intros -> Hf. split.
    + unfold md_intr_alloc. rewrite (bind_step _ _ s s s) by done. rewrite E.
      change (seqZ lo (256 - lo)) with (kIntNumSwitch :: seqZ 241 15). cbn [List.find]. by rewrite Hf.
    + intros call c p s' Hc. unfold handle_int. rewrite (bind_step _ _ s' p s'); [done|].
      rewrite (on_sched_ok _ _ _ _ (get_cpu_ok _ _ _ Hc)). by destruct s'.
Qed.

(** ** Descriptors *)

(** The address a gate and the base a segment descriptor stand for. *)
Definition gate_addr (e : idt_entry) : Z := isr_low e + 2^16 * isr_mid e + 2^32 * isr_high e.
Definition tss_base (e : tss_gdt_entry) : Z :=
  base_low e + 2^16 * base_mid e + 2^24 * base_high e + 2^32 * base_upper e.

Lemma low_bits x k : 0 ≤ k → Z.land x (Z.ones k) = x mod 2^k.
Proof. intros. by apply Z.land_ones. Qed.

(** A 64-bit address survives being cut into the fields of an interrupt gate
    and of the task state segment's descriptor, and every field fits its width. *)
Theorem descriptors_roundtrip a ty st :
  0 ≤ a < 2^64 →
  gate_addr (idt_value a ty st) = a ∧ tss_base (tss_value a) = a ∧
  (0 ≤ isr_low (idt_value a ty st) < 2^16 ∧ 0 ≤ isr_mid (idt_value a ty st) < 2^16 ∧
   0 ≤ isr_high (idt_value a ty st) < 2^32) ∧
  (0 ≤ base_low (tss_value a) < 2^16 ∧ 0 ≤ base_mid (tss_value a) < 2^8 ∧
   0 ≤ base_high (tss_value a) < 2^8 ∧ 0 ≤ base_upper (tss_value a) < 2^32).
Proof.
  intros Ha. unfold gate_addr, tss_base, idt_value, tss_value, w16, w8, w32. simpl.
  change 0xFFFF with (Z.ones 16). rewrite !low_bits by lia. rewrite !Z.shiftr_div_pow2 by lia.
  change (2^8) with 256. change (2^16) with 65536. change (2^24) with 16777216.
  change (2^32) with 4294967296. change (2^64) with 18446744073709551616 in Ha.
  split_and!; Z.to_euclidean_division_equations; lia.
Qed.

(** ** Witnesses *)

Definition demo_call (h arg : Z) : M machine unit := on_sched (sched_timeslice 1).
Definition demo_machine : machine :=
  Machine two_cpus (λ _, IdtEntry 0 0 0 0 0 0 0)
    (λ v, if v =? kIntNumReschedule then IntrEntry 0 77 0 else IntrEntry 0 0 0)
    (tss_value 0) 0 0 0xfee00800 [] [] [].

Lemma timeslice_interrupt_witness :
  ∃ s' p', handle_int demo_call 1 kIntNumReschedule demo_machine = Ok ((), s') ∧ sched_ok (sch s') ∧
    curthread p' = 12 ∧ runqueue p' = [11] ∧ preempted p' = false.
Proof.
  destruct (timeslice_interrupt demo_call 1 kIntNumReschedule demo_machine (mk_cpu 11 10 [12])
    (mk_thread 1 kThreadRunning false) (IntrEntry 0 77 0) two_cpus_ok eq_refl)
    as (s' & p' & H1 & H2 & H3 & H4 & H5 & H6 & H7 & H8);
    [by vm_compute|by vm_compute|done|apply slicer0_ok|done..|].
  destruct (H7 eq_refl) as (? & ? & ?). exists s', p'. done.
Defined.

Lemma md_intr_alloc_correct_witness :
  md_intr_alloc 2 5 0 demo_machine = Ok (32, set_intr 32 (IntrEntry 2 5 0) demo_machine) ∧
  md_intr_alloc kSPLHigh 5 0 demo_machine =
    Ok (kIntNumSwitch, set_intr kIntNumSwitch (IntrEntry kSPLHigh 5 0) demo_machine).
Proof.
  split; [done|].
  destruct (md_intr_alloc_correct demo_machine kSPLHigh 5 0 ltac:(done)) as [_ H].
  by apply H.
Defined.

Lemma descriptors_roundtrip_witness : gate_addr (idt_value 0xffffffff80001234 INT 0) = 0xffffffff80001234.
Proof. apply (descriptors_roundtrip 0xffffffff80001234 INT 0). lia. Defined.
