(* ===== verification/Tlb.v ===== *)
(** * TLB shootdown: pmap_global_invlpg of x86_64/vm.c and case 241 of handle_int

    One step of the relation is one action of one CPU.  A CPU that starts a
    shootdown turns its interrupts off, spins for the lock, publishes the
    address, sends the interrupt to the others one by one, invalidates its own
    entry and spins until all have answered.  A CPU answers an interrupt only
    when its interrupts are on. *)

From S2P Require Import Prelude.
Open Scope Z_scope.

Section shootdown.
(** The CPUs are numbered from 0 to [ncpu - 1]. *)
Variable ncpu : nat.

Inductive tlb_pc :=
| Running                       (** elsewhere, interrupts on *)
| Spinning (vaddr : Z)          (** [spinlock_lock(&invlpg_global_lock)] *)
| Sending (vaddr : Z) (i : nat) (** in the loop, at CPU [i] *)
| Waiting (vaddr : Z).          (** [while (invlpg_done_cnt != ncpu)] *)

Record tlb := Tlb {
  pcs : nat → tlb_pc;
  holder : option nat;        (** of [invlpg_global_lock] *)
  addr : Z;                   (** [invlpg_addr] *)
  done_cnt : nat;             (** [invlpg_done_cnt] *)
  pending : gset nat;         (** CPUs with the interrupt pending *)
  flushed : gset nat;         (** CPUs that have invalidated since the lock was taken *)
}.

Definition set_pc (c : nat) (x : tlb_pc) (s : tlb) : nat → tlb_pc :=
  λ c', if decide (c' = c) then x else pcs s c'.

Inductive tlb_step : tlb → tlb → Prop :=
| tlb_start c v s : (c < ncpu)%nat → pcs s c = Running →
    tlb_step s (Tlb (set_pc c (Spinning v) s) (holder s) (addr s) (done_cnt s) (pending s) (flushed s))
| tlb_acquire c v s : pcs s c = Spinning v → holder s = None →
    tlb_step s (Tlb (set_pc c (Sending v O) s) (Some c) v 1 (pending s) ∅)
| tlb_send c v i s : pcs s c = Sending v i → (i < ncpu)%nat →
    tlb_step s (Tlb (set_pc c (Sending v (S i)) s) (holder s) (addr s) (done_cnt s)
                  (if decide (i = c) then pending s else {[i]} ∪ pending s) (flushed s))
| tlb_local c v s : pcs s c = Sending v ncpu →
    tlb_step s (Tlb (set_pc c (Waiting v) s) (holder s) (addr s) (done_cnt s) (pending s)
                  ({[c]} ∪ flushed s))
| tlb_finish c v s : pcs s c = Waiting v → done_cnt s = ncpu →
    tlb_step s (Tlb (set_pc c Running s) None (addr s) (done_cnt s) (pending s) (flushed s))
| tlb_answer c s : pcs s c = Running → c ∈ pending s →
    tlb_step s (Tlb (pcs s) (holder s) (addr s) (S (done_cnt s)) (difference (pending s) {[c]})
                  ({[c]} ∪ flushed s)).

Definition tlb_init (s : tlb) : Prop :=
  (∀ c, pcs s c = Running) ∧ holder s = None ∧ pending s = ∅ ∧ flushed s = ∅.

Inductive tlb_reach : tlb → Prop :=
| reach_init s : tlb_init s → tlb_reach s
| reach_step s s' : tlb_reach s → tlb_step s s' → tlb_reach s'.

(** ** The invariant *)

Definition outside (x : tlb_pc) : Prop := x = Running ∨ ∃ v, x = Spinning v.
(** How many CPUs a holder at this point has sent to. *)
Definition sent (x : tlb_pc) : nat := match x with Sending _ i => i | _ => ncpu end.

(** CPU [h] holds the lock for [v]: every CPU it has sent to has the interrupt
    pending or has answered, not both; the counter is one more than those that
    have answered. *)
Record held (s : tlb) (h : nat) (v : Z) : Prop := {
  hd_range : (h < ncpu)%nat;
  hd_pc : pcs s h = Waiting v ∨ ∃ i, pcs s h = Sending v i ∧ (i ≤ ncpu)%nat;
  hd_others c : c ≠ h → outside (pcs s c);
  hd_addr : addr s = v;
  hd_sent j : j ≠ h → ((j < sent (pcs s h))%nat ↔ j ∈ pending s ∨ j ∈ flushed s);
  hd_once j : j ∈ pending s → j ∈ flushed s → False;
  hd_self : (h ∉ pending s);
  hd_waiting : h ∈ flushed s ↔ pcs s h = Waiting v;
  hd_count : done_cnt s = S (size (flushed s ∖ ({[h]} : gset nat)));
}.

Definition tlb_ok (s : tlb) : Prop :=
  (∀ c v, pcs s c = Spinning v → (c < ncpu)%nat) ∧
  match holder s with
  | None => (∀ c, outside (pcs s c)) ∧ pending s = ∅
  | Some h => ∃ v, held s h v
  end.

Lemma set_pc_eq c x s : set_pc c x s c = x.
Proof. unfold set_pc. by rewrite decide_True. Qed.
Lemma set_pc_ne c x s c' : c' ≠ c → set_pc c x s c' = pcs s c'.
Proof. intros. unfold set_pc. by rewrite decide_False. Qed.

(** Past the lock there is only the holder. *)
Lemma past_lock s c : tlb_ok s → ¬ outside (pcs s c) → ∃ v, holder s = Some c ∧ held s c v.
Proof.
  intros [_ H] Hc. destruct (holder s) as [h|]; [|by destruct (Hc (proj1 H c))].
  destruct H as [v H]. destruct (decide (c = h)) as [->|Hne]; [eauto|].
  by destruct (Hc (hd_others _ _ _ H c Hne)).
Qed.

Lemma spinning_range s c v : tlb_ok s → pcs s c = Spinning v → (c < ncpu)%nat.
Proof. intros [H _]. apply H. Qed.

Lemma spins_set s c x :
  tlb_ok s → (∀ v, x = Spinning v → (c < ncpu)%nat) →
  ∀ c' v, set_pc c x s c' = Spinning v → (c' < ncpu)%nat.
Proof.
  intros [H _] Hx c' v. unfold set_pc. case_decide as Hd; [subst; apply Hx|apply H].
Qed.

Lemma start_ok s c v : tlb_ok s → (c < ncpu)%nat → pcs s c = Running →
  tlb_ok (Tlb (set_pc c (Spinning v) s) (holder s) (addr s) (done_cnt s) (pending s) (flushed s)).
Proof.
  intros Hok Hc Hr. split; [by eapply spins_set|]. simpl. destruct Hok as [_ Hh].
  destruct (holder s) as [h|].
  - destruct Hh as [v0 [? Hpc ? ? ? ? ? ? ?]]. exists v0.
    assert (h ≠ c) as Hne by (intros ->; rewrite Hr in Hpc; naive_solver).
    split; simpl; rewrite ?set_pc_ne by done; try done.
    intros c' ?. destruct (decide (c' = c)) as [->|]; [rewrite set_pc_eq; right; eauto|].
    rewrite set_pc_ne by done. auto.
  - destruct Hh as [Ho Hp]. split; [|done]. intros c'.
    destruct (decide (c' = c)) as [->|]; [rewrite set_pc_eq; right; eauto|].
    by rewrite set_pc_ne.
Qed.

Lemma acquire_ok s c v : tlb_ok s → pcs s c = Spinning v → holder s = None →
  tlb_ok (Tlb (set_pc c (Sending v 0) s) (Some c) v 1 (pending s) ∅).
Proof.
  intros Hok Hs Hn. pose proof (spinning_range _ _ _ Hok Hs) as Hc.
  split; [by eapply spins_set|]. simpl. destruct Hok as [_ Hh]. rewrite Hn in Hh.
  destruct Hh as [Ho Hp]. exists v. rewrite Hp. split; simpl; rewrite ?set_pc_eq; try done.
  - right. exists 0%nat. split; [done|lia].
  - intros c' ?. by rewrite set_pc_ne.
  - intros j _. simpl. set_solver by lia.
  - assert ((∅ : gset nat) ∖ {[c]} = ∅) as E by set_solver.
    change (1%nat = S (size ((∅ : gset nat) ∖ {[c]}))). by rewrite E.
Qed.

(** A step of the holder that leaves it in the section. *)
Lemma holder_ok s c v x pend fl :
  tlb_ok s → held s c v → (x = Waiting v ∨ ∃ i, x = Sending v i ∧ (i ≤ ncpu)%nat) →
  (∀ j, j ≠ c → ((j < sent x)%nat ↔ j ∈ pend ∨ j ∈ fl)) →
  (∀ j, j ∈ pend → j ∈ fl → False) → (c ∉ pend) → (c ∈ fl ↔ x = Waiting v) →
  fl ∖ ({[c]} : gset nat) = flushed s ∖ {[c]} → holder s = Some c →
  tlb_ok (Tlb (set_pc c x s) (holder s) (addr s) (done_cnt s) pend fl).
Proof.
  intros Hok [] Hx Hs Ho Hself Hw Hfl Hh. split; [eapply spins_set; [done|naive_solver]|]. simpl.
  rewrite Hh. exists v. split; simpl; rewrite ?set_pc_eq, ?Hfl; try done.
  intros c' ?. rewrite set_pc_ne by done. auto.
Qed.

Lemma size_add (x : nat) (X : gset nat) : (x ∉ X) → size ({[x]} ∪ X) = S (size X).
Proof. intros Hx. rewrite size_union by set_solver. by rewrite size_singleton. Qed.

Lemma answer_ok s c : tlb_ok s → pcs s c = Running → c ∈ pending s →
  tlb_ok (Tlb (pcs s) (holder s) (addr s) (S (done_cnt s)) (difference (pending s) {[c]})
            ({[c]} ∪ flushed s)).
Proof.
  intros [Hsp Hh] Hr Hp. split; [done|]. simpl. destruct (holder s) as [h|]; [|set_solver].
  destruct Hh as [v [? Hpc ? ? Hsent Honce Hself Hwait Hcnt]]. exists v.
  assert (h ≠ c) as Hne by (intros ->; done).
  split; simpl; try done.
  - intros j Hj. rewrite Hsent by done. set_unfold. destruct (decide (j = c)); naive_solver.
  - set_solver.
  - set_solver.
  - rewrite <-Hwait. set_solver.
  - rewrite Hcnt. f_equal.
    assert (({[c]} ∪ flushed s) ∖ {[h]} = {[c]} ∪ flushed s ∖ {[h]}) as -> by set_solver.
    apply eq_sym, size_add. pose proof (Honce c Hp). set_solver.
Qed.

(** When the counter is right, everyone else has answered. *)
Lemma all_answered s h v : held s h v → pcs s h = Waiting v → done_cnt s = ncpu →
  (∀ j, (j < ncpu)%nat → j ∈ flushed s) ∧ pending s = ∅.
Proof.
  intros [Hr _ _ _ Hsent Honce Hself Hwait Hcnt] Hpc Hn. rewrite Hpc in Hsent. simpl in Hsent.
  assert (flushed s ∖ {[h]} = set_seq 0 ncpu ∖ ({[h]} : gset nat)) as E.
  { apply set_subseteq_size_eq.
    - intros j [Hj Hne]%elem_of_difference. rewrite elem_of_singleton in Hne.
      apply elem_of_difference. rewrite elem_of_singleton, elem_of_set_seq. split; [|done].
      pose proof (proj2 (Hsent j Hne) (or_intror Hj)). lia.
    - rewrite size_difference; [|apply singleton_subseteq_l, elem_of_set_seq; lia].
      rewrite size_set_seq, size_singleton. lia. }
  assert (∀ j, (j < ncpu)%nat → j ∈ flushed s) as Hall.
  { intros j Hj. destruct (decide (j = h)) as [->|Hne]; [by apply Hwait|].
    assert (j ∈ flushed s ∖ {[h]}); [|set_solver]. rewrite E. apply elem_of_difference.
    rewrite elem_of_singleton, elem_of_set_seq. split; [lia|done]. }
  split; [done|]. apply set_eq. intros j. split; [|set_solver]. intros Hp. exfalso.
  assert (j ≠ h) as Hne by (intros ->; done).
  apply (Honce j Hp), Hall, (Hsent j Hne). by left.
Qed.

Lemma tlb_step_ok s s' : tlb_ok s → tlb_step s s' → tlb_ok s'.
Proof.
  intros Hok Hst. destruct Hst as [c v s Hc Hr|c v s Hs Hn|c v i s Hpc Hi|c v s Hpc|c v s Hpc Hd|c s Hr Hp].
  - by apply start_ok.
  - by apply acquire_ok.
  - destruct (past_lock s c Hok) as (v' & Hh & Hd); [rewrite Hpc; by intros [|[]]|].
    pose proof Hd as [? Hpc' ? ? Hsent Honce Hself Hwait Hcnt]. rewrite Hpc in *. simpl in Hsent.
    assert (v' = v) as -> by (destruct Hpc' as [|(? & [= ? ?] & ?)]; congruence).
    apply (holder_ok s c v); try done.
    + right. exists (S i). split; [done|lia].
    + intros j Hj. simpl. specialize (Hsent j Hj). case_decide; set_unfold; [|].
      * rewrite <-Hsent. lia.
      * assert ((j < S i)%nat ↔ j = i ∨ (j < i)%nat) as -> by lia. naive_solver.
    + case_decide; [done|]. intros j. rewrite elem_of_union, elem_of_singleton. intros [->|?]; [|eauto].
      intros Hf. pose proof (proj2 (Hsent i ltac:(done)) (or_intror Hf)). lia.
    + case_decide; set_solver.
    + naive_solver.
  - destruct (past_lock s c Hok) as (v' & Hh & Hd); [rewrite Hpc; by intros [|[]]|].
    pose proof Hd as [? Hpc' ? ? Hsent Honce Hself Hwait Hcnt]. rewrite Hpc in *. simpl in Hsent.
    assert (v' = v) as -> by (destruct Hpc' as [|(? & [= ? ?] & ?)]; congruence).
    apply (holder_ok s c v); try done; [by left|..].
    + intros j Hj. simpl. rewrite Hsent by done. set_solver.
    + set_solver.
    + set_solver.
    + set_solver.
  - destruct (past_lock s c Hok) as (v' & Hh & Hw); [rewrite Hpc; by intros [|[]]|].
    pose proof Hw as [? Hpc' Hoth ? Hsent Honce Hself Hwait Hcnt].
    split; [by eapply spins_set|]. simpl. split.
    + intros c'. destruct (decide (c' = c)) as [->|]; [rewrite set_pc_eq; by left|].
      rewrite set_pc_ne by done. auto.
    + assert (v' = v) as -> by (destruct Hpc' as [|(? & ? & ?)]; congruence).
      by apply (all_answered s c v Hw Hpc Hd).
  - by apply answer_ok.
Qed.
Lemma tlb_reach_ok s : tlb_reach s → tlb_ok s.
Proof.
  induction 1 as [s (Hr & Hn & Hp & Hf)|]; [|by eapply tlb_step_ok].
  split; [intros c v E; by rewrite Hr in E|]. rewrite Hn. split; [|done]. intros c. rewrite Hr. by left.
Qed.

(** C11: When the wait of a shootdown ends, every CPU has invalidated the address
    since the shootdown took the lock, the address published is still the one
    asked for, no interrupt is left over for the next shootdown, and no other
    CPU is past the lock. *)
Theorem shootdown_complete s c v :
  tlb_reach s → pcs s c = Waiting v → done_cnt s = ncpu →
  (∀ j, (j < ncpu)%nat → j ∈ flushed s) ∧ addr s = v ∧ pending s = ∅ ∧
  ∀ c', c' ≠ c → outside (pcs s c').
Proof.
  intros Hs Hpc Hd.
  destruct (past_lock s c (tlb_reach_ok s Hs)) as (v' & _ & H); [rewrite Hpc; by intros [|[]]|].
  assert (v' = v) as -> by (destruct (hd_pc _ _ _ H) as [|(? & ? & ?)]; congruence).
  destruct (all_answered s c v H Hpc Hd) as [Ha Hp].
  split_and!; [done|by apply (hd_addr _ _ _ H)|done|by apply (hd_others _ _ _ H)].
Qed.
End shootdown.

(** ** Two CPUs at once *)

Inductive tlb_path (ncpu : nat) : tlb → tlb → Prop :=
| path_nil s : tlb_path ncpu s s
| path_cons s s1 s2 : tlb_step ncpu s s1 → tlb_path ncpu s1 s2 → tlb_path ncpu s s2.

Lemma path_reach ncpu s s' : tlb_reach ncpu s → tlb_path ncpu s s' → tlb_reach ncpu s'.
Proof. intros H Hp. induction Hp; [done|]. eauto using reach_step. Qed.

Definition tlb0 : tlb := Tlb (λ _, Running) None 0 0 ∅ ∅.
Lemma tlb0_reach ncpu : tlb_reach ncpu tlb0.
Proof. by apply reach_init. Qed.

Lemma stuck s s' v w :
  pcs s 0 = Waiting v → pcs s 1 = Spinning w → holder s = Some 0%nat → done_cnt s = 1%nat →
  (∀ c, c ∈ pending s → c = 1%nat) → (∀ c, pcs s (S (S c)) = Running) → ¬ tlb_step 2 s s'.
Proof.
  intros H0 H1 Hh Hd Hp H2 Hst. inversion Hst as [c ?? Hc Hr|c ?? Hs Hn|c ??? Hpc|c ?? Hpc|c|c ? Hr Hc]; subst.
  - destruct c as [|[|c]]; [congruence|congruence|lia].
  - congruence.
  - destruct c as [|[|c]]; try congruence.
  - destruct c as [|[|c]]; try congruence.
  - congruence.
  - apply Hp in Hc as ->. congruence.
Qed.

(** The protocol can stop for ever.  CPU 1 begins a shootdown while CPU 0 is in
    one: it has its interrupts off and spins for the lock that CPU 0 holds, and
    CPU 0 waits for CPU 1 to take the interrupt.  With two CPUs no step is left. *)
Theorem shootdown_deadlock v w :
  ∃ s, tlb_reach 2 s ∧ pcs s 0 = Waiting v ∧ pcs s 1 = Spinning w ∧ 1%nat ∈ pending s ∧
    ∀ s', ¬ tlb_step 2 s s'.
Proof.
  eexists. split.
  { eapply path_reach; [apply tlb0_reach|].
    eapply path_cons; [apply (tlb_start 2 0 v); [lia|done]|].
    eapply path_cons; [by apply (tlb_acquire 2 0 v)|].
    eapply path_cons; [apply (tlb_start 2 1 w); [lia|done]|].
    eapply path_cons; [apply (tlb_send 2 0 v 0); [done|lia]|].
    eapply path_cons; [apply (tlb_send 2 0 v 1); [done|lia]|].
    eapply path_cons; [by apply (tlb_local 2 0 v)|]. apply path_nil. }
  split; [done|split; [done|split]].
  - cbn [pending]. rewrite decide_False by done. set_solver.
  - intros s'. eapply (stuck _ s' v w); try done. cbn [pending]. intros c.
    rewrite decide_False by done. rewrite decide_True by done. set_solver.
Qed.

(** A shootdown on a machine of one CPU. *)
Lemma lone_run : ∃ s, tlb_reach 1 s ∧ pcs s 0%nat = Waiting 4096 ∧ done_cnt s = 1%nat.
Proof.
  eexists. split.
  - eapply path_reach; [apply tlb0_reach|].
    eapply path_cons; [apply (tlb_start 1 0 4096); [lia|done]|].
    eapply path_cons; [by apply (tlb_acquire 1 0 4096)|].
    eapply path_cons; [apply (tlb_send 1 0 4096 0); [done|lia]|].
    eapply path_cons; [by apply (tlb_local 1 0 4096)|]. apply path_nil.
  - done.
Qed.

Lemma shootdown_complete_witness : ∃ s, tlb_reach 1 s ∧ 0%nat ∈ flushed s ∧ pending s = ∅.
Proof.
  destruct lone_run as (s & Hs & Hpc & Hd). exists s.
  destruct (shootdown_complete 1 s 0 4096 Hs Hpc Hd) as (Ha & _ & Hp & _).
  split_and!; [done|apply Ha; lia|done].
Defined.
