(* ===== verification/Kmain.v ===== *)
(** * Start-up: x86_64/kmain.c

    The message buffer behind [kprintf], the regions of physical memory the boot
    loader reports, and the initialisation of each CPU.  What the boot loader
    (Limine) answers is an argument; the terminal it offers only shows text. *)

From S2P Require Import Prelude VmPage Pmap PmapProps Callout Sched Intr.
Open Scope Z_scope.

Definition kPortCOM1 : Z := 0x3f8.

(** ** The message buffer *)

(** [struct msgbuf] of kern/types.h, with indices of type [size_t]. *)
Record msgbuf := Msgbuf { mb_buf : Z → Z; mb_read : Z; mb_write : Z }.

(** The first part of [md_kputc]; the tests are those of the code, with their
    side effects in order. *)
Definition msgbuf_put (ch : Z) (b : msgbuf) : msgbuf :=
  let buf := λ i, if i =? mb_write b then w8 ch else mb_buf b i in
  let write := w64 (mb_write b + 1) in
  let write := if 4096 <=? write then 0 else write in
  if mb_read b =? write then
    let read := w64 (mb_read b + 1) in
    Msgbuf buf (if read =? write then 0 else read) write
  else Msgbuf buf (mb_read b) write.

(** The line status register is read until bit 5 is set; the result is what is
    left of the readings. *)
Fixpoint com1_wait (inputs : list Z) : M machine (list Z) :=
  match inputs with
  | [] => undef "still waiting"
  | v :: l => if negb (has_flag (w8 v) 0x20) then com1_wait l else mret l
  end.
Definition com1_put (ch : Z) : M machine unit :=
  s ← mget;
  rest ← com1_wait (inb_in s);
  mmodify (λ s, set_inputs rest (lapic_in s) s);;
  outb kPortCOM1 ch.

Definition serial_init : M machine unit :=
  outb (kPortCOM1 + 1) 0x00;;
  outb (kPortCOM1 + 3) 0x80;;
  outb (kPortCOM1 + 0) 0x03;;
  outb (kPortCOM1 + 1) 0x00;;
  outb (kPortCOM1 + 3) 0x03;;
  outb (kPortCOM1 + 2) 0xC7;;
  outb (kPortCOM1 + 4) 0x0B.

(** ** Physical memory *)

(** [struct limine_memmap_entry]; type 0 is usable memory. *)
Record memmap_entry := MemmapEntry { mm_base : Z; mm_length : Z; mm_type : Z }.

(** [sizeof] the structures of vm/vm.h. *)
Definition sizeof_vm_pregion : Z := 32.
Definition sizeof_vm_page : Z := 88.

(** The bytes the region's own descriptor and page structures take. *)
Definition region_used (npages : Z) : Z := ROUNDUP (sizeof_vm_pregion + sizeof_vm_page * npages) PGSIZE.

(** Pages [b] of a region, for [b] from [i] to [n - 1]. *)
Definition region_pages (base i n : Z) : list Z := (λ b, base + PGSIZE * b) <$> seqZ i (n - i).

Definition queue_append (page : Z) (to : pagequeue) (qs : pagequeue → vm_pagequeue)
    : pagequeue → vm_pagequeue :=
  λ q, if decide (q = to) then PQ (pq_list (qs q) ++ [page]) (w64 (npages (qs q) + 1)) else qs q.

(** The field [queue], the tail of the list, the counter. *)
Definition put_page (q : pagequeue) (st page : Z) : M pstate unit :=
  mmodify (λ s, PState (pregions s) (queue_append page q (queues s))
                  (λ p, if p =? page then st else page_queue s p) (pv_table s) (phys s)).
(** Page [b] of the region at [base]: [PGSIZE * b] is a product of two [int]s. *)
Definition init_page (base b : Z) : M pstate unit :=
  (if PGSIZE * b <? 2^31 then mret () else undef "PGSIZE * b");;
  let page := base + PGSIZE * b in
  mmodify (λ s, PState (pregions s) (queues s) (page_queue s)
                  (λ p, if p =? page then [] else pv_table s p) (phys s)).

Definition usable (e : memmap_entry) : bool := (mm_type e =? 0) && (0x100000 <=? mm_base e).

(** The body of the loop of [mem_init]. *)
Definition init_region (e : memmap_entry) : M pstate unit :=
  if negb (usable e) then mret () else
  let n := mm_length e / PGSIZE in
  let used := region_used n in
  mfor (seqZ 0 n) (init_page (mm_base e));;
  mfor (region_pages (mm_base e) 0 (used / PGSIZE)) (put_page pgpmapq kVMPagePMap);;
  mfor (region_pages (mm_base e) (used / PGSIZE) n) (put_page pgfreeq kVMPageFree);;
  mmodify (λ s, PState (pregions s ++ [PRegion (mm_base e) n]) (queues s) (page_queue s) (pv_table s)
                  (phys s)).

Definition scan_memmap (entries : list memmap_entry) : M pstate unit := mfor entries init_region.

(** The kernel stops when the direct map or the kernel are not where
    it expects them. *)
Definition mem_init (hhdm_offset virtual_base : Z) (entries : list memmap_entry) (cr3 : Z)
    : M pstate unit :=
  if negb (hhdm_offset =? 0xffff800000000000) then fatal "Unexpected HHDM offset"
  else if negb (virtual_base =? 0xffffffff80000000) then fatal "Unexpected kernel virtual base"
  else
    scan_memmap entries;;
    x64_vm_init cr3.

(** ** The CPUs *)

(** [for (int i = 0; i < 3; i++) cpu->md.lapic_tps += lapic_timer_calibrate() / 3;] *)
Fixpoint measure (n : nat) (tps : Z) : M machine Z :=
  match n with
  | O => mret tps
  | S n' => t ← lapic_timer_calibrate; measure n' (w64 (tps + t / 3))
  end.

(** [task] is [&task0], [slice_fn] the address of [sched_timeslice]; the CPU's
    number is its place in the array. *)
Definition common_init (task slice_fn tss c num : Z) : M machine unit :=
  p ← on_sched (get_cpu c);
  on_sched (mmodify (λ s, Sched (threads s) (cpus s) (cpu_array s) (lastcpu s) (sched_lock s) (waitqs s)
    (<[task := curthread p :: default [] (task_threads s !! task)]> (task_threads s)) (ipis s)));;
  lapic_enable 0xff;;
  setup_cpu_gdt tss num;;
  tps ← measure 3 0;
  p ← on_sched (get_cpu c);
  let slicer := timeslicer p in
  co ← deref (callouts (timer p) !! slicer) "&cpu->timeslicer";
  on_sched (mmodify (set_cpu c (Cpu (curthread p) (curthread p) [] false false slicer
    (CpuTimer [] (<[slicer := Callout slice_fn 0 (nanosecs co) kCalloutDisabled]> (callouts (timer p))) tps
       (timer_count (timer p)))
    (md_old p) (regs p) (fsbase p))));;
  t ← on_sched (get_thread (curthread p));
  on_sched (mmodify (set_thread (curthread p) (th_set_state kThreadRunning t))).

(** ** The message buffer, counted *)

Definition msgbuf0 : msgbuf := Msgbuf (λ _, 0) 0 0.
Definition put_all (l : list Z) : msgbuf := foldl (λ b ch, msgbuf_put ch b) msgbuf0 l.

(** Where the reader starts after [n] characters. *)
Definition read_index (n : Z) : Z :=
  if n <? 4096 then 0 else if n <? 8192 then n - 4095 else 4096.

(** After [n] characters the message buffer writes at [n mod 4096], never
    outside.  The read index is 0 until the buffer is full and then follows the
    write index, but it does not wrap: from character 8191 on it is 4096, one
    past the end of the buffer, for ever. *)
Theorem msgbuf_indices l :
  mb_write (put_all l) = Z.of_nat (length l) mod 4096 ∧
  mb_read (put_all l) = read_index (Z.of_nat (length l)) ∧
  (8191 ≤ Z.of_nat (length l) → mb_read (put_all l) = 4096).
Proof.
  assert (mb_write (put_all l) = Z.of_nat (length l) mod 4096 ∧
          mb_read (put_all l) = read_index (Z.of_nat (length l))) as [H1 H2].
  { induction l as [|ch l IH] using rev_ind; [done|].
    unfold put_all. rewrite foldl_app, length_app. fold (put_all l). simpl foldl. simpl (length [ch]).
    generalize dependent (put_all l). intros b IH.
    rewrite Nat2Z.inj_add. change (Z.of_nat 1) with 1. set (n := Z.of_nat (length l)) in *.
    assert (0 ≤ n) by lia. destruct IH as [Hw Hr]. unfold msgbuf_put. cbv zeta. rewrite Hw, Hr.
    assert (0 ≤ n mod 4096 < 4096) by (apply Z.mod_pos_bound; lia).
    assert (0 ≤ read_index n ≤ 4096) by (unfold read_index; zcases; lia).
    rewrite (w64_small (n mod 4096 + 1)), (w64_small (read_index n + 1)) by lia.
    unfold read_index in *. Z.to_euclidean_division_equations. zcases; simpl; lia. }
  split_and!; [done|done|]. intros Hn. rewrite H2. unfold read_index. zcases; lia.
Qed.

(** ** The regions *)

(** [s] with the pages [l] put on queue [q]. *)
Definition put_pages (q : pagequeue) (st : Z) (l : list Z) (s : pstate) : pstate :=
  PState (pregions s)
    (λ r, if decide (r = q) then PQ (pq_list (queues s r) ++ l) (npages (queues s r) + Z.of_nat (length l))
          else queues s r)
    (λ p, if decide (p ∈ l) then st else page_queue s p) (pv_table s) (phys s).

(** Two states that are the same, queue by queue and page by page; counters are
    compared in [size_t]. *)
Record same_pages (s s' : pstate) : Prop := {
  sp_regions : pregions s = pregions s';
  sp_list q : pq_list (queues s q) = pq_list (queues s' q);
  sp_count q : w64 (npages (queues s q)) = w64 (npages (queues s' q));
  sp_queue p : page_queue s p = page_queue s' p;
  sp_phys : phys s = phys s';
}.
#[export] Instance same_pages_equiv : Equivalence same_pages.
Proof.
  split.
  - done.
  - intros s s' []. by split.
  - intros s1 s2 s3 [] []. split; congruence.
Qed.

Lemma put_pages_run q st l s0 s :
  same_pages s s0 → ∃ s', mfor l (put_page q st) s = Ok ((), s') ∧ same_pages s' (put_pages q st l s0).
Proof.
  revert s s0. induction l as [|x l IH]; intros s s0 Hs.
  - exists s. split; [done|]. destruct Hs as [? Hl Hc ? ?]. split; simpl; try done.
    + intros r. case_decide; simpl; by rewrite ?app_nil_r.
    + intros r. case_decide; simpl; by rewrite ?Z.add_0_r.
  - simpl. eassert (put_page q st x s = Ok ((), _)) as H1 by done. rewrite (bind_step _ _ _ _ _ H1). clear H1.
    match goal with |- ∃ s', mfor _ _ ?s1 = _ ∧ _ => set (s1' := s1) end.
    destruct (IH s1' (put_pages q st [x] s0)) as (s' & Hr & Hs').
    { destruct Hs as [? Hl Hc Hq ?]. split; simpl; try done.
      - intros r. unfold queue_append. case_decide; simpl; by rewrite Hl.
      - intros r. unfold queue_append. case_decide; simpl; [|done]. subst.
        unfold w64 in *. rewrite Z.mod_mod by lia. rewrite <-Zplus_mod_idemp_l, Hc. apply Zplus_mod_idemp_l.
      - intros p. rewrite Hq. destruct (Z.eqb_spec p x) as [->|].
        + rewrite decide_True; [done|]. set_solver.
        + rewrite decide_False; [done|]. set_solver. }
    exists s'. split; [done|]. transitivity (put_pages q st l (put_pages q st [x] s0)); [done|].
    split; simpl; try done.
    + intros r. repeat case_decide; simpl; try done. by rewrite <-app_assoc.
    + intros r. repeat case_decide; simpl; try done. f_equal. lia.
    + intros p. destruct (decide (p ∈ l)), (decide (p ∈ [x])), (decide (p ∈ x :: l)); set_solver.
Qed.

Lemma init_pages_run base l s :
  Forall (λ b, PGSIZE * b < 2^31) l → ∃ s', mfor l (init_page base) s = Ok ((), s') ∧ same_pages s' s.
Proof.
  intros Hl. revert s. induction Hl as [|x l Hx _ IH]; intros s; [by exists s|].
  simpl. eassert (init_page base x s = Ok ((), _)) as H1
    by (unfold init_page; rewrite (proj2 (Z.ltb_lt _ _)) by done; reflexivity).
  rewrite (bind_step _ _ _ _ _ H1). clear H1.
  match goal with |- ∃ s', mfor _ _ ?s1 = _ ∧ _ => destruct (IH s1) as (s' & Hr & Hs') end.
  exists s'. split; [done|]. destruct Hs'. by split.
Qed.

(** ** Memory the boot loader may report *)

(** A region has at most 2^19 pages: the address of a later one overflows an [int]. *)
Definition entry_ok (e : memmap_entry) : Prop :=
  mm_base e mod PGSIZE = 0 ∧ 0 ≤ mm_base e ∧ PGSIZE ≤ mm_length e ∧
  mm_length e / PGSIZE ≤ 2^19 ∧ mm_base e + mm_length e ≤ 2^52.
Definition apart (e1 e2 : memmap_entry) : Prop :=
  mm_base e1 + mm_length e1 ≤ mm_base e2 ∨ mm_base e2 + mm_length e2 ≤ mm_base e1.
Record memmap_ok (l : list memmap_entry) : Prop := {
  mm_entries e : e ∈ l → usable e = true → entry_ok e;
  mm_apart i j e1 e2 : l !! i = Some e1 → l !! j = Some e2 → i ≠ j →
    usable e1 = true → usable e2 = true → apart e1 e2;
}.

(** The region of an entry, the pages of its tables and its free pages. *)
Definition region_of (e : memmap_entry) : pregion := PRegion (mm_base e) (mm_length e / PGSIZE).
Definition table_pages (e : memmap_entry) : list Z :=
  let n := mm_length e / PGSIZE in region_pages (mm_base e) 0 (region_used n / PGSIZE).
Definition free_pages (e : memmap_entry) : list Z :=
  let n := mm_length e / PGSIZE in region_pages (mm_base e) (region_used n / PGSIZE) n.

Definition add_region (e : memmap_entry) (s : pstate) : pstate :=
  let s := put_pages pgfreeq kVMPageFree (free_pages e) (put_pages pgpmapq kVMPagePMap (table_pages e) s) in
  PState (pregions s ++ [region_of e]) (queues s) (page_queue s) (pv_table s) (phys s).

Lemma init_region_run e s0 s :
  (usable e = true → entry_ok e) → same_pages s s0 →
  ∃ s', init_region e s = Ok ((), s') ∧ same_pages s' (if usable e then add_region e s0 else s0).
Proof.
  intros He Hs. unfold init_region. destruct (usable e); cbn [negb]; [|by exists s].
  destruct (He eq_refl) as (_ & _ & _ & Hfew & _).
  cbv zeta. set (n := mm_length e / PGSIZE).
  change (region_pages (mm_base e) 0 (region_used n / PGSIZE)) with (table_pages e).
  change (region_pages (mm_base e) (region_used n / PGSIZE) n) with (free_pages e).
  destruct (init_pages_run (mm_base e) (seqZ 0 n) s) as (s1 & H1 & Hs1).
  { apply Forall_forall. intros b Hb%elem_of_seqZ. unfold PGSIZE in *. lia. }
  rewrite (bind_step _ _ _ _ _ H1).
  destruct (put_pages_run pgpmapq kVMPagePMap (table_pages e) s0 s1) as (s2 & H2 & Hs2).
  { by transitivity s. }
  rewrite (bind_step _ _ _ _ _ H2).
  destruct (put_pages_run pgfreeq kVMPageFree (free_pages e) _ s2 Hs2) as (s3 & H3 & Hs3).
  rewrite (bind_step _ _ _ _ _ H3).
  eexists. split; [done|]. destruct Hs3 as [Hr ? ? ? ?]. split; try done. simpl. by rewrite Hr.
Qed.

Definition empty_pages (m : mem) : pstate := PState [] (λ _, PQ [] 0) (λ _, 0) (λ _, []) m.

Lemma init_regions_run l s0 s :
  (∀ e, e ∈ l → usable e = true → entry_ok e) → same_pages s s0 →
  ∃ s', mfor l init_region s = Ok ((), s') ∧
    same_pages s' (foldl (λ s e, if usable e then add_region e s else s) s0 l).
Proof.
  revert s0 s. induction l as [|e l IH]; intros s0 s He Hs; [by exists s|].
  destruct (init_region_run e s0 s (He e ltac:(left)) Hs) as (s1 & H1 & Hs1).
  simpl. rewrite (bind_step _ _ _ _ _ H1). apply IH; [|done]. intros e' Hin. apply He. by right.
Qed.

Lemma elem_of_region_pages base i n x :
  x ∈ region_pages base i n ↔ ∃ b, i ≤ b < n ∧ x = base + PGSIZE * b.
Proof.
  unfold region_pages. rewrite list_elem_of_fmap. setoid_rewrite elem_of_seqZ.
  split; intros (b & ? & ?); exists b; split; lia.
Qed.
Lemma NoDup_region_pages base i n : NoDup (region_pages base i n).
Proof. apply NoDup_fmap_2; [intros ???; unfold PGSIZE in *; lia|apply NoDup_seqZ]. Qed.

Lemma region_used_eq n : 0 ≤ n ≤ 2^40 →
  region_used n = PGSIZE * (region_used n / PGSIZE) ∧ 1 ≤ region_used n / PGSIZE ∧
  sizeof_vm_pregion + sizeof_vm_page * n ≤ region_used n ∧ (1 ≤ n → region_used n / PGSIZE ≤ n).
Proof.
  intros Hn. unfold region_used. change (ROUNDUP ?a PGSIZE) with (PGROUNDUP a). rewrite PGROUNDUP_eq by (unfold sizeof_vm_pregion, sizeof_vm_page; lia).
  unfold sizeof_vm_pregion, sizeof_vm_page, PGSIZE.
  split_and!; Z.to_euclidean_division_equations; lia.
Qed.

Lemma entry_npages e : entry_ok e → 1 ≤ mm_length e / PGSIZE ≤ 2^40 ∧
  PGSIZE * (mm_length e / PGSIZE) ≤ mm_length e.
Proof. unfold entry_ok, PGSIZE. intros. Z.to_euclidean_division_equations. lia. Qed.

(** A page of the tables, or a free page, lies in its entry. *)
Lemma free_page_in e x : entry_ok e → x ∈ free_pages e →
  mm_base e + region_used (mm_length e / PGSIZE) ≤ x ∧ x + PGSIZE ≤ mm_base e + mm_length e ∧
  x mod PGSIZE = 0.
Proof.
  intros He (b & Hb & ->)%elem_of_region_pages. destruct (entry_npages e He) as [Hn Hl].
  destruct (region_used_eq (mm_length e / PGSIZE)) as (E & ? & ? & ?); [lia|].
  destruct He as (Ha & _). rewrite E. set (n := mm_length e / PGSIZE) in *.
  set (u := region_used n / PGSIZE) in *. unfold PGSIZE in *.
  split_and!; [lia|lia|]. rewrite Z.mul_comm, Z.mod_add by lia. done.
Qed.
Lemma table_page_in e x : entry_ok e → x ∈ table_pages e →
  mm_base e ≤ x ∧ x + PGSIZE ≤ mm_base e + mm_length e.
Proof.
  intros He (b & Hb & ->)%elem_of_region_pages. destruct (entry_npages e He) as [Hn Hl].
  destruct (region_used_eq (mm_length e / PGSIZE)) as (E & ? & ? & ?); [lia|].
  unfold PGSIZE in *. lia.
Qed.
Lemma page_in e x : entry_ok e → x ∈ free_pages e ∨ x ∈ table_pages e →
  mm_base e ≤ x ∧ x + PGSIZE ≤ mm_base e + mm_length e.
Proof.
  intros He [Hx|Hx]; [|by apply table_page_in]. destruct (free_page_in e x He Hx) as (? & ? & _).
  destruct (entry_npages e He) as [Hn Hl].
  destruct (region_used_eq (mm_length e / PGSIZE)) as (E & ? & ? & ?); [lia|].
  unfold PGSIZE in *. lia.
Qed.

Definition regions_of (l : list memmap_entry) : list memmap_entry := List.filter usable l.

Record scanned (l : list memmap_entry) (s : pstate) : Prop := {
  sc_regions : pregions s = region_of <$> regions_of l;
  sc_free : pq_list (queues s pgfreeq) = regions_of l ≫= free_pages;
  sc_table : pq_list (queues s pgpmapq) = regions_of l ≫= table_pages;
  sc_other q : q ≠ pgfreeq → q ≠ pgpmapq → pq_list (queues s q) = [];
  sc_count q : npages (queues s q) = Z.of_nat (length (pq_list (queues s q)));
  sc_queue_free x : x ∈ regions_of l ≫= free_pages → page_queue s x = kVMPageFree;
  sc_queue_table x : x ∈ regions_of l ≫= table_pages → page_queue s x = kVMPagePMap;
}.

Lemma regions_snoc l e : regions_of (l ++ [e]) = regions_of l ++ (if usable e then [e] else []).
Proof. unfold regions_of. rewrite List.filter_app. simpl. by destruct (usable e). Qed.

(** The pages of an entry added to others are not among theirs. *)
Lemma new_pages_apart l e x e' :
  memmap_ok (l ++ [e]) → usable e = true → e' ∈ regions_of l →
  x ∈ free_pages e ∨ x ∈ table_pages e → x ∈ free_pages e' ∨ x ∈ table_pages e' → False.
Proof.
  intros Hok Hu [He' Hu']%list_elem_of_In%List.filter_In Hx Hx'.
  apply list_elem_of_In in He'. apply list_elem_of_lookup in He' as [i Hi].
  assert (entry_ok e) as H1 by (apply (mm_entries _ Hok); [set_solver|done]).
  assert (entry_ok e') as H2.
  { apply (mm_entries _ Hok); [|done]. apply elem_of_app. left. by eapply list_elem_of_lookup_2. }
  pose proof (lookup_lt_Some _ _ _ Hi).
  pose proof (page_in e x H1 Hx). pose proof (page_in e' x H2 Hx'). unfold PGSIZE in *.
  destruct (mm_apart _ Hok (length l) i e e') as [Ha|Ha]; try done; try lia.
  - by rewrite lookup_app_r, Nat.sub_diag by lia.
  - by rewrite lookup_app_l by lia.
Qed.

Lemma memmap_ok_app l1 l2 : memmap_ok (l1 ++ l2) → memmap_ok l1.
Proof.
  intros [He Ha]. split.
  - intros e Hin. apply He. set_solver.
  - intros i j e1 e2 H1 H2. apply (Ha i j); by apply lookup_app_l_Some.
Qed.

Lemma table_not_free e x : entry_ok e → x ∈ table_pages e → x ∈ free_pages e → False.
Proof.
  intros He (b & Hb & ->)%elem_of_region_pages (b' & Hb' & E)%elem_of_region_pages.
  unfold PGSIZE in E. lia.
Qed.

Lemma scan_spec l m :
  memmap_ok l → scanned l (foldl (λ s e, if usable e then add_region e s else s) (empty_pages m) l).
Proof.
  induction l as [|e l IH] using rev_ind; intros Hok.
  { split; try done; intros x Hx; by apply elem_of_nil in Hx. }
  rewrite foldl_app. simpl. specialize (IH (memmap_ok_app _ _ Hok)).
  set (s := foldl _ _ l) in *. destruct IH as [Hr Hf Ht Ho Hc Hqf Hqt].
  destruct (usable e) eqn:Hu; [|by split; rewrite ?regions_snoc, ?Hu, ?app_nil_r].
  assert (entry_ok e) as He by (apply (mm_entries _ Hok); [set_solver|done]).
  assert (∀ x, x ∈ regions_of l ≫= free_pages ∨ x ∈ regions_of l ≫= table_pages →
    x ∈ free_pages e ∨ x ∈ table_pages e → False) as Hnew.
  { intros x Hx Hx'.
    assert (∃ e', e' ∈ regions_of l ∧ (x ∈ free_pages e' ∨ x ∈ table_pages e')) as (e' & He' & H').
    { rewrite !list_elem_of_bind in Hx. naive_solver. }
    by apply (new_pages_apart l e x e' Hok Hu He' Hx'). }
  split; rewrite ?regions_snoc, ?Hu, ?bind_app; simpl; rewrite ?app_nil_r.
  - by rewrite Hr, fmap_app.
  - by rewrite Hf.
  - by rewrite Ht.
  - intros q Hq1 Hq2. rewrite !decide_False by done. auto.
  - intros q. repeat case_decide; simpl; rewrite ?length_app, ?Hc; lia.
  - intros x. rewrite elem_of_app. intros [Hx|Hx]; [|by rewrite decide_True].
    pose proof (Hnew x (or_introl Hx)). rewrite !decide_False by tauto. auto.
  - intros x. rewrite elem_of_app. intros [Hx|Hx].
    + pose proof (Hnew x (or_intror Hx)). rewrite !decide_False by tauto. auto.
    + rewrite decide_False by (intros Hx'; by apply (table_not_free e x)). by rewrite decide_True.
Qed.

Lemma scan_nodup l (f : memmap_entry → list Z) :
  memmap_ok l → (∀ e, NoDup (f e)) →
  (∀ e x, x ∈ f e → x ∈ free_pages e ∨ x ∈ table_pages e) → NoDup (regions_of l ≫= f).
Proof.
  intros Hok Hf Hin. induction l as [|e l IH] using rev_ind; [apply NoDup_nil_2|].
  rewrite regions_snoc, bind_app. destruct (usable e) eqn:Hu; simpl; rewrite ?app_nil_r;
    [|by apply IH, (memmap_ok_app _ _ Hok)].
  apply NoDup_app. split_and!; [by apply IH, (memmap_ok_app _ _ Hok)| |done].
  intros x (e' & Hx & He')%list_elem_of_bind Hx'. eapply (new_pages_apart l e x e' Hok Hu); eauto.
Qed.

Lemma elem_of_regions l e : e ∈ regions_of l ↔ e ∈ l ∧ usable e = true.
Proof. unfold regions_of. by rewrite !list_elem_of_In, List.filter_In. Qed.

Lemma from_paddr_region l s e x :
  memmap_ok l → pregions s = region_of <$> regions_of l → e ∈ regions_of l →
  x ∈ free_pages e → vm_page_from_paddr s x = Some x.
Proof.
  intros Hok Hr He Hx. unfold vm_page_from_paddr. rewrite Hr.
  assert (∀ e', e' ∈ regions_of l → entry_ok e') as Hall.
  { intros e' [? ?]%elem_of_regions. by apply (mm_entries _ Hok). }
  assert (∃ y, y ∈ region_of <$> regions_of l ∧ pr_base y ≤ x < pr_base y + PGSIZE * pr_npages y) as Hex.
  { exists (region_of e). split; [by apply list_elem_of_fmap_2|]. simpl.
    apply elem_of_region_pages in Hx as (b & Hb & ->).
    pose proof (region_used_eq (mm_length e / PGSIZE)). pose proof (entry_npages e (Hall e He)).
    unfold PGSIZE in *. lia. }
  assert (x mod PGSIZE = 0) as Hx0 by (by apply (free_page_in e x (Hall e He))).
  clear Hr He Hx e. induction (regions_of l) as [|e es IH]; simpl.
  { destruct Hex as (y & Hy & _). by apply elem_of_nil in Hy. }
  destruct (_ && _) eqn:E.
  - f_equal. destruct (Hall e ltac:(set_solver)) as (Hb & _). unfold PGSIZE in *.
    apply andb_true_iff in E as [?%Z.leb_le ?%Z.ltb_lt].
    Z.to_euclidean_division_equations. lia.
  - apply IH; [set_solver|]. destruct Hex as (y & Hy & Hxy). exists y. split; [|done].
    apply elem_of_cons in Hy as [->|?]; [|done]. exfalso. simpl in *. revert E Hxy. zcases; lia.
Qed.

Lemma scanned_queues_ok l s s' : memmap_ok l → scanned l s → same_pages s' s → queues_ok s'.
Proof.
  intros Hok [Hr Hf Ht Ho Hc Hqf Hqt] [Er El Ec Eq Ep].
  assert (∀ x, on_queue s' pgfreeq x → on_queue s' pgpmapq x → False) as Hne.
  { unfold on_queue. intros x. rewrite !El, Hf, Ht. intros Hx%Hqf Hx'%Hqt.
    unfold kVMPageFree, kVMPagePMap in *. congruence. }
  assert (∀ q, q = pgfreeq ∨ q = pgpmapq ∨ pq_list (queues s' q) = []) as Hq.
  { intros q. rewrite El. destruct (decide (q = pgfreeq)), (decide (q = pgpmapq)); auto. }
  split.
  - intros q. destruct (Hq q) as [->|[->|E]].
    + rewrite El, Hf. apply scan_nodup; eauto using NoDup_region_pages.
    + rewrite El, Ht. apply scan_nodup; eauto using NoDup_region_pages.
    + rewrite E. apply NoDup_nil_2.
  - intros q r x Hx Hx'. pose proof (Hne x).
    destruct (Hq q) as [->|[->|E]], (Hq r) as [->|[->|E']]; try done; try tauto;
      unfold on_queue in *; rewrite ?E, ?E' in *; by apply elem_of_nil in Hx || apply elem_of_nil in Hx'.
Qed.

(** The pages behind a region's own structures. *)
Lemma elem_of_free_pages e x : entry_ok e →
  x ∈ free_pages e ↔ x mod PGSIZE = 0 ∧ mm_base e + region_used (mm_length e / PGSIZE) ≤ x ∧
    x + PGSIZE ≤ mm_base e + mm_length e.
Proof.
  intros He. split; [intros Hx; destruct (free_page_in e x He Hx) as (? & ? & ?); done|].
  intros (Hx & Hlo & Hhi). apply elem_of_region_pages. exists ((x - mm_base e) / PGSIZE).
  pose proof (entry_npages e He) as [Hn _]. destruct (region_used_eq (mm_length e / PGSIZE)) as (E & _); [lia|].
  rewrite E in Hlo. set (u := region_used (mm_length e / PGSIZE) / PGSIZE) in *. destruct He as (Hb & _).
  unfold PGSIZE in *. split; Z.to_euclidean_division_equations; lia.
Qed.

Lemma scan_memmap_run l m :
  memmap_ok l →
  ∃ s, scan_memmap l (empty_pages m) = Ok ((), s) ∧ queues_ok s ∧ phys s = m ∧
    pq_list (queues s pgfreeq) = regions_of l ≫= free_pages ∧
    (∀ x, on_queue s pgfreeq x → page_addr x ∧ vm_page_from_paddr s x = Some x ∧
       page_queue s x = kVMPageFree) ∧
    ∀ q, w64 (npages (queues s q)) = w64 (Z.of_nat (length (pq_list (queues s q)))).
Proof.
  intros Hok. destruct (init_regions_run l (empty_pages m) (empty_pages m)) as (s' & Hrun & Hs');
    [by apply (mm_entries _ Hok)|done|].
  exists s'. split; [done|]. pose proof (scan_spec l m Hok) as Hsc.
  set (s := foldl _ _ l) in *. assert (phys s = m) as Hm.
  { unfold s. clear. induction l as [|e l IH] using rev_ind; [done|].
    rewrite foldl_app. simpl. by destruct (usable e). }
  split; [by eapply scanned_queues_ok|].
  destruct Hs' as [Er El Ec Eq Ep]. destruct Hsc as [Hr Hf _ _ Hc Hqf _].
  assert (∀ e, e ∈ l → usable e = true → entry_ok e) as He by apply (mm_entries _ Hok).
  split_and!; [by rewrite Ep|by rewrite El| |intros q; by rewrite Ec, El, Hc].
  intros x Hx. unfold on_queue in Hx. rewrite El, Hf in Hx. split_and!; [| |rewrite Eq; auto].
  - apply list_elem_of_bind in Hx as (e & Hx & [Hl Hu]%elem_of_regions).
    destruct (free_page_in e x (He e Hl Hu) Hx) as (_ & ? & ?).
    pose proof (page_in e x (He e Hl Hu) (or_introl Hx)). pose proof (He e Hl Hu) as (_ & _ & _ & _ & ?).
    apply andb_true_iff in Hu as [_ ?%Z.leb_le]. unfold page_addr, PGSIZE in *. lia.
  - apply list_elem_of_bind in Hx as (e & Hx & Hin). eapply (from_paddr_region l s' e); try done.
    by rewrite Er.
Qed.

(** C16: The memory map is turned into a sound state of the page allocator.  From
    any memory map with page-aligned, disjoint usable entries below 2^52 of at most
    2^19 pages each (the addresses of a region above 2 GiB overflow an [int],
    [init_region_overflow]), the free queue holds, once each, exactly the whole pages of those entries behind the
    page structures of their region: none overlaps a region's own structures.
    No page is on two queues, every free page is found by its address, its queue
    field says it is free, and the counters are the lengths of the queues. *)
Theorem scan_memmap_correct l m :
  memmap_ok l →
  ∃ s, scan_memmap l (empty_pages m) = Ok ((), s) ∧ queues_ok s ∧ phys s = m ∧
    (∀ x, on_queue s pgfreeq x ↔
       ∃ e, e ∈ l ∧ usable e = true ∧ x mod PGSIZE = 0 ∧
         mm_base e + region_used (mm_length e / PGSIZE) ≤ x ∧ x + PGSIZE ≤ mm_base e + mm_length e) ∧
    (∀ x, on_queue s pgfreeq x → page_addr x ∧ vm_page_from_paddr s x = Some x ∧
       page_queue s x = kVMPageFree) ∧
    ∀ q, w64 (npages (queues s q)) = w64 (Z.of_nat (length (pq_list (queues s q)))).
Proof.
  intros Hok. destruct (scan_memmap_run l m Hok) as (s & Hrun & Hq & Hm & Hf & Hx & Hc).
  exists s. split_and!; try done. intros x. unfold on_queue. rewrite Hf, list_elem_of_bind.
  assert (∀ e, e ∈ l → usable e = true → entry_ok e) as He by apply (mm_entries _ Hok). split.
  - intros (e & Hin & [Hl Hu]%elem_of_regions). exists e. by rewrite <-(elem_of_free_pages e x) by auto.
  - intros (e & Hl & Hu & Hin). exists e. rewrite elem_of_regions, elem_of_free_pages by auto. done.
Qed.

(** A usable region of more than 2^19 pages is beyond what the code can do: the
    address of page 2^19 overflows. *)
Lemma init_pages_overflow base k n s :
  0 ≤ k < n → PGSIZE * k = 2^31 → is_undef (mfor (seqZ 0 n) (init_page base) s).
Proof.
  intros Hk Ek. replace n with (k + Z.succ (n - k - 1)) by lia. rewrite seqZ_app, (seqZ_cons _ (Z.succ _)) by lia.
  destruct (init_pages_run base (seqZ 0 k) s) as (s1 & H1 & _).
  { apply Forall_forall. intros b Hb%elem_of_seqZ. unfold PGSIZE in *. lia. }
  revert H1. generalize (seqZ 0 k) as l. intros l. revert s.
  induction l as [|b l IH]; intros s H1; cbn [app mfor] in *.
  - replace (0 + k) with k by lia. unfold mbind, M_bind, init_page at 1. by rewrite Ek.
  - unfold mbind, M_bind in *. destruct (init_page base b s) as [[[] s2]| |]; try done. by apply IH.
Qed.

Lemma init_region_overflow e s : usable e = true → 2^19 < mm_length e / PGSIZE → is_undef (init_region e s).
Proof.
  intros Hu Hn. unfold init_region. rewrite Hu. cbn [negb]. cbv zeta.
  pose proof (init_pages_overflow (mm_base e) (2^19) (mm_length e / PGSIZE) s ltac:(lia) eq_refl) as Ho.
  revert Ho. generalize (mfor (seqZ 0 (mm_length e / PGSIZE)) (init_page (mm_base e))). intros m.
  unfold mbind, M_bind. by destruct (m s) as [[? ?]| |].
Qed.

(** ** Witness *)

Definition demo_memmap : list memmap_entry :=
  [MemmapEntry 0 0x9f000 0; MemmapEntry 0x100000 0x10000 0; MemmapEntry 0x110000 0x1000 1;
   MemmapEntry 0x200000 0x4000 0].

Lemma demo_memmap_ok : memmap_ok demo_memmap.
Proof.
  split.
  - intros e He Hu. unfold demo_memmap in He. repeat (apply elem_of_cons in He as [->|He]); try done;
      [split_and!; vm_compute; done..|by apply elem_of_nil in He].
  - intros i j e1 e2 Hi Hj Hne Hu1 Hu2.
    destruct i as [|[|[|[|i]]]], j as [|[|[|[|j]]]]; simpl in *; simplify_eq; try done;
      unfold apart; simpl; lia.
Qed.

Lemma scan_memmap_correct_witness :
  ∃ s, scan_memmap demo_memmap (empty_pages (λ _, 0)) = Ok ((), s) ∧ queues_ok s ∧
    on_queue s pgfreeq 0x101000.
Proof.
  destruct (scan_memmap_correct demo_memmap (λ _, 0) demo_memmap_ok) as (s & Hr & Hq & _ & Hf & _).
  exists s. split_and!; [done|done|]. apply Hf. exists (MemmapEntry 0x100000 0x10000 0).
  split; [set_solver|]. vm_compute. done.
Defined.

Lemma msgbuf_indices_witness : mb_read (put_all (replicate (Z.to_nat 8191) 65)) = 4096.
Proof.
  destruct (msgbuf_indices (replicate (Z.to_nat 8191) 65)) as (_ & _ & H). apply H.
  rewrite length_replicate. lia.
Defined.
