(* ===== verification/Vfs.v ===== *)
(** * Paths and directories: posix/vfs.c

    [vfs_lookup] calls through the operations of the vnodes it meets; the class
    [Vnodes] has those operations and [DirTree] what they promise to it: a
    directory is a finite map from names to vnodes, which looking up does not
    change.  Under it, [vfs_lookup] refines the plain walk [resolve].  Names and
    paths are lists of characters, without the NUL. *)

From S2P Require Import Prelude.
From Stdlib Require Import Ascii.
Open Scope Z_scope.

Definition kLookupCreat : Z := 1.
Definition kLookupMustDir : Z := 2.
Definition ENOENT : Z := 2.

(** [vtype_t], [vattr_t] *)
Inductive vtype := VNON | VREG | VDIR | VCHR.
#[export] Instance vtype_eq_dec : EqDecision vtype.
Proof. solve_decision. Defined.
Record vattr := Vattr { va_type : vtype; va_mode : Z; va_size : Z; va_rdev : Z }.

Definition name : Type := list ascii.
Definition slash : ascii := "/".
Definition dot : name := ["."%char].
Definition dotdot : name := ["."%char; "."%char].

(** The operations of a vnode ([ops->lookup], [ops->create]: the result and
    [*out]), the filesystem mounted over it, and the root of a filesystem. *)
Class Vnodes (S : Type) := {
  vn_lookup : Z → name → M S (Z * option Z);
  vn_create : Z → name → vattr → M S (Z * option Z);
  vn_mounted : Z → M S (option Z);
  vfs_root : Z → M S (Z * option Z);
}.

(** What the loop over [sub] and [next] cuts the path into. *)
Fixpoint components (path : name) : list name :=
  match path with
  | [] => [[]]
  | c :: l =>
      if decide (c = slash) then [] :: components l
      else match components l with
           | [] => [[c]]
           | h :: t => (c :: h) :: t
           end
  end.

(** [while (path[last] == '/') path[last--] = '\0'] *)
Fixpoint strip_slashes (path : name) : name :=
  match path with
  | [] => []
  | c :: l =>
      match strip_slashes l with
      | [] => if decide (c = slash) then [] else [c]
      | l' => c :: l'
      end
  end.

Section vfs.
Context {S : Type} `{!Vnodes S}.
(** How many filesystems may be mounted on top of each other. *)
Context (mounts : nat).

(** [while (vn->vfsmountedhere != NULL)] *)
Fixpoint cross_mounts (fuel : nat) (vn : Z) : M S (Z * Z) :=
  match fuel with
  | O => undef "more filesystems mounted than there are"
  | Datatypes.S fuel' =>
      m ← vn_mounted vn;
      match m with
      | None => mret (0, vn)
      | Some vfs =>
          '(r, root) ← vfs_root vfs;
          if r <? 0 then mret (r, vn) else
          root ← deref root "root";
          cross_mounts fuel' root
      end
  end.

(** From [loop:] on: the result and [*out]. *)
Fixpoint walk (flags : Z) (attr : option vattr) (vn : Z) (subs : list name) : M S (Z * option Z) :=
  match subs with
  | [] => mret (0, Some vn)
  | sub :: rest =>
      let last := match rest with [] => true | _ => false end in
      if decide (sub = dot) then (if last then mret (0, Some vn) else walk flags attr vn rest)
      else if decide (sub = []) then (if last then mret (0, Some vn) else walk flags attr vn rest)
      else
        '(r, out) ← (if negb last || negb (has_flag flags kLookupCreat) then vn_lookup vn sub
                     else attr ← deref attr "attr"; vn_create vn sub attr);
        if r <? 0 then mret (r, None) else
        vn' ← deref out "vn";
        '(r, vn') ← cross_mounts (Datatypes.S mounts) vn';
        if r <? 0 then mret (r, None) else
        if last then mret (0, Some vn') else walk flags attr vn' rest
  end.

(** [root_vnode]; [cwd] is [None] for NULL.  The copy of the path has 255
    characters, its NUL included.  [path[-1]] is read when the path is empty, and
    when only slashes are left. *)
Definition vfs_lookup (root_vnode : Z) (cwd : option Z) (pathname : name) (flags : Z)
    (attr : option vattr) : M S (Z * option Z) :=
  let from_root := match pathname with c :: _ => bool_decide (c = slash) | [] => false end in
  let from_root := from_root || match cwd with None => true | Some _ => false end in
  let vn := if from_root then root_vnode else default root_vnode cwd in
  if from_root && bool_decide (pathname = []) then undef "*(pathname + 1)"
  else if from_root && bool_decide (length pathname = 1%nat) then mret (0, Some vn)
  else if bool_decide (255 ≤ length pathname)%nat then undef "strcpy past path"
  else if bool_decide (pathname = []) then undef "path[len - 1]"
  else if bool_decide (strip_slashes pathname = []) then undef "path[-1]"
  else walk flags attr vn (components (strip_slashes pathname)).
End vfs.

(** ** The interface to a filesystem *)

(** One filesystem, with nothing mounted over its vnodes. *)
Class DirTree (S : Type) `{!Vnodes S} := {
  tree_ok : S → Prop;
  is_dir : S → Z → Prop;
  child : S → Z → name → option Z;
  dt_lookup s vn n : tree_ok s → is_dir s vn → n ≠ dotdot →
    ∃ s', vn_lookup vn n s =
      Ok (match child s vn n with Some v => (0, Some v) | None => (- ENOENT, None) end, s') ∧
      tree_ok s' ∧ (∀ d, is_dir s' d ↔ is_dir s d) ∧ ∀ d m, child s' d m = child s d m;
  dt_mounted s d n v : tree_ok s → child s d n = Some v → vn_mounted v s = Ok (None, s);
}.

(** ** Cutting paths *)

Lemma components_noslash n : (slash ∉ n) → components n = [n].
Proof.
  induction n as [|c n IH]; [done|]. intros [Hc Hn]%not_elem_of_cons. simpl.
  rewrite decide_False by congruence. by rewrite IH.
Qed.
Lemma components_slash n l : (slash ∉ n) → components (n ++ slash :: l) = n :: components l.
Proof.
  induction n as [|c n IH]; [done|]. intros [Hc Hn]%not_elem_of_cons. simpl.
  rewrite decide_False by congruence. by rewrite IH.
Qed.
Lemma strip_id l c : c ≠ slash → strip_slashes (l ++ [c]) = l ++ [c].
Proof.
  intros Hc. induction l as [|d l IH]; simpl; [by rewrite decide_False|]. rewrite IH. by destruct l.
Qed.

Section resolve.
Context {S : Type} `{DirTree S}.

(** The plain walk down the tree. *)
Fixpoint resolve (s : S) (vn : Z) (l : list name) : Z * option Z :=
  match l with
  | [] => (0, Some vn)
  | n :: l' => match child s vn n with Some v => resolve s v l' | None => (- ENOENT, None) end
  end.
(** Every vnode the walk looks a name up in is a directory. *)
Fixpoint walks_dirs (s : S) (vn : Z) (l : list name) : Prop :=
  match l with
  | [] => True
  | n :: l' => is_dir s vn ∧ match child s vn n with Some v => walks_dirs s v l' | None => True end
  end.

Definition same_tree (s s' : S) : Prop :=
  tree_ok s' ∧ (∀ d, is_dir s' d ↔ is_dir s d) ∧ ∀ d m, child s' d m = child s d m.

(** The names of a path that are looked up. *)
Definition real (n : name) : bool := negb (bool_decide (n = [])) && negb (bool_decide (n = dot)).
Definition path_names (path : name) : list name := List.filter real (components path).

Lemma resolve_same s s' vn l : same_tree s s' → resolve s' vn l = resolve s vn l.
Proof.
  intros (_ & _ & E). revert vn. induction l as [|n l IH]; intros vn; simpl; [done|].
  rewrite E. by destruct (child s vn n).
Qed.
Lemma walks_same s s' vn l : same_tree s s' → walks_dirs s' vn l ↔ walks_dirs s vn l.
Proof.
  intros (_ & D & E). revert vn. induction l as [|n l IH]; intros vn; simpl; [done|].
  rewrite E, D. destruct (child s vn n); [by rewrite IH|done].
Qed.

Lemma real_spec n : real n = true ↔ n ≠ [] ∧ n ≠ dot.
Proof. unfold real. rewrite andb_true_iff, !negb_true_iff, !bool_decide_eq_false. done. Qed.

(** The loop of [vfs_lookup], without creation, is [resolve] on the names. *)
Lemma walk_resolve mounts flags attr s vn l :
  has_flag flags kLookupCreat = false → tree_ok s → Forall (λ n, n ≠ dotdot) l →
  walks_dirs s vn (List.filter real l) →
  ∃ s', walk mounts flags attr vn l s = Ok (resolve s vn (List.filter real l), s') ∧ same_tree s s'.
Proof.
  intros Hfl. revert s vn. induction l as [|n l IH]; intros s vn Hok Hdd Hw.
  { by exists s. }
  apply Forall_cons in Hdd as [Hn Hdd].
  assert (real n = false → ∃ s', walk mounts flags attr vn (n :: l) s =
    Ok (resolve s vn (List.filter real (n :: l)), s') ∧ same_tree s s') as Hskip.
  { intros Hr. simpl in *. rewrite Hr in *.
    assert (n = dot ∨ n = []) as Hc.
    { destruct (decide (n = dot)); [by left|]. destruct (decide (n = [])); [by right|].
      by rewrite (proj2 (real_spec n)) in Hr. }
    destruct (IH s vn Hok Hdd Hw) as (s' & Hrun & Hs). destruct l as [|m l].
    - exists s. simpl. split; [|done]. destruct Hc; repeat case_decide; naive_solver.
    - exists s'. split; [|done]. destruct Hc; repeat case_decide; naive_solver. }
  destruct (real n) eqn:Hr; [|by apply Hskip]. clear Hskip. pose proof Hr as [Hne Hnd]%real_spec.
  simpl in *. rewrite Hr in *. simpl in *. destruct Hw as [Hd Hw].
  rewrite !decide_False by done. rewrite Hfl, orb_true_r.
  destruct (dt_lookup s vn n Hok Hd Hn) as (s1 & Hl & Hs1).
  rewrite (bind_step _ _ _ _ _ Hl). destruct (child s vn n) as [v|] eqn:Hc; [|by exists s1].
  cbv beta iota. change (0 <? 0) with false. cbv iota. rewrite deref_bind.
  assert (same_tree s s1) as Hst by done. destruct Hs1 as (Hok1 & Hd1 & Hc1).
  assert (vn_mounted v s1 = Ok (None, s1)) as Hm by (apply (dt_mounted s1 vn n v Hok1); by rewrite Hc1).
  unfold mbind at 1, M_bind at 1. rewrite (bind_step _ _ _ _ _ Hm).
  cbv beta iota. change (0 <? 0) with false. cbv iota.
  destruct l as [|m l]; [by exists s1|].
  destruct (IH s1 v Hok1 Hdd) as (s2 & Hrun & Hs2); [by apply (walks_same s s1 v _ Hst)|].
  exists s2. split; [etransitivity; [exact Hrun|by rewrite (resolve_same s s1)]|].
  destruct Hs2 as (? & D2 & C2). split_and!; [done|intros d; by rewrite D2, Hd1|intros d k; by rewrite C2, Hc1].
Qed.
(** ** Paths *)

Lemma components_cons l : ∃ h t, components l = h :: t.
Proof. destruct l as [|c l]; simpl; [eauto|]. case_decide; [eauto|]. destruct (components l); eauto. Qed.

Lemma strip_nil l : strip_slashes l = [] → components l = replicate (Datatypes.S (length l)) [].
Proof.
  induction l as [|c l IH]; simpl; [done|]. destruct (strip_slashes l) eqn:E; [|done].
  case_decide; [|done]. intros _. by rewrite IH.
Qed.

(** Trailing slashes only add empty components. *)
Lemma components_strip l :
  strip_slashes l ≠ [] → ∃ k, components l = components (strip_slashes l) ++ replicate k [].
Proof.
  induction l as [|c l IH]; simpl; [done|]. destruct (strip_slashes l) as [|c' l'] eqn:E; intros Hs.
  - case_decide; [done|]. rewrite (strip_nil l E). simpl. rewrite decide_False by done. by exists (length l).
  - destruct IH as [k ->]; [done|]. set (l1 := c' :: l') in *. exists k.
    change (components (c :: l1)) with
      (if decide (c = slash) then [] :: components l1
       else match components l1 with [] => [[c]] | h :: t => (c :: h) :: t end).
    case_decide; [done|]. by destruct (components_cons l1) as (h & t & ->).
Qed.

Lemma filter_replicate_nil k : List.filter real (replicate k []) = [].
Proof. induction k; [done|]. simpl. done. Qed.

Lemma path_names_strip l : strip_slashes l ≠ [] → path_names (strip_slashes l) = path_names l.
Proof.
  intros Hs. unfold path_names. destruct (components_strip l Hs) as [k ->].
  by rewrite List.filter_app, filter_replicate_nil, app_nil_r.
Qed.

Lemma strip_dotdot l : Forall (λ n, n ≠ dotdot) (components l) → strip_slashes l ≠ [] →
  Forall (λ n, n ≠ dotdot) (components (strip_slashes l)).
Proof. intros Hf Hs. destruct (components_strip l Hs) as [k E]. rewrite E in Hf. by apply Forall_app in Hf as [? _]. Qed.

(** C25: Path resolution refines the walk down the tree.  For a path of at most 254
    characters that is not made of two or more slashes only, names no "..", and
    whose intermediate vnodes are directories, [vfs_lookup] gives exactly what
    looking its names up one after the other gives -- the last vnode, or ENOENT
    at the first name that is missing -- from the root when the path begins
    with a slash, else from [cwd]; repeated and trailing slashes and "." do not
    count, and the tree is unchanged. *)
Theorem vfs_lookup_resolves mounts root cwd path flags attr s :
  has_flag flags kLookupCreat = false → tree_ok s →
  path ≠ [] → (length path < 255)%nat → ((strip_slashes path ≠ []) ∨ path = [slash]) →
  Forall (λ n, n ≠ dotdot) (components path) →
  let start := if bool_decide (head path = Some slash) then root else cwd in
  walks_dirs s start (path_names path) →
  ∃ s', vfs_lookup mounts root (Some cwd) path flags attr s = Ok (resolve s start (path_names path), s') ∧
    same_tree s s'.
Proof.
  intros Hfl Hok Hne Hlen Hsl Hdd start Hw. unfold vfs_lookup. rewrite orb_false_r. cbv zeta.
  rewrite (bool_decide_false (path = [])), andb_false_r by done.
  rewrite (bool_decide_false (255 ≤ length path)%nat) by lia.
  assert ((match path with c :: _ => bool_decide (c = slash) | [] => false end) =
          bool_decide (head path = Some slash)) as ->.
  { destruct path; [done|]. apply bool_decide_ext. simpl. naive_solver. }
  change (default root (Some cwd)) with cwd. fold start.
  destruct Hsl as [Hsl|Hsl]; [|subst; exists s; by split].
  rewrite (bool_decide_false (strip_slashes path = [])) by done.
  assert (bool_decide (head path = Some slash) && bool_decide (length path = 1%nat) = false) as ->.
  { apply andb_false_iff. destruct path as [|c [|d path]]; [done| |right; by apply bool_decide_false].
    left. apply bool_decide_false. intros [= ->]. by apply Hsl. }
  rewrite <-(path_names_strip path Hsl) in *.
  apply walk_resolve; try done. by apply strip_dotdot.
Qed.
End resolve.
