(* ===== verification/ObjMem.v ===== *)
(** * Objects as the filesystem uses them

    What tmpfs asks of the kernel's heap and of vm/vm.c: small allocations,
    anonymous objects, mapping an object into the kernel, and plain loads and
    stores through the mapping.  An object's contents are zero until written, and
    a store through a mapping changes the bytes it covers and nothing else.  A
    mapping into the kernel is made only if the kernel map, an arena of 4 GiB, has
    room for it: one of more than [om_limit] bytes fails.  [flat] is the smallest
    memory that behaves so. *)

From S2P Require Import Prelude.
Open Scope Z_scope.

Class ObjectMemory (V : Type) := {
  om_alloc : Z → M V Z;                 (** [kmem_alloc] *)
  om_aobj_new : Z → M V Z;              (** [vm_aobj_new] *)
  om_retain : Z → M V unit;             (** [obj->refcnt++] *)
  om_map : Z → Z → M V (Z * Z);         (** [vm_map_object] into the kernel map, anywhere *)
  om_unmap : Z → Z → M V unit;          (** [vm_deallocate] *)
  om_load : Z → nat → M V (list Z);     (** [memcpy] from a kernel address *)
  om_store : Z → list Z → M V unit;     (** [memcpy] to a kernel address *)

  (** the largest mapping there is room for in the kernel map *)
  om_limit : Z;
  (** so many of the operations can be served *)
  om_ready : nat → V → Prop;
  om_live : V → Z → Prop;
  om_object : V → Z → Prop;
  om_contents : V → Z → Z → Z;
  om_mapped : V → Z → Z → Z → Prop;     (** address, size, object *)

  om_alloc_spec n size v : om_ready (S n) v → 0 < size →
    ∃ p v', om_alloc size v = Ok (p, v') ∧ om_ready n v' ∧ ¬ om_live v p ∧
      (∀ q, om_live v' q ↔ om_live v q ∨ q = p) ∧
      (∀ o, om_object v' o ↔ om_object v o) ∧ ∀ o i, om_contents v' o i = om_contents v o i;
  om_new_spec n size v : om_ready (S n) v →
    ∃ o v', om_aobj_new size v = Ok (o, v') ∧ om_ready n v' ∧ ¬ om_live v o ∧
      (∀ q, om_live v' q ↔ om_live v q ∨ q = o) ∧
      (∀ q, om_object v' q ↔ om_object v q ∨ q = o) ∧ (∀ i, om_contents v' o i = 0) ∧
      ∀ q i, q ≠ o → om_contents v' q i = om_contents v q i;
  om_retain_spec n o v : om_ready n v → om_object v o →
    ∃ v', om_retain o v = Ok ((), v') ∧ om_ready n v' ∧ (∀ q, om_live v' q ↔ om_live v q) ∧
      (∀ q, om_object v' q ↔ om_object v q) ∧ ∀ q i, om_contents v' q i = om_contents v q i;
  om_map_spec n o size v : om_ready (S n) v → om_object v o → 0 < size ≤ om_limit → size mod PGSIZE = 0 →
    ∃ va v', om_map o size v = Ok ((0, va), v') ∧ om_ready n v' ∧ om_mapped v' va size o ∧
      (∀ q, om_live v q → om_live v' q) ∧
      (∀ q, om_object v' q ↔ om_object v q) ∧ ∀ q i, om_contents v' q i = om_contents v q i;
  om_map_over n o size v : om_ready n v → om_object v o → om_limit < size → size mod PGSIZE = 0 →
    ∃ r va v', om_map o size v = Ok ((r, va), v') ∧ r < 0;
  om_load_spec n v va size o off len : om_ready (S n) v → om_mapped v va size o →
    0 ≤ off → off + Z.of_nat len ≤ size →
    ∃ v', om_load (va + off) len v =
        Ok ((λ i, om_contents v o (off + i)) <$> seqZ 0 (Z.of_nat len), v') ∧
      om_ready n v' ∧ om_mapped v' va size o ∧ (∀ q, om_live v q → om_live v' q) ∧
      (∀ q, om_object v' q ↔ om_object v q) ∧ ∀ q i, om_contents v' q i = om_contents v q i;
  om_store_spec n v va size o off l : om_ready (S n) v → om_mapped v va size o →
    0 ≤ off → off + Z.of_nat (length l) ≤ size →
    ∃ v', om_store (va + off) l v = Ok ((), v') ∧
      om_ready n v' ∧ om_mapped v' va size o ∧ (∀ q, om_live v q → om_live v' q) ∧
      (∀ q, om_object v' q ↔ om_object v q) ∧
      ∀ q i, om_contents v' q i =
        if decide (q = o ∧ off ≤ i < off + Z.of_nat (length l)) then default 0 (l !! Z.to_nat (i - off))
        else om_contents v q i;
  om_unmap_spec n v va size o : om_ready n v → om_mapped v va size o →
    ∃ v', om_unmap va size v = Ok ((), v') ∧ om_ready n v' ∧ (∀ q, om_live v q → om_live v' q) ∧
      (∀ q, om_object v' q ↔ om_object v q) ∧ ∀ q i, om_contents v' q i = om_contents v q i;
}.

(** ** A flat memory *)

(** Addresses are handed out upwards; a mapping is of at most 4 GiB, the size of the
    kernel map; [fl_map] gives the object and offset an
    address stands for. *)
Record flat := Flat {
  fl_next : Z;
  fl_objects : list Z;
  fl_bytes : Z → Z → Z;
  fl_map : Z → option (Z * Z);
}.

Definition flat_load_byte (v : flat) (a : Z) : Z :=
  match fl_map v a with Some (o, i) => fl_bytes v o i | None => 0 end.
Fixpoint flat_store (a : Z) (l : list Z) (v : flat) : flat :=
  match l with
  | [] => v
  | b :: l' =>
      match fl_map v a with
      | Some (o, i) =>
          flat_store (a + 1) l' (Flat (fl_next v) (fl_objects v)
            (λ q j, if decide (q = o ∧ j = i) then b else fl_bytes v q j) (fl_map v))
      | None => v
      end
  end.

Definition flat_mapped (v : flat) (va size o : Z) : Prop :=
  ∀ x, va ≤ x < va + size → fl_map v x = Some (o, x - va).

Lemma flat_store_spec l v va size o off :
  flat_mapped v va size o → 0 ≤ off → off + Z.of_nat (length l) ≤ size →
  let v' := flat_store (va + off) l v in
  fl_next v' = fl_next v ∧ fl_objects v' = fl_objects v ∧ fl_map v' = fl_map v ∧
  ∀ q i, fl_bytes v' q i =
    if decide (q = o ∧ off ≤ i < off + Z.of_nat (length l)) then default 0 (l !! Z.to_nat (i - off))
    else fl_bytes v q i.
Proof.
  revert v off. induction l as [|b l IH]; intros v off Hm Ho Hl; simpl in *.
  { split_and!; try done. intros q i. case_decide; [lia|done]. }
  rewrite (Hm (va + off)) by lia. replace (va + off - va) with off by lia.
  set (v1 := Flat _ _ _ _). replace (va + off + 1) with (va + (off + 1)) by lia.
  destruct (IH v1 (off + 1)) as (E1 & E2 & E3 & E4); [exact Hm|lia|lia|].
  split_and!; [by rewrite E1|by rewrite E2|by rewrite E3|]. intros q i. rewrite E4. simpl.
  destruct (decide (q = o ∧ i = off)) as [[-> ->]|Hne].
  - rewrite decide_False by lia. rewrite !decide_True by lia. by rewrite Z.sub_diag.
  - repeat case_decide; try done; try lia.
    replace (Z.to_nat (i - off)) with (S (Z.to_nat (i - (off + 1)))) by lia. done.
Qed.

#[export] Program Instance flat_memory : ObjectMemory flat := {
  om_alloc _ v := Ok (fl_next v, Flat (fl_next v + 1) (fl_objects v) (fl_bytes v) (fl_map v));
  om_aobj_new _ v := Ok (fl_next v, Flat (fl_next v + 1) (fl_next v :: fl_objects v)
    (λ q i, if decide (q = fl_next v) then 0 else fl_bytes v q i) (fl_map v));
  om_retain _ v := Ok ((), v);
  om_map o size v := if 2^32 <? size then Ok ((-1, 0), v) else Ok ((0, fl_next v), Flat (fl_next v + size) (fl_objects v) (fl_bytes v)
    (λ x, if decide (fl_next v ≤ x < fl_next v + size) then Some (o, x - fl_next v) else fl_map v x));
  om_unmap _ _ v := Ok ((), v);
  om_load a n v := Ok (flat_load_byte v <$> seqZ a (Z.of_nat n), v);
  om_store a l v := Ok ((), flat_store a l v);
  om_limit := 2^32;
  om_ready _ _ := True;
  om_live v p := p < fl_next v;
  om_object v o := o ∈ fl_objects v;
  om_contents := fl_bytes;
  om_mapped := flat_mapped;
}.
Next Obligation.
  intros n size v _ _. eexists _, _. split; [done|]. split_and!; simpl; try done; lia.
Qed.
Next Obligation.
  intros n size v _. eexists _, _. split; [done|]. split_and!; simpl; try done; try lia.
  - intros q. rewrite elem_of_cons. naive_solver.
  - intros i. by rewrite decide_True.
  - intros q i ?. by rewrite decide_False.
Qed.
Next Obligation. intros n o v _ _. by eexists. Qed.
Next Obligation.
  intros n o size v _ Ho Hs _. cbv beta. rewrite (proj2 (Z.ltb_ge (2^32) size)) by lia.
  eexists _, _. split; [done|]. split_and!; simpl; try done.
  - intros x Hx. simpl. by rewrite decide_True.
  - intros q ?. lia.
Qed.
Next Obligation.
  intros n o size v _ Ho Hs _. cbv beta. rewrite (proj2 (Z.ltb_lt (2^32) size)) by done. by eexists _, _, _.
Qed.
Next Obligation.
  intros n v va size o off len _ Hm Ho Hl. eexists. split_and!; try done. do 2 f_equal.
  assert (seqZ (va + off) (Z.of_nat len) = Z.add (va + off) <$> seqZ 0 (Z.of_nat len)) as ->
    by (rewrite fmap_add_seqZ; f_equal; lia).
  rewrite <-list_fmap_compose.
  apply list_fmap_ext. intros i x (-> & Hi)%lookup_seqZ. simpl. unfold flat_load_byte.
  rewrite Hm by lia. f_equal. lia.
Qed.
Next Obligation.
  intros n v va size o off l _ Hm Ho Hl. destruct (flat_store_spec l v va size o off Hm Ho Hl) as (E1 & E2 & E3 & E4).
  eexists. split; [done|]. split_and!; simpl; try done; rewrite ?E1, ?E2; try done.
  intros x Hx. rewrite E3. auto.
Qed.
Next Obligation. intros n v va size o _ _. by eexists. Qed.
