(* ===== verification/Tmpfs.v ===== *)
(** * The memory filesystem: tmpfs/tmpfs.c, tmpfs/tmp_vfsops.c, dev/dev.c

    Nodes, vnodes and devices at their addresses; a directory holds its entries
    in order.  Storage is the class of ObjMem: nodes come from its heap, the
    bytes of a file are the contents of its object, reached through a mapping as
    the code does.  Drivers (the functions in [cdevsw]) are arguments.  A directory
    that is a mount's root has a [parent] nobody initialises: what it holds is
    an argument too.  Locks are left out. *)

From S2P Require Import Prelude ObjMem Vfs.
Open Scope Z_scope.

Definition EINVAL : Z := 22.
Definition INT32_MAX : Z := 2^31 - 1.
Definition sizeof_tmpnode : Z := 56.
Definition sizeof_tmpdirent : Z := 32.
Definition sizeof_vnode : Z := 120.
Definition sizeof_specdev : Z := 32.

(** [tmpdirent_t] *)
Record tmpdirent := Dirent { td_addr : Z; td_name : name; td_node : Z }.
(** The union of [tmpnode_t]. *)
Inductive tmpnode_body :=
| TDir (entries : list tmpdirent) (parent : Z)
| TReg (vmobj : Z)
| TNone.
(** [tmpnode_t]; [tn_vn] is [None] for NULL. *)
Record tmpnode := Tmpnode { tn_vn : option Z; tn_attr : vattr; tn_body : tmpnode_body }.

Inductive vnops := tmpfs_vnops | tmpfs_spec_vnops.
#[export] Instance vnops_eq_dec : EqDecision vnops.
Proof. solve_decision. Defined.

(** [vnode_t] *)
Record vnode := Vnode {
  v_refcnt : Z;
  v_isroot : bool;
  v_type : vtype;
  v_vmobj : Z;
  v_data : Z;
  v_vfsp : Z;
  v_mountedhere : option Z;
  v_ops : vnops;
  v_specdev : Z;
}.
(** [specdev_t] with its address. *)
Record specdev := Specdev { sd_addr : Z; sd_dev : Z; sd_vnodes : list Z }.

Section tmpfs.
Context {V : Type} `{!ObjectMemory V}.

Record fs := Fs {
  memory : V;
  nodes : gmap Z tmpnode;
  vnodes : gmap Z vnode;
  vfs_data : gmap Z Z;        (** [data] of a [vfs_t]: its root vnode *)
  specdevs : list specdev;
}.

Definition set_memory (m : V) (s : fs) : fs := Fs m (nodes s) (vnodes s) (vfs_data s) (specdevs s).
Definition set_node (a : Z) (n : tmpnode) (s : fs) : fs :=
  Fs (memory s) (<[a := n]> (nodes s)) (vnodes s) (vfs_data s) (specdevs s).
Definition set_vnode (a : Z) (v : vnode) (s : fs) : fs :=
  Fs (memory s) (nodes s) (<[a := v]> (vnodes s)) (vfs_data s) (specdevs s).
Definition set_specdevs (l : list specdev) (s : fs) : fs :=
  Fs (memory s) (nodes s) (vnodes s) (vfs_data s) l.

Definition get_node (a : Z) : M fs tmpnode := λ s, deref (nodes s !! a) "tmpnode" s.
Definition get_vnode (a : Z) : M fs vnode := λ s, deref (vnodes s !! a) "vnode" s.
Definition on_memory {A} (m : M V A) : M fs A := λ s,
  match m (memory s) with
  | Ok (a, v) => Ok (a, set_memory v s)
  | Fatal w => Fatal w
  | Undef w => Undef w
  end.

(** ** Nodes *)

(** [dir.entries] of a node. *)
Definition dir_entries (n : tmpnode) : option (list tmpdirent) :=
  match tn_body n with TDir es _ => Some es | _ => None end.

Definition tlookup (node : tmpnode) (filename : name) : M fs (option tmpdirent) :=
  es ← deref (dir_entries node) "node->dir";
  mret (List.find (λ d, bool_decide (td_name d = filename)) es).

(** [attr] is [None] for NULL: the switch reads through it. *)
Definition tmakenode (dn : Z) (nm : name) (attr : option vattr) : M fs Z :=
  n ← on_memory (om_alloc sizeof_tmpnode);
  td ← on_memory (om_alloc sizeof_tmpdirent);
  on_memory (om_alloc (Z.of_nat (length nm) + 1));;
  attr ← deref attr "attr->type";
  let a := Vattr (va_type attr) (va_mode attr) 0 (va_rdev attr) in
  body ← (match va_type attr with
          | VREG =>
              obj ← on_memory (om_aobj_new (2^32 - 1));
              on_memory (om_retain obj);;
              mret (TReg obj)
          | VDIR => mret (TDir [] dn)
          | _ => mret TNone
          end);
  mmodify (set_node n (Tmpnode None a body));;
  d ← get_node dn;
  match tn_body d with
  | TDir es p => mmodify (set_node dn (Tmpnode (tn_vn d) (tn_attr d) (TDir (es ++ [Dirent td nm n]) p)))
  | _ => undef "dn->dir"
  end;;
  mret n.

(** The device's record is made if there is none; the vnode goes to its list. *)
Definition spec_setup_vnode (vn : Z) (dev : Z) : M fs Z :=
  s ← mget;
  d ← match List.find (λ d, sd_dev d =? dev) (specdevs s) with
      | Some d => mret d
      | None =>
          p ← on_memory (om_alloc sizeof_specdev);
          let d := Specdev p dev [] in
          mmodify (λ s, set_specdevs (d :: specdevs s) s);;
          mret d
      end;
  mmodify (λ s, set_specdevs (tq_update sd_addr (sd_addr d)
                  (λ d, Specdev (sd_addr d) (sd_dev d) (vn :: sd_vnodes d)) (specdevs s)) s);;
  mret (sd_addr d).

(** [tmpfs_vget]: the result is 0 and the vnode. *)
Definition tmpfs_vget (vfs ino : Z) : M fs (Z * option Z) :=
  node ← get_node ino;
  match tn_vn node with
  | Some vn =>
      v ← get_vnode vn;
      mmodify (set_vnode vn (Vnode (v_refcnt v + 1) (v_isroot v) (v_type v) (v_vmobj v) (v_data v)
        (v_vfsp v) (v_mountedhere v) (v_ops v) (v_specdev v)));;
      mret (0, Some vn)
  | None =>
      vn ← on_memory (om_alloc sizeof_vnode);
      mmodify (set_node ino (Tmpnode (Some vn) (tn_attr node) (tn_body node)));;
      let ty := va_type (tn_attr node) in
      obj ← (match ty, tn_body node with
             | VREG, TReg o => mret o
             | VREG, _ => undef "node->reg"
             | _, _ => mret 0
             end);
      sd ← (if decide (ty = VCHR) then spec_setup_vnode vn (va_rdev (tn_attr node)) else mret 0);
      mmodify (set_vnode vn (Vnode 1 false ty obj ino vfs None
        (if decide (ty = VCHR) then tmpfs_spec_vnops else tmpfs_vnops) sd));;
      mret (0, Some vn)
  end.

(** [junk] is what the memory of the new node holds. *)
Definition tmpfs_mount (vfs : Z) (junk_attr : vattr) (junk_parent : Z) : M fs Z :=
  root ← on_memory (om_alloc sizeof_tmpnode);
  mmodify (set_node root (Tmpnode None
    (Vattr VDIR (va_mode junk_attr) (va_size junk_attr) (va_rdev junk_attr)) (TDir [] junk_parent)));;
  '(_, vroot) ← tmpfs_vget vfs root;
  vroot ← deref vroot "vroot";
  v ← get_vnode vroot;
  mmodify (set_vnode vroot (Vnode (v_refcnt v) true (v_type v) (v_vmobj v) (v_data v)
    (v_vfsp v) (v_mountedhere v) (v_ops v) (v_specdev v)));;
  mmodify (λ s, Fs (memory s) (nodes s) (vnodes s) (<[vfs := vroot]> (vfs_data s)) (specdevs s));;
  mret 0.

Definition tmpfs_root (vfs : Z) : M fs (Z * option Z) := λ s,
  match vfs_data s !! vfs with
  | Some v => Ok ((0, Some v), s)
  | None => Undef "vfs"
  end.

(** ** Operations of a vnode *)

Definition tmp_create (dvn : Z) (pathname : name) (attr : option vattr) : M fs (Z * option Z) :=
  v ← get_vnode dvn;
  massert (bool_decide (v_type v = VDIR)) "assert(dvn->type == VDIR)";;
  n ← tmakenode (v_data v) pathname attr;
  tmpfs_vget (v_vfsp v) n.

Definition tmp_lookup (vn : Z) (pathname : name) : M fs (Z * option Z) :=
  v ← get_vnode vn;
  node ← get_node (v_data v);
  massert (bool_decide (va_type (tn_attr node) = VDIR)) "assert(node->attr.type == VDIR)";;
  if decide (pathname = dotdot) then
    match tn_body node with
    | TDir _ p =>
        if p =? 0 then mret (0, Some vn) else
        pn ← get_node p;
        mret (0, tn_vn pn)
    | _ => undef "node->dir"
    end
  else
    d ← tlookup node pathname;
    match d with
    | None => mret (- ENOENT, None)
    | Some d => tmpfs_vget (v_vfsp v) (td_node d)
    end.

Definition tmp_getattr (vn : Z) : M fs (Z * vattr) :=
  v ← get_vnode vn;
  node ← get_node (v_data v);
  mret (0, tn_attr node).

(** The result and the bytes put in the buffer. *)
Definition tmp_read (vn : Z) (nbyte off : Z) : M fs (Z * list Z) :=
  v ← get_vnode vn;
  node ← get_node (v_data v);
  if negb (bool_decide (va_type (tn_attr node) = VREG)) then mret (- EINVAL, []) else
  let size := va_size (tn_attr node) in
  let nbyte := if size <? w64 (off + nbyte) then (if size <=? w64 off then 0 else w64 (size - off))
               else nbyte in
  if nbyte =? 0 then mret (0, []) else
  '(r, vaddr) ← on_memory (om_map (v_vmobj v) (PGROUNDUP (nbyte + off)));
  massert (r =? 0) "assert(vm_map_object(...) == 0)";;
  bytes ← on_memory (om_load (vaddr + off) (Z.to_nat nbyte));
  on_memory (om_unmap vaddr (PGROUNDUP (nbyte + off)));;
  mret (s32 nbyte, bytes).

Definition tmp_write (vn : Z) (buf : list Z) (off : Z) : M fs Z :=
  v ← get_vnode vn;
  node ← get_node (v_data v);
  let nbyte := Z.of_nat (length buf) in
  if nbyte =? 0 then mret 0 else
  let a := tn_attr node in
  mwhen (va_size a <? w64 (off + nbyte))
    (mmodify (set_node (v_data v) (Tmpnode (tn_vn node)
       (Vattr (va_type a) (va_mode a) (w64 (off + nbyte)) (va_rdev a)) (tn_body node))));;
  '(r, vaddr) ← on_memory (om_map (v_vmobj v) (PGROUNDUP (nbyte + off)));
  massert (r =? 0) "assert(vm_map_object(...) == 0)";;
  on_memory (om_store (vaddr + off) buf);;
  on_memory (om_unmap vaddr (PGROUNDUP (nbyte + off)));;
  mret (s32 nbyte).

(** What [tmp_readdir] writes for an entry: its offset in the buffer, and the
    fields of the [struct dirent]. *)
Record dirent_out := DirentOut { do_at : Z; d_ino : Z; d_off : Z; d_reclen : Z; d_name : name }.

(** [offsetof(struct dirent, d_name)], of the C library's header. *)
Context (d_name_offset : Z).
Definition DIRENT_RECLEN (namelen : Z) : Z := ROUNDUP (d_name_offset + 1 + namelen) 8.

(** The loop: the final [i], [nwritten] and what was written. *)
Fixpoint readdir_loop (es : list tmpdirent) (i seqno nwritten nbyte : Z) : Z * Z * list dirent_out :=
  match es with
  | [] => (INT32_MAX, nwritten, [])
  | td :: es' =>
      if seqno <=? i then
        let reclen := DIRENT_RECLEN (Z.of_nat (length (td_name td))) in
        if nwritten + reclen >? nbyte - 1 then (w64 (i - 1), nwritten, [])
        else
          let '(r, n, l) := readdir_loop es' (i + 2) seqno (nwritten + reclen) nbyte in
          (r, n, DirentOut nwritten (td_node td) i reclen (td_name td) :: l)
      else readdir_loop es' (i + 1) seqno nwritten nbyte
  end.

(** The result, [*bytesRead] and what the buffer holds. *)
Definition tmp_readdir (dvn : Z) (nbyte seqno : Z) : M fs (Z * Z * list dirent_out) :=
  v ← get_vnode dvn;
  n ← get_node (v_data v);
  massert (bool_decide (va_type (tn_attr n) = VDIR)) "assert(n->attr.type == VDIR)";;
  es ← deref (dir_entries n) "n->dir";
  let '(i, nwritten, l) := readdir_loop es 0 seqno 0 nbyte in
  mret (s32 i, nwritten, l).
End tmpfs.
Arguments fs V : clear implicits.
