(* ===== verification/TmpfsProps.v ===== *)
(** * The memory filesystem, verified

    tmpfs is a [DirTree], so path resolution through it is the walk down its
    directories; creation adds one name; what is written to a file is read back;
    and how reading a directory in pieces loses entries. *)

From S2P Require Import Prelude ObjMem Vfs Tmpfs.
From Stdlib Require Import Ascii.
Open Scope Z_scope.

Section props.
Context {V : Type} `{!ObjectMemory V}.
Implicit Types (s : fs V).

(** The operations a vnode's [ops] point to. *)
#[export] Instance tmpfs_vnodes : Vnodes (fs V) := {
  vn_lookup vn n := v ← get_vnode vn;
    if decide (v_ops v = tmpfs_vnops) then tmp_lookup vn n else undef "NULL lookup";
  vn_create vn n attr := v ← get_vnode vn;
    if decide (v_ops v = tmpfs_vnops) then tmp_create vn n (Some attr) else undef "NULL create";
  vn_mounted vn := v ← get_vnode vn; mret (v_mountedhere v);
  vfs_root := tmpfs_root;
}.

(** ** The invariant *)

(** Vnodes and nodes point to each other, bodies fit types, the node of every
    directory entry exists and has a vnode, files have objects of their own. *)
Record fs_ok (s : fs V) : Prop := {
  fo_vnode v x : vnodes s !! v = Some x → ∃ n, nodes s !! v_data x = Some n ∧ tn_vn n = Some v ∧
    v_type x = va_type (tn_attr n) ∧ v_mountedhere x = None ∧
    (v_ops x = tmpfs_vnops ↔ va_type (tn_attr n) ≠ VCHR) ∧
    (va_type (tn_attr n) = VREG → tn_body n = TReg (v_vmobj x));
  fo_node a n v : nodes s !! a = Some n → tn_vn n = Some v →
    ∃ x, vnodes s !! v = Some x ∧ v_data x = a;
  fo_dir a n : nodes s !! a = Some n → (va_type (tn_attr n) = VDIR ↔ ∃ es p, tn_body n = TDir es p);
  fo_reg a n : nodes s !! a = Some n → va_type (tn_attr n) = VREG →
    ∃ o, tn_body n = TReg o ∧ om_object (memory s) o;
  fo_entry a n es p td : nodes s !! a = Some n → tn_body n = TDir es p → td ∈ es →
    ∃ m, nodes s !! td_node td = Some m ∧ tn_vn m ≠ None;
  fo_live_node a n : nodes s !! a = Some n → om_live (memory s) a;
  fo_live_vnode v x : vnodes s !! v = Some x → om_live (memory s) v;
  fo_live_obj a n o : nodes s !! a = Some n → tn_body n = TReg o → om_live (memory s) o;
  fo_own a b n m o : nodes s !! a = Some n → nodes s !! b = Some m → tn_body n = TReg o →
    tn_body m = TReg o → a = b;
}.

Definition fs_dir s (v : Z) : Prop :=
  ∃ x n es p, vnodes s !! v = Some x ∧ nodes s !! v_data x = Some n ∧ tn_body n = TDir es p.
Definition find_entry (es : list tmpdirent) (nm : name) : option tmpdirent :=
  List.find (λ d, bool_decide (td_name d = nm)) es.
Definition fs_child s (v : Z) (nm : name) : option Z :=
  x ← vnodes s !! v;
  n ← nodes s !! v_data x;
  es ← dir_entries n;
  d ← find_entry es nm;
  m ← nodes s !! td_node d;
  tn_vn m.

Lemma get_vnode_ok s v x : vnodes s !! v = Some x → get_vnode v s = Ok (x, s).
Proof. intros E. unfold get_vnode. by rewrite E. Qed.
Lemma get_node_ok s a n : nodes s !! a = Some n → get_node a s = Ok (n, s).
Proof. intros E. unfold get_node. by rewrite E. Qed.
Lemma on_memory_ok {A} (m : M V A) s a v : m (memory s) = Ok (a, v) → on_memory m s = Ok (a, set_memory v s).
Proof. intros E. unfold on_memory. by rewrite E. Qed.

Lemma find_entry_in es nm d : find_entry es nm = Some d → d ∈ es ∧ td_name d = nm.
Proof.
  intros [Hin Hb]%List.find_some. split; [by apply list_elem_of_In|]. by apply bool_decide_eq_true in Hb.
Qed.

(** ** Taking another reference *)

Definition same_vnode (x y : vnode) : Prop :=
  v_type y = v_type x ∧ v_vmobj y = v_vmobj x ∧ v_data y = v_data x ∧
  v_mountedhere y = v_mountedhere x ∧ v_ops y = v_ops x.

Lemma set_vnode_lookup s v y w z :
  vnodes (set_vnode v y s) !! w = Some z → (∃ x, vnodes s !! v = Some x ∧ same_vnode x y) →
  ∃ z0, vnodes s !! w = Some z0 ∧ same_vnode z0 z.
Proof.
  simpl. rewrite lookup_insert_Some. intros [[<- <-]|[_ ?]] (x & Hx & Hs); [by exists x|].
  exists z. split; [done|]. unfold same_vnode. done.
Qed.

Lemma set_vnode_child s v x y w nm :
  vnodes s !! v = Some x → same_vnode x y → fs_child (set_vnode v y s) w nm = fs_child s w nm.
Proof.
  intros Hx (_ & _ & Hd & _). unfold fs_child. simpl. destruct (decide (w = v)) as [->|].
  - rewrite lookup_insert_eq, Hx. simpl. by rewrite Hd.
  - by rewrite lookup_insert_ne.
Qed.

Lemma set_vnode_dir s v x y w :
  vnodes s !! v = Some x → same_vnode x y → fs_dir (set_vnode v y s) w ↔ fs_dir s w.
Proof.
  intros Hx (_ & _ & Hd & _). unfold fs_dir. simpl. destruct (decide (w = v)) as [->|].
  - rewrite lookup_insert_eq, Hx. split; intros (z & n & es & p & [= <-] & Hn & Hb).
    + exists x, n, es, p. by rewrite <-Hd.
    + exists y, n, es, p. by rewrite Hd.
  - by rewrite lookup_insert_ne.
Qed.

Lemma set_vnode_ok s v x y :
  fs_ok s → vnodes s !! v = Some x → same_vnode x y → fs_ok (set_vnode v y s).
Proof.
  intros [H1 H2 H3 H4 H5 H6 H7 H8 H9] Hx Hs. split; try done.
  - intros w z Hz. destruct (set_vnode_lookup s v y w z Hz) as (z0 & Hz0 & E1 & E2 & E3 & E4 & E5); [eauto|].
    rewrite E1, E2, E3, E4, E5. by apply H1.
  - intros a n w Hn Hw. destruct (H2 a n w Hn Hw) as (z & Hz & Hd). simpl.
    destruct (decide (w = v)) as [->|].
    + exists y. rewrite lookup_insert_eq. split; [done|]. destruct Hs as (_ & _ & -> & _). congruence.
    + exists z. by rewrite lookup_insert_ne.
  - intros w z Hz. destruct (set_vnode_lookup s v y w z Hz) as (z0 & Hz0 & _); [eauto|]. by eapply H7.
Qed.

(** [tmpfs_vget] of a node that has a vnode. *)
Lemma vget_run s vfs ino n v :
  fs_ok s → nodes s !! ino = Some n → tn_vn n = Some v →
  ∃ s', tmpfs_vget vfs ino s = Ok ((0, Some v), s') ∧ fs_ok s' ∧ (∀ d, fs_dir s' d ↔ fs_dir s d) ∧
    ∀ d m, fs_child s' d m = fs_child s d m.
Proof.
  intros Hok Hn Hv. destruct (fo_node _ Hok _ _ _ Hn Hv) as (x & Hx & Hd).
  unfold tmpfs_vget. rewrite (bind_step _ _ _ _ _ (get_node_ok _ _ _ Hn)), Hv.
  rewrite (bind_step _ _ _ _ _ (get_vnode_ok _ _ _ Hx)).
  eexists. split; [done|]. split_and!.
  - by apply (set_vnode_ok s v x).
  - intros d. by apply (set_vnode_dir s v x).
  - intros d m. by apply (set_vnode_child s v x).
Qed.

(** ** Looking a name up *)

Lemma tmp_lookup_run s v nm :
  fs_ok s → fs_dir s v → nm ≠ dotdot →
  ∃ s', tmp_lookup v nm s =
    Ok (match fs_child s v nm with Some w => (0, Some w) | None => (- ENOENT, None) end, s') ∧
    fs_ok s' ∧ (∀ d, fs_dir s' d ↔ fs_dir s d) ∧ ∀ d m, fs_child s' d m = fs_child s d m.
Proof.
  intros Hok (x & n & es & p & Hx & Hn & Hb) Hdd. unfold tmp_lookup.
  rewrite (bind_step _ _ _ _ _ (get_vnode_ok _ _ _ Hx)), (bind_step _ _ _ _ _ (get_node_ok _ _ _ Hn)).
  assert (va_type (tn_attr n) = VDIR) as Ht by (apply (fo_dir _ Hok _ _ Hn); eauto).
  rewrite bool_decide_true, massert_bind by done. rewrite decide_False by done.
  unfold tlookup, dir_entries. rewrite Hb.
  rewrite (bind_step _ _ s (find_entry es nm) s) by done.
  unfold fs_child, dir_entries. rewrite Hx. simpl. rewrite Hn. simpl. rewrite Hb. simpl.
  destruct (find_entry es nm) as [d|] eqn:Hf; simpl; [|by exists s].
  destruct (find_entry_in _ _ _ Hf) as [Hin _].
  destruct (fo_entry _ Hok _ _ _ _ _ Hn Hb Hin) as (m & Hm & Hv).
  destruct (tn_vn m) as [w|] eqn:Hw; [|done]. rewrite Hm. simpl. rewrite Hw.
  by apply (vget_run s (v_vfsp x) (td_node d) m w).
Qed.

Lemma fs_dir_ops s v : fs_ok s → fs_dir s v → ∃ x, vnodes s !! v = Some x ∧ v_ops x = tmpfs_vnops.
Proof.
  intros Hok (x & n & es & p & Hx & Hn & Hb). exists x. split; [done|].
  destruct (fo_vnode _ Hok _ _ Hx) as (n' & Hn' & _ & _ & _ & Hops & _). simplify_eq.
  apply Hops. assert (va_type (tn_attr n) = VDIR) as -> by (apply (fo_dir _ Hok _ _ Hn); eauto). done.
Qed.

Lemma child_mounted s d nm v : fs_ok s → fs_child s d nm = Some v → vn_mounted v s = Ok (None, s).
Proof.
  intros Hok Hc. unfold fs_child in Hc.
  destruct (vnodes s !! d) as [x|]; [|done]. simpl in Hc. destruct (nodes s !! v_data x) as [n|]; [|done].
  simpl in Hc. destruct (dir_entries n) as [es|]; [|done]. simpl in Hc.
  destruct (find_entry es nm) as [e|]; [|done]. simpl in Hc.
  destruct (nodes s !! td_node e) as [m|] eqn:Hm; [|done]. simpl in Hc.
  destruct (fo_node _ Hok _ _ _ Hm Hc) as (y & Hy & _).
  destruct (fo_vnode _ Hok _ _ Hy) as (_ & _ & _ & _ & Hmt & _).
  simpl. rewrite (bind_step _ _ _ _ _ (get_vnode_ok _ _ _ Hy)). by rewrite Hmt.
Qed.

(** tmpfs keeps the promise [vfs_lookup] relies on. *)
#[export] Program Instance tmpfs_tree : DirTree (fs V) := {
  tree_ok := fs_ok;
  is_dir := fs_dir;
  child := fs_child;
}.
Next Obligation.
  intros s v nm Hok Hd Hdd. destruct (fs_dir_ops s v Hok Hd) as (x & Hx & Ho).
  simpl. rewrite (bind_step _ _ _ _ _ (get_vnode_ok _ _ _ Hx)). rewrite decide_True by done.
  by apply tmp_lookup_run.
Qed.
Next Obligation. intros s d nm v. apply child_mounted. Qed.
(** ** Storage that only grows *)

Record grown (m m' : V) : Prop := {
  gr_live q : om_live m q → om_live m' q;
  gr_object q : om_object m q → om_object m' q;
  gr_bytes q i : om_live m q → om_contents m' q i = om_contents m q i;
}.
Lemma grown_trans m1 m2 m3 : grown m1 m2 → grown m2 m3 → grown m1 m3.
Proof.
  intros [L1 O1 B1] [L2 O2 B2]. split; eauto. intros q i Hq. rewrite B2 by auto. auto.
Qed.

Lemma mem_alloc k size m : om_ready (S k) m → 0 < size →
  ∃ p m', om_alloc size m = Ok (p, m') ∧ om_ready k m' ∧ ¬ om_live m p ∧ om_live m' p ∧ grown m m'.
Proof.
  intros Hr Hs. destruct (om_alloc_spec k size m Hr Hs) as (p & m' & Ha & Hr' & Hf & Hl & Ho & Hb).
  exists p, m'. split_and!; [done|done|done|apply Hl; by right|]. split; [|by intros q ?; apply Ho|done].
  intros q Hq. apply Hl. by left.
Qed.

(** A new object has a node's two references, one of them [vm_aobj_new]'s. *)
Lemma mem_object k m : om_ready (S k) m →
  ∃ o m1 m', om_aobj_new (2^32 - 1) m = Ok (o, m1) ∧ om_retain o m1 = Ok ((), m') ∧ om_ready k m' ∧
    ¬ om_live m o ∧ om_live m' o ∧ om_object m' o ∧ (∀ i, om_contents m' o i = 0) ∧ grown m m'.
Proof.
  intros Hr. destruct (om_new_spec k (2^32 - 1) m Hr) as (o & m1 & Hn & Hr1 & Hf & Hl & Ho & H0 & Hb).
  destruct (om_retain_spec k o m1 Hr1) as (m' & Hre & Hr' & Hl' & Ho' & Hb'); [apply Ho; by right|].
  exists o, m1, m'. split_and!; try done.
  - apply Hl', Hl. by right.
  - apply Ho', Ho. by right.
  - intros i. by rewrite Hb', H0.
  - split.
    + intros q Hq. apply Hl', Hl. by left.
    + intros q Hq. apply Ho', Ho. by left.
    + intros q i Hq. rewrite Hb', Hb; [done|]. by intros ->.
Qed.

(** ** Making a node *)

Definition fresh_body (dn : Z) (ty : vtype) (m m' : V) (body : tmpnode_body) : Prop :=
  (ty = VDIR ∧ body = TDir [] dn) ∨
  (ty = VREG ∧ ∃ o, body = TReg o ∧ om_object m' o ∧ ¬ om_live m o ∧ om_live m' o ∧
     ∀ i, om_contents m' o i = 0).
Definition with_entry (e : tmpdirent) (d : tmpnode) (es : list tmpdirent) (p : Z) : tmpnode :=
  Tmpnode (tn_vn d) (tn_attr d) (TDir (es ++ [e]) p).

Lemma tmakenode_run s dn d es p nm attr :
  nodes s !! dn = Some d → tn_body d = TDir es p → om_live (memory s) dn → om_ready 5 (memory s) →
  va_type attr = VREG ∨ va_type attr = VDIR →
  ∃ n td body m k, tmakenode dn nm (Some attr) s = Ok (n,
      Fs m (<[dn := with_entry (Dirent td nm n) d es p]>
              (<[n := Tmpnode None (Vattr (va_type attr) (va_mode attr) 0 (va_rdev attr)) body]> (nodes s)))
        (vnodes s) (vfs_data s) (specdevs s)) ∧
    om_ready (S k) m ∧ grown (memory s) m ∧ ¬ om_live (memory s) n ∧ om_live m n ∧ n ≠ dn ∧
    fresh_body dn (va_type attr) (memory s) m body.
Proof.
  intros Hd Hb Hdn Hr Hty. unfold tmakenode.
  destruct (mem_alloc 4 sizeof_tmpnode _ Hr) as (n & m1 & A1 & R1 & F1 & L1 & G1); [done|].
  rewrite (bind_step _ _ _ _ _ (on_memory_ok _ s _ _ A1)).
  destruct (mem_alloc 3 sizeof_tmpdirent m1 R1) as (td & m2 & A2 & R2 & F2 & L2 & G2); [done|].
  rewrite (bind_step _ _ _ _ _ (on_memory_ok _ (set_memory m1 s) _ _ A2)).
  destruct (mem_alloc 2 (Z.of_nat (length nm) + 1) m2 R2) as (q & m3 & A3 & R3 & F3 & L3 & G3); [lia|].
  rewrite (bind_step _ _ _ _ _ (on_memory_ok _ (set_memory m2 s) _ _ A3)), deref_bind. cbv zeta.
  pose proof (grown_trans _ _ _ G1 (grown_trans _ _ _ G2 G3)) as G.
  assert (n ≠ dn) as Hne by (intros ->; done).
  assert (∃ body m k, (match va_type attr with
    | VREG => obj ← on_memory (om_aobj_new (2^32 - 1)); on_memory (om_retain obj);; mret (TReg obj)
    | VDIR => mret (TDir [] dn) | _ => mret TNone end) (set_memory m3 s) = Ok (body, set_memory m s) ∧
    om_ready (S k) m ∧ grown m3 m ∧ fresh_body dn (va_type attr) (memory s) m body) as (body & m & k & E & R & G' & Fb).
  { destruct Hty as [-> | ->].
    - destruct (mem_object 1 m3 R3) as (o & m4 & m5 & N & Rt & R5 & F & L & O & Z0 & G5).
      exists (TReg o), m5, 0%nat. split_and!; try done.
      + rewrite (bind_step _ _ _ _ _ (on_memory_ok _ (set_memory m3 s) _ _ N)).
        by rewrite (bind_step _ _ _ _ _ (on_memory_ok _ (set_memory m4 s) _ _ Rt)).
      + right. split; [done|]. exists o. split_and!; try done. intros Hl. by apply F, (gr_live _ _ G).
    - exists (TDir [] dn), m3, 1%nat. split_and!; try done. by left. }
  rewrite (bind_step _ _ _ _ _ E). exists n, td, body, m, k.
  rewrite (bind_step _ _ _ _ _ (mmodify_ok _ _)).
  rewrite (bind_step _ _ _ d (set_node n (Tmpnode None (Vattr (va_type attr) (va_mode attr) 0 (va_rdev attr)) body)
    (set_memory m s))) by (apply get_node_ok; simpl; by rewrite lookup_insert_ne).
  rewrite Hb. split; [done|]. split_and!; try done.
  - by apply (grown_trans _ m3).
  - apply (gr_live _ _ G'), (gr_live _ _ G3), (gr_live _ _ G2), L1.
Qed.
(** ** The tree with one more name *)

Section created.
Variables (s : fs V) (m : V) (dn : Z) (d : tmpnode) (es : list tmpdirent) (p n td : Z) (nm : name)
  (a : vattr) (body : tmpnode_body) (vn obj vfs : Z).
Hypothesis Hok : fs_ok s.
Hypothesis Hd : nodes s !! dn = Some d.
Hypothesis Hb : tn_body d = TDir es p.
Hypothesis Hg : grown (memory s) m.
Hypothesis Hn : ¬ om_live (memory s) n.
Hypothesis Hnl : om_live m n.
Hypothesis Hvn : ¬ om_live (memory s) vn.
Hypothesis Hvl : om_live m vn.
Hypothesis Hfb : ∃ m0, grown m0 m ∧ fresh_body dn (va_type a) (memory s) m0 body.
Hypothesis Hobj : va_type a = VREG → body = TReg obj.

Let e := Dirent td nm n.
Let new := Tmpnode (Some vn) a body.
Let x := Vnode 1 false (va_type a) obj n vfs None tmpfs_vnops 0.
Let s' := Fs m (<[n := new]> (<[dn := with_entry e d es p]> (nodes s))) (<[vn := x]> (vnodes s))
  (vfs_data s) (specdevs s).

Lemma new_ne_dn : n ≠ dn.
Proof. intros E. apply Hn. rewrite E. by eapply (fo_live_node _ Hok). Qed.

(** An old node is as it was, but for the directory's entries. *)
Lemma nodes_cases b y : nodes s' !! b = Some y →
  (b = n ∧ y = new) ∨
  (b ≠ n ∧ ∃ y0, nodes s !! b = Some y0 ∧ tn_vn y = tn_vn y0 ∧ tn_attr y = tn_attr y0 ∧
    (tn_body y = tn_body y0 ∨ (b = dn ∧ y0 = d ∧ tn_body y = TDir (es ++ [e]) p))).
Proof.
  simpl. rewrite !lookup_insert_Some. intros [[<- <-]|[Hne [[<- <-]|[Hne' Hy]]]]; [by left| |].
  - right. split; [done|]. exists d. split_and!; try done. by right.
  - right. split; [done|]. exists y. split_and!; try done. by left.
Qed.
Lemma nodes_old b y0 : nodes s !! b = Some y0 → b ≠ n →
  ∃ y, nodes s' !! b = Some y ∧ tn_vn y = tn_vn y0 ∧ tn_attr y = tn_attr y0 ∧
    (tn_body y = tn_body y0 ∨ (b = dn ∧ y0 = d ∧ tn_body y = TDir (es ++ [e]) p)).
Proof.
  intros Hy Hne. simpl. rewrite lookup_insert_ne by done. destruct (decide (b = dn)) as [->|].
  - rewrite lookup_insert_eq. simplify_eq. eexists. split; [done|]. split_and!; try done. by right.
  - rewrite lookup_insert_ne by done. exists y0. split_and!; try done. by left.
Qed.
Lemma old_not_new b y : nodes s !! b = Some y → b ≠ n.
Proof. intros Hy ->. apply Hn. by eapply (fo_live_node _ Hok). Qed.

Lemma new_type : va_type a = VREG ∨ va_type a = VDIR.
Proof. destruct Hfb as (m0 & _ & [[-> _]|[-> _]]); auto. Qed.
Lemma new_object : va_type a = VREG → body = TReg obj ∧ om_object m obj ∧ om_live m obj ∧ ¬ om_live (memory s) obj.
Proof.
  intros Ht. pose proof (Hobj Ht) as E. destruct Hfb as (m0 & G & [[Ht' _]|(_ & o & E' & O & F & L & _)]); [congruence|].
  assert (o = obj) as -> by congruence. split_and!; [done|by apply (gr_object _ _ G)|by apply (gr_live _ _ G)|done].
Qed.

Lemma new_body :
  (body = TDir [] dn ∧ va_type a = VDIR) ∨ (body = TReg obj ∧ va_type a = VREG).
Proof.
  destruct new_type as [Ht|Ht]; [right; split; [by apply new_object|done]|left].
  destruct Hfb as (m0 & _ & [[_ E]|[Ht' _]]); [done|congruence].
Qed.

Lemma created_vnode v z : vnodes s' !! v = Some z → ∃ y, nodes s' !! v_data z = Some y ∧ tn_vn y = Some v ∧
  v_type z = va_type (tn_attr y) ∧ v_mountedhere z = None ∧
  (v_ops z = tmpfs_vnops ↔ va_type (tn_attr y) ≠ VCHR) ∧
  (va_type (tn_attr y) = VREG → tn_body y = TReg (v_vmobj z)).
Proof.
  simpl vnodes. rewrite lookup_insert_Some. intros [[<- <-]|[Hne Hz]].
  - exists new. simpl. rewrite lookup_insert_eq. split_and!; try done.
    split; [|done]. intros _. destruct new_type; congruence.
  - destruct (fo_vnode _ Hok _ _ Hz) as (y0 & Hy0 & E1 & E2 & E3 & E4 & E5).
    destruct (nodes_old _ _ Hy0) as (y & Hy & Ev & Ea & Eb); [by eapply old_not_new|].
    exists y. rewrite Ev, Ea. split_and!; try done. intros Ht.
    destruct Eb as [->|(_ & -> & _)]; [auto|]. by rewrite E5 in Hb.
Qed.

Lemma created_entry b y es' p' td0 :
  nodes s' !! b = Some y → tn_body y = TDir es' p' → td0 ∈ es' →
  ∃ z, nodes s' !! td_node td0 = Some z ∧ tn_vn z ≠ None.
Proof.
  assert (∀ td0 y0, nodes s !! td_node td0 = Some y0 → tn_vn y0 ≠ None →
    ∃ y, nodes s' !! td_node td0 = Some y ∧ tn_vn y ≠ None) as Hold.
  { intros td1 y0 Hy0 Hv0. destruct (nodes_old _ _ Hy0) as (y1 & Hy & Ev & _); [by eapply old_not_new|].
    exists y1. by rewrite Ev. }
  intros [[-> ->]|(Hne & y0 & Hy0 & Ev & Ea & Eb)]%nodes_cases Hes Hin.
  - simpl in *. destruct new_body as [[E _]|[E _]]; rewrite E in Hes; [|done].
    injection Hes as <- <-. by apply elem_of_nil in Hin.
  - destruct Eb as [E|(-> & -> & E)]; rewrite E in Hes.
    + destruct (fo_entry _ Hok _ _ _ _ _ Hy0 Hes Hin) as (z & Hz & Hvz). by eapply Hold.
    + injection Hes as <- <-. apply elem_of_app in Hin as [Hin|Hin%list_elem_of_singleton].
      * destruct (fo_entry _ Hok _ _ _ _ _ Hy0 Hb Hin) as (z & Hz & Hvz). by eapply Hold.
      * subst td0. exists new. simpl. by rewrite lookup_insert_eq.
Qed.

(** Which object a node has. *)
Lemma created_reg b y o : nodes s' !! b = Some y → tn_body y = TReg o →
  (b = n ∧ o = obj ∧ va_type a = VREG) ∨ (b ≠ n ∧ ∃ y0, nodes s !! b = Some y0 ∧ tn_body y0 = TReg o).
Proof.
  intros [[-> ->]|(Hne & y0 & Hy0 & _ & _ & Eb)]%nodes_cases Ho; [left|right].
  - simpl in Ho. destruct new_body as [[E _]|[E Ht]]; rewrite E in Ho; [done|]. by injection Ho as <-.
  - split; [done|]. exists y0. split; [done|]. destruct Eb as [E|(_ & _ & E)]; rewrite E in Ho; done.
Qed.

Lemma created_own b c y z o : nodes s' !! b = Some y → nodes s' !! c = Some z →
  tn_body y = TReg o → tn_body z = TReg o → b = c.
Proof.
  assert (∀ b y0, nodes s !! b = Some y0 → tn_body y0 = TReg obj → va_type a = VREG → False) as Hdiff.
  { intros b1 y1 Hy1 Ho1 Ht. destruct (new_object Ht) as (_ & _ & _ & F).
    by apply F, (fo_live_obj _ Hok _ _ _ Hy1 Ho1). }
  intros Hy Hz Ho Ho'.
  destruct (created_reg _ _ _ Hy Ho) as [(-> & -> & Ht)|(_ & y0 & Hy0 & Hb0)],
    (created_reg _ _ _ Hz Ho') as [(-> & E & Ht')|(_ & z0 & Hz0 & Hc0)]; [done|..].
  - by destruct (Hdiff _ _ Hz0 Hc0 Ht).
  - subst o. by destruct (Hdiff _ _ Hy0 Hb0 Ht').
  - by eapply (fo_own _ Hok _ _ _ _ _ Hy0 Hz0).
Qed.

Lemma created_ok : fs_ok s'.
Proof.
  split.
  - apply created_vnode.
  - intros b y w [[-> ->]|(Hne & y0 & Hy0 & Ev & Ea & Eb)]%nodes_cases Hw.
    + injection Hw as <-. exists x. simpl. by rewrite lookup_insert_eq.
    + rewrite Ev in Hw. destruct (fo_node _ Hok _ _ _ Hy0 Hw) as (z & Hz & Hdz). exists z. simpl.
      rewrite lookup_insert_ne; [done|]. intros <-. by apply Hvn, (fo_live_vnode _ Hok _ _ Hz).
  - intros b y [[-> ->]|(Hne & y0 & Hy0 & Ev & Ea & Eb)]%nodes_cases.
    + simpl. destruct new_body as [[-> ->]|[-> ->]]; naive_solver.
    + rewrite Ea. destruct Eb as [->|(-> & -> & ->)]; [by apply (fo_dir _ Hok _ _ Hy0)|].
      rewrite (fo_dir _ Hok _ _ Hy0). naive_solver.
  - intros b y [[-> ->]|(Hne & y0 & Hy0 & Ev & Ea & Eb)]%nodes_cases Ht; simpl memory.
    + exists obj. destruct (new_object Ht) as (? & ? & _). done.
    + rewrite Ea in Ht. destruct (fo_reg _ Hok _ _ Hy0 Ht) as (o & Ho & Hoo).
      exists o. split; [|by apply (gr_object _ _ Hg)].
      destruct Eb as [->|(_ & -> & _)]; [done|congruence].
  - apply created_entry.
  - intros b y [[-> ->]|(Hne & y0 & Hy0 & _)]%nodes_cases; [done|].
    by eapply (gr_live _ _ Hg), (fo_live_node _ Hok).
  - intros v z. simpl. rewrite lookup_insert_Some. intros [[<- _]|[_ Hz]]; [done|].
    by eapply (gr_live _ _ Hg), (fo_live_vnode _ Hok).
  - intros b y o Hy Ho. destruct (created_reg _ _ _ Hy Ho) as [(_ & -> & Ht)|(_ & y0 & Hy0 & Hb0)].
    + by apply new_object.
    + by eapply (gr_live _ _ Hg), (fo_live_obj _ Hok).
  - apply created_own.
Qed.

Lemma find_entry_app l k : find_entry (l ++ [e]) k =
  match find_entry l k with Some t => Some t | None => if decide (k = nm) then Some e else None end.
Proof.
  unfold find_entry. induction l as [|t l IH]; simpl.
  - repeat case_decide; repeat case_bool_decide; naive_solver.
  - by case_bool_decide.
Qed.

(** The vnode a directory's entry leads to is as it was. *)
Lemma created_target b y es' p' k t :
  nodes s !! b = Some y → tn_body y = TDir es' p' → find_entry es' k = Some t →
  ∃ w, (z ← nodes s !! td_node t; tn_vn z) = Some w ∧ (z ← nodes s' !! td_node t; tn_vn z) = Some w.
Proof.
  intros Hy Hbd Ht. destruct (find_entry_in _ _ _ Ht) as [Hin _].
  destruct (fo_entry _ Hok _ _ _ _ _ Hy Hbd Hin) as (z0 & Hz0 & Hw).
  destruct (tn_vn z0) as [w|] eqn:E; [|done]. exists w. rewrite Hz0. split; [done|].
  destruct (nodes_old _ _ Hz0) as (z & Hz & Ez & _); [by eapply old_not_new|]. rewrite Hz. simpl. congruence.
Qed.

Lemma created_vnodes v xd : vnodes s !! v = Some xd → vnodes s' !! v = Some xd.
Proof.
  intros Hv. simpl. rewrite lookup_insert_ne; [done|]. intros <-. by apply Hvn, (fo_live_vnode _ Hok _ _ Hv).
Qed.

Lemma created_child_other v xd k :
  vnodes s !! v = Some xd → v_data xd ≠ dn → fs_child s' v k = fs_child s v k.
Proof.
  intros Hv Hne. unfold fs_child. rewrite Hv, (created_vnodes _ _ Hv). cbn [mbind option_bind].
  destruct (fo_vnode _ Hok _ _ Hv) as (y & Hy & _). rewrite Hy.
  assert (nodes s' !! v_data xd = Some y) as ->.
  { simpl. by rewrite !lookup_insert_ne by (done || apply not_eq_sym; by eapply old_not_new). }
  cbn [mbind option_bind]. unfold dir_entries. destruct (tn_body y) as [l p'| |] eqn:El; [|done..].
  cbn [mbind option_bind]. destruct (find_entry l k) as [t|] eqn:Ht; [|done].
  destruct (created_target _ _ _ _ _ _ Hy El Ht) as (w & E & E'). cbn [mbind option_bind]. by rewrite E, E'.
Qed.

(** The directory has the new name, unless it had it before: then the old entry
    keeps being found. *)
Lemma created_child_dir v xd k :
  vnodes s !! v = Some xd → v_data xd = dn → fs_child s' v k =
    match fs_child s v k with Some w => Some w | None => if decide (k = nm) then Some vn else None end.
Proof.
  intros Hv Ed. unfold fs_child. rewrite Hv, (created_vnodes _ _ Hv). cbn [mbind option_bind]. rewrite Ed, Hd.
  assert (nodes s' !! dn = Some (with_entry e d es p)) as ->.
  { simpl. by rewrite lookup_insert_ne, lookup_insert_eq by apply new_ne_dn. }
  cbn [mbind option_bind]. unfold dir_entries. rewrite Hb. cbn [with_entry tn_body mbind option_bind].
  rewrite find_entry_app. destruct (find_entry es k) as [t|] eqn:Ht; cbn [mbind option_bind].
  - destruct (created_target _ _ _ _ _ _ Hd Hb Ht) as (w & E & E'). by rewrite E, E'.
  - case_decide; [|done]. cbn [mbind option_bind e td_node]. simpl. by rewrite lookup_insert_eq.
Qed.

Lemma created_dir : va_type a = VDIR → fs_dir s' vn ∧ ∀ k, fs_child s' vn k = None.
Proof.
  intros Ht. destruct new_body as [[E _]|[_ ?]]; [|congruence]. split.
  - exists x, new, [], dn. simpl. by rewrite !lookup_insert_eq.
  - intros k. unfold fs_child. simpl. rewrite lookup_insert_eq. simpl. rewrite lookup_insert_eq. simpl.
    unfold dir_entries. simpl. by rewrite E.
Qed.
End created.
(** [tmpfs_vget] of a node that has no vnode yet. *)
Lemma vget_new s vfs n a body k :
  nodes s !! n = Some (Tmpnode None a body) → om_ready (S k) (memory s) →
  va_type a = VREG ∨ va_type a = VDIR → (va_type a = VREG → ∃ o, body = TReg o) →
  ∃ vn m obj, tmpfs_vget vfs n s = Ok ((0, Some vn),
      Fs m (<[n := Tmpnode (Some vn) a body]> (nodes s))
        (<[vn := Vnode 1 false (va_type a) obj n vfs None tmpfs_vnops 0]> (vnodes s)) (vfs_data s) (specdevs s)) ∧
    om_ready k m ∧ ¬ om_live (memory s) vn ∧ om_live m vn ∧ grown (memory s) m ∧
    (va_type a = VREG → body = TReg obj).
Proof.
  intros Hn Hr Hty Hbody. unfold tmpfs_vget. rewrite (bind_step _ _ _ _ _ (get_node_ok _ _ _ Hn)). cbn [tn_vn].
  destruct (mem_alloc k sizeof_vnode _ Hr) as (vn & m & A & R & F & L & G); [done|].
  rewrite (bind_step _ _ _ _ _ (on_memory_ok _ s _ _ A)). exists vn, m.
  destruct Hty as [Ht|Ht].
  - destruct (Hbody Ht) as [o ->]. exists o. split_and!; try done. simpl. by rewrite Ht.
  - exists 0. split_and!; try done; [|congruence]. simpl. by rewrite Ht.
Qed.

(** C26: Creating a file or a directory in a directory returns a new vnode, keeps
    the tree sound, and adds one name: the directory leads from that name to the
    new vnode, every other name of every directory to where it led before, and a
    new directory is empty.  A name the directory had already is not refused: the
    create returns 0 with a vnode that no lookup ever finds. *)
Theorem tmp_create_correct s dvn nm attr :
  fs_ok s → fs_dir s dvn → om_ready 5 (memory s) → va_type attr = VREG ∨ va_type attr = VDIR →
  ∃ vn s', tmp_create dvn nm (Some attr) s = Ok ((0, Some vn), s') ∧ fs_ok s' ∧
    vnodes s !! vn = None ∧
    fs_child s' dvn nm = Some (default vn (fs_child s dvn nm)) ∧
    (∀ v k, vnodes s !! v ≠ None → (v, k) ≠ (dvn, nm) → fs_child s' v k = fs_child s v k) ∧
    (va_type attr = VDIR → fs_dir s' vn ∧ ∀ k, fs_child s' vn k = None).
Proof.
  intros Hok (x & d & es & p & Hx & Hd & Hb) Hr Hty. unfold tmp_create.
  rewrite (bind_step _ _ _ _ _ (get_vnode_ok _ _ _ Hx)).
  destruct (fo_vnode _ Hok _ _ Hx) as (d' & Hd' & Hdv & Hvt & _ & _ & _). simplify_eq.
  rewrite bool_decide_true, massert_bind by (rewrite Hvt; apply (fo_dir _ Hok _ _ Hd); eauto).
  destruct (tmakenode_run s (v_data x) d es p nm attr Hd Hb) as (n & td & body & m & k & Hmk & R & G & Fn & Ln & Hne & Fb);
    [by eapply (fo_live_node _ Hok)|done|done|].
  rewrite (bind_step _ _ _ _ _ Hmk).
  set (a := Vattr (va_type attr) (va_mode attr) 0 (va_rdev attr)) in *.
  set (s1 := Fs m _ _ _ _).
  destruct (vget_new s1 (v_vfsp x) n a body k) as (vn & m' & obj & Hv & R' & Fv & Lv & G' & Hobj); try done.
  { simpl. by rewrite lookup_insert_ne, lookup_insert_eq. }
  { intros Ht. destruct Fb as [[? _]|[_ (o & -> & _)]]; [simpl in Ht; congruence|eauto]. }
  exists vn. rewrite Hv. set (s' := Fs m' _ _ _ _).
  pose proof (grown_trans _ _ _ G G') as Gt.
  assert (¬ om_live (memory s) vn) as Fv' by (intros H; by apply Fv, (gr_live _ _ G)).
  assert (s' = Fs m' (<[n := Tmpnode (Some vn) a body]> (<[v_data x := with_entry (Dirent td nm n) d es p]> (nodes s)))
    (<[vn := Vnode 1 false (va_type a) obj n (v_vfsp x) None tmpfs_vnops 0]> (vnodes s)) (vfs_data s) (specdevs s)) as Es.
  { unfold s', s1. simpl. f_equal. rewrite (insert_insert_ne (nodes s)) by done. by rewrite insert_insert_eq. }
  exists s'. split; [done|]. rewrite Es. clear s' Es Hv.
  assert (∃ m0, grown m0 m' ∧ fresh_body (v_data x) (va_type a) (memory s) m0 body) as Hfb by (exists m; done).
  assert (om_live m' n) as Ln' by by apply (gr_live _ _ G').
  split_and!.
  - by eapply created_ok.
  - destruct (vnodes s !! vn) as [y|] eqn:E; [|done]. by destruct Fv'; eapply (fo_live_vnode _ Hok).
  - rewrite (created_child_dir s m' (v_data x) d es p n td nm a body vn obj (v_vfsp x) Hok Hd Hb Fn Fv' Hfb dvn x nm Hx eq_refl).
    rewrite decide_True by done. by destruct (fs_child s dvn nm).
  - intros v k' Hv Hne'. destruct (vnodes s !! v) as [y|] eqn:Hy; [|done].
    destruct (decide (v_data y = v_data x)) as [E|E].
    + assert (v = dvn) as ->.
      { destruct (fo_vnode _ Hok _ _ Hy) as (d2 & Hd2 & Hv2 & _). rewrite E in Hd2. simplify_eq. congruence. }
      rewrite (created_child_dir s m' (v_data x) d es p n td nm a body vn obj (v_vfsp x) Hok Hd Hb Fn Fv' Hfb dvn y k' Hy E).
      rewrite decide_False by congruence. by destruct (fs_child s dvn k').
    + by eapply (created_child_other s m' (v_data x) d es p n).
  - intros Ht. by eapply created_dir.
Qed.
(** ** Reading and writing *)

(** A node may change its size and mode, and storage may grow. *)
Lemma resize_ok s b n n' m :
  fs_ok s → nodes s !! b = Some n → tn_vn n' = tn_vn n → tn_body n' = tn_body n →
  va_type (tn_attr n') = va_type (tn_attr n) →
  (∀ q, om_live (memory s) q → om_live m q) → (∀ q, om_object m q ↔ om_object (memory s) q) →
  fs_ok (Fs m (<[b := n']> (nodes s)) (vnodes s) (vfs_data s) (specdevs s)).
Proof.
  intros [H1 H2 H3 H4 H5 H6 H7 H8 H9] Hn Ev Eb Et Hl Ho.
  assert (∀ c y, <[b := n']> (nodes s) !! c = Some y → ∃ y0, nodes s !! c = Some y0 ∧
    tn_vn y = tn_vn y0 ∧ tn_body y = tn_body y0 ∧ va_type (tn_attr y) = va_type (tn_attr y0)) as Hc.
  { intros c y. rewrite lookup_insert_Some. intros [[<- <-]|[_ ?]]; eauto. }
  assert (∀ c y0, nodes s !! c = Some y0 → ∃ y, <[b := n']> (nodes s) !! c = Some y ∧
    tn_vn y = tn_vn y0 ∧ tn_body y = tn_body y0 ∧ va_type (tn_attr y) = va_type (tn_attr y0)) as Hc'.
  { intros c y0 Hy0. destruct (decide (c = b)) as [->|].
    - exists n'. rewrite lookup_insert_eq. by simplify_eq.
    - exists y0. by rewrite lookup_insert_ne. }
  split; simpl.
  - intros v z Hz. destruct (H1 v z Hz) as (y0 & Hy0 & ?). destruct (Hc' _ _ Hy0) as (y & Hy & E1 & E2 & E3).
    exists y. by rewrite E1, E2, E3.
  - intros c y v (y0 & Hy0 & -> & _)%Hc. by apply H2.
  - intros c y (y0 & Hy0 & _ & -> & ->)%Hc. by eapply H3.
  - intros c y (y0 & Hy0 & _ & -> & ->)%Hc Hr. destruct (H4 _ _ Hy0 Hr) as (o & ? & ?). exists o. by rewrite Ho.
  - intros c y es p td (y0 & Hy0 & _ & -> & _)%Hc Hes Hin. destruct (H5 _ _ _ _ _ Hy0 Hes Hin) as (z0 & Hz0 & Hv).
    destruct (Hc' _ _ Hz0) as (z & Hz & E & _). exists z. by rewrite E.
  - intros c y (y0 & Hy0 & _)%Hc. eauto.
  - eauto.
  - intros c y o (y0 & Hy0 & _ & -> & _)%Hc. eauto.
  - intros c1 c2 y1 y2 o (z1 & Hz1 & _ & -> & _)%Hc (z2 & Hz2 & _ & -> & _)%Hc. eauto.
Qed.

Lemma list_seqZ (l : list Z) : (λ i, default 0 (l !! Z.to_nat i)) <$> seqZ 0 (Z.of_nat (length l)) = l.
Proof.
  apply list_eq. intros i. rewrite list_lookup_fmap. destruct (decide (i < length l)%nat) as [Hi|Hi].
  - rewrite lookup_seqZ_lt by lia. cbn [fmap option_fmap option_map]. rewrite Z.add_0_l, Nat2Z.id.
    destruct (lookup_lt_is_Some_2 _ _ Hi) as [y ->]. done.
  - rewrite lookup_seqZ_ge by lia. symmetry. apply lookup_ge_None. lia.
Qed.

Lemma pground n : 0 < n → n + 4095 < 2^64 → n ≤ PGROUNDUP n ∧ PGROUNDUP n mod PGSIZE = 0.
Proof. intros ? ?. rewrite PGROUNDUP_eq by lia. unfold PGSIZE. split; [|apply Z.mod_mul; lia]. Z.to_euclidean_division_equations. lia. Qed.

Definition file_at s (v : Z) (x : vnode) (n : tmpnode) (o : Z) : Prop :=
  vnodes s !! v = Some x ∧ nodes s !! v_data x = Some n ∧ va_type (tn_attr n) = VREG ∧
  tn_body n = TReg o ∧ v_vmobj x = o.

Lemma tmp_write_run s v x n o l off k :
  fs_ok s → file_at s v x n o → om_ready (S (S k)) (memory s) → l ≠ [] → 0 ≤ off →
  off + Z.of_nat (length l) + 4095 < 2^64 → Z.of_nat (length l) < 2^31 →
  PGROUNDUP (off + Z.of_nat (length l)) ≤ om_limit →
  ∃ s' n', tmp_write v l off s = Ok (Z.of_nat (length l), s') ∧ fs_ok s' ∧ om_ready k (memory s') ∧
    file_at s' v x n' o ∧ va_size (tn_attr n') = Z.max (va_size (tn_attr n)) (off + Z.of_nat (length l)) ∧
    (∀ b, b ≠ v_data x → nodes s' !! b = nodes s !! b) ∧ vnodes s' = vnodes s ∧
    ∀ q i, om_contents (memory s') q i =
      if decide (q = o ∧ off ≤ i < off + Z.of_nat (length l)) then default 0 (l !! Z.to_nat (i - off))
      else om_contents (memory s) q i.
Proof.
  intros Hok (Hx & Hn & Ht & Hb & Ho) Hr Hl Hoff Hlen Hi Hlim. unfold tmp_write. rewrite Z.add_comm in Hlim.
  rewrite (bind_step _ _ _ _ _ (get_vnode_ok _ _ _ Hx)), (bind_step _ _ _ _ _ (get_node_ok _ _ _ Hn)). cbv zeta.
  assert (0 < Z.of_nat (length l)) as Hpos by (destruct l; [done|simpl; lia]).
  rewrite (proj2 (Z.eqb_neq (Z.of_nat (length l)) 0)) by lia. rewrite w64_small by lia.
  set (len := Z.of_nat (length l)) in *. set (a := tn_attr n).
  set (n' := Tmpnode (tn_vn n) (Vattr (va_type a) (va_mode a) (Z.max (va_size a) (off + len)) (va_rdev a)) (tn_body n)).
  set (s1 := set_node (v_data x) n' s).
  rewrite (bind_step _ _ _ () s1).
  2:{ unfold mwhen, s1, n'. destruct (Z.ltb_spec (va_size a) (off + len)); [by rewrite Z.max_r by lia|].
      rewrite Z.max_l by lia. unfold set_node. rewrite insert_id; [by destruct s|].
      rewrite Hn. destruct n as [? [] ?]. done. }
  destruct (pground (len + off)) as [Hp1 Hp2]; [lia|lia|].
  destruct (fo_reg _ Hok _ _ Hn Ht) as (o' & Hb' & Hobj). assert (o' = o) as -> by congruence.
  destruct (om_map_spec (S k) o (PGROUNDUP (len + off)) (memory s) Hr Hobj) as (va & m1 & M1 & R1 & Mp & L1 & O1 & B1); [lia|done|].
  rewrite Ho, (bind_step _ _ s1 (0, va) (set_memory m1 s1)) by (by apply on_memory_ok). cbv beta iota.
  change (0 =? 0) with true. rewrite massert_bind.
  destruct (om_store_spec k m1 va _ o off l R1 Mp Hoff) as (m2 & M2 & R2 & Mp2 & L2 & O2 & B2); [fold len; lia|].
  cbv beta. rewrite (bind_step _ _ (set_memory m1 s1) () (set_memory m2 s1)) by (by apply (on_memory_ok _ (set_memory m1 s1))).
  destruct (om_unmap_spec k m2 va _ o R2 Mp2) as (m3 & M3 & R3 & L3 & O3 & B3).
  rewrite (bind_step _ _ (set_memory m2 s1) () (set_memory m3 s1)) by (by apply (on_memory_ok _ (set_memory m2 s1))).
  exists (set_memory m3 s1), n'. rewrite s32_small by lia. split_and!; try done.
  - apply (resize_ok s (v_data x) n n' m3); try done; [by eauto|]. intros q. by rewrite O3, O2, O1.
  - split_and!; try done. apply lookup_insert_eq.
  - intros b ?. simpl. by rewrite lookup_insert_ne.
  - intros q i. simpl. by rewrite B3, B2, B1.
Qed.

Lemma tmp_read_run s v x n o len off k :
  fs_ok s → file_at s v x n o → om_ready (S (S k)) (memory s) → 0 < len → 0 ≤ off →
  off + len ≤ va_size (tn_attr n) → va_size (tn_attr n) + 4095 < 2^64 → len < 2^31 →
  PGROUNDUP (off + len) ≤ om_limit →
  ∃ s', tmp_read v len off s = Ok ((len, (λ i, om_contents (memory s) o (off + i)) <$> seqZ 0 len), s').
Proof.
  intros Hok (Hx & Hn & Ht & Hb & Ho) Hr Hl Hoff Hlen Hsz Hi Hlim. unfold tmp_read. rewrite Z.add_comm in Hlim.
  rewrite (bind_step _ _ _ _ _ (get_vnode_ok _ _ _ Hx)), (bind_step _ _ _ _ _ (get_node_ok _ _ _ Hn)). cbv zeta.
  rewrite bool_decide_true by done. cbn [negb]. rewrite (w64_small (off + len)) by lia.
  rewrite (proj2 (Z.ltb_ge _ _)) by lia. rewrite (proj2 (Z.eqb_neq len 0)) by lia.
  destruct (pground (len + off)) as [Hp1 Hp2]; [lia|lia|].
  destruct (fo_reg _ Hok _ _ Hn Ht) as (o' & Hb' & Hobj). assert (o' = o) as -> by congruence.
  destruct (om_map_spec (S k) o (PGROUNDUP (len + off)) (memory s) Hr Hobj) as (va & m1 & M1 & R1 & Mp & L1 & O1 & B1); [lia|done|].
  rewrite Ho, (bind_step _ _ _ _ _ (on_memory_ok _ s _ _ M1)). cbv beta iota.
  change (0 =? 0) with true. rewrite massert_bind.
  destruct (om_load_spec k m1 va _ o off (Z.to_nat len) R1 Mp Hoff) as (m2 & M2 & R2 & Mp2 & _); [lia|].
  cbv beta. rewrite (bind_step _ _ _ _ _ (on_memory_ok _ (set_memory m1 s) _ _ M2)).
  destruct (om_unmap_spec k m2 va _ o R2 Mp2) as (m3 & M3 & _).
  rewrite (bind_step _ _ _ _ _ (on_memory_ok _ (set_memory m2 s) _ _ M3)).
  eexists. rewrite s32_small by lia. rewrite Z2Nat.id by lia.
  erewrite list_fmap_ext; [done|]. intros i j _. apply B1.
Qed.

(** A write that would need a larger mapping than the kernel map has room for: the
    size has been changed, and the assertion on the mapping stops the kernel. *)
Lemma tmp_write_over s v x n o l off k :
  fs_ok s → file_at s v x n o → om_ready k (memory s) → l ≠ [] → 0 ≤ off →
  off + Z.of_nat (length l) + 4095 < 2^64 → om_limit < PGROUNDUP (off + Z.of_nat (length l)) →
  is_fatal (tmp_write v l off s).
Proof.
  intros Hok (Hx & Hn & Ht & Hb & Ho) Hr Hl Hoff Hlen Hlim. unfold tmp_write. rewrite Z.add_comm in Hlim.
  rewrite (bind_step _ _ _ _ _ (get_vnode_ok _ _ _ Hx)), (bind_step _ _ _ _ _ (get_node_ok _ _ _ Hn)). cbv zeta.
  assert (0 < Z.of_nat (length l)) as Hpos by (destruct l; [done|simpl; lia]).
  rewrite (proj2 (Z.eqb_neq (Z.of_nat (length l)) 0)) by lia.
  destruct (pground (Z.of_nat (length l) + off)) as [_ Hp]; [lia|lia|].
  destruct (fo_reg _ Hok _ _ Hn Ht) as (o' & Hb' & Hobj). assert (o' = o) as -> by congruence.
  destruct (om_map_over k o _ (memory s) Hr Hobj Hlim Hp) as (r & va & m & Hmap & Hneg).
  match goal with |- is_fatal ((mwhen ?b ?m1 ≫= _) _) =>
    assert (∃ s1, mwhen b m1 s = Ok ((), s1) ∧ memory s1 = memory s) as (s1 & Hs1 & Hm1) end.
  { unfold mwhen. case_match; eexists; (split; [reflexivity|done]). }
  rewrite (bind_step _ _ _ _ _ Hs1), Ho.
  rewrite (bind_step _ _ s1 (r, va) (set_memory m s1)) by (apply on_memory_ok; by rewrite Hm1).
  cbv beta iota. by rewrite (proj2 (Z.eqb_neq r 0)) by lia.
Qed.

(** C27: What is written to a file is read back, up to what the kernel map has room
    for.  If the pages up to the end of the range fit into it ([om_limit]), a write of
    [l] at [off] returns its length and keeps the filesystem sound, the size grows to
    cover it, reading the same range returns [l], and no byte outside the range, and
    of no other object, changes.  If they do not, the assertion on the mapping
    stops the kernel.  Storage is what [ObjectMemory] says of it. *)
Theorem tmp_write_read s v x n o l off :
  fs_ok s → file_at s v x n o → om_ready 4 (memory s) → l ≠ [] → 0 ≤ off →
  off + Z.of_nat (length l) + 4095 < 2^64 → va_size (tn_attr n) + 4095 < 2^64 →
  Z.of_nat (length l) < 2^31 →
  if decide (PGROUNDUP (off + Z.of_nat (length l)) ≤ om_limit) then
    ∃ s' s'' n', tmp_write v l off s = Ok (Z.of_nat (length l), s') ∧ fs_ok s' ∧ file_at s' v x n' o ∧
      va_size (tn_attr n') = Z.max (va_size (tn_attr n)) (off + Z.of_nat (length l)) ∧
      tmp_read v (Z.of_nat (length l)) off s' = Ok ((Z.of_nat (length l), l), s'') ∧
      (∀ q i, q ≠ o ∨ ¬ (off ≤ i < off + Z.of_nat (length l)) →
         om_contents (memory s') q i = om_contents (memory s) q i)
  else is_fatal (tmp_write v l off s).
Proof.
  intros Hok Hf Hr Hl Hoff Hlen Hsz Hi. case_decide as Hlim; [|by eapply tmp_write_over; [..|lia]].
  destruct (tmp_write_run s v x n o l off 2 Hok Hf Hr Hl Hoff Hlen Hi Hlim) as (s' & n' & Hw & Hok' & Hr' & Hf' & Es & _ & _ & Hc).
  assert (0 < Z.of_nat (length l)) by (destruct l; [done|simpl; lia]).
  destruct (tmp_read_run s' v x n' o (Z.of_nat (length l)) off 0 Hok' Hf' Hr') as (s'' & Hrd); try lia.
  exists s', s'', n'. split_and!; try done.
  - rewrite Hrd. do 3 f_equal. rewrite <-(list_seqZ l) at 2. apply list_fmap_ext.
    intros i j (-> & Hj)%lookup_seqZ. rewrite Hc, decide_True by lia. f_equal. f_equal. lia.
  - intros q i Hq. rewrite Hc, decide_False by (intros [-> ?]; lia). done.
Qed.
(** ** Reading a directory in pieces *)

Section readdir.
Context (d_name_offset : Z) (Hoff : 0 ≤ d_name_offset < 2^32).
Abbreviation loop := (readdir_loop d_name_offset).
Implicit Types (es mid : list tmpdirent).

Definition reclen (td : tmpdirent) : Z := DIRENT_RECLEN d_name_offset (Z.of_nat (length (td_name td))).
Definition total es : Z := foldr (λ td n, reclen td + n) 0 es.
Definition short es : Prop := Forall (λ td, Z.of_nat (length (td_name td)) < 2^32) es.

Lemma reclen_pos td : Z.of_nat (length (td_name td)) < 2^32 → 0 ≤ reclen td.
Proof.
  intros Hl. unfold reclen, DIRENT_RECLEN. change 8 with (2^3). rewrite ROUNDUP_eq by lia.
  apply Z.mul_nonneg_nonneg; [|lia]. apply Z.div_pos; lia.
Qed.
Lemma total_pos es : short es → 0 ≤ total es.
Proof.
  induction 1 as [|td es Hl _ IH]; simpl; [done|]. pose proof (reclen_pos td Hl). lia.
Qed.

Lemma loop_stop mid e post i seqno used nb :
  seqno ≤ i → short mid → used + total mid ≤ nb - 1 → nb - 1 < used + total mid + reclen e →
  ∃ l, loop (mid ++ e :: post) i seqno used nb =
    (w64 (i + 2 * Z.of_nat (length mid) - 1), used + total mid, l) ∧ d_name <$> l = td_name <$> mid.
Proof.
  intros Hi Hs. revert i used Hi. induction Hs as [|td mid Hl Hs IH]; intros i used Hi H1 H2; simpl in *.
  - rewrite (proj2 (Z.leb_le _ _)) by lia. fold (reclen e). rewrite Z.add_0_r in *.
    destruct (Z.gtb_spec (used + reclen e) (nb - 1)); [|lia]. exists []. split; [|done]. do 3 f_equal. lia.
  - rewrite (proj2 (Z.leb_le _ _)) by lia. fold (reclen td).
    pose proof (total_pos mid Hs). destruct (Z.gtb_spec (used + reclen td) (nb - 1)); [lia|].
    destruct (IH (i + 2) (used + reclen td)) as (l & -> & Hn); [lia..|].
    exists (DirentOut used (td_node td) i (reclen td) (td_name td) :: l). split; [|by rewrite !fmap_cons, Hn]. f_equal. f_equal; [f_equal|]; lia.
Qed.

Lemma loop_prefix es i seqno used nb :
  seqno ≤ i → ∃ j, d_name <$> (loop es i seqno used nb).2 = take j (td_name <$> es).
Proof.
  revert i used. induction es as [|td es IH]; intros i used Hi; [by exists 0%nat|]. cbn [readdir_loop].
  rewrite (proj2 (Z.leb_le _ _)) by lia. destruct (_ >? _); [by exists 0%nat|].
  destruct (IH (i + 2) (used + DIRENT_RECLEN d_name_offset (Z.of_nat (length (td_name td))))) as [j Hj]; [lia|].
  destruct (loop es (i + 2) _ _ _) as [[r u] l]. exists (S j). cbn [snd] in *. by rewrite !fmap_cons, Hj.
Qed.

(** What a call returns begins at the entry of its position. *)
Lemma loop_from es i seqno used nb :
  i ≤ seqno → ∃ j, d_name <$> (loop es i seqno used nb).2 = take j (td_name <$> drop (Z.to_nat (seqno - i)) es).
Proof.
  revert i. induction es as [|td es IH]; intros i Hi; [exists 0%nat; by rewrite drop_nil|].
  destruct (decide (seqno = i)) as [->|Hne].
  - rewrite Z.sub_diag. by apply loop_prefix.
  - cbn [readdir_loop]. rewrite (proj2 (Z.leb_gt _ _)) by lia.
    replace (Z.to_nat (seqno - i)) with (S (Z.to_nat (seqno - (i + 1)))) by lia. apply IH. lia.
Qed.

(** A directory that does not fit the buffer is not read completely.  When
    [k] entries fit, the first call returns them and the position [2 * k - 1],
    because the loop counts an entry it has written twice.  The next call, given
    that position, starts at entry [2 * k - 1]: whatever the buffer, the [k - 1]
    entries from [k] on are returned by neither call. *)
Theorem tmp_readdir_skips s dvn x n mid e post p nb nb' :
  vnodes s !! dvn = Some x → nodes s !! v_data x = Some n → va_type (tn_attr n) = VDIR →
  tn_body n = TDir (mid ++ e :: post) p → mid ≠ [] → short mid →
  total mid ≤ nb - 1 → nb - 1 < total mid + reclen e → Z.of_nat (length (mid ++ e :: post)) < 2^30 →
  let k := Z.of_nat (length mid) in
  ∃ l r u l' j, tmp_readdir d_name_offset dvn nb 0 s = Ok ((2 * k - 1, total mid, l), s) ∧
    d_name <$> l = td_name <$> mid ∧
    tmp_readdir d_name_offset dvn nb' (2 * k - 1) s = Ok ((r, u, l'), s) ∧
    d_name <$> l' = take j (td_name <$> drop (Z.to_nat (2 * k - 1)) (mid ++ e :: post)).
Proof.
  intros Hx Hn Ht Hb Hne Hs H1 H2 Hlen k.
  assert (∀ nb seqno, tmp_readdir d_name_offset dvn nb seqno s =
    let '(i, u, l) := loop (mid ++ e :: post) 0 seqno 0 nb in Ok ((s32 i, u, l), s)) as Hrun.
  { intros b q. unfold tmp_readdir. rewrite (bind_step _ _ _ _ _ (get_vnode_ok _ _ _ Hx)).
    rewrite (bind_step _ _ _ _ _ (get_node_ok _ _ _ Hn)). rewrite bool_decide_true, massert_bind by done.
    unfold dir_entries. rewrite Hb, deref_bind. cbv beta.
    by destruct (loop _ _ _ _ _) as [[? ?] ?]. }
  assert (1 ≤ k) as Hk by (unfold k; destruct mid; [done|simpl; lia]).
  rewrite length_app in Hlen. simpl in Hlen.
  destruct (loop_stop mid e post 0 0 0 nb) as (l & Hl & Hnames); [done..|].
  destruct (loop_from (mid ++ e :: post) 0 (2 * k - 1) 0 nb') as [j Hj]; [lia|].
  rewrite Z.sub_0_r in Hj. destruct (loop _ 0 (2 * k - 1) 0 nb') as [[r u] l'] eqn:E2.
  exists l, (s32 r), u, l', j. rewrite !Hrun, Hl, E2. split_and!; try done.
  rewrite w64_small, s32_small by lia. by rewrite Z.add_0_l.
Qed.
End readdir.
(** ** Paths through files *)

Lemma tmp_lookup_file s v x n nm :
  vnodes s !! v = Some x → nodes s !! v_data x = Some n → va_type (tn_attr n) ≠ VDIR →
  tmp_lookup v nm s = Fatal "assert(node->attr.type == VDIR)".
Proof.
  intros Hx Hn Ht. unfold tmp_lookup.
  rewrite (bind_step _ _ _ _ _ (get_vnode_ok _ _ _ Hx)), (bind_step _ _ _ _ _ (get_node_ok _ _ _ Hn)).
  by rewrite bool_decide_false.
Qed.

Lemma bind_fatal {A B} (m : M (fs V) A) (f : A → M (fs V) B) s w : m s = Fatal w → (m ≫= f) s = Fatal w.
Proof. unfold mbind, M_bind. by intros ->. Qed.

(** Looking up a file changes its reference count only. *)
Lemma lookup_entry_run s v nm w x :
  fs_ok s → fs_dir s v → nm ≠ dotdot → fs_child s v nm = Some w → vnodes s !! w = Some x →
  ∃ s' x', vn_lookup v nm s = Ok ((0, Some w), s') ∧ vnodes s' !! w = Some x' ∧ same_vnode x x' ∧
    nodes s' = nodes s.
Proof.
  intros Hok Hd Hdd Hc Hw. destruct (fs_dir_ops s v Hok Hd) as (y & Hy & Ho).
  cbn [vn_lookup tmpfs_vnodes]. rewrite (bind_step _ _ _ _ _ (get_vnode_ok _ _ _ Hy)), decide_True by done.
  destruct Hd as (y' & n & es & p & Hy' & Hn & Hb). assert (y' = y) as -> by congruence. unfold tmp_lookup.
  rewrite (bind_step _ _ _ _ _ (get_vnode_ok _ _ _ Hy)), (bind_step _ _ _ _ _ (get_node_ok _ _ _ Hn)).
  assert (va_type (tn_attr n) = VDIR) as Ht by (apply (fo_dir _ Hok _ _ Hn); eauto).
  rewrite bool_decide_true, massert_bind by done. rewrite decide_False by done.
  unfold tlookup. unfold fs_child in Hc. rewrite Hy in Hc. simpl in Hc. rewrite Hn in Hc. simpl in Hc.
  destruct (dir_entries n) as [es'|]; [|done]. simpl in Hc.
  rewrite (bind_step _ _ s (find_entry es' nm) s) by done.
  destruct (find_entry es' nm) as [d|]; [|done]. simpl in Hc.
  destruct (nodes s !! td_node d) as [m|] eqn:Hm; [|done]. simpl in Hc. unfold tmpfs_vget.
  rewrite (bind_step _ _ _ _ _ (get_node_ok _ _ _ Hm)), Hc, (bind_step _ _ _ _ _ (get_vnode_ok _ _ _ Hw)).
  eexists _, _. split; [done|]. split; [simpl; by rewrite lookup_insert_eq|]. by split.
Qed.

(** A path that goes through a regular file stops the kernel.  When [f] is a
    regular file of the directory [cwd], looking up "f/g" does not return an
    error as for a missing file: the assertion in [tmp_lookup] fails. *)
Theorem lookup_through_file mounts root s cwd f g c w x n o :
  fs_ok s → fs_dir s cwd → fs_child s cwd f = Some w → file_at s w x n o →
  (slash ∉ f) → (slash ∉ g ++ [c]) → f ≠ [] → f ≠ dot → f ≠ dotdot → g ++ [c] ≠ dot →
  (length (f ++ slash :: g ++ [c]) < 255)%nat →
  vfs_lookup mounts root (Some cwd) (f ++ slash :: g ++ [c]) 0 None s =
    Fatal "assert(node->attr.type == VDIR)".
Proof.
  intros Hok Hd Hc Hf Sf Sg Nf Df DDf Dg Hlen. unfold vfs_lookup. rewrite orb_false_r. cbv zeta.
  assert (match f ++ slash :: g ++ [c] with c0 :: _ => bool_decide (c0 = slash) | [] => false end = false) as ->.
  { destruct f as [|a f]; [done|]. simpl. apply bool_decide_false. intros ->. set_solver. }
  cbn [andb]. rewrite !bool_decide_false by (lia || by destruct f).
  assert (strip_slashes (f ++ slash :: g ++ [c]) = f ++ slash :: g ++ [c]) as Est.
  { change (slash :: g ++ [c]) with ((slash :: g) ++ [c]). rewrite app_assoc. apply strip_id. set_solver. }
  rewrite Est, bool_decide_false by by destruct f. rewrite components_slash, components_noslash by done.
  change (default root (Some cwd)) with cwd. cbn [walk]. rewrite !decide_False by done. cbn [negb orb].
  destruct Hf as (Hx & Hn & Ht & Hb).
  destruct (lookup_entry_run s cwd f w x Hok Hd DDf Hc Hx) as (s1 & x1 & Hl & Hx1 & Hs & Hn1).
  rewrite (bind_step _ _ _ _ _ Hl). cbv beta iota. change (0 <? 0) with false. cbv iota. rewrite deref_bind.
  destruct Hs as (_ & _ & Hdata & Hmt & Hops).
  destruct (fo_vnode _ Hok _ _ Hx) as (n' & Hn' & _ & _ & Hm0 & Ho & _). assert (n' = n) as -> by congruence.
  assert (cross_mounts (Datatypes.S mounts) w s1 = Ok ((0, w), s1)) as Hcm.
  { cbn [cross_mounts vn_mounted tmpfs_vnodes]. erewrite bind_step.
    2: { rewrite (bind_step _ _ _ _ _ (get_vnode_ok _ _ _ Hx1)). done. }
    by rewrite Hmt, Hm0. }
  rewrite (bind_step _ _ _ _ _ Hcm). cbv beta iota. change (0 <? 0) with false. cbv iota.
  rewrite decide_False by by destruct g. cbn [negb orb]. change (has_flag 0 kLookupCreat) with false.
  rewrite decide_False by by destruct g. apply bind_fatal. cbn [negb vn_lookup tmpfs_vnodes]. rewrite (bind_step _ _ _ _ _ (get_vnode_ok _ _ _ Hx1)).
  rewrite decide_True by (rewrite Hops; apply Ho; rewrite Ht; done).
  apply (tmp_lookup_file s1 w x1 n); [done|by rewrite Hn1, Hdata|by rewrite Ht].
Qed.
End props.
(** ** A small tree *)

(** A root directory (vnode 9) with one empty file "f" (vnode 11). *)
Definition fname : name := ["f"%char].
Definition gname : name := ["g"%char].
Definition tree0 : fs flat := Fs (Flat 20 [12] (λ _ _, 0) (λ _, None))
  {[8 := Tmpnode (Some 9) (Vattr VDIR 0 0 0) (TDir [Dirent 13 fname 10] 0);
    10 := Tmpnode (Some 11) (Vattr VREG 0 0 0) (TReg 12)]}
  {[9 := Vnode 1 true VDIR 0 8 7 None tmpfs_vnops 0;
    11 := Vnode 1 false VREG 12 10 7 None tmpfs_vnops 0]}
  {[7 := 9]} [].

Lemma tree0_node a n : nodes tree0 !! a = Some n →
  (a = 8 ∧ n = Tmpnode (Some 9) (Vattr VDIR 0 0 0) (TDir [Dirent 13 fname 10] 0)) ∨
  (a = 10 ∧ n = Tmpnode (Some 11) (Vattr VREG 0 0 0) (TReg 12)).
Proof. simpl. rewrite lookup_insert_Some, lookup_singleton_Some. naive_solver. Qed.
Lemma tree0_vnode v x : vnodes tree0 !! v = Some x →
  (v = 9 ∧ x = Vnode 1 true VDIR 0 8 7 None tmpfs_vnops 0) ∨
  (v = 11 ∧ x = Vnode 1 false VREG 12 10 7 None tmpfs_vnops 0).
Proof. simpl. rewrite lookup_insert_Some, lookup_singleton_Some. naive_solver. Qed.

Lemma tree0_ok : fs_ok tree0.
Proof.
  split.
  - intros v x [[-> ->]|[-> ->]]%tree0_vnode; eexists; (split; [reflexivity|]); naive_solver.
  - intros a n v [[-> ->]|[-> ->]]%tree0_node [= <-]; eexists; (split; [reflexivity|done]).
  - intros a n [[-> ->]|[-> ->]]%tree0_node; naive_solver.
  - intros a n [[-> ->]|[-> ->]]%tree0_node; [done|]. intros _. eexists. split; [done|]. by apply list_elem_of_singleton.
  - intros a n es p td [[-> ->]|[-> ->]]%tree0_node; [|done]. intros [= <- <-] ->%list_elem_of_singleton.
    eexists. split; [reflexivity|done].
  - intros a n [[-> ->]|[-> ->]]%tree0_node; simpl; lia.
  - intros a n [[-> ->]|[-> ->]]%tree0_vnode; simpl; lia.
  - intros a n o [[-> ->]|[-> ->]]%tree0_node; [done|]. intros [= <-]. simpl. lia.
  - intros a b n m o [[-> ->]|[-> ->]]%tree0_node [[-> ->]|[-> ->]]%tree0_node; done.
Qed.
Lemma tree0_dir : fs_dir tree0 9.
Proof. eexists _, _, _, _. split_and!; reflexivity. Qed.
Lemma tree0_file :
  file_at tree0 11 (Vnode 1 false VREG 12 10 7 None tmpfs_vnops 0) (Tmpnode (Some 11) (Vattr VREG 0 0 0) (TReg 12)) 12.
Proof. by split_and!. Qed.

(** ** Witnesses *)

(** "/./f/" *)
Lemma vfs_lookup_resolves_witness :
  ∃ s', vfs_lookup 1 9 (Some 11) [slash; "."%char; slash; "f"%char; slash] 0 None tree0 =
    Ok ((0, Some 11), s') ∧ same_tree tree0 s'.
Proof.
  assert (resolve tree0 9 [fname] = (0, Some 11)) as E by reflexivity.
  rewrite <-E. apply (vfs_lookup_resolves 1 9 11 [slash; "."%char; slash; "f"%char; slash] 0 None tree0);
    [done|exact tree0_ok|done|simpl; lia|by left|by repeat constructor|].
  split; [exact tree0_dir|done].
Defined.

Lemma tmp_create_correct_witness :
  ∃ vn s', tmp_create 9 gname (Some (Vattr VDIR 0 0 0)) tree0 = Ok ((0, Some vn), s') ∧
    fs_child s' 9 gname = Some vn ∧ fs_child s' 9 fname = Some 11.
Proof.
  destruct (tmp_create_correct tree0 9 gname (Vattr VDIR 0 0 0) tree0_ok tree0_dir I (or_intror eq_refl))
    as (vn & s' & H1 & _ & _ & H2 & H3 & _).
  exists vn, s'. split; [exact H1|]. split; [exact H2|]. rewrite H3 by done. reflexivity.
Defined.

Lemma tmp_write_read_witness :
  (∃ s' s'', tmp_write 11 [104; 105] 3 tree0 = Ok (2, s') ∧ tmp_read 11 2 3 s' = Ok ((2, [104; 105]), s'')) ∧
  is_fatal (tmp_write 11 [104; 105] (2^32) tree0).
Proof.
  pose proof (λ off, tmp_write_read tree0 11 _ _ 12 [104; 105] off tree0_ok tree0_file I ltac:(done)) as H.
  split.
  - specialize (H 3 ltac:(lia) ltac:(simpl; lia) ltac:(simpl; lia) ltac:(simpl; lia)).
    rewrite decide_True in H by (by vm_compute). destruct H as (s' & s'' & n' & H1 & _ & _ & _ & H2 & _).
    exists s', s''. by split.
  - specialize (H (2^32) ltac:(lia) ltac:(simpl; lia) ltac:(simpl; lia) ltac:(simpl; lia)).
    rewrite decide_False in H by (by vm_compute). exact H.
Defined.

(** Two entries of three fit: the next call starts behind the third. *)
Definition entries3 : list tmpdirent := [Dirent 1 fname 10; Dirent 2 gname 10; Dirent 3 fname 10].
Definition tree3 : fs flat := set_node 8 (Tmpnode (Some 9) (Vattr VDIR 0 0 0) (TDir entries3 0)) tree0.
Lemma tmp_readdir_skips_witness :
  ∃ l r u l', tmp_readdir 24 9 65 0 tree3 = Ok ((3, 64, l), tree3) ∧ d_name <$> l = [fname; gname] ∧
    tmp_readdir 24 9 4096 3 tree3 = Ok ((r, u, l'), tree3) ∧ d_name <$> l' = [].
Proof.
  destruct (tmp_readdir_skips 24 ltac:(lia) tree3 9 (Vnode 1 true VDIR 0 8 7 None tmpfs_vnops 0)
    (Tmpnode (Some 9) (Vattr VDIR 0 0 0) (TDir entries3 0))
    [Dirent 1 fname 10; Dirent 2 gname 10] (Dirent 3 fname 10) [] 0 65 4096)
    as (l & r & u & l' & j & H1 & H2 & H3 & H4); try (done || reflexivity).
  { by repeat constructor. }
  exists l, r, u, l'. split; [exact H1|]. split; [exact H2|]. split; [exact H3|].
  rewrite H4. by destruct j.
Defined.

(** "f/g" *)
Lemma lookup_through_file_witness :
  vfs_lookup 1 9 (Some 9) ["f"%char; slash; "g"%char] 0 None tree0 =
    Fatal "assert(node->attr.type == VDIR)".
Proof.
  apply (lookup_through_file 1 9 tree0 9 ["f"%char] [] "g"%char 11 _ _ 12 tree0_ok tree0_dir eq_refl tree0_file);
    try done; try (simpl; lia); by intros ?%list_elem_of_singleton.
Defined.
