(* ===== verification/Dev.v ===== *)
(** * The device switch and device files: dev/dev.c

    The switch is the list of its 64 entries; a driver's functions are those of
    its entry, [None] for NULL.  [major], of the C library, is an argument. *)

From S2P Require Import Prelude ObjMem Vfs Tmpfs TmpfsProps.
Open Scope Z_scope.

Definition S_IFCHR : Z := 0x2000.

Section dev.
Context {V : Type} `{!ObjectMemory V}.

(** [cdevsw_t] *)
Record cdevsw := Cdevsw {
  cd_valid : bool;
  cd_is_tty : bool;
  cd_private : Z;
  cd_open : option (Z → Z → M (fs V) (Z * option Z));
  cd_read : option (Z → Z → Z → M (fs V) (Z * list Z));
  cd_write : option (Z → list Z → Z → M (fs V) Z);
  cd_kqfilter : option (Z → Z → M (fs V) Z);
}.
Definition cdevsw_zero : cdevsw := Cdevsw false false 0 None None None None.
Definition cdevsw_table : list cdevsw := replicate 64 cdevsw_zero.

Definition set_valid (b : cdevsw) : cdevsw :=
  Cdevsw true (cd_is_tty b) (cd_private b) (cd_open b) (cd_read b) (cd_write b) (cd_kqfilter b).

(** The major number, or -1, and the switch afterwards. *)
Fixpoint cdevsw_attach_from (i : Z) (bindings : cdevsw) (l : list cdevsw) : Z * list cdevsw :=
  match l with
  | [] => (-1, [])
  | c :: l' =>
      if cd_valid c then let '(r, l'') := cdevsw_attach_from (i + 1) bindings l' in (r, c :: l'')
      else (i, set_valid bindings :: l')
  end.
Definition cdevsw_attach (bindings : cdevsw) (l : list cdevsw) : Z * list cdevsw :=
  cdevsw_attach_from 0 bindings l.

(** [junk] is what [attr.size] holds, which is not initialised. *)
Definition devfs_make_node (dev_vnode dev : Z) (nm : name) (junk : Z) : M (fs V) (Z * option Z) :=
  vn_create dev_vnode nm (Vattr VCHR (Z.lor 420 S_IFCHR) junk dev).

Section spec.
Context (major : Z → Z) (switch : list cdevsw).

(** [vn->specdev->dev] and the entry of its driver. *)
Definition spec_dev (vn : Z) : M (fs V) (Z * cdevsw) :=
  v ← get_vnode vn;
  s ← mget;
  d ← deref (tq_find sd_addr (v_specdev v) (specdevs s)) "specdev";
  c ← deref (switch !! Z.to_nat (major (sd_dev d))) "cdevsw[major]";
  mret (sd_dev d, c).

Definition spec_open (vn mode : Z) : M (fs V) (Z * option Z) :=
  '(dev, c) ← spec_dev vn; f ← deref (cd_open c) "NULL open"; f dev mode.
Definition spec_read (vn nbyte off : Z) : M (fs V) (Z * list Z) :=
  '(dev, c) ← spec_dev vn; f ← deref (cd_read c) "NULL read"; f dev nbyte off.
Definition spec_write (vn : Z) (buf : list Z) (off : Z) : M (fs V) Z :=
  '(dev, c) ← spec_dev vn; f ← deref (cd_write c) "NULL write"; f dev buf off.
Definition spec_kqfilter (vn kn : Z) : M (fs V) Z :=
  '(dev, c) ← spec_dev vn; f ← deref (cd_kqfilter c) "NULL kqfilter"; f dev kn.
End spec.

(** ** Attaching *)

(** Attaching finds the first entry that is not valid, fills it in and touches no
    other; when all are valid it gives -1 and changes nothing. *)
Lemma cdevsw_attach_from_run i b l :
  (∃ l1 c l2, l = l1 ++ c :: l2 ∧ Forall (λ c, cd_valid c = true) l1 ∧ cd_valid c = false ∧
     cdevsw_attach_from i b l = (i + Z.of_nat (length l1), l1 ++ set_valid b :: l2)) ∨
  (Forall (λ c, cd_valid c = true) l ∧ cdevsw_attach_from i b l = (-1, l)).
Proof.
  revert i. induction l as [|c l IH]; intros i; simpl; [by right|]. destruct (cd_valid c) eqn:Hc.
  - destruct (IH (i + 1)) as [(l1 & c' & l2 & -> & Hl1 & Hc' & E)|[Hl E]]; rewrite E.
    + left. exists (c :: l1), c', l2. split; [done|]. split; [by constructor|]. split; [done|]. f_equal. simpl. lia.
    + right. split; [by constructor|done].
  - left. exists [], c, l. split; [done|]. split; [done|]. split; [done|]. f_equal. simpl. lia.
Qed.
End dev.
