(* ===== verification/Ustar.v ===== *)
(** * The initial ramdisk: posix/posix_main.c

    [unpack_ramdisk] mounts the root filesystem and creates in it what a tar
    archive holds.  The archive is the list of its bytes; what would be read past
    its end is undefined.  The loop over the headers may not end, so it has fuel
    and says whether it did.  The operations of vnodes are those of Vfs; [mount]
    and [write], which nothing else calls through a table, are arguments. *)

From S2P Require Import Prelude Vfs ObjMem Tmpfs TmpfsProps.
From Stdlib Require Import Ascii.
Open Scope Z_scope.

Definition S_IFMT : Z := 0xF000.
Definition S_IFDIR : Z := 0x4000.
Definition kUStarNormal : Z := 48.
Definition kUStarDirectory : Z := 53.

(** [ustar_hdr_t]: the offsets and lengths of the fields that are read. *)
Definition hdr_mode : Z * Z := (100, 8).
Definition hdr_size : Z * Z := (124, 12).
Definition hdr_type : Z := 156.

Definition byte_at (img : list Z) (i : Z) : option Z := img !! Z.to_nat i.
(** [n] bytes from [i] on; a negative [n] is a huge [size_t]. *)
Definition bytes_at (img : list Z) (i n : Z) : option (list Z) :=
  if (0 <=? n) && (i + n <=? Z.of_nat (length img)) then Some (take (Z.to_nat n) (drop (Z.to_nat i) img))
  else None.
(** The string up to the first NUL. *)
Fixpoint cstring (l : list Z) : option name :=
  match l with
  | [] => None
  | c :: l' => if c =? 0 then Some [] else cons (ascii_of_nat (Z.to_nat c)) <$> cstring l'
  end.

(** [int] arithmetic; overflow has no result. *)
Definition in_int (n : Z) : bool := (- 2^31 <=? n) && (n <? 2^31).
Fixpoint oct2i_from (n : Z) (s : list Z) : option Z :=
  match s with
  | [] => Some n
  | c :: s' =>
      if in_int (n * 8) && in_int (n * 8 + (c - 48)) then oct2i_from (n * 8 + (c - 48)) s' else None
  end.
Definition oct2i (s : list Z) : option Z := oct2i_from 0 s.

Section ustar.
Context {S : Type} `{!Vnodes S}.
Context (mounts : nat) (vfs_mount : Z → M S Z) (vn_write : Z → list Z → Z → M S Z).
(** What the uninitialised fields of the local [attr] hold. *)
Context (junk_size junk_rdev : Z).

Definition entry_attr (ty : vtype) (mode : Z) : vattr :=
  Vattr ty (Z.land mode (Z.lnot S_IFMT)) junk_size junk_rdev.

Definition make_dir (root_vnode : Z) (filename : name) (mode : Z) : M S unit :=
  vfs_lookup mounts root_vnode (Some root_vnode) filename kLookupCreat (Some (entry_attr VDIR mode));;
  mret ().
(** When the lookup fails, [vn] is not initialised. *)
Definition make_file (root_vnode : Z) (filename : name) (mode : Z) (data : option (list Z)) : M S unit :=
  '(r, vn) ← vfs_lookup mounts root_vnode (Some root_vnode) filename kLookupCreat
               (Some (entry_attr VREG mode));
  if r <? 0 then undef "vn" else
  vn ← deref vn "vn";
  data ← deref data "past the module";
  vn_write vn data 0;;
  mret ().

(** The body of the loop: the next [i], or [None] for [break]. *)
Definition unpack_entry (root_vnode : Z) (img : list Z) (i : Z) : M S (option Z) :=
  size ← deref (bytes_at img (i + hdr_size.1) 11) "past the module";
  fsize ← deref (oct2i size) "int overflow";
  c0 ← deref (byte_at img i) "past the module";
  if c0 =? 0 then mret None else
  c2 ← deref (byte_at img (i + 2)) "past the module";
  let next := Some (w64 (i + w64 (512 + ROUNDUP fsize 512))) in
  if c2 =? 0 then mret next else
  mode ← deref (bytes_at img (i + hdr_mode.1) (hdr_mode.2 - 1)) "past the module";
  mode ← deref (oct2i mode) "int overflow";
  ty ← deref (byte_at img (i + hdr_type)) "past the module";
  filename ← deref (cstring (drop (Z.to_nat i) img)) "past the module";
  (if ty =? kUStarDirectory then make_dir root_vnode filename mode
   else if ty =? kUStarNormal then make_file root_vnode filename mode (bytes_at img (i + 512) fsize)
   else mret ());;
  mret next.

(** True when the loop has ended. *)
Fixpoint unpack_loop (fuel : nat) (root_vnode : Z) (img : list Z) (i : Z) : M S bool :=
  match fuel with
  | O => mret false
  | Datatypes.S fuel' =>
      if i <? Z.of_nat (length img) then
        next ← unpack_entry root_vnode img i;
        match next with
        | None => mret true
        | Some i' => unpack_loop fuel' root_vnode img i'
        end
      else mret true
  end.

(** The root vnode, the vnode of "dev", and whether unpacking has ended. *)
Definition unpack_ramdisk (fuel : nat) (modules : list (list Z)) (root_vfs : Z) : M S (Z * Z * bool) :=
  match modules with
  | [img] =>
      r ← vfs_mount root_vfs;
      massert (0 <=? r) "assert(r >= 0)";;
      '(_, root_vnode) ← vfs_root root_vfs;
      root_vnode ← deref root_vnode "root_vnode";
      '(r, dev_vnode) ← vn_create root_vnode ["d"%char; "e"%char; "v"%char]
                          (Vattr VDIR (Z.lor 493 S_IFDIR) 0 0);
      massert (0 <=? r) "assert(r >= 0)";;
      dev_vnode ← deref dev_vnode "dev_vnode";
      ended ← unpack_loop fuel root_vnode img 0;
      mret (root_vnode, dev_vnode, ended)
  | _ => fatal "No initrd module."
  end.
End ustar.

(** ** Archives *)

(** The [k] octal digits of [n]. *)
Fixpoint octal (k : nat) (n : Z) : list Z :=
  match k with
  | O => []
  | Datatypes.S k' => octal k' (n / 8) ++ [48 + n mod 8]
  end.
Definition zeros (n : Z) : list Z := replicate (Z.to_nat n) 0.
Definition char_byte (a : ascii) : Z := Z.of_nat (nat_of_ascii a).

Record tar_entry := Tar { te_name : name; te_mode : Z; te_type : Z; te_data : list Z }.
Definition te_size (e : tar_entry) : Z := Z.of_nat (length (te_data e)).

(** Names leave room for their NUL, and sizes fit an [int]. *)
Record entry_ok (e : tar_entry) : Prop := {
  eo_name : te_name e ≠ [] ∧ (length (te_name e) < 100)%nat ∧ Forall (λ a, a ≠ zero) (te_name e);
  eo_mode : 0 ≤ te_mode e < 8^7;
  eo_size : te_size e < 2^31 - 512;
}.

Definition hdr_front (e : tar_entry) : list Z :=
  (char_byte <$> te_name e) ++ zeros (100 - Z.of_nat (length (te_name e))).
Definition header (e : tar_entry) : list Z :=
  hdr_front e ++ octal 7 (te_mode e) ++ zeros 17 ++ octal 11 (te_size e) ++ zeros 21 ++ [te_type e] ++ zeros 355.
Definition padding (e : tar_entry) : Z := (- te_size e) mod 512.
Definition block (e : tar_entry) : list Z := header e ++ te_data e ++ zeros (padding e).
Definition archive (l : list tar_entry) : list Z := concat (block <$> l).
(** The two blocks that end an archive. *)
Definition trailer : list Z := zeros 1024.

Lemma length_zeros n : 0 ≤ n → Z.of_nat (length (zeros n)) = n.
Proof. intros. unfold zeros. rewrite length_replicate. lia. Qed.
Lemma length_octal k n : length (octal k n) = k.
Proof. revert n. induction k as [|k IH]; intros n; simpl; [done|]. rewrite length_app, IH. simpl. lia. Qed.

(** Reading octal digits is the inverse of writing them. *)
Lemma oct2i_from_app n s t : oct2i_from n (s ++ t) = (m ← oct2i_from n s; oct2i_from m t).
Proof.
  revert n. induction s as [|c s IH]; intros n; simpl; [done|]. destruct (_ && _); [apply IH|done].
Qed.
Lemma oct2i_octal k n : 0 ≤ n < 8^Z.of_nat k → n < 2^31 → oct2i (octal k n) = Some n.
Proof.
  unfold oct2i. revert n. induction k as [|k IH]; intros n Hn Hi; simpl.
  { f_equal. simpl in Hn. lia. }
  rewrite Nat2Z.inj_succ, Z.pow_succ_r in Hn by lia.
  rewrite oct2i_from_app, IH by (Z.div_mod_to_equations; lia). simpl. unfold in_int.
  assert (48 + n mod 8 - 48 = n mod 8) as -> by lia.
  rewrite !(proj2 (Z.leb_le _ _)), !(proj2 (Z.ltb_lt _ _)) by (Z.div_mod_to_equations; lia).
  simpl. f_equal. Z.div_mod_to_equations. lia.
Qed.

Lemma bytes_at_app a f b i n :
  i = Z.of_nat (length a) → n = Z.of_nat (length f) → bytes_at (a ++ f ++ b) i n = Some f.
Proof.
  intros -> ->. unfold bytes_at. rewrite !length_app.
  rewrite (proj2 (Z.leb_le _ _)), (proj2 (Z.leb_le _ _)) by lia. simpl. f_equal.
  rewrite !Nat2Z.id, drop_app_length. apply take_app_length.
Qed.
Lemma byte_at_app a c b i : i = Z.of_nat (length a) → byte_at (a ++ c :: b) i = Some c.
Proof. intros ->. unfold byte_at. rewrite Nat2Z.id. by apply list_lookup_middle. Qed.

Lemma char_byte_0 a : a ≠ zero → char_byte a ≠ 0.
Proof.
  intros Ha E. apply Ha. rewrite <-(ascii_nat_embedding a). unfold char_byte in E.
  assert (nat_of_ascii a = 0%nat) as -> by lia. done.
Qed.
Lemma cstring_name (l : name) r : Forall (λ a, a ≠ zero) l → cstring ((char_byte <$> l) ++ 0 :: r) = Some l.
Proof.
  induction 1 as [|a l Ha _ IH]; [done|]. rewrite fmap_cons. cbn [app cstring].
  rewrite (proj2 (Z.eqb_neq _ _)) by by apply char_byte_0. rewrite IH. simpl. f_equal. f_equal.
  unfold char_byte. by rewrite Nat2Z.id, ascii_nat_embedding.
Qed.

Section archive.
Context {S : Type} `{!Vnodes S}.
Context (mounts : nat) (vn_write : Z → list Z → Z → M S Z) (junk_size junk_rdev : Z).

(** What unpacking does for one entry: nothing when its name has one or two
    characters. *)
Definition install (root_vnode : Z) (e : tar_entry) : M S unit :=
  if bool_decide (length (te_name e) ≤ 2)%nat then mret ()
  else if te_type e =? kUStarDirectory then make_dir mounts junk_size junk_rdev root_vnode (te_name e) (te_mode e)
  else if te_type e =? kUStarNormal then
    make_file mounts vn_write junk_size junk_rdev root_vnode (te_name e) (te_mode e) (Some (te_data e))
  else mret ().

Section one.
Context (e : tar_entry) (pre rest : list Z).
Hypothesis Hok : entry_ok e.
Hypothesis Hlen : Z.of_nat (length (pre ++ block e)) < 2^64.
Let img := pre ++ block e ++ rest.
Let i := Z.of_nat (length pre).

Lemma length_hdr_front : Z.of_nat (length (hdr_front e)) = 100.
Proof using Hok.
  clear - Hok.
  destruct (eo_name _ Hok) as (_ & Hn & _). unfold hdr_front.
  rewrite length_app, length_fmap, Nat2Z.inj_add, length_zeros by lia. lia.
Qed.
Lemma length_header : Z.of_nat (length (header e)) = 512.
Proof using Hok.
  clear - Hok.
  unfold header. rewrite !length_app, !Nat2Z.inj_add, length_hdr_front, !length_octal, !length_zeros by lia. done.
Qed.
Lemma length_block : Z.of_nat (length (block e)) = 512 + ROUNDUP (te_size e) 512.
Proof using Hok.
  clear - Hok.
  unfold block. rewrite !length_app, !Nat2Z.inj_add, length_header. fold (te_size e).
  pose proof (eo_size _ Hok). assert (0 ≤ te_size e) by (unfold te_size; lia).
  rewrite length_zeros by (apply Z.mod_pos_bound; lia).
  change 512 with (2^9) at 3. rewrite ROUNDUP_eq by lia. change (2^9) with 512. unfold padding.
  Z.div_mod_to_equations. lia.
Qed.

Lemma img_mode : bytes_at img (i + 100) 7 = Some (octal 7 (te_mode e)).
Proof.
  unfold img, block, header. rewrite <-!app_assoc, (app_assoc pre). apply bytes_at_app.
  - rewrite length_app, Nat2Z.inj_add, length_hdr_front. done.
  - by rewrite length_octal.
Qed.
Lemma img_size : bytes_at img (i + 124) 11 = Some (octal 11 (te_size e)).
Proof.
  unfold img, block, header. rewrite <-!app_assoc, (app_assoc pre), (app_assoc (pre ++ _)), (app_assoc (_ ++ octal 7 _)).
  apply bytes_at_app.
  - rewrite !length_app, !Nat2Z.inj_add, length_hdr_front, length_octal, length_zeros by lia. unfold i. lia.
  - by rewrite length_octal.
Qed.
Lemma img_type : byte_at img (i + 156) = Some (te_type e).
Proof.
  unfold img, block, header. rewrite <-!app_assoc, (app_assoc pre), (app_assoc (pre ++ _)), (app_assoc (_ ++ octal 7 _)),
    (app_assoc (_ ++ zeros 17)), (app_assoc (_ ++ octal 11 _)).
  apply byte_at_app. rewrite !length_app, !Nat2Z.inj_add, length_hdr_front, !length_octal, !length_zeros by lia. unfold i. lia.
Qed.
Lemma img_data : bytes_at img (i + 512) (te_size e) = Some (te_data e).
Proof.
  unfold img, block. rewrite <-!app_assoc, (app_assoc pre). apply bytes_at_app; [|done].
  rewrite length_app, Nat2Z.inj_add, length_header. done.
Qed.

(** The name, its NUL and the rest. *)
Lemma img_name : ∃ r, img = pre ++ (char_byte <$> te_name e) ++ 0 :: r.
Proof.
  destruct (eo_name _ Hok) as (_ & Hn & _). unfold img, block, header, hdr_front, zeros at 1.
  destruct (Z.to_nat (100 - Z.of_nat (length (te_name e)))) as [|k] eqn:E; [lia|].
  eexists. rewrite <-!app_assoc. simpl. reflexivity.
Qed.
Lemma img_cstring : cstring (drop (Z.to_nat i) img) = Some (te_name e).
Proof.
  destruct img_name as [r ->]. unfold i. rewrite Nat2Z.id, drop_app_length. apply cstring_name, eo_name, Hok.
Qed.
Lemma img_byte0 : ∃ c, byte_at img i = Some c ∧ c ≠ 0.
Proof.
  destruct img_name as [r ->]. destruct (eo_name _ Hok) as (Hne & _ & Hz). destruct (te_name e) as [|a n]; [done|].
  exists (char_byte a). apply Forall_cons in Hz as [Ha _]. split; [|by apply char_byte_0].
  by apply (byte_at_app pre).
Qed.
Lemma img_byte2 : ∃ c, byte_at img (i + 2) = Some c ∧ (c =? 0) = bool_decide (length (te_name e) ≤ 2)%nat.
Proof.
  destruct (eo_name _ Hok) as (Hne & Hl & Hz). unfold byte_at.
  replace (Z.to_nat (i + 2)) with (length pre + 2)%nat by lia.
  unfold img, block, header, hdr_front, zeros. rewrite <-!app_assoc, lookup_app_r by lia.
  replace (length pre + 2 - length pre)%nat with 2%nat by lia.
  destruct (decide (length (te_name e) ≤ 2)%nat) as [Hs|Hs].
  - rewrite bool_decide_true by done. exists 0. split; [|done].
    rewrite lookup_app_r by (rewrite length_fmap; lia). rewrite lookup_app_l by (rewrite length_replicate, length_fmap; lia).
    apply lookup_replicate. rewrite length_fmap. lia.
  - rewrite bool_decide_false by done. destruct (lookup_lt_is_Some_2 (te_name e) 2 ltac:(lia)) as [a Ha].
    exists (char_byte a). rewrite lookup_app_l by (rewrite length_fmap; lia). rewrite list_lookup_fmap, Ha.
    split; [done|]. apply Z.eqb_neq, char_byte_0. rewrite Forall_lookup in Hz. by eapply Hz.
Qed.

(** One turn of the loop. *)
Lemma unpack_entry_run root s :
  unpack_entry mounts vn_write junk_size junk_rdev root img i s =
    (install root e;; mret (Some (Z.of_nat (length (pre ++ block e))))) s.
Proof.
  pose proof (eo_size _ Hok) as Hsz. pose proof (eo_mode _ Hok) as Hm.
  assert (0 ≤ te_size e) by (unfold te_size; lia).
  assert (w64 (i + w64 (512 + ROUNDUP (te_size e) 512)) = Z.of_nat (length (pre ++ block e))) as Hnext.
  { rewrite <-length_block. rewrite length_app, Nat2Z.inj_add in *. unfold i.
    rewrite (w64_small (Z.of_nat (length (block e)))) by lia. by rewrite w64_small by lia. }
  destruct img_byte0 as (c0 & E0 & Hc0). destruct img_byte2 as (c2 & E2 & Hc2).
  unfold unpack_entry. change (hdr_size.1) with 124. change (hdr_mode.1) with 100. change (hdr_mode.2 - 1) with 7.
  change hdr_type with 156. rewrite img_size, deref_bind, (oct2i_octal 11), deref_bind by lia.
  rewrite E0, deref_bind, (proj2 (Z.eqb_neq _ _)) by done. rewrite E2, deref_bind, Hc2. cbv zeta. rewrite Hnext.
  unfold install. destruct (bool_decide _); [done|].
  rewrite img_mode, deref_bind, (oct2i_octal 7), deref_bind by lia. rewrite img_type, deref_bind.
  rewrite img_cstring, deref_bind, img_data. done.
Qed.
End one.
Lemma mbind_assoc {A B C} (m : M S A) (f : A → M S B) (g : B → M S C) s :
  ((m ≫= f) ≫= g) s = (m ≫= λ a, f a ≫= g) s.
Proof. unfold mbind, M_bind. by destruct (m s) as [[]| |]. Qed.
Lemma bind_ext {A B} (m : M S A) (f g : A → M S B) s : (∀ a s', f a s' = g a s') → (m ≫= f) s = (m ≫= g) s.
Proof. unfold mbind, M_bind. intros E. by destruct (m s) as [[]| |]. Qed.

(** The loop from the first of [l] on, [fin] being what it does behind them. *)
Lemma unpack_loop_run fuel root l pre post (fin : M S bool) s :
  Forall entry_ok l → Z.of_nat (length (pre ++ archive l)) < 2^64 → (length l < fuel)%nat →
  (∀ n s', unpack_loop mounts vn_write junk_size junk_rdev (Datatypes.S n) root (pre ++ archive l ++ post)
             (Z.of_nat (length (pre ++ archive l))) s' = fin s') →
  unpack_loop mounts vn_write junk_size junk_rdev fuel root (pre ++ archive l ++ post) (Z.of_nat (length pre)) s =
    (mfor l (install root);; fin) s.
Proof.
  revert fuel pre s. induction l as [|e l IH]; intros [|fuel] pre s Hok Hlen Hf Hfin; try (simpl in Hf; lia).
  { simpl in Hfin. rewrite app_nil_r in Hfin. apply Hfin. }
  apply Forall_cons in Hok as [He Hok]. change (archive (e :: l)) with (block e ++ archive l) in *.
  rewrite <-app_assoc. cbn [mfor unpack_loop]. rewrite mbind_assoc.
  pose proof (length_block e He) as Hb. assert (0 ≤ ROUNDUP (te_size e) 512) by (apply Z.land_nonneg; left; apply w64_range).
  rewrite (proj2 (Z.ltb_lt _ _)) by (rewrite !length_app, !Nat2Z.inj_add; lia).
  assert (Z.of_nat (length (pre ++ block e)) < 2^64) as Hlb.
  { rewrite !length_app, !Nat2Z.inj_add in *. lia. }
  transitivity ((install root e;; unpack_loop mounts vn_write junk_size junk_rdev fuel root
    (pre ++ block e ++ archive l ++ post) (Z.of_nat (length (pre ++ block e)))) s).
  { unfold mbind at 1, M_bind at 1. rewrite (unpack_entry_run e pre _ He Hlb root s).
    unfold mbind, M_bind. by destruct (install root e s) as [[]| |]. }
  apply bind_ext. intros _ s'. rewrite (app_assoc pre). apply IH; [done|by rewrite <-app_assoc|simpl in Hf; lia|].
  intros n s2. rewrite <-Hfin with n s2. by rewrite <-!app_assoc.
Qed.

(** C28: Unpacking ends, and does what the archive says.  For an archive of entries
    whose names have fewer than 100 characters and whose sizes fit an [int], the
    loop with one turn more than there are entries ends, having installed the
    entries in order, each once.  When the archive has the two zero blocks that
    tar puts at its end, the entries are installed too, but the loop does not end
    as the code means it to: the size field of the zero block is read before the
    block is recognised, and its value overflows an [int]. *)
Theorem unpack_archive fuel root l s :
  Forall entry_ok l → Z.of_nat (length (archive l)) < 2^64 → (length l < fuel)%nat →
  unpack_loop mounts vn_write junk_size junk_rdev fuel root (archive l) 0 s = (mfor l (install root);; mret true) s ∧
  unpack_loop mounts vn_write junk_size junk_rdev fuel root (archive l ++ trailer) 0 s =
    (mfor l (install root);; undef "int overflow") s.
Proof.
  intros Hok Hlen Hf. split.
  - rewrite <-(app_nil_r (archive l)) at 1. apply (unpack_loop_run fuel root l [] [] (mret true)); [done..|].
    intros n s'. cbn [unpack_loop app]. rewrite app_nil_r. by rewrite (proj2 (Z.ltb_ge _ _)) by lia.
  - apply (unpack_loop_run fuel root l [] trailer (undef "int overflow")); [done..|].
    intros n s'. cbn [unpack_loop app]. rewrite (proj2 (Z.ltb_lt _ _)).
    2: { rewrite length_app, Nat2Z.inj_add. unfold trailer. rewrite (length_zeros 1024) by lia. lia. }
    unfold mbind at 1, M_bind at 1, unpack_entry. change (hdr_size.1) with 124.
    assert (bytes_at (archive l ++ trailer) (Z.of_nat (length (archive l)) + 124) 11 = Some (zeros 11)) as ->; [|done].
    change trailer with (zeros 124 ++ zeros 11 ++ zeros 889). rewrite app_assoc. apply bytes_at_app; [|done].
    rewrite length_app, Nat2Z.inj_add, length_zeros by lia. done.
Qed.
End archive.

(** ** A header that is never left *)

(** A size field "00000000(00" stands for -512: the next header is this one. *)
Definition stuck_image : list Z :=
  [120] ++ zeros 123 ++ replicate 8 48 ++ [40; 48; 48] ++ zeros 377.
Lemma unpack_stuck {S} `{!Vnodes S} mounts vn_write junk_size junk_rdev fuel root (s : S) :
  unpack_loop mounts vn_write junk_size junk_rdev fuel root stuck_image 0 s = Ok (false, s).
Proof. induction fuel as [|fuel IH]; [done|]. exact IH. Qed.

(** ** A small archive *)

Definition bin : name := ["b"%char; "i"%char; "n"%char].
Definition init : name := ["i"%char; "n"%char; "i"%char; "t"%char].
Definition demo_archive : list tar_entry :=
  [Tar (bin ++ [slash]) 493 kUStarDirectory []; Tar (bin ++ slash :: init) 493 kUStarNormal [104; 105; 33]].

Definition value {S A} (r : result (A * S)) : option A :=
  match r with Ok (a, _) => Some a | _ => None end.

(** Unpacked into tmpfs, the file can be found and read. *)
Lemma unpack_archive_witness :
  value ((ended ← unpack_loop 1 tmp_write 0 0 3 9 (archive demo_archive) 0;
          '(_, vn) ← vfs_lookup 1 9 (Some 9) (slash :: bin ++ slash :: init) 0 None;
          vn ← deref vn "vn";
          '(_, bytes) ← tmp_read vn 16 0;
          mret (ended, bytes)) tree0) = Some (true, [104; 105; 33]).
Proof.
  assert (Forall entry_ok demo_archive) as Hok by (repeat constructor; by apply (bool_decide_unpack _)).
  destruct (unpack_archive 1 tmp_write 0 0 3 9 demo_archive tree0 Hok) as [E _];
    [by apply (bool_decide_unpack _)|simpl; lia|].
  unfold mbind at 1, M_bind at 1. rewrite E. vm_compute. reflexivity.
Defined.
