(* ===== verification/Disk.v ===== *)
(** * Disks and partitions: devicekit/DKDisk.m, devicekit/DKLogicalDisk.m

    A physical disk does whole blocks; its class gives [readBlocks] and
    [writeBlocks] (the class [DriveMethods]) and [commonIO] is built on them.  A logical disk
    is a range of another disk.  Methods that both kinds answer to are functions
    by recursion on the disk, which is what sending the message on to
    [m_underlying] is.  [semaphore_wait] on the completion is the operation
    [wait_completion]: whatever happens until the drive calls the completion, and
    the result it is called with.

    Buffers are MDLs, so the data go through the pages of VmPage.  [Drives] is what
    a drive promises, [flat_drive] the smallest one.  Logical disks are made in Gpt. *)

From S2P Require Import Prelude Vmem VmPage VmKernel Heap VmProps Klib Uuid Tmpfs.
Open Scope Z_scope.

Definition EOPNOTSUPP : Z := 95.
(** [off_t] and [blkoff_t] are signed, 64 bits wide. *)
Definition s64 (z : Z) : Z := (z + 2^63) mod 2^64 - 2^63.

(** ** Drives *)

(** [DKDrive], with the instance variables of its class. *)
Record DKDrive := DKDrive_ {
  driveID : Z;
  m_blockSize : Z;
  m_nBlocks : Z;
  m_maxBlockTransfer : Z;
}.
#[export] Instance DKDrive_eq_dec : EqDecision DKDrive.
Proof. solve_decision. Defined.

Inductive dk_strategy := kDKRead | kDKWrite.

(** The protocol [DKDriveMethods]: number of blocks, first block, buffer and
    completion; the completion is the address of a [struct dk_diskio_completion]. *)
Class DriveMethods (S : Type) := {
  readBlocks : DKDrive → Z → Z → vm_mdl → Z → M S Z;
  writeBlocks : DKDrive → Z → Z → vm_mdl → Z → M S Z;
  wait_completion : Z → M S Z;
}.

Section common.
Context {S : Type} `{!DriveMethods S}.
(** [&comp] of [commonIO]. *)
Variable frame : Z.

(** A transfer of [nBytes] at [offset]; [None] is a NULL completion. *)
Definition commonIO (self : DKDrive) (strategy : dk_strategy) (nBytes offset : Z) (buf : vm_mdl)
    (completion : option Z) : M S Z :=
  let comp := default frame completion in
  if w64 (m_maxBlockTransfer self * m_blockSize self) <? nBytes then mret (- EOPNOTSUPP) else
  if m_blockSize self =? 0 then undef "division by zero" else
  if negb (Z.rem offset (m_blockSize self) =? 0) || negb (nBytes mod m_blockSize self =? 0)
  then mret (- EOPNOTSUPP) else
  r ← (match strategy with
       | kDKRead => readBlocks
       | kDKWrite => writeBlocks
       end) self (nBytes / m_blockSize self) (Z.quot offset (m_blockSize self)) buf comp;
  if negb (r =? 0) then mret r else
  match completion with
  | None => result ← wait_completion comp; mret (s32 result)
  | Some _ => mret 0
  end.

(** ** Logical disks *)

(** [DKLogicalDisk] but for its underlying disk. *)
Record DKLogicalDisk := DKLogicalDisk_ {
  m_base : Z;
  m_size : Z;
  m_location : Z;
  m_name : list Z;
}.
End common.

(** What [m_underlying] may be. *)
Inductive disk :=
| Drive (d : DKDrive)
| Logical (l : DKLogicalDisk) (m_underlying : disk).

Fixpoint blockSize (self : disk) : Z :=
  match self with
  | Drive d => m_blockSize d
  | Logical _ underlying => blockSize underlying
  end.

Section io.
Context {S : Type} `{!DriveMethods S}.
Variable frame : Z.

(** [offset + nBytes] is in [size_t]; [offset + m_base] in [off_t], where
    overflow has no meaning. *)
Fixpoint readBytes (self : disk) (nBytes offset : Z) (buf : vm_mdl) (completion : option Z) : M S Z :=
  match self with
  | Drive d => commonIO frame d kDKRead nBytes offset buf completion
  | Logical l underlying =>
      if m_size l <? w64 (offset + nBytes) then mret (- EINVAL) else
      if negb (bool_decide (s64 (offset + m_base l) = offset + m_base l)) then undef "overflow" else
      readBytes underlying nBytes (offset + m_base l) buf completion
  end.

(** The base is not added. *)
Fixpoint writeBytes (self : disk) (nBytes offset : Z) (buf : vm_mdl) (completion : option Z) : M S Z :=
  match self with
  | Drive d => commonIO frame d kDKWrite nBytes offset buf completion
  | Logical l underlying =>
      if m_size l <? w64 (offset + nBytes) then mret (- EINVAL) else
      writeBytes underlying nBytes offset buf completion
  end.
End io.

(** ** What a drive promises *)

(** A byte of a page that is free. *)
Definition free_byte (p : pstate) (a : Z) : Prop :=
  ∃ page, on_queue p pgfreeq page ∧ page ≤ a < page + PGSIZE.

(** The address of a page frame. *)
Definition frame_ok (page : Z) : Prop := page mod PGSIZE = 0 ∧ 0 ≤ page < 2^52.

Lemma frame_unique p q a :
  frame_ok p → frame_ok q → p ≤ a < p + PGSIZE → q ≤ a < q + PGSIZE → p = q.
Proof. unfold frame_ok, PGSIZE. intros [Hp _] [Hq _] Ha Hb. Z.div_mod_to_equations. lia. Qed.

(** A buffer of whole pages, which are in use, as many as the length needs. *)
Record dma_target (p : pstate) (mdl : vm_mdl) (len : Z) : Prop := DmaTarget {
  dt_nodup : NoDup (mdl_pages mdl);
  dt_frames : ∀ page, page ∈ mdl_pages mdl → frame_ok page;
  dt_used : ∀ page, page ∈ mdl_pages mdl → ¬ on_queue p pgfreeq page;
  dt_nPages : mdl_nPages mdl = Z.of_nat (length (mdl_pages mdl));
  dt_len : PGSIZE * (mdl_nPages mdl - 1) < len ≤ PGSIZE * mdl_nPages mdl;
}.

(** The first [len] bytes of the buffer have become [data]; of the other bytes
    only those of free pages may have changed. *)
Record transferred (mdl : vm_mdl) (len : Z) (data : Z → Z) (p p' : pstate) : Prop := Transferred {
  tr_data : ∀ i, 0 ≤ i < len → mdl_byte (phys p') (mdl_pages mdl) i = data i;
  tr_rest : ∀ i, 0 ≤ i → len ≤ i < PGSIZE * mdl_nPages mdl →
    mdl_byte (phys p') (mdl_pages mdl) i = mdl_byte (phys p) (mdl_pages mdl) i;
  tr_other : ∀ a, (∀ page, page ∈ mdl_pages mdl → ¬ (page ≤ a < page + PGSIZE)) →
    ¬ free_byte p a → phys p' a = phys p a;
}.

Section laws.
Context {K : Type} `{!KernelHeap K}.

(** So many objects and pages can be taken. *)
Record able (objs pgs : nat) (h : K) : Prop := Able {
  ab_heap : heap_ready objs h;
  ab_queues : queues_ok (pages_of h);
  ab_pages : (pgs ≤ free_pages (pages_of h))%nat;
  ab_frames : ∀ page, on_queue (pages_of h) pgfreeq page → frame_ok page;
}.

(** Objects and pages are only taken. *)
Record grown (h h' : K) : Prop := Grown {
  gw_free : ∀ page, on_queue (pages_of h') pgfreeq page → on_queue (pages_of h) pgfreeq page;
  gw_live : ∀ q z, heap_live h q z → heap_live h' q z;
}.

Lemma grown_refl h : grown h h.
Proof. by split. Qed.
Lemma drive_grown_trans h1 h2 h3 : grown h1 h2 → grown h2 h3 → grown h1 h3.
Proof. intros [] []. split; auto. Qed.
End laws.

Class Drives (K D : Type) `{!KernelHeap K} `{!DriveMethods (K * D)} := {
  drive_ready : DKDrive → D → Prop;
  media : DKDrive → D → Z → Z;
  (** what a read may take *)
  drive_objs : nat;
  drive_pages : nat;
  read_spec dr n off mdl comp h d a b :
    drive_ready dr d → 0 < n < m_maxBlockTransfer dr → 0 ≤ off → off + n ≤ m_nBlocks dr →
    able (drive_objs + a) (drive_pages + b) h → dma_target (pages_of h) mdl (n * m_blockSize dr) →
    ∃ s1 h' d', readBlocks dr n off mdl comp (h, d) = Ok (0, s1) ∧
      wait_completion comp s1 = Ok (n * m_blockSize dr, (h', d')) ∧
      drive_ready dr d' ∧ (∀ x, media dr d' x = media dr d x) ∧ able a b h' ∧ grown h h' ∧
      transferred mdl (n * m_blockSize dr) (λ i, media dr d (off * m_blockSize dr + i))
        (pages_of h) (pages_of h');
}.

(** A drive that can also be written. *)
Class WritableDrives (K D : Type) `{Drives K D} := {
  write_spec dr n off mdl comp h d :
    drive_ready dr d → 0 < n < m_maxBlockTransfer dr → 0 ≤ off → off + n ≤ m_nBlocks dr →
    dma_target (pages_of h) mdl (n * m_blockSize dr) →
    ∃ s1 d', writeBlocks dr n off mdl comp (h, d) = Ok (0, s1) ∧
      wait_completion comp s1 = Ok (n * m_blockSize dr, (h, d')) ∧ drive_ready dr d' ∧
      ∀ x, media dr d' x =
        if in_range (off * m_blockSize dr) (n * m_blockSize dr) x
        then mdl_byte (phys (pages_of h)) (mdl_pages mdl) (x - off * m_blockSize dr)
        else media dr d x;
}.

Section props.
Context {K : Type} `{!KernelHeap K} {D : Type} `{!DriveMethods (K * D)} `{!Drives K D}.
Variable frame : Z.

(** ** Transfers *)

Fixpoint disk_drive (self : disk) : DKDrive :=
  match self with Drive d => d | Logical _ underlying => disk_drive underlying end.
Definition disk_size (self : disk) : Z :=
  match self with Drive d => m_nBlocks d * m_blockSize d | Logical l _ => m_size l end.
(** Where the disk starts on its drive. *)
Fixpoint abs_base (self : disk) : Z :=
  match self with Drive _ => 0 | Logical l underlying => m_base l + abs_base underlying end.

(** Every disk lies inside the one it is made from. *)
Fixpoint disk_ok (self : disk) : Prop :=
  match self with
  | Drive d => 0 < m_blockSize d ∧ 0 ≤ m_nBlocks d ∧ m_nBlocks d * m_blockSize d < 2^63 ∧
      0 < m_maxBlockTransfer d ∧ m_maxBlockTransfer d * m_blockSize d ≤ 2^31
  | Logical l underlying => 0 ≤ m_base l ∧ 0 ≤ m_size l ∧
      m_base l + m_size l ≤ disk_size underlying ∧ disk_ok underlying
  end.

Lemma disk_ok_facts self : disk_ok self →
  0 < m_blockSize (disk_drive self) ∧ 0 < m_maxBlockTransfer (disk_drive self) ∧
  m_maxBlockTransfer (disk_drive self) * m_blockSize (disk_drive self) ≤ 2^31 ∧
  0 ≤ abs_base self ∧ 0 ≤ disk_size self ∧
  abs_base self + disk_size self ≤ m_nBlocks (disk_drive self) * m_blockSize (disk_drive self) < 2^63.
Proof.
  induction self as [d|l u IH]; simpl; [nia|]. intros (Hb & Hs & Hle & Hu).
  destruct (IH Hu) as (? & ? & ? & ? & ? & ?). split_and!; try done; lia.
Qed.

(** The error a transfer ends with, if it does. *)
Definition io_error (self : disk) (base nBytes offset : Z) : option Z :=
  let dr := disk_drive self in
  if match self with Drive _ => false | Logical l _ => m_size l <? offset + nBytes end then Some (- EINVAL)
  else if m_maxBlockTransfer dr * m_blockSize dr <? nBytes then Some (- EOPNOTSUPP)
  else if negb ((offset + base) mod m_blockSize dr =? 0) || negb (nBytes mod m_blockSize dr =? 0)
  then Some (- EOPNOTSUPP) else None.

Lemma io_error_inside self base nBytes offset :
  offset + nBytes ≤ disk_size self →
  nBytes ≤ m_maxBlockTransfer (disk_drive self) * m_blockSize (disk_drive self) →
  (offset + base) mod m_blockSize (disk_drive self) = 0 → nBytes mod m_blockSize (disk_drive self) = 0 →
  io_error self base nBytes offset = None.
Proof.
  intros Hin Hmax Ho Hn. unfold io_error. rewrite Ho, Hn, (proj2 (Z.ltb_ge _ nBytes)) by lia.
  destruct self; [done|]. simpl in Hin. by rewrite (proj2 (Z.ltb_ge _ _)) by lia.
Qed.
Lemma drive_bound self end_ :
  end_ ≤ disk_size self → match self with Drive _ => end_ ≤ disk_size self | Logical _ _ => True end.
Proof. by destruct self. Qed.

(** A transfer at the drive's level: an error, with nothing done, or whole blocks. *)
Lemma commonIO_split dr strategy nBytes offset buf (s : K * D) :
  disk_ok (Drive dr) → 0 ≤ offset → 0 ≤ nBytes →
  commonIO frame dr strategy nBytes offset buf None s =
    match io_error (Drive dr) 0 nBytes offset with
    | Some e => Ok (e, s)
    | None =>
        (r ← (match strategy with kDKRead => readBlocks | kDKWrite => writeBlocks end)
               dr (nBytes / m_blockSize dr) (offset / m_blockSize dr) buf frame;
         if negb (r =? 0) then mret r else
         result ← wait_completion frame; mret (s32 result)) s
    end.
Proof.
  intros (Hbs & _ & _ & Hmax & Hlim) Ho Hn. unfold commonIO, io_error. simpl.
  rewrite Z.add_0_r, (w64_small (_ * _)) by nia.
  destruct (m_maxBlockTransfer dr * m_blockSize dr <? nBytes); [done|].
  rewrite (proj2 (Z.eqb_neq (m_blockSize dr) 0)) by lia.
  rewrite Z.rem_mod_nonneg, Z.quot_div_nonneg by lia.
  by destruct (negb (offset mod m_blockSize dr =? 0) || negb (nBytes mod m_blockSize dr =? 0)).
Qed.

(** Inside its size, a disk passes a transfer on to its drive, at its base. *)
Lemma readBytes_passes self nBytes offset buf (s : K * D) :
  disk_ok self → 0 ≤ offset → 0 ≤ nBytes → offset + nBytes ≤ disk_size self →
  readBytes frame self nBytes offset buf None s =
  commonIO frame (disk_drive self) kDKRead nBytes (offset + abs_base self) buf None s.
Proof.
  revert offset. induction self as [d|l u IH]; intros offset Hok Ho Hn Hle; [by rewrite Z.add_0_r|].
  pose proof (disk_ok_facts _ Hok) as (_ & _ & _ & _ & _ & Htop). destruct Hok as (Hb & Hs & Hin & Hu).
  pose proof (disk_ok_facts _ Hu) as (_ & _ & _ & ? & _ & ?). simpl in *.
  rewrite w64_small by lia. rewrite (proj2 (Z.ltb_ge _ _)) by lia.
  rewrite bool_decide_true by (unfold s64; rewrite Z.mod_small; lia).
  simpl. rewrite IH by (try done; lia). f_equal. lia.
Qed.

Lemma writeBytes_passes self nBytes offset buf (s : K * D) :
  disk_ok self → 0 ≤ offset → 0 ≤ nBytes → offset + nBytes ≤ disk_size self →
  writeBytes frame self nBytes offset buf None s =
  commonIO frame (disk_drive self) kDKWrite nBytes offset buf None s.
Proof.
  revert offset. induction self as [d|l u IH]; intros offset Hok Ho Hn Hle; [done|].
  pose proof (disk_ok_facts _ Hok) as (_ & _ & _ & _ & _ & Htop). destruct Hok as (Hb & Hs & Hin & Hu).
  pose proof (disk_ok_facts _ Hu) as (_ & _ & _ & ? & _ & ?). simpl in *.
  rewrite w64_small by lia. rewrite (proj2 (Z.ltb_ge _ _)) by lia. rewrite IH by (try done; lia). done.
Qed.

(** What a transfer of whole blocks is for the drive. *)
Lemma io_error_None dr nBytes offset :
  disk_ok (Drive dr) → io_error (Drive dr) 0 nBytes offset = None →
  nBytes ≤ m_maxBlockTransfer dr * m_blockSize dr ∧
  offset / m_blockSize dr * m_blockSize dr = offset ∧ nBytes / m_blockSize dr * m_blockSize dr = nBytes.
Proof.
  intros (Hbs & _) E. unfold io_error in E. simpl in E. rewrite Z.add_0_r in E.
  destruct (Z.ltb_spec (m_maxBlockTransfer dr * m_blockSize dr) nBytes); [done|].
  destruct (Z.eqb_spec (offset mod m_blockSize dr) 0); [|done].
  destruct (Z.eqb_spec (nBytes mod m_blockSize dr) 0); [|done].
  pose proof (Z.div_mod offset (m_blockSize dr)). pose proof (Z.div_mod nBytes (m_blockSize dr)). lia.
Qed.

(** The error is found at the top or at the drive. *)
Lemma io_error_drive self nBytes offset :
  disk_ok self → 0 ≤ offset → offset + nBytes ≤ disk_size self →
  io_error self (abs_base self) nBytes offset = io_error (Drive (disk_drive self)) 0 nBytes (offset + abs_base self).
Proof.
  intros Hok Ho Hle. unfold io_error. simpl. rewrite Z.add_0_r.
  destruct self as [d|l u]; [done|]. simpl in *. by rewrite (proj2 (Z.ltb_ge _ _)) by lia.
Qed.

Lemma disk_drive_ok self : disk_ok self → disk_ok (Drive (disk_drive self)).
Proof. induction self; naive_solver. Qed.

(** A read is an error, with nothing done, or whole blocks of the drive. *)
Lemma readBytes_split self nBytes offset buf (s : K * D) :
  disk_ok self → 0 ≤ offset < 2^63 → 0 < nBytes < 2^63 →
  match self with Drive _ => offset + nBytes ≤ disk_size self | Logical _ _ => True end →
  let dr := disk_drive self in
  match io_error self (abs_base self) nBytes offset with
  | Some e => readBytes frame self nBytes offset buf None s = Ok (e, s)
  | None =>
      readBytes frame self nBytes offset buf None s =
        (r ← readBlocks dr (nBytes / m_blockSize dr) ((offset + abs_base self) / m_blockSize dr) buf frame;
         if negb (r =? 0) then mret r else
         result ← wait_completion frame; mret (s32 result)) s ∧
      offset + nBytes ≤ disk_size self ∧
      nBytes ≤ m_maxBlockTransfer dr * m_blockSize dr ∧
      (offset + abs_base self) / m_blockSize dr * m_blockSize dr = offset + abs_base self ∧
      nBytes / m_blockSize dr * m_blockSize dr = nBytes
  end.
Proof.
  intros Hok Ho Hn Hdr dr. destruct (disk_ok_facts _ Hok) as (Hbs & Hm & Hlim & Hb & Hs & Htop).
  pose proof (disk_drive_ok _ Hok) as Hdok.
  destruct (decide (offset + nBytes ≤ disk_size self)) as [Hle|Hgt].
  - rewrite io_error_drive, readBytes_passes, commonIO_split by (done || lia). fold dr.
    destruct (io_error (Drive dr) 0 nBytes (offset + abs_base self)) as [e|] eqn:He; [done|].
    destruct (io_error_None _ _ _ Hdok He) as (? & ? & ?). split_and!; done.
  - destruct self as [d|l u]; [lia|]. simpl in *.
    unfold io_error. rewrite (proj2 (Z.ltb_lt _ _)) by lia.
    rewrite w64_small by lia. by rewrite (proj2 (Z.ltb_lt _ _)) by lia.
Qed.

(** Reading gives what the drive holds at the disk's place on it. *)
Lemma readBytes_correct self nBytes offset buf h d a b :
  disk_ok self → drive_ready (disk_drive self) d → 0 ≤ offset < 2^63 → 0 < nBytes < 2^63 →
  match self with Drive _ => offset + nBytes ≤ disk_size self | Logical _ _ => True end →
  nBytes ≠ m_maxBlockTransfer (disk_drive self) * m_blockSize (disk_drive self) →
  able (drive_objs + a) (drive_pages + b) h → dma_target (pages_of h) buf nBytes →
  match io_error self (abs_base self) nBytes offset with
  | Some e => readBytes frame self nBytes offset buf None (h, d) = Ok (e, (h, d))
  | None => ∃ h' d', readBytes frame self nBytes offset buf None (h, d) = Ok (nBytes, (h', d')) ∧
      drive_ready (disk_drive self) d' ∧ (∀ x, media (disk_drive self) d' x = media (disk_drive self) d x) ∧
      able a b h' ∧ grown h h' ∧
      transferred buf nBytes (λ i, media (disk_drive self) d (abs_base self + offset + i))
        (pages_of h) (pages_of h')
  end.
Proof.
  intros Hok Hr Ho Hn Hdr Hne Ha Ht. destruct (disk_ok_facts _ Hok) as (Hbs & Hm & Hlim & Hb & Hs & Htop).
  pose proof (readBytes_split self nBytes offset buf (h, d) Hok Ho Hn Hdr) as Hsplit.
  destruct (io_error self (abs_base self) nBytes offset) as [e|]; [done|].
  destruct Hsplit as (-> & Hle & Hmax & Eo & En). set (dr := disk_drive self) in *.
  destruct (read_spec dr (nBytes / m_blockSize dr) ((offset + abs_base self) / m_blockSize dr) buf frame h d a b)
    as (s1 & h' & d' & Hread & Hwait & Hr' & Hmed & Ha' & Hg & Htr); try done.
  { split; nia. }
  { apply Z.div_pos; lia. }
  { nia. }
  { by rewrite En. }
  rewrite En, Eo in *. exists h', d'. rewrite (bind_step _ _ _ _ _ Hread). simpl.
  rewrite (bind_step _ _ _ _ _ Hwait). unfold mret, M_ret. rewrite s32_small by lia.
  replace (abs_base self + offset) with (offset + abs_base self) by lia. done.
Qed.

(** Writing to a logical disk, at any depth, leaves out its base: the data go to
    the drive at the offset itself, the write succeeds, and if they end before the disk
    begins, what the disk holds is what it held. *)
Theorem writeBytes_misplaced `{!WritableDrives K D} self nBytes offset buf h d :
  disk_ok self → drive_ready (disk_drive self) d → 0 ≤ offset → 0 < nBytes → offset + nBytes ≤ disk_size self →
  io_error (Drive (disk_drive self)) 0 nBytes offset = None →
  nBytes ≠ m_maxBlockTransfer (disk_drive self) * m_blockSize (disk_drive self) →
  dma_target (pages_of h) buf nBytes →
  ∃ d', writeBytes frame self nBytes offset buf None (h, d) = Ok (nBytes, (h, d')) ∧
    drive_ready (disk_drive self) d' ∧
    (∀ x, media (disk_drive self) d' x =
       if in_range offset nBytes x then mdl_byte (phys (pages_of h)) (mdl_pages buf) (x - offset)
       else media (disk_drive self) d x) ∧
    (offset + nBytes ≤ abs_base self → ∀ i, 0 ≤ i →
       media (disk_drive self) d' (abs_base self + i) = media (disk_drive self) d (abs_base self + i)).
Proof.
  intros Hok Hr Ho Hn Hle He Hne Ht. destruct (disk_ok_facts _ Hok) as (Hbs & Hm & Hlim & Hb & Hs & Htop).
  pose proof (disk_drive_ok _ Hok) as Hdok.
  rewrite writeBytes_passes by (done || lia). set (dr := disk_drive self) in *.
  rewrite commonIO_split by (done || lia). rewrite He.
  destruct (io_error_None _ _ _ Hdok He) as (Hmax & Eo & En).
  destruct (write_spec dr (nBytes / m_blockSize dr) (offset / m_blockSize dr) buf frame h d)
    as (s1 & d' & Hw & Hwait & Hr' & Hmed); try done.
  { split; nia. }
  { apply Z.div_pos; lia. }
  { nia. }
  { by rewrite En. }
  rewrite En, Eo in *. exists d'. rewrite (bind_step _ _ _ _ _ Hw). simpl.
  rewrite (bind_step _ _ _ _ _ Hwait). unfold mret, M_ret. rewrite s32_small by lia.
  split_and!; try done. intros Hlt i Hi. rewrite Hmed. by rewrite in_range_false by lia.
Qed.
End props.

(** ** A drive in memory *)

(** Data that a device writes to a list of pages. *)
Fixpoint dma_write (pages : list Z) (len : Z) (data : Z → Z) (m : mem) : mem :=
  match pages with
  | [] => m
  | page :: pages' => λ a,
      if in_range page (Z.min PGSIZE len) a then data (a - page)
      else dma_write pages' (len - PGSIZE) (λ i, data (PGSIZE + i)) m a
  end.

Lemma dma_write_other pages len data m a :
  (∀ page, page ∈ pages → ¬ (page ≤ a < page + PGSIZE)) → dma_write pages len data m a = m a.
Proof.
  revert len data. induction pages as [|page pages IH]; intros len data H; simpl; [done|].
  rewrite in_range_false.
  - apply IH. intros q Hq. apply H. by right.
  - specialize (H page ltac:(left)). lia.
Qed.

Lemma dma_write_byte pages len data m i :
  NoDup pages → (∀ page, page ∈ pages → frame_ok page) → 0 ≤ i < PGSIZE * Z.of_nat (length pages) →
  mdl_byte (dma_write pages len data m) pages i = if i <? len then data i else mdl_byte m pages i.
Proof.
  unfold mdl_byte. intros HND Hal Hi. revert len data i Hi.
  induction pages as [|page pages IH]; intros len data i Hi; simpl in *; [unfold PGSIZE in Hi; lia|].
  apply NoDup_cons in HND as [Hnot HND].
  assert (∀ q a, q ∈ pages → q ≤ a < q + PGSIZE → ¬ (page ≤ a < page + PGSIZE)) as Hapart.
  { intros q a Hq Ha Hp. apply Hnot. rewrite (frame_unique page q a); [done|apply Hal; left|apply Hal; by right|done..]. }
  unfold PGSIZE in *.
  pose proof (Z.div_mod i 4096 ltac:(done)) as Hdm. pose proof (Z.mod_pos_bound i 4096 ltac:(done)) as Hmb.
  destruct (decide (i < 4096)) as [Hlt|Hge].
  - rewrite (Z.div_small i), (Z.mod_small i) by lia. simpl. destruct (Z.ltb_spec i len) as [Hin|Hout].
    + rewrite in_range_true by lia. f_equal. lia.
    + rewrite in_range_false by lia. rewrite dma_write_other; [done|].
      intros q Hq Hin. apply (Hapart _ _ Hq Hin). lia.
  - assert (i / 4096 = 1 + (i - 4096) / 4096) as Ed.
    { replace i with (i - 4096 + 1 * 4096) at 1 by lia. rewrite Z.div_add by done. lia. }
    assert (i mod 4096 = (i - 4096) mod 4096) as Em.
    { replace i with (i - 4096 + 1 * 4096) at 1 by lia. by rewrite Z.mod_add by done. }
    assert (0 ≤ (i - 4096) / 4096) by (apply Z.div_pos; lia).
    rewrite Ed, Em. replace (Z.to_nat (1 + (i - 4096) / 4096)) with (S (Z.to_nat ((i - 4096) / 4096))) by lia.
    simpl. rewrite in_range_false.
    + rewrite IH; [|done|intros q Hq; apply Hal; by right|lia].
      replace (i - 4096 <? len - 4096) with (i <? len) by (destruct (Z.ltb_spec i len), (Z.ltb_spec (i - 4096) (len - 4096)); lia).
      destruct (i <? len); [|done]. f_equal. lia.
    + destruct (lookup_lt_is_Some_2 pages (Z.to_nat ((i - 4096) / 4096))) as [q Hq].
      { assert ((i - 4096) / 4096 < Z.of_nat (length pages)) by (apply Z.div_lt_upper_bound; lia). lia. }
      rewrite Hq. simpl. apply list_elem_of_lookup_2 in Hq.
      pose proof (Z.mod_pos_bound (i - 4096) 4096 ltac:(done)).
      specialize (Hapart q (q + (i - 4096) mod 4096) Hq ltac:(lia)). lia.
Qed.

(** The smallest drive: it is done at once. *)
Record flat_drive := FlatDrive { fd_bytes : Z → Z; fd_result : Z }.

Section flat.
Context {K : Type} `{!KernelHeap K}.

#[export] Instance flat_methods : DriveMethods (K * flat_drive) := {|
  readBlocks dr n off mdl _ := λ '(h, d),
    let bs := m_blockSize dr in
    Ok (0, (with_pages (set_phys (dma_write (mdl_pages mdl) (n * bs) (λ i, fd_bytes d (off * bs + i)))
                         (pages_of h)) h,
            FlatDrive (fd_bytes d) (n * bs)));
  writeBlocks dr n off mdl _ := λ '(h, d),
    let bs := m_blockSize dr in
    Ok (0, (h, FlatDrive (λ x, if in_range (off * bs) (n * bs) x
                               then mdl_byte (phys (pages_of h)) (mdl_pages mdl) (x - off * bs)
                               else fd_bytes d x) (n * bs)));
  wait_completion _ := λ '(h, d), Ok (fd_result d, (h, d));
|}.

(** What a device that writes the data to the MDL's pages leaves behind. *)
Lemma dma_transferred mdl len data p p' :
  dma_target p mdl len → phys p' = dma_write (mdl_pages mdl) len data (phys p) → transferred mdl len data p p'.
Proof.
  intros [HND Hal _ Hn Hlen] E. split; rewrite E.
  - intros i Hi. rewrite dma_write_byte, (proj2 (Z.ltb_lt _ _)) by (done || lia || by intros; apply Hal). done.
  - intros i H0 Hi. rewrite dma_write_byte, (proj2 (Z.ltb_ge _ _)) by (done || lia || by intros; apply Hal). done.
  - intros a Ha _. by apply dma_write_other.
Qed.

#[export] Program Instance flat_drives : Drives K flat_drive := {
  drive_ready _ _ := True;
  media _ d := fd_bytes d;
  drive_objs := 0;
  drive_pages := 0;
}.
Next Obligation.
  intros dr n off mdl comp h d a b _ _ _ _ [Hr Hq Hp Hal] Ht. eexists _, _, _. split; [reflexivity|].
  split; [reflexivity|]. split; [done|]. split; [done|].
  set (p := set_phys _ (pages_of h)). assert (pages_of (with_pages p h) = p) as Ep by apply pages_of_with. split.
  - split; rewrite ?Ep; try done; [by apply ready_with|]. by destruct Hq.
  - split.
    + split; [by rewrite Ep|]. intros q z. by rewrite live_with.
    + rewrite Ep. by apply dma_transferred.
Qed.
#[export] Program Instance flat_writable : WritableDrives K flat_drive.
Next Obligation. intros. by eexists _, _. Qed.
End flat.

(** ** A small disk with a partition *)

Definition demo_media : Z → Z := λ x, x mod 256.
Definition demo_drive : DKDrive := DKDrive_ 0 512 64 16.
Definition demo_disk : disk := Logical (DKLogicalDisk_ 0 32768 0 []) (Drive demo_drive).
Definition demo_io_pages : pstate :=
  PState [PRegion 4096 20] (λ q, match q with pgfreeq => PQ ((λ k, 4096 * k) <$> seqZ 1 12) 12 | _ => PQ [] 0 end)
    (λ _, kVMPageFree) (λ _, []) (λ _, 0).
Definition demo_io_heap : counter_heap := CounterHeap 1 [] (VState ∅ [] 0, demo_io_pages).
Lemma demo_able a b : (b ≤ 12)%nat → able a b demo_io_heap.
Proof.
  intros Hb. split.
  - intros x []%elem_of_nil.
  - split.
    + intros q. apply (bool_decide_unpack _). by destruct q.
    + intros q r p. unfold on_queue. by destruct q, r; simpl; rewrite ?elem_of_nil.
  - exact Hb.
  - intros page Hp. change (page ∈ (λ k, 4096 * k) <$> seqZ 1 12) in Hp.
    apply list_elem_of_fmap in Hp as (k & -> & Hk%elem_of_seqZ). unfold frame_ok, PGSIZE.
    rewrite Z.mul_comm, Z.mod_mul by done. lia.
Qed.
Lemma demo_disk_ok : disk_ok demo_disk.
Proof. repeat split; simpl; lia. Qed.

Definition demo_part : disk := Logical (DKLogicalDisk_ 1536 3072 1 []) demo_disk.
Definition demo_mdl : vm_mdl := MDL 9 0 4096 1 [81920].
Lemma demo_part_ok : disk_ok demo_part.
Proof. repeat split; simpl; lia. Qed.
Lemma demo_target : dma_target (pages_of demo_io_heap) demo_mdl 512.
Proof.
  split; try done; [by apply NoDup_singleton| |].
  - by intros page ->%list_elem_of_singleton.
  - intros page ->%list_elem_of_singleton. unfold on_queue. apply (bool_decide_unpack _). by vm_compute.
Qed.

Lemma readBytes_correct_witness :
  ∃ h d, readBytes 0 demo_part 512 1024 demo_mdl None (demo_io_heap, FlatDrive demo_media 0) = Ok (512, (h, d)) ∧
    transferred demo_mdl 512 (λ i, demo_media (2560 + i)) (pages_of demo_io_heap) (pages_of h).
Proof.
  destruct (readBytes_correct (Drives0 := flat_drives) 0 demo_part 512 1024 demo_mdl demo_io_heap (FlatDrive demo_media 0) 0 0
    demo_part_ok I ltac:(lia) ltac:(lia) I ltac:(done) (demo_able 0 0 ltac:(lia)) demo_target)
    as (h & d & H1 & _ & _ & _ & _ & H2).
  by exists h, d.
Defined.

(** The partition's first block is written over the drive's first block. *)
Lemma writeBytes_misplaced_witness :
  ∃ d, writeBytes 0 demo_part 512 0 demo_mdl None (demo_io_heap, FlatDrive demo_media 0) =
      Ok (512, (demo_io_heap, d)) ∧
    (∀ i, 0 ≤ i < 512 → fd_bytes d i = 0) ∧ ∀ i, 0 ≤ i → fd_bytes d (1536 + i) = demo_media (1536 + i).
Proof.
  destruct (writeBytes_misplaced (Drives0 := flat_drives) 0 demo_part 512 0 demo_mdl demo_io_heap (FlatDrive demo_media 0)
    demo_part_ok I ltac:(lia) ltac:(lia) ltac:(simpl; lia) eq_refl ltac:(done) demo_target)
    as (d & H1 & _ & H2 & H3).
  exists d. split; [exact H1|]. split; [|by apply H3].
  intros i Hi. simpl in H2. rewrite H2, in_range_true by lia. done.
Defined.
