(* ===== verification/Gpt.v ===== *)
(** * The device tree's disks and the partition table: devicekit/DKLogicalDisk.m,
    dev/GPTVolumeManager.m, ext2fs/ext2_vfsops.m

    Attaching a drive makes the logical disk that stands for all of it, which probes
    for a table, which makes a logical disk for each entry in use.  MDLs come from
    the heap.  [ksnprintf] and [makedev] are arguments; device files are made
    through the class [DeviceNodes]. *)

From S2P Require Import Prelude Vmem VmPage VmKernel Heap VmProps Klib Uuid Tmpfs Disk.
Open Scope Z_scope.

(** ** The device tree *)

(** devfs: making a node for a device number. *)
Class DeviceNodes (F : Type) := {
  make_node : Z → string → M F Z;
  dev_nodes : F → list (string * Z);
  (** so many nodes can be made *)
  nodes_ready : nat → F → Prop;
  make_node_spec n dev nm f : nodes_ready (S n) f →
    ∃ f', make_node dev nm f = Ok (0, f') ∧ nodes_ready n f' ∧ dev_nodes f' = dev_nodes f ++ [(nm, dev)];
  nodes_ready_less n f : nodes_ready (S n) f → nodes_ready n f;
}.

(** What DeviceKit adds to the heap and the drives: devfs, the counters of the
    classes and the disks in the order they registered. *)
Record dkstate (K D F : Type) := Dk {
  dk_below : K * D;
  dk_devfs : F;
  dk_minor : Z;
  dk_disks : list disk;
}.
Arguments Dk {K D F} _ _ _ _.
Arguments dk_below {K D F} _.
Arguments dk_devfs {K D F} _.
Arguments dk_minor {K D F} _.
Arguments dk_disks {K D F} _.

(** [struct gpt_header] *)
Record gpt_header := GptHeader {
  gh_signature : list Z;
  gh_revision : Z;
  gh_size : Z;
  gh_cksumHeader : Z;
  gh_lbaHeader : Z;
  gh_lbaAltHeader : Z;
  gh_lbaFirstUsable : Z;
  gh_lbaLastUsable : Z;
  gh_guid : list Z;
  gh_lbaEntryArrayStart : Z;
  gh_nEntries : Z;
  gh_sizEntry : Z;
  gh_cksumPart : Z;
}.
(** [struct gpt_entry] *)
Record gpt_entry := GptEntry {
  ge_type : list Z;
  ge_identifier : list Z;
  ge_lbaStart : Z;
  ge_lbaEnd : Z;
  ge_attributes : Z;
  ge_name : list Z;
}.
Definition get16 (m : mem) (a : Z) : Z := m a + 2^8 * m (a + 1).
Definition get32 (m : mem) (a : Z) : Z := m a + 2^8 * m (a + 1) + 2^16 * m (a + 2) + 2^24 * m (a + 3).
(** The structures at an address, laid out as C does. *)
Definition gpt_header_at (m : mem) (a : Z) : gpt_header :=
  GptHeader (bytes_at m a 8) (get32 m (a + 8)) (get32 m (a + 12)) (get32 m (a + 16))
    (read64 m (a + 24)) (read64 m (a + 32)) (read64 m (a + 40)) (read64 m (a + 48))
    (bytes_at m (a + 56) 16) (read64 m (a + 72)) (get32 m (a + 80)) (get32 m (a + 84))
    (get32 m (a + 88)).
Definition sizeof_gpt_header : Z := 96.
Definition gpt_entry_at (m : mem) (a : Z) : gpt_entry :=
  GptEntry (bytes_at m a 16) (bytes_at m (a + 16) 16) (read64 m (a + 32)) (read64 m (a + 40))
    (read64 m (a + 48)) ((λ i, get16 m (a + 56 + 2 * i)) <$> seqZ 0 36).
Definition sizeof_gpt_entry : Z := 128.
(** "EFI PART" *)
Definition efi_part : list Z := [69; 70; 73; 32; 80; 65; 82; 84].
(** The loop over [ent.name]; 63 is a question mark. *)
Definition partname (ent : gpt_entry) : list Z := (λ c, if 127 <? c then 63 else c) <$> ge_name ent.

Section tree.
Context {K : Type} `{!KernelHeap K} {D : Type} `{!DriveMethods (K * D)} {F : Type} `{!DeviceNodes F}.
Variables (frame major : Z) (makedev : Z → Z → Z).
(** What [ksnprintf(buf, size, fmt, arg)] returns and leaves in [buf]. *)
Variable ksnprintf : Z → string → list Z → Z * string.
Abbreviation dk := (dkstate K D F).

Definition below {A} (m : M (K * D) A) : M dk A := λ s,
  match m (dk_below s) with
  | Ok (a, b) => Ok (a, Dk b (dk_devfs s) (dk_minor s) (dk_disks s))
  | Fatal w => Fatal w
  | Undef w => Undef w
  end.
Definition in_heap {A} (m : M K A) : M (K * D) A := λ '(h, d),
  match m h with Ok (a, h') => Ok (a, (h', d)) | Fatal w => Fatal w | Undef w => Undef w end.
Definition in_pages (A : Type) (m : M pstate A) : M (K * D) A := in_heap (λ h,
  match m (pages_of h) with
  | Ok (a, p) => Ok (a, with_pages p h)
  | Fatal w => Fatal w
  | Undef w => Undef w
  end).
Definition in_devfs {A} (m : M F A) : M dk A := λ s,
  match m (dk_devfs s) with
  | Ok (a, f) => Ok (a, Dk (dk_below s) f (dk_minor s) (dk_disks s))
  | Fatal w => Fatal w
  | Undef w => Undef w
  end.
Definition phys_mem : M dk mem := λ s, Ok (phys (pages_of (dk_below s).1), s).

Definition mdl_alloc (size : Z) : M (K * D) (option Z) := in_heap (p ← heap_alloc size; mret (Some p)).
Definition mdl_free (p size : Z) : M (K * D) unit := in_heap (heap_free p size).
Definition mdl_new (bytes : Z) : M dk (Z * option vm_mdl) :=
  below (vm_mdl_new_with_capacity in_pages mdl_alloc bytes).
Definition mdl_expand (mdl : vm_mdl) (bytes : Z) : M dk (Z * vm_mdl) :=
  below (vm_mdl_expand in_pages mdl_alloc mdl_free mdl bytes).

(** What it returns and what it leaves in the buffer; [None] when an assertion
    fails.  What it returns is the length of the last part. *)
Fixpoint buildPosixDeviceName (self : disk) (size : Z) : option (Z * string) :=
  match self with
  | Drive _ => None
  | Logical l underlying =>
      match underlying with
      | Drive d => Some (ksnprintf size "dk%d" [driveID d])
      | Logical _ _ =>
          '(r, buffer) ← buildPosixDeviceName underlying size;
          if w64 (size - r) =? 0 then None else
          let '(r', rest) := ksnprintf (w64 (size - r)) "s%lu" [m_location l] in
          Some (r', String.append (String.substring 0 (Z.to_nat r) buffer) rest)
      end
  end.

(** ext2fs: looks for the magic number. *)
Definition EXT2_SUPER_MAGIC : Z := 0xef53.
Definition mountit (self : disk) : M dk Z :=
  '(r, mdl) ← mdl_new PGSIZE;
  massert (r =? 0) "assert(r == 0)";;
  mdl ← deref mdl "mdl";
  r ← below (readBytes frame self 1024 1024 mdl None);
  m ← phys_mem;
  sb ← deref (vm_mdl_copy m mdl (λ _, 0) 1024 0) "mdl->pages";
  if negb (get16 sb 56 =? EXT2_SUPER_MAGIC) then mret (- EINVAL) else mret 0.

(** [initWithUnderlyingDisk], given what the table's manager does. *)
Definition init_disk (probe : disk → M dk bool) (underlying : disk) (base size : Z) (aname : list Z)
    (location : Z) : M dk disk :=
  let self := Logical (DKLogicalDisk_ base size location aname) underlying in
  mmodify (λ s : dk, Dk (dk_below s) (dk_devfs s) (dk_minor s) (dk_disks s ++ [self]));;
  '(_, nameBuf) ← (match buildPosixDeviceName self 63 with
                   | Some x => mret x
                   | None => fatal "assert(size > 0)"
                   end);
  s ← mget;
  let minor := dk_minor s in
  mput (Dk (dk_below s) (dk_devfs s) (minor + 1) (dk_disks s));;
  r ← in_devfs (make_node (makedev major minor) nameBuf);
  massert (0 <=? r) "assert(r >= 0)";;
  (match underlying with Drive _ => mret () | Logical _ _ => _ ← mountit self; mret () end);;
  (if location =? 0 then _ ← probe self; mret () else mret ());;
  mret self.

(** *** GPTVolumeManager *)

(** The loop over the entries, [n] of them from the [i]th. *)
Fixpoint gpt_entries (self : disk) (mdl : vm_mdl) (hdrGpt : gpt_header) (i : Z) (n : nat) : M dk unit :=
  match n with
  | O => mret ()
  | S n' =>
      m ← phys_mem;
      buf ← deref (vm_mdl_copy m mdl (λ _, 0) sizeof_gpt_entry (w32 (gh_sizEntry hdrGpt * i))) "mdl->pages";
      let ent := gpt_entry_at buf 0 in
      (if negb (uuid_is_null (ge_type ent) =? 0) then mret () else
       _ ← init_disk (λ _, undef "location 0") self
             (s64 (blockSize self * ge_lbaStart ent))
             (w64 ((ge_lbaEnd ent - ge_lbaStart ent) * blockSize self))
             (partname ent) (i + 1);
       mret ());;
      gpt_entries self mdl hdrGpt (i + 1) n'
  end.

(** [initWithDisk] *)
Definition gpt_init (self : disk) (mdl : vm_mdl) (hdrGpt : gpt_header) : M dk unit :=
  let sizGptEntryArray := w32 (gh_sizEntry hdrGpt * gh_nEntries hdrGpt) in
  mdl ← (if vm_mdl_capacity mdl <? sizGptEntryArray then
           '(r, mdl) ← mdl_expand mdl sizGptEntryArray;
           massert (0 <=? r) "assert(r >= 0)";; mret mdl
         else mret mdl);
  r ← below (readBytes frame self sizGptEntryArray (s64 (blockSize self * gh_lbaEntryArrayStart hdrGpt))
               mdl None);
  massert (0 <=? r) "assert(r >= 0)";;
  gpt_entries self mdl hdrGpt 0 (Z.to_nat (gh_nEntries hdrGpt)).

Definition gpt_probe (self : disk) : M dk bool :=
  '(r, mdl) ← mdl_new sizeof_gpt_header;
  if negb (r =? 0) then mret false else
  mdl ← deref mdl "mdl";
  r ← below (readBytes frame self (blockSize self) (blockSize self * 1) mdl None);
  massert (0 <=? r) "assert(r >= 0)";;
  m ← phys_mem;
  page ← deref (mdl_pages mdl !! 0%nat) "mdl->pages[0]";
  let hdrGpt := gpt_header_at m page in
  if negb (bool_decide (gh_signature hdrGpt = efi_part)) then mret false else
  gpt_init self mdl hdrGpt;;
  mret true.

(** A drive attaches: the disk that stands for the whole of it. *)
Definition drive_attach (d : DKDrive) (name : list Z) : M dk disk :=
  init_disk gpt_probe (Drive d) 0 (w64 (m_nBlocks d * m_blockSize d)) name 0.
End tree.

(** ** MDLs *)

Section mdls.
Context {K : Type} `{!KernelHeap K} {D : Type}.
Implicit Types (h : K) (d : D).

(** Pages are only taken, and what is not free keeps its bytes. *)
Record quiet h h' : Prop := Quiet {
  qt_free : ∀ page, on_queue (pages_of h') pgfreeq page → on_queue (pages_of h) pgfreeq page;
  qt_bytes : ∀ a, ¬ free_byte (pages_of h) a → phys (pages_of h') a = phys (pages_of h) a;
}.
Lemma quiet_refl h : quiet h h.
Proof. by split. Qed.
Lemma quiet_trans h1 h2 h3 : quiet h1 h2 → quiet h2 h3 → quiet h1 h3.
Proof.
  intros [G1 B1] [G2 B2]. split; [auto|]. intros a Ha.
  rewrite B2, B1; [done..|]. intros (p & Hp & ?). apply Ha. exists p. split; [by apply G1|done].
Qed.
Lemma able_less objs pgs objs' pgs' h :
  able (objs + objs') (pgs + pgs') h → able objs' pgs' h.
Proof.
  intros [H1 H2 H3 H4]. split; try done; [|lia]. clear -H1. induction objs; [done|]. apply IHobjs. by apply heap_ready_less.
Qed.
Lemma able_zero objs pgs h : able objs pgs h → able 0 0 h.
Proof. intros H. apply (able_less objs pgs). by rewrite !Nat.add_0_r. Qed.

Lemma alloc_pages_run n h d a b :
  able a (n + b) h →
  ∃ pages h', alloc_pages (in_pages (D := D)) n (h, d) = Ok (pages, (h', d)) ∧ length pages = n ∧
    able a b h' ∧ quiet h h' ∧ NoDup pages ∧ (∀ q z, heap_live h q z ↔ heap_live h' q z) ∧
    ∀ page, page ∈ pages → on_queue (pages_of h) pgfreeq page ∧ ¬ on_queue (pages_of h') pgfreeq page.
Proof.
  revert h. induction n as [|n IH]; intros h Ha.
  { exists [], h. split_and!; try done; [by apply NoDup_nil_2|by intros page []%elem_of_nil]. }
  destruct Ha as [Hr Hq Hp Hal]. destruct (pq_list (queues (pages_of h) pgfreeq)) as [|page rest] eqn:E.
  { unfold free_pages in Hp. rewrite E in Hp. simpl in Hp. lia. }
  destruct (pagealloc_run true pgwiredq _ page rest Hq E) as (p' & Hrun & Htk & Hph & _).
  destruct Htk as (Hq' & Hon & Hfree & _). destruct (Hfree ltac:(done)) as (Hrest & _).
  assert (on_queue (pages_of h) pgfreeq page) as Hpage by (unfold on_queue; rewrite E; left).
  set (h1 := with_pages p' h). assert (pages_of h1 = p') as Ep by apply pages_of_with.
  assert (quiet h h1) as Hq1.
  { split.
    - intros q. rewrite Ep, Hon. intros [[_ ?]|[_ ?]]; done.
    - intros x Hx. rewrite Ep, Hph. unfold mem_zero. rewrite in_range_false; [done|].
      destruct (decide (page ≤ x < page + PGSIZE)); [|lia]. exfalso. apply Hx. by exists page. }
  assert (able a (n + b) h1) as Ha1.
  { split; rewrite ?Ep; try done.
    - by apply ready_with.
    - unfold free_pages in *. rewrite E in Hp. rewrite Hrest. simpl in Hp. lia.
    - intros q [[_ ?]|[_ ?]]%Hon; [done|auto]. }
  destruct (IH h1 Ha1) as (pages & h' & Hrun' & Hlen & Ha' & Hq2 & HND & Hl & Hpages).
  exists (page :: pages), h'. split_and!; try done.
  - simpl. erewrite bind_step; [|unfold in_pages, in_heap; by rewrite Hrun]. fold h1.
    by rewrite (bind_step _ _ _ _ _ Hrun').
  - simpl. by rewrite Hlen.
  - by eapply quiet_trans.
  - apply NoDup_cons. split; [|done]. intros Hin. destruct (Hpages _ Hin) as [Hfp _]. rewrite Ep, Hon in Hfp.
    by destruct Hfp as [[_ ?]|[? _]].
  - intros q z. unfold h1 in Hl. by rewrite <-Hl, live_with.
  - intros q [->|Hin]%elem_of_cons.
    + split; [done|]. intros Hf. apply (qt_free _ _ Hq2) in Hf. rewrite Ep, Hon in Hf.
      by destruct Hf as [[_ ?]|[? _]].
    + destruct (Hpages _ Hin) as [Hf ?]. split; [|done]. rewrite Ep, Hon in Hf. by destruct Hf as [[_ ?]|[_ ?]].
Qed.

(** An MDL of the kernel: its pages may be written and it can be freed. *)
Record mdl_ok h (mdl : vm_mdl) : Prop := MdlOk {
  mo_offset : mdl_offset mdl = 0;
  mo_dma : dma_target (pages_of h) mdl (PGSIZE * mdl_nPages mdl);
  mo_live : heap_live h (mdl_addr mdl) (sizeof_mdl (mdl_nPages mdl));
}.

Lemma dma_target_less p mdl len len' : dma_target p mdl len →
  PGSIZE * (mdl_nPages mdl - 1) < len' ≤ len → dma_target p mdl len'.
Proof. intros [] ?. split; try done. lia. Qed.
Lemma dma_target_free p p' mdl len :
  dma_target p mdl len → (∀ page, on_queue p' pgfreeq page → on_queue p pgfreeq page) → dma_target p' mdl len.
Proof. intros [] Hf. split; naive_solver. Qed.
Lemma mdl_ok_grown h h' mdl : mdl_ok h mdl → grown h h' → mdl_ok h' mdl.
Proof. intros [? ? ?] [? ?]. split; [done|by eapply dma_target_free|auto]. Qed.

Definition pages_for (bytes : Z) : nat := Z.to_nat (PGROUNDUP bytes / PGSIZE).
Lemma pages_for_spec bytes : 0 < bytes ≤ 29 * PGSIZE →
  PGROUNDUP bytes / PGSIZE = Z.of_nat (pages_for bytes) ∧ (1 ≤ pages_for bytes ≤ 29)%nat ∧
  PGSIZE * (Z.of_nat (pages_for bytes) - 1) < bytes ≤ PGSIZE * Z.of_nat (pages_for bytes).
Proof.
  unfold pages_for, PGSIZE. intros Hb. rewrite PGROUNDUP_eq by lia. rewrite Z.div_mul by done.
  pose proof (Z.div_mod (bytes + 4095) 4096). pose proof (Z.mod_pos_bound (bytes + 4095) 4096). lia.
Qed.

(** The object of an MDL is one of the heap's small objects. *)
Lemma mdl_alloc_run n h d a b :
  (n ≤ 29)%nat → able (S a) b h →
  ∃ p h', mdl_alloc (sizeof_mdl (Z.of_nat n)) (h, d) = Ok (Some p, (h', d)) ∧ able a b h' ∧
    pages_of h' = pages_of h ∧ heap_live h' p (sizeof_mdl (Z.of_nat n)) ∧
    (∀ z, ¬ heap_live h p z) ∧ ∀ q z, heap_live h q z → heap_live h' q z.
Proof.
  intros Hn [Hr Hq Hp Hal].
  destruct (heap_alloc_spec a (sizeof_mdl (Z.of_nat n)) h Hr) as (p & h' & Hrun & Hk & Hr' & Hf & Hl & Hls);
    [unfold sizeof_mdl; lia|].
  assert (pages_of h' = pages_of h) as Ep by (unfold pages_of; by rewrite Hk).
  exists p, h'. split_and!; try done.
  - unfold mdl_alloc, in_heap. by rewrite (bind_step _ _ _ _ _ Hrun).
  - split; rewrite ?Ep; done.
Qed.

(** The pages of a new MDL, after those of an old one. *)
Lemma fresh_dma h1 h2 old pages mdl :
  able 0 0 h1 → quiet h1 h2 → NoDup pages →
  (∀ page, page ∈ pages → on_queue (pages_of h1) pgfreeq page ∧ ¬ on_queue (pages_of h2) pgfreeq page) →
  (∀ page, page ∈ old → frame_ok page ∧ ¬ on_queue (pages_of h1) pgfreeq page) → NoDup old →
  mdl_pages mdl = old ++ pages → mdl_nPages mdl = Z.of_nat (length (old ++ pages)) →
  dma_target (pages_of h2) mdl (PGSIZE * mdl_nPages mdl).
Proof.
  intros [_ _ _ Hal] Hq HND Hp Hold HNDo E En. split; rewrite ?E; try done.
  - apply NoDup_app. split_and!; try done. intros x Hx Hx'. apply (Hold x Hx). by apply Hp.
  - intros x [Hx|Hx]%elem_of_app; [by apply Hold|]. by apply Hal, Hp.
  - intros x [Hx|Hx]%elem_of_app; [|by apply Hp]. intros Hf. apply (Hold x Hx). by apply (qt_free _ _ Hq).
  - unfold PGSIZE. lia.
Qed.

Lemma mdl_new_run bytes h d a b :
  0 < bytes ≤ 29 * PGSIZE → able (S a) (pages_for bytes + b) h →
  ∃ mdl h', vm_mdl_new_with_capacity in_pages mdl_alloc bytes (h, d) = Ok ((0, Some mdl), (h', d)) ∧
    able a b h' ∧ quiet h h' ∧ mdl_ok h' mdl ∧ mdl_nPages mdl = Z.of_nat (pages_for bytes) ∧
    (∀ page, page ∈ mdl_pages mdl → on_queue (pages_of h) pgfreeq page) ∧
    ∀ q z, heap_live h q z → heap_live h' q z.
Proof.
  intros Hb Ha. destruct (pages_for_spec bytes Hb) as (En & Hn & _).
  destruct (mdl_alloc_run (pages_for bytes) h d a _ ltac:(lia) Ha) as (p & h1 & R1 & A1 & E1 & L1 & _ & L1').
  destruct (alloc_pages_run (pages_for bytes) h1 d a b A1) as (pages & h2 & R2 & Hlen & A2 & Q2 & HND & L2 & Hp).
  assert (quiet h h2) as Q by (destruct Q2 as [Q2f Q2b]; split; rewrite <-E1; done).
  set (mdl := MDL p 0 bytes (Z.of_nat (pages_for bytes)) pages).
  exists mdl, h2. split_and!; try done.
  - unfold vm_mdl_new_with_capacity. rewrite En, Nat2Z.id. rewrite (bind_step _ _ _ _ _ R1).
    by rewrite (bind_step _ _ _ _ _ R2).
  - split; [done| |by apply L2].
    eapply (fresh_dma h1 h2 [] pages); try done; [by eapply able_zero| |by apply NoDup_nil_2|simpl; by rewrite Hlen].
    by intros page []%elem_of_nil.
  - intros page Hin. rewrite <-E1. by apply Hp.
  - intros q z Hl. by apply L2, L1'.
Qed.

Lemma able_shrink n m a b h : able a (n + b) h → (m ≤ n)%nat → able a (m + (n - m + b)) h.
Proof. intros [H1 H2 H3 H4] Hm. split; try done. lia. Qed.

Lemma mdl_expand_run mdl bytes h d a b :
  mdl_ok h mdl → PGSIZE * mdl_nPages mdl < bytes ≤ 29 * PGSIZE → able (S a) (pages_for bytes + b) h →
  ∃ mdl' h', vm_mdl_expand in_pages mdl_alloc mdl_free mdl bytes (h, d) = Ok ((0, mdl'), (h', d)) ∧
    able a b h' ∧ quiet h h' ∧ mdl_offset mdl' = 0 ∧
    dma_target (pages_of h') mdl' (PGSIZE * mdl_nPages mdl') ∧ mdl_nPages mdl' = Z.of_nat (pages_for bytes) ∧
    ∀ page, page ∈ mdl_pages mdl' → page ∈ mdl_pages mdl ∨ on_queue (pages_of h) pgfreeq page.
Proof.
  intros [Ho [HNo Hal Hus Hn Hlen] Hl] Hb Ha. set (old := mdl_pages mdl) in *.
  assert (0 < bytes) by (unfold PGSIZE in *; lia).
  destruct (pages_for_spec bytes) as (En & Hpn & Hfit); [lia|].
  assert (mdl_nPages mdl < Z.of_nat (pages_for bytes)) as Hmore by (unfold PGSIZE in *; lia).
  set (k := Z.to_nat (Z.of_nat (pages_for bytes) - mdl_nPages mdl)).
  destruct (mdl_alloc_run (pages_for bytes) h d a _ ltac:(lia) Ha) as (p & h1 & R1 & A1 & E1 & L1 & Hf1 & L1').
  destruct (alloc_pages_run k h1 d a _ (able_shrink _ k _ _ _ A1 ltac:(lia)))
    as (pages & h2 & R2 & Hk & A2 & Q2 & HND & L2 & Hp).
  apply able_less with (objs := 0%nat) (objs' := a) in A2. destruct A2 as [A21 A22 A23 A24].
  assert (heap_live h2 (mdl_addr mdl) (sizeof_mdl (mdl_nPages mdl))) as Hl2 by (by apply L2, L1').
  destruct (heap_free_spec a _ _ h2 A21 Hl2) as (h3 & R3 & E3 & Rd3 & _).
  assert (pages_of h3 = pages_of h2) as Ep3 by (unfold pages_of; by rewrite E3).
  set (mdl' := MDL p 0 bytes (Z.of_nat (pages_for bytes)) (old ++ pages)).
  exists mdl', h3. split_and!; try done.
  - unfold vm_mdl_expand. rewrite En, (bind_step _ _ _ _ _ R1), (proj2 (Z.ltb_ge _ _)) by lia. fold k.
    rewrite (bind_step _ _ _ _ _ R2). erewrite bind_step by (unfold mdl_free, in_heap; by rewrite R3). done.
  - split; rewrite ?Ep3; auto.
  - destruct Q2 as [Qf Qb]. split; rewrite Ep3, <-E1; done.
  - rewrite Ep3. eapply (fresh_dma h1 h2 old pages); try done; [by eapply able_zero| |].
    + intros x Hx. split; [by apply Hal|]. rewrite E1. by apply Hus.
    + simpl. rewrite length_app. lia.
  - intros x [Hx|Hx]%elem_of_app; [by left|right]. rewrite <-E1. by apply Hp.
Qed.
End mdls.

(** ** The partition table *)

(** The structures depend on the bytes they are read from. *)
Section same_bytes.
Variables (m m' : mem) (x y len : Z).
Hypothesis H : ∀ j, 0 ≤ j < len → m (x + j) = m' (y + j).
Lemma gpt_bytes_at_same k (n : nat) : 0 ≤ k → k + Z.of_nat n ≤ len → bytes_at m (x + k) n = bytes_at m' (y + k) n.
Proof.
  intros Hk Hn. unfold bytes_at. apply list_fmap_ext. intros j z Hz%lookup_seqZ. rewrite <-!Z.add_assoc. apply H. lia.
Qed.
Lemma read64_same_bytes k : 0 ≤ k → k + 8 ≤ len → read64 m (x + k) = read64 m' (y + k).
Proof. intros Hk Hn. unfold read64. rewrite <-!Z.add_assoc. by rewrite !H by lia. Qed.
Lemma get32_same k : 0 ≤ k → k + 4 ≤ len → get32 m (x + k) = get32 m' (y + k).
Proof. intros Hk Hn. unfold get32. rewrite <-!Z.add_assoc. by rewrite !H by lia. Qed.
Lemma gpt_entry_at_same : sizeof_gpt_entry ≤ len → gpt_entry_at m x = gpt_entry_at m' y.
Proof.
  unfold sizeof_gpt_entry. intros Hl. pose proof (gpt_bytes_at_same 0 16) as H0. rewrite !Z.add_0_r in H0.
  unfold gpt_entry_at. f_equal; try (first [apply H0|apply gpt_bytes_at_same|apply read64_same_bytes]; lia).
  apply list_fmap_ext. intros j z Hz%lookup_seqZ. unfold get16. rewrite <-!Z.add_assoc. by rewrite !H by lia.
Qed.
Lemma gpt_header_at_same : sizeof_gpt_header ≤ len → gpt_header_at m x = gpt_header_at m' y.
Proof.
  unfold sizeof_gpt_header. intros Hl. pose proof (gpt_bytes_at_same 0 8) as H0. rewrite !Z.add_0_r in H0.
  unfold gpt_header_at.
  f_equal; first [apply H0|apply gpt_bytes_at_same|apply read64_same_bytes|apply get32_same]; lia.
Qed.
End same_bytes.

Section gpt.
Context {K : Type} `{!KernelHeap K} {D : Type} `{!DriveMethods (K * D)} `{!Drives K D}.
Context {F : Type} `{!DeviceNodes F}.
Variables (frame major : Z) (makedev : Z → Z → Z) (ksnprintf : Z → string → list Z → Z * string).
Abbreviation dk := (dkstate K D F).
Implicit Types (s : dk) (h : K) (d : D).

Lemma below_run {A} (m : M (K * D) A) s a b :
  m (dk_below s) = Ok (a, b) → below m s = Ok (a, Dk b (dk_devfs s) (dk_minor s) (dk_disks s)).
Proof. intros E. unfold below. by rewrite E. Qed.

(** A read into pages that were free disturbs nothing that was in use. *)
Lemma read_quiet h0 h h' mdl len data :
  quiet h0 h → grown h h' → transferred mdl len data (pages_of h) (pages_of h') →
  (∀ page, page ∈ mdl_pages mdl → on_queue (pages_of h0) pgfreeq page) → quiet h0 h'.
Proof.
  intros [Qf Qb] [Gf _] [_ _ To] Hp. split; [auto|]. intros a Ha. rewrite To.
  - by apply Qb.
  - intros page Hpage Hin. apply Ha. exists page. auto.
  - intros (page & Hpage & Hin). apply Ha. exists page. auto.
Qed.

(** The number of the objects and pages that looking for a filesystem takes. *)
Definition mount_objs : nat := S drive_objs.
Definition mount_pages : nat := S drive_pages.

Lemma mountit_run l u s h d a b :
  let self := Logical l u in
  dk_below s = (h, d) → disk_ok self → drive_ready (disk_drive self) d →
  1024 < m_maxBlockTransfer (disk_drive self) * m_blockSize (disk_drive self) →
  able (mount_objs + a) (mount_pages + b) h →
  ∃ r h' d', mountit frame self s = Ok (r, Dk (h', d') (dk_devfs s) (dk_minor s) (dk_disks s)) ∧
    able a b h' ∧ quiet h h' ∧ drive_ready (disk_drive self) d' ∧
    ∀ x, media (disk_drive self) d' x = media (disk_drive self) d x.
Proof.
  intros self Es Hok Hr Hmax Ha.
  destruct (mdl_new_run PGSIZE h d (drive_objs + a) (drive_pages + b)) as (mdl & h1 & R1 & A1 & Q1 & M1 & N1 & P1 & _);
    [unfold PGSIZE; lia|exact Ha|]. change (pages_for PGSIZE) with 1%nat in N1.
  destruct M1 as [Mo Md _].
  assert (∃ r h' d', readBytes frame self 1024 1024 mdl None (h1, d) = Ok (r, (h', d')) ∧ able a b h' ∧
    quiet h h' ∧ drive_ready (disk_drive self) d' ∧ ∀ x, media (disk_drive self) d' x = media (disk_drive self) d x)
    as (r & h2 & d2 & R2 & A2 & Q2 & Hr2 & Hm2).
  { pose proof (readBytes_correct frame self 1024 1024 mdl h1 d a b Hok Hr ltac:(lia) ltac:(lia) I ltac:(lia) A1
      ltac:(eapply dma_target_less; [exact Md|rewrite N1; unfold PGSIZE; lia])) as Hread.
    destruct (io_error self (abs_base self) 1024 1024) as [e|].
    - exists e, h1, d. split_and!; try done. by eapply able_less.
    - destruct Hread as (h' & d' & Hrun & Hr' & Hm & Ha' & Hg & Ht). exists 1024, h', d'. split_and!; try done.
      by eapply read_quiet. }
  destruct (vm_mdl_copy_correct (phys (pages_of h2)) mdl (λ _, 0) 1024 0) as (sb & Hsb & _);
    rewrite ?Mo; try lia.
  { pose proof (dt_nPages _ _ _ Md). unfold PGSIZE. lia. }
  { left. done. }
  exists (if negb (get16 sb 56 =? EXT2_SUPER_MAGIC) then - EINVAL else 0), h2, d2. split; [|done].
  unfold mountit, mdl_new. rewrite <-Es in R1. erewrite bind_step by (by apply below_run). cbn [negb].
  change (0 =? 0) with true. rewrite massert_bind, deref_bind.
  erewrite bind_step by (by apply below_run). cbn [phys_mem].
  erewrite bind_step by reflexivity. cbn [dk_below fst]. rewrite Hsb, deref_bind.
  by destruct (negb (get16 sb 56 =? EXT2_SUPER_MAGIC)).
Qed.

(** The device file of a disk. *)
Definition disk_node (minor : Z) (self : disk) : string * Z :=
  (default ""%string (snd <$> buildPosixDeviceName ksnprintf self 63), makedev major minor).

(** What registering the disks [new] of the drive [dr] does; [a], [b] and [n] say
    what can still be taken. *)
Record registered (dr : DKDrive) (a b n : nat) s s' (new : list disk) : Prop := Registered {
  rg_able : able a b (dk_below s').1;
  rg_quiet : quiet (dk_below s).1 (dk_below s').1;
  rg_ready : drive_ready dr (dk_below s').2;
  rg_media : ∀ x, media dr (dk_below s').2 x = media dr (dk_below s).2 x;
  rg_nodes : nodes_ready n (dk_devfs s');
  rg_disks : dk_disks s' = dk_disks s ++ new;
  rg_minor : dk_minor s' = dk_minor s + Z.of_nat (length new);
  rg_files : dev_nodes (dk_devfs s') =
    dev_nodes (dk_devfs s) ++ imap (λ k, disk_node (dk_minor s + Z.of_nat k)) new;
}.

Lemma registered_app dr a1 b1 n1 a b n s1 s2 s3 new1 new2 :
  registered dr a1 b1 n1 s1 s2 new1 → registered dr a b n s2 s3 new2 →
  registered dr a b n s1 s3 (new1 ++ new2).
Proof.
  intros [_ Q1 _ M1 _ D1 N1 F1] [A2 Q2 R2 M2 O2 D2 N2 F2]. split; try done.
  - by eapply quiet_trans.
  - intros x. by rewrite M2.
  - by rewrite D2, D1, app_assoc.
  - rewrite N2, N1, length_app. lia.
  - rewrite F2, F1, <-app_assoc, imap_app. do 2 f_equal. apply imap_ext. intros k x _. f_equal. rewrite N1. lia.
Qed.

Lemma init_disk_run probe u base size nm loc s a b n :
  let self := Logical (DKLogicalDisk_ base size loc nm) u in
  let dr := disk_drive self in
  match u with Drive _ => False | Logical _ _ => True end → loc ≠ 0 →
  is_Some (buildPosixDeviceName ksnprintf self 63) → disk_ok self →
  1024 < m_maxBlockTransfer dr * m_blockSize dr →
  drive_ready dr (dk_below s).2 → nodes_ready (S n) (dk_devfs s) →
  able (mount_objs + a) (mount_pages + b) (dk_below s).1 →
  ∃ s', init_disk frame major makedev ksnprintf probe u base size nm loc s = Ok (self, s') ∧
    registered dr a b n s s' [self].
Proof.
  intros self dr Hu Hloc [[r nb] Hname] Hok Hmax Hr Hn Ha.
  destruct (make_node_spec n (makedev major (dk_minor s)) nb _ Hn) as (f & Hmk & Hf & Hfn).
  destruct s as [[h d] fs mi ds]. cbn [dk_below dk_devfs dk_minor fst snd] in *.
  set (s1 := Dk (h, d) f (mi + 1) (ds ++ [self])).
  destruct (mountit_run (DKLogicalDisk_ base size loc nm) u s1 h d a b eq_refl Hok Hr Hmax Ha)
    as (e & h' & d' & Hmount & Ha' & Hq & Hr' & Hm). fold self in Hmount.
  exists (Dk (h', d') f (mi + 1) (ds ++ [self])). split; [|split; try done].
  - unfold init_disk. fold self. erewrite bind_step by reflexivity. rewrite Hname.
    erewrite bind_step by reflexivity. cbn beta iota. erewrite bind_step by reflexivity.
    erewrite bind_step by reflexivity.
    erewrite bind_step by (unfold in_devfs; cbn [dk_devfs dk_minor]; by rewrite Hmk).
    change (0 <=? 0) with true. rewrite massert_bind. fold s1.
    destruct u as [|l u]; [done|].
    erewrite bind_step by (rewrite (bind_step _ _ _ _ _ Hmount); reflexivity).
    by rewrite (proj2 (Z.eqb_neq loc 0)) by done.
  - unfold disk_node. cbn -[buildPosixDeviceName]. fold self. rewrite Hname, Hfn. simpl. by rewrite Z.add_0_r.
Qed.

(** The buffers in use keep their bytes. *)
Lemma quiet_mdl h h' mdl len x :
  able 0 0 h → quiet h h' → dma_target (pages_of h) mdl len → 0 ≤ x < PGSIZE * mdl_nPages mdl →
  mdl_byte (phys (pages_of h')) (mdl_pages mdl) x = mdl_byte (phys (pages_of h)) (mdl_pages mdl) x.
Proof.
  intros [_ _ _ Hal] [_ Qb] [_ Hpa Hus Hn _] Hx. unfold mdl_byte. apply Qb. intros (q & Hq & Hin).
  pose proof (Z.div_mod x PGSIZE) as Hdm. pose proof (Z.mod_pos_bound x PGSIZE) as Hmb.
  unfold PGSIZE in *.
  assert (Z.to_nat (x / 4096) < length (mdl_pages mdl))%nat as Hlt
    by (assert (0 ≤ x / 4096) by (apply Z.div_pos; lia); lia).
  destruct (lookup_lt_is_Some_2 _ _ Hlt) as [page Hpage]. rewrite Hpage in Hin. simpl in Hin.
  apply list_elem_of_lookup_2 in Hpage. pose proof (Hal _ Hq). pose proof (Hpa _ Hpage).
  apply (Hus page Hpage). rewrite <-(frame_unique q page (page + x mod 4096)); unfold PGSIZE; (done || lia).
Qed.

Section table.
Variables (self : disk) (img : Z → Z) (hdr : gpt_header).
Let dr := disk_drive self.
Let array := blockSize self * gh_lbaEntryArrayStart hdr.
Let siz := gh_sizEntry hdr * gh_nEntries hdr.

(** The [i]th entry, and the disk it stands for. *)
Definition table_entry (i : Z) : gpt_entry := gpt_entry_at img (array + gh_sizEntry hdr * i).
Definition entry_used (i : Z) : bool := uuid_is_null (ge_type (table_entry i)) =? 0.
Definition gpt_disk (i : Z) : option disk :=
  let ent := table_entry i in
  if entry_used i then
    Some (Logical (DKLogicalDisk_ (blockSize self * ge_lbaStart ent)
            ((ge_lbaEnd ent - ge_lbaStart ent) * blockSize self) (i + 1) (partname ent)) self)
  else None.
Definition gpt_disks (i : Z) (n : nat) : list disk := omap gpt_disk (seqZ i (Z.of_nat n)).

(** A table that the code can read: whole blocks that one transfer can do and an
    MDL of the heap's small objects describes, entries inside the disk. *)
Record table_ok : Prop := TableOk {
  tb_entry : 0 < gh_sizEntry hdr ∧ gh_sizEntry hdr mod sizeof_gpt_entry = 0;
  tb_size : 0 < siz ≤ 29 * PGSIZE;
  tb_blocks : siz mod m_blockSize dr = 0 ∧ siz < m_maxBlockTransfer dr * m_blockSize dr;
  tb_array : 0 ≤ array ∧ array + siz ≤ disk_size self;
  tb_used i : 0 ≤ i < gh_nEntries hdr → entry_used i = true →
    0 ≤ ge_lbaStart (table_entry i) ≤ ge_lbaEnd (table_entry i) ∧
    blockSize self * ge_lbaEnd (table_entry i) ≤ disk_size self;
}.

Lemma blockSize_drive (u : disk) : blockSize u = m_blockSize (disk_drive u).
Proof. by induction u. Qed.

Lemma gpt_disk_ok i p :
  disk_ok self → table_ok → 0 ≤ i < gh_nEntries hdr → gpt_disk i = Some p →
  disk_ok p ∧ disk_drive p = dr.
Proof.
  intros Hok Ht Hi E. destruct (disk_ok_facts _ Hok) as (Hbs & _). unfold gpt_disk in E.
  destruct (entry_used i) eqn:Eu; [|done]. destruct (tb_used Ht i Hi Eu) as [Hse Hin].
  rewrite (blockSize_drive self) in Hin, E. fold dr in Hbs, Hin, E |- *. simplify_eq. split; [|done].
  cbn [disk_ok m_base m_size]. split_and!; try done; nia.
Qed.


(** One entry, copied out of the buffer that holds the table. *)
Lemma entry_copy m mdl i :
  table_ok → mdl_offset mdl = 0 → mdl_nPages mdl = Z.of_nat (length (mdl_pages mdl)) →
  siz ≤ PGSIZE * mdl_nPages mdl → (∀ x, 0 ≤ x < siz → mdl_byte m (mdl_pages mdl) x = img (array + x)) →
  0 ≤ i < gh_nEntries hdr →
  ∃ buf, vm_mdl_copy m mdl (λ _, 0) sizeof_gpt_entry (w32 (gh_sizEntry hdr * i)) = Some buf ∧
    gpt_entry_at buf 0 = table_entry i.
Proof.
  intros [[Hse Hmod] Hsz _ _ _] Ho Hn Hfit Hdata Hi. unfold sizeof_gpt_entry, PGSIZE in *.
  assert (0 ≤ gh_sizEntry hdr * i) by nia.
  assert (gh_sizEntry hdr * i + gh_sizEntry hdr ≤ siz) by (unfold siz; nia).
  rewrite w32_small by lia.
  assert ((gh_sizEntry hdr * i) mod 128 = 0) as Hm
    by (rewrite <-Z.mul_mod_idemp_l, Hmod by lia; done).
  assert (128 ≤ gh_sizEntry hdr) by (Z.div_mod_to_equations; lia).
  destruct (vm_mdl_copy_correct m mdl (λ _, 0) 128 (gh_sizEntry hdr * i)) as (buf & Hrun & Hbuf);
    rewrite ?Ho, ?Z.add_0_r; unfold PGSIZE; try lia.
  { right. generalize dependent (gh_sizEntry hdr * i). intros z Hz Hz' Hzm. Z.div_mod_to_equations. lia. }
  exists buf. split; [done|]. unfold table_entry. apply (gpt_entry_at_same _ _ _ _ 128); [|done].
  intros j Hj. rewrite Z.add_0_l, Hbuf, in_range_true by lia.
  rewrite Ho, Z.add_0_r, <-Z.add_assoc. apply Hdata. lia.
Qed.

Hypothesis (Hself : match self with Drive _ => False | Logical _ _ => True end) (Hok : disk_ok self).
Hypothesis (Htab : table_ok) (Hmax : 1024 < m_maxBlockTransfer dr * m_blockSize dr).
Hypothesis Hnames : ∀ l, is_Some (buildPosixDeviceName ksnprintf (Logical l self) 63).

(** The buffer holds the table. *)
Record table_in (h : K) (mdl : vm_mdl) : Prop := TableIn {
  ti_offset : mdl_offset mdl = 0;
  ti_dma : dma_target (pages_of h) mdl (PGSIZE * mdl_nPages mdl);
  ti_fit : siz ≤ PGSIZE * mdl_nPages mdl;
  ti_data : ∀ x, 0 ≤ x < siz → mdl_byte (phys (pages_of h)) (mdl_pages mdl) x = img (array + x);
}.
Lemma table_in_quiet h h' mdl : able 0 0 h → quiet h h' → table_in h mdl → table_in h' mdl.
Proof.
  intros Ha Hq [? Hd ? Ht]. split; try done.
  - eapply dma_target_free; [done|]. apply Hq.
  - intros x Hx. rewrite <-Ht by done. eapply quiet_mdl; try done. lia.
Qed.

Lemma gpt_disk_run i ent s a b n :
  0 ≤ i < gh_nEntries hdr → ent = table_entry i → drive_ready dr (dk_below s).2 → nodes_ready (S n) (dk_devfs s) →
  able (mount_objs + a) (mount_pages + b) (dk_below s).1 →
  ∃ s', (if negb (uuid_is_null (ge_type ent) =? 0) then mret () else
         _ ← init_disk frame major makedev ksnprintf (λ _, undef "location 0") self
               (s64 (blockSize self * ge_lbaStart ent))
               (w64 ((ge_lbaEnd ent - ge_lbaStart ent) * blockSize self)) (partname ent) (i + 1);
         mret ()) s = Ok ((), s') ∧
    registered dr a b n s s' (option_list (gpt_disk i)).
Proof.
  intros Hi -> Hr Hn Ha. pose proof (gpt_disk_ok i) as Hg. unfold gpt_disk, entry_used in *.
  destruct (uuid_is_null (ge_type (table_entry i)) =? 0) eqn:Eu.
  - destruct (Hg _ Hok Htab Hi eq_refl) as [Hp Hpd]. clear Hg. cbn [negb option_list].
    destruct (tb_used Htab i Hi Eu) as [Hse Hin]. destruct (disk_ok_facts _ Hok) as (Hbs & _ & _ & _ & _ & Htop).
    rewrite (blockSize_drive self) in Hin, Hp, Hpd |- *. fold dr in Hbs, Hin, Hp, Hpd |- *.
    assert (0 ≤ m_blockSize dr * ge_lbaStart (table_entry i) ∧
      0 ≤ (ge_lbaEnd (table_entry i) - ge_lbaStart (table_entry i)) * m_blockSize dr ≤
        m_blockSize dr * ge_lbaEnd (table_entry i)) by (split; nia).
    assert (m_blockSize dr * ge_lbaStart (table_entry i) ≤ m_blockSize dr * ge_lbaEnd (table_entry i)) by nia.
    pose proof (disk_ok_facts _ Hok) as (_ & _ & _ & Hb0 & _ & _).
    rewrite w64_small by lia. replace (s64 _) with (m_blockSize dr * ge_lbaStart (table_entry i))
      by (unfold s64; rewrite Z.mod_small; lia).
    destruct (init_disk_run (λ _, undef "location 0") self (m_blockSize dr * ge_lbaStart (table_entry i))
      ((ge_lbaEnd (table_entry i) - ge_lbaStart (table_entry i)) * m_blockSize dr) (partname (table_entry i))
      (i + 1) s a b n) as (s' & Hrun & Hreg); try done; [lia|].
    exists s'. split; [|done]. by rewrite (bind_step _ _ _ _ _ Hrun).
  - exists s. split; [done|]. split; try done.
    + by eapply able_less.
    + by apply nodes_ready_less.
    + by rewrite app_nil_r.
    + simpl. lia.
    + by rewrite app_nil_r.
Qed.

Lemma gpt_entries_run n i mdl s a b m :
  0 ≤ i → i + Z.of_nat n ≤ gh_nEntries hdr → table_in (dk_below s).1 mdl →
  drive_ready dr (dk_below s).2 → nodes_ready (n + m) (dk_devfs s) →
  able (n * mount_objs + a) (n * mount_pages + b) (dk_below s).1 →
  ∃ s', gpt_entries frame major makedev ksnprintf self mdl hdr i n s = Ok ((), s') ∧
    registered dr a b m s s' (gpt_disks i n).
Proof.
  revert i s. induction n as [|n IH]; intros i s Hi Hle Ht Hr Hn Ha.
  { exists s. split; [done|]. unfold gpt_disks. simpl. split; rewrite ?app_nil_r; try done. simpl. lia. }
  destruct (gpt_disk_run i (table_entry i) s (n * mount_objs + a) (n * mount_pages + b) (n + m))
    as (s1 & R1 & G1); try done; [lia|by rewrite !Nat.add_assoc|].
  destruct (IH (i + 1) s1) as (s' & R2 & G2); [lia|lia| |by apply G1..|].
  { eapply table_in_quiet; [by eapply able_zero|apply G1|done]. }
  exists s'. split.
  - destruct Ht as [Ho Hd Hfit Hdata].
    destruct (entry_copy (phys (pages_of (dk_below s).1)) mdl i Htab Ho (dt_nPages _ _ _ Hd) Hfit Hdata)
      as (buf & Hbuf & Hent); [lia|].
    cbn [gpt_entries]. erewrite bind_step by reflexivity. rewrite Hbuf, deref_bind.
    rewrite Hent. by rewrite (bind_step _ _ _ _ _ R1).
  - replace (gpt_disks i (S n)) with (option_list (gpt_disk i) ++ gpt_disks (i + 1) n).
    + by eapply registered_app.
    + unfold gpt_disks. rewrite (seqZ_cons i) by lia. rewrite Nat2Z.inj_succ, Z.pred_succ. cbn [omap list_omap].
      by destruct (gpt_disk i).
Qed.

Hypothesis (Halign : abs_base self mod m_blockSize dr = 0) (Hn0 : 0 ≤ gh_nEntries hdr).

(** A read of whole blocks of the disk into pages that were free at [h0]. *)
Lemma read_blocks_run h0 off nBytes mdl h d a b :
  drive_ready dr d → (∀ x, media dr d (abs_base self + x) = img x) →
  0 ≤ off → 0 < nBytes → off mod m_blockSize dr = 0 → nBytes mod m_blockSize dr = 0 →
  off + nBytes ≤ disk_size self → nBytes < m_maxBlockTransfer dr * m_blockSize dr →
  quiet h0 h → (∀ page, page ∈ mdl_pages mdl → on_queue (pages_of h0) pgfreeq page) →
  dma_target (pages_of h) mdl nBytes → able (drive_objs + a) (drive_pages + b) h →
  ∃ h' d', readBytes frame self nBytes off mdl None (h, d) = Ok (nBytes, (h', d')) ∧
    drive_ready dr d' ∧ (∀ x, media dr d' x = media dr d x) ∧ able a b h' ∧ quiet h0 h' ∧ grown h h' ∧
    ∀ x, 0 ≤ x < nBytes → mdl_byte (phys (pages_of h')) (mdl_pages mdl) x = img (off + x).
Proof.
  intros Hr Himg Ho Hn Hmo Hmn Hin Hlt Hq Hp Hd Ha.
  destruct (disk_ok_facts _ Hok) as (Hbs & _ & Hlim & Hb0 & _ & Htop). fold dr in Hbs, Hlim.
  pose proof (readBytes_correct frame self nBytes off mdl h d a b Hok Hr ltac:(lia) ltac:(lia)
    ltac:(by apply drive_bound) ltac:(fold dr; lia) Ha Hd) as Hread.
  assert (io_error self (abs_base self) nBytes off = None) as He.
  { apply io_error_inside; fold dr; try done; [lia|].
    rewrite <-Z.add_mod_idemp_l, <-Z.add_mod_idemp_r, Hmo, Halign by lia. apply Z.mod_0_l. lia. }
  rewrite He in Hread. destruct Hread as (h' & d' & Hrun & Hr' & Hm & Ha' & Hg & Ht).
  exists h', d'. split_and!; try done.
  - by eapply read_quiet.
  - intros x Hx. rewrite (tr_data _ _ _ _ _ Ht x Hx), <-Himg. f_equal. lia.
Qed.

Lemma below_bind {A B} (m : M (K * D) A) (f : A → M dk B) s a h d :
  m (dk_below s) = Ok (a, (h, d)) →
  (below m ≫= f) s = f a (Dk (h, d) (dk_devfs s) (dk_minor s) (dk_disks s)).
Proof. intros E. by rewrite (bind_step _ _ _ _ _ (below_run _ _ _ _ E)). Qed.

(** The buffer for the table: the header's, made larger if need be. *)
Lemma table_buffer_run {B} h0 mdl s h d a b (f : vm_mdl → M dk B) :
  dk_below s = (h, d) → mdl_ok h mdl → mdl_nPages mdl = 1 → quiet h0 h →
  (∀ page, page ∈ mdl_pages mdl → on_queue (pages_of h0) pgfreeq page) →
  able (S a) (pages_for siz + b) h →
  ∃ mdl' h', (mdl ← (if vm_mdl_capacity mdl <? siz then
           '(r, mdl) ← mdl_expand mdl siz;
           massert (0 <=? r) "assert(r >= 0)";; mret mdl
         else mret mdl); f mdl) s = f mdl' (Dk (h', d) (dk_devfs s) (dk_minor s) (dk_disks s)) ∧
    able a b h' ∧ quiet h0 h' ∧ mdl_offset mdl' = 0 ∧
    dma_target (pages_of h') mdl' (PGSIZE * mdl_nPages mdl') ∧
    PGSIZE * (mdl_nPages mdl' - 1) < siz ≤ PGSIZE * mdl_nPages mdl' ∧
    ∀ page, page ∈ mdl_pages mdl' → on_queue (pages_of h0) pgfreeq page.
Proof.
  intros Es Hm Hn Hq Hp Ha. unfold vm_mdl_capacity. rewrite Hn, w64_small by (unfold PGSIZE; lia).
  pose proof (tb_size Htab) as Hs. case (Z.ltb_spec (1 * PGSIZE) siz) as [Hlt|Hge].
  - destruct (mdl_expand_run mdl siz h d a b Hm) as (mdl' & h' & Hrun & Ha' & Hq' & Ho & Hd & Hn' & Hp');
      [rewrite Hn; lia|done|].
    exists mdl', h'. rewrite <-Es in Hrun. split_and!; try done.
    + erewrite bind_step; [done|]. unfold mdl_expand. by rewrite (below_bind _ _ _ _ _ _ Hrun).
    + by eapply quiet_trans.
    + rewrite Hn'. apply (pages_for_spec siz Hs).
    + rewrite Hn'. apply (pages_for_spec siz Hs).
    + intros page [Hin|Hin]%Hp'; [auto|]. by apply (qt_free _ _ Hq).
  - destruct Hm as [Ho Hd _]. exists mdl, h. split_and!; try done; [|by apply (able_less 1 (pages_for siz))|lia..].
    erewrite bind_step by reflexivity. rewrite <-Es. by destruct s.
Qed.

(** What reading a table of [n] entries takes. *)
Definition probe_objs : nat := S (drive_objs + S (drive_objs + Z.to_nat (gh_nEntries hdr) * mount_objs)).
Definition probe_pages : nat :=
  S (drive_pages + (pages_for siz + (drive_pages + Z.to_nat (gh_nEntries hdr) * mount_pages))).

Lemma gpt_init_run h0 mdl s h d a b m :
  dk_below s = (h, d) → mdl_ok h mdl → mdl_nPages mdl = 1 → quiet h0 h →
  (∀ page, page ∈ mdl_pages mdl → on_queue (pages_of h0) pgfreeq page) →
  drive_ready dr d → (∀ x, media dr d (abs_base self + x) = img x) →
  nodes_ready (Z.to_nat (gh_nEntries hdr) + m) (dk_devfs s) →
  able (S (drive_objs + (Z.to_nat (gh_nEntries hdr) * mount_objs + a)))
    (pages_for siz + (drive_pages + (Z.to_nat (gh_nEntries hdr) * mount_pages + b))) h →
  ∃ h1 d1 s', gpt_init frame major makedev ksnprintf self mdl hdr s = Ok ((), s') ∧
    quiet h0 h1 ∧ (∀ x, media dr d1 x = media dr d x) ∧
    registered dr a b m (Dk (h1, d1) (dk_devfs s) (dk_minor s) (dk_disks s)) s'
      (gpt_disks 0 (Z.to_nat (gh_nEntries hdr))).
Proof.
  intros Es Hm Hn1 Hq Hp Hr Himg Hno Ha. unfold gpt_init.
  pose proof (tb_size Htab) as Hsz. pose proof (tb_array Htab) as Harr. destruct (tb_blocks Htab) as [Hsm Hsl].
  rewrite (w32_small (gh_sizEntry hdr * gh_nEntries hdr)) by (fold siz; unfold PGSIZE in *; lia). fold siz.
  destruct (disk_ok_facts _ Hok) as (Hbs & _ & _ & Hb0 & _ & Htop). fold dr in Hbs.
  destruct (table_buffer_run h0 mdl s h d _ _ (λ mdl,
    r ← below (readBytes frame self siz (s64 (blockSize self * gh_lbaEntryArrayStart hdr)) mdl None);
    massert (0 <=? r) "assert(r >= 0)";;
    gpt_entries frame major makedev ksnprintf self mdl hdr 0 (Z.to_nat (gh_nEntries hdr))) Es Hm Hn1 Hq Hp Ha)
    as (mdl' & h1 & R1 & A1 & Q1 & O1 & D1 & F1 & P1).
  rewrite R1. clear R1. fold array.
  replace (s64 array) with array by (unfold s64; rewrite Z.mod_small; lia).
  destruct (read_blocks_run h0 array siz mdl' h1 d
      (Z.to_nat (gh_nEntries hdr) * mount_objs + a) (Z.to_nat (gh_nEntries hdr) * mount_pages + b)
      Hr Himg ltac:(lia) ltac:(lia)) as
    (h2 & d2 & R2 & Hr2 & M2 & A2 & Q2 & G2 & T2); try done; try lia.
  { unfold array. rewrite blockSize_drive, Z.mul_comm. apply Z.mod_mul. fold dr. lia. }
  { by eapply dma_target_less. }
  erewrite below_bind by exact R2. rewrite (proj2 (Z.leb_le 0 siz)), massert_bind by lia.
  destruct (gpt_entries_run (Z.to_nat (gh_nEntries hdr)) 0 mdl' (Dk (h2, d2) (dk_devfs s) (dk_minor s) (dk_disks s)) a b m)
    as (s' & R3 & G3); try done; [lia| |].
  { split; [done|eapply dma_target_free; [done|]; apply G2|lia|done]. }
  by exists h2, d2, s'.
Qed.
End table.

(** A disk whose second block may hold a header, and then a table; [img] is
    what the disk holds. *)
Record gpt_image (self : disk) (img : Z → Z) : Prop := GptImage {
  gi_ok : disk_ok self;
  gi_logical : match self with Drive _ => False | Logical _ _ => True end;
  gi_block : sizeof_gpt_header ≤ blockSize self ≤ PGSIZE ∧ 2 * blockSize self ≤ disk_size self;
  gi_align : abs_base self mod blockSize self = 0;
  gi_max : 1 < m_maxBlockTransfer (disk_drive self) ∧
    1024 < m_maxBlockTransfer (disk_drive self) * m_blockSize (disk_drive self);
  gi_table : gh_signature (gpt_header_at img (blockSize self)) = efi_part →
    0 ≤ gh_nEntries (gpt_header_at img (blockSize self)) ∧
    table_ok self img (gpt_header_at img (blockSize self));
}.

(** The first two steps: an MDL, and the block with the header in it. *)
Lemma gpt_header_run self img h d a b :
  let dr := disk_drive self in
  gpt_image self img → drive_ready dr d → (∀ x, media dr d (abs_base self + x) = img x) →
  able (S (drive_objs + a)) (S (drive_pages + b)) h →
  ∃ mdl page h1 h2 d2,
    vm_mdl_new_with_capacity in_pages mdl_alloc sizeof_gpt_header (h, d) = Ok ((0, Some mdl), (h1, d)) ∧
    readBytes frame self (blockSize self) (blockSize self * 1) mdl None (h1, d) = Ok (blockSize self, (h2, d2)) ∧
    mdl_ok h2 mdl ∧ mdl_nPages mdl = 1 ∧ mdl_pages mdl !! 0%nat = Some page ∧
    gpt_header_at (phys (pages_of h2)) page = gpt_header_at img (blockSize self) ∧
    (∀ page, page ∈ mdl_pages mdl → on_queue (pages_of h) pgfreeq page) ∧
    able a b h2 ∧ quiet h h2 ∧ drive_ready dr d2 ∧ ∀ x, media dr d2 x = media dr d x.
Proof.
  intros dr [Hok _ [Hbs Hin] Hal [Hm1 _] _] Hr Himg Ha.
  assert (blockSize self = m_blockSize dr) as Eb by apply blockSize_drive. fold dr in Hm1.
  change sizeof_gpt_header with 96 in *.
  destruct (mdl_new_run 96 h d (drive_objs + a) (drive_pages + b)) as (mdl & h1 & R1 & A1 & Q1 & M1 & N1 & P1 & _);
    [unfold PGSIZE; lia|exact Ha|]. change (Z.of_nat (pages_for 96)) with 1 in N1.
  destruct (read_blocks_run self img (gpt_header_at img 0) Hok ltac:(by rewrite <-blockSize_drive)
    h (blockSize self * 1) (blockSize self) mdl h1 d a b Hr Himg) as (h2 & d2 & R2 & Hr2 & M2 & A2 & Q2 & G2 & T2);
    try done; fold dr; rewrite ?Z.mul_1_r, <-?Eb; try lia; try (by apply Z_mod_same_full).
  { nia. }
  { eapply dma_target_less; [apply M1|]. rewrite N1. lia. }
  rewrite Z.mul_1_r in R2, T2. pose proof (mo_dma _ _ M1) as Hd. pose proof (dt_nPages _ _ _ Hd) as Hlen. rewrite N1 in Hlen.
  destruct (mdl_pages mdl) as [|page l] eqn:Ep; [done|].
  exists mdl, page, h1, h2, d2. split_and!; try done.
  - by eapply mdl_ok_grown.
  - by rewrite Ep.
  - apply (gpt_header_at_same _ _ _ _ 96); [|done]. intros j Hj. rewrite <-T2 by lia.
    unfold mdl_byte, PGSIZE. rewrite Z.div_small, Z.mod_small by lia. done.
  - by rewrite Ep.
Qed.

(** What probing takes, for any header. *)
Lemma probe_header_run self img s a b :
  let dr := disk_drive self in
  let hdr := gpt_header_at img (blockSize self) in
  gpt_image self img → drive_ready dr (dk_below s).2 →
  (∀ x, media dr (dk_below s).2 (abs_base self + x) = img x) →
  able (S (drive_objs + a)) (S (drive_pages + b)) (dk_below s).1 →
  ∃ mdl h2 d2,
    gpt_probe frame major makedev ksnprintf self s =
      ((if negb (bool_decide (gh_signature hdr = efi_part)) then mret false else
        gpt_init frame major makedev ksnprintf self mdl hdr;; mret true) : M dk bool)
        (Dk (h2, d2) (dk_devfs s) (dk_minor s) (dk_disks s)) ∧
    mdl_ok h2 mdl ∧ mdl_nPages mdl = 1 ∧
    (∀ page, page ∈ mdl_pages mdl → on_queue (pages_of (dk_below s).1) pgfreeq page) ∧
    able a b h2 ∧ quiet (dk_below s).1 h2 ∧ drive_ready dr d2 ∧
    ∀ x, media dr d2 x = media dr (dk_below s).2 x.
Proof.
  intros dr hdr Hi Hr Himg Ha. destruct (dk_below s) as [h d] eqn:Es. cbn [fst snd] in *.
  destruct (gpt_header_run self img h d a b Hi Hr Himg Ha) as
    (mdl & page & h1 & h2 & d2 & R1 & R2 & M2 & N2 & Pg & Hd & P2 & A2 & Q2 & Hr2 & Hm2).
  exists mdl, h2, d2. split_and!; try done.
  unfold gpt_probe, mdl_new. rewrite <-Es in R1. erewrite below_bind by exact R1. cbn beta iota.
  change (negb (0 =? 0)) with false. cbv iota. rewrite deref_bind. erewrite below_bind by exact R2.
  destruct (gi_block _ _ Hi) as [Hbs _].
  rewrite (proj2 (Z.leb_le 0 (blockSize self))), massert_bind by (unfold sizeof_gpt_header in Hbs; lia).
  erewrite bind_step by reflexivity. cbn [fst dk_below]. by rewrite Pg, deref_bind, Hd.
Qed.

Lemma nodes_ready_drop n m (f : F) : nodes_ready (n + m) f → nodes_ready m f.
Proof. induction n; eauto using nodes_ready_less. Qed.

(** C34: Probing a disk for a partition table.  Without the signature no disk is made.
    With it, and a table that the code can read, there is a new disk for each entry in use,
    in order, from its first block up to but not including its last, with a device
    file of its own; each lies inside the disk; and the drive holds what it held. *)
Theorem gpt_probe_correct self img s a b m :
  let dr := disk_drive self in
  let hdr := gpt_header_at img (blockSize self) in
  gpt_image self img → (∀ l, is_Some (buildPosixDeviceName ksnprintf (Logical l self) 63)) →
  drive_ready dr (dk_below s).2 → (∀ x, media dr (dk_below s).2 (abs_base self + x) = img x) →
  nodes_ready (Z.to_nat (gh_nEntries hdr) + m) (dk_devfs s) →
  able (probe_objs hdr + a) (probe_pages hdr + b) (dk_below s).1 →
  let found := if decide (gh_signature hdr = efi_part)
               then gpt_disks self img hdr 0 (Z.to_nat (gh_nEntries hdr)) else [] in
  ∃ s', gpt_probe frame major makedev ksnprintf self s = Ok (bool_decide (gh_signature hdr = efi_part), s') ∧
    registered dr a b m s s' found ∧
    ∀ p, p ∈ found → disk_ok p ∧ disk_drive p = dr.
Proof.
  intros dr hdr Hi Hnames Hr Himg Hno Ha found. set (n := Z.to_nat (gh_nEntries hdr)) in *.
  set (a1 := (S (drive_objs + (n * mount_objs + a)))%nat).
  set (b1 := (pages_for (gh_sizEntry hdr * gh_nEntries hdr) + (drive_pages + (n * mount_pages + b)))%nat).
  destruct (probe_header_run self img s a1 b1 Hi Hr Himg) as (mdl & h2 & d2 & -> & M2 & N2 & P2 & A2 & Q2 & Hr2 & Hm2).
  { replace (S (drive_objs + a1)) with (probe_objs hdr + a)%nat by (unfold probe_objs, a1; fold n; lia).
    replace (S (drive_pages + b1)) with (probe_pages hdr + b)%nat by (unfold probe_pages, b1; fold n; lia). done. }
  fold hdr. set (s2 := Dk (h2, d2) (dk_devfs s) (dk_minor s) (dk_disks s)).
  unfold found. destruct (decide (gh_signature hdr = efi_part)) as [Hs|Hs].
  - rewrite bool_decide_true by done. cbn [negb]. destruct (gi_table _ _ Hi Hs) as [Hn0 Htab].
    destruct Hi as [Hok Hlog _ Hal [_ Hmax] _]. rewrite (blockSize_drive self) in Hal.
    destruct (gpt_init_run self img hdr Hlog Hok Htab Hmax Hnames Hal Hn0 (dk_below s).1 mdl s2 h2 d2 a b m)
      as (h3 & d3 & s' & R3 & Q3 & Hm3 & G3); try done.
    { intros x. by rewrite Hm2. }
    exists s'. split; [by rewrite (bind_step _ _ _ _ _ R3)|]. split.
    + destruct G3 as [Ga Gq Gr Gm Gn Gd Gmi Gf]. cbn [dk_below dk_devfs dk_minor dk_disks fst snd] in *.
      split; try done; [by eapply quiet_trans|]. intros x. by rewrite Gm, Hm3, Hm2.
    + intros p (i & Hi & Hp)%list_elem_of_omap. apply elem_of_seqZ in Hi.
      apply (gpt_disk_ok self img hdr i); try done. unfold n in Hi. fold hdr in Hn0. lia.
  - rewrite bool_decide_false by done. cbn [negb]. exists s2. split; [done|].
    split; [|by intros p []%elem_of_nil]. split; cbn; rewrite ?app_nil_r; try done; [|by eapply nodes_ready_drop|lia].
    apply (able_less (S (drive_objs + n * mount_objs)) (b1 - b)).
    replace (b1 - b + b)%nat with b1 by (unfold b1; lia). unfold a1 in A2.
    by replace (S (drive_objs + n * mount_objs) + a)%nat with (S (drive_objs + (n * mount_objs + a))) by lia.
Qed.
End gpt.

(** ** A disk with two partitions *)

(** 64 blocks; a header in the second with a table of four entries in the third:
    blocks 3 to 9 and 10 to 63, and two that are not used. *)
Definition demo_bytes : list (Z * Z) :=
  imap (λ i b, (512 + Z.of_nat i, b)) efi_part ++
  [(584, 2); (592, 4); (596, 128);
   (1024, 7); (1056, 3); (1064, 9); (1280, 7); (1312, 10); (1320, 63)].
Definition demo_img : Z → Z := λ x, default 0 (snd <$> list_find (λ y, y.1 = x) demo_bytes ≫= λ y, Some y.2).

Lemma demo_image : gpt_image demo_disk demo_img.
Proof.
  split; [exact demo_disk_ok|exact I|by vm_compute..|].
  intros _. split; [by vm_compute|]. split; [by vm_compute..|].
  intros i Hi _. assert (i = 0 ∨ i = 1 ∨ i = 2 ∨ i = 3) as [->|[->|[->| ->]]]; [|by vm_compute..].
  change (gh_nEntries _) with 4 in Hi. lia.
Qed.

(** The names of the first drive and of its first partitions. *)
Definition demo_fmt : Z → string → list Z → Z * string := λ _ fmt args,
  if String.eqb fmt "dk%d" then (3, "dk0"%string)
  else (2, String.append "s" (String (Ascii.ascii_of_nat (48 + Z.to_nat (default 0 (head args)))) EmptyString)).
