(* ===== verification/Nvme.v ===== *)
(** * The queues of an NVMe controller: dev/NVMeController.m

    A queue pair is two rings in memory: the driver writes commands into the
    submission ring and tells the device its tail, the device writes completions
    into the other, marked with a phase bit that changes with each turn of the
    ring, and the driver tells it its head.  Commands finish in any order; the command's
    identifier leads back to the request.

    The driver's part are functions; the device's part, which is hardware, is what
    the NVMe specification says of it: it fetches commands in order, completes any
    of those it has fetched when the completion ring has room, with a status, which is
    0 unless there was an error, and flips its phase at the end of the ring.
    [nvme_step] interleaves them, with the threads that hold a request they have not
    submitted yet; its first argument says whether the device may report errors, at
    which the driver stops the kernel. *)

From S2P Require Import Prelude VmPage.
Open Scope Z_scope.

(** ** The rings and the requests *)

(** [PGSIZE / sizeof(struct nvme_sqe)], for both rings. *)
Definition slots : Z := PGSIZE / 64.

(** [struct nvme_sqe_io], as far as it is filled in. *)
Record nvme_sqe := Sqe {
  e_opcode : Z;
  e_cid : Z;
  e_nsid : Z;
  e_prp0 : Z;
  e_prp1 : Z;
  e_slba : Z;
  e_nlb : Z;
}.
Definition sqe_zero : nvme_sqe := Sqe 0 0 0 0 0 0 0.
Definition set_cid (c : Z) (e : nvme_sqe) : nvme_sqe :=
  Sqe (e_opcode e) c (e_nsid e) (e_prp0 e) (e_prp1 e) (e_slba e) (e_nlb e).
(** [struct nvme_cqe] *)
Record nvme_cqe := Cqe { c_cid : Z; c_flags : Z }.
(** [struct nvme_request]; its command identifier is its index.  [None] is NULL. *)
Record nvme_request := Request { rq_completion : option Z; rq_nbytes : Z }.

(** [struct nvme_queue], the requests that are free by their index, the two
    doorbells, and the completions that were called with their results. *)
Record nvme_queue := Queue {
  req_q : list Z;
  reqs : list nvme_request;
  sq : list nvme_sqe;
  cq : list nvme_cqe;
  sqtail : Z;
  cqhead : Z;
  phase : Z;
  sqtdbl : Z;
  cqhdbl : Z;
  calls : list (Z * Z);
}.

(** [queue_alloc]: the pages of the rings are zero. *)
Definition queue_alloc : nvme_queue :=
  Queue (seqZ 0 slots) (replicate (Z.to_nat slots) (Request None 0))
    (replicate (Z.to_nat slots) sqe_zero) (replicate (Z.to_nat slots) (Cqe 0 0)) 0 0 1 0 0 [].

(** [if (++i == slots) i = 0]. *)
Definition ring_next (i : Z) : Z := if i + 1 =? slots then 0 else i + 1.

(** The start of [readBlocks]: the last free request, and its fields. *)
Definition take_request (completion nbytes : Z) : M nvme_queue Z :=
  q ← mget;
  match last (req_q q) with
  | None => fatal "assert(req != NULL)"
  | Some c =>
      mput (Queue (tq_remove (λ x, x) c (req_q q)) (<[Z.to_nat c := Request (Some completion) nbytes]> (reqs q))
              (sq q) (cq q) (sqtail q) (cqhead q) (phase q) (sqtdbl q) (cqhdbl q) (calls q));;
      mret c
  end.

Definition submitRequest (req : Z) (sqe : nvme_sqe) : M nvme_queue Z :=
  q ← mget;
  let tail := ring_next (sqtail q) in
  mput (Queue (req_q q) (reqs q) (<[Z.to_nat (sqtail q) := set_cid req sqe]> (sq q)) (cq q)
          tail (cqhead q) (phase q) tail (cqhdbl q) (calls q));;
  mret 0.

(** One turn of the loop of [queueCompleteRequests]: whether it goes on. *)
Definition complete_turn : M nvme_queue bool :=
  q ← mget;
  e ← deref (cq q !! Z.to_nat (cqhead q)) "cq";
  if negb (Z.land (c_flags e) 1 =? phase q) then mret false else
  if negb (Z.shiftr (c_flags e) 1 =? 0) then fatal "panicking for debugging purposes" else
  massert (c_cid e <? slots) "assert(cid < queue->cqslots)";;
  req ← deref (reqs q !! Z.to_nat (c_cid e)) "reqs";
  match rq_completion req with
  | None => fatal "assert(req->completion)"
  | Some completion =>
      let head := ring_next (cqhead q) in
      mput (Queue (c_cid e :: req_q q) (<[Z.to_nat (c_cid e) := Request None 0]> (reqs q)) (sq q) (cq q)
              (sqtail q) head (if cqhead q + 1 =? slots then 1 - phase q else phase q)
              (sqtdbl q) head (calls q ++ [(completion, rq_nbytes req)]));;
      mret true
  end.

(** The loop, [n] turns at most. *)
Fixpoint queueCompleteRequests (n : nat) : M nvme_queue unit :=
  match n with
  | O => mret ()
  | S n' => go ← complete_turn; if (go : bool) then queueCompleteRequests n' else mret ()
  end.

(** ** The device *)

Record device := Device {
  d_sqhead : Z;
  d_cqtail : Z;
  d_phase : Z;
  d_pending : list nvme_sqe;   (** fetched and not completed *)
}.
Definition device_reset : device := Device 0 0 1 [].

(** It takes the command at its head, unless the driver's tail is there. *)
Definition device_fetch (q : nvme_queue) (d : device) : option device :=
  if d_sqhead d =? sqtdbl q then None else
  e ← sq q !! Z.to_nat (d_sqhead d);
  Some (Device (ring_next (d_sqhead d)) (d_cqtail d) (d_phase d) (d_pending d ++ [e])).

(** It completes its [k]th command with a status, unless that would fill the ring. *)
Definition device_complete (k : nat) (status : Z) (q : nvme_queue) (d : device) : option (nvme_queue * device) :=
  if ring_next (d_cqtail d) =? cqhdbl q then None else
  e ← d_pending d !! k;
  Some (Queue (req_q q) (reqs q) (sq q) (<[Z.to_nat (d_cqtail d) := Cqe (e_cid e) (d_phase d + 2 * status)]> (cq q))
          (sqtail q) (cqhead q) (phase q) (sqtdbl q) (cqhdbl q) (calls q),
        Device (d_sqhead d) (ring_next (d_cqtail d))
          (if d_cqtail d + 1 =? slots then 1 - d_phase d else d_phase d) (delete k (d_pending d))).

(** ** All together *)

(** The queue, the device, the requests that threads hold without having
    submitted them, and all requests ever made: completion and length. *)
Record nvme := Nvme {
  n_queue : nvme_queue;
  n_device : device;
  n_held : list Z;
  n_asked : list (Z * Z);
}.
Definition nvme_start : nvme := Nvme queue_alloc device_reset [] [].

(** A step of the device, which reports errors only if [errs], or of the interrupt's
    handler.  The status has 15 bits. *)
Inductive nvme_work (errs : bool) : nvme → nvme → Prop :=
| work_fetch q d d' h l : device_fetch q d = Some d' → nvme_work errs (Nvme q d h l) (Nvme q d' h l)
| work_complete k status q d q' d' h l :
    0 ≤ status < 2^15 → (errs = false → status = 0) →
    device_complete k status q d = Some (q', d') → nvme_work errs (Nvme q d h l) (Nvme q' d' h l)
| work_turn q q' d h l : complete_turn q = Ok (true, q') → nvme_work errs (Nvme q d h l) (Nvme q' d h l).

(** There is room for one more command when the device has not fallen so far
    behind that the tail would meet its head. *)
Definition sq_room (s : nvme) : Prop := ring_next (sqtail (n_queue s)) ≠ d_sqhead (n_device s).

Inductive nvme_step (errs : bool) : nvme → nvme → Prop :=
| step_take c q q' d h l comp nbytes :
    take_request comp nbytes q = Ok (c, q') →
    nvme_step errs (Nvme q d h l) (Nvme q' d (c :: h) (l ++ [(comp, nbytes)]))
| step_submit k c e q q' d h l :
    h !! k = Some c → sq_room (Nvme q d h l) → submitRequest c e q = Ok (0, q') →
    nvme_step errs (Nvme q d h l) (Nvme q' d (delete k h) l)
| step_work s s' : nvme_work errs s s' → nvme_step errs s s'.

(** ** Rings *)

(** The entries [q] from the head [h] up to the tail [t], which is not included. *)
Record ring {A} (l : list A) (h t : Z) (q : list A) : Prop := Ring {
  rg_len : Z.of_nat (length l) = slots;
  rg_head : 0 ≤ h < slots;
  rg_room : Z.of_nat (length q) < slots;
  rg_tail : t = (h + Z.of_nat (length q)) mod slots;
  rg_at j x : q !! j = Some x → l !! Z.to_nat ((h + Z.of_nat j) mod slots) = Some x;
}.

Lemma slots_eq : slots = 64.
Proof. done. Qed.
Ltac slots_lia := rewrite ?slots_eq in *; Z.div_mod_to_equations; lia.

Lemma ring_next_mod i : 0 ≤ i < slots → ring_next i = (i + 1) mod slots.
Proof. unfold ring_next. intros Hi. destruct (Z.eqb_spec (i + 1) slots) as [->|]; slots_lia. Qed.
Lemma ring_next_range i : 0 ≤ i < slots → 0 ≤ ring_next i < slots.
Proof. unfold ring_next. intros Hi. destruct (Z.eqb_spec (i + 1) slots); slots_lia. Qed.

Section rings.
Context {A : Type}.
Implicit Types (l q : list A).

Lemma ring_tail_range l h t q : ring l h t q → 0 ≤ t < slots.
Proof. intros [_ _ _ -> _]. slots_lia. Qed.
Lemma ring_nil l h : Z.of_nat (length l) = slots → 0 ≤ h < slots → ring l h h [].
Proof. intros Hl Hh. split; try done. simpl. slots_lia. Qed.
Lemma ring_empty l h t q : ring l h t q → h = t → q = [].
Proof. intros [_ Hh Hr Ht _] E. apply nil_length_inv. slots_lia. Qed.
Lemma ring_full l h t q : ring l h t q → ring_next t ≠ h → Z.of_nat (length q) + 1 < slots.
Proof. intros Hr Hne. rewrite ring_next_mod in Hne by by eapply ring_tail_range. destruct Hr as [_ Hh Hr -> _]. slots_lia. Qed.

Lemma ring_push l h t q x :
  ring l h t q → ring_next t ≠ h → ring (<[Z.to_nat t := x]> l) h (ring_next t) (q ++ [x]).
Proof.
  intros Hr Hne. pose proof (ring_full _ _ _ _ Hr Hne). pose proof (ring_tail_range _ _ _ _ Hr) as Ht.
  rewrite ring_next_mod by done. destruct Hr as [Hl Hh _ E Hat]. split.
  - by rewrite length_insert.
  - done.
  - rewrite length_app. simpl. lia.
  - rewrite length_app. simpl. slots_lia.
  - intros j y Hj. apply lookup_app_Some in Hj as [Hj|[Hge Hj]].
    + pose proof (lookup_lt_Some _ _ _ Hj). rewrite list_lookup_insert_ne; [by apply Hat|]. slots_lia.
    + apply list_lookup_singleton_Some in Hj as [Hj <-]. replace ((h + Z.of_nat j) mod slots) with t by (rewrite E; f_equal; lia).
      apply list_lookup_insert_eq. slots_lia.
Qed.

Lemma ring_pop l h t x q : ring l h t (x :: q) → l !! Z.to_nat h = Some x ∧ ring l (ring_next h) t q.
Proof.
  intros [Hl Hh Hr Ht Hat]. simpl in *. split.
  - rewrite <-(Hat 0%nat x eq_refl). f_equal. slots_lia.
  - rewrite ring_next_mod by done. split; try done; [slots_lia|lia|slots_lia|].
    intros j y Hj. rewrite <-(Hat (S j) y Hj). f_equal. slots_lia.
Qed.
End rings.

(** ** The phase bits *)

(** The phase the driver will wait for when it next comes to the slot [i]. *)
Definition phase_at (h ph i : Z) : Z := if h <=? i then ph else 1 - ph.
(** Slots that hold an entry not read yet have that phase, the others not; the
    device will write it into the slot at the tail. *)
Record phases (cq : list nvme_cqe) (h t ph dph n : Z) : Prop := Phases {
  ph_bit : ph = 0 ∨ ph = 1;
  ph_dev : dph = phase_at h ph t;
  ph_slot i e : 0 ≤ i < slots → cq !! Z.to_nat i = Some e →
    Z.land (c_flags e) 1 = if (i - h) mod slots <? n then phase_at h ph i else 1 - phase_at h ph i;
}.

(** The phase of an entry the device writes, and its status. *)
Lemma flags_split ph status : ph = 0 ∨ ph = 1 → Z.land (ph + 2 * status) 1 = ph ∧ Z.shiftr (ph + 2 * status) 1 = status.
Proof.
  intros Hp. change 1 with (Z.ones 1) at 1. rewrite Z.land_ones, Z.shiftr_div_pow2 by lia.
  destruct Hp as [-> | ->]; split; Z.div_mod_to_equations; lia.
Qed.

Lemma phase_at_bit h ph i : ph = 0 ∨ ph = 1 → phase_at h ph i = 0 ∨ phase_at h ph i = 1.
Proof. unfold phase_at. case_match; lia. Qed.

Lemma phases_post l h t ph dph q c status :
  ring l h t q → ring_next t ≠ h → phases l h t ph dph (Z.of_nat (length q)) →
  phases (<[Z.to_nat t := Cqe c (dph + 2 * status)]> l) h (ring_next t) ph (if t + 1 =? slots then 1 - dph else dph)
    (Z.of_nat (length q) + 1).
Proof.
  intros Hr Hne [Hb Hd Hs]. pose proof (ring_tail_range _ _ _ _ Hr) as Ht.
  pose proof (ring_full _ _ _ _ Hr Hne) as Hfull.
  assert (ring_next t = if t + 1 =? slots then 0 else t + 1) as En by done. rewrite En in Hne.
  destruct Hr as [Hl Hh _ E _]. split.
  - done.
  - rewrite En, Hd. unfold phase_at. destruct (Z.eqb_spec (t + 1) slots); zcases.
  - intros i e Hi He. destruct (decide (i = t)) as [->|Hit].
    + rewrite list_lookup_insert_eq in He by lia. injection He as <-. simpl. rewrite Hd, (proj1 (flags_split _ status (phase_at_bit h ph t Hb))).
      rewrite (proj2 (Z.ltb_lt _ _)); [done|]. slots_lia.
    + rewrite list_lookup_insert_ne in He by lia. rewrite (Hs i e Hi He).
      assert ((i - h) mod slots ≠ Z.of_nat (length q)) by slots_lia.
      destruct (Z.ltb_spec ((i - h) mod slots) (Z.of_nat (length q))),
        (Z.ltb_spec ((i - h) mod slots) (Z.of_nat (length q) + 1)); lia || done.
Qed.

Lemma phases_read l h t ph dph n :
  0 ≤ h < slots → 0 < n < slots → t = (h + n) mod slots → phases l h t ph dph n →
  phases l (ring_next h) t (if h + 1 =? slots then 1 - ph else ph) dph (n - 1).
Proof.
  intros Hh Hn Ht [Hb Hd Hs]. rewrite (ring_next_mod h) by done. split.
  - destruct (h + 1 =? slots); lia.
  - rewrite Hd. unfold phase_at. destruct (Z.eqb_spec (h + 1) slots); zcases; slots_lia.
  - intros i e Hi He. rewrite (Hs i e Hi He). unfold phase_at.
    destruct (Z.eqb_spec (h + 1) slots); destruct (Z.ltb_spec ((i - h) mod slots) n),
      (Z.ltb_spec ((i - (h + 1) mod slots) mod slots) (n - 1)); zcases; slots_lia.
Qed.

(** ** The invariant *)

(** The command identifiers on their way: submitted and not fetched, fetched and
    not completed, completed and not read. *)
Definition flight (d : device) (sqs : list nvme_sqe) (cqs : list nvme_cqe) : list Z :=
  (e_cid <$> sqs) ++ (e_cid <$> d_pending d) ++ (c_cid <$> cqs).
(** What the request [c] will call its completion with. *)
Definition request_call (rs : list nvme_request) (c : Z) : option (Z * Z) :=
  r ← rs !! Z.to_nat c; comp ← rq_completion r; Some (comp, rq_nbytes r).

(** [sqs] and [cqs] are the contents of the two rings. *)
Record nvme_inv (errs : bool) (s : nvme) (sqs : list nvme_sqe) (cqs : list nvme_cqe) : Prop := NvmeInv {
  ni_sq : ring (sq (n_queue s)) (d_sqhead (n_device s)) (sqtail (n_queue s)) sqs;
  ni_cq : ring (cq (n_queue s)) (cqhead (n_queue s)) (d_cqtail (n_device s)) cqs;
  ni_doorbells : sqtdbl (n_queue s) = sqtail (n_queue s) ∧ cqhdbl (n_queue s) = cqhead (n_queue s);
  ni_phases : phases (cq (n_queue s)) (cqhead (n_queue s)) (d_cqtail (n_device s)) (phase (n_queue s))
    (d_phase (n_device s)) (Z.of_nat (length cqs));
  ni_status : errs = false → Forall (λ e, Z.shiftr (c_flags e) 1 = 0) cqs;
  ni_reqs : Z.of_nat (length (reqs (n_queue s))) = slots;
  (** every request is free, held by a thread, or on its way, and once *)
  ni_ids : req_q (n_queue s) ++ n_held s ++ flight (n_device s) sqs cqs ≡ₚ seqZ 0 slots;
  (** those in use have a completion *)
  ni_busy c : c ∈ n_held s ++ flight (n_device s) sqs cqs → is_Some (request_call (reqs (n_queue s)) c);
  (** what was asked for has been called, or will be *)
  ni_asked : n_asked s ≡ₚ calls (n_queue s) ++
    omap (request_call (reqs (n_queue s))) (n_held s ++ flight (n_device s) sqs cqs);
}.
Definition nvme_ok (errs : bool) (s : nvme) : Prop := ∃ sqs cqs, nvme_inv errs s sqs cqs.

(** Two lists of identifiers with the same elements, by counting. *)
Ltac perm_count :=
  rewrite ?fmap_app, ?fmap_cons; apply (Permutation_count_occ Z.eq_dec); intros x;
  repeat match goal with
  | P : Permutation ?l1 ?l2 |- _ => apply (proj1 (Permutation_count_occ Z.eq_dec l1 l2)) with (x := x) in P
  end;
  rewrite ?count_occ_app in *; cbn [count_occ fmap list_fmap e_cid c_cid set_cid] in *;
  rewrite ?count_occ_app in *;
  repeat match goal with |- context [Z.eq_dec ?a ?b] => destruct (Z.eq_dec a b) end; lia.

Ltac nvme_fields :=
  cbn [n_queue n_device n_held n_asked req_q reqs sq cq sqtail cqhead phase sqtdbl cqhdbl calls
       d_sqhead d_cqtail d_phase d_pending].

Section invariant.
Context (errs : bool).
#[local] Abbreviation nvme_inv := (nvme_inv errs).
#[local] Abbreviation nvme_ok := (nvme_ok errs).
#[local] Abbreviation nvme_work := (nvme_work errs).
#[local] Abbreviation nvme_step := (nvme_step errs).

Lemma nvme_start_inv : nvme_inv nvme_start [] [].
Proof.
  split; try done.
  - split; [by right|done|]. intros i e Hi [-> _]%lookup_replicate_1.
    change (cqhead (n_queue nvme_start)) with 0. change (Z.of_nat (length [])) with 0.
    rewrite (proj2 (Z.ltb_ge _ _)) by slots_lia. unfold phase_at. by rewrite (proj2 (Z.leb_le _ _)) by lia.
  - by intros c []%elem_of_nil.
Qed.
Lemma nvme_start_ok : nvme_ok nvme_start.
Proof. exists [], []. apply nvme_start_inv. Qed.

(** How much work there is: a command is fetched, completed and read. *)
Definition weight (s : nvme) : Z :=
  3 * ((sqtail (n_queue s) - d_sqhead (n_device s)) mod slots) +
  2 * Z.of_nat (length (d_pending (n_device s))) +
  (d_cqtail (n_device s) - cqhead (n_queue s)) mod slots.

Lemma ring_count {A} (l : list A) h t q : ring l h t q → (t - h) mod slots = Z.of_nat (length q).
Proof. intros [_ Hh Hr -> _]. slots_lia. Qed.

Lemma weight_inv s sqs cqs :
  nvme_inv s sqs cqs →
  weight s = 3 * Z.of_nat (length sqs) + 2 * Z.of_nat (length (d_pending (n_device s))) + Z.of_nat (length cqs).
Proof. intros [Hsq Hcq _ _ _ _ _ _ _]. unfold weight. by rewrite (ring_count _ _ _ _ Hsq), (ring_count _ _ _ _ Hcq). Qed.

(** A step of work: the invariant holds again, and there is less to do. *)
Lemma ok_weight s sqs cqs s' sqs' cqs' :
  nvme_inv s sqs cqs → nvme_inv s' sqs' cqs' →
  3 * Z.of_nat (length sqs') + 2 * Z.of_nat (length (d_pending (n_device s'))) + Z.of_nat (length cqs') =
  3 * Z.of_nat (length sqs) + 2 * Z.of_nat (length (d_pending (n_device s))) + Z.of_nat (length cqs) - 1 →
  nvme_ok s' ∧ weight s' = weight s - 1.
Proof.
  intros H H' E. split; [by exists sqs', cqs'|]. by rewrite (weight_inv _ _ _ H), (weight_inv _ _ _ H').
Qed.

Section inv.
Context (s : nvme) (sqs : list nvme_sqe) (cqs : list nvme_cqe) (Hinv : nvme_inv s sqs cqs).
Let busy := n_held s ++ flight (n_device s) sqs cqs.

Lemma inv_range c : c ∈ req_q (n_queue s) ++ busy → 0 ≤ c < slots.
Proof. unfold busy. intros Hc. rewrite (ni_ids _ _ _ _ Hinv) in Hc. apply elem_of_seqZ in Hc. lia. Qed.
Lemma inv_nodup : NoDup (req_q (n_queue s) ++ busy).
Proof. unfold busy. rewrite (ni_ids _ _ _ _ Hinv). apply NoDup_seqZ. Qed.
End inv.

(** Requests whose entries are the same make the same calls. *)
Lemma omap_request_call rs rs' (l : list Z) :
  (∀ c, c ∈ l → rs' !! Z.to_nat c = rs !! Z.to_nat c) → omap (request_call rs') l = omap (request_call rs) l.
Proof.
  intros H. apply list_omap_ext, Forall_Forall2_diag, Forall_forall. intros c Hc.
  unfold request_call. by rewrite H.
Qed.

(** An identifier that moves inside the requests in use changes nothing else. *)
Lemma inv_move s s' sqs cqs sqs' cqs' :
  nvme_inv s sqs cqs →
  req_q (n_queue s') = req_q (n_queue s) → reqs (n_queue s') = reqs (n_queue s) →
  calls (n_queue s') = calls (n_queue s) → n_asked s' = n_asked s →
  n_held s' ++ flight (n_device s') sqs' cqs' ≡ₚ n_held s ++ flight (n_device s) sqs cqs →
  ring (sq (n_queue s')) (d_sqhead (n_device s')) (sqtail (n_queue s')) sqs' →
  ring (cq (n_queue s')) (cqhead (n_queue s')) (d_cqtail (n_device s')) cqs' →
  sqtdbl (n_queue s') = sqtail (n_queue s') ∧ cqhdbl (n_queue s') = cqhead (n_queue s') →
  phases (cq (n_queue s')) (cqhead (n_queue s')) (d_cqtail (n_device s')) (phase (n_queue s'))
    (d_phase (n_device s')) (Z.of_nat (length cqs')) →
  (errs = false → Forall (λ e, Z.shiftr (c_flags e) 1 = 0) cqs') →
  nvme_inv s' sqs' cqs'.
Proof.
  intros [_ _ _ _ _ Hr Hi Hb Ha] E1 E2 E3 E4 Hp Hsq Hcq Hd Hph Hst. split; try done; rewrite ?E1, ?E2, ?E3, ?E4, ?Hp; try done.
  intros c Hc. apply Hb. by rewrite <-Hp.
Qed.

Lemma submit_inv k c e q q' d h l sqs cqs :
  nvme_inv (Nvme q d h l) sqs cqs → h !! k = Some c → sq_room (Nvme q d h l) → submitRequest c e q = Ok (0, q') →
  nvme_inv (Nvme q' d (delete k h) l) (sqs ++ [set_cid c e]) cqs.
Proof.
  intros Hinv Hk Hroom E. unfold submitRequest, mbind, M_bind, mget, mput, mret, M_ret in E. simplify_eq/=.
  pose proof Hinv as [Hsq Hcq [_ Hd] Hph Hst _ _ _ _]. simpl in *.
  eapply inv_move; [exact Hinv|try done..]; nvme_fields.
  - pose proof (delete_Permutation h k c Hk) as P. unfold flight. perm_count.
  - by apply ring_push.
Qed.

(** The device finds the first command of the ring, if there is one. *)
Lemma fetch_run q d h l sqs cqs :
  nvme_inv (Nvme q d h l) sqs cqs →
  match sqs with
  | [] => device_fetch q d = None
  | e :: sqs' => ∃ d', device_fetch q d = Some d' ∧ d_pending d' = d_pending d ++ [e] ∧
      nvme_inv (Nvme q d' h l) sqs' cqs
  end.
Proof.
  intros Hinv. pose proof Hinv as [Hsq Hcq [Hd1 Hd2] Hph Hst _ _ _ _]. simpl in *. unfold device_fetch. rewrite Hd1.
  destruct sqs as [|e sqs].
  - destruct Hsq as [_ Hh _ -> _]. simpl. by rewrite (proj2 (Z.eqb_eq _ _)) by slots_lia.
  - rewrite (proj2 (Z.eqb_neq _ _)) by (intros E; by apply (ring_empty _ _ _ _ Hsq) in E).
    destruct (ring_pop _ _ _ _ _ Hsq) as [-> Hsq']. eexists. split; [reflexivity|]. split; [done|].
    eapply inv_move; [exact Hinv|try done..]; nvme_fields. unfold flight. nvme_fields. perm_count.
Qed.

Lemma complete_inv k status q d q' d' h l sqs cqs :
  nvme_inv (Nvme q d h l) sqs cqs → (errs = false → status = 0) →
  device_complete k status q d = Some (q', d') →
  ∃ e, d_pending d !! k = Some e ∧ d_pending d' = delete k (d_pending d) ∧
    reqs q' = reqs q ∧ calls q' = calls q ∧
    nvme_inv (Nvme q' d' h l) sqs (cqs ++ [Cqe (e_cid e) (d_phase d + 2 * status)]).
Proof.
  intros Hinv Hz E. pose proof Hinv as [Hsq Hcq [Hd1 Hd2] Hph Hst _ _ _ _]. simpl in *.
  unfold device_complete in E. rewrite Hd2 in E.
  destruct (Z.eqb_spec (ring_next (d_cqtail d)) (cqhead q)) as [|Hne]; [done|].
  destruct (d_pending d !! k) as [e|] eqn:He; [|done]. simplify_eq/=.
  exists e. split_and!; try done. eapply inv_move; [exact Hinv|try done..]; nvme_fields.
  - pose proof (fmap_Permutation e_cid _ _ (delete_Permutation (d_pending d) k e He)) as P.
    unfold flight. nvme_fields. perm_count.
  - by apply ring_push.
  - rewrite length_app. simpl. rewrite Nat2Z.inj_add. by apply phases_post.
  - intros He'. apply Forall_app. split; [by apply Hst|]. constructor; [|done]. simpl. rewrite (Hz He').
    apply flags_split. rewrite (ph_dev _ _ _ _ _ _ Hph). apply phase_at_bit, Hph.
Qed.

Lemma remove_request (l : list Z) c : c ∈ l → l ≡ₚ c :: tq_remove (λ x, x) c l.
Proof.
  induction l as [|x l IH]; simpl; [by intros []%elem_of_nil|]. intros Hc.
  destruct (Z.eqb_spec x c) as [->|Hne]; [done|]. apply elem_of_cons in Hc as [->|Hc]; [done|].
  rewrite IH at 1 by done. apply Permutation_swap.
Qed.

Lemma take_inv c comp nbytes q q' d h l sqs cqs :
  nvme_inv (Nvme q d h l) sqs cqs → take_request comp nbytes q = Ok (c, q') →
  nvme_inv (Nvme q' d (c :: h) (l ++ [(comp, nbytes)])) sqs cqs ∧
  request_call (reqs q') c = Some (comp, nbytes).
Proof.
  intros Hinv E. unfold take_request, mbind, M_bind, mget in E.
  destruct (last (req_q q)) as [c'|] eqn:Hlast; [|done]. unfold mput, mret, M_ret in E. simplify_eq.
  assert (c ∈ req_q q) as Hc by (apply last_Some in Hlast as [l' ->]; apply elem_of_app; right; left).
  pose proof (inv_range _ _ _ Hinv) as Hrange. pose proof (inv_nodup _ _ _ Hinv) as HND.
  destruct Hinv as [Hsq Hcq Hd Hph Hst Hr Hi Hb Ha]. nvme_fields. simpl in *.
  pose proof (remove_request _ _ Hc) as Hrem.
  assert (0 ≤ c < slots) as Hcr by (apply Hrange; set_solver).
  set (rs := <[Z.to_nat c := Request (Some comp) nbytes]> (reqs q)).
  assert (request_call rs c = Some (comp, nbytes)) as Hnew.
  { unfold request_call, rs. rewrite list_lookup_insert_eq by lia. done. }
  assert (∀ x, x ∈ h ++ flight d sqs cqs → rs !! Z.to_nat x = reqs q !! Z.to_nat x) as Hold.
  { intros x Hx. unfold rs. rewrite list_lookup_insert_ne; [done|]. intros Hcx.
    assert (0 ≤ x < slots) by (apply Hrange; set_solver). assert (x = c) as -> by lia.
    apply NoDup_app in HND as (_ & Hdis & _). by apply (Hdis c). }
  split; [|done]. split; nvme_fields; try done.
  - unfold rs. by rewrite length_insert.
  - rewrite <-Hi. revert Hrem. generalize (tq_remove (λ x, x) c (req_q q)). intros r P. perm_count.
  - intros x [->|Hx]%elem_of_cons; [by rewrite Hnew|]. unfold request_call. rewrite Hold by done. by apply Hb.
  - change ((c :: h) ++ flight d sqs cqs) with ([c] ++ (h ++ flight d sqs cqs)).
    rewrite omap_app, (omap_request_call (reqs q) rs (h ++ _)), Ha by done. simpl. rewrite Hnew.
    rewrite <-app_assoc. f_equiv. by rewrite Permutation_app_comm.
Qed.

(** The handler finds what the device has completed and nothing else, and stops the
    kernel if that reports an error. *)
Lemma complete_turn_run s sqs cqs :
  nvme_inv s sqs cqs →
  let q := n_queue s in
  match cqs with
  | [] => complete_turn q = Ok (false, q)
  | e :: cqs' => ∃ comp nbytes, request_call (reqs q) (c_cid e) = Some (comp, nbytes) ∧
      cq q !! Z.to_nat (cqhead q) = Some e ∧ Z.land (c_flags e) 1 = phase q ∧
      complete_turn q = if negb (Z.shiftr (c_flags e) 1 =? 0) then Fatal "panicking for debugging purposes" else Ok (true, Queue (c_cid e :: req_q q) (<[Z.to_nat (c_cid e) := Request None 0]> (reqs q))
        (sq q) (cq q) (sqtail q) (ring_next (cqhead q)) (if cqhead q + 1 =? slots then 1 - phase q else phase q)
        (sqtdbl q) (ring_next (cqhead q)) (calls q ++ [(comp, nbytes)]))
  end.
Proof.
  intros Hinv. pose proof (inv_range _ _ _ Hinv) as Hrange. destruct Hinv as [_ Hcq _ [Hbit _ Hslot] _ Hr _ Hb _].
  cbn zeta. set (q := n_queue s) in *. pose proof (rg_head _ _ _ _ Hcq) as Hh.
  assert (is_Some (cq q !! Z.to_nat (cqhead q))) as [e He]
    by (apply lookup_lt_is_Some; pose proof (rg_len _ _ _ _ Hcq); lia).
  pose proof (Hslot _ _ Hh He) as Hf. unfold phase_at in Hf.
  rewrite Z.sub_diag, Z.mod_0_l, (proj2 (Z.leb_le (cqhead q) _)) in Hf by (rewrite ?slots_eq; lia).
  unfold complete_turn. rewrite (bind_step mget _ q q q) by done. rewrite He, deref_bind.
  destruct cqs as [|e' cqs].
  - simpl in Hf. rewrite Hf. by destruct Hbit as [-> | ->].
  - destruct (ring_pop _ _ _ _ _ Hcq) as [He' _]. rewrite He in He'. simplify_eq. rename e' into e.
    rewrite (proj2 (Z.ltb_lt _ _)) in Hf by (simpl; lia).
    assert (c_cid e ∈ n_held s ++ flight (n_device s) sqs (e :: cqs)) as Hin.
    { unfold flight. simpl. set_solver. }
    destruct (Hb _ Hin) as [[comp nbytes] Hcall]. exists comp, nbytes. split_and!; [done..|].
    assert (0 ≤ c_cid e < slots) as Hc by (apply Hrange; set_solver).
    rewrite Hf, Z.eqb_refl. cbn [negb]. destruct (Z.shiftr (c_flags e) 1 =? 0); [|done]. cbn [negb].
    rewrite (proj2 (Z.ltb_lt _ _)), massert_bind by lia.
    unfold request_call in Hcall. destruct (reqs q !! Z.to_nat (c_cid e)) as [r|] eqn:Er; [|done].
    simpl in Hcall. rewrite deref_bind. destruct (rq_completion r) as [comp'|]; [|done]. simpl in Hcall. by simplify_eq.
Qed.

Lemma turn_inv q d h l sqs e cqs :
  nvme_inv (Nvme q d h l) sqs (e :: cqs) → Z.shiftr (c_flags e) 1 = 0 →
  ∃ comp nbytes q', request_call (reqs q) (c_cid e) = Some (comp, nbytes) ∧ complete_turn q = Ok (true, q') ∧
    calls q' = calls q ++ [(comp, nbytes)] ∧ nvme_inv (Nvme q' d h l) sqs cqs.
Proof.
  intros Hinv Hz. pose proof (complete_turn_run _ _ _ Hinv) as Hrun. simpl in Hrun.
  pose proof (inv_range _ _ _ Hinv) as Hrange. pose proof (inv_nodup _ _ _ Hinv) as HND.
  destruct Hrun as (comp & nbytes & Hcall & _ & _ & Hrun). rewrite Hz in Hrun. cbn [negb Z.eqb] in Hrun.
  eexists comp, nbytes, _. split; [exact Hcall|]. split; [exact Hrun|]. split; [done|].
  destruct Hinv as [Hsq Hcq Hd Hph Hst Hr Hi Hb Ha]. simpl in *.
  assert (h ++ flight d sqs (e :: cqs) ≡ₚ c_cid e :: h ++ flight d sqs cqs) as Hp by (clear; unfold flight; perm_count).
  set (c := c_cid e) in *. set (rs := <[Z.to_nat c := Request None 0]> (reqs q)).
  rewrite Hp in HND, Ha. destruct (ring_pop _ _ _ _ _ Hcq) as [_ Hcq'].
  assert (∀ x, x ∈ h ++ flight d sqs cqs → rs !! Z.to_nat x = reqs q !! Z.to_nat x) as Hold.
  { intros x Hx. unfold rs. rewrite list_lookup_insert_ne; [done|]. intros Hcx.
    assert (0 ≤ c < slots) by (apply Hrange; rewrite Hp; set_solver).
    assert (0 ≤ x < slots) by (apply Hrange; rewrite Hp; set_solver). assert (x = c) as -> by lia.
    apply NoDup_app in HND as (_ & _ & [Hn _]%NoDup_cons). done. }
  split; nvme_fields; try done.
  - destruct Hd. done.
  - simpl in Hph. replace (Z.of_nat (length cqs)) with (Z.of_nat (S (length cqs)) - 1) by lia.
    pose proof (rg_head _ _ _ _ Hcq). pose proof (rg_room _ _ _ _ Hcq). pose proof (rg_tail _ _ _ _ Hcq).
    simpl in *. apply phases_read; done.
  - intros He. by apply Forall_cons in Hst as [_ ?].
  - unfold rs. by rewrite length_insert.
  - rewrite <-Hi. revert Hp. fold rs. unfold flight. intros P. perm_count.
  - intros x Hx. fold rs. unfold request_call. rewrite Hold by done. apply Hb. rewrite Hp. by right.
  - fold rs. rewrite (omap_request_call (reqs q) rs) by done. rewrite Ha.
    change (c :: h ++ flight d sqs cqs) with ([c] ++ (h ++ flight d sqs cqs)). rewrite omap_app. simpl.
    rewrite Hcall. by rewrite <-app_assoc.
Qed.

Lemma work_ok s s' : nvme_ok s → nvme_work s s' → nvme_ok s' ∧ weight s' = weight s - 1.
Proof.
  intros (sqs & cqs & Hinv) Hw. destruct Hw as [q d d' h l E|k st q d q' d' h l _ Hz E|q q' d h l E].
  - pose proof (fetch_run _ _ _ _ _ _ Hinv) as Hf. destruct sqs as [|e sqs]; [congruence|].
    destruct Hf as (d1 & E1 & Ep & Hinv'). simplify_eq.
    apply (ok_weight _ (e :: sqs) cqs _ sqs cqs Hinv Hinv'). simpl. rewrite Ep, length_app. simpl. lia.
  - destruct (complete_inv _ _ _ _ _ _ _ _ _ _ Hinv Hz E) as (e & He & Ep & _ & _ & Hinv').
    apply (ok_weight _ sqs cqs _ sqs _ Hinv Hinv'). simpl. pose proof (lookup_lt_Some _ _ _ He).
    rewrite Ep, length_app, length_delete by done. simpl. lia.
  - pose proof (complete_turn_run _ _ _ Hinv) as Hrun. simpl in Hrun.
    destruct cqs as [|e cqs]; [rewrite Hrun in E; by simplify_eq|].
    assert (Z.shiftr (c_flags e) 1 = 0) as Hz.
    { destruct Hrun as (? & ? & _ & _ & _ & Hrun). destruct (Z.eqb_spec (Z.shiftr (c_flags e) 1) 0); [done|].
      cbn [negb] in Hrun. congruence. }
    destruct (turn_inv _ _ _ _ _ _ _ Hinv Hz) as (comp & nbytes & q1 & _ & E1 & _ & Hinv').
    rewrite E in E1. simplify_eq. apply (ok_weight _ sqs (e :: cqs) _ sqs cqs Hinv Hinv'). simpl. lia.
Qed.
Lemma step_ok s s' : nvme_ok s → nvme_step s s' → nvme_ok s'.
Proof.
  intros (sqs & cqs & Hinv) Hw. destruct Hw as [c q q' d h l comp nbytes E|k c e q q' d h l Hk Hr E|s s' Hw].
  - exists sqs, cqs. by eapply take_inv.
  - exists (sqs ++ [set_cid c e]), cqs. by eapply submit_inv.
  - eapply work_ok; [by exists sqs, cqs|done].
Qed.
Lemma reachable_ok s : rtc nvme_step nvme_start s → nvme_ok s.
Proof. assert (nvme_ok nvme_start) as H0 by apply nvme_start_ok. induction 1; eauto using step_ok. Qed.

(** The handler stops the kernel exactly at an unread completion that reports an
    error. *)
Lemma turn_fatal s sqs cqs :
  nvme_inv s sqs cqs →
  ∃ e, cq (n_queue s) !! Z.to_nat (cqhead (n_queue s)) = Some e ∧
    (is_fatal (complete_turn (n_queue s)) ↔
      Z.land (c_flags e) 1 = phase (n_queue s) ∧ Z.shiftr (c_flags e) 1 ≠ 0).
Proof.
  intros Hinv. pose proof (complete_turn_run _ _ _ Hinv) as Hrun. destruct cqs as [|e cqs].
  - pose proof (rg_head _ _ _ _ (ni_cq _ _ _ _ Hinv)). pose proof (rg_len _ _ _ _ (ni_cq _ _ _ _ Hinv)).
    assert (is_Some (cq (n_queue s) !! Z.to_nat (cqhead (n_queue s)))) as [e He] by (apply lookup_lt_is_Some; lia).
    exists e. split; [done|]. simpl in Hrun. rewrite Hrun. split; [done|]. intros [Hl _].
    destruct (ni_phases _ _ _ _ Hinv) as [Hbit _ Hslot]. pose proof (Hslot _ _ ltac:(done) He) as Hf. unfold phase_at in Hf.
    rewrite Z.sub_diag, Z.mod_0_l, (proj2 (Z.leb_le (cqhead _) _)) in Hf by (rewrite ?slots_eq; lia). simpl in Hf. lia.
  - destruct Hrun as (comp & nbytes & _ & He & Hl & ->). exists e. split; [done|].
    destruct (Z.eqb_spec (Z.shiftr (c_flags e) 1) 0); simpl; naive_solver.
Qed.

Lemma turn_result s sqs cqs :
  nvme_inv s sqs cqs →
  is_ok (complete_turn (n_queue s)) ∨ errs = true ∧ is_fatal (complete_turn (n_queue s)).
Proof.
  intros Hinv. pose proof (complete_turn_run _ _ _ Hinv) as Hrun. destruct cqs as [|e cqs]; [left; by rewrite Hrun|].
  destruct Hrun as (comp & nbytes & _ & _ & _ & ->). pose proof (ni_status _ _ _ _ Hinv) as Hst.
  destruct errs; [destruct (Z.shiftr (c_flags e) 1 =? 0); [by left|by right]|].
  left. by apply Forall_cons in Hst as [-> _].
Qed.

(** ** What the threads may rely on *)

(** C10: However the threads' requests, the device and the interrupt's handler
    interleave, as long as every submission finds room, and whatever errors the device
    reports if it may: the handler stops the kernel exactly when the completion it
    comes to reports an error, so never if the device reports none; every request
    is free or in use, and not both; and the requests made are those whose completion
    has been called, once each, and those in use.  No completion is lost, none is
    called twice. *)
Theorem nvme_requests_safe s :
  rtc nvme_step nvme_start s →
  (∃ e, cq (n_queue s) !! Z.to_nat (cqhead (n_queue s)) = Some e ∧
    (is_fatal (complete_turn (n_queue s)) ↔
      Z.land (c_flags e) 1 = phase (n_queue s) ∧ Z.shiftr (c_flags e) 1 ≠ 0)) ∧
  (is_ok (complete_turn (n_queue s)) ∨ errs = true ∧ is_fatal (complete_turn (n_queue s))) ∧
  ∃ busy, NoDup busy ∧ req_q (n_queue s) ++ busy ≡ₚ seqZ 0 slots ∧
    (∀ c, c ∈ n_held s → c ∈ busy) ∧
    n_asked s ≡ₚ calls (n_queue s) ++ omap (request_call (reqs (n_queue s))) busy ∧
    Z.of_nat (length (n_asked s)) = Z.of_nat (length (calls (n_queue s))) + Z.of_nat (length busy).
Proof.
  intros Hr. destruct (reachable_ok s Hr) as (sqs & cqs & Hinv). split; [by eapply turn_fatal|].
  split; [by eapply turn_result|].
  exists (n_held s ++ flight (n_device s) sqs cqs). pose proof (inv_nodup _ _ _ Hinv) as HND.
  destruct Hinv as [_ _ _ _ _ _ Hi Hb Ha]. split_and!; try done.
  - by apply NoDup_app in HND as (_ & _ & ?).
  - intros c Hc. apply elem_of_app. by left.
  - rewrite Ha, length_app, Nat2Z.inj_add. do 2 f_equal. clear -Hb.
    induction (n_held s ++ flight (n_device s) sqs cqs) as [|c l IH]; [done|].
    change (c :: l) with ([c] ++ l). rewrite omap_app, length_app, IH by (intros x Hx; apply Hb; by right).
    destruct (Hb c ltac:(left)) as [y Hy]. simpl. by rewrite Hy.
Qed.

End invariant.

(** While there is work, some of it can be done, if the device reports no error. *)
Lemma work_possible s : nvme_ok false s → weight s ≠ 0 → ∃ s', nvme_work false s s'.
Proof.
  intros (sqs & cqs & Hinv) Hw. pose proof (ni_status _ _ _ _ Hinv eq_refl) as Hst. rewrite (weight_inv _ _ _ _ Hinv) in Hw.
  pose proof (complete_turn_run _ _ _ _ Hinv) as Hrun. destruct Hinv as [Hsq Hcq [Hd1 Hd2] _ _ _ _ _ _].
  destruct s as [q d h l]. nvme_fields. simpl in *.
  destruct cqs as [|e cqs].
  2: { destruct Hrun as (? & ? & _ & _ & _ & Hrun). apply Forall_cons in Hst as [Hz _]. rewrite Hz in Hrun. cbn [negb Z.eqb] in Hrun.
       eexists. by eapply work_turn. }
  destruct sqs as [|e sqs].
  - destruct (d_pending d) as [|e pend] eqn:Ep; [simpl in Hw; lia|].
    eexists. apply (work_complete false 0 0); [lia|done|]. unfold device_complete. rewrite Hd2, Ep.
    rewrite (proj2 (Z.eqb_neq _ _)); [done|].
    rewrite ring_next_mod by by eapply ring_tail_range. destruct Hcq as [_ Hh _ -> _]. simpl. slots_lia.
  - eexists. apply work_fetch. unfold device_fetch. destruct (ring_pop _ _ _ _ _ Hsq) as [-> _].
    rewrite Hd1, (proj2 (Z.eqb_neq _ _)); [done|]. intros E. by apply (ring_empty _ _ _ _ Hsq) in E.
Qed.

(** C12: As long as every submission finds room and the device reports no error: from
    any state in which no thread holds a request, the device and the handler, in any
    order, take at most [weight] steps and cannot stop earlier; after them every
    request made has had its completion called.  ([nvme_full_hangs] is what happens
    without room, [nvme_requests_safe] what an error does.) *)
Theorem nvme_all_called s n s' :
  rtc (nvme_step false) nvme_start s → n_held s = [] → nsteps (nvme_work false) n s s' →
  Z.of_nat n ≤ weight s ∧
  if decide (Z.of_nat n = weight s) then n_asked s ≡ₚ calls (n_queue s') else ∃ s'', nvme_work false s' s''.
Proof.
  intros Hr Hh Hn. assert (nvme_ok false s) as Hok by by apply reachable_ok. clear Hr.
  assert (nvme_ok false s' ∧ weight s' = weight s - Z.of_nat n ∧ n_held s' = [] ∧ n_asked s' = n_asked s)
    as (Hok' & Hw & Hh' & Ha).
  { induction Hn as [s|n s s1 s2 Hw Hn IH]; [split_and!; try done; lia|].
    destruct (work_ok _ _ _ Hok Hw) as [Hok1 Hw1].
    assert (n_held s1 = n_held s ∧ n_asked s1 = n_asked s) as [E1 E2] by (by destruct Hw).
    destruct (IH ltac:(by rewrite E1) Hok1) as (? & ? & ? & E). rewrite E, E2. split_and!; try done. lia. }
  destruct Hok' as (sqs & cqs & Hinv). pose proof (weight_inv _ _ _ _ Hinv) as Hwi. split; [lia|].
  case_decide as Hd; [|apply work_possible; [by exists sqs, cqs|lia]].
  destruct Hinv as [_ _ _ _ _ _ _ _ Hasked]. rewrite <-Ha, Hasked, Hh'.
  assert (sqs = []) as -> by (apply nil_length_inv; lia). assert (cqs = []) as -> by (apply nil_length_inv; lia).
  unfold flight. rewrite (nil_length_inv (d_pending (n_device s'))) by lia. simpl. by rewrite app_nil_r.
Qed.

(** ** As many commands as slots *)

(** Requests are taken and submitted, one after the other, for the completions
    [1 .. n], before the device looks. *)
Fixpoint flood (n : nat) : M nvme_queue unit :=
  match n with
  | O => mret ()
  | S n' =>
      c ← take_request (Z.of_nat n) 512;
      _ ← submitRequest c (Sqe 2 0 1 0 0 0 0);
      flood n'
  end.

(** The pool has as many requests as the ring has slots.  When all are submitted
    before the device looks, the tail is at the device's head again, which means an
    empty ring: no command is ever done, no completion called, and the next request
    stops the kernel. *)
Theorem nvme_full_hangs :
  ∃ q, flood (Z.to_nat slots) queue_alloc = Ok ((), q) ∧ req_q q = [] ∧ calls q = [] ∧
    is_fatal (take_request 65 512 q) ∧
    ∀ errs h l s', ¬ nvme_work errs (Nvme q device_reset h l) s'.
Proof.
  eexists. split; [vm_compute; reflexivity|]. split; [done|]. split; [done|]. split; [done|].
  intros errs h l s' Hw. inversion Hw as [? ? ? ? ? E|? ? ? ? ? ? ? ? ? ? E|? ? ? ? ? E]; subst; by vm_compute in E.
Qed.

(** ** One request *)

Definition demo_taken : nvme_queue :=
  match take_request 7 512 queue_alloc with Ok (_, q) => q | _ => queue_alloc end.
Definition demo_submitted : nvme_queue :=
  match submitRequest 63 (Sqe 2 63 1 4096 0 0 0) demo_taken with Ok (_, q) => q | _ => queue_alloc end.
Definition demo_nvme : nvme := Nvme demo_submitted device_reset [] [(7, 512)].
Lemma demo_reachable errs : rtc (nvme_step errs) nvme_start demo_nvme.
Proof.
  eapply rtc_l; [apply (step_take errs 63 queue_alloc demo_taken device_reset [] [] 7 512); by vm_compute|].
  eapply rtc_l; [|apply rtc_refl].
  by apply (step_submit errs 0 63 (Sqe 2 63 1 4096 0 0 0) demo_taken demo_submitted device_reset [63] [(7, 512)]); vm_compute.
Qed.

(** The device fetches the command and completes it with status [st]. *)
Definition demo_completed (st : Z) : nvme :=
  match device_fetch demo_submitted device_reset with
  | Some d => match device_complete 0 st demo_submitted d with
              | Some (q, d') => Nvme q d' [] [(7, 512)]
              | None => demo_nvme
              end
  | None => demo_nvme
  end.
Lemma demo_completed_reachable st :
  0 ≤ st < 2^15 → rtc (nvme_step true) nvme_start (demo_completed st).
Proof.
  intros Hst. etrans; [apply demo_reachable|].
  eapply rtc_l; [apply step_work, work_fetch; by vm_compute|].
  eapply rtc_l; [|apply rtc_refl]. by eapply step_work, (work_complete true 0 st).
Qed.

(** With an error (status 2) the handler stops the kernel, without one it goes on. *)
Lemma nvme_requests_safe_witness :
  is_fatal (complete_turn (n_queue (demo_completed 2))) ∧ is_ok (complete_turn (n_queue (demo_completed 0))) ∧
  ∃ busy, NoDup busy ∧ req_q (n_queue (demo_completed 2)) ++ busy ≡ₚ seqZ 0 slots.
Proof.
  destruct (nvme_requests_safe true _ (demo_completed_reachable 2 ltac:(done))) as ((e & He & Hf) & _ & busy & H2 & H3 & _).
  destruct (nvme_requests_safe true _ (demo_completed_reachable 0 ltac:(done))) as (_ & Hr & _).
  split; [|split].
  - apply Hf. vm_compute in He. injection He as <-. by vm_compute.
  - destruct Hr as [Hr|[_ Hr]]; [exact Hr|]. by vm_compute in Hr.
  - exists busy. split; [exact H2|exact H3].
Defined.

(** Fetched, completed and read: three steps. *)
Lemma demo_run : ∃ s', nsteps (nvme_work false) 3 demo_nvme s'.
Proof.
  eexists. eapply nsteps_l; [apply work_fetch; by vm_compute|].
  eapply nsteps_l; [apply (work_complete false 0 0); [lia|done|by vm_compute]|].
  eapply nsteps_l; [apply work_turn; by vm_compute|]. apply nsteps_O.
Qed.
Lemma nvme_all_called_witness : ∃ s', nsteps (nvme_work false) 3 demo_nvme s' ∧ [(7, 512)] ≡ₚ calls (n_queue s').
Proof.
  destruct demo_run as [s' Hrun]. exists s'. split; [exact Hrun|].
  destruct (nvme_all_called demo_nvme 3 s' (demo_reachable false) eq_refl Hrun) as [_ H].
  rewrite decide_True in H by by vm_compute. exact H.
Defined.
