(* ===== verification/NvmeDisk.v ===== *)
(** * Reading through an NVMe controller: dev/NVMeController.m, dev/NVMeDisk.m

    [readBlocks] describes the buffer to the device by the addresses of its pages,
    two in the command or the rest in lists, and submits the command to the queues of
    Nvme.  What the device then does is what the specification says: it follows
    the addresses, writes the blocks there, and completes the command; the interrupt's
    handler calls the completion.  Idle before and after, this is a drive as Disk
    asks for one ([nvme_drive]). *)

From S2P Require Import Prelude Vmem VmPage VmKernel Heap VmProps Klib Uuid Tmpfs Disk Gpt Nvme.
Open Scope Z_scope.

(** The controller with the namespace behind it. *)
Record controller := Ctl {
  ct_queue : nvme_queue;
  ct_device : device;
  ct_maxBlockTransfer : Z;
  ct_nsid : Z;
  ct_media : Z → Z;
}.

Section nvme_io.
Context {K : Type} `{!KernelHeap K}.
Abbreviation S := (K * controller)%type.

Definition on_ioqueue {A} (m : M nvme_queue A) : M S A := λ '(h, c),
  match m (ct_queue c) with
  | Ok (a, q) => Ok (a, (h, Ctl q (ct_device c) (ct_maxBlockTransfer c) (ct_nsid c) (ct_media c)))
  | Fatal w => Fatal w
  | Undef w => Undef w
  end.
Definition store64 (a v : Z) : M S unit := in_pages unit (mmodify (set_phys (λ m, write64 m a v))).

(** [PGSIZE / sizeof(void * ) - 1] *)
Definition nPRPPerList : Z := PGSIZE / 8 - 1.

(** The loop that fills the lists, from the page [i] of the buffer and the list
    [iPRPList]; where the list ends, [i] stays, and the place in the list too. *)
Fixpoint prp_fill (fuel : nat) (buf : vm_mdl) (lists : list Z) (i iPRPList : Z) : M S unit :=
  match fuel with
  | O => undef "fuel"
  | Datatypes.S fuel' =>
      if mdl_nPages buf <=? i then mret () else
      page ← deref (lists !! Z.to_nat iPRPList) "prpListMDL->pages";
      let entry := page + (i - 1) * 8 in
      if (1 <? i) && ((i - 1) mod nPRPPerList =? 0) then
        next ← deref (lists !! Z.to_nat (iPRPList + 1)) "prpListMDL->pages";
        store64 entry next;;
        prp_fill fuel' buf lists i (iPRPList + 1)
      else
        p ← deref (mdl_pages buf !! Z.to_nat i) "buf->pages";
        store64 entry p;;
        prp_fill fuel' buf lists (i + 1) iPRPList
  end.

(** The two addresses in the command. *)
Definition prp_entries (buf : vm_mdl) : M S (Z * Z) :=
  if mdl_nPages buf =? 1 then
    p0 ← deref (mdl_pages buf !! 0%nat) "buf->pages";
    mret (p0, 0)
  else if mdl_nPages buf =? 2 then
    p0 ← deref (mdl_pages buf !! 0%nat) "buf->pages";
    p1 ← deref (mdl_pages buf !! 1%nat) "buf->pages";
    mret (p0, p1)
  else
    let nPRPLists := ROUNDUP (w64 (mdl_nPages buf - 1)) nPRPPerList / nPRPPerList + 1 in
    '(r, prpListMDL) ← vm_mdl_new_with_capacity in_pages mdl_alloc (w64 (nPRPLists * PGSIZE));
    massert (0 <=? r) "assert(r >= 0)";;
    prpListMDL ← deref prpListMDL "prpListMDL";
    prp_fill (Z.to_nat (mdl_nPages buf + mdl_nPages prpListMDL)) buf (mdl_pages prpListMDL) 1 0;;
    p0 ← deref (mdl_pages buf !! 0%nat) "buf->pages";
    l0 ← deref (mdl_pages prpListMDL !! 0%nat) "prpListMDL->pages";
    mret (p0, l0).

Definition nvme_readBlocks (nBlocks offset : Z) (buf : vm_mdl) (completion : Z) : M S Z :=
  req ← on_ioqueue (take_request completion (nBlocks * 512));
  s ← mget;
  massert (nBlocks <? ct_maxBlockTransfer s.2) "assert(nBlocks < maxBlockTransfer)";;
  '(prp0, prp1) ← prp_entries buf;
  on_ioqueue (submitRequest req (Sqe 2 req (ct_nsid s.2) prp0 prp1 offset (w16 (nBlocks - 1)))).

(** ** The device *)

(** The addresses in a list, of which the last leads to the next list when there
    are more. *)
Fixpoint prp_chain (fuel : nat) (m : mem) (addr n : Z) : list Z :=
  match fuel with
  | O => []
  | Datatypes.S fuel' =>
      if n <=? PGSIZE / 8 then (λ i, read64 m (addr + 8 * i)) <$> seqZ 0 n
      else ((λ i, read64 m (addr + 8 * i)) <$> seqZ 0 nPRPPerList) ++
           prp_chain fuel' m (read64 m (addr + 8 * nPRPPerList)) (n - nPRPPerList)
  end.
(** The pages of a transfer of [len] bytes: the second address is that of a page
    when there are two, and of a list when there are more. *)
Definition prp_pages (m : mem) (e : nvme_sqe) (len : Z) : list Z :=
  let n := (len + PGSIZE - 1) / PGSIZE in
  if n <=? 1 then [e_prp0 e]
  else if n =? 2 then [e_prp0 e; e_prp1 e]
  else e_prp0 e :: prp_chain (Z.to_nat n) m (e_prp1 e) (n - 1).

(** A read: blocks of 512 bytes. *)
Definition device_read (e : nvme_sqe) (media : Z → Z) (m : mem) : mem :=
  let len := (e_nlb e + 1) * 512 in
  dma_write (prp_pages m e len) len (λ i, media (e_slba e * 512 + i)) m.

(** The device takes the next command, does it and completes it without an error. *)
Definition device_serve : M S unit := λ '(h, c),
  match device_fetch (ct_queue c) (ct_device c) with
  | None => Undef "nothing to do"
  | Some d =>
      match d_pending d, device_complete 0 0 (ct_queue c) d with
      | e :: _, Some (q', d') =>
          Ok ((), (with_pages (set_phys (device_read e (ct_media c)) (pages_of h)) h,
                   Ctl q' d' (ct_maxBlockTransfer c) (ct_nsid c) (ct_media c)))
      | _, _ => Undef "nothing to do"
      end
  end.

(** [semaphore_wait] of [commonIO]: the device serves the command, the
    interrupt comes, and the completion has been called. *)
Definition nvme_wait (completion : Z) : M S Z :=
  device_serve;;
  on_ioqueue (queueCompleteRequests 2);;
  s ← mget;
  call ← deref (last (calls (ct_queue s.2))) "waits forever";
  if call.1 =? completion then mret call.2 else undef "waits forever".

(** [writeBlocks] of [NVMeDisk] has no body, and its value is used. *)
#[export] Instance nvme_methods : DriveMethods S := {|
  readBlocks _ n off mdl comp := nvme_readBlocks n off mdl comp;
  writeBlocks _ _ _ _ _ := undef "writeBlocks returns nothing";
  wait_completion comp := nvme_wait comp;
|}.
End nvme_io.

(** ** The lists of addresses *)

Section props.
Context {K : Type} `{!KernelHeap K}.
Implicit Types (h : K) (c : controller).

(** Only memory changes. *)
Record phys_only h h' : Prop := PhysOnly {
  po_able a b : able a b h → able a b h';
  po_queues : queues (pages_of h') = queues (pages_of h);
  po_live q z : heap_live h q z → heap_live h' q z;
}.
Lemma phys_only_refl h : phys_only h h.
Proof. by split. Qed.
Lemma phys_only_trans h1 h2 h3 : phys_only h1 h2 → phys_only h2 h3 → phys_only h1 h3.
Proof. intros [A1 Q1 L1] [A2 Q2 L2]. split; [auto|by rewrite Q2|auto]. Qed.

Lemma with_phys_only f h : phys_only h (with_pages (set_phys f (pages_of h)) h).
Proof.
  split.
  - intros a b [Hr [HND Hd] Hp Hf]. split; rewrite ?pages_of_with; [by apply ready_with|by split|done..].
  - by rewrite pages_of_with.
  - intros q z. by rewrite live_with.
Qed.

Lemma store64_run a v h c :
  store64 a v (h, c) = Ok ((), (with_pages (set_phys (λ m, write64 m a v) (pages_of h)) h, c)).
Proof. done. Qed.

Lemma write64_other m a v x : ¬ (a ≤ x < a + 8) → write64 m a v x = m x.
Proof. intros H. unfold write64. by rewrite in_range_false by lia. Qed.

(** Up to 512 pages the loop fills one list with the pages after the first. *)
Lemma prp_fill_run fuel buf lists l0 i h c :
  lists !! 0%nat = Some l0 → mdl_nPages buf = Z.of_nat (length (mdl_pages buf)) → mdl_nPages buf ≤ 512 →
  (∀ page, page ∈ mdl_pages buf → 0 ≤ page < 2^64) → 1 ≤ i ≤ mdl_nPages buf → mdl_nPages buf - i < Z.of_nat fuel →
  ∃ h', prp_fill fuel buf lists i 0 (h, c) = Ok ((), (h', c)) ∧ phys_only h h' ∧
    (∀ j p, i ≤ j → mdl_pages buf !! Z.to_nat j = Some p → read64 (phys (pages_of h')) (l0 + (j - 1) * 8) = p) ∧
    ∀ x, ¬ (l0 + (i - 1) * 8 ≤ x < l0 + PGSIZE) → phys (pages_of h') x = phys (pages_of h) x.
Proof.
  intros Hl Hn Hmax Hr. revert i h. induction fuel as [|fuel IH]; intros i h Hi Hf; [lia|].
  cbn [prp_fill]. destruct (Z.leb_spec (mdl_nPages buf) i) as [Hle|Hgt].
  { exists h. split_and!; try done. intros j p Hj Hp. apply lookup_lt_Some in Hp. lia. }
  change (Z.to_nat 0) with 0%nat. rewrite Hl, deref_bind.
  replace ((1 <? i) && ((i - 1) mod nPRPPerList =? 0)) with false.
  2: { symmetry. apply andb_false_iff. destruct (decide (i = 1)) as [->|]; [by left|right].
       apply Z.eqb_neq. change nPRPPerList with 511. rewrite Z.mod_small by lia. lia. }
  destruct (lookup_lt_is_Some_2 (mdl_pages buf) (Z.to_nat i)) as [p Hp]; [lia|]. rewrite Hp, deref_bind.
  rewrite (bind_step _ _ _ _ _ (store64_run _ _ _ _)). set (h1 := with_pages _ h).
  assert (phys (pages_of h1) = write64 (phys (pages_of h)) (l0 + (i - 1) * 8) p) as E1
    by (unfold h1; by rewrite pages_of_with).
  destruct (IH (i + 1) h1) as (h' & Hrun & Hpo & Hread & Hother); [lia|lia|].
  exists h'. split; [exact Hrun|]. split; [eapply phys_only_trans; [apply with_phys_only|exact Hpo]|].
  pose proof (Hr p ltac:(by eapply list_elem_of_lookup_2)) as Hpr. unfold PGSIZE in *. split.
  - intros j q Hj Hq. destruct (decide (j = i)) as [->|Hne]; [|apply Hread; [lia|done]].
    assert (q = p) as -> by congruence. rewrite <-(read64_write64 (phys (pages_of h)) (l0 + (i - 1) * 8) p) by done.
    rewrite <-E1. unfold read64. by rewrite !Hother by lia.
  - intros x Hx. rewrite Hother by lia. rewrite E1. apply write64_other. lia.
Qed.

(** With more pages it runs past the lists. *)
Lemma prp_fill_overruns fuel buf lists iPRPList h c :
  512 < mdl_nPages buf → 0 ≤ iPRPList ≤ Z.of_nat (length lists) →
  Z.of_nat (length lists) - iPRPList < Z.of_nat fuel →
  prp_fill fuel buf lists 512 iPRPList (h, c) = Undef "prpListMDL->pages".
Proof.
  intros Hn. revert iPRPList h. induction fuel as [|fuel IH]; intros i h Hi Hf; [lia|].
  cbn [prp_fill]. rewrite (proj2 (Z.leb_gt _ _)) by lia.
  destruct (lists !! Z.to_nat i) as [page|] eqn:Ep; [|done]. rewrite deref_bind.
  change ((1 <? 512) && ((512 - 1) mod nPRPPerList =? 0)) with true. cbv iota.
  pose proof (lookup_lt_Some _ _ _ Ep).
  destruct (lists !! Z.to_nat (i + 1)) as [next|] eqn:En; [|done]. rewrite deref_bind.
  rewrite (bind_step _ _ _ _ _ (store64_run _ _ _ _)). apply IH; lia.
Qed.

Lemma two_lists x : 2 ≤ x < 512 → ROUNDUP (w64 x) nPRPPerList / nPRPPerList + 1 = 2.
Proof.
  intros Hx. assert (Forall (λ x, ROUNDUP (w64 x) nPRPPerList / nPRPPerList + 1 = 2) (seqZ 2 510)) as HF
    by (apply (bool_decide_unpack _); by vm_compute).
  rewrite Forall_forall in HF. apply HF, elem_of_seqZ. lia.
Qed.

Lemma dma_count p buf len : dma_target p buf len → (len + PGSIZE - 1) / PGSIZE = mdl_nPages buf.
Proof. intros [_ _ _ _ Hl]. unfold PGSIZE in *. Z.div_mod_to_equations. lia. Qed.

Lemma prp_list_pages fuel m l0 p0 (rest : list Z) :
  Z.of_nat (length rest) ≤ 512 →
  (∀ j p, rest !! j = Some p → read64 m (l0 + Z.of_nat j * 8) = p) →
  p0 :: prp_chain (Datatypes.S fuel) m l0 (Z.of_nat (length rest)) = p0 :: rest.
Proof.
  intros Hlen Hread. f_equal. cbn [prp_chain]. change (PGSIZE / 8) with 512. rewrite (proj2 (Z.leb_le _ 512)) by lia.
  apply list_eq_same_length with (length rest); [done|rewrite length_fmap, length_seqZ; lia|].
  intros j x y Hj Hx Hy. apply list_lookup_fmap_Some in Hx as (z & -> & [-> _]%lookup_seqZ).
  rewrite <-(Hread j y Hy). f_equal. lia.
Qed.

(** What the command says of the buffer is how the device finds its pages. *)
Lemma prp_entries_run buf len h c a b :
  dma_target (pages_of h) buf len → 0 < len → mdl_nPages buf ≤ 512 → able (Datatypes.S a) (2 + b) h →
  ∃ prp0 prp1 h', prp_entries buf (h, c) = Ok ((prp0, prp1), (h', c)) ∧ able a b h' ∧ quiet h h' ∧
    (∀ q z, heap_live h q z → heap_live h' q z) ∧
    ∀ e, e_prp0 e = prp0 → e_prp1 e = prp1 → prp_pages (phys (pages_of h')) e len = mdl_pages buf.
Proof.
  intros Hd Hlen Hmax Ha. pose proof (dma_count _ _ _ Hd) as En. destruct Hd as [HND Hfr Hus Hn Hl].
  assert (able a b h) as Ha0 by by apply (able_less 1 2).
  unfold prp_entries, prp_pages. rewrite En, Hn in *. destruct (mdl_pages buf) as [|p0 [|p1 rest]] eqn:Ep.
  { simpl in Hl. unfold PGSIZE in Hl. lia. }
  { exists p0, 0, h. split_and!; try done. by intros e -> _. }
  destruct rest as [|p2 rest].
  { exists p0, p1, h. split_and!; try done. by intros e -> ->. }
  set (l := p0 :: p1 :: p2 :: rest) in *. set (n := Z.of_nat (length l)) in *.
  assert (3 ≤ n) as Hn3 by (unfold n, l; simpl; lia).
  rewrite (proj2 (Z.eqb_neq n 1)), (proj2 (Z.eqb_neq n 2)), (proj2 (Z.leb_gt n 1)), two_lists by lia.
  change (w64 (2 * PGSIZE)) with 8192.
  destruct (mdl_new_run 8192 h c a b) as (mdl & h1 & R1 & A1 & Q1 & M1 & N1 & P1 & L1); [unfold PGSIZE; lia|exact Ha|].
  change (Z.of_nat (pages_for 8192)) with 2 in N1. rewrite (bind_step _ _ _ _ _ R1). cbn beta iota.
  change (0 <=? 0) with true. rewrite massert_bind, deref_bind.
  pose proof (dt_nPages _ _ _ (mo_dma _ _ M1)) as Hlists. rewrite N1 in Hlists.
  destruct (mdl_pages mdl) as [|l0 lists] eqn:El; [done|].
  destruct (prp_fill_run (Z.to_nat (n + mdl_nPages mdl)) buf (l0 :: lists) l0 1 h1 c) as (h2 & R2 & Po & Hread & Hother);
    rewrite ?Ep, ?Hn; try done; try lia.
  { intros p Hp. destruct (Hfr p Hp) as [_ Hp']. lia. }
  rewrite (bind_step _ _ _ _ _ R2). exists p0, l0, h2. split_and!.
  - done.
  - by apply Po.
  - destruct Q1 as [Qf Qb]. split; [unfold on_queue; by rewrite (po_queues _ _ Po)|].
    intros x Hx. rewrite Hother; [by apply Qb|]. intros Hin. apply Hx. exists l0. split; [apply P1; left|lia].
  - intros q z Hq. by apply Po, L1.
  - intros e E0 E1. rewrite E0, E1.
    replace (n - 1) with (Z.of_nat (length (p1 :: p2 :: rest))) by (unfold n, l; simpl; lia).
    replace (Z.to_nat n) with (Datatypes.S (length (p1 :: p2 :: rest))) by (unfold n, l; simpl; lia).
    apply prp_list_pages; [unfold n, l in *; simpl in *; lia|]. intros j p Hp.
    rewrite <-(Hread (Z.of_nat j + 1) p); [f_equal; lia|lia|].
    rewrite Ep. by replace (Z.to_nat (Z.of_nat j + 1)) with (Datatypes.S j) by lia.
Qed.

(** ** One command, from submission to completion *)

(** Nothing is on its way and no thread holds a request. *)
Definition idle (q : nvme_queue) (d : device) : Prop :=
  d_pending d = [] ∧ ∃ asked, nvme_inv false (Nvme q d [] asked) [] [].

(** A request can be taken and submitted. *)
Lemma idle_submit q d comp nbytes :
  idle q d → ∃ req q1, take_request comp nbytes q = Ok (req, q1) ∧
    ∀ e, ∃ q2 asked, submitRequest req e q1 = Ok (0, q2) ∧
      nvme_inv false (Nvme q2 d [] asked) [set_cid req e] [] ∧ request_call (reqs q2) req = Some (comp, nbytes).
Proof.
  intros [Hp [asked Hinv]].
  assert (∃ req, last (req_q q) = Some req) as [req Hlast].
  { destruct (last (req_q q)) as [r|] eqn:E; [by exists r|]. apply last_None in E.
    pose proof (ni_ids _ _ _ _ Hinv) as Hi. unfold flight in Hi. simpl in Hi. rewrite E, Hp in Hi. simpl in Hi.
    apply Permutation_nil_l in Hi. by vm_compute in Hi. }
  destruct (take_request comp nbytes q) as [[req' q1]| |] eqn:Et;
    unfold take_request, mbind, M_bind, mget in Et; rewrite Hlast in Et; [|done|done].
  exists req', q1. split; [done|]. intros e.
  assert (take_request comp nbytes q = Ok (req', q1)) as Etake
    by (unfold take_request, mbind, M_bind, mget; by rewrite Hlast).
  destruct (take_inv _ _ _ _ _ _ _ _ _ _ _ Hinv Etake) as [Hinv1 Hcall].
  destruct (submitRequest req' e q1) as [[z q2]| |] eqn:Es; try done. assert (z = 0) as -> by (by injection Es).
  exists q2, (asked ++ [(comp, nbytes)]). split; [done|].
  assert (reqs q2 = reqs q1) as Er by (injection Es as <-; done). split; [|by rewrite Er].
  apply (submit_inv false 0 req' e q1 q2 d [req'] _ [] []); try done.
  pose proof (ni_sq _ _ _ _ Hinv1) as Hsq. simpl in Hsq. pose proof (rg_head _ _ _ _ Hsq).
  unfold sq_room. simpl. pose proof (ring_tail_range _ _ _ _ Hsq).
  rewrite ring_next_mod by done. rewrite (rg_tail _ _ _ _ Hsq). simpl. slots_lia.
Qed.

(** The device does it, and the handler calls its completion. *)
Lemma idle_serve q d asked e comp nbytes :
  d_pending d = [] → nvme_inv false (Nvme q d [] asked) [e] [] → request_call (reqs q) (e_cid e) = Some (comp, nbytes) →
  ∃ d1 q2 d2 q3, device_fetch q d = Some d1 ∧ d_pending d1 = [e] ∧ device_complete 0 0 q d1 = Some (q2, d2) ∧
    queueCompleteRequests 2 q2 = Ok ((), q3) ∧ calls q3 = calls q ++ [(comp, nbytes)] ∧ idle q3 d2.
Proof.
  intros Hp Hinv Hcall. destruct (fetch_run _ _ _ _ _ _ _ Hinv) as (d1 & Hf & Hp1 & Hinv1).
  rewrite Hp in Hp1. simpl in Hp1.
  assert (is_Some (device_complete 0 0 q d1)) as [[q2 d2] Hc].
  { unfold device_complete. rewrite Hp1. pose proof (ni_cq _ _ _ _ Hinv1) as Hcq. simpl in Hcq.
    pose proof (proj2 (ni_doorbells _ _ _ _ Hinv1)) as Hdb. simpl in Hdb. rewrite Hdb.
    pose proof (ring_tail_range _ _ _ _ Hcq). rewrite ring_next_mod by done.
    rewrite (proj2 (Z.eqb_neq _ _)); [done|]. pose proof (rg_head _ _ _ _ Hcq).
    rewrite (rg_tail _ _ _ _ Hcq). simpl. slots_lia. }
  destruct (complete_inv _ _ _ _ _ _ _ _ _ _ _ Hinv1 (λ _, eq_refl) Hc) as (e' & He & Hp2 & Hr2 & Hc2 & Hinv2).
  rewrite Hp1 in He, Hp2. simpl in He. simplify_eq.
  assert (Z.shiftr (c_flags (Cqe (e_cid e') (d_phase d1 + 2 * 0))) 1 = 0) as Hz
    by (pose proof (ni_status _ _ _ _ Hinv2 eq_refl) as Hst; by apply Forall_cons in Hst as [? _]).
  destruct (turn_inv _ _ _ _ _ _ _ _ Hinv2 Hz) as (comp' & nb' & q3 & Hcall' & Ht & Hc3 & Hinv3).
  simpl in Hcall'. rewrite Hr2, Hcall in Hcall'. simplify_eq.
  exists d1, q2, d2, q3. split_and!; try done.
  - cbn [queueCompleteRequests]. rewrite (bind_step _ _ _ _ _ Ht). cbv iota.
    pose proof (complete_turn_run _ _ _ _ Hinv3) as Hend. simpl in Hend. by rewrite (bind_step _ _ _ _ _ Hend).
  - by rewrite Hc3, Hc2.
  - split; [done|]. by exists asked.
Qed.

(** ** The controller is a drive *)

Record nvme_ready (dr : DKDrive) c : Prop := NvmeReady {
  nr_block : m_blockSize dr = 512;
  nr_max : m_maxBlockTransfer dr = ct_maxBlockTransfer c ∧ ct_maxBlockTransfer c ≤ 4096;
  nr_idle : idle (ct_queue c) (ct_device c);
}.

Lemma nvme_read dr n off buf comp h c a b :
  nvme_ready dr c → 0 < n < m_maxBlockTransfer dr →
  able (1 + a) (2 + b) h → dma_target (pages_of h) buf (n * 512) →
  ∃ s1 h' c', nvme_readBlocks n off buf comp (h, c) = Ok (0, s1) ∧ nvme_wait comp s1 = Ok (n * 512, (h', c')) ∧
    nvme_ready dr c' ∧ ct_media c' = ct_media c ∧ able a b h' ∧ grown h h' ∧
    transferred buf (n * 512) (λ i, ct_media c (off * 512 + i)) (pages_of h) (pages_of h').
Proof.
  intros [Hbs [Hmax Hlim] Hidle] Hn Ha Hd. destruct c as [q d mx ns med]. simpl in *.
  destruct (idle_submit q d comp (n * 512) Hidle) as (req & q1 & Htake & Hsub).
  assert (mdl_nPages buf ≤ 512) as H512 by (pose proof (dt_len _ _ _ Hd); unfold PGSIZE in *; lia).
  destruct (prp_entries_run buf (n * 512) h (Ctl q1 d mx ns med) a b Hd ltac:(lia) H512 Ha)
    as (p0 & p1 & h1 & Hprp & Ha1 & Hq1 & Hl1 & Hpages).
  set (e := Sqe 2 req ns p0 p1 off (w16 (n - 1))).
  destruct (Hsub e) as (q2 & asked & Hs & Hinv & Hcall).
  destruct (idle_serve q2 d asked (set_cid req e) comp (n * 512) (proj1 Hidle) Hinv Hcall)
    as (d1 & q3 & d2 & q4 & Hf & Hp1 & Hc & Hqc & Hcalls & Hidle').
  set (p' := set_phys (device_read (set_cid req e) med) (pages_of h1)).
  exists (h1, Ctl q2 d mx ns med), (with_pages p' h1), (Ctl q4 d2 mx ns med). split_and!.
  - unfold nvme_readBlocks. erewrite bind_step by (unfold on_ioqueue; cbn [ct_queue]; by rewrite Htake).
    erewrite bind_step by reflexivity. cbn [snd ct_maxBlockTransfer ct_device ct_nsid ct_media].
    rewrite (proj2 (Z.ltb_lt n mx)), massert_bind by lia. rewrite (bind_step _ _ _ _ _ Hprp). cbn beta iota.
    unfold on_ioqueue. cbn [ct_queue]. fold e. by rewrite Hs.
  - unfold nvme_wait. erewrite bind_step
      by (unfold device_serve; cbn [ct_queue ct_device]; rewrite Hf, Hp1, Hc; reflexivity).
    erewrite bind_step by (unfold on_ioqueue; cbn [ct_queue]; rewrite Hqc; reflexivity).
    erewrite bind_step by reflexivity. cbn [snd ct_queue]. rewrite Hcalls, last_snoc, deref_bind. cbn [fst snd].
    by rewrite Z.eqb_refl.
  - split; simpl; done.
  - done.
  - by apply (with_phys_only _ h1).
  - pose proof (with_phys_only (device_read (set_cid req e) med) h1) as Hpo. fold p' in Hpo. split.
    + intros page Hpage. apply (qt_free _ _ Hq1). unfold on_queue in *. by rewrite (po_queues _ _ Hpo) in Hpage.
    + intros qq z Hlive. by apply Hpo, Hl1.
  - rewrite pages_of_with.
    assert (phys p' = dma_write (mdl_pages buf) (n * 512) (λ i, med (off * 512 + i)) (phys (pages_of h1))) as Ep.
    { unfold p', device_read. simpl. unfold w16. rewrite Z.mod_small by lia. rewrite Z.sub_add.
      by rewrite (Hpages (set_cid req e)). }
    destruct (dma_transferred buf (n * 512) (λ i, med (off * 512 + i)) (pages_of h1) p') as [Td Tr To].
    { eapply dma_target_free; [exact Hd|apply Hq1]. }
    { exact Ep. }
    split; [done| |].
    + intros i H0 Hi. rewrite Tr by done. apply (quiet_mdl h h1 buf (n * 512) i); try done; [by eapply able_zero|lia].
    + intros x Hx Hfree. rewrite To; [by apply (qt_bytes _ _ Hq1)|done|].
      intros (page & Hpage & Hin). apply Hfree. exists page. split; [by apply (qt_free _ _ Hq1)|done].
Qed.

#[export] Program Instance nvme_drive : Drives K controller := {
  drive_ready := nvme_ready;
  media _ c := ct_media c;
  drive_objs := 1;
  drive_pages := 2;
}.
Next Obligation.
  intros dr n off mdl comp h c a b Hr Hn Ho Hin Ha Ht. pose proof (nr_block _ _ Hr) as Hbs. rewrite Hbs in *.
  destruct (nvme_read dr n off mdl comp h c a b Hr Hn Ha Ht) as (s1 & h' & c' & H1 & H2 & H3 & H4 & H5 & H6 & H7).
  exists s1, h', c'. split_and!; try done. intros x. by rewrite H4.
Qed.
End props.

(** A transfer of as many blocks as the controller's maximum stops the kernel. *)
Lemma nvme_read_maximum {K} `{!KernelHeap K} dr off buf comp (h : K) c :
  nvme_ready dr c → is_fatal (nvme_readBlocks (ct_maxBlockTransfer c) off buf comp (h, c)).
Proof.
  intros [_ _ Hidle]. destruct (idle_submit _ _ comp (ct_maxBlockTransfer c * 512) Hidle) as (req & q1 & Htake & _).
  unfold nvme_readBlocks. erewrite bind_step by (unfold on_ioqueue; rewrite Htake; reflexivity).
  erewrite bind_step by reflexivity. cbn [snd ct_maxBlockTransfer]. by rewrite Z.ltb_irrefl.
Qed.


(** ** The second partition's first blocks, from an NVMe drive *)

Definition demo_controller : controller := Ctl queue_alloc device_reset 16 1 demo_media.
Lemma demo_controller_ready : nvme_ready demo_drive demo_controller.
Proof. split; [done|done|]. split; [done|]. exists []. exact (nvme_start_inv false). Qed.

