(* ===== verification/DevFs.v ===== *)
(** * Device files in tmpfs: dev/dev.c

    [devfs_make_node] creates a file in the directory [dev_vnode] of a tmpfs, which
    makes a node, a vnode, and the record of the device the vnode leads to.  This is
    what the disks of Gpt ask of devfs: tmpfs implements [DeviceNodes]. *)

From S2P Require Import Prelude Heap Disk Gpt ObjMem Vfs Tmpfs TmpfsProps Dev.
From Stdlib Require Import Ascii.
Open Scope Z_scope.

Section devfs.
Context {V : Type} `{!ObjectMemory V}.
Implicit Types (s : fs V).
(** [dev_vnode], and what [attr.size] holds. *)
Variables (dev_vnode junk : Z).

(** The names and device numbers of the entries, in order. *)
Definition entry_dev s (td : tmpdirent) : string * Z :=
  (String.string_of_list_ascii (td_name td),
   match nodes s !! td_node td with Some n => va_rdev (tn_attr n) | None => 0 end).
Definition dir_devs s : list (string * Z) :=
  match x ← vnodes s !! dev_vnode; n ← nodes s !! v_data x; dir_entries n with
  | Some es => entry_dev s <$> es
  | None => []
  end.

(** The devices' records have addresses of their own. *)
Definition specdevs_ok s : Prop :=
  NoDup (sd_addr <$> specdevs s) ∧ ∀ d, d ∈ specdevs s → om_live (memory s) (sd_addr d).
(** The directory is there and its entries' nodes are, and there is memory for
    [n] files: six allocations at most for each. *)
Record devfs_ready (n : nat) s : Prop := DevfsReady {
  dr_dir : ∃ x d es p, vnodes s !! dev_vnode = Some x ∧ v_type x = VDIR ∧ v_ops x = tmpfs_vnops ∧
    nodes s !! v_data x = Some d ∧ tn_body d = TDir es p ∧ ∀ td, td ∈ es → is_Some (nodes s !! td_node td);
  dr_nodes a y : nodes s !! a = Some y → om_live (memory s) a;
  dr_vnodes a y : vnodes s !! a = Some y → om_live (memory s) a;
  dr_specdevs : specdevs_ok s;
  dr_memory : ∃ k, (6 * n ≤ k)%nat ∧ om_ready k (memory s);
}.

(** The node, for a character device. *)
Lemma tmakenode_device s dn d es p nm attr k :
  nodes s !! dn = Some d → tn_body d = TDir es p → om_live (memory s) dn → om_ready (S (S (S k))) (memory s) →
  va_type attr = VCHR →
  ∃ n td m, tmakenode dn nm (Some attr) s = Ok (n,
      Fs m (<[dn := with_entry (Dirent td nm n) d es p]>
              (<[n := Tmpnode None (Vattr VCHR (va_mode attr) 0 (va_rdev attr)) TNone]> (nodes s)))
        (vnodes s) (vfs_data s) (specdevs s)) ∧
    om_ready k m ∧ grown (memory s) m ∧ ¬ om_live (memory s) n ∧ om_live m n ∧ n ≠ dn.
Proof.
  intros Hd Hb Hdn Hr Hty. unfold tmakenode.
  destruct (mem_alloc _ sizeof_tmpnode _ Hr) as (n & m1 & A1 & R1 & F1 & L1 & G1); [done|].
  rewrite (bind_step _ _ _ _ _ (on_memory_ok _ s _ _ A1)).
  destruct (mem_alloc _ sizeof_tmpdirent m1 R1) as (td & m2 & A2 & R2 & F2 & L2 & G2); [done|].
  rewrite (bind_step _ _ _ _ _ (on_memory_ok _ (set_memory m1 s) _ _ A2)).
  destruct (mem_alloc _ (Z.of_nat (length nm) + 1) m2 R2) as (q & m3 & A3 & R3 & F3 & L3 & G3); [lia|].
  rewrite (bind_step _ _ _ _ _ (on_memory_ok _ (set_memory m2 s) _ _ A3)), deref_bind. cbv zeta.
  pose proof (grown_trans _ _ _ G1 (grown_trans _ _ _ G2 G3)) as G.
  assert (n ≠ dn) as Hne by (intros ->; done).
  rewrite Hty. erewrite bind_step by reflexivity. erewrite bind_step by reflexivity.
  exists n, td, m3. split_and!; try done; [|by apply (gr_live _ _ G3), (gr_live _ _ G2)].
  set (s1 := set_node _ _ _).
  assert (nodes s1 !! dn = Some d) as Hd1 by (unfold s1; simpl; by rewrite lookup_insert_ne).
  rewrite (bind_step _ _ _ _ _ (get_node_ok _ _ _ Hd1)), Hb. by erewrite bind_step by reflexivity.
Qed.

(** The record of a device, an old one or a new one, has the vnode. *)
Lemma setup_found s vn d :
  d ∈ specdevs s → NoDup (sd_addr <$> specdevs s) →
  let l := tq_update sd_addr (sd_addr d) (λ d, Specdev (sd_addr d) (sd_dev d) (vn :: sd_vnodes d)) (specdevs s) in
  sd_addr <$> l = sd_addr <$> specdevs s ∧
  tq_find sd_addr (sd_addr d) l = Some (Specdev (sd_addr d) (sd_dev d) (vn :: sd_vnodes d)).
Proof.
  intros Hd HN. destruct (tq_split sd_addr _ d Hd HN) as (l1 & l2 & -> & H1 & H2). cbv zeta.
  rewrite tq_update_at by done. rewrite !fmap_app, !fmap_cons. split; [done|]. by rewrite tq_find_at.
Qed.
Lemma setup_device s vn (dev : Z) k :
  specdevs_ok s → om_ready (S k) (memory s) →
  ∃ a m sd k', spec_setup_vnode vn dev s = Ok (a, Fs m (nodes s) (vnodes s) (vfs_data s) sd) ∧
    (∃ d, tq_find sd_addr a sd = Some d ∧ sd_dev d = dev ∧ vn ∈ sd_vnodes d) ∧
    specdevs_ok (Fs m (nodes s) (vnodes s) (vfs_data s) sd) ∧
    (k ≤ k')%nat ∧ om_ready k' m ∧ grown (memory s) m.
Proof.
  intros [HN Hl] Hr. unfold spec_setup_vnode. erewrite bind_step by reflexivity.
  destruct (List.find (λ d, sd_dev d =? dev) (specdevs s)) as [d|] eqn:Ef.
  - apply List.find_some in Ef as [Hin%list_elem_of_In Hdev%Z.eqb_eq].
    destruct (setup_found s vn d Hin HN) as [E1 E2].
    do 4 eexists. split; [by erewrite !bind_step by reflexivity|]. split_and!.
    + eexists. split; [exact E2|]. split; [done|by left].
    + split; cbn [specdevs memory]; [by rewrite E1|]. intros x Hx.
      assert (sd_addr x ∈ (sd_addr <$> specdevs s)) as (y & -> & Hy)%list_elem_of_fmap
        by (rewrite <-E1; by apply list_elem_of_fmap_2). by apply Hl.
    + apply Nat.le_succ_diag_r.
    + done.
    + by split.
  - destruct (mem_alloc _ sizeof_specdev _ Hr) as (q & m & A & R & F & L & G); [done|].
    set (s1 := Fs m (nodes s) (vnodes s) (vfs_data s) (Specdev q dev [] :: specdevs s)).
    assert (NoDup (sd_addr <$> specdevs s1)) as HN1.
    { cbn. apply NoDup_cons. split; [|done]. intros (y & -> & Hy)%list_elem_of_fmap. by apply F, Hl. }
    destruct (setup_found s1 vn (Specdev q dev []) ltac:(by left) HN1) as [E1 E2].
    exists q, m. eexists _, k. split.
    + rewrite (bind_step _ _ s (Specdev q dev []) s1); [by erewrite !bind_step by reflexivity|].
      by rewrite (bind_step _ _ _ _ _ (on_memory_ok _ s _ _ A)).
    + split_and!; try done.
      * eexists. split; [exact E2|]. split; [done|by left].
      * split; cbn [specdevs memory]; [by rewrite E1|]. intros x Hx.
        assert (sd_addr x ∈ (sd_addr <$> specdevs s1)) as (y & -> & Hy)%list_elem_of_fmap
          by (rewrite <-E1; by apply list_elem_of_fmap_2).
        apply elem_of_cons in Hy as [->|Hy]; [done|]. by apply (gr_live _ _ G), Hl.
Qed.

(** Its vnode, which leads to the record of the device. *)
Lemma vget_device s vfs n a k :
  nodes s !! n = Some (Tmpnode None a TNone) → va_type a = VCHR → specdevs_ok s → om_ready (S (S k)) (memory s) →
  ∃ vn m y sd k', tmpfs_vget vfs n s = Ok ((0, Some vn),
      Fs m (<[n := Tmpnode (Some vn) a TNone]> (nodes s)) (<[vn := y]> (vnodes s)) (vfs_data s) sd) ∧
    v_ops y = tmpfs_spec_vnops ∧ v_data y = n ∧
    (∃ d, tq_find sd_addr (v_specdev y) sd = Some d ∧ sd_dev d = va_rdev a ∧ vn ∈ sd_vnodes d) ∧
    specdevs_ok (Fs m (nodes s) (vnodes s) (vfs_data s) sd) ∧
    (k ≤ k')%nat ∧ om_ready k' m ∧ ¬ om_live (memory s) vn ∧ om_live m vn ∧ grown (memory s) m.
Proof.
  intros Hn Ht [HN Hl] Hr. unfold tmpfs_vget. rewrite (bind_step _ _ _ _ _ (get_node_ok _ _ _ Hn)). cbn [tn_vn tn_attr tn_body].
  destruct (mem_alloc _ sizeof_vnode _ Hr) as (vn & m1 & A & R & F & L & G); [done|].
  rewrite (bind_step _ _ _ _ _ (on_memory_ok _ s _ _ A)). erewrite bind_step by reflexivity.
  rewrite Ht. cbv zeta. erewrite bind_step by reflexivity. rewrite !decide_True by done.
  set (s1 := set_node _ _ _).
  assert (specdevs_ok s1) as Hs1 by (split; [done|]; intros d Hd; by apply (gr_live _ _ G), Hl).
  destruct (setup_device s1 vn (va_rdev a) k Hs1 R) as (p & m & sd & k' & E & Hd & Hsd & Hk & Hr' & G').
  rewrite (bind_step _ _ _ _ _ E). erewrite bind_step by reflexivity.
  eexists vn, m, _, sd, k'. split; [done|]. split_and!; try done; [by apply (gr_live _ _ G')|by eapply grown_trans].
Qed.

Lemma dir_devs_eq s x d es p :
  vnodes s !! dev_vnode = Some x → nodes s !! v_data x = Some d → tn_body d = TDir es p →
  dir_devs s = entry_dev s <$> es.
Proof. intros Hx Hd Hb. unfold dir_devs. rewrite Hx. cbn. rewrite Hd. cbn. unfold dir_entries. by rewrite Hb. Qed.
Lemma entry_dev_same s s' td :
  (∃ n n', nodes s !! td_node td = Some n ∧ nodes s' !! td_node td = Some n' ∧
     va_rdev (tn_attr n') = va_rdev (tn_attr n)) → entry_dev s' td = entry_dev s td.
Proof. intros (n & n' & H & H' & E). unfold entry_dev. by rewrite H, H', E. Qed.

(** A directory with one more entry, where the nodes of the others keep their devices. *)
Lemma dir_devs_snoc s s' x d d' es p td nm a n :
  vnodes s !! dev_vnode = Some x → nodes s !! v_data x = Some d → tn_body d = TDir es p →
  vnodes s' !! dev_vnode = Some x → nodes s' !! v_data x = Some d' → tn_body d' = TDir (es ++ [Dirent td nm a]) p →
  nodes s' !! a = Some n → (∀ td, td ∈ es → is_Some (nodes s !! td_node td)) →
  (∀ b z, nodes s !! b = Some z → ∃ z', nodes s' !! b = Some z' ∧ tn_attr z' = tn_attr z) →
  dir_devs s' = dir_devs s ++ [(String.string_of_list_ascii nm, va_rdev (tn_attr n))].
Proof.
  intros Hx Hd Hb Hx' Hd' Hb' Ha Hes Hkeep.
  rewrite (dir_devs_eq s' x d' _ p Hx' Hd' Hb'), (dir_devs_eq s x d es p Hx Hd Hb), fmap_app. f_equal.
  - apply list_fmap_ext. intros i e He. apply entry_dev_same.
    destruct (Hes e) as [z Hz]; [by eapply list_elem_of_lookup_2|]. destruct (Hkeep _ _ Hz) as (z' & Hz' & E2).
    exists z, z'. by rewrite E2.
  - cbn [fmap list_fmap]. unfold entry_dev. cbn [td_node td_name]. by rewrite Ha.
Qed.
Lemma live_inserted {A} m (k : Z) (y : A) (f : gmap Z A) :
  om_live m k → (∀ b z, f !! b = Some z → om_live m b) → ∀ b z, <[k := y]> f !! b = Some z → om_live m b.
Proof. intros Hk Hf b z [[<- _]|[_ Hz]]%lookup_insert_Some; eauto. Qed.

Lemma make_node_run s (dev : Z) nm n :
  devfs_ready (S n) s →
  ∃ vn s', devfs_make_node dev_vnode dev nm junk s = Ok ((0, Some vn), s') ∧ devfs_ready n s' ∧
    dir_devs s' = dir_devs s ++ [(String.string_of_list_ascii nm, dev)] ∧
    ∀ major switch c, switch !! Z.to_nat (major dev) = Some c → spec_dev major switch vn s' = Ok ((dev, c), s').
Proof.
  intros [(x & d & es & p & Hx & Hty & Hops & Hd & Hb & Hes) Hln Hlv Hsd (k & Hk & Hr)].
  replace k with (S (S (S (S (S (k - 5))))))%nat in Hr by lia.
  unfold devfs_make_node. cbn [vn_create tmpfs_vnodes]. rewrite (bind_step _ _ _ _ _ (get_vnode_ok _ _ _ Hx)).
  rewrite decide_True by done. unfold tmp_create. rewrite (bind_step _ _ _ _ _ (get_vnode_ok _ _ _ Hx)).
  rewrite bool_decide_true, massert_bind by done.
  destruct (tmakenode_device s (v_data x) d es p nm (Vattr VCHR (Z.lor 420 S_IFCHR) junk dev) _ Hd Hb (Hln _ _ Hd) Hr eq_refl)
    as (a & td & m & E & R & G & Fa & La & Hne).
  rewrite (bind_step _ _ _ _ _ E). cbn [va_mode va_rdev] in *. set (at_ := Vattr VCHR _ 0 dev) in *. set (s1 := Fs m _ _ _ _).
  assert (specdevs_ok s1) as Hsd1 by (destruct Hsd as [HN Hl]; split; [done|]; intros y Hy; by apply (gr_live _ _ G), Hl).
  assert (nodes s1 !! a = Some (Tmpnode None at_ TNone)) as Ha1 by (cbn; by rewrite lookup_insert_ne, lookup_insert_eq).
  destruct (vget_device s1 (v_vfsp x) a at_ (k - 5) Ha1 eq_refl Hsd1 R)
    as (vn & m' & y & sd & k' & E' & Hy1 & Hy2 & (dv & Hdv & Hdev & Hin) & Hsd' & Hk' & R' & Fv & Lv & G').
  pose proof (grown_trans _ _ _ G G') as GT.
  assert (vn ≠ dev_vnode) as Hvn by (intros ->; by apply Fv, (gr_live _ _ G), (Hlv _ x)).
  exists vn. eexists. split; [exact E'|].
  set (nd := with_entry (Dirent td nm a) d es p) in *. set (s' := Fs m' _ _ _ sd).
  assert (nodes s' !! a = Some (Tmpnode (Some vn) at_ TNone)) as Na by (cbn; by rewrite lookup_insert_eq).
  assert (nodes s' !! v_data x = Some nd) as Nd by (cbn; by rewrite lookup_insert_ne, lookup_insert_eq).
  assert (∀ b, b ≠ a → b ≠ v_data x → nodes s' !! b = nodes s !! b) as Nb
    by (intros b Hb1 Hb2; cbn; by rewrite !lookup_insert_ne).
  assert (vnodes s' !! dev_vnode = Some x) as Vx by (cbn; by rewrite lookup_insert_ne).
  assert (∀ b, is_Some (nodes s !! b) → b ≠ a) as Hold by (intros b [z Hz] ->; by apply Fa, (Hln _ z)).
  assert (∀ b z, nodes s !! b = Some z → ∃ z', nodes s' !! b = Some z' ∧ tn_attr z' = tn_attr z) as Hkeep.
  { intros b z Hz. destruct (decide (b = v_data x)) as [->|Hbd]; [exists nd; by simplify_eq|].
    exists z. split; [|done]. rewrite Nb; [done|by apply Hold|done]. }
  split_and!.
  - split; [| | |done|by exists k'; split; [lia|]].
    + exists x, nd, (es ++ [Dirent td nm a]), p. split_and!; try done.
      intros e [He| ->%list_elem_of_singleton]%elem_of_app; [|by eexists].
      destruct (Hes e He) as [z Hz]. destruct (Hkeep _ _ Hz) as (z' & ? & _). by eexists.
    + apply (live_inserted m'); [by apply (gr_live _ _ G')|]. apply (live_inserted m'); [by apply (gr_live _ _ GT), (Hln _ d)|].
      apply (live_inserted m'); [by apply (gr_live _ _ G')|]. intros b z Hz. by apply (gr_live _ _ GT), (Hln _ z).
    + apply (live_inserted m'); [done|]. intros b z Hz. by apply (gr_live _ _ GT), (Hlv _ z).
  - exact (dir_devs_snoc s s' x d nd es p td nm a _ Hx Hd Hb Vx Nd eq_refl Na Hes Hkeep).
  - intros major switch c Hc. unfold spec_dev.
    assert (vnodes s' !! vn = Some y) as Vy by (cbn; by rewrite lookup_insert_eq).
    rewrite (bind_step _ _ _ _ _ (get_vnode_ok _ _ _ Vy)). erewrite bind_step by reflexivity.
    change (specdevs s') with sd. rewrite Hdv, deref_bind, Hdev. change (va_rdev at_) with dev. by rewrite Hc, deref_bind.
Qed.

(** C35: Making a device file in a directory of a tmpfs returns 0 and a vnode, adds one
    entry, with its name and device number, after the others and keeps those, and
    opening, reading or writing the vnode calls the driver of that device's major
    number with that device. *)
Theorem devfs_make_node_correct s (dev : Z) nm n :
  devfs_ready (S n) s →
  ∃ vn s', devfs_make_node dev_vnode dev nm junk s = Ok ((0, Some vn), s') ∧ devfs_ready n s' ∧
    dir_devs s' = dir_devs s ++ [(String.string_of_list_ascii nm, dev)] ∧
    ∀ major switch c, switch !! Z.to_nat (major dev) = Some c →
      (∀ f mode, cd_open c = Some f → spec_open major switch vn mode s' = f dev mode s') ∧
      (∀ f nbyte off, cd_read c = Some f → spec_read major switch vn nbyte off s' = f dev nbyte off s') ∧
      ∀ f buf off, cd_write c = Some f → spec_write major switch vn buf off s' = f dev buf off s'.
Proof.
  intros Hr. destruct (make_node_run s dev nm n Hr) as (vn & s' & E & Hr' & Hd & Hdev).
  exists vn, s'. split; [done|]. split; [done|]. split; [done|]. intros major switch c Hc.
  specialize (Hdev major switch c Hc). unfold spec_open, spec_read, spec_write.
  split_and!; intros * Hf; by rewrite (bind_step _ _ _ _ _ Hdev), Hf, deref_bind.
Qed.

Lemma devfs_ready_less n s : devfs_ready (S n) s → devfs_ready n s.
Proof. intros [H1 H2 H3 H4 (k & Hk & Hr)]. split; try done. exists k. split; [lia|done]. Qed.

(** What the disks ask of devfs. *)
#[export] Program Instance devfs_nodes : DeviceNodes (fs V) := {
  make_node dev nm := '(r, _) ← devfs_make_node dev_vnode dev (String.list_ascii_of_string nm) junk; mret r;
  dev_nodes := dir_devs;
  nodes_ready := devfs_ready;
}.
Next Obligation.
  intros n dev nm s H. destruct (make_node_run s dev (String.list_ascii_of_string nm) n H) as (vn & s' & E & Hr & Hd & _).
  exists s'. rewrite (bind_step _ _ _ _ _ E). split; [done|]. split; [done|].
  by rewrite Hd, String.string_of_list_ascii_of_string.
Qed.
Next Obligation. intros n s. apply devfs_ready_less. Qed.
End devfs.

(** ** The partitions of a disk in the directory of a tmpfs *)

Lemma tree0_devfs n : devfs_ready 9 n tree0.
Proof.
  split.
  - do 4 eexists. split_and!; try reflexivity. intros td ->%list_elem_of_singleton. by eexists.
  - intros a y [[-> _]|[-> _]]%tree0_node; simpl; lia.
  - intros a y [[-> _]|[-> _]]%tree0_vnode; simpl; lia.
  - split; [by apply NoDup_nil|]. by intros d ?%elem_of_nil.
  - by exists (6 * n)%nat.
Qed.

(** A switch whose sixth driver opens everything. *)
Definition demo_switch : list (cdevsw (V := flat)) :=
  <[5%nat := Cdevsw true false 0 (Some (λ dev _, mret (dev, None))) None None None]> cdevsw_table.

Lemma devfs_make_node_correct_witness :
  ∃ vn s', devfs_make_node 9 1281 gname 0 tree0 = Ok ((0, Some vn), s') ∧
    dir_devs 9 s' = [("f"%string, 0); ("g"%string, 1281)] ∧
    spec_open (λ d, d / 256) demo_switch vn 0 s' = Ok ((1281, None), s').
Proof.
  destruct (devfs_make_node_correct 9 0 tree0 1281 gname 0 (tree0_devfs 1)) as (vn & s' & E & _ & Hd & Hs).
  exists vn, s'. split; [exact E|]. split; [exact Hd|].
  destruct (Hs (λ d, d / 256) demo_switch _ eq_refl) as [Ho _]. by rewrite (Ho _ _ eq_refl).
Defined.

Definition demo_dk : dkstate counter_heap flat_drive (fs flat) :=
  Dk (demo_io_heap, FlatDrive demo_img 0) tree0 0 [].

Lemma gpt_probe_correct_witness :
  ∃ s', gpt_probe (DeviceNodes0 := devfs_nodes 9 0) 0 5 (λ x y, 256 * x + y) demo_fmt demo_disk demo_dk = Ok (true, s') ∧
    dk_disks s' = [Logical (DKLogicalDisk_ 1536 3072 1 (replicate 36 0)) demo_disk;
                   Logical (DKLogicalDisk_ 5120 27136 3 (replicate 36 0)) demo_disk] ∧
    dir_devs 9 (dk_devfs s') = [("f", 0); ("dk0s1", 1280); ("dk0s3", 1281)]%string.
Proof.
  destruct (gpt_probe_correct (DeviceNodes0 := devfs_nodes 9 0) 0 5 (λ x y, 256 * x + y) demo_fmt demo_disk demo_img demo_dk 0 0 0)
    as (s' & Hrun & Hreg & _).
  - exact demo_image.
  - intros l. by eexists.
  - done.
  - done.
  - apply tree0_devfs.
  - apply demo_able. vm_compute. lia.
  - exists s'. split; [exact Hrun|]. split.
    + rewrite (rg_disks _ _ _ _ _ _ _ _ _ _ Hreg). by vm_compute.
    + etransitivity; [apply (rg_files _ _ _ _ _ _ _ _ _ _ Hreg)|]. by vm_compute.
Defined.
