(* ===== verification/IoApic.v ===== *)
(** * I/O APICs: dev/IOApic.m

    An I/O APIC turns the lines of devices (GSIs) into interrupt vectors.  Its registers
    are reached through a select register and a window, as its data sheet says;
    what it sends when a line is raised is read off the redirection entry.  The
    handlers and the vectors are those of Intr.  A name and a place in the device
    tree are left out. *)

From S2P Require Import Prelude Intr.
Open Scope Z_scope.

Definition kDeliveryModeFixed : Z := 0x0.
Definition kDestinationModePhysical : Z := 0x0.
Definition kRegisterVersion : Z := 0x1.
Definition kRegisterRedirectionEntriesBase : Z := 0x10.

(** ** The device *)

(** The select register and the registers behind the window. *)
Record ioregs := IoRegs { io_select : Z; io_reg : Z → Z }.
Definition io_set (reg val : Z) (r : ioregs) : ioregs :=
  IoRegs (io_select r) (λ j, if j =? reg then val else io_reg r j).
(** Words 0 and 4 of its memory; the version is read-only. *)
Definition mmio_store (word val : Z) (r : ioregs) : ioregs :=
  if word =? 0 then IoRegs (w8 val) (io_reg r)
  else if (word =? 4) && negb (io_select r =? kRegisterVersion) then io_set (io_select r) val r
  else r.
Definition mmio_load (word : Z) (r : ioregs) : Z :=
  if word =? 0 then io_select r else if word =? 4 then io_reg r (io_select r) else 0.

(** What it sends for the line of a pin, unless the entry is masked: the local APIC it
    goes to and the vector, and when: whether the line is active when low, and whether it
    is its level that counts.  Entries that are not fixed and physical are not
    made here. *)
Record signal := Signal { sg_dest : Z; sg_vector : Z; sg_low : bool; sg_level : bool }.
Definition io_signal (r : ioregs) (pin : Z) : option signal :=
  let low := io_reg r (16 + 2 * pin) in
  let high := io_reg r (16 + 2 * pin + 1) in
  if Z.testbit low 16 then None
  else if (Z.land (Z.shiftr low 8) 7 =? 0) && negb (Z.testbit low 11)
  then Some (Signal (Z.shiftr high 24) (Z.land low 255) (Z.testbit low 13) (Z.testbit low 15)) else None.

(** ** The driver *)

(** The instance variables of [IOApic]. *)
Record IOApic := IOApic_ {
  io_id : Z;
  io_vaddr : Z;
  io_gsi_base : Z;
  io_n_redirs : Z;
  redirs : list Z;
}.
(** The machine, the devices by where they are mapped, and the list [ioapics]. *)
Record apics := Apics {
  ap_machine : machine;
  ap_regs : Z → ioregs;
  ioapics : list IOApic;
}.
Definition set_regs (vaddr : Z) (r : ioregs) (s : apics) : apics :=
  Apics (ap_machine s) (λ a, if a =? vaddr then r else ap_regs s a) (ioapics s).
Definition set_ioapics (l : list IOApic) (s : apics) : apics := Apics (ap_machine s) (ap_regs s) l.
Definition on_machine {A} (m : M machine A) : M apics A := λ s,
  match m (ap_machine s) with
  | Ok (a, x) => Ok (a, Apics x (ap_regs s) (ioapics s))
  | Fatal w => Fatal w
  | Undef w => Undef w
  end.

Definition store (vaddr word val : Z) : M apics unit :=
  mmodify (λ s, set_regs vaddr (mmio_store word (w32 val) (ap_regs s vaddr)) s).
Definition load (vaddr word : Z) : M apics Z := s ← mget; mret (mmio_load word (ap_regs s vaddr)).

Definition redirection_register (entry : Z) : Z := w32 (kRegisterRedirectionEntriesBase + entry * 2).
Definition ioapic_read (vaddr reg : Z) : M apics Z := store vaddr 0 reg;; load vaddr 4.
Definition ioapic_write (vaddr reg val : Z) : M apics unit := store vaddr 0 reg;; store vaddr 4 val.

Definition ioapic_entry (vec : Z) (lopol : bool) : Z :=
  let ent := vec in
  let ent := Z.lor ent (Z.shiftl kDeliveryModeFixed 8) in
  let ent := Z.lor ent (Z.shiftl kDestinationModePhysical 11) in
  let ent := Z.lor ent (Z.shiftl 1 56) in
  let ent := if lopol then Z.lor ent (Z.shiftl 1 13) else ent in
  Z.lor ent (Z.shiftl 1 15).
Definition ioapic_route (vaddr i vec : Z) (lopol : bool) : M apics unit :=
  let ent := ioapic_entry vec lopol in
  ioapic_write vaddr (redirection_register i) ent;;
  ioapic_write vaddr (w32 (redirection_register i + 1)) (Z.shiftr ent 32).

Definition initWithID (id address gsiBase : Z) : M apics unit :=
  let vaddr := w64 (HHDM_BASE + address) in
  v ← ioapic_read vaddr kRegisterVersion;
  let n := Z.land (Z.shiftr v 16) 0xff + 1 in
  massert (n <=? 24) "assert(_n_redirs <= 24)";;
  mmodify (λ s, set_ioapics (ioapics s ++ [IOApic_ id vaddr gsiBase n (replicate 24 0)]) s).

(** The test of the loop. *)
Definition serves (gsi : Z) (a : IOApic) : bool :=
  (io_gsi_base a <=? gsi) && (gsi <? w32 (io_gsi_base a + io_n_redirs a)).

Definition handleGSI (gsi handler arg : Z) (lopol : bool) (prio : Z) : M apics Z :=
  s ← mget;
  match list_find (λ a, serves gsi a = true) (ioapics s) with
  | None => mret (-1)
  | Some (k, a) =>
      let intr := w8 (gsi - io_gsi_base a) in
      old ← deref (redirs a !! Z.to_nat intr) "redirs";
      massert (old =? 0) "assert(ioapic->redirs[intr] == 0)";;
      vec ← on_machine (md_intr_alloc kSPL0 handler arg);
      if vec <? 0 then mret (-1) else
      ioapic_route (io_vaddr a) intr (w8 vec) lopol;;
      mmodify (λ s, set_ioapics (<[k := IOApic_ (io_id a) (io_vaddr a) (io_gsi_base a) (io_n_redirs a)
                                        (<[Z.to_nat intr := w8 vec]> (redirs a))]> (ioapics s)) s);;
      mret 0
  end.

Implicit Types (s : apics).

(** ** What an entry means *)

(** Every entry goes to the local APIC 1, with its vector and polarity, by level. *)
Lemma entry_signal r pin vec lopol :
  0 ≤ vec < 256 → io_reg r (16 + 2 * pin) = w32 (ioapic_entry vec lopol) →
  io_reg r (16 + 2 * pin + 1) = w32 (Z.shiftr (ioapic_entry vec lopol) 32) →
  io_signal r pin = Some (Signal 1 vec lopol true).
Proof.
  intros Hv H1 H2. unfold io_signal. rewrite H1, H2. clear H1 H2.
  set (sig := λ v, let low := w32 (ioapic_entry v lopol) in let high := w32 (Z.shiftr (ioapic_entry v lopol) 32) in
    if Z.testbit low 16 then None
    else if (Z.land (Z.shiftr low 8) 7 =? 0) && negb (Z.testbit low 11)
    then Some (Signal (Z.shiftr high 24) (Z.land low 255) (Z.testbit low 13) (Z.testbit low 15)) else None).
  assert (forallb (λ v, match sig v with
    | Some (Signal dest u low level) => (dest =? 1) && (u =? v) && Bool.eqb low lopol && level
    | None => false
    end) (seqZ 0 256) = true) as H
    by (destruct lopol; by vm_compute).
  rewrite forallb_forall in H. specialize (H vec ltac:(apply list_elem_of_In, elem_of_seqZ; lia)).
  fold (sig vec). destruct (sig vec) as [[dest u low level]|]; [|done].
  rewrite !andb_true_iff, !Z.eqb_eq, Bool.eqb_true_iff in H. by destruct H as [[[-> ->] ->] ->].
Qed.

(** ** Routing *)

(** Only the registers of one device change, to what [f] says. *)
Definition rewritten s s' (vaddr : Z) (f : Z → Z) : Prop :=
  ap_machine s' = ap_machine s ∧ ioapics s' = ioapics s ∧ (∀ a, a ≠ vaddr → ap_regs s' a = ap_regs s a) ∧
  ∀ x, io_reg (ap_regs s' vaddr) x = f x.

Lemma ioapic_write_run vaddr reg val s :
  0 ≤ reg < 256 → reg ≠ kRegisterVersion →
  ∃ s', ioapic_write vaddr reg val s = Ok ((), s') ∧
    rewritten s s' vaddr (λ x, if x =? reg then w32 val else io_reg (ap_regs s vaddr) x).
Proof.
  intros Hr Hv. eexists. split; [reflexivity|].
  assert (w8 (w32 reg) = reg) as E by (rewrite w32_small by lia; apply Z.mod_small; lia).
  split; [done|]. split; [done|]. unfold set_regs. cbn [ap_regs]. split.
  - intros a Ha. by rewrite !(proj2 (Z.eqb_neq a vaddr)) by done.
  - intros x. rewrite !Z.eqb_refl. unfold mmio_store. cbn. rewrite E.
    by rewrite (proj2 (Z.eqb_neq reg kRegisterVersion)) by done.
Qed.

Lemma ioapic_route_run vaddr i vec lopol s :
  0 ≤ i < 24 →
  ∃ s', ioapic_route vaddr i vec lopol s = Ok ((), s') ∧
    rewritten s s' vaddr (λ x, if x =? 16 + 2 * i then w32 (ioapic_entry vec lopol)
                               else if x =? 16 + 2 * i + 1 then w32 (Z.shiftr (ioapic_entry vec lopol) 32)
                               else io_reg (ap_regs s vaddr) x).
Proof.
  intros Hi. unfold ioapic_route.
  assert (redirection_register i = 16 + 2 * i) as E1
    by (unfold redirection_register, kRegisterRedirectionEntriesBase; rewrite w32_small; lia).
  rewrite E1, (w32_small (16 + 2 * i + 1)) by lia. unfold kRegisterVersion in *.
  destruct (ioapic_write_run vaddr (16 + 2 * i) (ioapic_entry vec lopol) s) as (s1 & R1 & M1 & L1 & O1 & F1);
    [lia|unfold kRegisterVersion; lia|].
  rewrite (bind_step _ _ _ _ _ R1).
  destruct (ioapic_write_run vaddr (16 + 2 * i + 1) (Z.shiftr (ioapic_entry vec lopol) 32) s1) as (s2 & R2 & M2 & L2 & O2 & F2);
    [lia|unfold kRegisterVersion; lia|].
  exists s2. split; [done|]. split; [congruence|]. split; [congruence|]. split.
  - intros a Ha. by rewrite O2, O1.
  - intros x. rewrite F2, F1. destruct (Z.eqb_spec x (16 + 2 * i)), (Z.eqb_spec x (16 + 2 * i + 1)); (done || lia).
Qed.

(** ** The invariant *)

(** Each device has pins for its GSIs, no two have the same; the vector that is
    noted for a pin is what the device sends for it and has a handler, and no two
    pins have the same. *)
Record apics_ok s : Prop := ApicsOk {
  ao_pins a : a ∈ ioapics s → 0 < io_n_redirs a ≤ 24 ∧ length (redirs a) = 24%nat ∧
    0 ≤ io_gsi_base a ∧ io_gsi_base a + io_n_redirs a < 2^32;
  ao_apart j k a b : j ≠ k → ioapics s !! j = Some a → ioapics s !! k = Some b →
    io_vaddr a ≠ io_vaddr b ∧ (io_gsi_base a + io_n_redirs a ≤ io_gsi_base b ∨ io_gsi_base b + io_n_redirs b ≤ io_gsi_base a);
  ao_routed a i v : a ∈ ioapics s → redirs a !! i = Some v → v ≠ 0 →
    (∃ low, io_signal (ap_regs s (io_vaddr a)) (Z.of_nat i) = Some (Signal 1 v low true)) ∧ 32 ≤ v < 256 ∧
    handler (md_intrs (ap_machine s) v) ≠ 0;
  ao_alone j k a b i i' v : ioapics s !! j = Some a → ioapics s !! k = Some b →
    redirs a !! i = Some v → redirs b !! i' = Some v → v ≠ 0 → j = k ∧ i = i';
}.

(** The device and the pin of a GSI, the vector noted for it, and what is sent when
    its line is raised. *)
Definition gsi_pin s (gsi : Z) : option (IOApic * nat) :=
  '(_, a) ← list_find (λ a, serves gsi a = true) (ioapics s); Some (a, Z.to_nat (gsi - io_gsi_base a)).
Definition gsi_vector s (gsi : Z) : option Z := '(a, i) ← gsi_pin s gsi; redirs a !! i.
Definition gsi_signal s (gsi : Z) : option signal :=
  '(a, i) ← gsi_pin s gsi; io_signal (ap_regs s (io_vaddr a)) (Z.of_nat i).

Lemma serves_spec s a gsi :
  apics_ok s → a ∈ ioapics s → serves gsi a = true ↔ io_gsi_base a ≤ gsi < io_gsi_base a + io_n_redirs a.
Proof.
  intros Hok Ha. destruct (ao_pins _ Hok _ Ha) as (Hn & _ & Hb & He). unfold serves.
  rewrite w32_small, andb_true_iff, Z.leb_le, Z.ltb_lt by lia. lia.
Qed.

Lemma found_at s k a gsi :
  apics_ok s → ioapics s !! k = Some a → io_gsi_base a ≤ gsi < io_gsi_base a + io_n_redirs a →
  list_find (λ a, serves gsi a = true) (ioapics s) = Some (k, a).
Proof.
  intros Hok Hk Hg. apply list_find_Some. split; [done|]. split.
  - apply (serves_spec s); [done|by eapply list_elem_of_lookup_2|done].
  - intros j b Hj Hlt Hs. apply (serves_spec s) in Hs; [|done|by eapply list_elem_of_lookup_2].
    destruct (ao_apart _ Hok j k b a) as [_ ?]; [lia|done|done|]. lia.
Qed.
Lemma found_inv s k a gsi :
  apics_ok s → list_find (λ a, serves gsi a = true) (ioapics s) = Some (k, a) →
  ioapics s !! k = Some a ∧ io_gsi_base a ≤ gsi < io_gsi_base a + io_n_redirs a.
Proof.
  intros Hok (Hk & Hs & _)%list_find_Some. split; [done|].
  apply (serves_spec s) in Hs; [done|done|by eapply list_elem_of_lookup_2].
Qed.

Lemma io_signal_ext r r' pin :
  io_reg r (16 + 2 * pin) = io_reg r' (16 + 2 * pin) → io_reg r (16 + 2 * pin + 1) = io_reg r' (16 + 2 * pin + 1) →
  io_signal r pin = io_signal r' pin.
Proof. unfold io_signal. by intros -> ->. Qed.

(** A free pin [i] of the [k]th device gets the vector [v], which nothing used. *)
Section routed.
Variables (s s' : apics) (k i : nat) (a : IOApic) (v h arg : Z) (lopol : bool).
Let a' := IOApic_ (io_id a) (io_vaddr a) (io_gsi_base a) (io_n_redirs a) (<[i := v]> (redirs a)).
Hypotheses (Hok : apics_ok s) (Hk : ioapics s !! k = Some a) (Hi : Z.of_nat i < io_n_redirs a)
  (Hfree : redirs a !! i = Some 0) (Hv : 32 ≤ v < 256) (Hvfree : handler (md_intrs (ap_machine s) v) = 0) (Hh : h ≠ 0).
Hypotheses (Em : ap_machine s' = set_intr v (IntrEntry kSPL0 h arg) (ap_machine s))
  (El : ioapics s' = <[k := a']> (ioapics s))
  (Er : ∀ x, x ≠ io_vaddr a → ap_regs s' x = ap_regs s x)
  (Ev : ∀ x, io_reg (ap_regs s' (io_vaddr a)) x =
    if x =? 16 + 2 * Z.of_nat i then w32 (ioapic_entry v lopol)
    else if x =? 16 + 2 * Z.of_nat i + 1 then w32 (Z.shiftr (ioapic_entry v lopol) 32)
    else io_reg (ap_regs s (io_vaddr a)) x).

Lemma routed_pin : io_signal (ap_regs s' (io_vaddr a)) (Z.of_nat i) = Some (Signal 1 v lopol true).
Proof.
  apply (entry_signal _ _ _ lopol); [lia| |]; rewrite Ev; [by rewrite Z.eqb_refl|].
  rewrite (proj2 (Z.eqb_neq _ _)) by lia. by rewrite Z.eqb_refl.
Qed.
Lemma routed_other j b i' :
  ioapics s !! j = Some b → (j, i') ≠ (k, i) → io_signal (ap_regs s' (io_vaddr b)) (Z.of_nat i') =
  io_signal (ap_regs s (io_vaddr b)) (Z.of_nat i').
Proof.
  intros Hj Hne. destruct (decide (j = k)) as [->|Hjk].
  - assert (b = a) as -> by congruence. assert (i' ≠ i) by congruence.
    apply io_signal_ext; rewrite Ev; by rewrite !(proj2 (Z.eqb_neq _ _)) by lia.
  - destruct (ao_apart _ Hok j k b a Hjk Hj Hk) as [Hva _]. by rewrite Er.
Qed.
Lemma routed_lookup j b' : ioapics s' !! j = Some b' →
  ∃ b, ioapics s !! j = Some b ∧ io_vaddr b' = io_vaddr b ∧ io_gsi_base b' = io_gsi_base b ∧
    io_n_redirs b' = io_n_redirs b ∧ length (redirs b') = length (redirs b) ∧
    ∀ i' w, redirs b' !! i' = Some w → (j, i') = (k, i) ∧ w = v ∨ (j, i') ≠ (k, i) ∧ redirs b !! i' = Some w.
Proof.
  rewrite El, list_lookup_insert_Some. intros [(-> & <- & _)|[Hne Hj]].
  - exists a. cbn. rewrite length_insert. split_and!; try done. intros i' w [(-> & <- & _)|[? ?]]%list_lookup_insert_Some; [by left|].
    right. split; [congruence|done].
  - exists b'. split_and!; try done. intros i' w ?. right. split; [congruence|done].
Qed.
Lemma routed_unused j b i' w : ioapics s !! j = Some b → redirs b !! i' = Some w → w ≠ 0 → w ≠ v.
Proof.
  intros Hj Hw H0 ->. destruct (ao_routed _ Hok b i' v) as (_ & _ & ?); [by eapply list_elem_of_lookup_2|done|done|done].
Qed.

Lemma routed_ok : apics_ok s'.
Proof.
  split.
  - intros b' [j Hj]%list_elem_of_lookup. destruct (routed_lookup j b' Hj) as (b & Hb & _ & -> & -> & -> & _).
    apply (ao_pins _ Hok). by eapply list_elem_of_lookup_2.
  - intros j1 j2 b1 b2 Hj (c1 & H1 & -> & -> & -> & _)%routed_lookup (c2 & H2 & -> & -> & -> & _)%routed_lookup.
    by eapply (ao_apart _ Hok).
  - intros b' i' w [j Hj]%list_elem_of_lookup Hw H0. destruct (routed_lookup j b' Hj) as (b & Hb & -> & _ & _ & _ & Hr).
    rewrite Em. cbn [md_intrs set_intr]. destruct (Hr _ _ Hw) as [[[= -> ->] ->]|[Hne Hw']].
    + assert (b = a) as -> by congruence. split; [eexists; exact routed_pin|]. split; [done|]. by rewrite Z.eqb_refl.
    + rewrite (routed_other j b i' Hb Hne).
      rewrite (proj2 (Z.eqb_neq w v)) by (by eapply routed_unused). apply (ao_routed _ Hok); [by eapply list_elem_of_lookup_2|done..].
  - intros j1 j2 b1 b2 i1 i2 w (c1 & H1 & _ & _ & _ & _ & R1)%routed_lookup (c2 & H2 & _ & _ & _ & _ & R2)%routed_lookup Hw1 Hw2 H0.
    destruct (R1 _ _ Hw1) as [[[= -> ->] ->]|[Hn1 Hw1']], (R2 _ _ Hw2) as [[[= -> ->] E]|[Hn2 Hw2']]; try done.
    + by destruct (routed_unused _ _ _ _ H2 Hw2' H0).
    + by destruct (routed_unused _ _ _ _ H1 Hw1' H0).
    + by eapply (ao_alone _ Hok).
Qed.

Lemma routed_signal gsi : io_gsi_base a ≤ gsi < io_gsi_base a + io_n_redirs a → i = Z.to_nat (gsi - io_gsi_base a) →
  gsi_signal s' gsi = Some (Signal 1 v lopol true) ∧ ∀ g, g ≠ gsi → gsi_signal s' g = gsi_signal s g.
Proof.
  intros Hg Ei. assert (length (ioapics s) = length (ioapics s')) as Hlen by (by rewrite El, length_insert).
  assert (∀ g j b, ioapics s !! j = Some b → io_gsi_base b ≤ g < io_gsi_base b + io_n_redirs b →
    gsi_signal s' g = io_signal (ap_regs s' (io_vaddr b)) (Z.of_nat (Z.to_nat (g - io_gsi_base b)))) as Hsig.
  { intros g j b Hj Hgb. destruct (lookup_lt_is_Some_2 (ioapics s') j) as [b' Hb']; [rewrite <-Hlen; by eapply lookup_lt_Some|].
    destruct (routed_lookup j b' Hb') as (b0 & Hb0 & E1 & E2 & E3 & _). assert (b0 = b) as -> by congruence.
    unfold gsi_signal, gsi_pin. rewrite (found_at s' j b' g routed_ok Hb') by lia. cbn. by rewrite E1, E2. }
  split.
  - rewrite (Hsig gsi k a Hk Hg), <-Ei. exact routed_pin.
  - intros g Hne. destruct (list_find (λ a, serves g a = true) (ioapics s)) as [[j b]|] eqn:Ef.
    + destruct (found_inv s j b g Hok Ef) as [Hj Hgb]. rewrite (Hsig g j b Hj Hgb). unfold gsi_signal, gsi_pin. rewrite Ef. cbn.
      apply (routed_other j b); [done|]. intros [= -> E]. assert (b = a) as -> by congruence. lia.
    + unfold gsi_signal, gsi_pin. rewrite Ef.
      destruct (list_find (λ a, serves g a = true) (ioapics s')) as [[j b']|] eqn:Ef'; [|done].
      destruct (found_inv s' j b' g routed_ok Ef') as [Hj Hgb].
      destruct (routed_lookup j b' Hj) as (b & Hb & _ & E2 & E3 & _). rewrite E2, E3 in Hgb.
      by rewrite (found_at s j b g Hok Hb Hgb) in Ef.
Qed.
End routed.

(** ** Installing a handler *)

Lemma on_machine_ok {A} (m : M machine A) s a x :
  m (ap_machine s) = Ok (a, x) → on_machine m s = Ok (a, Apics x (ap_regs s) (ioapics s)).
Proof. intros E. unfold on_machine. by rewrite E. Qed.

Lemma gsi_pin_inv s gsi a i :
  apics_ok s → gsi_pin s gsi = Some (a, i) →
  ∃ k, ioapics s !! k = Some a ∧ list_find (λ a, serves gsi a = true) (ioapics s) = Some (k, a) ∧
    io_gsi_base a ≤ gsi < io_gsi_base a + io_n_redirs a ∧ i = Z.to_nat (gsi - io_gsi_base a) ∧
    w8 (gsi - io_gsi_base a) = Z.of_nat i ∧ Z.of_nat i < io_n_redirs a ∧ is_Some (redirs a !! i).
Proof.
  intros Hok Hp. unfold gsi_pin in Hp. destruct (list_find _ _) as [[k b]|] eqn:Ef; [|done]. cbn in Hp. simplify_eq.
  destruct (found_inv s k a gsi Hok Ef) as [Hk Hg].
  destruct (ao_pins _ Hok a ltac:(by eapply list_elem_of_lookup_2)) as (Hn & Hlen & _). exists k.
  split_and!; try (done || lia); [unfold w8; rewrite Z.mod_small; lia|]. apply lookup_lt_is_Some_2. lia.
Qed.

(** [md_intr_alloc] succeeded: the pin is routed and the vector noted. *)
Lemma handle_routed s gsi h arg lopol prio a i v :
  apics_ok s → gsi_pin s gsi = Some (a, i) → redirs a !! i = Some 0 → h ≠ 0 → 32 ≤ v < 256 →
  handler (md_intrs (ap_machine s) v) = 0 →
  md_intr_alloc kSPL0 h arg (ap_machine s) = Ok (v, set_intr v (IntrEntry kSPL0 h arg) (ap_machine s)) →
  ∃ s', handleGSI gsi h arg lopol prio s = Ok (0, s') ∧ apics_ok s' ∧
    ap_machine s' = set_intr v (IntrEntry kSPL0 h arg) (ap_machine s) ∧
    gsi_signal s' gsi = Some (Signal 1 v lopol true) ∧ ∀ g, g ≠ gsi → gsi_signal s' g = gsi_signal s g.
Proof.
  intros Hok Hp Hr Hh Hv Hfree Ha.
  destruct (gsi_pin_inv s gsi a i Hok Hp) as (k & Hk & Ef & Hg & Ei & Ew & Hi & _).
  destruct (ao_pins _ Hok a ltac:(by eapply list_elem_of_lookup_2)) as (Hn & _).
  unfold handleGSI. erewrite bind_step by reflexivity. rewrite Ef, Ew, Nat2Z.id, Hr, deref_bind, massert_bind.
  rewrite (bind_step _ _ _ _ _ (on_machine_ok _ _ _ _ Ha)). rewrite (proj2 (Z.ltb_ge v 0)) by lia.
  assert (w8 v = v) as -> by (apply Z.mod_small; lia). set (s1 := Apics _ (ap_regs s) (ioapics s)).
  destruct (ioapic_route_run (io_vaddr a) (Z.of_nat i) v lopol s1) as (s2 & R & Em & El & Er & Ev); [lia|].
  rewrite (bind_step _ _ _ _ _ R). eexists. split; [by erewrite bind_step by reflexivity|]. rewrite El.
  set (s' := set_ioapics _ s2).
  pose proof (routed_ok s s' k i a v h arg lopol Hok Hk Hi Hr Hv Hfree Hh Em eq_refl Er Ev) as Hok'.
  destruct (routed_signal s s' k i a v h arg lopol Hok Hk Hi Hr Hv Hfree Hh Em eq_refl Er Ev gsi Hg Ei) as [H1 H2].
  split; [exact Hok'|]. split; [exact Em|]. by split.
Qed.

(** C20: Installing a handler for a GSI.  Without an I/O APIC for it, or when all vectors are taken, -1 and
    nothing changes; a GSI that has a handler stops the kernel.  Else 0: the handler is
    registered, at priority 0 whatever was asked for, at the lowest free vector; from then on the
    device that the line belongs to sends that vector to the local APIC 1, by level and with
    the polarity asked for; every other line sends what it sent before; and still
    no two lines share a vector. *)
Theorem handleGSI_correct s gsi h arg lopol prio :
  apics_ok s → h ≠ 0 →
  (gsi_pin s gsi = None → handleGSI gsi h arg lopol prio s = Ok (-1, s)) ∧
  (∀ v, gsi_vector s gsi = Some v → v ≠ 0 →
     handleGSI gsi h arg lopol prio s = Fatal "assert(ioapic->redirs[intr] == 0)") ∧
  (gsi_vector s gsi = Some 0 →
     (handleGSI gsi h arg lopol prio s = Ok (-1, s) ∧ ∀ w, 32 ≤ w < 256 → handler (md_intrs (ap_machine s) w) ≠ 0) ∨
     ∃ v s', handleGSI gsi h arg lopol prio s = Ok (0, s') ∧ apics_ok s' ∧
       32 ≤ v < 256 ∧ handler (md_intrs (ap_machine s) v) = 0 ∧
       (∀ w, 32 ≤ w < v → handler (md_intrs (ap_machine s) w) ≠ 0) ∧
       ap_machine s' = set_intr v (IntrEntry kSPL0 h arg) (ap_machine s) ∧
       gsi_signal s' gsi = Some (Signal 1 v lopol true) ∧ ∀ g, g ≠ gsi → gsi_signal s' g = gsi_signal s g).
Proof.
  intros Hok Hh. split_and!.
  - intros Hp. unfold gsi_pin in Hp. unfold handleGSI. erewrite bind_step by reflexivity.
    by destruct (list_find _ _) as [[k a]|].
  - intros v Hvec H0. unfold gsi_vector in Hvec. destruct (gsi_pin s gsi) as [[a i]|] eqn:Hp; [|done]. cbn in Hvec.
    destruct (gsi_pin_inv s gsi a i Hok Hp) as (k & Hk & Ef & Hg & Ei & Ew & Hi & _).
    unfold handleGSI. erewrite bind_step by reflexivity. rewrite Ef, Ew, Nat2Z.id, Hvec, deref_bind.
    by rewrite (proj2 (Z.eqb_neq v 0)).
  - intros Hvec. unfold gsi_vector in Hvec. destruct (gsi_pin s gsi) as [[a i]|] eqn:Hp; [|done]. cbn in Hvec.
    destruct (md_intr_alloc_correct (ap_machine s) kSPL0 h arg ltac:(done)) as [[(v & Ha & Hv & Hfree & Hlow)|[Ha Hall]] _].
    + right. change (Z.max (16 * kSPL0) 32) with 32 in *.
      destruct (handle_routed s gsi h arg lopol prio a i v Hok Hp Hvec Hh Hv Hfree Ha) as (s' & R & Hok' & Em & Hs & Ho).
      exists v, s'. split; [exact R|]. split; [exact Hok'|]. split; [exact Hv|]. split; [exact Hfree|]. split; [exact Hlow|].
      split; [exact Em|]. by split.
    + left. split; [|exact Hall].
      destruct (gsi_pin_inv s gsi a i Hok Hp) as (k & Hk & Ef & Hg & Ei & Ew & Hi & _).
      unfold handleGSI. erewrite bind_step by reflexivity. rewrite Ef, Ew, Nat2Z.id, Hvec, deref_bind, massert_bind.
      rewrite (bind_step _ _ _ _ _ (on_machine_ok _ _ _ _ Ha)). by destruct s.
Qed.

(** ** Finding the devices *)

(** A device that starts with its version in place, no pin of it routed, and GSIs that no other has. *)
Lemma initWithID_run s id address base n :
  apics_ok s → 0 < n ≤ 24 → 0 ≤ base → base + n < 2^32 →
  Z.land (Z.shiftr (io_reg (ap_regs s (w64 (HHDM_BASE + address))) kRegisterVersion) 16) 0xff = n - 1 →
  (∀ a, a ∈ ioapics s → io_vaddr a ≠ w64 (HHDM_BASE + address) ∧
     (io_gsi_base a + io_n_redirs a ≤ base ∨ base + n ≤ io_gsi_base a)) →
  ∃ s', initWithID id address base s = Ok ((), s') ∧ apics_ok s' ∧ ap_machine s' = ap_machine s ∧
    (∀ x y, io_reg (ap_regs s' x) y = io_reg (ap_regs s x) y) ∧
    ioapics s' = ioapics s ++ [IOApic_ id (w64 (HHDM_BASE + address)) base n (replicate 24 0)].
Proof.
  intros [P1 P2 P3 P4] Hn Hb He Hver Hap. set (va := w64 (HHDM_BASE + address)) in *.
  assert (∀ a, a ∈ [IOApic_ id va base n (replicate 24 0)] → ∀ i v, redirs a !! i = Some v → v = 0) as Hzero
    by (intros a ->%list_elem_of_singleton i v Hl; cbn [redirs] in Hl; by apply lookup_replicate in Hl as [-> _]).
  unfold initWithID. fold va. unfold ioapic_read, store, load. rewrite (bind_step _ _ _ (io_reg (ap_regs s va) 1)
    (set_regs va (IoRegs 1 (io_reg (ap_regs s va))) s)).
  2: { erewrite !bind_step by reflexivity. unfold mret, M_ret, set_regs. cbn. by rewrite Z.eqb_refl. }
  unfold kRegisterVersion in Hver. rewrite Hver. replace (n - 1 + 1) with n by lia.
  rewrite (proj2 (Z.leb_le n 24)), massert_bind by lia. eexists. split; [reflexivity|].
  split_and!; [|done| |done].
  2: { intros x y. cbn. by destruct (Z.eqb_spec x va) as [->|]. }
  split; cbn [ioapics set_ioapics set_regs ap_machine ap_regs].
  - intros a [Ha| ->%list_elem_of_singleton]%elem_of_app; [by apply P1|]. cbn. rewrite ?length_replicate. lia.
  - intros j k a b Hne [Ha|[Hj Ha]]%lookup_app_Some [Hb'|[Hk Hb']]%lookup_app_Some.
    + by eapply P2.
    + apply list_lookup_singleton_Some in Hb' as [_ <-]. destruct (Hap a); [by eapply list_elem_of_lookup_2|]. by split.
    + apply list_lookup_singleton_Some in Ha as [_ <-]. destruct (Hap b); [by eapply list_elem_of_lookup_2|].
      split; [done|]. cbn. lia.
    + apply list_lookup_singleton_Some in Ha as [? _], Hb' as [? _]. lia.
  - intros a i v [Ha|Ha]%elem_of_app Hv H0; [|by destruct H0; eapply Hzero].
    rewrite (proj2 (Z.eqb_neq (io_vaddr a) va)) by (by apply Hap). by apply P3.
  - intros j k a b i i' v [Ha|[_ Ha]]%lookup_app_Some [Hb'|[_ Hb']]%lookup_app_Some Hv Hv' H0.
    + by eapply P4.
    + destruct H0. exact (Hzero _ (list_elem_of_lookup_2 _ _ _ Hb') _ _ Hv').
    + destruct H0. exact (Hzero _ (list_elem_of_lookup_2 _ _ _ Ha) _ _ Hv).
    + destruct H0. exact (Hzero _ (list_elem_of_lookup_2 _ _ _ Ha) _ _ Hv).
Qed.

(** ** Two devices of 24 pins, all masked as after a reset *)

Definition no_apics (m : machine) : apics :=
  Apics m (λ _, IoRegs 0 (λ r, if r =? kRegisterVersion then 0x170020 else if Z.even r && (16 <=? r) then 0x10000 else 0)) [].
Lemma no_apics_ok m : apics_ok (no_apics m).
Proof. by split; intros ? *; rewrite ?lookup_nil; try intros ?%elem_of_nil. Qed.

Definition two_apics : apics :=
  match (initWithID 1 0xfec00000 0;; initWithID 2 0xfec10000 24) (no_apics demo_machine) with
  | Ok (_, s) => s
  | _ => no_apics demo_machine
  end.
Lemma two_apics_ok : apics_ok two_apics.
Proof.
  destruct (initWithID_run (no_apics demo_machine) 1 0xfec00000 0 24 (no_apics_ok _)) as (s1 & R1 & H1 & _ & Hr & L1);
    [lia|lia|lia|by vm_compute|by intros a ?%elem_of_nil|].
  destruct (initWithID_run s1 2 0xfec10000 24 24 H1) as (s2 & R2 & H2 & _); [lia|lia|lia| | |].
  - rewrite Hr. by vm_compute.
  - rewrite L1. intros a ->%list_elem_of_singleton. by vm_compute; split; [|left].
  - unfold two_apics. by rewrite (bind_step _ _ _ _ _ R1), R2.
Qed.

(** Line 40, a disk's, is pin 16 of the second device. *)
Lemma handleGSI_correct_witness :
  ∃ s', handleGSI 40 1234 5 true 3 two_apics = Ok (0, s') ∧ gsi_signal s' 40 = Some (Signal 1 32 true true) ∧
    md_intrs (ap_machine s') 32 = IntrEntry kSPL0 1234 5 ∧ gsi_signal s' 41 = None.
Proof.
  destruct (handleGSI_correct two_apics 40 1234 5 true 3 two_apics_ok ltac:(done)) as (_ & _ & H).
  destruct (H ltac:(by vm_compute)) as [[_ Hall]|(v & s' & R & _ & Hv & _ & Hlow & Em & Hs & Ho)].
  - exfalso. apply (Hall 32); [lia|by vm_compute].
  - assert (v = 32) as ->.
    { destruct (decide (v = 32)); [done|]. exfalso. apply (Hlow 32); [lia|by vm_compute]. }
    exists s'. split; [exact R|]. split; [exact Hs|]. split; [by rewrite Em|]. rewrite Ho by done. by vm_compute.
Defined.
