(* ===== verification/Pci.v ===== *)
(** * The PCI bus: dev/PCIBus.m, and the access to configuration space in dev/acpi/AcpiPC.m

    Configuration space is reached through two ports: an address goes to one, and the
    other is a window of four bytes at it.  The devices behind the host bridge are
    arguments: what reading a byte of a function's configuration space gives and what writing
    some does.  So are the driver a function goes to, and [lai_pci_route_pin] of the
    ACPI interpreter.  Print-outs, and a name and a place in the device tree, are left
    out. *)

From S2P Require Import Prelude Intr IoApic.
Open Scope Z_scope.

Definition kVendorID : Z := 0x0.
Definition kDeviceID : Z := 0x2.
Definition kCommand : Z := 0x4.
Definition kStatus : Z := 0x6.
Definition kSubclass : Z := 0xa.
Definition kClass : Z := 0xb.
Definition kHeaderType : Z := 0xe.
Definition kBaseAddress0 : Z := 0x10.
Definition kCapabilitiesPointer : Z := 0x34.
Definition kInterruptPin : Z := 0x3d.

(** [dk_device_pci_info_t], less the bus object. *)
Record pci_info := PciInfo { pi_seg : Z; pi_bus : Z; pi_slot : Z; pi_fun : Z; pi_pin : Z }.

Fixpoint le (l : list Z) : Z :=
  match l with [] => 0 | b :: l' => b + 2^8 * le l' end.
Fixpoint le_bytes (n : nat) (v : Z) : list Z :=
  match n with O => [] | S n' => w8 v :: le_bytes n' (v / 2^8) end.

Section pci.
(** The devices, with the 16 bits of bus, slot and function and the register. *)
Context {D : Type} (cfg_read : D → Z → Z → Z) (cfg_write : Z → Z → list Z → D → D).
(** What else the drivers work on. *)
Context {X : Type}.
Abbreviation S := ((Z * D) * X)%type.   (** the address port, the devices, the rest *)

(** ** The ports *)

Definition outl_address (v : Z) : M S unit := mmodify (λ '((_, d), x), ((w32 v, d), x)).
(** The bus, slot and function and the register of the window's first byte. *)
Definition port_bdf (a : Z) : Z := Z.land (Z.shiftr a 8) 0xffff.
Definition port_reg (a : Z) : Z := Z.land a 0xfc.
(** [n] bytes at port 0xCFC + [k]. *)
Definition in_data (k : Z) (n : nat) : M S Z :=
  '((a, d), _) ← mget;
  if 4 <? k + Z.of_nat n then undef "beyond the window" else
  mret (le ((λ i, cfg_read d (port_bdf a) (port_reg a + k + i)) <$> seqZ 0 (Z.of_nat n))).
Definition out_data (k : Z) (n : nat) (v : Z) : M S unit :=
  '((a, d), x) ← mget;
  if 4 <? k + Z.of_nat n then undef "beyond the window" else
  mput ((a, cfg_write (port_bdf a) (port_reg a + k) (le_bytes n v) d), x).

Definition pci_address (bus slot function offset : Z) : Z :=
  Z.lor (Z.lor (Z.lor (Z.lor (w32 (Z.shiftl bus 16)) (w32 (Z.shiftl slot 11))) (w32 (Z.shiftl function 8)))
    (Z.land offset (w32 (Z.lnot 3)))) 0x80000000.
Definition pci_read (n : nat) (bus slot function offset : Z) : M S Z :=
  outl_address (pci_address bus slot function offset);;
  in_data (Z.land offset 3) n.
Definition pci_write (n : nat) (bus slot function offset value : Z) : M S unit :=
  outl_address (pci_address bus slot function offset);;
  out_data (Z.land offset 3) n value.
Definition pci_readb := pci_read 1.
Definition pci_readw := pci_read 2.
Definition pci_readl := pci_read 4.
Definition pci_writeb := pci_write 1.
Definition pci_writew := pci_write 2.
Definition pci_writel := pci_write 4.

(** *** The interpreter's host: the segment is 16 bits, bus, slot and function 8, the offset 16. *)
Definition laihost_pci_readb (seg bus slot fn offset : Z) : M S Z :=
  massert (w16 seg =? 0) "assert(seg == 0)";; pci_readb (w8 bus) (w8 slot) (w8 fn) (w16 offset).
Definition laihost_pci_readw (seg bus slot fn offset : Z) : M S Z :=
  massert (w16 seg =? 0) "assert(seg == 0)";; pci_readw (w8 bus) (w8 slot) (w8 fn) (w16 offset).
Definition laihost_pci_readd (seg bus slot fn offset : Z) : M S Z :=
  massert (w16 seg =? 0) "assert(seg == 0)";; pci_readl (w8 bus) (w8 slot) (w8 fn) (w16 offset).
Definition laihost_pci_writeb (seg bus slot fn offset v : Z) : M S unit :=
  massert (w16 seg =? 0) "assert(seg == 0)";; pci_writeb (w8 bus) (w8 slot) (w8 fn) (w16 offset) (w8 v).
Definition laihost_pci_writew (seg bus slot fn offset v : Z) : M S unit :=
  massert (w16 seg =? 0) "assert(seg == 0)";; pci_writew (w8 bus) (w8 slot) (w8 fn) (w16 offset) (w16 v).
Definition laihost_pci_writed (seg bus slot fn offset v : Z) : M S unit :=
  massert (w16 seg =? 0) "assert(seg == 0)";; pci_writel (w8 bus) (w8 slot) (w8 fn) (w16 offset) (w32 v).

(** ** Operations on a function *)

Definition ENABLE_CMD_FLAG (i : pci_info) (flag : Z) : M S unit :=
  c ← laihost_pci_readw (pi_seg i) (pi_bus i) (pi_slot i) (pi_fun i) kCommand;
  laihost_pci_writew (pi_seg i) (pi_bus i) (pi_slot i) (pi_fun i) kCommand (Z.lor c flag).
Definition DISABLE_CMD_FLAG (i : pci_info) (flag : Z) : M S unit :=
  c ← laihost_pci_readw (pi_seg i) (pi_bus i) (pi_slot i) (pi_fun i) kCommand;
  laihost_pci_writew (pi_seg i) (pi_bus i) (pi_slot i) (pi_fun i) kCommand (Z.land c (Z.lnot flag)).

Definition enableMemorySpace (i : pci_info) : M S unit := ENABLE_CMD_FLAG i (Z.lor 0x1 0x2).
Definition enableBusMastering (i : pci_info) : M S unit := ENABLE_CMD_FLAG i 0x4.
Definition setInterruptsOf (i : pci_info) (enabled : bool) : M S unit :=
  if enabled then DISABLE_CMD_FLAG i (Z.shiftl 1 10) else ENABLE_CMD_FLAG i (Z.shiftl 1 10).
Definition getBar (num : Z) (i : pci_info) : M S Z :=
  v ← laihost_pci_readd (pi_seg i) (pi_bus i) (pi_slot i) (pi_fun i) (kBaseAddress0 + 4 * num);
  mret (Z.land v 0xfffffff0).

(** ** Looking for functions *)

(** The drivers' probe. *)
Variable probeWithPCIInfo : pci_info → M S unit.

(** The loop over capabilities: each is read, and its successor's place is after it. *)
Fixpoint capabilities (fuel : nat) (i : pci_info) (pCap : Z) : M S unit :=
  if pCap =? 0 then mret () else
  match fuel with
  | O => undef "goes on"
  | Datatypes.S fuel' =>
      _ ← laihost_pci_readw (pi_seg i) (pi_bus i) (pi_slot i) (pi_fun i) pCap;
      next ← laihost_pci_readb (pi_seg i) (pi_bus i) (pi_slot i) (pi_fun i) (pCap + 1);
      capabilities fuel' i next
  end.

(** 256 turns for the loop: [capabilities_end] and [capabilities_stuck] are about this number. *)
Definition doFunction (seg busNum slot fun_ : Z) : M S unit :=
  vendorId ← laihost_pci_readw seg busNum slot fun_ kVendorID;
  if vendorId =? 0xffff then mret () else
  _ ← laihost_pci_readw seg busNum slot fun_ kDeviceID;
  class ← laihost_pci_readb seg busNum slot fun_ kClass;
  subClass ← laihost_pci_readb seg busNum slot fun_ kSubclass;
  pin ← laihost_pci_readb seg busNum slot fun_ kInterruptPin;
  let pciInfo := PciInfo seg busNum slot fun_ pin in
  status ← laihost_pci_readw seg busNum slot fun_ kStatus;
  (if has_flag status (Z.shiftl 1 4) then
     pCap ← laihost_pci_readb seg busNum slot fun_ kCapabilitiesPointer;
     capabilities 256 pciInfo pCap
   else mret ());;
  if (class =? 6) && (subClass =? 4) then mret ()
  else if (class =? 1) && (subClass =? 8) then probeWithPCIInfo pciInfo
  else mret ().

Definition scan_slot (seg bus slot : Z) : M S unit :=
  vendor ← laihost_pci_readw seg bus slot 0 kVendorID;
  if vendor =? 0xffff then mret () else
  header ← laihost_pci_readb seg bus slot 0 kHeaderType;
  let cntFun := if has_flag header (Z.shiftl 1 7) then 8 else 1 in
  mfor (seqZ 0 cntFun) (λ fun_, doFunction seg bus slot fun_).
Definition initWithSeg (seg bus : Z) : M S unit := mfor (seqZ 0 32) (λ slot, scan_slot (w8 seg) (w8 bus) slot).

(** [laiex_eval_one_int] of the two names: [None] for [LAI_ERROR_NO_SUCH_NODE], else the error
    or the number.  The result is [YES]. *)
Definition probeWithAcpiNode (_SEG _BBN : option (Z + Z)) : M S bool :=
  match _SEG with
  | Some (inl _) => mret false
  | _ =>
      let seg := match _SEG with Some (inr n) => n | _ => 0 end in
      let bbn := match _BBN with Some (inr n) => n | Some (inl _) => w64 (-1) | None => 0 end in
      initWithSeg seg bbn;; mret true
  end.
End pci.

(** ** Interrupts *)

(** What [lai_pci_route_pin] gives for a pin: an error, or the GSI and the flags;
    [active_low] is the interpreter's [ACPI_SMALL_IRQ_ACTIVE_LOW]. *)
Definition handleInterruptOf (lai_pci_route_pin : Z → Z → Z → Z → Z → Z + Z * Z) (active_low : Z)
    (i : pci_info) (handler arg priority : Z) : M apics Z :=
  match lai_pci_route_pin (pi_seg i) (pi_bus i) (pi_slot i) (pi_fun i) (pi_pin i) with
  | inl r => mret (- r)
  | inr (base, irq_flags) =>
      r ← handleGSI (w32 base) handler arg (has_flag irq_flags active_low) priority;
      mret (if r <? 0 then r else 0)
  end.

(** ** Reaching configuration space *)

Definition bdf (bus slot fun_ : Z) : Z := 256 * bus + 8 * slot + fun_.

Lemma pci_address_eq bus slot fun_ off :
  0 ≤ bus < 256 → 0 ≤ slot < 32 → 0 ≤ fun_ < 8 → 0 ≤ off < 256 →
  pci_address bus slot fun_ off = 2^31 + 2^8 * bdf bus slot fun_ + (off - off mod 4).
Proof.
  intros Hb Hs Hf Ho. unfold pci_address, bdf.
  assert (Z.land off (w32 (Z.lnot 3)) = off - off mod 4) as E0.
  { assert (forallb (λ o, Z.land o (w32 (Z.lnot 3)) =? o - o mod 4) (seqZ 0 256) = true) as H by by vm_compute.
    rewrite forallb_forall in H. apply Z.eqb_eq, H, list_elem_of_In, elem_of_seqZ. lia. }
  rewrite E0. pose proof (Z.mod_pos_bound off 4 ltac:(lia)). pose proof (Z.mod_le off 4 ltac:(lia) ltac:(lia)).
  rewrite !w32_small by (rewrite Z.shiftl_mul_pow2; lia).
  rewrite (lor_shiftl_add bus (Z.shiftl slot 11) 16) by (rewrite ?Z.shiftl_mul_pow2; lia).
  rewrite (Z.shiftl_mul_pow2 slot 11) by lia.
  replace (2^16 * bus + slot * 2^11) with (Z.shiftl (32 * bus + slot) 11) by (rewrite Z.shiftl_mul_pow2; lia).
  rewrite (lor_shiftl_add _ (Z.shiftl fun_ 8) 11) by (rewrite ?Z.shiftl_mul_pow2; lia).
  rewrite (Z.shiftl_mul_pow2 fun_ 8) by lia.
  replace (2^11 * (32 * bus + slot) + fun_ * 2^8) with (Z.shiftl (256 * bus + 8 * slot + fun_) 8)
    by (rewrite Z.shiftl_mul_pow2; lia).
  rewrite (lor_shiftl_add _ (off - off mod 4) 8) by lia. rewrite Z.lor_comm.
  change 0x80000000 with (Z.shiftl 1 31). rewrite (lor_shiftl_add 1 _ 31) by lia. lia.
Qed.

Lemma port_bdf_eq b o : 0 ≤ b < 2^16 → 0 ≤ o < 256 → port_bdf (2^31 + 2^8 * b + o) = b.
Proof.
  intros Hb Ho. unfold port_bdf. change 0xffff with (Z.ones 16). rewrite Z.land_ones, Z.shiftr_div_pow2 by lia.
  Z.to_euclidean_division_equations; lia.
Qed.
Lemma port_reg_eq b o : 0 ≤ o < 256 → o mod 4 = 0 → port_reg (2^31 + 2^8 * b + o) = o.
Proof.
  intros Ho H4. unfold port_reg. change 0xfc with (Z.land (Z.ones 8) 0xfc). rewrite Z.land_assoc, Z.land_ones by lia.
  replace ((2^31 + 2^8 * b + o) mod 2^8) with o by (Z.to_euclidean_division_equations; lia).
  assert (forallb (λ o, negb (o mod 4 =? 0) || (Z.land o 0xfc =? o)) (seqZ 0 256) = true) as H by by vm_compute.
  rewrite forallb_forall in H. specialize (H o ltac:(apply list_elem_of_In, elem_of_seqZ; lia)).
  rewrite H4 in H. by apply Z.eqb_eq.
Qed.

Section access.
Context {D : Type} (cfg_read : D → Z → Z → Z) {X : Type}.
Implicit Types (d : D) (x : X).

(** [n] bytes of a function's configuration space, the lowest first. *)
Definition cfg_value d (b off : Z) (n : nat) : Z := le (cfg_read d b <$> seqZ off (Z.of_nat n)).

Lemma pci_read_run n bus slot fun_ off a d x :
  0 ≤ bus < 256 → 0 ≤ slot < 32 → 0 ≤ fun_ < 8 → 0 ≤ off < 256 → off mod 4 + Z.of_nat n ≤ 4 →
  pci_read (X := X) cfg_read n bus slot fun_ off ((a, d), x) =
    Ok (cfg_value d (bdf bus slot fun_) off n, ((pci_address bus slot fun_ off, d), x)).
Proof.
  intros Hb Hs Hf Ho Hn. unfold pci_read. erewrite bind_step by reflexivity. unfold in_data. erewrite bind_step by reflexivity.
  change 3 with (Z.ones 2). rewrite Z.land_ones by lia. change (2^2) with 4.
  rewrite (proj2 (Z.ltb_ge 4 _)) by lia. unfold mret, M_ret. cbv zeta.
  pose proof (Z.mod_pos_bound off 4 ltac:(lia)). pose proof (Z.mod_le off 4 ltac:(lia) ltac:(lia)).
  assert (0 ≤ bdf bus slot fun_ < 2^16) as Hbdf by (unfold bdf; lia).
  assert (w32 (pci_address bus slot fun_ off) = pci_address bus slot fun_ off) as -> by
    (rewrite pci_address_eq by done; apply w32_small; lia).
  do 3 f_equal. unfold cfg_value. f_equal. rewrite pci_address_eq by done. rewrite port_bdf_eq by lia.
  rewrite port_reg_eq by (try lia; Z.to_euclidean_division_equations; lia).
  assert (seqZ off (Z.of_nat n) = Z.add off <$> seqZ 0 (Z.of_nat n)) as -> by (rewrite fmap_add_seqZ; f_equal; lia).
  rewrite <-list_fmap_compose.
  apply list_fmap_ext. intros i y _. cbn. f_equal. lia.
Qed.

Lemma laihost_run n bus slot fun_ off a d x :
  0 ≤ bus < 256 → 0 ≤ slot < 32 → 0 ≤ fun_ < 8 → 0 ≤ off < 256 → off mod 4 + Z.of_nat n ≤ 4 →
  ∃ a', (massert (w16 0 =? 0) "assert(seg == 0)";;
         pci_read (X := X) cfg_read n (w8 bus) (w8 slot) (w8 fun_) (w16 off)) ((a, d), x) =
    Ok (cfg_value d (bdf bus slot fun_) off n, ((a', d), x)).
Proof.
  intros Hb Hs Hf Ho Hn. exists (pci_address bus slot fun_ off). change (w16 0 =? 0) with true. rewrite massert_bind.
  assert (w8 bus = bus ∧ w8 slot = slot ∧ w8 fun_ = fun_ ∧ w16 off = off) as (-> & -> & -> & ->)
    by (unfold w8, w16; rewrite !Z.mod_small by lia; done).
  by apply pci_read_run.
Qed.

(** ** Capabilities *)

(** The places of the capabilities from [p] on: they are in the second quarter or
    later and aligned, as the specification has it, and the last says 0. *)
Inductive cap_list d (b : Z) : Z → list Z → Prop :=
| cap_nil : cap_list d b 0 []
| cap_cons p l : 64 ≤ p < 256 → p mod 4 = 0 → cap_list d b (cfg_value d b (p + 1) 1) l → cap_list d b p (p :: l).

Lemma cap_list_det d b p l l' : cap_list d b p l → cap_list d b p l' → l = l'.
Proof.
  intros H. revert l'. induction H as [|p l Hp H4 H IH]; intros l' H'; inversion H'; subst; try lia; [done|].
  f_equal. by apply IH.
Qed.
Lemma cap_list_suffix d b p l q : cap_list d b p l → q ∈ l → ∃ l1 l2, l = l1 ++ q :: l2 ∧ cap_list d b q (q :: l2).
Proof.
  intros H. induction H as [|p l Hp H4 H IH]; intros Hq; [by apply elem_of_nil in Hq|].
  apply elem_of_cons in Hq as [->|Hq]; [exists [], l; split; [done|by constructor]|].
  destruct (IH Hq) as (l1 & l2 & -> & ?). by exists (p :: l1), l2.
Qed.
Lemma cap_list_nodup d b p l : cap_list d b p l → NoDup l ∧ Forall (λ q, 64 ≤ q < 256) l.
Proof.
  intros H. induction H as [|p l Hp H4 H [IH1 IH2]]; [by repeat constructor|]. split; [|by constructor].
  apply NoDup_cons. split; [|done]. intros Hin.
  destruct (cap_list_suffix d b _ l p H Hin) as (l1 & l2 & -> & H').
  assert (p :: l1 ++ p :: l2 = p :: l2) as E by (eapply cap_list_det; [by constructor|exact H']).
  apply (f_equal length) in E. cbn in E. rewrite length_app in E. cbn in E. lia.
Qed.
(** So a list that ends does so within the turns that [doFunction] has here. *)
Lemma cap_list_short d b p l : cap_list d b p l → (length l ≤ 256)%nat.
Proof.
  intros [HN HF]%cap_list_nodup. transitivity (length (seqZ 0 256)); [|by rewrite length_seqZ].
  apply submseteq_length, NoDup_submseteq; [done|]. intros q Hq. rewrite Forall_forall in HF.
  apply elem_of_seqZ. specialize (HF q Hq). lia.
Qed.

Lemma capabilities_end fuel bus slot fun_ pin p l a d x :
  0 ≤ bus < 256 → 0 ≤ slot < 32 → 0 ≤ fun_ < 8 → cap_list d (bdf bus slot fun_) p l → (length l ≤ fuel)%nat →
  ∃ a', capabilities cfg_read fuel (PciInfo 0 bus slot fun_ pin) p ((a, d), x) = Ok ((), ((a', d), x)).
Proof.
  intros Hb Hs Hf H. revert fuel a. induction H as [|p l Hp H4 H IH]; intros fuel a Hfuel.
  { exists a. by destruct fuel. }
  destruct fuel as [|fuel]; [cbn in Hfuel; lia|]. cbn [capabilities]. rewrite (proj2 (Z.eqb_neq p 0)) by lia.
  cbn [pi_seg pi_bus pi_slot pi_fun].
  destruct (laihost_run 2 bus slot fun_ p a d x) as [a1 R1]; [lia..|]. rewrite (bind_step _ _ _ _ _ R1).
  destruct (laihost_run 1 bus slot fun_ (p + 1) a1 d x) as [a2 R2]; [(lia || (Z.to_euclidean_division_equations; lia))..|].
  rewrite (bind_step _ _ _ _ _ R2). apply IH. cbn in Hfuel. lia.
Qed.

(** Places that lead to each other: the loop does not end. *)
Lemma capabilities_stuck (P : Z → Prop) fuel bus slot fun_ pin p a d x :
  0 ≤ bus < 256 → 0 ≤ slot < 32 → 0 ≤ fun_ < 8 → P p →
  (∀ q, P q → 64 ≤ q < 256 ∧ q mod 4 = 0 ∧ P (cfg_value d (bdf bus slot fun_) (q + 1) 1)) →
  capabilities cfg_read fuel (PciInfo 0 bus slot fun_ pin) p ((a, d), x) = Undef "goes on".
Proof.
  intros Hb Hs Hf Hp HP. revert p a Hp. induction fuel as [|fuel IH]; intros p a Hp; destruct (HP p Hp) as (Hr & H4 & Hn);
    cbn [capabilities]; rewrite (proj2 (Z.eqb_neq p 0)) by lia; [done|].
  cbn [pi_seg pi_bus pi_slot pi_fun].
  destruct (laihost_run 2 bus slot fun_ p a d x) as [a1 R1]; [lia..|]. rewrite (bind_step _ _ _ _ _ R1).
  destruct (laihost_run 1 bus slot fun_ (p + 1) a1 d x) as [a2 R2]; [(lia || (Z.to_euclidean_division_equations; lia))..|].
  rewrite (bind_step _ _ _ _ _ R2). by apply IH.
Qed.
End access.

(** ** Writing *)

Section write.
Context {D : Type} (cfg_write : Z → Z → list Z → D → D) {X : Type}.
Implicit Types (d : D) (x : X).

Lemma pci_write_run n bus slot fun_ off v a d x :
  0 ≤ bus < 256 → 0 ≤ slot < 32 → 0 ≤ fun_ < 8 → 0 ≤ off < 256 → off mod 4 + Z.of_nat n ≤ 4 →
  pci_write (X := X) cfg_write n bus slot fun_ off v ((a, d), x) =
    Ok ((), ((pci_address bus slot fun_ off, cfg_write (bdf bus slot fun_) off (le_bytes n v) d), x)).
Proof.
  intros Hb Hs Hf Ho Hn. unfold pci_write. erewrite bind_step by reflexivity. unfold out_data. erewrite bind_step by reflexivity.
  change 3 with (Z.ones 2). rewrite Z.land_ones by lia. change (2^2) with 4.
  rewrite (proj2 (Z.ltb_ge 4 _)) by lia. unfold mput. cbv zeta.
  pose proof (Z.mod_pos_bound off 4 ltac:(lia)). pose proof (Z.mod_le off 4 ltac:(lia) ltac:(lia)).
  assert (0 ≤ bdf bus slot fun_ < 2^16) as Hbdf by (unfold bdf; lia).
  assert (w32 (pci_address bus slot fun_ off) = pci_address bus slot fun_ off) as -> by
    (rewrite pci_address_eq by done; apply w32_small; lia).
  do 4 f_equal. rewrite pci_address_eq by done. rewrite port_bdf_eq by lia.
  rewrite port_reg_eq by (try lia; Z.to_euclidean_division_equations; lia).
  f_equal. lia.
Qed.
End write.

(** Setting flags in the command register: one write, of the old value with the flags. *)
Section command.
Context {D : Type} (cfg_read : D → Z → Z → Z) (cfg_write : Z → Z → list Z → D → D) {X : Type}.

Lemma ENABLE_CMD_FLAG_run i flag a (d : D) (x : X) :
  pi_seg i = 0 → 0 ≤ pi_bus i < 256 → 0 ≤ pi_slot i < 32 → 0 ≤ pi_fun i < 8 →
  let b := bdf (pi_bus i) (pi_slot i) (pi_fun i) in
  ∃ a', ENABLE_CMD_FLAG cfg_read cfg_write i flag ((a, d), x) =
    Ok ((), ((a', cfg_write b kCommand (le_bytes 2 (w16 (Z.lor (cfg_value cfg_read d b kCommand 2) flag))) d), x)).
Proof.
  intros Hseg Hb Hs Hf b. unfold ENABLE_CMD_FLAG. rewrite Hseg.
  destruct (laihost_run cfg_read (X := X) 2 (pi_bus i) (pi_slot i) (pi_fun i) kCommand a d x) as [a1 R1]; [done..|].
  rewrite (bind_step _ _ _ _ _ R1). fold b. unfold laihost_pci_writew. change (w16 0 =? 0) with true. rewrite massert_bind.
  assert (w8 (pi_bus i) = pi_bus i ∧ w8 (pi_slot i) = pi_slot i ∧ w8 (pi_fun i) = pi_fun i) as (-> & -> & ->)
    by (unfold w8; rewrite !Z.mod_small by lia; done).
  change (w16 kCommand) with kCommand. eexists. by apply pci_write_run.
Qed.
End command.

(** ** The scan *)

Ltac reg_lia := unfold kVendorID, kStatus, kSubclass, kClass, kHeaderType, kCapabilitiesPointer, kInterruptPin; lia.

Section scan.
Context {D : Type} (cfg_read : D → Z → Z → Z) {X : Type}.
Implicit Types (d : D) (x : X).
(** The drivers, and the functions that they were given so far. *)
Context (probe : pci_info → M ((Z * D) * X) unit) (found : X → list pci_info).
Abbreviation value := (cfg_value cfg_read).

Definition present d b : bool := negb (value d b kVendorID 2 =? 0xffff).
(** Mass storage, non-volatile memory. *)
Definition nvme d b : bool := (value d b kClass 1 =? 1) && (value d b kSubclass 1 =? 8).
Definition functions d bus slot : list Z :=
  if present d (bdf bus slot 0) then seqZ 0 (if has_flag (value d (bdf bus slot 0) kHeaderType 1) (2^7) then 8 else 1) else [].
(** The functions a driver is probed with, in order. *)
Definition slot_nvme d bus slot : list pci_info :=
  (λ f, PciInfo 0 bus slot f (value d (bdf bus slot f) kInterruptPin 1)) <$>
    filter (λ f, present d (bdf bus slot f) && nvme d (bdf bus slot f)) (functions d bus slot).

(** Nothing changed but command registers. *)
Definition same_config d d' : Prop := ∀ b r, r ≠ 4 → r ≠ 5 → cfg_read d' b r = cfg_read d b r.
(** The list of capabilities of a function that is there ends. *)
Definition caps_ok d b : Prop :=
  present d b = true → has_flag (value d b kStatus 2) (2^4) = true → ∃ l, cap_list cfg_read d b (value d b kCapabilitiesPointer 1) l.

(** A driver changes no more than that, and returns. *)
Hypothesis probe_ok : ∀ i s, pi_seg i = 0 → 0 ≤ pi_bus i < 256 → 0 ≤ pi_slot i < 32 → 0 ≤ pi_fun i < 8 →
  ∃ s', probe i s = Ok ((), s') ∧ same_config s.1.2 s'.1.2 ∧ found s'.2 = found s.2 ++ [i].

Lemma same_refl d : same_config d d.
Proof. done. Qed.
Lemma same_trans d1 d2 d3 : same_config d1 d2 → same_config d2 d3 → same_config d1 d3.
Proof. intros H1 H2 b r ??. rewrite H2 by done. by apply H1. Qed.
Lemma value_same d d' b off n :
  same_config d d' → off + Z.of_nat n ≤ 4 ∨ 6 ≤ off → value d' b off n = value d b off n.
Proof.
  intros H Ho. unfold cfg_value. f_equal. apply list_fmap_ext. intros i r Hr%list_elem_of_lookup_2%elem_of_seqZ.
  apply H; lia.
Qed.
Lemma caps_same d d' b p l : same_config d d' → cap_list cfg_read d b p l → cap_list cfg_read d' b p l.
Proof.
  intros Hs H. induction H as [|p l Hp H4 H IH]; [constructor|]. constructor; [done..|].
  by rewrite (value_same d d') by (done || lia).
Qed.

Lemma doFunction_run d0 bus slot f s :
  0 ≤ bus < 256 → 0 ≤ slot < 32 → 0 ≤ f < 8 → same_config d0 s.1.2 → caps_ok d0 (bdf bus slot f) →
  ∃ s', doFunction cfg_read probe 0 bus slot f s = Ok ((), s') ∧ same_config d0 s'.1.2 ∧
    found s'.2 = found s.2 ++ (if present d0 (bdf bus slot f) && nvme d0 (bdf bus slot f)
                               then [PciInfo 0 bus slot f (value d0 (bdf bus slot f) kInterruptPin 1)] else []).
Proof.
  intros Hb Hsl Hf Hsame Hcaps. destruct s as [[a d] x]. cbn in Hsame. unfold doFunction, present, nvme.
  set (b := bdf bus slot f) in *.
  destruct (laihost_run cfg_read (X := X) 2 bus slot f kVendorID a d x) as [a1 R1]; [done..|]. rewrite (bind_step _ _ _ _ _ R1). fold b.
  rewrite (value_same d0 d b kVendorID 2) by (done || reg_lia).
  destruct (Z.eqb_spec (value d0 b kVendorID 2) 0xffff) as [Hv|Hv]; cbn [negb andb].
  { exists ((a1, d), x). by rewrite app_nil_r. }
  destruct (laihost_run cfg_read (X := X) 2 bus slot f kDeviceID a1 d x) as [a2 R2]; [done..|]. rewrite (bind_step _ _ _ _ _ R2).
  destruct (laihost_run cfg_read (X := X) 1 bus slot f kClass a2 d x) as [a3 R3]; [done..|]. rewrite (bind_step _ _ _ _ _ R3).
  destruct (laihost_run cfg_read (X := X) 1 bus slot f kSubclass a3 d x) as [a4 R4]; [done..|]. rewrite (bind_step _ _ _ _ _ R4).
  destruct (laihost_run cfg_read (X := X) 1 bus slot f kInterruptPin a4 d x) as [a5 R5]; [done..|]. rewrite (bind_step _ _ _ _ _ R5).
  destruct (laihost_run cfg_read (X := X) 2 bus slot f kStatus a5 d x) as [a6 R6]; [done..|]. rewrite (bind_step _ _ _ _ _ R6). fold b.
  rewrite (value_same d0 d b kClass 1), (value_same d0 d b kSubclass 1), (value_same d0 d b kInterruptPin 1), (value_same d0 d b kStatus 2)
    by (done || reg_lia).
  assert (∃ a7, (if has_flag (value d0 b kStatus 2) (Z.shiftl 1 4) then
      pCap ← laihost_pci_readb cfg_read 0 bus slot f kCapabilitiesPointer;
      capabilities cfg_read 256 (PciInfo 0 bus slot f (value d0 b kInterruptPin 1)) pCap else mret ()) ((a6, d), x) =
      Ok ((), ((a7, d), x))) as [a7 R7].
  { change (Z.shiftl 1 4) with (2^4). destruct (has_flag (value d0 b kStatus 2) (2^4)) eqn:Hc; [|by exists a6].
    destruct Hcaps as [l Hl]; [by apply negb_true_iff, Z.eqb_neq|done|]. destruct (laihost_run cfg_read (X := X) 1 bus slot f kCapabilitiesPointer a6 d x) as [a7 R7]; [done..|].
    rewrite (bind_step _ _ _ _ _ R7). fold b. rewrite (value_same d0 d b kCapabilitiesPointer 1) by (done || reg_lia).
    apply (capabilities_end cfg_read 256 bus slot f _ _ l); [done..|by apply (caps_same d0)|by eapply cap_list_short]. }
  rewrite (bind_step _ _ _ _ _ R7).
  destruct (Z.eqb_spec (value d0 b kClass 1) 6) as [Hc6|_]; cbn [andb].
  { rewrite Hc6. cbn [Z.eqb andb]. exists ((a7, d), x). rewrite app_nil_r. by destruct (_ =? 4). }
  destruct ((value d0 b kClass 1 =? 1) && (value d0 b kSubclass 1 =? 8)).
  - destruct (probe_ok (PciInfo 0 bus slot f (value d0 b kInterruptPin 1)) ((a7, d), x)) as (s' & R & Hs & Hfd); [done..|].
    exists s'. split; [done|]. split; [by eapply same_trans|done].
  - exists ((a7, d), x). by rewrite app_nil_r.
Qed.

(** A loop that adds to what was found for each turn. *)
Lemma mfor_found {A} (g : A → M ((Z * D) * X) unit) (out : A → list pci_info) d0 l s :
  (∀ y s, y ∈ l → same_config d0 s.1.2 → ∃ s', g y s = Ok ((), s') ∧ same_config d0 s'.1.2 ∧
     found s'.2 = found s.2 ++ out y) →
  same_config d0 s.1.2 →
  ∃ s', mfor l g s = Ok ((), s') ∧ same_config d0 s'.1.2 ∧ found s'.2 = found s.2 ++ (l ≫= out).
Proof.
  revert s. induction l as [|y l IH]; intros s Hg Hs; cbn [mfor mbind list_bind].
  { exists s. by rewrite app_nil_r. }
  destruct (Hg y s ltac:(by left) Hs) as (s1 & R & H1 & F1). rewrite (bind_step _ _ _ _ _ R).
  destruct (IH s1) as (s2 & R2 & H2 & F2); [intros z t Hz; apply Hg; by right|done|].
  exists s2. split; [done|]. split; [done|]. by rewrite F2, F1, <-app_assoc.
Qed.

Lemma filter_bind (P : Z → bool) (h : Z → pci_info) l :
  (l ≫= λ f, if P f then [h f] else []) = h <$> filter (λ f, P f) l.
Proof.
  induction l as [|f l IH]; [done|]. rewrite bind_cons, IH, filter_cons.
  destruct (P f); [rewrite decide_True by done|rewrite decide_False by (intros []) ]; done.
Qed.

Lemma scan_slot_run d0 bus slot s :
  0 ≤ bus < 256 → 0 ≤ slot < 32 → (∀ f, 0 ≤ f < 8 → caps_ok d0 (bdf bus slot f)) → same_config d0 s.1.2 →
  ∃ s', scan_slot cfg_read probe 0 bus slot s = Ok ((), s') ∧ same_config d0 s'.1.2 ∧
    found s'.2 = found s.2 ++ slot_nvme d0 bus slot.
Proof.
  intros Hb Hsl Hcaps Hs. destruct s as [[a d] x]. cbn [fst snd] in Hs. unfold scan_slot, slot_nvme, functions.
  assert (present d0 (bdf bus slot 0) = negb (value d0 (bdf bus slot 0) kVendorID 2 =? 0xffff)) as -> by done.
  destruct (laihost_run cfg_read (X := X) 2 bus slot 0 kVendorID a d x) as [a1 R1]; [done..|]. rewrite (bind_step _ _ _ _ _ R1).
  rewrite (value_same d0 d (bdf bus slot 0) kVendorID 2) by (done || reg_lia).
  destruct (Z.eqb_spec (value d0 (bdf bus slot 0) kVendorID 2) 0xffff) as [Hv|Hv]; cbn [negb].
  { exists ((a1, d), x). by rewrite filter_nil, fmap_nil, app_nil_r. }
  destruct (laihost_run cfg_read (X := X) 1 bus slot 0 kHeaderType a1 d x) as [a2 R2]; [done..|]. rewrite (bind_step _ _ _ _ _ R2).
  rewrite (value_same d0 d (bdf bus slot 0) kHeaderType 1) by (done || reg_lia).
  change (Z.shiftl 1 7) with (2^7). set (n := if has_flag _ (2^7) then 8 else 1).
  rewrite <-filter_bind. apply (mfor_found _ (λ f, if present d0 (bdf bus slot f) && nvme d0 (bdf bus slot f)
    then [PciInfo 0 bus slot f (value d0 (bdf bus slot f) kInterruptPin 1)] else []) d0 (seqZ 0 n) ((a2, d), x)); [|done].
  intros f t Hf%elem_of_seqZ Ht. assert (0 ≤ f < 8) by (unfold n in Hf; destruct (has_flag _ _); lia).
  apply doFunction_run; try done. by apply Hcaps.
Qed.

(** C36: Scanning a bus reads the identity of each of its functions and gives to the
    driver, in order and once each, with their pins, those that are present, are mass
    storage of non-volatile memory, and are the first of their slot or in a slot whose first function
    is there and says that there are more; it changes nothing itself. *)
Theorem pci_scan_correct bus a d x :
  0 ≤ bus < 256 → (∀ slot f, 0 ≤ slot < 32 → 0 ≤ f < 8 → caps_ok d (bdf bus slot f)) →
  ∃ s', initWithSeg cfg_read probe 0 bus ((a, d), x) = Ok ((), s') ∧ same_config d s'.1.2 ∧
    found s'.2 = found x ++ (seqZ 0 32 ≫= slot_nvme d bus).
Proof.
  intros Hb Hcaps. unfold initWithSeg. change (w8 0) with 0. assert (w8 bus = bus) as -> by (apply Z.mod_small; lia).
  apply (mfor_found _ (slot_nvme d bus) d (seqZ 0 32) ((a, d), x)); [|apply same_refl].
  intros slot t Hsl%elem_of_seqZ Ht. apply scan_slot_run; try done. intros f Hf. by apply Hcaps.
Qed.
End scan.

(** ** A bus with an NVMe controller *)

(** Configuration space as bytes. *)
Definition demo_read (d : Z → Z → Z) (b r : Z) : Z := d b r.
Definition demo_write (b r : Z) (l : list Z) (d : Z → Z → Z) : Z → Z → Z := λ b' r',
  if (b' =? b) && (r <=? r') && (r' <? r + Z.of_nat (length l)) then default 0 (l !! Z.to_nat (r' - r)) else d b' r'.
(** Slot 0 has a host bridge, slot 3 two functions, of which the second, number 5, is an NVMe controller
    with two capabilities and the interrupt pin 1. *)
Definition demo_bytes : list (Z * Z * Z) :=
  [(bdf 0 0 0, 0, 0x86); (bdf 0 0 0, 1, 0x80); (bdf 0 0 0, 0xb, 6);
   (bdf 0 3 0, 0, 0x86); (bdf 0 3 0, 1, 0x80); (bdf 0 3 0, 0xb, 2); (bdf 0 3 0, 0xe, 0x80);
   (bdf 0 3 5, 0, 0x86); (bdf 0 3 5, 1, 0x80); (bdf 0 3 5, 0xa, 8); (bdf 0 3 5, 0xb, 1); (bdf 0 3 5, 0x3d, 1);
   (bdf 0 3 5, 6, 0x10); (bdf 0 3 5, 0x34, 0x40); (bdf 0 3 5, 0x40, 1); (bdf 0 3 5, 0x41, 0x50); (bdf 0 3 5, 0x50, 0x11)].
Definition demo_config : Z → Z → Z := λ b r,
  match list_find (λ y, y.1 = (b, r)) demo_bytes with
  | Some (_, y) => y.2
  | None => if existsb (λ y, y.1.1 =? b) demo_bytes then 0 else 255
  end.
(** A driver that turns on bus mastering and is noted. *)
Definition demo_probe (i : pci_info) : M ((Z * (Z → Z → Z)) * list pci_info) unit :=
  enableBusMastering demo_read demo_write i;;
  mmodify (λ '((a, d), x), ((a, d), x ++ [i])).
Lemma demo_probe_ok i s : pi_seg i = 0 → 0 ≤ pi_bus i < 256 → 0 ≤ pi_slot i < 32 → 0 ≤ pi_fun i < 8 →
  ∃ s', demo_probe i s = Ok ((), s') ∧ same_config demo_read s.1.2 s'.1.2 ∧ s'.2 = s.2 ++ [i].
Proof.
  intros H1 H2 H3 H4. destruct s as [[a d] x].
  destruct (ENABLE_CMD_FLAG_run demo_read demo_write i 4 a d x H1 H2 H3 H4) as [a' R].
  eexists. unfold demo_probe, enableBusMastering. rewrite (bind_step _ _ _ _ _ R). split; [done|]. split; [|done].
  intros b r Hr1 Hr2. unfold demo_read, demo_write, kCommand. cbn [fst snd length le_bytes].
  replace ((b =? _) && (4 <=? r) && (r <? 4 + Z.of_nat 2)) with false; [done|].
  symmetry. zcases; rewrite ?andb_false_r, ?andb_true_r; lia.
Qed.

Lemma demo_caps slot f : 0 ≤ slot < 32 → 0 ≤ f < 8 → caps_ok demo_read demo_config (bdf 0 slot f).
Proof.
  intros Hs Hf. destruct (decide (slot = 3 ∧ f = 5)) as [[-> ->]|Hne].
  - intros _ _. exists [0x40; 0x50]. repeat (apply cap_cons; [done..|]). apply cap_nil.
  - intros Hp H. exfalso. apply Hne.
    assert (forallb (λ s, forallb (λ g, negb (present demo_read demo_config (bdf 0 s g) &&
      has_flag (cfg_value demo_read demo_config (bdf 0 s g) kStatus 2) (2^4)) || (s =? 3) && (g =? 5))
      (seqZ 0 8)) (seqZ 0 32) = true) as Hall by by vm_compute.
    rewrite forallb_forall in Hall. specialize (Hall slot ltac:(apply list_elem_of_In, elem_of_seqZ; lia)).
    rewrite forallb_forall in Hall. specialize (Hall f ltac:(apply list_elem_of_In, elem_of_seqZ; lia)).
    rewrite Hp, H in Hall. cbn [negb andb orb] in Hall. apply andb_true_iff in Hall as [?%Z.eqb_eq ?%Z.eqb_eq]. done.
Qed.

Lemma pci_scan_correct_witness :
  ∃ s', initWithSeg demo_read demo_probe 0 0 ((0, demo_config), []) = Ok ((), s') ∧ s'.2 = [PciInfo 0 0 3 5 1].
Proof.
  destruct (pci_scan_correct demo_read demo_probe (λ x, x) demo_probe_ok 0 0 demo_config [] ltac:(lia) demo_caps)
    as (s' & R & _ & H).
  exists s'. split; [exact R|]. rewrite H. by vm_compute.
Defined.
