(* ===== verification/Acpi.v ===== *)
(** * The ACPI tables: dev/acpi/AcpiPC.m

    Finding a table by its signature, walking the interrupt controllers' table to start
    the I/O APICs, and the identifiers of devices.  Memory is bytes, the direct map is left
    implicit.  The layout of the interpreter's structures (a git submodule's) is an
    argument; [bswap_32] is the C library's.  The devices of the interpreter's
    namespace and print-outs are left out. *)

From S2P Require Import Prelude VmPage Klib Intr IoApic.
Open Scope Z_scope.

(** ** Identifiers *)

Definition i2hex (val pos : Z) : Z :=
  let digit := Z.land (Z.shiftr val pos) 0xf in
  if digit <? 0xa then 48 + digit else 65 + (digit - 10).
Definition hex2i (character : Z) : M unit Z :=
  if character <=? 57 then mret (character - 48)
  else if (65 <=? character) && (character <=? 70) then mret (character - 65 + 10)
  else fatal "unreached".

Definition bswap_32 (x : Z) : Z :=
  2^24 * (x mod 2^8) + 2^16 * (x / 2^8 mod 2^8) + 2^8 * (x / 2^16 mod 2^8) + x / 2^24 mod 2^8.

(** The characters of [out], less the NUL. *)
Definition eisaid_to_string (num : Z) : list Z :=
  let num := bswap_32 num in
  [w8 (0x40 + Z.land (Z.shiftr num 26) 0x1F); w8 (0x40 + Z.land (Z.shiftr num 21) 0x1F);
   w8 (0x40 + Z.land (Z.shiftr num 16) 0x1F); i2hex num 12; i2hex num 8; i2hex num 4; i2hex num 0].

(** [x << k] of an [int]. *)
Definition int_shl (x k : Z) : M unit Z :=
  if (0 <=? x) && (Z.shiftl x k <? 2^31) then mret (Z.shiftl x k) else undef "overflow".
Definition char_at (id : list Z) (i : nat) : M unit Z := deref (id !! i) "id".
Definition string_to_eisaid (id : list Z) : M unit Z :=
  c ← char_at id 0; x ← int_shl (c - 0x40) 26; let out := Z.lor 0 x in
  c ← char_at id 1; x ← int_shl (c - 0x40) 21; let out := Z.lor out x in
  c ← char_at id 2; x ← int_shl (c - 0x40) 16; let out := Z.lor out x in
  c ← char_at id 3; d ← hex2i c; x ← int_shl d 12; let out := Z.lor out x in
  c ← char_at id 4; d ← hex2i c; x ← int_shl d 8; let out := Z.lor out x in
  c ← char_at id 5; d ← hex2i c; x ← int_shl d 4; let out := Z.lor out x in
  c ← char_at id 6; d ← hex2i c; let out := Z.lor out d in
  mret (bswap_32 out).

(** ** Tables *)

Definition le32 (m : mem) (a : Z) : Z := m a + 2^8 * m (a + 1) + 2^16 * m (a + 2) + 2^24 * m (a + 3).
(** "DSDT", "FACP", "APIC" *)
Definition sig_DSDT : list Z := [68; 83; 68; 84].
Definition sig_FACP : list Z := [70; 65; 67; 80].
Definition sig_APIC : list Z := [65; 80; 73; 67].

Section tables.
(** [sizeof(acpi_header_t)], the fields of a header and of the fixed table. *)
Variables (sizeof_header : Z) (signature : mem → Z → list Z) (length_ : mem → Z → Z)
  (dsdt x_dsdt : mem → Z → Z).
(** [rsdt] and [xsdt], 0 for NULL. *)
Variables (rsdt xsdt : Z) (m : mem).

(** The tables' addresses, of [w] bytes each. *)
Definition table_addrs : list Z :=
  if negb (xsdt =? 0) then
    (λ i, read64 m (xsdt + sizeof_header + 8 * i)) <$> seqZ 0 (w64 (length_ m xsdt - sizeof_header) / 8)
  else (λ i, le32 m (rsdt + sizeof_header + 4 * i)) <$> seqZ 0 (w64 (length_ m rsdt - sizeof_header) / 4).

(** The loops: [cur] tables with the signature were passed. *)
Fixpoint scan_from (l : list Z) (sig : list Z) (index cur : Z) : option Z :=
  match l with
  | [] => None
  | header :: l' =>
      if negb (bool_decide (signature m header = sig)) then scan_from l' sig index cur
      else if cur =? index then Some header else scan_from l' sig index (w64 (cur + 1))
  end.
Definition laihost_scan {S} (sig : list Z) (index : Z) : M S (option Z) :=
  if decide (sig = sig_DSDT) then
    let fadt := scan_from table_addrs sig_FACP 0 0 in
    massert (bool_decide (is_Some fadt)) "assert(fadt != NULL)";;
    fadt ← deref fadt "fadt";
    mret (Some (if xsdt =? 0 then dsdt m fadt else x_dsdt m fadt))
  else mret (scan_from table_addrs sig index 0).

(** *** The interrupt controllers *)

(** [madt_walk]: [fuel] turns at most. *)
Definition sizeof_madt : Z := sizeof_header + 8.
Fixpoint madt_loop {S} (fuel : nat) (callback : Z → M S unit) (item last_ : Z) : M S unit :=
  if negb (item <? last_) then mret () else
  match fuel with
  | O => undef "goes on"
  | Datatypes.S fuel' =>
      callback item;;
      madt_loop fuel' callback (item + m (item + 1)) last_
  end.
Definition madt_walk {S} (fuel : nat) (madt : Z) (callback : Z → M S unit) : M S unit :=
  madt_loop fuel callback (madt + sizeof_madt) (madt + sizeof_madt + w64 (length_ m madt - sizeof_madt)).

Definition parse_ioapics (item : Z) : M apics unit :=
  if negb (m item =? 1) then mret () else initWithID (m (item + 2)) (le32 m (item + 4)) (le32 m (item + 8)).

(** [init], as far as the table of interrupt controllers; what [parse_intrs] does is print. *)
Definition init_ioapics (fuel : nat) : M apics unit :=
  madt ← laihost_scan sig_APIC 0;
  madt ← deref madt "madt->header";
  madt_walk fuel madt parse_ioapics;;
  madt_walk fuel madt (λ _, mret ()).
End tables.

(** ** Identifiers are read back *)

Definition hexdigit (c : Z) : Prop := 48 ≤ c ≤ 57 ∨ 65 ≤ c ≤ 70.
(** Three letters (of the 32 characters from @ on) and four digits. *)
Definition eisa_id (id : list Z) : Prop :=
  ∃ a b c d e f g, id = [a; b; c; d; e; f; g] ∧ 64 ≤ a < 96 ∧ 64 ≤ b < 96 ∧ 64 ≤ c < 96 ∧
    hexdigit d ∧ hexdigit e ∧ hexdigit f ∧ hexdigit g.

Lemma hex2i_run c : hexdigit c →
  ∃ d, 0 ≤ d < 16 ∧ hex2i c () = Ok (d, ()) ∧ (if d <? 0xa then 48 + d else 65 + (d - 10)) = c.
Proof.
  intros H. unfold hex2i. destruct (Z.leb_spec c 57).
  - exists (c - 48). destruct H; [|lia]. split_and!; [lia..|done|]. rewrite (proj2 (Z.ltb_lt (c - 48) _)) by lia. lia.
  - exists (c - 65 + 10). destruct H; [lia|]. split_and!; [lia..| |].
    + by rewrite (proj2 (Z.leb_le 65 c)), (proj2 (Z.leb_le c 70)) by lia.
    + rewrite (proj2 (Z.ltb_ge (c - 65 + 10) _)) by lia. lia.
Qed.
Lemma int_shl_run x k : 0 ≤ x → 0 ≤ k → x * 2^k < 2^31 → int_shl x k () = Ok (Z.shiftl x k, ()).
Proof.
  intros. unfold int_shl. rewrite (proj2 (Z.leb_le 0 x)), (proj2 (Z.ltb_lt _ _)); [done|..|done].
  by rewrite Z.shiftl_mul_pow2.
Qed.

Lemma push_bits t d j k n : n = k + j → 0 ≤ j → 0 ≤ k → 0 ≤ d < 2^j → Z.lor (Z.shiftl t n) (Z.shiftl d k) = Z.shiftl (2^j * t + d) k.
Proof.
  intros -> Hj Hk Hd. rewrite (Z.add_comm k j), <-Z.shiftl_shiftl, <-Z.shiftl_lor by lia. f_equal. by apply lor_shiftl_add.
Qed.
Lemma bits_out v x n k : 0 ≤ n → 0 ≤ k → (v / 2^k) mod 2^n = x → Z.land (Z.shiftr v k) (Z.ones n) = x.
Proof. intros Hn Hk <-. by rewrite Z.land_ones, Z.shiftr_div_pow2. Qed.

Lemma bswap_bytes b0 b1 b2 b3 :
  0 ≤ b0 < 2^8 → 0 ≤ b1 < 2^8 → 0 ≤ b2 < 2^8 → 0 ≤ b3 < 2^8 →
  bswap_32 (b0 + 2^8 * b1 + 2^16 * b2 + 2^24 * b3) = b3 + 2^8 * b2 + 2^16 * b1 + 2^24 * b0.
Proof. intros. unfold bswap_32. Z.to_euclidean_division_equations. lia. Qed.
Lemma bswap_bswap v : 0 ≤ v < 2^32 → bswap_32 (bswap_32 v) = v.
Proof.
  intros Hv. assert (v = v mod 2^8 + 2^8 * (v / 2^8 mod 2^8) + 2^16 * (v / 2^16 mod 2^8) + 2^24 * (v / 2^24 mod 2^8)) as E
    by (Z.to_euclidean_division_equations; lia).
  rewrite E. rewrite !bswap_bytes by (apply Z.mod_pos_bound; lia). done.
Qed.

(** The fields of an identifier, as [string_to_eisaid] packs them. *)
Definition packed (a b c d e f g : Z) : Z :=
  2^26 * a + 2^21 * b + 2^16 * c + 2^12 * d + 2^8 * e + 2^4 * f + g.
Lemma packed_bits a b c d e f g :
  0 ≤ a < 32 → 0 ≤ b < 32 → 0 ≤ c < 32 → 0 ≤ d < 16 → 0 ≤ e < 16 → 0 ≤ f < 16 → 0 ≤ g < 16 →
  let v := packed a b c d e f g in
  Z.lor (Z.lor (Z.lor (Z.lor (Z.lor (Z.lor (Z.lor 0 (Z.shiftl a 26)) (Z.shiftl b 21)) (Z.shiftl c 16))
    (Z.shiftl d 12)) (Z.shiftl e 8)) (Z.shiftl f 4)) g = v ∧ 0 ≤ v < 2^31 ∧
  Z.land (Z.shiftr v 26) (Z.ones 5) = a ∧ Z.land (Z.shiftr v 21) (Z.ones 5) = b ∧ Z.land (Z.shiftr v 16) (Z.ones 5) = c ∧
  Z.land (Z.shiftr v 12) (Z.ones 4) = d ∧ Z.land (Z.shiftr v 8) (Z.ones 4) = e ∧ Z.land (Z.shiftr v 4) (Z.ones 4) = f ∧
  Z.land (Z.shiftr v 0) (Z.ones 4) = g.
Proof.
  intros Ha Hb Hc Hd He Hf Hg v. unfold v, packed. split.
  - rewrite Z.lor_0_l. rewrite (push_bits a b 5 21), (push_bits _ c 5 16), (push_bits _ d 4 12), (push_bits _ e 4 8), (push_bits _ f 4 4) by lia.
    rewrite lor_shiftl_add by lia. lia.
  - split; [lia|]. split_and!; apply bits_out; try lia; Z.to_euclidean_division_equations; lia.
Qed.

Lemma i2hex_digit v pos d c :
  Z.land (Z.shiftr v pos) (Z.ones 4) = d → (if d <? 0xa then 48 + d else 65 + (d - 10)) = c → i2hex v pos = c.
Proof. intros H Hc. unfold i2hex. change 0xf with (Z.ones 4). by rewrite H. Qed.

(** Packing, with what the number is. *)
Lemma pack_run a b c d e f g d' e' f' g' :
  64 ≤ a < 96 → 64 ≤ b < 96 → 64 ≤ c < 96 →
  hex2i d () = Ok (d', ()) → hex2i e () = Ok (e', ()) → hex2i f () = Ok (f', ()) → hex2i g () = Ok (g', ()) →
  0 ≤ d' < 16 → 0 ≤ e' < 16 → 0 ≤ f' < 16 → 0 ≤ g' < 16 →
  string_to_eisaid [a; b; c; d; e; f; g] () = Ok (bswap_32 (packed (a - 64) (b - 64) (c - 64) d' e' f' g'), ()).
Proof.
  intros Ha Hb Hc Ed Ee Ef Eg Hd He Hf Hg. unfold string_to_eisaid, char_at. cbn [lookup list_lookup].
  rewrite deref_bind, (bind_step _ _ _ _ _ (int_shl_run (a - 64) 26 ltac:(lia) ltac:(lia) ltac:(lia))). cbv zeta.
  rewrite deref_bind, (bind_step _ _ _ _ _ (int_shl_run (b - 64) 21 ltac:(lia) ltac:(lia) ltac:(lia))).
  rewrite deref_bind, (bind_step _ _ _ _ _ (int_shl_run (c - 64) 16 ltac:(lia) ltac:(lia) ltac:(lia))).
  rewrite deref_bind, (bind_step _ _ _ _ _ Ed), (bind_step _ _ _ _ _ (int_shl_run d' 12 ltac:(lia) ltac:(lia) ltac:(lia))).
  rewrite deref_bind, (bind_step _ _ _ _ _ Ee), (bind_step _ _ _ _ _ (int_shl_run e' 8 ltac:(lia) ltac:(lia) ltac:(lia))).
  rewrite deref_bind, (bind_step _ _ _ _ _ Ef), (bind_step _ _ _ _ _ (int_shl_run f' 4 ltac:(lia) ltac:(lia) ltac:(lia))).
  rewrite deref_bind, (bind_step _ _ _ _ _ Eg).
  destruct (packed_bits (a - 64) (b - 64) (c - 64) d' e' f' g') as [E _]; [lia..|]. unfold mret, M_ret. by rewrite E.
Qed.
Lemma unpack_packed a b c d e f g :
  0 ≤ a < 32 → 0 ≤ b < 32 → 0 ≤ c < 32 → 0 ≤ d < 16 → 0 ≤ e < 16 → 0 ≤ f < 16 → 0 ≤ g < 16 →
  let hex x := if x <? 0xa then 48 + x else 65 + (x - 10) in
  eisaid_to_string (bswap_32 (packed a b c d e f g)) = [64 + a; 64 + b; 64 + c; hex d; hex e; hex f; hex g].
Proof.
  intros Ha Hb Hc Hd He Hf Hg hex. destruct (packed_bits a b c d e f g) as (_ & Hv & Ba & Bb & Bc & Bd & Be & Bf & Bg); [done..|].
  unfold eisaid_to_string. rewrite bswap_bswap by lia. change 0x1F with (Z.ones 5). rewrite Ba, Bb, Bc.
  unfold w8. rewrite !Z.mod_small by lia. unfold hex.
  by erewrite (i2hex_digit _ 12 d), (i2hex_digit _ 8 e), (i2hex_digit _ 4 f), (i2hex_digit _ 0 g).
Qed.
Lemma hex_digit x : 0 ≤ x < 16 → hexdigit (if x <? 0xa then 48 + x else 65 + (x - 10)) ∧
  hex2i (if x <? 0xa then 48 + x else 65 + (x - 10)) () = Ok (x, ()).
Proof.
  intros Hx. destruct (Z.ltb_spec x 0xa).
  - split; [left; lia|]. unfold hex2i. rewrite (proj2 (Z.leb_le (48 + x) 57)) by lia. unfold mret, M_ret. do 2 f_equal. lia.
  - split; [right; lia|]. unfold hex2i. rewrite (proj2 (Z.leb_gt (65 + (x - 10)) 57)) by lia.
    rewrite (proj2 (Z.leb_le 65 (65 + (x - 10)))), (proj2 (Z.leb_le (65 + (x - 10)) 70)) by lia. unfold mret, M_ret. cbn [andb]. do 2 f_equal. lia.
Qed.
(** Every number with a clear top bit is packed from fields. *)
Lemma packed_all v : 0 ≤ v < 2^31 →
  ∃ a b c d e f g, v = packed a b c d e f g ∧ 0 ≤ a < 32 ∧ 0 ≤ b < 32 ∧ 0 ≤ c < 32 ∧
    0 ≤ d < 16 ∧ 0 ≤ e < 16 ∧ 0 ≤ f < 16 ∧ 0 ≤ g < 16.
Proof.
  intros Hv. exists (v / 2^26), (v / 2^21 mod 2^5), (v / 2^16 mod 2^5), (v / 2^12 mod 2^4), (v / 2^8 mod 2^4), (v / 2^4 mod 2^4), (v mod 2^4).
  unfold packed. Z.to_euclidean_division_equations. lia.
Qed.
Lemma bswap_range v : 0 ≤ bswap_32 v < 2^32.
Proof. unfold bswap_32. Z.to_euclidean_division_equations. lia. Qed.

(** C38: Identifiers of devices survive their packing into 32 bits: every identifier of three
    letters and four upper-case hexadecimal digits is packed, and unpacking gives it back;
    and every number with the top bit of its first byte clear is unpacked into such an
    identifier, whose packing is that number. *)
Theorem eisaid_roundtrip :
  (∀ id, eisa_id id → ∃ num, string_to_eisaid id () = Ok (num, ()) ∧ 0 ≤ num < 2^32 ∧ eisaid_to_string num = id) ∧
  (∀ num, 0 ≤ num < 2^32 → num mod 2^8 < 2^7 →
     eisa_id (eisaid_to_string num) ∧ string_to_eisaid (eisaid_to_string num) () = Ok (num, ())).
Proof.
  split.
  - intros id (a & b & c & d & e & f & g & -> & Ha & Hb & Hc & (d' & Hd & Ed & Xd)%hex2i_run & (e' & He & Ee & Xe)%hex2i_run
      & (f' & Hf & Ef & Xf)%hex2i_run & (g' & Hg & Eg & Xg)%hex2i_run).
    eexists. split; [by apply pack_run|]. split; [apply bswap_range|].
    rewrite unpack_packed by lia. rewrite Xd, Xe, Xf, Xg. repeat (f_equal; try lia).
  - intros num Hn Htop. assert (0 ≤ bswap_32 num < 2^31) as Hv
      by (unfold bswap_32; Z.to_euclidean_division_equations; lia).
    destruct (packed_all _ Hv) as (a & b & c & d & e & f & g & E & Ha & Hb & Hc & Hd & He & Hf & Hg).
    rewrite <-(bswap_bswap num Hn), E, unpack_packed by done.
    destruct (hex_digit d Hd) as [Xd Ed], (hex_digit e He) as [Xe Ee], (hex_digit f Hf) as [Xf Ef], (hex_digit g Hg) as [Xg Eg].
    split; [do 7 eexists; split; [reflexivity|]; split_and!; (done || lia)|].
    rewrite (pack_run _ _ _ _ _ _ _ d e f g) by (done || lia). do 3 f_equal. f_equal; lia.
Qed.

(** ** Tables are found *)

Section found.
Variables (sizeof_header : Z) (signature : mem → Z → list Z) (length_ : mem → Z → Z) (dsdt x_dsdt : mem → Z → Z).
Variables (rsdt xsdt : Z) (m : mem).

Lemma scan_from_lookup l sig index cur :
  0 ≤ cur ≤ index → index + Z.of_nat (length l) < 2^64 →
  scan_from signature m l sig index cur = filter (λ h, signature m h = sig) l !! Z.to_nat (index - cur).
Proof.
  revert cur. induction l as [|h l IH]; intros cur Hc Hl; [by rewrite filter_nil, lookup_nil|].
  cbn [scan_from length] in *. rewrite filter_cons. destruct (decide (signature m h = sig)) as [E|E].
  - rewrite bool_decide_true by done. cbn [negb]. destruct (Z.eqb_spec cur index) as [->|Hne].
    + by replace (Z.to_nat (index - index)) with 0%nat by lia.
    + rewrite w64_small, IH by lia. replace (Z.to_nat (index - cur)) with (S (Z.to_nat (index - (cur + 1)))) by lia. done.
  - rewrite bool_decide_false by done. apply IH; lia.
Qed.

Lemma table_addrs_length : Z.of_nat (length (table_addrs sizeof_header length_ rsdt xsdt m)) < 2^64.
Proof.
  unfold table_addrs. destruct (negb (xsdt =? 0)); rewrite length_fmap, length_seqZ.
  - pose proof (w64_range (length_ m xsdt - sizeof_header)). Z.to_euclidean_division_equations. lia.
  - pose proof (w64_range (length_ m rsdt - sizeof_header)). Z.to_euclidean_division_equations. lia.
Qed.

(** The entries' places from [a] to the end: their lengths are not 0. *)
Inductive madt_entries : Z → Z → list Z → Prop :=
| me_nil a last_ : last_ ≤ a → madt_entries a last_ []
| me_cons a last_ l : a < last_ → 0 < m (a + 1) → madt_entries (a + m (a + 1)) last_ l → madt_entries a last_ (a :: l).

Lemma madt_entries_length a last_ l : madt_entries a last_ l → (length l ≤ Z.to_nat (last_ - a))%nat.
Proof. intros H. induction H; cbn [length]; lia. Qed.

Lemma madt_loop_run {S} (callback : Z → M S unit) fuel a last_ l s :
  madt_entries a last_ l → (length l ≤ fuel)%nat → madt_loop m fuel callback a last_ s = mfor l callback s.
Proof.
  intros H. revert fuel s. induction H as [a last_ Hle|a last_ l Hlt Hlen H IH]; intros fuel s Hf.
  - destruct fuel; cbn [madt_loop]; by rewrite (proj2 (Z.ltb_ge a last_)) by lia.
  - destruct fuel as [|fuel]; [cbn in Hf; lia|]. cbn [madt_loop mfor]. rewrite (proj2 (Z.ltb_lt a last_)) by lia. cbn [negb].
    unfold mbind, M_bind. destruct (callback a s) as [[[] s1]| |]; [|done..]. apply IH. cbn in Hf. lia.
Qed.

(** An entry of length 0: the loop does not end. *)
Lemma madt_loop_stuck {S} (callback : Z → M S unit) fuel a last_ s :
  a < last_ → m (a + 1) = 0 → (∀ s, ∃ s', callback a s = Ok ((), s')) →
  madt_loop m fuel callback a last_ s = Undef "goes on".
Proof.
  intros Hlt H0 Hcb. revert s. induction fuel as [|fuel IH]; intros s; cbn [madt_loop];
    rewrite (proj2 (Z.ltb_lt a last_)) by lia; [done|]. cbn [negb].
  destruct (Hcb s) as [s1 R]. rewrite (bind_step _ _ _ _ _ R), H0, Z.add_0_r. apply IH.
Qed.

(** The device that an entry describes, with as many pins as it says it has. *)
Definition described (s : apics) (item : Z) : IOApic :=
  let vaddr := w64 (HHDM_BASE + le32 m (item + 4)) in
  IOApic_ (m (item + 2)) vaddr (le32 m (item + 8))
    (Z.land (Z.shiftr (io_reg (ap_regs s vaddr) kRegisterVersion) 16) 0xff + 1) (replicate 24 0).
Definition apart (a b : IOApic) : Prop :=
  io_vaddr a ≠ io_vaddr b ∧ (io_gsi_base a + io_n_redirs a ≤ io_gsi_base b ∨ io_gsi_base b + io_n_redirs b ≤ io_gsi_base a).
Definition sound_device (a : IOApic) : Prop := 0 < io_n_redirs a ≤ 24 ∧ 0 ≤ io_gsi_base a ∧ io_gsi_base a + io_n_redirs a < 2^32.
Definition all_apart (l : list IOApic) : Prop := ∀ j k a b, (j < k)%nat → l !! j = Some a → l !! k = Some b → apart a b.

Lemma parse_run s0 l s :
  apics_ok s → (∀ x y, io_reg (ap_regs s x) y = io_reg (ap_regs s0 x) y) →
  let new := described s0 <$> filter (λ i, m i = 1) l in
  all_apart (ioapics s ++ new) → Forall sound_device new →
  ∃ s', mfor l (parse_ioapics m) s = Ok ((), s') ∧ apics_ok s' ∧ ap_machine s' = ap_machine s ∧ ioapics s' = ioapics s ++ new.
Proof.
  revert s. induction l as [|i l IH]; intros s Hok Hreg new Hap Hsd; unfold new in *; clear new; cbn [mfor].
  { exists s. by rewrite filter_nil, fmap_nil, app_nil_r. }
  rewrite filter_cons in *. assert (parse_ioapics m i = if negb (m i =? 1) then mret () else
    initWithID (m (i + 2)) (le32 m (i + 4)) (le32 m (i + 8))) as -> by done.
  destruct (decide (m i = 1)) as [E|E].
  - rewrite E. change (negb (1 =? 1)) with false. cbv iota. rewrite fmap_cons in *. apply Forall_cons in Hsd as [(Hn & Hb & He) Hsd].
    destruct (initWithID_run s (m (i + 2)) (le32 m (i + 4)) (le32 m (i + 8)) (io_n_redirs (described s0 i)) Hok)
      as (s1 & R & Hok1 & Em & Hreg1 & El); [done..| | |].
    + rewrite Hreg. cbn [described io_n_redirs]. lia.
    + intros a [j Hj]%list_elem_of_lookup. pose proof (lookup_lt_Some _ _ _ Hj) as Hlt.
      apply (Hap j (length (ioapics s)) a (described s0 i)); [done|by apply lookup_app_l_Some|by apply list_lookup_middle].
    + rewrite (bind_step _ _ _ _ _ R).
      assert (ioapics s1 = ioapics s ++ [described s0 i]) as El' by exact El.
      destruct (IH s1 Hok1) as (s' & R' & Hok' & Em' & El2); [|by rewrite El', <-app_assoc|done|].
      * intros x y. by rewrite Hreg1, Hreg.
      * exists s'. split; [done|]. split; [done|]. split; [congruence|]. by rewrite El2, El', <-app_assoc.
  - rewrite (proj2 (Z.eqb_neq (m i) 1)) by done. cbn [negb]. erewrite bind_step by reflexivity. by apply IH.
Qed.

(** C37: Starting the I/O APICs.  The first table with the signature APIC is the one that
    is read; every entry of type 1 in it, in order, becomes a device with its address, its first GSI
    and as many pins as the hardware says, for entries of any lengths but 0 and fuel for the
    bytes of the table; lines and vectors are sound afterwards, and every line of a new device can
    be given a handler. *)
Theorem init_ioapics_correct fuel s madt rest l :
  apics_ok s → filter (λ h, signature m h = sig_APIC) (table_addrs sizeof_header length_ rsdt xsdt m) = madt :: rest →
  let first := madt + sizeof_madt sizeof_header in
  let size := w64 (length_ m madt - sizeof_madt sizeof_header) in
  madt_entries first (first + size) l → (Z.to_nat size ≤ fuel)%nat →
  let new := described s <$> filter (λ i, m i = 1) l in
  all_apart (ioapics s ++ new) → Forall sound_device new →
  ∃ s', init_ioapics sizeof_header signature length_ dsdt x_dsdt rsdt xsdt m fuel s = Ok ((), s') ∧ apics_ok s' ∧
    ap_machine s' = ap_machine s ∧ ioapics s' = ioapics s ++ new ∧
    ∀ a gsi, a ∈ new → io_gsi_base a ≤ gsi < io_gsi_base a + io_n_redirs a → gsi_vector s' gsi = Some 0.
Proof.
  intros Hok Htab first size Hent Hfuel new Hap Hsd.
  destruct (parse_run s l s Hok (λ _ _, eq_refl) Hap Hsd) as (s' & R & Hok' & Em & El).
  pose proof (madt_entries_length _ _ _ Hent) as Hlen. replace (first + size - first) with size in Hlen by lia.
  exists s'. split; [|split; [done|split; [done|split; [exact El|]]]].
  - unfold init_ioapics, laihost_scan. rewrite decide_False by done.
    erewrite bind_step by reflexivity. rewrite scan_from_lookup.
    2: lia. 2: pose proof table_addrs_length; lia.
    change (Z.to_nat (0 - 0)) with 0%nat. rewrite Htab. change ((madt :: rest) !! 0%nat) with (Some madt). rewrite deref_bind. unfold madt_walk. fold first size.
    rewrite (bind_step _ _ s () s').
    2: { rewrite (madt_loop_run _ _ _ _ l) by (done || lia). exact R. }
    rewrite (madt_loop_run _ _ _ _ l) by (done || lia). clear. induction l as [|i l IH]; [done|].
    cbn [mfor]. by erewrite bind_step by reflexivity.
  - intros a gsi Ha Hg. apply list_elem_of_lookup in Ha as [j Hj].
    assert (ioapics s' !! (length (ioapics s) + j)%nat = Some a) as Hk by (rewrite El, lookup_app_r by lia; by replace (_ + j - _)%nat with j by lia).
    unfold gsi_vector, gsi_pin. rewrite (found_at s' _ a gsi Hok' Hk Hg). cbn.
    apply list_lookup_fmap_Some in Hj as (i & -> & _). destruct (ao_pins _ Hok' (described s i)) as (Hn & _);
      [by eapply list_elem_of_lookup_2|]. cbn [described redirs io_n_redirs io_gsi_base] in *.
    apply lookup_replicate_2. lia.
Qed.
End found.

(** ** A root table with one table, of a processor's interrupt controller and an I/O APIC *)

Definition demo_table : list (Z * Z) :=
  [(4100, 40); (4096 + 37, 32);                                        (* length 40; the table at 8192 *)
   (8192, 65); (8193, 80); (8194, 73); (8195, 67); (8196, 64);         (* APIC, length 64 *)
   (8237, 8);                                                          (* type 0, length 8 *)
   (8244, 1); (8245, 12); (8246, 2); (8250, 0xc0); (8251, 0xfe)].      (* type 1, length 12, number 2, 0xfec00000, GSI 0 *)
Definition demo_mem : mem := λ a, default 0 (snd <$> (snd <$> list_find (λ y, y.1 = a) demo_table)).
Definition demo_signature (m : mem) (a : Z) : list Z := bytes_at m a 4.
Definition demo_length (m : mem) (a : Z) : Z := le32 m (a + 4).
Definition demo_ioapic : IOApic := IOApic_ 2 (HHDM_BASE + 0xfec00000) 0 24 (replicate 24 0).

Lemma init_ioapics_correct_witness :
  ∃ s', init_ioapics 36 demo_signature demo_length (λ _ _, 0) (λ _ _, 0) 4096 0 demo_mem 20 (no_apics demo_machine) =
    Ok ((), s') ∧ ioapics s' = [demo_ioapic] ∧ gsi_vector s' 11 = Some 0.
Proof.
  assert (described demo_mem (no_apics demo_machine) <$> filter (λ i, demo_mem i = 1) [8236; 8244] = [demo_ioapic]) as E
    by by vm_compute.
  destruct (init_ioapics_correct 36 demo_signature demo_length (λ _ _, 0) (λ _ _, 0) 4096 0 demo_mem 20
    (no_apics demo_machine) 8192 [] [8236; 8244]) as (s' & R & _ & _ & El & Hl).
  - apply no_apics_ok.
  - by vm_compute.
  - apply me_cons; [by vm_compute..|]. apply me_cons; [by vm_compute..|]. by apply me_nil.
  - vm_compute. lia.
  - rewrite E. intros [|j] [|k] a b Hjk Ha Hb; try lia; by destruct k.
  - rewrite E. repeat constructor; by vm_compute.
  - rewrite E in El, Hl. exists s'. split; [exact R|]. split; [exact El|].
    apply (Hl demo_ioapic); [by left|]. cbn. lia.
Defined.

(** "PNP0A03", a PCI root bus. *)
Lemma eisaid_roundtrip_witness :
  string_to_eisaid [80; 78; 80; 48; 65; 48; 51] () = Ok (0x030ad041, ()) ∧
  eisaid_to_string 0x030ad041 = [80; 78; 80; 48; 65; 48; 51].
Proof.
  destruct eisaid_roundtrip as [H _]. destruct (H [80; 78; 80; 48; 65; 48; 51]) as (num & R & _ & E).
  { do 7 eexists. split; [reflexivity|]. unfold hexdigit. split_and!; lia. }
  assert (string_to_eisaid [80; 78; 80; 48; 65; 48; 51] () = Ok (0x030ad041, ())) as R' by by vm_compute.
  split; [exact R'|]. rewrite R in R'. injection R' as ->. exact E.
Defined.
