(* ===== verification/Smp.v ===== *)
(** * The start of the other processors: [smp_init], [ap_init] of x86_64/kmain.c

    The boot processor walks the boot loader's list of processors and sets each of
    the others going; they initialise themselves while it goes on.  The model is a
    step relation: the program counters of all processors, the lock [early_lock],
    the counter [cpus_up], the kernel's heap and the scheduler's state. *)

From S2P Require Import Prelude VmPage Callout Sched SchedProps Intr Kmain Vmem VmKernel Heap.
Open Scope Z_scope.

(** Where the boot processor is: at the head of the loop, inside [kmem_alloc] for
    processor [i], or past the wait at the end. *)
Inductive bsp_pc := BspLoop (i : nat) | BspAlloc (i : nat) | BspDone.
(** Where another processor is: not started; started; inside [kmem_alloc], holding
    [early_lock]; about to call [common_init]; in its idle loop. *)
Inductive ap_pc := ApOff | ApEntry | ApAlloc | ApReady | ApUp.
#[export] Instance ap_pc_eq_dec : EqDecision ap_pc.
Proof. solve_decision. Defined.

Section smp.
Context {K : Type} `{!KernelHeap K}.
(** [lapic_id] of each processor and of the one that boots; addresses of objects of
    the image; sizes of the structures; what new memory holds. *)
Context (ids : list Z) (bsp_lapic_id cpu0 task0 slice_fn tss sizeof_cpu sizeof_thread : Z).
Context (junk_cpu : cpu_t) (junk_thread : thread_t).

Record smp := Smp {
  sm_heap : K;
  sm_mach : machine;
  early_lock : bool;
  cpus_up : Z;
  sm_bsp : bsp_pc;
  sm_aps : list ap_pc;
  extra_argument : list Z;   (** of each [struct limine_smp_info] *)
}.

(** [cpus[i] = cpu] *)
Definition put_cpu (i : nat) (cpu : Z) (x : sched) : sched :=
  Sched (threads x) (cpus x) (<[i := cpu]> (cpu_array x)) (lastcpu x) (sched_lock x) (waitqs x)
    (task_threads x) (ipis x).
(** A structure in new memory. *)
Definition new_cpu (cpu : Z) (x : sched) : sched := set_cpu cpu junk_cpu x.

(** [spinlock_init(&thread->lock); cpu->curthread = thread; thread->task = &task0;] *)
Definition ap_thread (cpu thread : Z) : M sched unit :=
  p ← get_cpu cpu;
  mmodify (set_thread thread (Thread false (th_wq junk_thread) (th_wqres junk_thread) (th_cpu junk_thread)
    (th_state junk_thread) (th_kstack junk_thread) (th_ustack junk_thread) task0 (th_frame junk_thread)
    (th_fs junk_thread)));;
  mmodify (set_cpu cpu (Cpu thread (idlethread p) (runqueue p) (preempted p) (inInterrupt p) (timeslicer p)
    (timer p) (md_old p) (regs p) (fsbase p))).

Definition init_cpu (cpu : Z) (i : nat) : M machine unit := common_init task0 slice_fn tss cpu (Z.of_nat i).

Inductive smp_step : smp → smp → Prop :=
| bsp_self h m m' up i aps args :
    ids !! i = Some bsp_lapic_id →
    init_cpu cpu0 i (set_sch (put_cpu i cpu0 (sch m)) m) = Ok ((), m') →
    smp_step (Smp h m false up (BspLoop i) aps args)
      (Smp h m' false (up + 1) (BspLoop (S i)) (<[i := ApUp]> aps) (<[i := cpu0]> args))
| bsp_enter h m l up i id aps args :
    ids !! i = Some id → id ≠ bsp_lapic_id →
    smp_step (Smp h m l up (BspLoop i) aps args) (Smp h m l up (BspAlloc i) aps args)
| bsp_start h h' m l up i cpu aps args :
    heap_alloc sizeof_cpu h = Ok (cpu, h') →
    smp_step (Smp h m l up (BspAlloc i) aps args)
      (Smp h' (set_sch (put_cpu i cpu (new_cpu cpu (sch m))) m) l up (BspLoop (S i)) (<[i := ApEntry]> aps)
         (<[i := cpu]> args))
| bsp_wait h m l up aps args :
    up = Z.of_nat (length ids) →
    smp_step (Smp h m l up (BspLoop (length ids)) aps args) (Smp h m l up BspDone aps args)
| ap_lock h m up b i aps args :
    aps !! i = Some ApEntry →
    smp_step (Smp h m false up b aps args) (Smp h m true up b (<[i := ApAlloc]> aps) args)
| ap_alloc h h' m x up b i cpu thread aps args :
    aps !! i = Some ApAlloc → args !! i = Some cpu →
    heap_alloc sizeof_thread h = Ok (thread, h') → ap_thread cpu thread (sch m) = Ok ((), x) →
    smp_step (Smp h m true up b aps args) (Smp h' (set_sch x m) false up b (<[i := ApReady]> aps) args)
| ap_up h m m' up b i cpu aps args :
    aps !! i = Some ApReady → args !! i = Some cpu → init_cpu cpu i m = Ok ((), m') →
    smp_step (Smp h m false up b aps args) (Smp h m' false (up + 1) b (<[i := ApUp]> aps) args).

(** [cpus = kmem_alloc(sizeof *cpus * smpr->cpu_count)], an array of pointers. *)
Definition smp_start (array : list Z) (h : K) (m : machine) : smp :=
  Smp h (set_sch (Sched (threads (sch m)) (cpus (sch m)) array (lastcpu (sch m)) (sched_lock (sch m))
      (waitqs (sch m)) (task_threads (sch m)) (ipis (sch m))) m)
    false 0 (BspLoop 0) (replicate (length ids) ApOff) (replicate (length ids) 0).
Definition smp_reach (s0 s : smp) : Prop := rtc smp_step s0 s.

(** ** What [common_init] leaves alone *)

Definition keeps_array {A} (f : M machine A) : Prop :=
  ∀ s a s', f s = Ok (a, s') → cpu_array (sch s') = cpu_array (sch s).
Definition keeps_array_sched {A} (f : M sched A) : Prop :=
  ∀ s a s', f s = Ok (a, s') → cpu_array s' = cpu_array s.

Lemma keeps_array_bind {A B} (f : M machine A) (g : A → M machine B) :
  keeps_array f → (∀ a, keeps_array (g a)) → keeps_array (f ≫= g).
Proof.
  intros Hf Hg s b s'. unfold mbind, M_bind. destruct (f s) as [[a s1]| |] eqn:E; [|done..].
  intros H. by rewrite (Hg _ _ _ _ H), (Hf _ _ _ E).
Qed.
Lemma keeps_array_on_sched {A} (f : M sched A) : keeps_array_sched f → keeps_array (on_sched f).
Proof.
  intros Hf s a s'. unfold on_sched. destruct (f (sch s)) as [[b x]| |] eqn:E; [|done..].
  intros [= <- <-]. simpl. by rewrite (Hf _ _ _ E).
Qed.
Lemma keeps_array_modify (f : machine → machine) :
  (∀ s, cpu_array (sch (f s)) = cpu_array (sch s)) → keeps_array (mmodify f).
Proof. intros Hf s [] s' [= <-]. apply Hf. Qed.

Lemma keeps_array_ret {A} (a : A) : keeps_array (mret a).
Proof. by intros s b s' [= <- <-]. Qed.
Lemma keeps_array_undef {A} why : keeps_array (undef why : M machine A).
Proof. done. Qed.
Lemma keeps_array_get : keeps_array mget.
Proof. by intros s b s' [= <- <-]. Qed.
Lemma keeps_array_deref {A} (o : option A) why : keeps_array (deref o why).
Proof. destruct o; [apply keeps_array_ret|apply keeps_array_undef]. Qed.
Lemma keeps_array_read reg : keeps_array (lapic_read reg).
Proof.
  intros s v s'. unfold lapic_read, mbind, M_bind, mget. destruct (lapic_in s); [done|].
  by intros [= <- <-].
Qed.

Ltac keep :=
  repeat first
    [ apply keeps_array_read
    | apply keeps_array_bind; [|intros ?]
    | apply keeps_array_modify; intros ?; reflexivity
    | apply keeps_array_ret | apply keeps_array_undef | apply keeps_array_get | apply keeps_array_deref
    | progress (cbv beta zeta) ].

Lemma keeps_array_await l : keeps_array (await_loop l).
Proof.
  induction l as [|v l IH]; simpl; unfold outb; keep. destruct (has_flag _ _); [keep|apply IH].
Qed.
Lemma sched_get_cpu c : keeps_array_sched (get_cpu c).
Proof. intros s p s'. unfold get_cpu, deref. destruct (cpus s !! c); [by intros [= <- <-]|done]. Qed.
Lemma sched_get_thread t : keeps_array_sched (get_thread t).
Proof. intros s p s'. unfold get_thread, deref. destruct (threads s !! t); [by intros [= <- <-]|done]. Qed.
Lemma sched_modify (f : sched → sched) : (∀ s, cpu_array (f s) = cpu_array s) → keeps_array_sched (mmodify f).
Proof. intros Hf s [] s' [= <-]. apply Hf. Qed.

(** [common_init] leaves the array of CPUs alone. *)
Lemma init_cpu_array cpu i m m' : init_cpu cpu i m = Ok ((), m') → cpu_array (sch m') = cpu_array (sch m).
Proof.
  assert (keeps_array (init_cpu cpu i)) as H; [|apply H].
  unfold init_cpu, common_init, lapic_enable, lapic_write, setup_cpu_gdt. keep;
    first [apply keeps_array_await
          | apply keeps_array_on_sched; first [apply sched_get_cpu|apply sched_get_thread|by apply sched_modify]
          | destruct (_ || _); keep].
Qed.
Lemma ap_thread_array cpu thread x x' :
  ap_thread cpu thread x = Ok ((), x') → cpu_array x' = cpu_array x.
Proof.
  unfold ap_thread, mbind, M_bind. unfold get_cpu, deref. destruct (cpus x !! cpu) as [p|]; [|done].
  by intros [= <-].
Qed.

(** ** The invariant *)

Definition count_pc (pc : ap_pc) (l : list ap_pc) : Z := Z.of_nat (length (filter (λ x, x = pc) l)).

Lemma count_insert pc l i old new :
  l !! i = Some old →
  count_pc pc (<[i := new]> l) + (if decide (old = pc) then 1 else 0) =
  count_pc pc l + (if decide (new = pc) then 1 else 0).
Proof.
  intros Hi. unfold count_pc. pose proof (lookup_lt_Some _ _ _ Hi).
  rewrite <-(take_drop_middle l i old Hi) at 2. rewrite insert_take_drop by done.
  rewrite !filter_app, !filter_cons, !length_app. repeat case_decide; simpl; lia.
Qed.

(** Where the boot processor is in its list: the others from there on have not been
    started. *)
Definition bsp_at (b : bsp_pc) : nat :=
  match b with BspLoop i => i | BspAlloc i => i | BspDone => length ids end.

Record smp_ok (s : smp) : Prop := {
  sk_len : length (sm_aps s) = length ids;
  sk_args : length (extra_argument s) = length ids;
  sk_array : (length ids ≤ length (cpu_array (sch (sm_mach s))))%nat;
  sk_up : cpus_up s = count_pc ApUp (sm_aps s);
  sk_lock : count_pc ApAlloc (sm_aps s) = if early_lock s then 1 else 0;
  sk_bsp : (bsp_at (sm_bsp s) ≤ length ids)%nat;
  sk_off j pc : sm_aps s !! j = Some pc → (j < bsp_at (sm_bsp s))%nat ↔ pc ≠ ApOff;
  sk_cpus j : (j < bsp_at (sm_bsp s))%nat → cpu_array (sch (sm_mach s)) !! j = extra_argument s !! j;
  sk_alloc i : sm_bsp s = BspAlloc i → (i < length ids)%nat;
  sk_done : sm_bsp s = BspDone → cpus_up s = Z.of_nat (length ids);
}.

Lemma count_none pc l : pc ∉ l → count_pc pc l = 0.
Proof.
  intros H. unfold count_pc. induction l as [|x l IH]; [done|].
  apply not_elem_of_cons in H as [Hx Hl]. rewrite filter_cons_False by congruence. by apply IH.
Qed.
Lemma count_all pc l x : count_pc pc l = Z.of_nat (length l) → x ∈ l → x = pc.
Proof.
  intros E Hx. destruct (decide (x = pc)) as [|Hne]; [done|]. exfalso.
  apply list_elem_of_split in Hx as (l1 & l2 & ->). unfold count_pc in E.
  rewrite filter_app, filter_cons_False, !length_app in E by done. simpl in E.
  pose proof (length_filter (λ y, y = pc) l1). pose proof (length_filter (λ y, y = pc) l2). lia.
Qed.

Lemma smp_start_ok array h m : (length ids ≤ length array)%nat → smp_ok (smp_start array h m).
Proof.
  intros Hl. split; simpl; rewrite ?length_replicate; try done; try lia.
  - symmetry. apply count_none. by intros [? _]%elem_of_replicate.
  - apply count_none. by intros [? _]%elem_of_replicate.
  - intros j pc [-> _]%lookup_replicate. split; [lia|done].
Qed.

(** One more processor is set: the boot processor's turn of the loop. *)
Lemma off_next (l : list ap_pc) i new j pc :
  (∀ j pc, l !! j = Some pc → (j < i)%nat ↔ pc ≠ ApOff) → (i < length l)%nat → new ≠ ApOff →
  <[i := new]> l !! j = Some pc → (j < S i)%nat ↔ pc ≠ ApOff.
Proof.
  intros H Hi Hn. destruct (decide (j = i)) as [->|Hne].
  - rewrite list_lookup_insert_eq by done. intros [= <-]. split; [done|lia].
  - rewrite list_lookup_insert_ne by done. intros Hj. rewrite <-(H j pc Hj). lia.
Qed.
Lemma off_same (l : list ap_pc) n i old new j pc :
  (∀ j pc, l !! j = Some pc → (j < n)%nat ↔ pc ≠ ApOff) → l !! i = Some old → old ≠ ApOff → new ≠ ApOff →
  <[i := new]> l !! j = Some pc → (j < n)%nat ↔ pc ≠ ApOff.
Proof.
  intros H Hi Ho Hn. destruct (decide (j = i)) as [->|Hne].
  - rewrite list_lookup_insert_eq by by eapply lookup_lt_Some. intros [= <-].
    split; [done|]. intros _. by apply (H i old).
  - rewrite list_lookup_insert_ne by done. apply H.
Qed.
Lemma off_here (l : list ap_pc) i : (∀ j pc, l !! j = Some pc → (j < i)%nat ↔ pc ≠ ApOff) → (i < length l)%nat → l !! i = Some ApOff.
Proof.
  intros H [pc Hi]%lookup_lt_is_Some_2. destruct (decide (pc = ApOff)) as [->|Hn]; [done|].
  apply (H i pc Hi) in Hn. lia.
Qed.

Lemma arrays_next (l1 l2 : list Z) i x j :
  (∀ j, (j < i)%nat → l1 !! j = l2 !! j) → (i < length l1)%nat → (i < length l2)%nat → (j < S i)%nat →
  <[i := x]> l1 !! j = <[i := x]> l2 !! j.
Proof.
  intros H H1 H2 Hj. destruct (decide (j = i)) as [->|Hne].
  - by rewrite !list_lookup_insert_eq.
  - rewrite !list_lookup_insert_ne by done. apply H. lia.
Qed.

Lemma smp_step_ok s s' : smp_ok s → smp_step s s' → smp_ok s'.
Proof.
  intros Hok Hstep. revert Hok. destruct Hstep as [h m m' up i aps args Hi Hr|h m l up i id aps args Hi Hne|h h' m l up i cpu aps args Ha|h m l up aps args Hu
    |h m up b i aps args Hi|h h' m x up b i cpu thread aps args Hi Hc Ha Ht|h m m' up b i cpu aps args Hi Hc Hr];
    intros [Hlen Harg Harr Hup Hlk Hbsp Hoff Hcpu Hal Hdone]; simpl in *.
  - apply lookup_lt_Some in Hi. assert (aps !! i = Some ApOff) as Hio by (apply off_here; [exact Hoff|lia]).
    pose proof (count_insert ApUp aps i ApOff ApUp Hio) as C1. pose proof (count_insert ApAlloc aps i ApOff ApUp Hio) as C2.
    repeat case_decide; try done. apply init_cpu_array in Hr. simpl in Hr.
    split; simpl; rewrite ?length_insert; try lia; try done.
    + rewrite Hr, length_insert. lia.
    + intros j pc. apply off_next; [done|lia|done].
    + intros j Hj. rewrite Hr. apply arrays_next; [done|lia..].
  - apply lookup_lt_Some in Hi. split; simpl; try done. by intros ? [= <-].
  - specialize (Hal i eq_refl). assert (aps !! i = Some ApOff) as Hio by (apply off_here; [exact Hoff|lia]).
    pose proof (count_insert ApUp aps i ApOff ApEntry Hio) as C1.
    pose proof (count_insert ApAlloc aps i ApOff ApEntry Hio) as C2. repeat case_decide; try done.
    split; simpl; rewrite ?length_insert; try lia; try done.
    + intros j pc. apply off_next; [done|lia|done].
    + intros j Hj. apply arrays_next; [done|lia..].
  - by split.
  - pose proof (count_insert ApUp aps i ApEntry ApAlloc Hi) as C1.
    pose proof (count_insert ApAlloc aps i ApEntry ApAlloc Hi) as C2. repeat case_decide; try done.
    split; simpl; rewrite ?length_insert; try lia; try done. intros j pc. by apply (off_same _ _ _ ApEntry).
  - pose proof (count_insert ApUp aps i ApAlloc ApReady Hi) as C1.
    pose proof (count_insert ApAlloc aps i ApAlloc ApReady Hi) as C2. repeat case_decide; try done.
    apply ap_thread_array in Ht.
    split; simpl; rewrite ?length_insert, ?Ht; try lia; try done. intros j pc. by apply (off_same _ _ _ ApAlloc).
  - pose proof (count_insert ApUp aps i ApReady ApUp Hi) as C1.
    pose proof (count_insert ApAlloc aps i ApReady ApUp Hi) as C2. repeat case_decide; try done.
    apply init_cpu_array in Hr.
    split; simpl; rewrite ?length_insert, ?Hr; try lia; try done.
    + intros j pc. by apply (off_same _ _ _ ApReady).
    + intros ->. exfalso. specialize (Hdone eq_refl).
      assert (ApReady = ApUp); [|done]. apply (count_all ApUp aps); [lia|by eapply list_elem_of_lookup_2].
Qed.
Lemma count_two pc l i j : l !! i = Some pc → l !! j = Some pc → i ≠ j → 2 ≤ count_pc pc l.
Proof.
  revert l i j. assert (∀ l i j, (i < j)%nat → l !! i = Some pc → l !! j = Some pc → 2 ≤ count_pc pc l) as H.
  { intros l i j Hlt Hi Hj. unfold count_pc. rewrite <-(take_drop_middle l i pc Hi).
    assert (pc ∈ drop (S i) l) as Hin.
    { apply list_elem_of_lookup. exists (j - S i)%nat. rewrite lookup_drop. rewrite <-Hj. f_equal. lia. }
    rewrite filter_app, filter_cons_True, length_app by done. simpl.
    assert (pc ∈ filter (λ x, x = pc) (drop (S i) l)) as Hf by by apply list_elem_of_filter.
    destruct (filter _ (drop (S i) l)); [by apply elem_of_nil in Hf|]. simpl. lia. }
  intros l i j Hi Hj Hne. destruct (decide (i < j)%nat); [by apply (H l i j)|]. apply (H l j i); [lia|done..].
Qed.

Lemma smp_reach_ok s s' : smp_reach s s' → smp_ok s → smp_ok s'.
Proof. induction 1 as [|s s1 s' Hstep _ IH]; [done|]. intros Hok. by apply IH, (smp_step_ok s). Qed.

(** C18: When [smp_init] returns, every processor of the boot loader's list is in its
    idle loop, and entry [i] of [cpus] is what processor [i] was given, however the
    processors are interleaved; and no two of those that start are inside [kmem_alloc] at
    the same time. *)
Theorem smp_init_all_up array h m s :
  (length ids ≤ length array)%nat → smp_reach (smp_start array h m) s →
  (∀ i j, sm_aps s !! i = Some ApAlloc → sm_aps s !! j = Some ApAlloc → i = j) ∧
  (sm_bsp s = BspDone → ∀ i, (i < length ids)%nat → sm_aps s !! i = Some ApUp ∧
     ∃ cpu, extra_argument s !! i = Some cpu ∧ cpu_array (sch (sm_mach s)) !! i = Some cpu).
Proof.
  intros Hl Hr. pose proof (smp_reach_ok _ _ Hr (smp_start_ok array h m Hl)) as [L A _ U K' _ _ C _ D]. split.
  - intros i j Hi Hj. destruct (decide (i = j)) as [|Hne]; [done|]. exfalso.
    pose proof (count_two _ _ _ _ Hi Hj Hne). destruct (early_lock s); lia.
  - intros E i Hi. split.
    + destruct (lookup_lt_is_Some_2 (sm_aps s) i) as [pc Hpc]; [lia|]. rewrite Hpc. f_equal.
      apply (count_all ApUp (sm_aps s)); [rewrite <-U, D by done; lia|by eapply list_elem_of_lookup_2].
    + destruct (lookup_lt_is_Some_2 (extra_argument s) i) as [cpu Hc]; [lia|]. exists cpu. split; [done|].
      rewrite C; [done|]. by rewrite E.
Qed.

(** The boot processor's own calls of [kmem_alloc] are not under [early_lock]:
    while it allocates for processor [i], with another to come after it that does
    not boot, there is an interleaving in which it is inside [kmem_alloc] for the next one while
    processor [i] is inside [kmem_alloc] too. *)
Theorem smp_alloc_race array h0 m0 s i id cpu h :
  (length ids ≤ length array)%nat → smp_reach (smp_start array h0 m0) s → sm_bsp s = BspAlloc i → early_lock s = false →
  ids !! S i = Some id → id ≠ bsp_lapic_id → heap_alloc sizeof_cpu (sm_heap s) = Ok (cpu, h) →
  ∃ s', smp_reach s s' ∧ sm_bsp s' = BspAlloc (S i) ∧ sm_aps s' !! i = Some ApAlloc.
Proof.
  intros Hn Hr Hb Hl Hid Hne Ha. pose proof (smp_reach_ok _ _ Hr (smp_start_ok array h0 m0 Hn)) as Hok.
  clear Hr. destruct s as [hs m l up b aps args]. simpl in *. subst b l.
  pose proof (sk_alloc _ Hok i eq_refl) as Hi. pose proof (sk_len _ Hok) as Hlen. simpl in Hlen.
  eexists. split; [|split].
  - eapply rtc_l; [by apply bsp_start|]. eapply rtc_l; [by eapply bsp_enter|].
    eapply rtc_l; [|apply rtc_refl]. apply (ap_lock _ _ _ _ i). apply list_lookup_insert_eq. lia.
  - done.
  - simpl. apply list_lookup_insert_eq. rewrite length_insert. lia.
Qed.
End smp.
Arguments smp K : clear implicits.

(** ** Small machines *)

Definition smp_sched : sched :=
  Sched {[ 10 := mk_thread 1 kThreadRunning false ]} {[ 1 := mk_cpu 10 10 [] ]} [] 0 false ∅ ∅ [].
(** The APIC answers with small counts, the interval timer that it is done. *)
Definition smp_machine : machine :=
  Machine smp_sched (λ _, IdtEntry 0 0 0 0 0 0 0) (λ _, IntrEntry 0 0 0) (TssEntry 0 0 0 0 0 0 0 0) 0 0
    0xfee00000 [] [128; 128; 128] [0; 1000; 1000; 1000].
Definition smp_heap : counter_heap := CounterHeap 4096 [] (VState ∅ [] 0, empty_pages (λ _, 0)).

Lemma smp_init_all_up_witness :
  ∃ s, smp_reach [7] 7 1 5 100 0 200 300 (mk_cpu 0 0 []) (mk_thread 0 kThreadRunnable true)
      (smp_start [7] [0] smp_heap smp_machine) s ∧
    sm_bsp s = BspDone ∧ sm_aps s !! 0%nat = Some ApUp.
Proof.
  assert (∃ m', init_cpu 5 100 0 1 0 (set_sch (put_cpu 0 1 (sch (sm_mach (smp_start [7] [0] smp_heap smp_machine))))
    (sm_mach (smp_start [7] [0] smp_heap smp_machine))) = Ok ((), m')) as [m' Hrun].
  { eexists. vm_compute. reflexivity. }
  assert (∃ s, smp_reach [7] 7 1 5 100 0 200 300 (mk_cpu 0 0 []) (mk_thread 0 kThreadRunnable true)
      (smp_start [7] [0] smp_heap smp_machine) s ∧ sm_bsp s = BspDone) as (s & Hr & Hd).
  { eexists. split; [|shelve]. eapply rtc_l; [by eapply bsp_self|].
    eapply rtc_l; [|apply rtc_refl]. by apply (bsp_wait [7]). Unshelve. done. }
  exists s. split; [exact Hr|]. split; [exact Hd|].
  destruct (smp_init_all_up [7] 7 1 5 100 0 200 300 (mk_cpu 0 0 []) (mk_thread 0 kThreadRunnable true) [0]
    smp_heap smp_machine s ltac:(simpl; lia) Hr) as [_ H].
  apply (H Hd 0%nat). simpl. lia.
Defined.

Lemma smp_alloc_race_witness :
  let start := smp_start [1; 2; 0] [0; 0; 0] smp_heap smp_machine in
  let reach := smp_reach [1; 2; 0] 0 1 5 100 0 200 300 (mk_cpu 0 0 []) (mk_thread 0 kThreadRunnable true) in
  ∃ s, reach start s ∧ sm_bsp s = BspAlloc 1 ∧ sm_aps s !! 0%nat = Some ApAlloc.
Proof.
  set (start := smp_start [1; 2; 0] [0; 0; 0] smp_heap smp_machine).
  assert (smp_reach [1; 2; 0] 0 1 5 100 0 200 300 (mk_cpu 0 0 []) (mk_thread 0 kThreadRunnable true) start
    (Smp (sm_heap start) (sm_mach start) false 0 (BspAlloc 0) (sm_aps start) (extra_argument start))) as Hr.
  { eapply rtc_l; [|apply rtc_refl]. by eapply bsp_enter. }
  destruct (smp_alloc_race [1; 2; 0] 0 1 5 100 0 200 300 (mk_cpu 0 0 []) (mk_thread 0 kThreadRunnable true)
    [0; 0; 0] smp_heap smp_machine _ 0 2 4096 (CounterHeap 4097 [(4096, 200)] (VState ∅ [] 0, empty_pages (λ _, 0)))
    ltac:(simpl; lia) Hr eq_refl eq_refl eq_refl ltac:(done) eq_refl) as (s & H1 & H2 & H3).
  exists s. split; [unfold smp_reach in *; by etrans|]. split; [exact H2|exact H3].
Defined.
