(* ===== verification/Boot.v ===== *)
(** * Start-up as a whole: [_start] of x86_64/kmain.c

    The components are set up one after the other, each on what the one before
    leaves: from the memory map and the page tables of the boot loader to a kernel
    whose [kmem_alloc] serves requests, all the way down to page frames. *)

From S2P Require Import Prelude Vmem VmemInv VmemProps VmPage Pmap PmapProps PmapKernel PageAlloc.
From S2P Require Import VmKernel VmKernelProps KernelMem Kmem KmemProps KmemHeap Sched Intr Kmain.
Open Scope Z_scope.

(** ** Memory *)

Section memory.
Context (kpml4 : Z).
#[local] Instance boot_page_alloc : PageAlloc kstate := kernel_pages kpml4.

(** [mem_init(); vm_kernel_init(); kmem_init();] *)
Definition start_memory (hhdm_offset virtual_base : Z) (entries : list memmap_entry) (static_segs : Z)
    : M (kmem kstate) unit :=
  on_pa (on_pages (mem_init hhdm_offset virtual_base entries kpml4));;
  on_pa (vm_kernel_init static_segs);;
  kmem_init.

(** The page tables of the boot loader are a tree outside the memory it reports as
    usable, and map the kernel. *)
Record boot_tables_ok (l : list memmap_entry) (m : mem) : Prop := {
  bt_table p t : path_ok p → table_at m kpml4 p = Some t → page_addr t ∧
    ∀ e, e ∈ l → usable e = true → t + PGSIZE ≤ mm_base e ∨ mm_base e + mm_length e ≤ t;
  bt_inj p q t : path_ok p → path_ok q → table_at m kpml4 p = Some t → table_at m kpml4 q = Some t → p = q;
  bt_clean i : 255 ≤ i < 511 → clean m kpml4 i;
  bt_kernel : is_Some (next_table m kpml4 511);
}.

Definition usable_pages (l : list memmap_entry) : list Z := regions_of l ≫= free_pages.

Lemma scanned_tables l m s :
  memmap_ok l → boot_tables_ok l m → queues_ok s → phys s = m → pq_list (queues s pgfreeq) = usable_pages l →
  (∀ x, on_queue s pgfreeq x → page_addr x) → pt_ok kpml4 s.
Proof.
  intros Hok Hb Hq Hm Hf Ha. split; rewrite ?Hm; [done|done| |apply Hb].
  intros p t Hp Ht. destruct (bt_table _ _ Hb p t Hp Ht) as [Hta Hout]. split; [done|].
  unfold on_queue. rewrite Hf. intros (e & Hin & [Hl Hu]%elem_of_regions)%list_elem_of_bind.
  pose proof (page_in e t (mm_entries _ Hok e Hl Hu) (or_introl Hin)). pose proof (Hout e Hl Hu).
  unfold PGSIZE in *. lia.
Qed.

Lemma mem_init_run l m :
  memmap_ok l → boot_tables_ok l m → (256 ≤ length (usable_pages l))%nat →
  ∃ s, mem_init 0xffff800000000000 0xffffffff80000000 l kpml4 (empty_pages m) = Ok ((), s) ∧
    pt_ok kpml4 s ∧ free_known s ∧ half_ready (phys s) kpml4 ∧
    (∀ w, translate (phys s) kpml4 w = translate m kpml4 w) ∧
    (length (usable_pages l) ≤ 256 + length (pq_list (queues s pgfreeq)))%nat.
Proof.
  intros Hok Hb Hn. destruct (scan_memmap_run l m Hok) as (s & Hrun & Hq & Hm & Hf & Hx & _).
  assert (pt_ok kpml4 s) as Hpt by (eapply scanned_tables; try done; by apply Hx).
  destruct (x64_vm_init_run kpml4 s Hpt) as (s' & Hrun' & [Hok' K Hl _ Htr] & Hr).
  { rewrite Hm. apply (bt_clean _ _ Hb). } { rewrite Hm. apply (bt_kernel _ _ Hb). } { by rewrite Hf. }
  exists s'. split_and!; [|done| |done| |by rewrite Hf in Hl].
  - unfold mem_init. simpl. by rewrite (bind_step _ _ _ _ _ Hrun).
  - eapply free_known_keeps; [exact K|]. intros x Hin. apply Hx, Hin.
  - intros w. by rewrite Htr, Hm.
Qed.

Lemma kmem_alloc_first size st :
  small_ok st → (∀ z q, ¬ allocated_obj st z q) → pa_ready 1 kVMKSleep (pages st) → 0 < size ≤ 256 →
  (∀ i, 0 ≤ i < 16 → ∃ Zn, small_zone st (kmem_alloc_zone i) Zn) →
  ∃ p st', kmem_alloc size st = Ok (p, st') ∧ small_ok st' ∧
    ∀ z q, allocated_obj st' z q ↔ z = kmem_alloc_zone (zonenum size) ∧ q = p.
Proof.
  intros Hok Hno Hr Hs Hz. destruct (zonenum_small size Hs) as [Hi _]. destruct (Hz _ Hi) as [Zn HZ].
  destruct (zonealloc_run st _ Zn Hok HZ (or_intror Hr)) as (p & st' & Hrun & Hok' & _ & Ha & _).
  exists p, st'. split_and!; [|done|].
  - unfold kmem_alloc. cbv zeta. rewrite (proj2 (Z.ltb_lt 0 size)), massert_bind by lia.
    by rewrite (proj2 (Z.eqb_neq _ _)) by lia.
  - intros z q. rewrite Ha. split; [intros [H|H]; [by destruct (Hno z q)|done]|by right].
Qed.
Lemma init_small_zone bm (p : kstate) i : 0 ≤ i < 16 → ∃ Zn, small_zone (init_state bm p) (kmem_alloc_zone i) Zn.
Proof.
  intros Hi. pose proof init_zones_sizes as H. rewrite Forall_forall in H.
  specialize (H i ltac:(apply elem_of_seqZ; lia)).
  destruct (init_zones !! kmem_alloc_zone i) as [Zn|] eqn:E.
  - exists Zn. split; [done|]. pose proof (small_sizes_table i Hi) as Hs.
    rewrite list_lookup_total_alt in Hs. rewrite <-H in Hs. exact Hs.
  - assert (i ∈ seqZ 0 32) as Hin by (apply elem_of_seqZ; lia).
    destruct (lookup_lt_is_Some_2 ZONE_SIZES (Z.to_nat i)) as [x Hx]; [change (length ZONE_SIZES) with 32%nat; lia|].
    by rewrite Hx in H.
Qed.

Lemma start_memory_run l m bm static_segs :
  memmap_ok l → boot_tables_ok l m → (264 ≤ length (usable_pages l))%nat →
  (∀ t, static_segs ≤ t < static_segs + 56 * 128 → ¬ in_heap t) →
  ∃ st a b, start_memory 0xffff800000000000 0xffffffff80000000 l static_segs
      (start_state bm (VState ∅ [] 0, empty_pages m)) = Ok ((), st) ∧
    kernel_ok kpml4 (pages st) a b ∧ small_ok st ∧ half_ready (phys (pages st).2) kpml4 ∧
    live a = [] ∧ live b = [] ∧ (∀ z q, ¬ allocated_obj st z q) ∧
    (∀ w, pmap_trans kpml4 w (pages st).2 = Ok (translate m kpml4 w, (pages st).2)) ∧
    ∀ size, 0 < size ≤ 256 → ∃ p st', kmem_alloc size st = Ok (p, st') ∧ small_ok st' ∧
      ∀ z q, allocated_obj st' z q ↔ z = kmem_alloc_zone (zonenum size) ∧ q = p.
Proof.
  intros Hok Hb Hn Hst. destruct (mem_init_run l m Hok Hb ltac:(lia)) as (ps & Hrun & Hpt & Hfk & Hh & Htr & Hl).
  destruct (vm_kernel_init_inv kpml4 static_segs ps Hpt Hfk Hst)
    as (vs & a & b & Hrun2 & Ho & Hlb & Hla & _ & Hready).
  assert (small_ok (init_state bm (vs, ps))) as Hs by (apply init_state_ok; by exists a, b).
  assert (∀ z q, ¬ allocated_obj (init_state bm (vs, ps)) z q) as Hno.
  { intros z q (Zn & h & s & Hz & Hin & _). apply init_zone in Hz as [_ Hz]. rewrite Hz in Hin.
    by apply elem_of_nil in Hin. }
  exists (init_state bm (vs, ps)), a, b. split_and!; try done.
  - unfold start_memory.
    rewrite (bind_step _ _ _ _ _ (on_pa_ok _ (start_state bm (VState ∅ [] 0, empty_pages m)) _ _
      (on_pages_run _ (VState ∅ [] 0) _ _ _ Hrun))).
    rewrite (bind_step _ _ _ () (start_state bm (vs, ps))) by by apply (on_pa_ok _ (start_state bm (VState ∅ [] 0, ps))).
    apply kmem_init_run.
  - intros w. simpl. by rewrite trans_run, Htr.
  - intros size Hsz. apply kmem_alloc_first; try done.
    + exists a. split; [apply (ko_kmap _ _ _ _ Ho)|]. right. apply (Hready 1 kVMKSleep); [lia|simpl; lia].
    + intros i. apply init_small_zone.
Qed.
End memory.

(** ** The entry point *)

(** The state of the machine and the memory the kernel manages. *)
Record boot := BootState { bt_machine : machine; bt_kmem : kmem kstate }.
Definition on_machine {A} (f : M machine A) : M boot A := λ s,
  match f (bt_machine s) with
  | Ok (a, x) => Ok (a, BootState x (bt_kmem s))
  | Fatal w => Fatal w
  | Undef w => Undef w
  end.
Definition on_kmem {A} (f : M (kmem kstate) A) : M boot A := λ s,
  match f (bt_kmem s) with
  | Ok (a, x) => Ok (a, BootState (bt_machine s) x)
  | Fatal w => Fatal w
  | Undef w => Undef w
  end.

Section start.
Context (kpml4 : Z) (isr_thunk : Z → Z) (pagefault_interrupt callout_interrupt sched_timeslice : Z).

(** [_start] up to [smp_init]; [terminals] is what the boot loader answers. *)
Definition start_early (terminals : option Z) (hhdm_offset virtual_base : Z) (entries : list memmap_entry)
    (static_segs : Z) : M boot unit :=
  on_machine serial_init;;
  if (match terminals with None => true | Some n => n <? 1 end) then fatal "done" else
  on_machine (idt_init isr_thunk pagefault_interrupt callout_interrupt sched_timeslice);;
  on_kmem (start_memory kpml4 hhdm_offset virtual_base entries static_segs).

Lemma mfor_modify {S A} (f : A → S → S) l s :
  mfor l (λ x, mmodify (f x)) s = Ok ((), foldl (λ s x, f x s) s l).
Proof.
  revert s. induction l as [|x l IH]; intros s; [done|]. simpl.
  rewrite (bind_step _ _ _ _ _ (mmodify_ok _ _)). apply IH.
Qed.

(** [idt_init] returns; the three interrupts the kernel itself handles have their
    handlers. *)
Lemma idt_init_run mc :
  ∃ mc', idt_init isr_thunk pagefault_interrupt callout_interrupt sched_timeslice mc = Ok ((), mc') ∧
    handler (md_intrs mc' 14) = pagefault_interrupt ∧
    handler (md_intrs mc' kIntNumLAPICTimer) = callout_interrupt ∧
    handler (md_intrs mc' kIntNumReschedule) = sched_timeslice.
Proof.
  eexists. split; [|split; [|split]].
  - unfold idt_init, idt_set, md_intr_register. rewrite (bind_step _ _ _ _ _ (mfor_modify _ _ _)).
    rewrite (bind_step _ _ _ _ _ (mfor_modify _ _ _)). reflexivity.
  - done.
  - done.
  - done.
Qed.
#[local] Instance start_page_alloc : PageAlloc kstate := kernel_pages kpml4.

(** C17: Start-up makes a kernel that can allocate.  From any sound memory map,
    whose usable regions have at most 2^19 pages each ([entry_ok]), and any page tables of the boot loader that lie outside it and map the kernel,
    with 264 usable pages or more and a terminal, [_start] gets as far as [smp_init]: the
    interrupts the kernel handles itself have their handlers; no translation of
    the boot loader's is changed; the arenas, the page tables and the zones are
    sound and nothing is allocated; and the first [kmem_alloc], of any size up to
    256 bytes, gets its object: it makes a slab of a page of [vm_kalloc],
    which refills the tag pool, imports the range from the kernel map and backs it
    with page frames. *)
Theorem start_correct l m bm mc n static_segs :
  memmap_ok l → boot_tables_ok kpml4 l m → (264 ≤ length (usable_pages l))%nat → 1 ≤ n →
  (∀ t, static_segs ≤ t < static_segs + 56 * 128 → ¬ in_heap t) →
  ∃ st a b, start_early (Some n) 0xffff800000000000 0xffffffff80000000 l static_segs
      (BootState mc (start_state bm (VState ∅ [] 0, empty_pages m))) = Ok ((), st) ∧
    let k := bt_kmem st in
    handler (md_intrs (bt_machine st) 14) = pagefault_interrupt ∧
    handler (md_intrs (bt_machine st) kIntNumLAPICTimer) = callout_interrupt ∧
    handler (md_intrs (bt_machine st) kIntNumReschedule) = sched_timeslice ∧
    kernel_ok kpml4 (pages k) a b ∧ small_ok k ∧ half_ready (phys (pages k).2) kpml4 ∧
    live a = [] ∧ live b = [] ∧ (∀ z q, ¬ allocated_obj k z q) ∧
    (∀ w, pmap_trans kpml4 w (pages k).2 = Ok (translate m kpml4 w, (pages k).2)) ∧
    ∀ size, 0 < size ≤ 256 → ∃ p k', kmem_alloc size k = Ok (p, k') ∧ small_ok k' ∧
      ∀ z q, allocated_obj k' z q ↔ z = kmem_alloc_zone (zonenum size) ∧ q = p.
Proof.
  intros Hok Hb Hn Ht Hst. destruct (start_memory_run kpml4 l m bm static_segs Hok Hb Hn Hst)
    as (k & a & b & Hrun & Hrest).
  assert (∃ mc1, serial_init mc = Ok ((), mc1)) as [mc1 H1] by (eexists; reflexivity).
  destruct (idt_init_run mc1) as (mc2 & H2 & F1 & F2 & F3).
  exists (BootState mc2 k), a, b. split; [|cbv zeta; cbn [bt_machine bt_kmem]; tauto].
  unfold start_early. rewrite (proj2 (Z.ltb_ge n 1)) by lia.
  rewrite (bind_step _ _ _ () (BootState mc1 (start_state bm (VState ∅ [] 0, empty_pages m)))) by (unfold on_machine; cbn [bt_machine]; by rewrite H1).
  rewrite (bind_step _ _ _ () (BootState mc2 (start_state bm (VState ∅ [] 0, empty_pages m)))) by (unfold on_machine; cbn [bt_machine]; by rewrite H2).
  unfold on_kmem. cbn [bt_kmem]. by rewrite Hrun.
Qed.
End start.

(** ** At two megabytes of memory *)

Definition boot_memmap : list memmap_entry := [MemmapEntry 0x100000 0x2000 5; MemmapEntry 0x200000 0x200000 0].

Lemma boot_memmap_ok : memmap_ok boot_memmap.
Proof.
  split.
  - intros e [->|[->|[]%elem_of_nil]%elem_of_cons]%elem_of_cons Hu; [done|]. split_and!; vm_compute; done.
  - intros [|[|i]] [|[|j]] e1 e2 H1 H2 Hne Hu1 Hu2; simpl in *; simplify_eq; done.
Qed.

Lemma boot_memmap_tables : boot_tables_ok 0x100000 boot_memmap boot_mem.
Proof.
  split.
  - intros p t Hp Ht. destruct boot_pages as [A B]. 
    assert (page_addr t ∧ t ≤ 0x101000) as [? ?] by (by destruct (boot_tables p t Hp Ht) as [[_ ->]|[_ ->]]; split).
    split; [done|]. intros e [->|[->|[]%elem_of_nil]%elem_of_cons]%elem_of_cons Hu; [done|].
    left. unfold PGSIZE. simpl. lia.
  - apply boot_state_ok.
  - intros i Hi. left. by rewrite boot_entry; [|apply boot_pages|unfold idx_ok; lia|intros [= ->]; lia].
  - by rewrite boot_next.
Qed.

Lemma start_correct_witness :
  ∃ mc st p k', start_early 0x100000 (λ v, 0x1000 + v) 1 2 3 (Some 1) 0xffff800000000000 0xffffffff80000000
      boot_memmap 0x10000 (BootState mc (start_state (λ _, 0) (VState ∅ [] 0, empty_pages boot_mem))) = Ok ((), st) ∧
    kmem_alloc (PageAlloc0 := kernel_pages 0x100000) 100 (bt_kmem st) = Ok (p, k').
Proof.
  exists (Machine (Sched ∅ ∅ [] 0 false ∅ ∅ []) (λ _, IdtEntry 0 0 0 0 0 0 0) (λ _, IntrEntry 0 0 0)
    (TssEntry 0 0 0 0 0 0 0 0) 0 0 0 [] [] []).
  destruct (start_correct 0x100000 (λ v, 0x1000 + v) 1 2 3 boot_memmap boot_mem (λ _, 0)
    (Machine (Sched ∅ ∅ [] 0 false ∅ ∅ []) (λ _, IdtEntry 0 0 0 0 0 0 0) (λ _, IntrEntry 0 0 0)
      (TssEntry 0 0 0 0 0 0 0 0) 0 0 0 [] [] []) 1 0x10000 boot_memmap_ok boot_memmap_tables)
    as (st & a & b & H1 & _ & _ & _ & _ & _ & _ & _ & _ & _ & _ & H2).
  - by apply Nat.leb_le.
  - lia.
  - intros t Ht. unfold in_heap, KHEAP_BASE. lia.
  - destruct (H2 100 ltac:(lia)) as (p & k' & H3 & _). exists st, p, k'. split; [exact H1|exact H3].
Defined.
