(* ===== verification/Exec.v ===== *)
(** * Program loading: posix/exec.c

    [copyargs] builds the initial stack of a program: its strings, the auxiliary
    vector, the vectors of pointers and the count of arguments.  Memory is one
    byte function for the kernel's strings and the new stack, which is mapped
    while it runs.  The tags of the auxiliary vector come from a header of the C
    library and are arguments. *)

From S2P Require Import Prelude VmPage Klib.
Open Scope Z_scope.

(** [exec_package_t] *)
Record exec_package := ExecPackage {
  ep_map : Z; ep_stack : Z; ep_sp : Z; ep_entry : Z; ep_phaddr : Z; ep_phentsize : Z; ep_phnum : Z;
}.
Definition set_sp (sp : Z) (pkg : exec_package) : exec_package :=
  ExecPackage (ep_map pkg) (ep_stack pkg) sp (ep_entry pkg) (ep_phaddr pkg) (ep_phentsize pkg) (ep_phnum pkg).

Section copyargs.
(** Enough for the vectors and the strings. *)
Context (fuel : nat).
Context (AT_ENTRY AT_PHDR AT_PHENT AT_PHNUM : Z).

Definition str_size (str : Z) : M mem Z :=
  m ← mget;
  len ← deref (strlen fuel m str) "strlen";
  mret (len + 1).

(** [for (const char **env = envp; *env; env++, nenv++)] *)
Fixpoint copy_strings (n : nat) (vec stackp count : Z) : M mem (Z * Z) :=
  match n with
  | O => undef "no NULL"
  | S n' =>
      m ← mget;
      let str := read64 m vec in
      if str =? 0 then mret (stackp, count) else
      size ← str_size str;
      let stackp := w64 (stackp - size) in
      r ← deref (strcpy fuel stackp str m) "strcpy";
      mput r.2;;
      copy_strings n' (w64 (vec + 8)) stackp (w64 (count + 1))
  end.

(** [*--stackpu64 = v] *)
Definition push (v p : Z) : M mem Z :=
  let p := w64 (p - 8) in
  mmodify (λ m, write64 m p (w64 v));;
  mret p.
Definition AUXV (tag value p : Z) : M mem Z :=
  p ← push value p;
  push tag p.

(** The turns of [for (int i = 0; i < n; i++)]: where the strings of [vec] were copied to. *)
Fixpoint point_strings (n : nat) (vec base stackp : Z) : M mem Z :=
  match n with
  | O => mret stackp
  | S n' =>
      m ← mget;
      size ← str_size (read64 m vec);
      let stackp := w64 (stackp - size) in
      mmodify (λ m, write64 m base stackp);;
      point_strings n' (w64 (vec + 8)) (w64 (base + 8)) stackp
  end.

(** [i] is an [int]: with 2^31 strings its last increment overflows. *)
Definition point_loop (n vec base stackp : Z) : M mem Z :=
  if 2^31 <=? n then undef "int i" else point_strings (Z.to_nat n) vec base stackp.

(** [align to 16 bytes], then [account for args/env]. *)
Definition vectors_top (stackp words : Z) : Z :=
  let p := w64 (stackp - Z.land stackp 0xf) in
  if negb (w64 words mod 2 =? 0) then w64 (p - 8) else p.
(** [populate the auxv] *)
Definition auxvs (pkg : exec_package) (p : Z) : M mem Z :=
  p ← AUXV 0 0 p;
  p ← AUXV AT_ENTRY (ep_entry pkg) p;
  p ← AUXV AT_PHDR (ep_phaddr pkg) p;
  p ← AUXV AT_PHENT (ep_phentsize pkg) p;
  AUXV AT_PHNUM (ep_phnum pkg) p.

Definition copyargs (pkg : exec_package) (argp envp : Z) : M mem exec_package :=
  '(stackp, nenv) ← copy_strings fuel envp (ep_stack pkg) 0;
  '(stackp, narg) ← copy_strings fuel argp stackp 0;
  p ← auxvs pkg (vectors_top stackp (narg + nenv + 3));
  p ← push 0 p;
  let p := w64 (p - 8 * nenv) in
  stackp ← point_loop nenv envp p (ep_stack pkg);
  p ← push 0 p;
  let p := w64 (p - 8 * narg) in
  point_loop narg argp p stackp;;
  p ← push narg p;
  mret (set_sp p pkg).
End copyargs.

(** ** What a program reads back *)

(** A string, and a vector of strings up to the null pointer. *)
Fixpoint read_str (fuel : nat) (m : mem) (a : Z) : option (list Z) :=
  match fuel with
  | O => None
  | S n => if m a =? 0 then Some [] else cons (m a) <$> read_str n m (a + 1)
  end.
Fixpoint read_strv (fuel n : nat) (m : mem) (p : Z) : option (list (list Z)) :=
  match n with
  | O => None
  | S n' =>
      if read64 m p =? 0 then Some [] else
      s ← read_str fuel m (read64 m p);
      cons s <$> read_strv fuel n' m (p + 8)
  end.

Lemma read_str_run fuel m a l : cstring m a l → (length l < fuel)%nat → read_str fuel m a = Some l.
Proof.
  revert a l. induction fuel as [|fuel IH]; intros a l H Hf; [lia|]. simpl.
  destruct l as [|c l]; rewrite ?cstring_nil, ?cstring_cons in H.
  - by rewrite H.
  - destruct H as (Hc & Hn & H). rewrite Hc, (proj2 (Z.eqb_neq _ _)) by done. simpl in Hf.
    by rewrite (IH _ l) by (done || lia).
Qed.

(** ** Words and strings in memory *)

Definition words (m : mem) (p : Z) (l : list Z) : Prop :=
  ∀ k v, l !! k = Some v → read64 m (p + 8 * Z.of_nat k) = v.
Definition same_outside (lo hi : Z) (m m' : mem) : Prop := ∀ x, x < lo ∨ hi ≤ x → m' x = m x.
(** The range [p, p + n) does not meet [lo, hi). *)
Definition misses (lo hi p n : Z) : Prop := p + n ≤ lo ∨ hi ≤ p.

Lemma same_outside_trans lo hi m1 m2 m3 :
  same_outside lo hi m1 m2 → same_outside lo hi m2 m3 → same_outside lo hi m1 m3.
Proof. intros H1 H2 x Hx. by rewrite H2, H1. Qed.
Lemma same_outside_wider lo hi lo' hi' m m' :
  same_outside lo hi m m' → lo' ≤ lo → hi ≤ hi' → same_outside lo' hi' m m'.
Proof. intros H ?? x Hx. apply H. lia. Qed.
Lemma misses_sub lo hi lo' hi' p n : misses lo hi p n → lo ≤ lo' → hi' ≤ hi → misses lo' hi' p n.
Proof. unfold misses. lia. Qed.

Lemma read64_same lo hi m m' p :
  same_outside lo hi m m' → misses lo hi p 8 → read64 m' p = read64 m p.
Proof. unfold misses. intros H Hp. unfold read64. by rewrite !H by lia. Qed.
Lemma words_same lo hi m m' p l :
  same_outside lo hi m m' → misses lo hi p (8 * Z.of_nat (length l)) → words m p l → words m' p l.
Proof.
  unfold misses. intros H Hp Hw k v Hk. pose proof (lookup_lt_Some _ _ _ Hk).
  rewrite (read64_same lo hi m m') by (done || (unfold misses; lia)). by apply Hw.
Qed.
Lemma cstring_same lo hi m m' p l :
  same_outside lo hi m m' → misses lo hi p (Z.of_nat (length l) + 1) → cstring m p l → cstring m' p l.
Proof. unfold misses. intros H Hp. apply cstring_ext. intros i Hi. apply H. lia. Qed.
Lemma cstrings_same lo hi m m' ps l :
  same_outside lo hi m m' → Forall2 (λ p s, misses lo hi p (Z.of_nat (length s) + 1)) ps l →
  Forall2 (cstring m) ps l → Forall2 (cstring m') ps l.
Proof.
  intros H Hm Hs. induction Hs as [|p s ps l Hp _ IH]; [constructor|].
  apply Forall2_cons in Hm as [Hm Hr]. constructor; [by eapply cstring_same|by apply IH].
Qed.
Lemma words_cons m p v l : words m p (v :: l) ↔ read64 m p = v ∧ words m (p + 8) l.
Proof.
  split.
  - intros H. split; [rewrite <-(H 0%nat v eq_refl); f_equal; lia|]. intros k x Hk.
    rewrite <-(H (S k) x Hk). f_equal. lia.
  - intros [H1 H2] [|k] x Hk; simpl in Hk; [injection Hk as <-; rewrite <-H1; f_equal; lia|].
    rewrite <-(H2 k x Hk). f_equal. lia.
Qed.

Lemma read_strv_run fuel n m p ps l :
  words m p (ps ++ [0]) → Forall (λ x, x ≠ 0) ps → Forall2 (cstring m) ps l →
  Forall (λ s, length s < fuel)%nat l → (length l < n)%nat → read_strv fuel n m p = Some l.
Proof.
  intros Hw Hz Hs. revert n p Hw. induction Hs as [|x s ps l Hx _ IH]; intros n p Hw Hf Hn;
    (destruct n as [|n]; [simpl in *; lia|]); simpl in Hw |- *; apply words_cons in Hw as [Hp Hw]; rewrite Hp; [done|].
  apply Forall_cons in Hz as [Hx0 Hz]. apply Forall_cons in Hf as [Hs Hf].
  rewrite (proj2 (Z.eqb_neq _ _)) by done. rewrite (read_str_run fuel m x s) by done. simpl in Hn.
  simpl. by rewrite IH by (done || lia).
Qed.

(** ** The copies of the strings *)

Definition size_of (s : list Z) : Z := Z.of_nat (length s) + 1.
Fixpoint total (l : list (list Z)) : Z := match l with [] => 0 | s :: l => size_of s + total l end.
(** Where the strings go, from [top] down. *)
Fixpoint addrs (top : Z) (l : list (list Z)) : list Z :=
  match l with [] => [] | s :: l => (top - size_of s) :: addrs (top - size_of s) l end.

Lemma total_nonneg l : 0 ≤ total l.
Proof. induction l as [|s l IH]; simpl; unfold size_of; lia. Qed.
Lemma length_addrs top l : length (addrs top l) = length l.
Proof. revert top. induction l as [|s l IH]; intros top; simpl; [done|]. by rewrite IH. Qed.
Lemma addrs_inside top l :
  Forall2 (λ p s, top - total l ≤ p ∧ p + size_of s ≤ top) (addrs top l) l.
Proof.
  revert top. induction l as [|s l IH]; intros top; [constructor|]. simpl. pose proof (total_nonneg l).
  constructor; [unfold size_of; lia|]. eapply Forall2_impl; [apply IH|]. simpl.
  unfold size_of. lia.
Qed.

(** A vector of strings in memory, away from [lo, hi). *)
Record strings_at (fuel : nat) (m : mem) (vec : Z) (ps : list Z) (l : list (list Z)) (lo hi : Z) : Prop := {
  sa_vec : words m vec (ps ++ [0]);
  sa_ptrs : Forall (λ x, x ≠ 0) ps;
  sa_strs : Forall2 (cstring m) ps l;
  sa_fuel : Forall (λ s, length s < fuel)%nat l;
  sa_range : 0 ≤ vec ∧ vec + 8 * Z.of_nat (S (length l)) < 2^64;
  sa_vec_out : misses lo hi vec (8 * Z.of_nat (S (length l)));
  sa_str_out : Forall2 (λ p s, misses lo hi p (Z.of_nat (length s) + 1)) ps l;
}.

Lemma strings_at_same fuel m m' vec ps l lo hi :
  strings_at fuel m vec ps l lo hi → same_outside lo hi m m' → strings_at fuel m' vec ps l lo hi.
Proof.
  intros [H1 H2 H3 H4 H5 H6 H7] H. split; try done.
  - eapply words_same; [done| |done]. rewrite length_app, (Forall2_length _ _ _ H3). simpl.
    by rewrite Nat.add_1_r.
  - by eapply cstrings_same.
Qed.
Lemma strings_at_sub fuel m vec ps l lo hi lo' hi' :
  strings_at fuel m vec ps l lo hi → lo ≤ lo' → hi' ≤ hi → strings_at fuel m vec ps l lo' hi'.
Proof.
  intros [H1 H2 H3 H4 H5 H6 H7] ??. split; try done; [by eapply misses_sub|].
  eapply Forall2_impl; [exact H7|]. intros p s Hp. exact (misses_sub _ _ _ _ _ _ Hp ltac:(done) ltac:(done)).
Qed.
(** The vector behind its first string. *)
Lemma strings_at_tail fuel m vec p ps s l lo hi :
  strings_at fuel m vec (p :: ps) (s :: l) lo hi → strings_at fuel m (vec + 8) ps l lo hi.
Proof.
  intros [H1 H2 H3 H4 H5 H6 H7]. simpl in H1. apply words_cons in H1 as [_ H1].
  apply Forall_cons in H2 as [_ H2]. apply Forall2_cons in H3 as [_ H3].
  apply Forall_cons in H4 as [_ H4]. apply Forall2_cons in H7 as [_ H7].
  simpl in H5, H6. unfold misses in *. split; try done; unfold misses; lia.
Qed.
Lemma strings_at_nil fuel m vec ps lo hi : strings_at fuel m vec ps [] lo hi → ps = [] ∧ read64 m vec = 0.
Proof.
  intros [H1 _ H3 _ _ _ _]. apply Forall2_nil_inv_r in H3. subst ps. simpl in H1.
  by apply words_cons in H1 as [-> _].
Qed.

Section runs.
Context (fuel : nat).

Lemma str_size_run m p s : cstring m p s → (length s < fuel)%nat → str_size fuel p m = Ok (size_of s, m).
Proof.
  intros Hs Hf. unfold str_size. rewrite (bind_step mget _ m m m) by done.
  by rewrite (strlen_run fuel m p s), deref_bind.
Qed.

Lemma copy_strings_run l n vec top count ps m :
  strings_at fuel m vec ps l (top - total l) top → (length l < n)%nat →
  total l ≤ top < 2^64 → 0 ≤ count → count + Z.of_nat (length l) < 2^64 →
  ∃ m', copy_strings fuel n vec top count m = Ok ((top - total l, count + Z.of_nat (length l)), m') ∧
    same_outside (top - total l) top m m' ∧ Forall2 (cstring m') (addrs top l) l.
Proof.
  revert n vec top count ps m. induction l as [|s l IH]; intros n vec top count ps m Hs Hn Ht Hc Hcn;
    (destruct n as [|n]; [simpl in *; lia|]); cbn [copy_strings]; rewrite (bind_step mget _ m m m) by done; cbv zeta.
  - apply strings_at_nil in Hs as [-> Hz]. rewrite Hz. simpl. exists m.
    split; [by rewrite Z.sub_0_r, Z.add_0_r|]. split; [done|constructor].
  - destruct ps as [|p ps]; [by inversion Hs as [_ _ H _ _ _ _]; inversion H|].
    pose proof Hs as [H1 H2 H3 H4 H5 H6 H7]. simpl in H1. apply words_cons in H1 as [H1 _].
    apply Forall_cons in H2 as [H2 _]. apply Forall2_cons in H3 as [H3 _]. apply Forall_cons in H4 as [H4 _].
    apply Forall2_cons in H7 as [H7 _].
    pose proof (total_nonneg l). simpl total in *. simpl length in *.
    assert (0 < size_of s) by (unfold size_of; lia).
    rewrite H1, (proj2 (Z.eqb_neq p 0)) by done. rewrite (bind_step _ _ _ _ _ (str_size_run m p s H3 H4)).
    rewrite (w64_small (top - size_of s)), (w64_small (vec + 8)), (w64_small (count + 1)) by lia.
    destruct (strcpy_run fuel m (top - size_of s) p s H3 H4) as (m1 & Hcpy & Hs1 & Ho1).
    { unfold misses, size_of in *. lia. }
    rewrite Hcpy, deref_bind. cbn [snd]. rewrite (bind_step _ _ m () m1) by done.
    assert (same_outside (top - size_of s) top m m1) as F1 by (intros x Hx; apply Ho1; unfold size_of in *; lia).
    destruct (IH n (vec + 8) (top - size_of s) (count + 1) ps m1) as (m2 & Hrun & F2 & Hs2); try lia.
    { apply (strings_at_sub _ _ _ _ _ (top - (size_of s + total l)) top); [|lia..].
      apply (strings_at_same _ m); [by eapply strings_at_tail|]. eapply same_outside_wider; [exact F1|lia..]. }
    exists m2. rewrite Hrun. split; [do 3 f_equal; lia|]. split.
    + eapply same_outside_trans; (eapply same_outside_wider; [eassumption|lia..]).
    + simpl. constructor; [|done]. eapply cstring_same; [exact F2| |exact Hs1].
      unfold misses, size_of in *. lia.
Qed.

Lemma push_run v p m : 8 ≤ p < 2^64 → push v p m = Ok (p - 8, write64 m (p - 8) (w64 v)).
Proof.
  intros Hp. unfold push. cbv zeta. rewrite (w64_small (p - 8)) by lia.
  by rewrite (bind_step _ _ _ _ _ (mmodify_ok _ _)).
Qed.
Lemma write64_outside lo hi m p v : lo ≤ p → p + 8 ≤ hi → same_outside lo hi m (write64 m p v).
Proof. intros ?? x Hx. unfold write64. by rewrite in_range_false by lia. Qed.
Lemma words_push m p v l : 0 ≤ v < 2^64 → words m (p + 8) l → words (write64 m p v) p (v :: l).
Proof.
  intros Hv Hw. apply words_cons. split; [by apply read64_write64|].
  intros k x Hk. rewrite read64_write64_ne by lia. by apply Hw.
Qed.

Lemma AUXV_run tag value p m :
  16 ≤ p < 2^64 → AUXV tag value p m =
    Ok (p - 16, write64 (write64 m (p - 8) (w64 value)) (p - 16) (w64 tag)).
Proof.
  intros Hp. unfold AUXV. rewrite (bind_step _ _ _ _ _ (push_run value p m ltac:(lia))).
  rewrite push_run by lia. by replace (p - 8 - 8) with (p - 16) by lia.
Qed.

(** The pointers to the copies, in front of the words that are there. *)
Lemma point_strings_run l vec base top ps m rest :
  strings_at fuel m vec ps l base (base + 8 * Z.of_nat (length l)) →
  total l ≤ top < 2^64 → 0 ≤ base → base + 8 * Z.of_nat (length l) < 2^64 →
  words m (base + 8 * Z.of_nat (length l)) rest →
  ∃ m', point_strings fuel (length l) vec base top m = Ok (top - total l, m') ∧
    same_outside base (base + 8 * Z.of_nat (length l)) m m' ∧ words m' base (addrs top l ++ rest).
Proof.
  revert vec base top ps m. induction l as [|s l IH]; intros vec base top ps m Hs Ht Hb Hbl Hw.
  - exists m. simpl in *. rewrite Z.add_0_r in *. split; [by rewrite Z.sub_0_r|by split].
  - destruct ps as [|p ps]; [by inversion Hs as [_ _ H _ _ _ _]; inversion H|].
    pose proof Hs as [H1 H2 H3 H4 H5 H6 H7]. simpl in H1. apply words_cons in H1 as [H1 _].
    apply Forall2_cons in H3 as [H3 _]. apply Forall_cons in H4 as [H4 _].
    pose proof (total_nonneg l). simpl total in *. simpl length in *. assert (0 < size_of s) by (unfold size_of; lia).
    cbn [point_strings]. rewrite (bind_step mget _ m m m) by done. rewrite H1.
    rewrite (bind_step _ _ _ _ _ (str_size_run m p s H3 H4)). cbv zeta.
    rewrite (w64_small (top - size_of s)), (w64_small (vec + 8)), (w64_small (base + 8)) by lia.
    rewrite (bind_step _ _ _ _ _ (mmodify_ok _ _)).
    set (m1 := write64 m base (top - size_of s)).
    assert (same_outside base (base + 8 * Z.of_nat (S (length l))) m m1) as F1 by (apply write64_outside; lia).
    destruct (IH (vec + 8) (base + 8) (top - size_of s) ps m1) as (m2 & Hrun & F2 & Hw2); try lia.
    { apply (strings_at_sub _ _ _ _ _ base (base + 8 * Z.of_nat (S (length l)))); [|lia..].
      apply (strings_at_same _ m); [by eapply strings_at_tail|done]. }
    { replace (base + 8 + 8 * Z.of_nat (length l)) with (base + 8 * Z.of_nat (S (length l))) by lia.
      intros k x Hk. unfold m1. rewrite read64_write64_ne by lia. by apply Hw. }
    exists m2. rewrite Hrun. split; [do 2 f_equal; lia|]. split.
    + eapply same_outside_trans; [exact F1|]. eapply same_outside_wider; [exact F2|lia..].
    + simpl. apply words_cons. split; [|done].
      rewrite (read64_same (base + 8) (base + 8 + 8 * Z.of_nat (length l)) m1); [|done|unfold misses; lia].
      unfold m1. apply read64_write64. lia.
Qed.

Lemma push_words v p m l :
  8 ≤ p < 2^64 → 0 ≤ v < 2^64 → words m p l →
  ∃ m', push v p m = Ok (p - 8, m') ∧ same_outside (p - 8) p m m' ∧ words m' (p - 8) (v :: l).
Proof.
  intros Hp Hv Hw. exists (write64 m (p - 8) v). rewrite push_run, (w64_small v) by lia.
  split; [done|]. split; [apply write64_outside; lia|]. apply words_push; [done|].
  by replace (p - 8 + 8) with p by lia.
Qed.
Lemma AUXV_words tag value p m l :
  16 ≤ p < 2^64 → 0 ≤ tag < 2^64 → 0 ≤ value < 2^64 → words m p l →
  ∃ m', AUXV tag value p m = Ok (p - 16, m') ∧ same_outside (p - 16) p m m' ∧
    words m' (p - 16) (tag :: value :: l).
Proof.
  intros Hp Ht Hv Hw. destruct (push_words value p m l) as (m1 & Hr1 & F1 & W1); [lia|done..|].
  destruct (push_words tag (p - 8) m1 (value :: l)) as (m2 & Hr2 & F2 & W2); [lia|done..|].
  replace (p - 16) with (p - 8 - 8) by lia. exists m2. unfold AUXV. rewrite (bind_step _ _ _ _ _ Hr1).
  split; [done|]. split; [|done].
  eapply same_outside_trans; (eapply same_outside_wider; [eassumption|lia..]).
Qed.
(** One vector: its null pointer, then its pointers below it. *)
Lemma vector_words l vec ps p top m rest :
  strings_at fuel m vec ps l (p - 8 - 8 * Z.of_nat (length l)) p → total l ≤ top < 2^64 →
  8 + 8 * Z.of_nat (length l) ≤ p < 2^64 → words m p rest →
  let base := p - 8 - 8 * Z.of_nat (length l) in
  ∃ m1 m', push 0 p m = Ok (p - 8, m1) ∧ w64 (p - 8 - 8 * Z.of_nat (length l)) = base ∧
    point_strings fuel (length l) vec base top m1 = Ok (top - total l, m') ∧
    same_outside base p m m' ∧ words m' base (addrs top l ++ 0 :: rest).
Proof.
  intros Hs Ht Hp Hw base. destruct (push_words 0 p m rest) as (m1 & Hr1 & F1 & W1); [lia..|done|].
  assert (base + 8 * Z.of_nat (length l) = p - 8) as Eb by lia.
  destruct (point_strings_run l vec base top ps m1 (0 :: rest)) as (m' & Hr & F & W); try (lia || by rewrite Eb).
  { rewrite Eb. apply (strings_at_sub _ _ _ _ _ base p); [|lia..].
    apply (strings_at_same _ m); [done|]. eapply same_outside_wider; [exact F1|lia..]. }
  exists m1, m'. split_and!; try done; [apply w64_small; lia|]. rewrite Eb in F.
  eapply same_outside_trans; (eapply same_outside_wider; [eassumption|lia..]).
Qed.
End runs.

Lemma words_app m p l1 l2 : words m p (l1 ++ l2) ↔ words m p l1 ∧ words m (p + 8 * Z.of_nat (length l1)) l2.
Proof.
  revert p. induction l1 as [|v l1 IH]; intros p.
  - rewrite Z.add_0_r. split; [|by intros [_ ?]]. intros H. split; [|done]. by intros k v Hk.
  - simpl app. rewrite !words_cons, IH. simpl length.
    replace (p + 8 + 8 * Z.of_nat (length l1)) with (p + 8 * Z.of_nat (S (length l1))) by lia. tauto.
Qed.
Lemma addrs_nonzero top l : total l < top → Forall (λ x, x ≠ 0) (addrs top l).
Proof.
  revert top. induction l as [|s l IH]; intros top Ht; simpl in *; constructor.
  - pose proof (total_nonneg l). lia.
  - apply IH. lia.
Qed.
Lemma addrs_kept lo hi m m' top l :
  same_outside lo hi m m' → hi ≤ top - total l → Forall2 (cstring m) (addrs top l) l →
  Forall2 (cstring m') (addrs top l) l.
Proof.
  intros H Hl. apply (cstrings_same lo hi m m' _ _ H). eapply Forall2_impl; [apply addrs_inside|].
  intros p s Hp. unfold misses, size_of in *. lia.
Qed.

Section stack.
Context (fuel : nat) (AT_ENTRY AT_PHDR AT_PHENT AT_PHNUM : Z).

Definition auxv (pkg : exec_package) : list Z :=
  [AT_PHNUM; ep_phnum pkg; AT_PHENT; ep_phentsize pkg; AT_PHDR; ep_phaddr pkg; AT_ENTRY; ep_entry pkg; 0; 0].
Definition vector_words_of (args envs : list (list Z)) : Z := Z.of_nat (length args) + Z.of_nat (length envs) + 13.
(** Room for the strings, the alignment and the vectors. *)
Definition stack_room (args envs : list (list Z)) : Z :=
  total envs + total args + 23 + 8 * vector_words_of args envs.

Lemma auxvs_words pkg p m :
  Forall (λ v, 0 ≤ v < 2^64) (auxv pkg) → 80 ≤ p < 2^64 →
  ∃ m', auxvs AT_ENTRY AT_PHDR AT_PHENT AT_PHNUM pkg p m = Ok (p - 80, m') ∧ same_outside (p - 80) p m m' ∧ words m' (p - 80) (auxv pkg).
Proof.
  intros Hpkg Hp. repeat (apply Forall_cons in Hpkg as [? Hpkg]).
  destruct (AUXV_words 0 0 p m []) as (m1 & R1 & F1 & W1); [lia..|by intros ??|].
  destruct (AUXV_words AT_ENTRY (ep_entry pkg) (p - 16) m1 [0; 0]) as (m2 & R2 & F2 & W2); [lia|done..|].
  destruct (AUXV_words AT_PHDR (ep_phaddr pkg) (p - 32) m2 [AT_ENTRY; ep_entry pkg; 0; 0]) as (m3 & R3 & F3 & W3);
    [lia|done..|by replace (p - 32) with (p - 16 - 16) by lia|].
  destruct (AUXV_words AT_PHENT (ep_phentsize pkg) (p - 48) m3 [AT_PHDR; ep_phaddr pkg; AT_ENTRY; ep_entry pkg; 0; 0])
    as (m4 & R4 & F4 & W4); [lia|done..|by replace (p - 48) with (p - 32 - 16) by lia|].
  destruct (AUXV_words AT_PHNUM (ep_phnum pkg) (p - 64) m4
    [AT_PHENT; ep_phentsize pkg; AT_PHDR; ep_phaddr pkg; AT_ENTRY; ep_entry pkg; 0; 0])
    as (m5 & R5 & F5 & W5); [lia|done..|by replace (p - 64) with (p - 48 - 16) by lia|].
  exists m5. unfold auxvs. replace (p - 80) with (p - 64 - 16) by lia. split_and!; [| |done].
  - rewrite (bind_step _ _ _ _ _ R1), (bind_step _ _ _ _ _ R2).
    replace (p - 16 - 16) with (p - 32) by lia. rewrite (bind_step _ _ _ _ _ R3).
    replace (p - 32 - 16) with (p - 48) by lia. rewrite (bind_step _ _ _ _ _ R4).
    by replace (p - 48 - 16) with (p - 64) by lia.
  - intros x Hx. rewrite (F5 x), (F4 x), (F3 x), (F2 x), (F1 x) by lia. done.
Qed.

Lemma vectors_top_spec stackp n :
  23 ≤ stackp < 2^64 → 0 ≤ n < 2^64 - 3 →
  stackp - 23 ≤ vectors_top stackp (n + 3) ≤ stackp ∧ (vectors_top stackp (n + 3) - 8 * (n + 13)) mod 16 = 0.
Proof.
  intros Hs Hn. unfold vectors_top. change 0xf with (Z.ones 4). rewrite Z.land_ones by lia. change (2 ^ 4) with 16.
  pose proof (Z.mod_pos_bound stackp 16 ltac:(lia)). rewrite (w64_small (n + 3)), (w64_small (stackp - _)) by lia.
  pose proof (Z.div_mod stackp 16 ltac:(lia)). pose proof (Z.div_mod (n + 3) 2 ltac:(lia)).
  pose proof (Z.mod_pos_bound (n + 3) 2 ltac:(lia)).
  destruct (Z.eqb_spec ((n + 3) mod 2) 0) as [E|E]; simpl; [|rewrite w64_small by lia].
  - split; [lia|]. apply Z.mod_divide; [lia|]. exists (stackp / 16 - (n + 13) / 2).
    Z.div_mod_to_equations. lia.
  - split; [lia|]. apply Z.mod_divide; [lia|]. exists (stackp / 16 - (n + 14) / 2).
    Z.div_mod_to_equations. lia.
Qed.

(** The strings of both vectors, the environment first. *)
Lemma copied_strings args envs argp envp aps eps top lo m :
  strings_at fuel m envp eps envs lo top → strings_at fuel m argp aps args lo top →
  (length args < fuel)%nat → (length envs < fuel)%nat →
  0 ≤ lo → lo ≤ top - total envs - total args → top < 2^64 →
  ∃ m1 m2, copy_strings fuel fuel envp top 0 m = Ok ((top - total envs, Z.of_nat (length envs)), m1) ∧
    copy_strings fuel fuel argp (top - total envs) 0 m1 =
      Ok ((top - total envs - total args, Z.of_nat (length args)), m2) ∧
    same_outside (top - total envs - total args) top m m2 ∧
    Forall2 (cstring m2) (addrs top envs) envs ∧ Forall2 (cstring m2) (addrs (top - total envs) args) args.
Proof.
  intros He Ha Hna Hne Hlo Hl Ht. pose proof (total_nonneg envs). pose proof (total_nonneg args).
  pose proof (sa_range _ _ _ _ _ _ _ He). pose proof (sa_range _ _ _ _ _ _ _ Ha).
  destruct (copy_strings_run fuel envs fuel envp top 0 eps m) as (m1 & R1 & F1 & S1); try lia.
  { eapply strings_at_sub; [exact He|lia..]. }
  destruct (copy_strings_run fuel args fuel argp (top - total envs) 0 aps m1) as (m2 & R2 & F2 & S2); try lia.
  { apply (strings_at_sub _ _ _ _ _ lo top); [|lia..]. apply (strings_at_same _ m); [done|].
    eapply same_outside_wider; [exact F1|lia..]. }
  exists m1, m2. split_and!; try done.
  - intros x Hx. rewrite (F2 x), (F1 x) by lia. done.
  - eapply addrs_kept; [exact F2|lia|done].
Qed.

(** What the words of a finished stack say. *)
Lemma stack_contents m sp ta te args envs aux :
  words m sp (Z.of_nat (length args) :: addrs ta args ++ 0 :: addrs te envs ++ 0 :: aux) →
  Forall2 (cstring m) (addrs ta args) args → Forall2 (cstring m) (addrs te envs) envs →
  Forall (λ s, length s < fuel)%nat args → Forall (λ s, length s < fuel)%nat envs →
  (length args < fuel)%nat → (length envs < fuel)%nat → total args < ta → total envs < te →
  read64 m sp = Z.of_nat (length args) ∧ read_strv fuel fuel m (sp + 8) = Some args ∧
  read_strv fuel fuel m (sp + 8 * (Z.of_nat (length args) + 2)) = Some envs ∧
  words m (sp + 8 * (Z.of_nat (length args) + Z.of_nat (length envs) + 3)) aux.
Proof.
  intros Hw Sa Se Fa Fe Hna Hne Ta Te. apply words_cons in Hw as [Hn Hw].
  apply (words_app _ _ (addrs ta args)) in Hw as [Wa Hw].
  apply words_cons in Hw as [H0 Hw]. apply (words_app _ _ (addrs te envs)) in Hw as [We Hw].
  apply words_cons in Hw as [H1 Hw]. rewrite !length_addrs in *.
  split_and!; [done| | |].
  - apply (read_strv_run _ _ _ _ (addrs ta args)); try done; [|by apply addrs_nonzero].
    apply words_app. split; [done|]. rewrite length_addrs. apply words_cons. split; [done|by intros ??].
  - apply (read_strv_run _ _ _ _ (addrs te envs)); try done; [|by apply addrs_nonzero].
    replace (sp + 8 * (Z.of_nat (length args) + 2)) with (sp + 8 + 8 * Z.of_nat (length args) + 8) by lia.
    apply words_app. split; [done|]. rewrite length_addrs. apply words_cons. split; [done|by intros ??].
  - intros k v Hk. rewrite <-(Hw k v Hk). f_equal. lia.
Qed.

(** C30: [copyargs] builds the stack a program expects, for vectors of
    fewer than 2^31 strings it can read and a stack with room for them; with more strings
    the [int] that counts the pointers overflows.  The new stack pointer is
    a multiple of 16; the word there counts the arguments; the program reads back
    the argument strings from the pointers behind it and the environment strings
    from the pointers behind those, and finds the auxiliary vector after them.
    Nothing below the stack pointer or above the stack is written. *)
Theorem copyargs_stack pkg args envs argp envp aps eps lo m :
  let top := ep_stack pkg in
  let narg := Z.of_nat (length args) in
  let nenv := Z.of_nat (length envs) in
  strings_at fuel m envp eps envs lo top → strings_at fuel m argp aps args lo top →
  (length args < fuel)%nat → (length envs < fuel)%nat →
  0 ≤ lo → lo + stack_room args envs ≤ top → top < 2^64 → Forall (λ v, 0 ≤ v < 2^64) (auxv pkg) →
  let r := copyargs fuel AT_ENTRY AT_PHDR AT_PHENT AT_PHNUM pkg argp envp m in
  if decide (nenv < 2^31 ∧ narg < 2^31) then
    ∃ sp m', r = Ok (set_sp sp pkg, m') ∧
      lo ≤ sp ∧ sp mod 16 = 0 ∧ same_outside sp top m m' ∧
      read64 m' sp = narg ∧
      read_strv fuel fuel m' (sp + 8) = Some args ∧
      read_strv fuel fuel m' (sp + 8 * (narg + 2)) = Some envs ∧
      words m' (sp + 8 * (narg + nenv + 3)) (auxv pkg)
  else is_undef r.
Proof.
  intros top narg nenv He Ha Hna Hne Hlo Hl Ht Haux r. unfold stack_room, vector_words_of in Hl.
  pose proof (total_nonneg envs). pose proof (total_nonneg args).
  destruct (copied_strings args envs argp envp aps eps top lo m He Ha Hna Hne Hlo ltac:(lia) Ht)
    as (m1 & m2 & R1 & R2 & F2 & Se & Sa).
  set (T := top - total envs - total args) in *.
  destruct (vectors_top_spec T (narg + nenv)) as [Hp Hal]; [lia..|].
  unfold r, copyargs. fold top. rewrite (bind_step _ _ _ _ _ R1), (bind_step _ _ _ _ _ R2).
  set (p := vectors_top T (narg + nenv + 3)) in *.
  destruct (auxvs_words pkg p m2 Haux ltac:(lia)) as (m3 & R3 & F3 & W3). rewrite (bind_step _ _ _ _ _ R3).
  assert (same_outside lo top m m3) as G3 by (intros x Hx; rewrite (F3 x), (F2 x) by lia; done).
  destruct (vector_words fuel envs envp eps (p - 80) top m3 (auxv pkg)) as (m4 & m5 & R4 & E4 & R5 & F5 & W5); try lia; [|done|].
  { apply (strings_at_sub _ _ _ _ _ lo top); [|lia..]. by apply (strings_at_same _ m). }
  rewrite (bind_step _ _ _ _ _ R4). cbv zeta. fold nenv in E4 |- *. rewrite E4. unfold point_loop.
  destruct (Z.leb_spec (2^31) nenv); [by rewrite decide_False by lia|].
  assert (Z.to_nat nenv = length envs) as -> by (unfold nenv; lia). rewrite (bind_step _ _ _ _ _ R5).
  set (q := p - 80 - 8 - 8 * nenv) in *.
  assert (same_outside lo top m m5) as G5 by (intros x Hx; rewrite (F5 x), (G3 x) by lia; done).
  destruct (vector_words fuel args argp aps q (top - total envs) m5 (addrs top envs ++ 0 :: auxv pkg))
    as (m6 & m7 & R6 & E6 & R7 & F7 & W7); try lia; [|done|].
  { apply (strings_at_sub _ _ _ _ _ lo top); [|lia..]. by apply (strings_at_same _ m). }
  rewrite (bind_step _ _ _ _ _ R6). cbv zeta. fold narg in E6 |- *. rewrite E6.
  destruct (Z.leb_spec (2^31) narg); [by rewrite decide_False by lia|].
  assert (Z.to_nat narg = length args) as -> by (unfold narg; lia). rewrite (bind_step _ _ _ _ _ R7).
  set (b := q - 8 - 8 * narg) in *.
  destruct (push_words narg b m7 (addrs (top - total envs) args ++ 0 :: addrs top envs ++ 0 :: auxv pkg))
    as (m8 & R8 & F8 & W8); [lia..|done|]. rewrite (bind_step _ _ _ _ _ R8).
  assert (b - 8 = p - 8 * (narg + nenv + 13)) as Eb by lia.
  rewrite decide_True by done. exists (b - 8), m8. do 3 (split; [done || lia || by rewrite Eb|]). split.
  { intros x Hx. rewrite (F8 x), (F7 x), (F5 x), (F3 x), (F2 x) by lia. done. }
  assert (same_outside (b - 8) p m2 m8) as G by (intros x Hx; rewrite (F8 x), (F7 x), (F5 x), (F3 x) by lia; done).
  apply (stack_contents m8 (b - 8) (top - total envs) top); try done; try lia.
  - by apply (addrs_kept (b - 8) p m2); [|lia|].
  - by apply (addrs_kept (b - 8) p m2); [|lia|].
  - exact (sa_fuel _ _ _ _ _ _ _ Ha).
  - exact (sa_fuel _ _ _ _ _ _ _ He).
Qed.
End stack.
(** ** A concrete run: [argp = { "sh" }], [envp = { "A=1" }] *)
Definition exec_mem : mem := λ x,
  if x =? 0x100 + 1 then 2 else if x =? 0x120 + 1 then 2 else if x =? 0x120 then 0x10 else
  if in_range 0x200 2 x then nth (Z.to_nat (x - 0x200)) [115; 104] 0 else
  if in_range 0x210 3 x then nth (Z.to_nat (x - 0x210)) [65; 61; 49] 0 else 0.
Definition exec_pkg : exec_package := ExecPackage 0 0x8000 0 0x401000 0x40 56 4.

Lemma exec_strings vec p s :
  (vec, p, s) ∈ [(0x100, 0x200, [115; 104]); (0x120, 0x210, [65; 61; 49])] →
  strings_at 10 exec_mem vec [p] [s] 0x7000 0x8000.
Proof.
  intros H. repeat (apply elem_of_cons in H as [H|H]; [injection H as -> -> ->|]); [| |by apply elem_of_nil in H];
    (split; [intros [|[|k]] v Hk; simplify_eq/=; reflexivity|..]).
  all: try (repeat constructor; (simpl; lia) || (unfold misses; simpl; lia)).
  all: apply Forall2_cons; split; [|by apply Forall2_nil].
  all: unfold cstring; split; [reflexivity|]; split; [reflexivity|]; by repeat (apply Forall_cons; split).
Qed.
Lemma copyargs_stack_witness :
  ∃ sp m', copyargs 10 9 3 4 5 exec_pkg 0x100 0x120 exec_mem = Ok (set_sp sp exec_pkg, m') ∧ sp mod 16 = 0 ∧
    read_strv 10 10 m' (sp + 8) = Some [[115; 104]] ∧ words m' (sp + 40) (auxv 9 3 4 5 exec_pkg).
Proof.
  unshelve epose proof (copyargs_stack 10 9 3 4 5 exec_pkg [[115; 104]] [[65; 61; 49]] 0x100 0x120 [0x200] [0x210] 0x7000 exec_mem
    _ _ _ _ _ _ _ _) as H.
  - apply exec_strings. by right; left.
  - apply exec_strings. by left.
  - simpl. lia.
  - simpl. lia.
  - lia.
  - vm_compute. congruence.
  - vm_compute. congruence.
  - by repeat constructor.
  - cbv zeta in H. rewrite decide_True in H by done.
    destruct H as (sp & m' & H1 & H2 & H3 & H4 & H5 & H6 & H7 & H8).
    exists sp, m'. split; [exact H1|]. split; [exact H3|]. split; [exact H6|exact H8].
Defined.
