(* ===== verification/Amiga.v ===== *)
(** * The loader for the Amiga: amiga/stand/loadscalux.c

    A program of its own, on a big-endian machine with addresses of 32 bits.  It
    reads the kernel's program headers, its segments and its dynamic table, and
    relocates it.  The file is its bytes and a position; [exit] and failed
    assertions are [Fatal].  The layouts and numbers of elf.h are the class [Elf32];
    [AllocMem] belongs to the machine's operating system and is an argument. *)

From S2P Require Import Prelude VmPage Klib.
Open Scope Z_scope.

(** What the loader uses of the structures of elf.h. *)
Record ehdr32 := Ehdr { e_ident : list Z; e_machine : Z; e_phnum : Z; e_entry : Z }.
Record phdr32 := Phdr { p_type : Z; p_offset : Z; p_vaddr : Z; p_filesz : Z; p_memsz : Z }.
Record dyn32 := Dyn { d_tag : Z; d_val : Z }.
Record rela32 := Rela { r_offset : Z; r_type : Z; r_addend : Z }.
Class Elf32 := {
  sizeof_ehdr : Z; ehdr_of : list Z → ehdr32;
  sizeof_phdr : Z; phdr_of : list Z → phdr32;
  sizeof_dyn : Z; dyn_of : list Z → dyn32;
  sizeof_rela : Z; rela_of : list Z → rela32;
  ELFMAG : list Z;
  EM_68K : Z; PT_LOAD : Z; PT_DYNAMIC : Z;
  DT_NULL : Z; DT_HASH : Z; DT_STRTAB : Z; DT_SYMTAB : Z; DT_RELA : Z; DT_RELACOUNT : Z;
  R_68K_RELATIVE : Z;
}.

(** A [uint32_t], most significant byte first. *)
Definition read32 (m : mem) (a : Z) : Z := 2^24 * m a + 2^16 * m (a + 1) + 2^8 * m (a + 2) + m (a + 3).
Definition write32 (a v : Z) (m : mem) : mem :=
  λ x, if in_range a 4 x then (v / 2^(8 * (a + 3 - x))) mod 2^8 else m x.
(** Bytes stored from [a] on. *)
Definition store_bytes (a : Z) (l : list Z) (m : mem) : mem :=
  λ x, if in_range a (Z.of_nat (length l)) x then nth (Z.to_nat (x - a)) l 0 else m x.

Definition ROUNDUP32 (addr align : Z) : Z := Z.land (w32 (addr + align - 1)) (w32 (Z.lnot (align - 1))).

(** Memory, and the position of the file. *)
Record amiga := Amiga { am_mem : mem; am_pos : Z }.
Definition on_mem (f : mem → mem) (s : amiga) : amiga := Amiga (f (am_mem s)) (am_pos s).
Definition set_pos (p : Z) (s : amiga) : amiga := Amiga (am_mem s) p.

(** What the dynamic table says; [rela] and [relacount] have no initial value. *)
Record dyn_info := DynInfo {
  strtab : Z; symtab : Z; symtab_size : Z; di_rela : option Z; relacount : option Z;
}.

Section loader.
Context `{Elf32}.
(** The bytes of the file "vmscalux". *)
Context (file : list Z).

(** [fread(buf, 1, n, file)]: the bytes it stores, as many as it returns. *)
Definition fread (n : Z) : M amiga (list Z) :=
  s ← mget;
  let got := take (Z.to_nat n) (drop (Z.to_nat (am_pos s)) file) in
  mput (set_pos (am_pos s + Z.of_nat (length got)) s);;
  mret got.
(** [fseek(file, off, SEEK_SET)] of a [long] of 32 bits *)
Definition fseek (off : Z) : M amiga Z :=
  if s32 off <? 0 then mret (-1) else mmodify (set_pos off);; mret 0.

Definition read_exactly (n : Z) (what : string) : M amiga (list Z) :=
  got ← fread n;
  if negb (Z.of_nat (length got) =? n) then fatal what else mret got.

Fixpoint read_phdrs (n : nat) : M amiga (list phdr32) :=
  match n with
  | O => mret []
  | S n' =>
      b ← read_exactly sizeof_phdr "failed to read a program header";
      l ← read_phdrs n';
      mret (phdr_of b :: l)
  end.
Definition image_size (phdrs : list phdr32) : Z :=
  foldl (λ size p, Z.max size (w32 (p_vaddr p + p_memsz p))) 0 phdrs.

(** One program header; [dyn] is the dynamic table found so far. *)
Definition load_phdr (base : Z) (dyn : option Z) (phdr : phdr32) : M amiga (option Z) :=
  if p_type phdr =? PT_LOAD then
    r ← fseek (p_offset phdr);
    if r =? -1 then fatal "failed to read a load segment" else
    got ← fread (p_filesz phdr);
    mmodify (on_mem (store_bytes (w32 (base + p_vaddr phdr)) got));;
    if negb (Z.of_nat (length got) =? p_filesz phdr) then fatal "failed to read a load segment" else
    let excess := w32 (p_memsz phdr - p_filesz phdr) in
    mwhen (0 <? excess) (mmodify (on_mem (mem_zero (w32 (base + p_vaddr phdr - excess)) excess)));;
    mret dyn
  else mret (if p_type phdr =? PT_DYNAMIC then Some (w32 (base + p_vaddr phdr)) else dyn).
Fixpoint load_phdrs (base : Z) (dyn : option Z) (phdrs : list phdr32) : M amiga (option Z) :=
  match phdrs with
  | [] => mret dyn
  | p :: l => dyn ← load_phdr base dyn p; load_phdrs base dyn l
  end.

(** The [switch] on the tag of one entry. *)
Definition dyn_entry (base : Z) (m : mem) (i : dyn_info) (d : dyn32) : dyn_info :=
  let p := w32 (base + d_val d) in
  if d_tag d =? DT_STRTAB then DynInfo p (symtab i) (symtab_size i) (di_rela i) (relacount i)
  else if d_tag d =? DT_SYMTAB then DynInfo (strtab i) p (symtab_size i) (di_rela i) (relacount i)
  else if d_tag d =? DT_HASH then DynInfo (strtab i) (symtab i) (read32 m (p + 4)) (di_rela i) (relacount i)
  else if d_tag d =? DT_RELA then DynInfo (strtab i) (symtab i) (symtab_size i) (Some p) (relacount i)
  else if d_tag d =? DT_RELACOUNT then DynInfo (strtab i) (symtab i) (symtab_size i) (di_rela i) (Some (d_val d))
  else i.
Fixpoint scan_dyn (fuel : nat) (base dyn : Z) (i : dyn_info) : M amiga dyn_info :=
  match fuel with
  | O => undef "no DT_NULL"
  | S n =>
      s ← mget;
      let d := dyn_of (bytes_at (am_mem s) dyn (Z.to_nat sizeof_dyn)) in
      if d_tag d =? DT_NULL then mret i else
      scan_dyn n base (dyn + sizeof_dyn) (dyn_entry base (am_mem s) i d)
  end.

Fixpoint relocate (base rela : Z) (n : nat) : M amiga unit :=
  match n with
  | O => mret ()
  | S n' =>
      s ← mget;
      let r := rela_of (bytes_at (am_mem s) rela (Z.to_nat sizeof_rela)) in
      massert (r_type r =? R_68K_RELATIVE) "ELF32_R_TYPE(rela[i].r_info) == R_68K_RELATIVE";;
      mmodify (on_mem (write32 (w32 (base + r_offset r)) (w32 (base + r_addend r))));;
      relocate base (rela + sizeof_rela) n'
  end.

(** [assert(symtab && symtab_size && strtab && rela && relacount)], from left to
    right. *)
Definition check_info (i : dyn_info) : M amiga (Z * Z) :=
  massert (negb (symtab i =? 0) && negb (symtab_size i =? 0) && negb (strtab i =? 0)) "symtab, strtab";;
  rela ← deref (di_rela i) "rela";
  massert (negb (rela =? 0)) "rela";;
  n ← deref (relacount i) "relacount";
  massert (negb (n =? 0)) "relacount";;
  mret (rela, n).

(** From the allocation on; what is called at the end. *)
Definition load (AllocMem : Z → Z) (fuel : nat) (ehdr : ehdr32) (phdrs : list phdr32) : M amiga Z :=
  let base := AllocMem (w32 (image_size phdrs + PGSIZE)) in
  if base =? 0 then fatal "failed to allocate memory" else
  let base := ROUNDUP32 base PGSIZE in
  dyn ← load_phdrs base None phdrs;
  dyn ← deref dyn "dyn";
  i ← scan_dyn fuel base dyn (DynInfo 0 0 0 None None);
  '(rela, n) ← check_info i;
  relocate base rela (Z.to_nat n);;
  mret (w32 (e_entry ehdr + base)).

(** [main]; [memcmp] is over [sizeof ELFMAG] bytes, the NUL at the end of the string
    included. *)
Definition main (AllocMem : Z → Z) (fuel : nat) : M amiga Z :=
  b ← read_exactly sizeof_ehdr "failed to read executable header";
  let ehdr := ehdr_of b in
  let n := S (length ELFMAG) in
  massert (bool_decide (take n (e_ident ehdr) = ELFMAG ++ [0])) "memcmp(ehdr.e_ident, ELFMAG, sizeof ELFMAG) == 0";;
  massert (e_machine ehdr =? EM_68K) "ehdr.e_machine == EM_68K";;
  phdrs ← read_phdrs (Z.to_nat (e_phnum ehdr));
  load AllocMem fuel ehdr phdrs.

(** ** The image *)

(** A header whose segment is in the file, fits the address space and has nothing
    behind its bytes in the file. *)
Record loadable (base : Z) (p : phdr32) : Prop := {
  lo_offset : 0 ≤ p_offset p < 2^31;
  lo_size : 0 ≤ p_filesz p;
  lo_file : p_offset p + p_filesz p ≤ Z.of_nat (length file);
  lo_whole : p_memsz p = p_filesz p;
  lo_addr : 0 ≤ p_vaddr p;
  lo_end : base + p_vaddr p + p_filesz p < 2^32;
}.
Definition seg_bytes (p : phdr32) : list Z := take (Z.to_nat (p_filesz p)) (drop (Z.to_nat (p_offset p)) file).
(** What a list of headers says is at [v] of the image: the last segment counts. *)
Definition image (phdrs : list phdr32) (v : Z) : option Z :=
  foldl (λ o p, if (p_type p =? PT_LOAD) && in_range (p_vaddr p) (p_filesz p) v
                then file !! Z.to_nat (p_offset p + (v - p_vaddr p)) else o) None phdrs.
Definition dynamic (base : Z) (dyn : option Z) (phdrs : list phdr32) : option Z :=
  foldl (λ o p, if p_type p =? PT_LOAD then o else
                if p_type p =? PT_DYNAMIC then Some (w32 (base + p_vaddr p)) else o) dyn phdrs.
Definition loaded (base : Z) (phdrs : list phdr32) (m : mem) : mem :=
  foldl (λ m p, if p_type p =? PT_LOAD then store_bytes (base + p_vaddr p) (seg_bytes p) m else m) m phdrs.

Lemma length_seg_bytes base p : loadable base p → Z.of_nat (length (seg_bytes p)) = p_filesz p.
Proof. intros []. unfold seg_bytes. rewrite length_take, length_drop. lia. Qed.
Lemma store_seg base p m v :
  loadable base p → 0 ≤ base →
  store_bytes (base + p_vaddr p) (seg_bytes p) m (base + v) =
    if in_range (p_vaddr p) (p_filesz p) v
    then default (m (base + v)) (file !! Z.to_nat (p_offset p + (v - p_vaddr p))) else m (base + v).
Proof.
  intros Hp Hb. unfold store_bytes. rewrite (length_seg_bytes base p Hp). unfold in_range.
  replace (base + p_vaddr p <=? base + v) with (p_vaddr p <=? v) by lia.
  replace (base + v <? base + p_vaddr p + p_filesz p) with (v <? p_vaddr p + p_filesz p) by lia.
  destruct (_ && _) eqn:E; [|done]. apply (in_range_spec (p_vaddr p) (p_filesz p) v) in E.
  destruct Hp as [H1 H2 H3 _ H5 _]. replace (base + v - (base + p_vaddr p)) with (v - p_vaddr p) by lia.
  unfold seg_bytes. destruct (file !! Z.to_nat (p_offset p + (v - p_vaddr p))) as [b|] eqn:Eb.
  - simpl. apply nth_lookup_Some. rewrite lookup_take_lt, lookup_drop by lia. rewrite <-Eb. f_equal. lia.
  - apply lookup_ge_None in Eb. lia.
Qed.
(** One segment; the bytes it has behind those in the file are to be zero. *)
Definition whole (p : phdr32) : phdr32 := Phdr (p_type p) (p_offset p) (p_vaddr p) (p_filesz p) (p_filesz p).
Definition clear_excess (base : Z) (p : phdr32) (m : mem) : mem :=
  let excess := w32 (p_memsz p - p_filesz p) in
  if 0 <? excess then mem_zero (w32 (base + p_vaddr p - excess)) excess m else m.
Lemma load_segment_run base dyn p m pos :
  0 ≤ base → p_type p = PT_LOAD → loadable base (whole p) →
  ∃ pos', load_phdr base dyn p (Amiga m pos) =
    Ok (dyn, Amiga (clear_excess base p (store_bytes (base + p_vaddr p) (seg_bytes p) m)) pos').
Proof.
  intros Hb E Hl. pose proof (length_seg_bytes base (whole p) Hl) as Hlen.
  destruct Hl as [H1 H2 H3 _ H5 H6]. simpl in *. fold (seg_bytes (whole p)). change (seg_bytes (whole p)) with (seg_bytes p) in *.
  exists (p_offset p + p_filesz p). unfold load_phdr. rewrite E, Z.eqb_refl.
  unfold fseek. unfold s32 at 1. rewrite Z.mod_small by lia.
  rewrite (proj2 (Z.ltb_ge (p_offset p + 2^31 - 2^31) 0)) by lia.
  rewrite (bind_step _ _ _ 0 (Amiga m (p_offset p))) by done. change (0 =? -1) with false. cbv iota.
  rewrite (bind_step _ _ _ (seg_bytes p) (Amiga m (p_offset p + p_filesz p)))
    by (unfold fread, mbind, M_bind, mget, mput, mret, M_ret; cbn [am_pos]; fold (seg_bytes p); by rewrite Hlen).
  rewrite (bind_step _ _ _ _ _ (mmodify_ok _ _)), Hlen, Z.eqb_refl. cbv iota beta zeta delta [negb clear_excess].
  rewrite (w32_small (base + p_vaddr p)) by lia. by destruct (0 <? _).
Qed.
Lemma load_phdr_run base dyn p m pos :
  0 ≤ base → (p_type p = PT_LOAD → loadable base p) →
  ∃ pos', load_phdr base dyn p (Amiga m pos) = Ok (dynamic base dyn [p], Amiga (loaded base [p] m) pos').
Proof.
  intros Hb Hl. destruct (Z.eqb_spec (p_type p) PT_LOAD) as [E|E].
  - specialize (Hl E). assert (whole p = p) as Ew by (destruct p, Hl; simpl in *; unfold whole; simpl; by f_equal).
    destruct (load_segment_run base dyn p m pos Hb E) as (pos' & Hrun); [by rewrite Ew|]. exists pos'. rewrite Hrun.
    unfold dynamic, loaded, clear_excess. simpl. rewrite E, Z.eqb_refl, (lo_whole _ _ Hl), Z.sub_diag. done.
  - exists pos. unfold load_phdr, dynamic, loaded. simpl. apply Z.eqb_neq in E. rewrite E. by destruct (_ =? PT_DYNAMIC).
Qed.
Lemma load_phdrs_run base l dyn m pos :
  0 ≤ base → (∀ p, p ∈ l → p_type p = PT_LOAD → loadable base p) →
  ∃ pos', load_phdrs base dyn l (Amiga m pos) = Ok (dynamic base dyn l, Amiga (loaded base l m) pos').
Proof.
  intros Hb. revert dyn m pos. induction l as [|p l IH]; intros dyn m pos Hl; [by exists pos|].
  destruct (load_phdr_run base dyn p m pos Hb (Hl p ltac:(left))) as (pos1 & Hrun).
  destruct (IH (dynamic base dyn [p]) (loaded base [p] m) pos1) as (pos2 & Hrun2); [intros q Hq; apply Hl; by right|].
  exists pos2. simpl load_phdrs. by rewrite (bind_step _ _ _ _ _ Hrun).
Qed.
Lemma loaded_image base l m v :
  0 ≤ base → (∀ p, p ∈ l → p_type p = PT_LOAD → loadable base p) →
  loaded base l m (base + v) = default (m (base + v)) (image l v).
Proof.
  intros Hb. induction l as [|p l IH] using rev_ind; intros Hl; [done|].
  unfold loaded, image in *. rewrite !foldl_app. simpl.
  assert (∀ q, q ∈ l → p_type q = PT_LOAD → loadable base q) as Hl' by (intros q Hq; apply Hl; set_solver).
  destruct (Z.eqb_spec (p_type p) PT_LOAD) as [E|E]; [|by apply IH].
  rewrite (store_seg base p) by (done || apply Hl; set_solver). simpl.
  destruct (in_range (p_vaddr p) (p_filesz p) v) eqn:Ev; [|by apply IH].
  destruct (Hl p ltac:(set_solver) E) as [H1 H2 H3 _ H5 _]. apply in_range_spec in Ev.
  destruct (file !! Z.to_nat (p_offset p + (v - p_vaddr p))) as [b|] eqn:Eb; [done|].
  apply lookup_ge_None in Eb. lia.
Qed.

(** ** The tables *)

(** The record at [a] of memory. *)
Definition at_addr {A} (dec : list Z → A) (size : Z) (m : mem) (a : Z) : A := dec (bytes_at m a (Z.to_nat size)).
Definition dyn_table (m : mem) (dyn : Z) (l : list dyn32) : Prop :=
  (∀ i d, l !! i = Some d → at_addr dyn_of sizeof_dyn m (dyn + sizeof_dyn * Z.of_nat i) = d ∧ d_tag d ≠ DT_NULL) ∧
  d_tag (at_addr dyn_of sizeof_dyn m (dyn + sizeof_dyn * Z.of_nat (length l))) = DT_NULL.
Definition rela_table (m : mem) (rela : Z) (l : list rela32) : Prop :=
  ∀ i r, l !! i = Some r → at_addr rela_of sizeof_rela m (rela + sizeof_rela * Z.of_nat i) = r.

Lemma dyn_table_cons m dyn d l :
  dyn_table m dyn (d :: l) →
  at_addr dyn_of sizeof_dyn m dyn = d ∧ d_tag d ≠ DT_NULL ∧ dyn_table m (dyn + sizeof_dyn) l.
Proof.
  intros [H1 H2]. destruct (H1 0%nat d eq_refl) as [Hd Ht]. rewrite Z.mul_0_r, Z.add_0_r in Hd.
  split; [done|]. split; [done|]. split.
  - intros i e Hi. destruct (H1 (S i) e Hi) as [He Hte]. split; [|done]. rewrite <-He. f_equal. lia.
  - rewrite <-H2. do 2 f_equal. simpl. lia.
Qed.
Lemma scan_dyn_run fuel base dyn i l s :
  dyn_table (am_mem s) dyn l → (length l < fuel)%nat →
  scan_dyn fuel base dyn i s = Ok (foldl (dyn_entry base (am_mem s)) i l, s).
Proof.
  revert dyn i l. induction fuel as [|fuel IH]; intros dyn i l Ht Hf; [lia|].
  cbn [scan_dyn]. rewrite (bind_step mget _ s s s) by done. cbv zeta. fold (at_addr dyn_of sizeof_dyn (am_mem s) dyn).
  destruct l as [|d l].
  - destruct Ht as [_ Ht]. simpl in Ht. rewrite Z.mul_0_r, Z.add_0_r in Ht. by rewrite Ht, Z.eqb_refl.
  - apply dyn_table_cons in Ht as (Hd & Hn & Ht). rewrite Hd, (proj2 (Z.eqb_neq _ _)) by done.
    simpl in Hf. apply (IH (dyn + sizeof_dyn) (dyn_entry base (am_mem s) i d) l); [done|lia].
Qed.

(** A relocation that may be done while the table at [rela] is read. *)
Record relocatable (base rela n : Z) (r : rela32) : Prop := {
  rl_type : r_type r = R_68K_RELATIVE;
  rl_offset : 0 ≤ base + r_offset r;
  rl_end : base + r_offset r + 4 ≤ 2^32;
  rl_apart : base + r_offset r + 4 ≤ rela ∨ rela + n ≤ base + r_offset r;
}.
Definition relocated (base : Z) (l : list rela32) (m : mem) : mem :=
  foldl (λ m r, write32 (base + r_offset r) (w32 (base + r_addend r)) m) m l.

Lemma write32_outside a v m x : x < a ∨ a + 4 ≤ x → write32 a v m x = m x.
Proof. intros. unfold write32. by rewrite in_range_false. Qed.
Lemma read32_write32 a v m : 0 ≤ v < 2^32 → read32 (write32 a v m) a = v.
Proof.
  intros Hv. unfold read32, write32. rewrite !in_range_true by lia.
  replace (8 * (a + 3 - a)) with 24 by lia. replace (8 * (a + 3 - (a + 1))) with 16 by lia.
  replace (8 * (a + 3 - (a + 2))) with 8 by lia. replace (8 * (a + 3 - (a + 3))) with 0 by lia.
  change (2^0) with 1. Z.div_mod_to_equations. lia.
Qed.
Lemma read32_same m m' a : (∀ x, a ≤ x < a + 4 → m' x = m x) → read32 m' a = read32 m a.
Proof. intros H'. unfold read32. by rewrite !H' by lia. Qed.

Lemma bytes_at_same m m' a n : (∀ x, a ≤ x < a + Z.of_nat n → m' x = m x) → bytes_at m' a n = bytes_at m a n.
Proof.
  intros H'. unfold bytes_at. apply list_fmap_ext. intros i x Hx.
  apply lookup_seqZ in Hx as [-> ?]. apply H'. lia.
Qed.
Lemma rela_table_cons m rela r l :
  rela_table m rela (r :: l) → at_addr rela_of sizeof_rela m rela = r ∧ rela_table m (rela + sizeof_rela) l.
Proof.
  intros Ht. split; [rewrite <-(Ht 0%nat r eq_refl); f_equal; lia|].
  intros i e Hi. rewrite <-(Ht (S i) e Hi). f_equal. lia.
Qed.
Lemma rela_table_same m m' rela l :
  0 ≤ sizeof_rela → (∀ x, rela ≤ x < rela + sizeof_rela * Z.of_nat (length l) → m' x = m x) →
  rela_table m rela l → rela_table m' rela l.
Proof.
  intros Hsz H' Ht i r Hi. rewrite <-(Ht i r Hi). unfold at_addr. f_equal. apply bytes_at_same.
  intros x Hx. apply H'. apply lookup_lt_Some in Hi. nia.
Qed.
Lemma relocate_run base rela l s :
  0 ≤ base → 0 ≤ sizeof_rela → rela_table (am_mem s) rela l →
  Forall (relocatable base rela (sizeof_rela * Z.of_nat (length l))) l →
  relocate base rela (length l) s = Ok ((), on_mem (relocated base l) s).
Proof.
  intros Hb Hsz. revert rela s. induction l as [|r l IH]; intros rela s Ht Hr; [by destruct s|].
  apply rela_table_cons in Ht as [Hh Ht]. apply Forall_cons in Hr as [[H1 H2 H3 H4] Hr]. simpl length in *.
  cbn [relocate]. rewrite (bind_step mget _ s s s) by done. cbv zeta. fold (at_addr rela_of sizeof_rela (am_mem s) rela).
  rewrite Hh, H1, Z.eqb_refl, massert_bind, (bind_step _ _ _ _ _ (mmodify_ok _ _)).
  rewrite (w32_small (base + r_offset r)) by lia. rewrite IH; [done| |].
  - apply (rela_table_same (am_mem s)); [done| |done]. intros x Hx. apply write32_outside. lia.
  - eapply Forall_impl; [exact Hr|]. intros e [E1 E2 E3 E4]. split; [done..|]. nia.
Qed.

Definition apart (r e : rela32) : Prop := r_offset r + 4 ≤ r_offset e ∨ r_offset e + 4 ≤ r_offset r.
Lemma relocated_outside base l m x :
  Forall (λ r, x < base + r_offset r ∨ base + r_offset r + 4 ≤ x) l → relocated base l m x = m x.
Proof.
  revert m. induction l as [|r l IH]; intros m Hx; [done|]. apply Forall_cons in Hx as [Hr Hx].
  unfold relocated in *. simpl. rewrite IH by done. by apply write32_outside.
Qed.
Lemma relocated_at base l m r :
  ForallOrdPairs apart l → r ∈ l → read32 (relocated base l m) (base + r_offset r) = w32 (base + r_addend r).
Proof.
  intros Hp. revert m. induction Hp as [|e l He _ IH]; intros m; [by intros ?%elem_of_nil|].
  intros [->|Hr]%elem_of_cons; unfold relocated in *; simpl; [|by apply IH].
  rewrite <-(read32_write32 (base + r_offset e) (w32 (base + r_addend e)) m) at 2 by apply w32_range.
  apply read32_same. intros x Hx. apply (relocated_outside base l).
  eapply Forall_impl; [exact He|]. unfold apart. intros r' Hr'. lia.
Qed.

(** ** The allocation *)

Lemma roundup_spec a : 0 ≤ a → a + PGSIZE ≤ 2^32 → a ≤ ROUNDUP32 a PGSIZE < a + PGSIZE ∧ ROUNDUP32 a PGSIZE mod PGSIZE = 0.
Proof.
  intros Ha Hm. unfold PGSIZE in *.
  assert (ROUNDUP32 a 4096 = (a + 4096 - 1) / 4096 * 4096) as ->.
  { unfold ROUNDUP32. rewrite (w32_small (a + 4096 - 1)) by lia. apply (land_lnot_mod 32 _ 12); lia. }
  pose proof (Z.div_mod (a + 4096 - 1) 4096 ltac:(lia)). pose proof (Z.mod_pos_bound (a + 4096 - 1) 4096 ltac:(lia)).
  split; [lia|]. by apply Z.mod_mul.
Qed.

(** Every segment ends inside the size that is asked for. *)
Lemma image_size_from l size : size ≤ foldl (λ size p, Z.max size (w32 (p_vaddr p + p_memsz p))) size l.
Proof. revert size. induction l as [|q l IH]; intros size; simpl; [lia|]. etrans; [|apply IH]. lia. Qed.
Lemma image_size_ge l p : p ∈ l → 0 ≤ p_vaddr p + p_memsz p < 2^32 → p_vaddr p + p_memsz p ≤ image_size l.
Proof.
  unfold image_size. generalize 0 at 2 as size. induction l as [|q l IH]; intros size Hin H0; [by apply elem_of_nil in Hin|].
  simpl. apply elem_of_cons in Hin as [->|Hin]; [|by apply IH].
  etrans; [|apply image_size_from]. rewrite w32_small by lia. lia.
Qed.

(** C29: [load], the part of [main] after it has read the program headers, loads and
    relocates the kernel.  [main] gets there only through the check of [ELFMAG], which no
    32-bit ELF file passes ([main_rejects]).  The segments are in the file and have
    no memory behind their bytes there ([p_memsz] is [p_filesz]), a dynamic table is in
    one of them, and the relocations do not overlap.  It returns the address of the entry point;
    the image starts on a page boundary, inside the memory that was allocated, and so
    do all segments end; every relocation's word is its
    addend plus the base; every other byte of the image is the file's, and memory
    outside the segments is as it was. *)
Theorem load_correct AllocMem fuel ehdr phdrs m pos dyn ds rela rs :
  let size := image_size phdrs + PGSIZE in
  let block := AllocMem (w32 size) in
  let base := ROUNDUP32 block PGSIZE in
  let m1 := loaded base phdrs m in
  let i := foldl (dyn_entry base m1) (DynInfo 0 0 0 None None) ds in
  0 < block → block + size ≤ 2^32 →
  (∀ p, p ∈ phdrs → p_type p = PT_LOAD → loadable base p) → dynamic base None phdrs = Some dyn →
  dyn_table m1 dyn ds → (length ds < fuel)%nat →
  symtab i ≠ 0 → symtab_size i ≠ 0 → strtab i ≠ 0 → di_rela i = Some rela → rela ≠ 0 →
  relacount i = Some (Z.of_nat (length rs)) → rs ≠ [] → 0 ≤ sizeof_rela → rela_table m1 rela rs →
  Forall (relocatable base rela (sizeof_rela * Z.of_nat (length rs))) rs → ForallOrdPairs apart rs →
  ∃ s', load AllocMem fuel ehdr phdrs (Amiga m pos) = Ok (w32 (e_entry ehdr + base), s') ∧
    base mod PGSIZE = 0 ∧ block ≤ base ∧
    (∀ p, p ∈ phdrs → p_type p = PT_LOAD → base + p_vaddr p + p_memsz p ≤ block + size) ∧
    (∀ r, r ∈ rs → read32 (am_mem s') (base + r_offset r) = w32 (base + r_addend r)) ∧
    (∀ v, Forall (λ r, v < r_offset r ∨ r_offset r + 4 ≤ v) rs →
       am_mem s' (base + v) = default (m (base + v)) (image phdrs v)).
Proof.
  intros size block base m1 i Hblk Hfit Hl Hdyn Hdt Hfuel Hsym Hsyms Hstr Hrela Hrela0 Hcnt Hrs Hsr Hrt Hrel Hap.
  pose proof (image_size_from phdrs 0) as Hsz0. fold (image_size phdrs) in Hsz0.
  destruct (roundup_spec block) as [Hb Hm]; [lia|unfold size in *; lia|]. fold base in Hb, Hm.
  destruct (load_phdrs_run base phdrs None m pos ltac:(lia) Hl) as (pos' & Hrun). fold m1 in Hrun.
  exists (on_mem (relocated base rs) (Amiga m1 pos')). split; [|split; [done|split; [lia|split; [|split]]]].
  - unfold load. fold size. fold block. cbv zeta. rewrite (proj2 (Z.eqb_neq block 0)) by lia. fold base.
    rewrite (bind_step _ _ _ _ _ Hrun), Hdyn, deref_bind, (bind_step _ _ _ _ _ (scan_dyn_run fuel base dyn _ ds (Amiga m1 pos') Hdt Hfuel)).
    cbn [am_mem]. fold i. rewrite (bind_step _ _ _ (rela, Z.of_nat (length rs)) (Amiga m1 pos')).
    + rewrite Nat2Z.id, (bind_step _ _ _ _ _ (relocate_run base rela rs (Amiga m1 pos') ltac:(lia) Hsr Hrt Hrel)). done.
    + unfold check_info. rewrite !(proj2 (Z.eqb_neq _ _)) by done. rewrite massert_bind, Hrela, deref_bind.
      rewrite (proj2 (Z.eqb_neq rela 0)) by done. rewrite massert_bind, Hcnt, deref_bind.
      rewrite (proj2 (Z.eqb_neq _ 0)) by (destruct rs; simpl; [done|lia]). by rewrite massert_bind.
  - intros p Hp E. destruct (Hl p Hp E) as [? ? ? Hw ? ?].
    pose proof (image_size_ge phdrs p Hp ltac:(lia)). unfold size. lia.
  - intros r Hr. by apply relocated_at.
  - intros v Hv. cbn [on_mem am_mem]. rewrite relocated_outside; [by apply loaded_image; [lia|]|].
    eapply Forall_impl; [exact Hv|]. simpl. intros r Hr'. lia.
Qed.

(** The memory a segment has behind its bytes in the file, [excess] bytes, is not cleared
    as it should be: it keeps what the allocation had, and the same number
    of bytes in front of the segment are cleared instead. *)
Theorem load_phdr_excess base dyn p m pos :
  0 ≤ base → p_type p = PT_LOAD → loadable base (whole p) →
  let excess := p_memsz p - p_filesz p in
  0 < excess < 2^32 → excess ≤ base + p_vaddr p →
  ∃ m' pos', load_phdr base dyn p (Amiga m pos) = Ok (dyn, Amiga m' pos') ∧
    (∀ x, base + p_vaddr p + p_filesz p ≤ x → m' x = m x) ∧
    (∀ x, base + p_vaddr p - excess ≤ x < base + p_vaddr p → m' x = 0).
Proof.
  intros Hb E Hl excess He Hlow. destruct (load_segment_run base dyn p m pos Hb E Hl) as (pos' & Hrun).
  pose proof (length_seg_bytes base (whole p) Hl) as Hlen. destruct Hl as [_ H2 _ _ H5 H6]. simpl in *.
  change (seg_bytes (whole p)) with (seg_bytes p) in Hlen.
  eexists _, pos'. split; [exact Hrun|]. unfold clear_excess. fold excess.
  rewrite (w32_small excess), (proj2 (Z.ltb_lt 0 excess)), w32_small by lia.
  split; intros x Hx; unfold mem_zero.
  - rewrite in_range_false by lia. unfold store_bytes. by rewrite in_range_false by lia.
  - by rewrite in_range_true by lia.
Qed.

(** The check of the header compares one byte more than the magic number has: no file
    whose class, the byte behind it, is not 0 passes; and the class of every 32-bit
    ELF file is 1. *)
Theorem main_rejects AllocMem fuel m c :
  0 ≤ sizeof_ehdr ≤ Z.of_nat (length file) →
  e_ident (ehdr_of (take (Z.to_nat sizeof_ehdr) file)) !! length ELFMAG = Some c → c ≠ 0 →
  main AllocMem fuel (Amiga m 0) =
    Fatal "memcmp(ehdr.e_ident, ELFMAG, sizeof ELFMAG) == 0".
Proof.
  intros Hsz Hc Hn. unfold main.
  rewrite (bind_step _ _ _ (take (Z.to_nat sizeof_ehdr) file) (Amiga m sizeof_ehdr)).
  - cbv zeta. rewrite bool_decide_eq_false_2; [done|]. intros Et. apply Hn.
    assert (take (S (length ELFMAG)) (e_ident (ehdr_of (take (Z.to_nat sizeof_ehdr) file))) !! length ELFMAG = Some c) as Hl
      by (rewrite lookup_take_lt by lia; done).
    rewrite Et, lookup_app_r, Nat.sub_diag in Hl by done. by injection Hl.
  - unfold read_exactly, fread, mbind, M_bind, mget, mput, mret, M_ret. cbn [am_pos]. rewrite drop_0.
    assert (Z.of_nat (length (take (Z.to_nat sizeof_ehdr) file)) = sizeof_ehdr) as -> by (rewrite length_take; lia).
    rewrite Z.eqb_refl. unfold set_pos. cbn [negb am_mem am_pos]. done.
Qed.
End loader.

(** ** A small kernel: one segment of 84 bytes with its tables, one relocation *)

(** [n] bytes at [off], most significant first. *)
Definition be (l : list Z) (off n : nat) : Z := foldl (λ a b, 2^8 * a + b) 0 (take n (drop off l)).
#[local] Instance elf32 : Elf32 := {|
  sizeof_ehdr := 52; ehdr_of l := Ehdr (take 16 l) (be l 18 2) (be l 44 2) (be l 24 4);
  sizeof_phdr := 32; phdr_of l := Phdr (be l 0 4) (be l 4 4) (be l 8 4) (be l 16 4) (be l 20 4);
  sizeof_dyn := 8; dyn_of l := Dyn (be l 0 4) (be l 4 4);
  sizeof_rela := 12; rela_of l := Rela (be l 0 4) (be l 7 1) (s32 (be l 8 4));
  ELFMAG := [127; 69; 76; 70]; EM_68K := 4; PT_LOAD := 1; PT_DYNAMIC := 2;
  DT_NULL := 0; DT_HASH := 4; DT_STRTAB := 5; DT_SYMTAB := 6; DT_RELA := 7; DT_RELACOUNT := 0x6ffffff9;
  R_68K_RELATIVE := 22;
|}.
Definition word (v : Z) : list Z := [v / 2^24; (v / 2^16) mod 2^8; (v / 2^8) mod 2^8; v mod 2^8].
Definition kernel_dyn : list dyn32 := [Dyn 4 0; Dyn 5 8; Dyn 6 12; Dyn 7 72; Dyn 0x6ffffff9 1].
Definition kernel_file : list Z :=
  (word 1 ++ word 2 ++ word 0 ++ word 0) ++ (kernel_dyn ≫= λ d, word (d_tag d) ++ word (d_val d)) ++
  (word 0 ++ word 0) ++ (word 0 ++ word 0) ++ (word 64 ++ word 22 ++ word 8).
Definition kernel_phdrs : list phdr32 := [Phdr 1 0 0 84 84; Phdr 2 16 16 48 48].

Lemma load_correct_witness :
  ∃ s', load kernel_file (λ _, 0x10004) 6 (Ehdr [] 4 2 32) kernel_phdrs (Amiga (λ _, 255) 0) = Ok (0x11020, s') ∧
    read32 (am_mem s') 0x11040 = 0x11008 ∧ am_mem s' 0x11007 = 2 ∧ am_mem s' 0x11054 = 255.
Proof.
  destruct (load_correct kernel_file (λ _, 0x10004) 6 (Ehdr [] 4 2 32) kernel_phdrs (λ _, 255) 0 0x11010 kernel_dyn
    0x11048 [Rela 64 22 8]) as (s' & Hrun & _ & _ & _ & Hr & Hv).
  - done.
  - vm_compute. congruence.
  - intros p [->|[->|[]%elem_of_nil]%elem_of_cons]%elem_of_cons E; [|by vm_compute in E].
    split; vm_compute; (split; congruence) || congruence.
  - reflexivity.
  - split; [|vm_compute; reflexivity]. intros i d Hi.
    do 5 (destruct i as [|i]; [injection Hi as <-; split; [vm_compute; reflexivity|done]|]). done.
  - simpl. lia.
  - vm_compute. congruence.
  - vm_compute. congruence.
  - vm_compute. congruence.
  - vm_compute. reflexivity.
  - done.
  - vm_compute. reflexivity.
  - done.
  - done.
  - intros [|[|i]] r Hi; [injection Hi as <-; vm_compute; reflexivity|done..].
  - constructor; [|constructor]. split; vm_compute; try congruence. left. congruence.
  - repeat constructor.
  - exists s'. split; [exact Hrun|]. split; [exact (Hr (Rela 64 22 8) ltac:(left))|]. split.
    + apply (Hv 7). repeat constructor.
    + apply (Hv 84). constructor; [right; simpl; lia|constructor].
Defined.
